(* ===== verification/_CoqProject ===== *)
-Q . S2P
Prelude.v
Dict.v
DictSpec.v
DictScan.v
Reply.v
UserTable.v
Chat.v
ChatSpec.v
Scenario.v
Rand.v
Md5.v
Md5Spec.v
Register.v
RegisterSpec.v
SessionSpec.v
Ihex.v
IhexSpec.v
Tftp.v
Sds.v
Util.v
Libc.v
SdsBuf.v
SdsBufSpec.v
Ini.v
IniSpec.v
Query.v
OutObj.v
OutObjSpec.v
OutObjRun.v
Command.v
QuerySpec.v
QuerySafe.v
CommandSpec.v
Config.v
ConfigSpec.v
System.v
SystemSpec.v
ConfigRun.v
CronSpec.v
LimitSpec.v
Adlist.v
AdlistSpec.v
Ae.v
AeSpec.v
Startup.v
StartupSpec.v
DConn.v
DConnSpec.v
DLoop.v
DLoopSpec.v
DLoopSafe.v
