(* ===== verification/Prelude.v ===== *)
(** * Verification of the My-smart-home servers and firmware

    The repository holds three programs of its own around a smart home:

    - the chat server, [src/server/src]: Redis 2.8.6 whose command table has
      been reduced to four commands ([chat], [node], [register] and [r]).
      People and devices ("nodes") connect over TCP, log in and exchange
      messages; accounts come from a database, are kept in a table in memory
      and are marked on or off line;
    - the dispatcher, [src/dserver]: a multi-threaded server in the manner of
      memcached that tells clients which message server to use;
    - the boot loader of the devices,
      [src/hardware/Hellduino_Bootloader/tftp_boot]: it receives a program as
      Intel HEX text over TFTP and writes it to flash.

    This library translates their core into Rocq functions and proves them
    correct.  Each file that models code names its sources; definitions keep
    the names of the C functions, and helper definitions are the bodies of
    loops.

    ** Conventions

    C integers are [Z] reduced to their width where the code stores them
    ([u8] .. [s64] below), with the bit operations [&.], [|.], [^.] and [~.]
    of the scope below.  Arrays and byte buffers are lists accessed with
    [zget] and [zset], which fail out of range; a C string inside a buffer is
    its prefix before the first zero ([cstr]).  Pointers are keys of a finite map.  An
    operation that can go wrong in the sense of C (a null or dangling
    pointer, an index out of range, an overflowing [sprintf], a failed
    assertion, [abort]) returns [option], and [None] is that fault; errors
    the program handles are ordinary results.  [let?] threads the option.
    A null pointer given to [%s] of [sprintf] is such a fault in the chat
    server; in the dispatcher, whose trace of every command ends with one,
    it is printed the way the GNU library does.
    A loop whose recursion is not structural takes fuel, and running out of
    fuel is also [None]: every theorem that says a call returns, or does not
    fault, therefore also says that the fuel was enough.  Where fuel is an
    argument the theorems give the amount: a loop over a buffer takes at most
    as many turns as it has bytes, a walk over a chain as many as its nodes,
    a search for a power of two 64; where handlers decide how long a loop
    runs ([Ae.time_loop]) some fuel is shown to be enough and more to make no
    difference, for a clock whose readings during the call lie within a time
    that every handler asks to exceed; without that condition the code itself
    need not return, which is shown too.  Configuration files include one another: the fuel of
    [Config.exec] is the depth of inclusion, enough when every file includes
    only files of smaller rank; without such a rank the server itself does
    not return, which is proved for a file that includes itself.  The search
    for a limit of open files ([Startup.raise_limit]) needs as many turns as
    the limit asked for has steps of 128.

    Code outside the repository is a parameter: the database is a query and
    an update function ([Register]), handlers of the event loop and the
    kernel are functions or labels of steps ([Ae], [DLoop]), the Ethernet
    chip is a class with the laws of a register file ([Tftp]), the
    registry of message servers is a function ([DConn]), the file system is a
    function from names to contents ([Ini], [Config]), and the resolver,
    sockets and resource limits are functions the kernel answers with
    ([Startup]).  The hash table is
    used by its clients through an interface ([UserTable.UserDict] and the
    laws [UserDictSpec]), which the hash table of [dict.c] is proved to satisfy.

    ** The chat server

    - [Dict] models [dict.c]: hash functions, two tables, expansion,
      incremental rehashing, insertion, deletion, lookup and iterators.
      [DictSpec] shows that any sequence of operations does what it does to a
      finite map, that rehashing terminates and loses nothing, that an
      iterator yields every entry once.  [DictScan] adds the scan cursor,
      random keys and emptying: a scan returns every entry that stays, unless
      the table shrinks to a quarter in its middle.
    - [Adlist] models [adlist.c], doubly linked lists on nodes in memory;
      [AdlistSpec] shows that they implement plain lists.
    - [Ae] models [ae.c] with [ae_epoll.c], the event loop.  [AeSpec]: the
      table of file events implements a map that the kernel's interest list
      follows; while the clock runs, time events fire once when due and not
      before; a turn of the loop returns; the timeout is exact.
    - [Reply] models the output side of [networking.c]: the static buffer, the
      reply list and the write handler; replies leave in order, and a
      client that accepts data gets them all.  [OutObj] models the same
      lists as the code has them, with shared reference-counted objects,
      accounting, limits and the queue of clients to close; [OutObjSpec] and
      [OutObjRun] show that they implement the buffers of [Reply], that
      counts and sizes are right, and that the queue is emptied.
    - [UserTable] models [mydictuser.c]: users, their nodes and their states,
      reachable through a dictionary and a linked list that must agree.
    - [Chat] models [mychat.c], [mydebug.c], the loading of accounts of
      [mydump.c], and the creation and release of clients.  [ChatSpec]: a
      message reaches exactly its addressees if it fits the buffer of the
      code, an account is on exactly when a client is logged in, commands
      whose words fit the buffers do not fault, a login without the right
      credentials is refused.  [Scenario] runs a concrete server and shows
      defects of the code on concrete inputs.
    - [Rand], [Md5] and [Md5Spec] model [rand.c] and [md5.c] and prove them
      against the 48-bit generator, RFC 1321 and RFC 2104, with the reads of
      the trace that [md5_update] prints; [Register] and [RegisterSpec] model
      [myregister.c], which uses both, with the variable that
      [mysql_is_exist] reads before it is written as an input.
      [SessionSpec] shows of every command that, whatever its words and
      whatever the database answers, accounts and sessions agree afterwards
      if it does not fault.
    - [Sds] and [Util] model the parts of [sds.c] and [util.c] that the parser
      uses: quoting and splitting of arguments, decimal numbers.  [SdsBuf]
      models all of [sds.c] on buffers with their lengths and free space;
      [SdsBufSpec]: they implement byte strings, and splitting and joining
      are inverse.
    - [Query] models the request parser of [networking.c].  [QuerySpec]:
      encoded requests are parsed back however they are cut into reads;
      [QuerySafe]: arbitrary bytes never make it fail, and serving them is
      executing the requests it extracts in turn.
    - [Command] models the command table and [processCommand] of [redis.c];
      [CommandSpec]: only the four commands act, and only when every guard
      admits them.
    - [System] composes the parser, the dispatcher and the commands into the
      handlers the event loop calls; a run of the server is a sequence of
      their calls and of steps of the thread that loads the accounts, each of
      which enters one account with its nodes.  [SystemSpec] carries the
      invariants of the parts to the whole, for two kinds of runs: in those of
      [net_run] anything may be sent and answered and a run ends where the
      code faults, and sessions are consistent in all of their states; those
      of [net_reachable] consist of events that fit the buffers of the code
      ([net_ok]), and nothing faults in them.  [CronSpec]: the timer closes
      idle clients and no others.
    - [Libc] models the functions of the C library that read numbers and
      lines.  [Config] models the loader of [config.c]: the defaults, every
      directive, included files and the command line.  [ConfigSpec]: an option
      on the command line is executed as its words after the file, a loaded
      configuration is in range whatever the file says, renaming a
      command does so in the map the command table stands for, and loading returns
      whenever inclusion is not circular.  [ConfigRun] gives the amounts
      of memory a meaning and runs the loader on concrete files.
      [LimitSpec]: a server started with a loaded configuration keeps to its
      number of clients, its timeout and its frequency of the timer.
    - [Startup] models how the server opens its sockets: the limit of open
      files, [listenToPort], the listening half of [anet.c] and the first
      events of the loop.  [StartupSpec]: the clients admitted fit the limit
      of files whenever the sum does not wrap around, the sockets are bound to the addresses configured, and a
      started server waits for connections on every one of them.

    ** The boot loader

    - [Ihex] models [ihex.c] and [validate.c]: ring buffer, line and record
      parser, page FIFO, writing of pages.  [IhexSpec]: these implement
      queues, and an uploaded image that fits the application part of the
      flash is what the flash then holds, the rest being as it was.
    - [Tftp] models [tftp.c], [net.c] and the loop of [tftp_main.c] over the
      chip's registers: packets are read and responses written across the
      wrap of the chip's memory, and an interrupted download never boots
      (with a chip that opens a socket when told to).

    ** The dispatcher

    - [Ini] models [ini.c] and [setting.c], which read and print the
      dispatcher's settings.  [IniSpec]: the in-place parser calls its handler
      with the pairs a reference grammar assigns to the lines, and reads back
      any printed list of sections.
    - [DConn] models one connection of [servernet.c] and [loadbalance.c]:
      buffers, tokenizer, commands, the state machine.  [DConnSpec]: however
      input and output are cut, a client gets exactly the replies to its
      commands, as long as memory lasts and the registry replies.
    - [DLoop] models the worker threads of [thread.c], the event table of the
      dispatcher's [ae_epoll.c] and accepting, closing and recycling of
      connections, as a step relation over interleavings.  [DLoopSpec] holds
      the ownership invariant and [DLoopSafe] the conclusions: for every
      number of workers and every schedule, under the same conditions, no two
      workers share a connection and no step faults.

    ** What is not modelled

    - Redis' data types, persistence, replication, scripting,
      publish/subscribe, transactions and sentinel: no command reaches them,
      the table being reduced; accordingly the parts of [freeClient],
      [processCommand] and the cron that serve replication, blocking or
      watched keys appear as guards on flags, and the outcome of
      [freeMemoryIfNeeded] is an input.
    - Replies of integer objects and lengths filled in later, which no
      command sends; statistics counters, log output and the fingerprint of a
      dictionary.  Reference counts are unbounded numbers: each equals the
      number of holders in memory, which an [int] holds.
    - CONFIG SET, GET and REWRITE, which the reduced command table does not
      reach, and the directives of sentinel; the initialisation of databases,
      statistics and logging in [initServer]; the connecting half of
      [anet.c], which only replication and the tools use.
    - [mychat_reply] and [chat_register], which nothing calls, and
      [conn_nread] of the dispatcher, whose item is never allocated.
    - MySQL itself, and the interleaving of the thread that loads the
      accounts with the event loop inside the insertion of one account (the
      code has no lock).
    - The [select], [kqueue] and [evport] back ends, [aeWait], and the
      release of an event loop.
    - Initialisation of the Ethernet chip and of the watchdog, which are
      sequences of register writes; the serial boot loader optiboot; the
      vendored FastDFS, hiredis, jemalloc, lua and linenoise; the clients in
      other languages. *)

From stdpp Require Export base tactics numbers list gmap strings.
From Stdlib Require Export ZArith Lia.

#[global] Open Scope Z_scope.

(** ** Machine integers

    A [w]-bit unsigned C object is a [Z] in [0, 2^w); storing an
    arbitrary integer into it reduces it modulo [2^w].  Signed objects use
    two's complement. *)

Definition wrapu (w z : Z) : Z := z mod 2 ^ w.
Definition wraps (w z : Z) : Z := (z + 2 ^ (w - 1)) mod 2 ^ w - 2 ^ (w - 1).

Abbreviation u8 := (wrapu 8).
Abbreviation u16 := (wrapu 16).
Abbreviation u32 := (wrapu 32).
Abbreviation u64 := (wrapu 64).
Abbreviation s8 := (wraps 8).
Abbreviation s16 := (wraps 16).
Abbreviation s32 := (wraps 32).
Abbreviation s64 := (wraps 64).

Create HintDb cint.

Lemma wrapu_small w z : 0 <= z < 2 ^ w -> wrapu w z = z.
Proof. intros; by apply Z.mod_small. Qed.

Lemma wrapu_bound w z : 0 <= w -> 0 <= wrapu w z < 2 ^ w.
Proof. intros; apply Z.mod_pos_bound; by apply Z.pow_pos_nonneg. Qed.

Lemma wraps_small w z : 0 < w -> - 2 ^ (w - 1) <= z < 2 ^ (w - 1) -> wraps w z = z.
Proof.
  intros Hw Hz. unfold wraps.
  assert (2 ^ w = 2 * 2 ^ (w - 1)) as E.
  { rewrite <- Z.pow_succ_r by lia. f_equal; lia. }
  rewrite Z.mod_small; lia.
Qed.

Lemma wraps_bound w z : 0 < w -> - 2 ^ (w - 1) <= wraps w z < 2 ^ (w - 1).
Proof.
  intros Hw. unfold wraps.
  assert (2 ^ w = 2 * 2 ^ (w - 1)) as E.
  { rewrite <- Z.pow_succ_r by lia. f_equal; lia. }
  pose proof (Z.mod_pos_bound (z + 2 ^ (w - 1)) (2 ^ w)
                (Z.pow_pos_nonneg 2 w ltac:(lia) ltac:(lia))). lia.
Qed.

Lemma s8_small z : - 2 ^ 7 <= z < 2 ^ 7 -> s8 z = z.
Proof. intros. apply wraps_small; [done|simpl; done]. Qed.
Lemma s16_small z : - 2 ^ 15 <= z < 2 ^ 15 -> s16 z = z.
Proof. intros. apply wraps_small; [done|simpl; done]. Qed.
Lemma s32_small z : - 2 ^ 31 <= z < 2 ^ 31 -> s32 z = z.
Proof. intros. apply wraps_small; [done|simpl; done]. Qed.
Lemma s64_small z : - 2 ^ 63 <= z < 2 ^ 63 -> s64 z = z.
Proof. intros. apply wraps_small; [done|simpl; done]. Qed.

Lemma wrapu_idem w z : 0 <= w -> wrapu w (wrapu w z) = wrapu w z.
Proof. intros. apply wrapu_small, wrapu_bound; lia. Qed.

Lemma wrapu_add_l w a b : 0 <= w -> wrapu w (wrapu w a + b) = wrapu w (a + b).
Proof. intros. apply Zplus_mod_idemp_l. Qed.

Lemma wrapu_add_r w a b : 0 <= w -> wrapu w (a + wrapu w b) = wrapu w (a + b).
Proof. intros. apply Zplus_mod_idemp_r. Qed.

(** Masking with [2^k - 1] is reduction modulo [2^k]. *)
Lemma land_pow2_mask z k : 0 <= k -> Z.land z (2 ^ k - 1) = z mod 2 ^ k.
Proof. intros. rewrite <- Z.land_ones, Z.ones_equiv by lia. f_equal. Qed.

(** Joining a low part below [2^k] with a shifted high part. *)
Lemma lor_shiftl_add lo hi k : 0 <= k -> 0 <= lo < 2 ^ k -> Z.lor lo (Z.shiftl hi k) = lo + hi * 2 ^ k.
Proof.
  intros Hk Hlo. rewrite <- Z.shiftl_mul_pow2 by done.
  assert (Z.land lo (Z.shiftl hi k) = 0) as Hz.
  { apply Z.bits_inj'. intros i Hi. rewrite Z.land_spec, Z.bits_0.
    destruct (Z.lt_ge_cases i k); [rewrite (Z.shiftl_spec_low hi) by done; apply andb_false_r|].
    rewrite <- (Z.mod_small lo (2 ^ k)), Z.mod_pow2_bits_high by done. done. }
  by rewrite <- Z.lxor_lor, <- Z.add_nocarry_lxor.
Qed.

(** [cint] computes the bounds of the standard widths and calls [lia]. *)
Ltac cint :=
  change (2 ^ 8) with 256 in *; change (2 ^ 16) with 65536 in *;
  change (2 ^ 7) with 128 in *; change (2 ^ 15) with 32768 in *;
  change (2 ^ 30) with 1073741824 in *;
  change (2 ^ 31) with 2147483648 in *; change (2 ^ 32) with 4294967296 in *;
  change (2 ^ 62) with 4611686018427387904 in *;
  change (2 ^ 63) with 9223372036854775808 in *;
  change (2 ^ 64) with 18446744073709551616 in *; lia.

#[export] Hint Extern 1 (0 <= wrapu ?w ?z < 2 ^ ?w) => (apply wrapu_bound; lia) : cint.

(** ** Partial operations

    Code that would read or write outside an object, dereference a null
    pointer or fail an [assert] has no defined result: such operations
    return [None], and [let?] propagates it. *)

Definition obind {A B} (o : option A) (f : A -> option B) : option B :=
  match o with Some a => f a | None => None end.

Notation "'let?' x := e 'in' k" := (obind e (fun x => k))
  (at level 10, x pattern, e at level 200, k at level 200,
   format "'[v' 'let?'  x  :=  e  'in' '/' k ']'").

Lemma obind_Some {A B} (o : option A) (f : A -> option B) b :
  obind o f = Some b <-> exists a, o = Some a /\ f a = Some b.
Proof. destruct o; simpl; split; [eauto|intros (? & [=] & ?); by subst|done|by intros (? & ? & _)]. Qed.

(** Bitwise operators, written as in C with a trailing dot. *)
Declare Scope c_scope.
Delimit Scope c_scope with C.
Notation "x &. y" := (Z.land x y) (at level 40, left associativity) : c_scope.
Notation "x ^. y" := (Z.lxor x y) (at level 43, left associativity) : c_scope.
Notation "x |. y" := (Z.lor x y) (at level 45, left associativity) : c_scope.
Notation "~. x" := (Z.lnot x) (at level 35, right associativity) : c_scope.
#[global] Open Scope c_scope.

(** ** Lists indexed by machine integers *)

(** [a[i]] for a C array: [None] models an access outside the object. *)
Definition zget {A} (l : list A) (i : Z) : option A :=
  if (0 <=? i) then l !! Z.to_nat i else None.

Definition zset {A} (l : list A) (i : Z) (x : A) : option (list A) :=
  if (0 <=? i) && (i <? Z.of_nat (length l)) then Some (<[Z.to_nat i := x]> l) else None.

Abbreviation zlen l := (Z.of_nat (length l)).

Lemma zget_Some {A} (l : list A) i x :
  zget l i = Some x <-> 0 <= i /\ l !! Z.to_nat i = Some x.
Proof. unfold zget. destruct (Z.leb_spec 0 i); intuition (congruence || lia). Qed.

Lemma zget_lt_Some {A} (l : list A) i x : zget l i = Some x -> 0 <= i < zlen l.
Proof. rewrite zget_Some. intros [? H%lookup_lt_Some]. lia. Qed.

Lemma zget_is_Some {A} (l : list A) i : 0 <= i < zlen l -> is_Some (zget l i).
Proof.
  intros. unfold zget. rewrite (proj2 (Z.leb_le 0 i)) by lia.
  apply lookup_lt_is_Some_2; lia.
Qed.

Lemma zset_Some {A} (l : list A) i x l' :
  zset l i x = Some l' <-> 0 <= i < zlen l /\ l' = <[Z.to_nat i := x]> l.
Proof.
  unfold zset. destruct (Z.leb_spec 0 i), (Z.ltb_spec i (zlen l)); simpl;
    intuition (congruence || lia).
Qed.

Lemma zset_length {A} (l : list A) i x l' : zset l i x = Some l' -> length l' = length l.
Proof. rewrite zset_Some. intros [_ ->]. apply length_insert. Qed.

(** A range of [n] elements from offset [off], or an access outside the
    object; and [memcpy]/[memmove] of [bs] to offset [off]. *)
Definition zread {A} (l : list A) (off n : Z) : option (list A) :=
  if (0 <=? off) && (0 <=? n) && (off + n <=? zlen l)
  then Some (take (Z.to_nat n) (drop (Z.to_nat off) l)) else None.

Definition zwrite {A} (l : list A) (off : Z) (bs : list A) : option (list A) :=
  if (0 <=? off) && (off + zlen bs <=? zlen l)
  then Some (take (Z.to_nat off) l ++ bs ++ drop (Z.to_nat off + length bs) l) else None.

Lemma zread_Some {A} (l : list A) off n r :
  zread l off n = Some r <->
  (0 <= off /\ 0 <= n /\ off + n <= zlen l) /\ r = take (Z.to_nat n) (drop (Z.to_nat off) l).
Proof.
  unfold zread. destruct (Z.leb_spec 0 off), (Z.leb_spec 0 n), (Z.leb_spec (off + n) (zlen l)); simpl;
    intuition (congruence || lia).
Qed.

Lemma zwrite_Some {A} (l : list A) off bs r :
  zwrite l off bs = Some r <->
  (0 <= off /\ off + zlen bs <= zlen l) /\
  r = take (Z.to_nat off) l ++ bs ++ drop (Z.to_nat off + length bs) l.
Proof.
  unfold zwrite. destruct (Z.leb_spec 0 off), (Z.leb_spec (off + zlen bs) (zlen l)); simpl;
    intuition (congruence || lia).
Qed.

Lemma zwrite_length {A} (l : list A) off bs r : zwrite l off bs = Some r -> length r = length l.
Proof.
  rewrite zwrite_Some. intros [[??] ->]. rewrite !length_app, length_take, length_drop. lia.
Qed.

Lemma zread_length {A} (l : list A) off n r : zread l off n = Some r -> zlen r = n.
Proof. rewrite zread_Some. intros [(?&?&?) ->]. rewrite length_take, length_drop. lia. Qed.

Lemma zread_insert_lt {A} (l : list A) i x off n :
  (i < Z.to_nat off)%nat -> zread (<[i := x]> l) off n = zread l off n.
Proof. intros. unfold zread. by rewrite length_insert, drop_insert_lt. Qed.

Lemma zread_cons {A} (l : list A) off n x r :
  zread l off n = Some (x :: r) <->
  0 < n /\ zget l off = Some x /\ zread l (off + 1) (n - 1) = Some r.
Proof.
  rewrite !zread_Some, zget_Some. split.
  - intros [(?&?&?) E]. assert (0 < n) as Hn.
    { destruct (Z.lt_ge_cases 0 n); [done|]. replace (Z.to_nat n) with 0%nat in E by lia. done. }
    split; [done|]. assert (l !! Z.to_nat off = Some x) as Hx.
    { rewrite <- (Nat.add_0_r (Z.to_nat off)), <- lookup_drop.
      rewrite <- (lookup_take_lt _ (Z.to_nat n)), <- E by lia. done. }
    split; [done|]. split; [lia|]. rewrite (drop_S _ _ _ Hx) in E.
    replace (Z.to_nat n) with (S (Z.to_nat (n - 1))) in E by lia.
    replace (Z.to_nat (off + 1)) with (S (Z.to_nat off)) by lia. simpl in E. congruence.
  - intros (Hn & [H0 Hx] & (?&?&?) & ->). split; [lia|]. rewrite (drop_S _ _ _ Hx).
    replace (Z.to_nat n) with (S (Z.to_nat (n - 1))) by lia.
    replace (Z.to_nat (off + 1)) with (S (Z.to_nat off)) by lia. done.
Qed.

Lemma zread_insert_eq {A} (l : list A) off n x y r :
  zread l off n = Some (x :: r) -> zread (<[Z.to_nat off := y]> l) off n = Some (y :: r).
Proof.
  rewrite !zread_cons. intros (? & [? Hx]%zget_Some & ?). split; [done|].
  split; [apply zget_Some; split; [done|]; apply list_lookup_insert_eq; by eapply lookup_lt_Some|].
  rewrite zread_insert_lt by lia. done.
Qed.

Lemma zget_insert {A} (l : list A) i x : 0 <= i < zlen l -> zget (<[Z.to_nat i := x]> l) i = Some x.
Proof. intros. apply zget_Some. split; [lia|]. apply list_lookup_insert_eq. lia. Qed.

Lemma zset_ok {A} (l : list A) i x : 0 <= i < zlen l -> zset l i x = Some (<[Z.to_nat i := x]> l).
Proof. intros. by apply zset_Some. Qed.

(** A list that starts a longer one and is long enough contains its first
    part. *)
Lemma app_long {A} (X T p Q : list A) :
  (length p <= length X)%nat -> X ++ T = p ++ Q -> exists k, X = p ++ k /\ k ++ T = Q.
Proof.
  intros Hl E. exists (drop (length p) X). assert (take (length p) X = p) as Hp.
  { rewrite <- (take_app_le X T), E by done. by rewrite take_app_length. }
  split; [by rewrite <- Hp at 1; rewrite take_drop|].
  rewrite <- drop_app_le, E by done. by rewrite drop_app_length.
Qed.

(** ** C strings *)

Definition byte_of_ascii (a : Ascii.ascii) : Z := Z.of_N (Ascii.N_of_ascii a).

(** The bytes of a string literal. *)
Fixpoint bytes_of_string (s : string) : list Z :=
  match s with
  | EmptyString => []
  | String a s => byte_of_ascii a :: bytes_of_string s
  end.

Arguments bytes_of_string s%_string_scope.

(** [tolower] in the C locale. *)
Definition tolower (c : Z) : Z := if (65 <=? c) && (c <=? 90) then c + 32 else c.

(** What C string functions see of a byte sequence: everything before the
    first NUL. *)
Fixpoint cstr (s : list Z) : list Z :=
  match s with
  | [] => []
  | c :: s => if c =? 0 then [] else c :: cstr s
  end.

(** [strcmp(a,b) == 0]. *)
Definition streq (a b : list Z) : bool := bool_decide (cstr a = cstr b).

(** [strcasecmp(a,b) == 0]. *)
Definition strcaseeq (a b : list Z) : bool :=
  bool_decide (tolower <$> cstr a = tolower <$> cstr b).

Definition strlen (s : list Z) : Z := zlen (cstr s).

(** [strcpy(dst,src)] into an array of [cap] bytes: the new contents of the
    array as a C string, or an overflow. *)
Definition strcpy (cap : Z) (src : list Z) : option (list Z) :=
  if strlen src <? cap then Some (cstr src) else None.

(** [sprintf(dst,...)] into an array of [cap] bytes, given the formatted
    text. *)
Definition sprintf (cap : Z) (text : list Z) : option (list Z) :=
  if zlen text <? cap then Some text else None.

(** [%-<w>s]: pad on the right to a width of [w]. *)
Definition pad_right (w : Z) (s : list Z) : list Z :=
  s ++ replicate (Z.to_nat (w - zlen s)) 32.

(** [%d]: decimal digits, at most twenty of them, which covers 64 bits. *)
Fixpoint digits (fuel : nat) (n : Z) : list Z :=
  match fuel with
  | O => []
  | S fuel => if n <? 10 then [48 + n] else digits fuel (n / 10) ++ [48 + n mod 10]
  end.

Definition fmt_d (z : Z) : list Z :=
  if z <? 0 then 45 :: digits 20 (- z) else digits 20 z.

Definition CRLF : list Z := [13; 10].

Lemma cstr_idem s : cstr (cstr s) = cstr s.
Proof.
  induction s as [|c s IH]; [done|]. simpl. destruct (c =? 0) eqn:E; [done|].
  simpl. by rewrite E, IH.
Qed.

Lemma length_cstr s : (length (cstr s) <= length s)%nat.
Proof. induction s as [|c s IH]; simpl; [lia|]. destruct (c =? 0); simpl; lia. Qed.

(** A byte sequence without NUL is its own C string. *)
Lemma cstr_id s : Forall (fun c => c <> 0) s -> cstr s = s.
Proof.
  induction 1 as [|c s Hc _ IH]; [done|]. simpl.
  rewrite (proj2 (Z.eqb_neq c 0)) by done. by rewrite IH.
Qed.

(** A terminated string. *)
Lemma cstr_terminated s r : 0 ∉ s -> cstr (s ++ 0 :: r) = s.
Proof.
  induction s as [|c s IH]; intros Hz; [done|].
  apply not_elem_of_cons in Hz as [??]. simpl.
  rewrite (proj2 (Z.eqb_neq c 0)) by congruence. by rewrite IH.
Qed.

Lemma cstr_app s r : 0 ∉ s -> cstr (s ++ r) = s ++ cstr r.
Proof.
  induction s as [|c s IH]; intros Hz; [done|].
  apply not_elem_of_cons in Hz as [??]. simpl.
  rewrite (proj2 (Z.eqb_neq c 0)) by congruence. by rewrite IH.
Qed.

Lemma cstr_no_nul s : 0 ∉ cstr s.
Proof.
  induction s as [|c s IH]; simpl; [apply not_elem_of_nil|].
  destruct (Z.eqb_spec c 0); [apply not_elem_of_nil|]. by apply not_elem_of_cons.
Qed.

(** [memchr]: the index of the first [x]. *)
Fixpoint memchr (x : Z) (l : list Z) : option Z :=
  match l with
  | [] => None
  | y :: l => if y =? x then Some 0 else let? i := memchr x l in Some (i + 1)
  end.

(** [strchr]: the index of the first [x] before the NUL. *)
Definition strchr (x : Z) (s : list Z) : option Z := memchr x (cstr s).

Lemma memchr_None x l : x ∉ l -> memchr x l = None.
Proof.
  induction l as [|y l IH]; intros Hx; simpl; [done|]. apply not_elem_of_cons in Hx as [??].
  rewrite (proj2 (Z.eqb_neq y x)) by congruence. by rewrite IH.
Qed.

Lemma memchr_Some x l r : x ∉ l -> memchr x (l ++ x :: r) = Some (zlen l).
Proof.
  induction l as [|y l IH]; intros Hx; simpl; [by rewrite Z.eqb_refl|].
  apply not_elem_of_cons in Hx as [??]. rewrite (proj2 (Z.eqb_neq y x)) by congruence.
  rewrite IH by done. simpl. f_equal. lia.
Qed.

Lemma strchr_Some x l r : 0 ∉ l -> x ∉ l -> x <> 0 -> strchr x (l ++ x :: r) = Some (zlen l).
Proof.
  intros Hz Hx Hx0. unfold strchr. rewrite cstr_app by done. cbn [cstr].
  rewrite (proj2 (Z.eqb_neq x 0)) by done. by apply memchr_Some.
Qed.

Lemma strchr_None x s : x ∉ s -> strchr x s = None.
Proof.
  intros Hx. apply memchr_None. intros H. apply Hx. clear Hx. induction s as [|c s IH]; simpl in H; [done|].
  destruct (c =? 0); [by apply elem_of_nil in H|]. apply elem_of_cons in H as [->|H]; constructor. by apply IH.
Qed.

Lemma strcpy_Some cap s : strlen s < cap -> strcpy cap s = Some (cstr s).
Proof. intros. unfold strcpy. by rewrite (proj2 (Z.ltb_lt _ _)). Qed.

Lemma sprintf_Some cap s : zlen s < cap -> sprintf cap s = Some s.
Proof. intros. unfold sprintf. by rewrite (proj2 (Z.ltb_lt _ _)). Qed.

Lemma length_pad_right w s : zlen (pad_right w s) = Z.max w (zlen s).
Proof. unfold pad_right. rewrite length_app, length_replicate. lia. Qed.

Lemma length_digits fuel n : (length (digits fuel n) <= fuel)%nat.
Proof.
  revert n. induction fuel as [|fuel IH]; intros n; simpl; [lia|].
  destruct (n <? 10); simpl; [lia|]. rewrite length_app. simpl. specialize (IH (n / 10)). lia.
Qed.

Lemma length_fmt_d z : zlen (fmt_d z) <= 21.
Proof.
  unfold fmt_d. destruct (z <? 0); cbn [length];
    [pose proof (length_digits 20 (- z))|pose proof (length_digits 20 z)]; lia.
Qed.

Lemma fmt_d_chars z : 0 <= z -> Forall (fun c => 48 <= c <= 57) (fmt_d z).
Proof.
  intros Hz. unfold fmt_d. rewrite (proj2 (Z.ltb_ge z 0)) by lia.
  generalize 20%nat. intros n. revert z Hz.
  induction n as [|n IH]; intros z Hz; simpl; [constructor|].
  destruct (Z.ltb_spec z 10).
  - repeat constructor; lia.
  - apply Forall_app. split; [apply IH; apply Z.div_pos; lia|].
    repeat constructor; pose proof (Z.mod_pos_bound z 10); lia.
Qed.

Lemma streq_true a b : streq a b = true <-> cstr a = cstr b.
Proof. apply bool_decide_eq_true. Qed.

(** ** Proof automation *)

(** Case analysis on the test of the conditional or match that blocks the
    goal or a hypothesis, keeping the equation. *)
Ltac split_test :=
  match goal with
  | |- context [if ?b then _ else _] => destruct b eqn:?
  | H : context [if ?b then _ else _] |- _ => destruct b eqn:?
  end.

Ltac opt_inv :=
  repeat match goal with
  | H : obind _ _ = Some _ |- _ => apply obind_Some in H as (? & ? & H)
  | H : Some _ = Some _ |- _ => injection H as H
  | H : None = Some _ |- _ => discriminate H
  | H : (_, _) = (_, _) |- _ => injection H as H
  end; simplify_eq.
