(* ===== verification/Dict.v ===== *)
(** * dict.c: chained hash tables with incremental rehashing *)

From S2P Require Import Prelude.

Module HashTable.

(** ** Hash functions *)

(** Thomas Wang's 32 bit mix function. *)
Definition dictIntHashFunction (key : Z) : Z :=
  let key := u32 (key + u32 (~. (u32 (key ≪ 15)))) in
  let key := key ^. (key ≫ 10) in
  let key := u32 (key + u32 (key ≪ 3)) in
  let key := key ^. (key ≫ 6) in
  let key := u32 (key + u32 (~. (u32 (key ≪ 11)))) in
  key ^. (key ≫ 16).

Definition dictIdentityHashFunction (key : Z) : Z := key.

Section MurmurHash2.

(** The mixing constants [m] and [r] of the function. *)
Let m := 0x5bd1e995.
Let r := 24.

(** One round of the main loop: a 4-byte word [k] is mixed into [h]. *)
Definition murmur_round (h k : Z) : Z :=
  let k := u32 (k * m) in
  let k := k ^. (k ≫ r) in
  let k := u32 (k * m) in
  let h := u32 (h * m) in
  h ^. k.

(** The loop on [len >= 4] and the fall-through [switch] on the rest; a
    4-byte word is read in the little-endian order of the target. *)
Fixpoint murmur_loop (data : list Z) (h : Z) : Z :=
  match data with
  | b0 :: b1 :: b2 :: b3 :: data =>
      murmur_loop data
        (murmur_round h (b0 |. (b1 ≪ 8) |. (b2 ≪ 16) |. (b3 ≪ 24)))
  | [b0; b1; b2] => u32 ((h ^. (b2 ≪ 16) ^. (b1 ≪ 8) ^. b0) * m)
  | [b0; b1] => u32 ((h ^. (b1 ≪ 8) ^. b0) * m)
  | [b0] => u32 ((h ^. b0) * m)
  | [] => h
  end.

Definition dictGenHashFunction (seed : Z) (key : list Z) : Z :=
  let h := seed ^. u32 (zlen key) in
  let h := murmur_loop key h in
  let h := h ^. (h ≫ 13) in
  let h := u32 (h * m) in
  h ^. (h ≫ 15).

End MurmurHash2.

(** The case-insensitive hash: djb2 over the lowered bytes. *)
Fixpoint casehash_loop (buf : list Z) (hash : Z) : Z :=
  match buf with
  | [] => hash
  | c :: buf => casehash_loop buf (u32 (u32 (u32 (hash ≪ 5) + hash) + tolower c))
  end.

Definition dictGenCaseHashFunction (seed : Z) (buf : list Z) : Z :=
  casehash_loop buf (u32 seed).

(** ** Data *)

Definition DICT_OK : Z := 0.
Definition DICT_ERR : Z := 1.
Definition DICT_HT_INITIAL_SIZE : Z := 4.
Definition dict_force_resize_ratio : Z := 5.
Definition LONG_MAX : Z := 2 ^ 63 - 1.

Record dictType (K V : Type) := DictType {
  hashFunction : K -> Z;
  keyDup : option (K -> K);
  valDup : option (V -> V);
  keyCompare : option (K -> K -> bool)
}.
Arguments DictType {K V}.
Arguments hashFunction {K V}.
Arguments keyDup {K V}.
Arguments valDup {K V}.
Arguments keyCompare {K V}.

(** A chain of entries is a list; [v] is [None] between [dictAddRaw] and
    [dictSetVal]. *)
Record dictEntry (K V : Type) := DictEntry { key : K; v : option V }.
Arguments DictEntry {K V}.
Arguments key {K V}.
Arguments v {K V}.

(** [table = NULL] is the empty list. *)
Record dictht (K V : Type) := Dictht {
  table : list (list (dictEntry K V));
  size : Z;
  sizemask : Z;
  used : Z
}.
Arguments Dictht {K V}.
Arguments table {K V}.
Arguments size {K V}.
Arguments sizemask {K V}.
Arguments used {K V}.

Record dict (K V : Type) := Dict {
  ht0 : dictht K V;
  ht1 : dictht K V;
  rehashidx : Z;
  iterators : Z
}.
Arguments Dict {K V}.
Arguments ht0 {K V}.
Arguments ht1 {K V}.
Arguments rehashidx {K V}.
Arguments iterators {K V}.

(** A pointer to an entry: which table, which bucket, which place in the
    chain. *)
Record entryref := EntryRef { eTable : Z; eIdx : Z; ePos : nat }.

Section Dict.
Context {K V : Type} `{EqDecision K}.

(** The [type] field of the dictionary, fixed by [dictCreate]. *)
Context (ty : dictType K V).
(** The global [dict_can_resize]. *)
Context (dict_can_resize : bool).

Implicit Types (d : dict K V) (h : dictht K V) (k : K) (e : dictEntry K V).

Definition dictHashKey (k : K) : Z := hashFunction ty k.

Definition dictCompareKeys (k1 k2 : K) : bool :=
  match keyCompare ty with
  | Some cmp => cmp k1 k2
  | None => bool_decide (k1 = k2)
  end.

Definition dictSetKey (k : K) : K :=
  match keyDup ty with Some dup => dup k | None => k end.

Definition dictSize d : Z := u64 (used (ht0 d) + used (ht1 d)).
Definition dictSlots d : Z := u64 (size (ht0 d) + size (ht1 d)).
Definition dictIsRehashing d : bool := negb (rehashidx d =? -1).

Definition get_ht d (t : Z) : dictht K V := if t =? 0 then ht0 d else ht1 d.
Definition set_ht d (t : Z) h : dict K V :=
  if t =? 0 then Dict h (ht1 d) (rehashidx d) (iterators d)
  else Dict (ht0 d) h (rehashidx d) (iterators d).

(** ** Creation and resizing *)

Definition _dictReset : dictht K V := Dictht [] 0 0 0.

Definition _dictInit : dict K V := Dict _dictReset _dictReset (-1) 0.

Definition dictCreate : dict K V := _dictInit.

(** The doubling loop of [_dictNextPower]. *)
Fixpoint nextPower_loop (fuel : nat) (i sz : Z) : option Z :=
  match fuel with
  | O => None
  | S fuel => if sz <=? i then Some i else nextPower_loop fuel (u64 (i * 2)) sz
  end.

(** [unsigned long] has 64 bits: 64 doublings are more than the loop needs. *)
Definition _dictNextPower (sz : Z) : option Z :=
  if LONG_MAX <=? sz then Some LONG_MAX
  else nextPower_loop 64 DICT_HT_INITIAL_SIZE sz.

Definition dictExpand d (sz : Z) : option (dict K V * Z) :=
  let? realsize := _dictNextPower sz in
  if dictIsRehashing d || (sz <? used (ht0 d)) then Some (d, DICT_ERR)
  else
    let n := Dictht (replicate (Z.to_nat realsize) []) realsize (u64 (realsize - 1)) 0 in
    if bool_decide (table (ht0 d) = []) then
      Some (Dict n (ht1 d) (rehashidx d) (iterators d), DICT_OK)
    else Some (Dict (ht0 d) n 0 (iterators d), DICT_OK).

Definition dictResize d : option (dict K V * Z) :=
  if negb dict_can_resize || dictIsRehashing d then Some (d, DICT_ERR)
  else
    let minimal := s32 (used (ht0 d)) in
    let minimal := if minimal <? DICT_HT_INITIAL_SIZE
                   then DICT_HT_INITIAL_SIZE else minimal in
    dictExpand d (u64 minimal).

(** ** Incremental rehashing *)

(** [while(table[rehashidx] == NULL) rehashidx++], run on the buckets from
    [rehashidx] on; running off the table is an out-of-bounds read. *)
Fixpoint skip_empty (bs : list (list (dictEntry K V))) (idx : Z) : option Z :=
  match bs with
  | [] => None
  | [] :: bs => skip_empty bs (idx + 1)
  | _ :: _ => Some idx
  end.

(** Move the entries of one chain to the new table. *)
Fixpoint rehash_chain (de : list (dictEntry K V)) (h0 h1 : dictht K V)
  : option (dictht K V * dictht K V) :=
  match de with
  | [] => Some (h0, h1)
  | e :: nextde =>
      let h := dictHashKey (key e) &. sizemask h1 in
      let? chain := zget (table h1) h in
      let? t1 := zset (table h1) h (e :: chain) in
      rehash_chain nextde
        (Dictht (table h0) (size h0) (sizemask h0) (u64 (used h0 - 1)))
        (Dictht t1 (size h1) (sizemask h1) (u64 (used h1 + 1)))
  end.

Fixpoint rehash_loop (n : nat) d : option (dict K V * Z) :=
  match n with
  | O => Some (d, 1)
  | S n =>
      if used (ht0 d) =? 0 then
        Some (Dict (ht1 d) _dictReset (-1) (iterators d), 0)
      else if size (ht0 d) <=? u32 (rehashidx d) then None (* assert *)
      else
        let? idx := skip_empty (drop (Z.to_nat (rehashidx d)) (table (ht0 d))) (rehashidx d) in
        let? de := zget (table (ht0 d)) idx in
        let? (h0, h1) := rehash_chain de (ht0 d) (ht1 d) in
        let? t0 := zset (table h0) idx [] in
        rehash_loop n
          (Dict (Dictht t0 (size h0) (sizemask h0) (used h0)) h1
                (s32 (idx + 1)) (iterators d))
  end.

Definition dictRehash d (n : nat) : option (dict K V * Z) :=
  if dictIsRehashing d then rehash_loop n d else Some (d, 0).

Definition _dictRehashStep d : option (dict K V) :=
  if iterators d =? 0 then fst <$> dictRehash d 1 else Some d.

(** The guarded step every lookup and update starts with. *)
Definition rehash_if_needed d : option (dict K V) :=
  if dictIsRehashing d then _dictRehashStep d else Some d.

(** ** Lookup *)

(** Position of the first entry of a chain whose key compares equal. *)
Fixpoint chain_find (k : K) (he : list (dictEntry K V)) : option nat :=
  match he with
  | [] => None
  | e :: he => if dictCompareKeys k (key e) then Some O else S <$> chain_find k he
  end.

(** The search of one table. *)
Definition ht_find (hash : Z) (k : K) d (t : Z) : option (Z * option nat) :=
  let idx := hash &. sizemask (get_ht d t) in
  let? he := zget (table (get_ht d t)) idx in
  Some (idx, chain_find k he).

(** The loop [for (table = 0; table <= 1; table++)] that lookup, insertion
    and deletion share: the entry found, if any, and the bucket index in the
    last table searched.  The second table is searched only while
    rehashing. *)
Definition search_tables d (k : K) : option (Z * option entryref) :=
  let hash := dictHashKey k in
  let? (idx, r) := ht_find hash k d 0 in
  match r with
  | Some pos => Some (idx, Some (EntryRef 0 idx pos))
  | None =>
      if negb (dictIsRehashing d) then Some (idx, None)
      else
        let? (idx, r) := ht_find hash k d 1 in
        Some (idx, match r with Some pos => Some (EntryRef 1 idx pos) | None => None end)
  end.

Definition dictFind d (k : K) : option (dict K V * option entryref) :=
  if size (ht0 d) =? 0 then Some (d, None)
  else
    let? d := rehash_if_needed d in
    let? (_, r) := search_tables d k in
    Some (d, r).

(** Dereference an entry pointer. *)
Definition entry_at d (r : entryref) : option (dictEntry K V) :=
  let? he := zget (table (get_ht d (eTable r))) (eIdx r) in
  he !! ePos r.

Definition dictFetchValue d (k : K) : option (dict K V * option V) :=
  let? (d, r) := dictFind d k in
  match r with
  | None => Some (d, None)
  | Some r => let? e := entry_at d r in Some (d, v e)
  end.

(** ** Insertion *)

Definition _dictExpandIfNeeded d : option (dict K V * Z) :=
  if dictIsRehashing d then Some (d, DICT_OK)
  else if size (ht0 d) =? 0 then dictExpand d DICT_HT_INITIAL_SIZE
  else if (size (ht0 d) <=? used (ht0 d)) &&
          (dict_can_resize ||
           (dict_force_resize_ratio <? used (ht0 d) / size (ht0 d)))
  then dictExpand d (u64 (used (ht0 d) * 2))
  else Some (d, DICT_OK).

(** The index is returned through an [int]. *)
Definition _dictKeyIndex d (k : K) : option (dict K V * Z) :=
  let? (d, st) := _dictExpandIfNeeded d in
  if st =? DICT_ERR then Some (d, -1)
  else
    let? (idx, r) := search_tables d k in
    match r with
    | Some _ => Some (d, -1)
    | None => Some (d, s32 idx)
    end.

Definition dictAddRaw d (k : K) : option (dict K V * option entryref) :=
  let? d := rehash_if_needed d in
  let? (d, index) := _dictKeyIndex d k in
  if index =? -1 then Some (d, None)
  else
    let t := if dictIsRehashing d then 1 else 0 in
    let ht := get_ht d t in
    let? chain := zget (table ht) index in
    let? tb := zset (table ht) index (DictEntry (dictSetKey k) None :: chain) in
    Some (set_ht d t (Dictht tb (size ht) (sizemask ht) (u64 (used ht + 1))),
          Some (EntryRef t index 0)).

Definition dictSetVal d (r : entryref) (val : V) : option (dict K V) :=
  let val := match valDup ty with Some dup => dup val | None => val end in
  let ht := get_ht d (eTable r) in
  let? chain := zget (table ht) (eIdx r) in
  let? e := chain !! ePos r in
  let? tb := zset (table ht) (eIdx r) (<[ePos r := DictEntry (key e) (Some val)]> chain) in
  Some (set_ht d (eTable r) (Dictht tb (size ht) (sizemask ht) (used ht))).

Definition dictAdd d (k : K) (val : V) : option (dict K V * Z) :=
  let? (d, entry) := dictAddRaw d k in
  match entry with
  | None => Some (d, DICT_ERR)
  | Some r => let? d := dictSetVal d r val in Some (d, DICT_OK)
  end.

Definition dictReplace d (k : K) (val : V) : option (dict K V * Z) :=
  let? (d, st) := dictAdd d k val in
  if st =? DICT_OK then Some (d, 1)
  else
    let? (d, entry) := dictFind d k in
    let? r := entry in (* a null entry would be dereferenced *)
    let? d := dictSetVal d r val in
    Some (d, 0).

Definition dictReplaceRaw d (k : K) : option (dict K V * option entryref) :=
  let? (d, entry) := dictFind d k in
  match entry with
  | Some r => Some (d, Some r)
  | None => dictAddRaw d k
  end.

(** ** Deletion *)

(** Unlink the entry at [pos] of bucket [idx] of table [t]. *)
Definition unlink d (t idx : Z) (pos : nat) : option (dict K V) :=
  let ht := get_ht d t in
  let? chain := zget (table ht) idx in
  let? tb := zset (table ht) idx (take pos chain ++ drop (S pos) chain) in
  Some (set_ht d t (Dictht tb (size ht) (sizemask ht) (u64 (used ht - 1)))).

Definition dictGenericDelete d (k : K) : option (dict K V * Z) :=
  if size (ht0 d) =? 0 then Some (d, DICT_ERR)
  else
    let? d := rehash_if_needed d in
    let? (_, r) := search_tables d k in
    match r with
    | Some r =>
        let? d := unlink d (eTable r) (eIdx r) (ePos r) in
        Some (d, DICT_OK)
    | None => Some (d, DICT_ERR)
    end.

Definition dictDelete d (k : K) : option (dict K V * Z) := dictGenericDelete d k.
Definition dictDeleteNoFree d (k : K) : option (dict K V * Z) := dictGenericDelete d k.

(** ** Iteration *)

(** [entry] and [nextEntry] point into a chain: each is the chain from that
    entry on, [[]] for NULL.  The fingerprint that unsafe iterators keep to
    detect misuse is not part of the model. *)
Record dictIterator := DictIterator {
  it_table : Z;
  it_index : Z;
  it_safe : bool;
  it_entry : list (dictEntry K V);
  it_nextEntry : list (dictEntry K V)
}.

Definition dictGetIterator : dictIterator := DictIterator 0 (-1) false [] [].
Definition dictGetSafeIterator : dictIterator := DictIterator 0 (-1) true [] [].

Definition set_iterators d (n : Z) : dict K V := Dict (ht0 d) (ht1 d) (rehashidx d) n.

(** [None] at the end of the two tables. *)
Fixpoint dictNext_loop (fuel : nat) d (it : dictIterator)
  : option (dict K V * dictIterator * option (dictEntry K V)) :=
  match fuel with
  | O => None
  | S fuel =>
      let resume d it (entry : list (dictEntry K V)) :=
        match entry with
        | e :: next =>
            Some (d, DictIterator (it_table it) (it_index it) (it_safe it) entry next, Some e)
        | [] => dictNext_loop fuel d (DictIterator (it_table it) (it_index it) (it_safe it) [] (it_nextEntry it))
        end in
      match it_entry it with
      | [] =>
          let d := if (it_index it =? -1) && (it_table it =? 0) && it_safe it
                   then set_iterators d (s32 (iterators d + 1)) else d in
          let index := it_index it + 1 in
          if size (get_ht d (it_table it)) <=? index then
            if dictIsRehashing d && (it_table it =? 0) then
              let it := DictIterator 1 0 (it_safe it) [] (it_nextEntry it) in
              let? entry := zget (table (ht1 d)) 0 in
              resume d it entry
            else
              Some (d, DictIterator (it_table it) index (it_safe it) [] (it_nextEntry it), None)
          else
            let? entry := zget (table (get_ht d (it_table it))) index in
            resume d (DictIterator (it_table it) index (it_safe it) [] (it_nextEntry it)) entry
      | _ :: _ => resume d it (it_nextEntry it)
      end
  end.

(** Every turn of the loop moves to another bucket: the number of buckets
    bounds them. *)
Definition dictNext d (it : dictIterator)
  : option (dict K V * dictIterator * option (dictEntry K V)) :=
  dictNext_loop (S (S (Z.to_nat (size (ht0 d) + size (ht1 d))))) d it.

Definition dictReleaseIterator d (it : dictIterator) : dict K V :=
  if negb ((it_index it =? -1) && (it_table it =? 0)) && it_safe it
  then set_iterators d (s32 (iterators d - 1)) else d.

(** [while((de = dictNext(di)) != NULL) ...; dictReleaseIterator(di)], the
    body collecting the entries. *)
Fixpoint iterate_loop (fuel : nat) d (it : dictIterator)
  : option (dict K V * list (dictEntry K V)) :=
  match fuel with
  | O => None
  | S fuel =>
      let? (d, it, e) := dictNext d it in
      match e with
      | None => Some (dictReleaseIterator d it, [])
      | Some e =>
          let? (d, es) := iterate_loop fuel d it in
          Some (d, e :: es)
      end
  end.

Definition dict_iterate d : option (dict K V * list (dictEntry K V)) :=
  iterate_loop (S (Z.to_nat (used (ht0 d) + used (ht1 d)))) d dictGetSafeIterator.

End Dict.

(** ** The dictionary type of the user table

    [myuserdict] is created with [commandTableDictType] (redis.c): keys are
    sds strings made by [sdsnew] from C strings, hashed and compared without
    regard to case, and values are stored as they are. *)

Definition nonul (s : list Z) : bool := forallb (fun c => negb (c =? 0)) s.

(** A NUL-free byte sequence: the contents of an sds made by [sdsnew]. *)
Record cstring := CString { cs_bytes : list Z; cs_ok : nonul cs_bytes = true }.

Lemma cstr_nonul s : nonul (cstr s) = true.
Proof.
  induction s as [|c s IH]; [done|]. simpl. destruct (c =? 0) eqn:E; [done|].
  simpl. by rewrite E.
Qed.

(** [sdsnew(init)] copies the bytes before the terminator. *)
Definition sdsnew (s : list Z) : cstring := CString (cstr s) (cstr_nonul s).

Lemma cstring_eq (a b : cstring) : cs_bytes a = cs_bytes b -> a = b.
Proof.
  destruct a as [a Ha], b as [b Hb]. simpl. intros ->. f_equal.
  apply Eqdep_dec.UIP_dec, Bool.bool_dec.
Qed.

#[export] Instance cstring_eq_dec : EqDecision cstring.
Proof.
  intros a b. destruct (decide (cs_bytes a = cs_bytes b)) as [E|E].
  - left. by apply cstring_eq.
  - right. congruence.
Defined.

(** The key the comparison identifies: the lowered bytes. *)
Definition canon_case (k : cstring) : list Z := tolower <$> cs_bytes k.

Definition dictSdsCaseHash (seed : Z) (key : cstring) : Z :=
  dictGenCaseHashFunction seed (cs_bytes key).

Definition dictSdsKeyCaseCompare (key1 key2 : cstring) : bool :=
  strcaseeq (cs_bytes key1) (cs_bytes key2).

Definition commandTableDictType {V} (seed : Z) : dictType cstring V :=
  DictType (dictSdsCaseHash seed) None None (Some dictSdsKeyCaseCompare).

End HashTable.
