(* ===== verification/DictSpec.v ===== *)
(** * dict.c implements a finite map

    The well-formedness invariant of the two tables, its preservation by
    every operation, and the refinement of each operation to the
    corresponding operation of a finite map over canonical keys. *)

From S2P Require Import Prelude Dict.
Import HashTable.

Module DictRefinement.

(** What a [dictType] must promise for the table to be a map: [canon] gives
    the key its comparison identifies (for instance the lowered C string). *)
Class DictTypeOk {K V C : Type} `{EqDecision K} (ty : dictType K V) (canon : K -> C) : Prop := {
  hash_range : forall k, 0 <= dictHashKey ty k < 2 ^ 32;
  hash_canon : forall k1 k2, canon k1 = canon k2 -> dictHashKey ty k1 = dictHashKey ty k2;
  compare_canon : forall k1 k2, dictCompareKeys ty k1 k2 = true <-> canon k1 = canon k2;
  keydup_canon : forall k, canon (dictSetKey ty k) = canon k
}.

(** ** Generic facts on chained tables *)

Section Concat.
Context {A : Type}.
Implicit Types (tb : list (list A)) (c x y r : list A).

(** Replacing the chain of one bucket changes the flattened table by the
    same amount. *)
Lemma concat_set_perm tb i c c' x y r :
  tb !! i = Some c -> c ≡ₚ x ++ r -> c' ≡ₚ y ++ r ->
  exists R, concat tb ≡ₚ x ++ R /\ concat (<[i := c']> tb) ≡ₚ y ++ R.
Proof.
  intros Hi Hc Hc'.
  exists (concat (take i tb) ++ r ++ concat (drop (S i) tb)).
  rewrite <- (take_drop_middle tb i c Hi) at 1.
  rewrite insert_take_drop by (eapply lookup_lt_Some; eauto).
  rewrite !concat_app. simpl. rewrite Hc, Hc'. split; solve_Permutation.
Qed.

Lemma elem_of_concat tb i c (e : A) : tb !! i = Some c -> e ∈ c -> e ∈ concat tb.
Proof.
  intros Hi He. apply list_elem_of_In, in_concat. exists c.
  split; [apply list_elem_of_In, list_elem_of_lookup; eauto | by apply list_elem_of_In].
Qed.

Lemma concat_elem_of tb (e : A) : e ∈ concat tb -> exists i c, tb !! i = Some c /\ e ∈ c.
Proof.
  intros (c & Hc & He)%list_elem_of_In%in_concat.
  apply list_elem_of_In, list_elem_of_lookup in Hc as [i Hi].
  exists i, c. split; [done | by apply list_elem_of_In].
Qed.

Lemma chain_delete_perm c pos (e : A) :
  c !! pos = Some e -> c ≡ₚ [e] ++ (take pos c ++ drop (S pos) c).
Proof.
  intros H. rewrite <- (take_drop_middle c pos e H) at 1. solve_Permutation.
Qed.

Lemma chain_set_perm c pos (e e' : A) :
  c !! pos = Some e -> <[pos := e']> c ≡ₚ [e'] ++ (take pos c ++ drop (S pos) c).
Proof.
  intros H. rewrite insert_take_drop by (eapply lookup_lt_Some; eauto). solve_Permutation.
Qed.

End Concat.

Section Spec.
Context {K V C : Type} `{EqDecision K} `{Countable C}.
Context (ty : dictType K V) (canon : K -> C) `{!DictTypeOk ty canon}.
Context (can_resize : bool).

Implicit Types (d : dict K V) (h : dictht K V) (k : K) (e : dictEntry K V).

Abbreviation hash := (dictHashKey ty).

(** ** The invariant *)

(** A table of [2^w] buckets, each entry in the bucket of its hash. *)
Record ht_ok (w : Z) (h : dictht K V) : Prop := {
  ok_width : 2 <= w <= 30;
  ok_size : size h = 2 ^ w;
  ok_mask : sizemask h = 2 ^ w - 1;
  ok_len : zlen (table h) = 2 ^ w;
  ok_used : used h = zlen (concat (table h));
  ok_place : forall i c e, table h !! i = Some c -> e ∈ c ->
               hash (key e) mod 2 ^ w = Z.of_nat i
}.

Definition entries d : list (dictEntry K V) :=
  concat (table (ht0 d)) ++ concat (table (ht1 d)).

Record rehash_ok d : Prop := {
  rh_ht0 : exists w0, ht_ok w0 (ht0 d);
  rh_ht1 : exists w1, ht_ok w1 (ht1 d);
  rh_idx : 0 <= rehashidx d <= size (ht0 d);
  rh_done : forall i c, Z.of_nat i < rehashidx d -> table (ht0 d) !! i = Some c -> c = []
}.

Record single_ok d : Prop := {
  sg_idx : rehashidx d = -1;
  sg_ht0 : ht0 d = _dictReset \/ exists w0, ht_ok w0 (ht0 d);
  sg_ht1 : ht1 d = _dictReset
}.

Record dict_wf d : Prop := {
  wf_shape : single_ok d \/ rehash_ok d;
  wf_nodup : NoDup (canon ∘ key <$> entries d);
  wf_bound : zlen (entries d) <= 2 ^ 32
}.

(** ** The abstraction *)

Definition assoc (l : list (dictEntry K V)) : list (C * option V) :=
  (fun e => (canon (key e), v e)) <$> l.

Definition entries_map (l : list (dictEntry K V)) : gmap C (option V) := list_to_map (assoc l).

(** The finite map a dictionary stands for. *)
Definition dict_map d : gmap C (option V) := entries_map (entries d).

Lemma assoc_fst l : (assoc l).*1 = canon ∘ key <$> l.
Proof. unfold assoc. rewrite <- list_fmap_compose. done. Qed.

Lemma entries_map_perm l1 l2 :
  NoDup (canon ∘ key <$> l1) -> l1 ≡ₚ l2 -> entries_map l1 = entries_map l2.
Proof.
  intros Hnd Hp. apply list_to_map_proper; [by rewrite assoc_fst|].
  unfold assoc. by rewrite Hp.
Qed.

Lemma entries_map_cons e l :
  entries_map (e :: l) = <[canon (key e) := v e]> (entries_map l).
Proof. done. Qed.

Lemma entries_map_None k l :
  (forall e, e ∈ l -> canon (key e) <> canon k) -> entries_map l !! canon k = None.
Proof.
  intros Hl. apply not_elem_of_list_to_map_1. rewrite assoc_fst.
  intros (e & He & Hin)%list_elem_of_fmap. by apply (Hl e Hin).
Qed.

Lemma entries_map_Some e l :
  NoDup (canon ∘ key <$> l) -> e ∈ l -> entries_map l !! canon (key e) = Some (v e).
Proof.
  intros Hnd He. apply elem_of_list_to_map_1; [by rewrite assoc_fst|].
  apply list_elem_of_fmap. eauto.
Qed.

(** ** Tables *)

Lemma ht_ok_pow w h : ht_ok w h -> 4 <= 2 ^ w <= 2 ^ 30.
Proof.
  intros [Hw _ _ _ _ _]. split; [|apply Z.pow_le_mono_r; lia].
  change 4 with (2 ^ 2). apply Z.pow_le_mono_r; lia.
Qed.

(** The bucket index computed by the code. *)
Lemma ht_index w h k : ht_ok w h -> hash k &. sizemask h = hash k mod 2 ^ w.
Proof. intros [Hw _ -> _ _ _]. apply land_pow2_mask. lia. Qed.

Lemma ht_index_range w h k :
  ht_ok w h -> 0 <= hash k mod 2 ^ w < zlen (table h).
Proof.
  intros Hh. rewrite (ok_len _ _ Hh). apply Z.mod_pos_bound.
  pose proof (ht_ok_pow _ _ Hh); lia.
Qed.

Lemma ht_chain w h k : ht_ok w h -> exists c, zget (table h) (hash k mod 2 ^ w) = Some c.
Proof. intros Hh. apply zget_is_Some. by eapply ht_index_range. Qed.

(** Writing one chain back, with the element count adjusted, keeps a table
    well formed. *)
Lemma ht_ok_set w h i c c' n :
  ht_ok w h -> zget (table h) i = Some c ->
  (forall e, e ∈ c' -> hash (key e) mod 2 ^ w = i) ->
  n = zlen (concat (<[Z.to_nat i := c']> (table h))) ->
  ht_ok w (Dictht (<[Z.to_nat i := c']> (table h)) (size h) (sizemask h) n).
Proof.
  intros Hh [Hi Hc]%zget_Some Hpl ->. destruct Hh as [Hw Hs Hm Hl Hu Hp].
  constructor; simpl; auto.
  - by rewrite length_insert.
  - intros j cj e Hj He. destruct (decide (j = Z.to_nat i)) as [->|Hne].
    + rewrite list_lookup_insert_eq in Hj by (by eapply lookup_lt_Some).
      simplify_eq. rewrite (Hpl e He). lia.
    + rewrite list_lookup_insert_ne in Hj by done. eauto.
Qed.

(** Pushing an entry on the chain of its bucket. *)
Lemma ht_push w h e n :
  ht_ok w h -> zlen (concat (table h)) < 2 ^ 33 -> n = u64 (used h + 1) ->
  exists c tb, let i := hash (key e) mod 2 ^ w in
    zget (table h) i = Some c /\ zset (table h) i (e :: c) = Some tb /\
    ht_ok w (Dictht tb (size h) (sizemask h) n) /\
    concat tb ≡ₚ e :: concat (table h).
Proof.
  intros Hh Hb ->. destruct (ht_chain w h (key e) Hh) as [c Hc].
  exists c, (<[Z.to_nat (hash (key e) mod 2 ^ w) := e :: c]> (table h)). simpl.
  assert (concat (<[Z.to_nat (hash (key e) mod 2 ^ w) := e :: c]> (table h))
            ≡ₚ e :: concat (table h)) as Hp.
  { apply zget_Some in Hc as Hc'. destruct Hc' as [_ Hc'].
    destruct (concat_set_perm (table h) _ c (e :: c) [] [e] c Hc') as (R & HR1 & HR2);
      [done|done|]. rewrite HR2. simpl in *. by rewrite HR1. }
  split_and!; [done| |eapply ht_ok_set; eauto|done].
  - apply zset_Some. split; [by eapply ht_index_range|done].
  - intros e' [->|He']%elem_of_cons; [done|].
    apply zget_Some in Hc as [Hi Hc]. rewrite (ok_place _ _ Hh _ _ _ Hc He').
    pose proof (ht_index_range w h (key e) Hh). lia.
  - rewrite (ok_used _ _ Hh), Hp. simpl. rewrite wrapu_small; cint.
Qed.

(** ** Rehashing *)

Lemma rehash_chain_spec w1 de h0 h1 :
  ht_ok w1 h1 -> zlen de + zlen (concat (table h1)) <= 2 ^ 32 ->
  zlen de <= used h0 < 2 ^ 64 ->
  exists h1',
    rehash_chain ty de h0 h1 =
      Some (Dictht (table h0) (size h0) (sizemask h0) (used h0 - zlen de), h1') /\
    ht_ok w1 h1' /\ concat (table h1') ≡ₚ de ++ concat (table h1).
Proof.
  revert h0 h1. induction de as [|e de IH]; intros h0 h1 Hh Hb Hu; simpl in *.
  { exists h1. destruct h0; simpl. split_and!; [do 3 f_equal; lia|done|done]. }
  destruct (ht_push w1 h1 e _ Hh ltac:(cint) eq_refl) as (c & tb & Hc & Htb & Hok & Hp).
  rewrite (ht_index w1 h1 (key e) Hh), Hc. simpl. rewrite Htb. simpl.
  destruct (IH (Dictht (table h0) (size h0) (sizemask h0) (u64 (used h0 - 1))) _ Hok)
    as (h1' & Hr & Hok' & Hp').
  - simpl. rewrite Hp. simpl. lia.
  - simpl. rewrite wrapu_small; cint.
  - exists h1'. rewrite Hr. simpl. split_and!; [|done|].
    + do 3 f_equal. rewrite wrapu_small by cint. lia.
    + rewrite Hp'. simpl. rewrite Hp. solve_Permutation.
Qed.

(** The scan for the next nonempty bucket succeeds while elements remain. *)
Lemma skip_empty_spec (bs : list (list (dictEntry K V))) idx :
  concat bs <> [] ->
  exists j c, skip_empty bs idx = Some (idx + Z.of_nat j) /\ bs !! j = Some c /\
    (forall i c, (i < j)%nat -> bs !! i = Some c -> c = []).
Proof.
  revert idx. induction bs as [|c bs IH]; intros idx Hne; [done|].
  destruct c as [|e c].
  - destruct (IH (idx + 1) Hne) as (j & c & Hs & Hc & He). exists (S j), c.
    simpl. rewrite Hs. split_and!; [f_equal; lia|done|].
    intros [|i] c' Hi Hc'; simpl in *; [congruence|eapply He; eauto; lia].
  - exists O, (e :: c). simpl. split_and!; [f_equal; lia|done|lia].
Qed.

Lemma concat_all_nil (tb : list (list (dictEntry K V))) :
  (forall i c, tb !! i = Some c -> c = []) -> concat tb = [].
Proof.
  induction tb as [|c tb IH]; intros Hall; [done|]. simpl.
  rewrite (Hall O c eq_refl). apply IH. intros i. apply (Hall (S i)).
Qed.

(** While elements remain in the old table, the scan stops at a bucket of
    it that lies at or after [rehashidx]. *)
Lemma rehash_scan d :
  rehash_ok d -> used (ht0 d) <> 0 ->
  exists idx de, rehashidx d <= idx < size (ht0 d) /\
    skip_empty (drop (Z.to_nat (rehashidx d)) (table (ht0 d))) (rehashidx d) = Some idx /\
    zget (table (ht0 d)) idx = Some de /\
    (forall i c, Z.of_nat i < idx -> table (ht0 d) !! i = Some c -> c = []).
Proof.
  intros [[w0 H0] _ Hidx Hdone] Hu. set (j0 := Z.to_nat (rehashidx d)).
  destruct (skip_empty_spec (drop j0 (table (ht0 d))) (rehashidx d))
    as (j & c & Hs & Hc & He).
  { intros Hnil. apply Hu. rewrite (ok_used _ _ H0).
    rewrite <- (take_drop j0 (table (ht0 d))), concat_app, Hnil, app_nil_r.
    rewrite concat_all_nil; [done|]. intros i c [Hc Hi]%lookup_take_Some.
    apply (Hdone i c); [lia|done]. }
  rewrite lookup_drop in Hc. apply lookup_lt_Some in Hc as Hlt.
  pose proof (ok_len _ _ H0) as Hl. pose proof (ok_size _ _ H0) as Hsz.
  exists (rehashidx d + Z.of_nat j), c. split_and!; [lia|lia|done| |].
  - apply zget_Some. split; [lia|]. by replace (Z.to_nat _) with (j0 + j)%nat by lia.
  - intros i c' Hi Hc'. destruct (decide (Z.of_nat i < rehashidx d)); [eauto|].
    apply (He (i - j0)%nat c'); [lia|]. rewrite lookup_drop.
    by replace (j0 + (i - j0))%nat with i by lia.
Qed.

(** One iteration of the rehashing loop moves one bucket. *)
Lemma rehash_bucket d :
  rehash_ok d -> zlen (entries d) <= 2 ^ 32 -> used (ht0 d) <> 0 ->
  exists d', (forall n, rehash_loop ty (S n) d = rehash_loop ty n d') /\
    rehash_ok d' /\ entries d' ≡ₚ entries d /\ rehashidx d < rehashidx d' /\
    iterators d' = iterators d /\ size (ht0 d') = size (ht0 d).
Proof.
  intros Hok Hb Hu. destruct (rehash_scan d Hok Hu) as (idx & de & Hidx & Hs & Hde & Hbefore).
  destruct Hok as [[w0 H0] [w1 H1] Hri Hdone].
  pose proof (ok_len _ _ H0) as Hl. pose proof (ok_size _ _ H0) as Hsz.
  pose proof (ht_ok_pow _ _ H0) as Hpow.
  apply zget_Some in Hde as Hde'. destruct Hde' as [Hi0 Hde'].
  destruct (concat_set_perm (table (ht0 d)) _ de [] de [] [] Hde') as (R & HR1 & HR2);
    [by rewrite app_nil_r|done|].
  assert (Hlen : zlen (concat (table (ht0 d))) = zlen de + zlen R)
    by (rewrite HR1, length_app; lia).
  unfold entries in Hb. rewrite length_app in Hb.
  destruct (rehash_chain_spec w1 de (ht0 d) (ht1 d) H1) as (h1' & Hr & H1' & Hp1);
    [lia|rewrite (ok_used _ _ H0); cint|].
  exists (Dict (Dictht (<[Z.to_nat idx := []]> (table (ht0 d))) (size (ht0 d))
                  (sizemask (ht0 d)) (used (ht0 d) - zlen de)) h1' (idx + 1) (iterators d)).
  split_and!; simpl; [| |unfold entries; simpl; rewrite HR2, HR1, Hp1; solve_Permutation
                      |lia|done|done].
  - intros n. rewrite (proj2 (Z.eqb_neq _ _) Hu).
    rewrite wrapu_small by cint. rewrite (proj2 (Z.leb_gt _ _)) by lia.
    rewrite Hs. simpl. rewrite Hde. simpl. rewrite Hr. simpl.
    unfold zset. rewrite (proj2 (Z.leb_le _ _)), (proj2 (Z.ltb_lt _ _)) by lia. simpl.
    rewrite s32_small by cint. done.
  - constructor; simpl; [|by exists w1|lia|].
    + exists w0. eapply ht_ok_set; [done|exact Hde| |].
      * intros e He. by apply not_elem_of_nil in He.
      * rewrite (ok_used _ _ H0), HR2. simpl. lia.
    + intros i c Hi Hc. destruct (decide (i = Z.to_nat idx)) as [->|Hne].
      * rewrite list_lookup_insert_eq in Hc by (by eapply lookup_lt_Some). by simplify_eq.
      * rewrite list_lookup_insert_ne in Hc by done. apply (Hbefore i c); [lia|done].
Qed.

Lemma dict_wf_perm d d' :
  dict_wf d -> entries d' ≡ₚ entries d -> single_ok d' \/ rehash_ok d' ->
  dict_wf d' /\ dict_map d' = dict_map d.
Proof.
  intros [_ Hnd Hb] Hp Hs. split; [constructor|]; [done| | |].
  - by rewrite Hp.
  - by rewrite Hp.
  - unfold dict_map. symmetry. by apply entries_map_perm.
Qed.

Lemma rehash_loop_spec n d :
  rehash_ok d -> zlen (entries d) <= 2 ^ 32 ->
  exists d' r, rehash_loop ty n d = Some (d', r) /\ entries d' ≡ₚ entries d /\
    iterators d' = iterators d /\
    (r = 0 /\ single_ok d' /\ (exists w0, ht_ok w0 (ht0 d')) \/
     r = 1 /\ rehash_ok d' /\ size (ht0 d') = size (ht0 d) /\
       rehashidx d + Z.of_nat n <= rehashidx d').
Proof.
  revert d. induction n as [|n IH]; intros d Hok Hb.
  { exists d, 1. split_and!; [done..|right; split_and!; [done..|lia]]. }
  destruct (decide (used (ht0 d) = 0)) as [Hu|Hu].
  - eexists _, 0. simpl. rewrite Hu. split_and!; [done| |done|].
    + unfold entries. simpl. destruct Hok as [[w0 H0] _ _ _].
      rewrite (ok_used _ _ H0) in Hu. rewrite app_nil_r.
      rewrite (nil_length_inv (concat (table (ht0 d)))) by lia. done.
    + left. split_and!; [done| |apply Hok].
      constructor; simpl; [done| |done]. right. apply Hok.
  - destruct (rehash_bucket d Hok Hb Hu) as (d1 & Heq & Hok1 & Hp1 & Hlt & Hit & Hsz).
    destruct (IH d1 Hok1) as (d' & r & Hr & Hp & Hit' & Hres); [by rewrite Hp1|].
    exists d', r. rewrite Heq, Hr, Hp, Hit', Hit. split_and!; [done..|].
    destruct Hres as [?|(? & ? & ? & ?)]; [by left|right; split_and!; [done..|lia|lia]].
Qed.

Lemma rehash_ok_rehashing d : rehash_ok d -> dictIsRehashing d = true.
Proof. intros [_ _ Hi _]. unfold dictIsRehashing. apply negb_true_iff, Z.eqb_neq. lia. Qed.

Lemma single_ok_rehashing d : single_ok d -> dictIsRehashing d = false.
Proof. intros [Hi _ _]. unfold dictIsRehashing. by rewrite Hi. Qed.

(** A dictionary whose first table is allocated. *)
Definition ready d : Prop :=
  (exists w0, ht_ok w0 (ht0 d)) /\
  (dictIsRehashing d = true -> exists w1, ht_ok w1 (ht1 d)).

Lemma wf_ready d : dict_wf d -> size (ht0 d) <> 0 -> ready d.
Proof.
  intros [[Hs|Hr] _ _] Hsz; split.
  - destruct Hs as [_ [Hz|?] _]; [by rewrite Hz in Hsz|done].
  - by rewrite (single_ok_rehashing d Hs).
  - apply Hr.
  - intros _. apply Hr.
Qed.

Lemma rehash_if_needed_spec d :
  dict_wf d ->
  exists d', rehash_if_needed ty d = Some d' /\ entries d' ≡ₚ entries d /\
    dict_wf d' /\ dict_map d' = dict_map d /\ iterators d' = iterators d /\
    (size (ht0 d) <> 0 -> size (ht0 d') <> 0).
Proof.
  intros Hwf. unfold rehash_if_needed, _dictRehashStep, dictRehash.
  destruct (wf_shape _ Hwf) as [Hs|Hr].
  { rewrite (single_ok_rehashing d Hs). exists d. by split_and!. }
  rewrite (rehash_ok_rehashing d Hr).
  destruct (iterators d =? 0) eqn:Hit; [|by exists d].
  destruct (rehash_loop_spec 1 d Hr (wf_bound _ Hwf))
    as (d' & r & -> & Hp & Hi & Hres). exists d'. simpl.
  destruct (dict_wf_perm d d' Hwf Hp) as [Hwf' Hm].
  { destruct Hres as [(_ & ? & _)|(_ & ? & _)]; [by left|by right]. }
  split_and!; [done..|]. intros _.
  assert (exists w0, ht_ok w0 (ht0 d')) as [w0 H0]
    by (destruct Hres as [(_ & _ & ?)|(_ & Hr' & _)]; [done|apply Hr']).
  rewrite (ok_size _ _ H0). pose proof (ht_ok_pow _ _ H0). lia.
Qed.

(** ** Searching *)

Lemma chain_find_spec k (c : list (dictEntry K V)) :
  match chain_find ty k c with
  | Some pos => exists e, c !! pos = Some e /\ canon (key e) = canon k
  | None => forall e, e ∈ c -> canon (key e) <> canon k
  end.
Proof.
  induction c as [|e c IH]; simpl; [by intros e ?%not_elem_of_nil|].
  destruct (dictCompareKeys ty k (key e)) eqn:E.
  { exists e. split; [done|]. symmetry. by apply compare_canon. }
  assert (canon (key e) <> canon k) as Hne
    by (intros Heq; symmetry in Heq; apply (compare_canon (ty := ty)) in Heq; congruence).
  destruct (chain_find ty k c) as [pos|]; simpl; [done|].
  intros e' [->|He']%elem_of_cons; auto.
Qed.

Lemma ht_find_spec w d t k :
  ht_ok w (get_ht d t) ->
  exists c, zget (table (get_ht d t)) (hash k mod 2 ^ w) = Some c /\
    ht_find ty (hash k) k d t = Some (hash k mod 2 ^ w, chain_find ty k c) /\
    (chain_find ty k c = None ->
     forall e, e ∈ concat (table (get_ht d t)) -> canon (key e) <> canon k).
Proof.
  intros Hh. destruct (ht_chain w _ k Hh) as [c Hc]. exists c. unfold ht_find.
  rewrite (ht_index w _ k Hh), Hc. split_and!; [done..|].
  intros Hnone e (i & c' & Hi & He)%concat_elem_of Heq.
  pose proof (chain_find_spec k c) as Hf. rewrite Hnone in Hf. apply (Hf e); [|done].
  pose proof (ok_place _ _ Hh _ _ _ Hi He) as Hp.
  rewrite (hash_canon (ty := ty) _ _ Heq) in Hp.
  apply zget_Some in Hc as [_ Hc]. rewrite Hp, Nat2Z.id in Hc. by simplify_eq.
Qed.

(** [r] is the entry of [k]. *)
Definition points_to d (r : entryref) k e : Prop :=
  entry_at d r = Some e /\ canon (key e) = canon k /\
  (eTable r = 0 \/ eTable r = 1 /\ dictIsRehashing d = true).

Definition absent d k : Prop := forall e, e ∈ entries d -> canon (key e) <> canon k.

(** The shared search loop finds the entry of a key, or its absence and the
    bucket of the table new entries go to. *)
Lemma search_tables_spec d k :
  dict_wf d -> ready d ->
  exists idx o, search_tables ty d k = Some (idx, o) /\
    match o with
    | Some r => exists e, points_to d r k e
    | None => absent d k /\
        exists w, ht_ok w (get_ht d (if dictIsRehashing d then 1 else 0)) /\
                  idx = hash k mod 2 ^ w
    end.
Proof.
  intros Hwf [[w0 H0] H1]. unfold search_tables.
  destruct (ht_find_spec w0 d 0 k H0) as (c & Hc & -> & Hn). simpl.
  pose proof (chain_find_spec k c) as Hf. destruct (chain_find ty k c) as [pos|].
  { eexists _, _. split; [done|]. destruct Hf as (e & He & Hk). exists e.
    split_and!; [|done|by left]. unfold entry_at. simpl in *. rewrite Hc. done. }
  destruct (dictIsRehashing d) eqn:Hr; simpl.
  - destruct (H1 eq_refl) as [w1 H1'].
    destruct (ht_find_spec w1 d 1 k H1') as (c1 & Hc1 & -> & Hn1). simpl.
    pose proof (chain_find_spec k c1) as Hf1. destruct (chain_find ty k c1) as [pos|].
    + eexists _, _. split; [done|]. destruct Hf1 as (e & He & Hk). exists e.
      split_and!; [|done|by right]. unfold entry_at. simpl in *. rewrite Hc1. done.
    + eexists _, _. split; [done|]. split; [|eauto].
      intros e [He|He]%elem_of_app; [by apply Hn|by apply Hn1].
  - eexists _, _. split; [done|]. split; [|eauto].
    destruct (wf_shape _ Hwf) as [Hs|Hs]; [|by rewrite (rehash_ok_rehashing d Hs) in Hr].
    intros e. unfold entries. rewrite (sg_ht1 _ Hs), app_nil_r. by apply Hn.
Qed.

Lemma points_to_lookup d r k e :
  dict_wf d -> points_to d r k e -> dict_map d !! canon k = Some (v e).
Proof.
  intros Hwf (He & <- & Ht). apply entries_map_Some; [apply Hwf|].
  apply obind_Some in He as (c & [_ Hc]%zget_Some & He).
  apply elem_of_app.
  destruct Ht as [Ht|[Ht _]]; rewrite Ht in Hc; simpl in Hc; [left|right];
    (eapply elem_of_concat; [exact Hc|apply list_elem_of_lookup; eauto]).
Qed.

Lemma absent_lookup d k : absent d k -> dict_map d !! canon k = None.
Proof. apply entries_map_None. Qed.

Lemma reset_entries d : dict_wf d -> size (ht0 d) = 0 -> entries d = [].
Proof.
  intros [[Hs|Hr] _ _] Hz.
  - unfold entries. rewrite (sg_ht1 _ Hs). destruct (sg_ht0 _ Hs) as [->|[w0 H0]]; [done|].
    rewrite (ok_size _ _ H0) in Hz. pose proof (ht_ok_pow _ _ H0). lia.
  - destruct (rh_ht0 _ Hr) as [w0 H0].
    rewrite (ok_size _ _ H0) in Hz. pose proof (ht_ok_pow _ _ H0). lia.
Qed.

Lemma dictFind_spec d k :
  dict_wf d ->
  exists d' o, dictFind ty d k = Some (d', o) /\ entries d' ≡ₚ entries d /\
    dict_wf d' /\ dict_map d' = dict_map d /\
    match o with Some r => exists e, points_to d' r k e | None => absent d' k end.
Proof.
  intros Hwf. unfold dictFind. destruct (Z.eqb_spec (size (ht0 d)) 0) as [Hz|Hz].
  { exists d, None. split_and!; [done..|]. intros e. rewrite reset_entries by done.
    by intros ?%not_elem_of_nil. }
  destruct (rehash_if_needed_spec d Hwf) as (d' & -> & Hp & Hwf' & Hm & _ & Hsz). simpl.
  destruct (search_tables_spec d' k Hwf' (wf_ready d' Hwf' (Hsz Hz))) as (idx & o & -> & Ho).
  exists d', o. split_and!; [done..|]. destruct o; [done|apply Ho].
Qed.

(** ** Growing *)

Lemma nextPower_loop_spec fuel w sz :
  2 <= w <= 30 -> sz <= 2 ^ 30 -> 30 - w < Z.of_nat fuel ->
  exists w', w <= w' <= 30 /\ nextPower_loop fuel (2 ^ w) sz = Some (2 ^ w') /\ sz <= 2 ^ w'.
Proof.
  revert w. induction fuel as [|fuel IH]; intros w Hw Hsz Hf; [lia|]. simpl.
  destruct (Z.leb_spec sz (2 ^ w)) as [?|Hlt].
  { exists w. split_and!; [lia..|done|done]. }
  assert (w <> 30) by (intros ->; lia).
  assert (0 < 2 ^ w <= 2 ^ 30) as Hp
    by (split; [apply Z.pow_pos_nonneg; lia|apply Z.pow_le_mono_r; lia]).
  rewrite wrapu_small by cint.
  replace (2 ^ w * 2) with (2 ^ (w + 1)) by (rewrite Z.pow_add_r by lia; lia).
  destruct (IH (w + 1)) as (w' & Hw' & Hr & Hs); [lia..|].
  exists w'. split_and!; [lia..|done|done].
Qed.

Lemma _dictNextPower_spec sz :
  sz <= 2 ^ 30 -> exists w, 2 <= w <= 30 /\ _dictNextPower sz = Some (2 ^ w) /\ sz <= 2 ^ w.
Proof.
  intros Hsz. unfold _dictNextPower, LONG_MAX, DICT_HT_INITIAL_SIZE.
  rewrite (proj2 (Z.leb_gt _ _)) by cint. change 4 with (2 ^ 2).
  apply nextPower_loop_spec; lia.
Qed.

Lemma concat_replicate_nil n : concat (replicate n ([] : list (dictEntry K V))) = [].
Proof. by induction n. Qed.

Lemma ht_ok_empty w :
  2 <= w <= 30 ->
  ht_ok w (Dictht (replicate (Z.to_nat (2 ^ w)) []) (2 ^ w) (u64 (2 ^ w - 1)) 0).
Proof.
  intros Hw. assert (4 <= 2 ^ w <= 2 ^ 30) as Hp.
  { split; [change 4 with (2 ^ 2)|]; apply Z.pow_le_mono_r; lia. }
  constructor; simpl.
  - lia.
  - done.
  - rewrite wrapu_small; cint.
  - rewrite length_replicate. lia.
  - by rewrite concat_replicate_nil.
  - intros i c e [-> _]%lookup_replicate He. by apply not_elem_of_nil in He.
Qed.

Lemma ht_ok_table w h : ht_ok w h -> table h <> [].
Proof.
  intros Hh Hnil. pose proof (ok_len _ _ Hh) as Hl. rewrite Hnil in Hl.
  pose proof (ht_ok_pow _ _ Hh). simpl in Hl. lia.
Qed.

Lemma dictExpand_spec d sz :
  dict_wf d -> single_ok d -> used (ht0 d) <= sz <= 2 ^ 30 ->
  exists d', dictExpand d sz = Some (d', DICT_OK) /\ entries d' = entries d /\
    dict_wf d' /\ dict_map d' = dict_map d /\ ready d'.
Proof.
  intros Hwf Hs Hsz. unfold dictExpand.
  destruct (_dictNextPower_spec sz) as (w & Hw & -> & Hle); [lia|]. simpl.
  rewrite (single_ok_rehashing d Hs), (proj2 (Z.ltb_ge _ _)) by lia. simpl.
  pose proof (ht_ok_empty w Hw) as Hn.
  destruct (sg_ht0 _ Hs) as [Hz|[w0 H0]].
  - rewrite bool_decide_eq_true_2 by (by rewrite Hz).
    eexists. split; [done|].
    assert (entries (Dict (Dictht (replicate (Z.to_nat (2 ^ w)) []) (2 ^ w)
              (u64 (2 ^ w - 1)) 0) (ht1 d) (rehashidx d) (iterators d)) = entries d) as He.
    { unfold entries. simpl. by rewrite Hz, concat_replicate_nil. }
    split; [done|]. apply (and_assoc _ _ (ready _)). split.
    + apply (dict_wf_perm d); [done|by rewrite He|left].
      constructor; simpl; [apply Hs|right; eauto|apply Hs].
    + split; [by exists w|]. unfold dictIsRehashing. simpl. by rewrite (sg_idx _ Hs).
  - rewrite bool_decide_eq_false_2 by (by eapply ht_ok_table).
    eexists. split; [done|].
    assert (entries (Dict (ht0 d) (Dictht (replicate (Z.to_nat (2 ^ w)) []) (2 ^ w)
              (u64 (2 ^ w - 1)) 0) 0 (iterators d)) = entries d) as He.
    { unfold entries. simpl. by rewrite concat_replicate_nil, (sg_ht1 _ Hs). }
    split; [done|]. apply (and_assoc _ _ (ready _)). split.
    + apply (dict_wf_perm d); [done|by rewrite He|right].
      constructor; simpl; [eauto|eauto| |lia].
      rewrite (ok_size _ _ H0). pose proof (ht_ok_pow _ _ H0). lia.
    + split; [by exists w0|]. by exists w.
Qed.

Lemma used_entries d : single_ok d -> used (ht0 d) = zlen (entries d).
Proof.
  intros Hs. unfold entries. rewrite (sg_ht1 _ Hs), app_nil_r.
  destruct (sg_ht0 _ Hs) as [->|[w0 H0]]; [done|]. apply (ok_used _ _ H0).
Qed.

Lemma _dictExpandIfNeeded_spec d :
  dict_wf d -> zlen (entries d) < 2 ^ 29 ->
  exists d', _dictExpandIfNeeded can_resize d = Some (d', DICT_OK) /\
    entries d' = entries d /\ dict_wf d' /\ dict_map d' = dict_map d /\ ready d'.
Proof.
  intros Hwf Hb. unfold _dictExpandIfNeeded. destruct (wf_shape _ Hwf) as [Hs|Hr].
  - rewrite (single_ok_rehashing d Hs). pose proof (used_entries d Hs) as Hu.
    change (2 ^ 29) with 536870912 in Hb.
    destruct (Z.eqb_spec (size (ht0 d)) 0) as [Hz|Hz].
    { apply dictExpand_spec; [done..|]. rewrite Hu, (reset_entries d Hwf Hz).
      unfold DICT_HT_INITIAL_SIZE. simpl. cint. }
    destruct (_ && _).
    + rewrite wrapu_small by cint. apply dictExpand_spec; [done..|]. cint.
    + exists d. split_and!; [done..|]. by apply wf_ready.
  - rewrite (rehash_ok_rehashing d Hr). exists d. split_and!; [done..|].
    split; [apply Hr|intros _; apply Hr].
Qed.

(** ** Changing one table *)

Lemma shape_set d t w h' :
  single_ok d \/ rehash_ok d ->
  t = 0 \/ t = 1 /\ dictIsRehashing d = true ->
  ht_ok w h' -> size h' = size (get_ht d t) ->
  (t = 0 -> dictIsRehashing d = true ->
   forall i c, Z.of_nat i < rehashidx d -> table h' !! i = Some c -> c = []) ->
  single_ok (set_ht d t h') \/ rehash_ok (set_ht d t h').
Proof.
  intros [Hs|Hr] Ht Hh Hsz He.
  - left. destruct Ht as [->|[_ Hc]]; [|by rewrite (single_ok_rehashing d Hs) in Hc].
    constructor; simpl; [apply Hs|right; eauto|apply Hs].
  - right. pose proof (rehash_ok_rehashing d Hr) as Hre. destruct Hr as [H0 H1 Hi Hd].
    destruct Ht as [->|[-> _]]; constructor; simpl in *;
      first [by eauto | by rewrite Hsz | done].
Qed.

Lemma get_ht_le d t : zlen (concat (table (get_ht d t))) <= zlen (entries d).
Proof. unfold entries, get_ht. rewrite length_app. destruct (t =? 0); lia. Qed.

(** The table of an entry is allocated. *)
Lemma points_to_ht d r k e :
  dict_wf d -> points_to d r k e -> exists w, ht_ok w (get_ht d (eTable r)).
Proof.
  intros Hwf (He & _ & Ht). destruct (wf_shape _ Hwf) as [Hs|Hr].
  - destruct Ht as [Ht|[_ Hre]]; [|by rewrite (single_ok_rehashing d Hs) in Hre].
    apply obind_Some in He as (c & Hc & _). rewrite Ht in *.
    destruct (sg_ht0 _ Hs) as [Hz|Hok]; [|done].
    unfold get_ht in Hc. simpl in Hc. rewrite Hz in Hc.
    apply zget_lt_Some in Hc. simpl in Hc; lia.
  - destruct Ht as [->|[-> _]]; apply Hr.
Qed.

Lemma entries_set d t h' x y R :
  t = 0 \/ t = 1 -> concat (table (get_ht d t)) ≡ₚ x ++ R -> concat (table h') ≡ₚ y ++ R ->
  exists R', entries d ≡ₚ x ++ R' /\ entries (set_ht d t h') ≡ₚ y ++ R'.
Proof.
  intros [->| ->] Hx Hy; unfold entries; simpl in *.
  - exists (R ++ concat (table (ht1 d))). rewrite Hx, Hy. split; solve_Permutation.
  - exists (concat (table (ht0 d)) ++ R). rewrite Hx, Hy. split; solve_Permutation.
Qed.

(** Replacing the entry [e] of [k] by [y]: nothing, or an entry with an
    equivalent key. *)
Lemma replace_entry_spec d r k e c c' y n :
  dict_wf d -> points_to d r k e ->
  zget (table (get_ht d (eTable r))) (eIdx r) = Some c ->
  c' ≡ₚ y ++ (take (ePos r) c ++ drop (S (ePos r)) c) ->
  y = [] \/ (exists e', y = [e'] /\ canon (key e') = canon (key e)) ->
  n = used (get_ht d (eTable r)) - 1 + zlen y ->
  let d' := set_ht d (eTable r)
    (Dictht (<[Z.to_nat (eIdx r) := c']> (table (get_ht d (eTable r))))
            (size (get_ht d (eTable r))) (sizemask (get_ht d (eTable r))) n) in
  dict_wf d' /\ exists R, entries d ≡ₚ e :: R /\ entries d' ≡ₚ y ++ R.
Proof.
  intros Hwf Hpt Hc Hc' Hy -> d'. destruct (points_to_ht d r k e Hwf Hpt) as [w Hw].
  destruct Hpt as (He & Hk & Ht). set (ht := get_ht d (eTable r)) in *.
  unfold entry_at in He. fold ht in He. rewrite Hc in He. simpl in He.
  apply zget_Some in Hc as Hc2. destruct Hc2 as [Hi Hci].
  destruct (concat_set_perm (table ht) _ c c' [e] y _ Hci (chain_delete_perm c _ e He) Hc')
    as (R & HR1 & HR2).
  destruct (entries_set d (eTable r)
              (Dictht (<[Z.to_nat (eIdx r) := c']> (table ht)) (size ht) (sizemask ht)
                 (used ht - 1 + zlen y)) [e] y R) as (R' & HE1 & HE2); [by destruct Ht as [?|[? _]]; auto|done|done|].
  change (entries d' ≡ₚ y ++ R') in HE2.
  assert (Hplace : forall e0, e0 ∈ c' -> hash (key e0) mod 2 ^ w = eIdx r).
  { intros e0. rewrite Hc'. intros [H0|H0]%elem_of_app.
    - destruct Hy as [->|(e' & -> & Hke)]; [by apply not_elem_of_nil in H0|].
      apply list_elem_of_singleton in H0 as ->. rewrite (hash_canon (ty := ty) _ _ Hke).
      rewrite (ok_place _ _ Hw _ _ _ Hci (list_elem_of_lookup_2 _ _ _ He)). lia.
    - rewrite (ok_place _ _ Hw (Z.to_nat (eIdx r)) c); [lia|done|].
      rewrite (chain_delete_perm c _ e He). by apply elem_of_app; right. }
  assert (Hok : ht_ok w (Dictht (<[Z.to_nat (eIdx r) := c']> (table ht)) (size ht)
                           (sizemask ht) (used ht - 1 + zlen y))).
  { eapply ht_ok_set; [done|exact Hc|done|].
    rewrite (ok_used _ _ Hw), HR1, HR2, !length_app. simpl. lia. }
  split; [|by exists R']. constructor.
  - apply (shape_set d _ w); [apply Hwf|done|done|done|].
    intros Ht0 Hre i ci Hlt Hci'. simpl in Hci'.
    destruct (wf_shape _ Hwf) as [Hs|Hr]; [by rewrite (single_ok_rehashing d Hs) in Hre|].
    assert (ht = ht0 d) as Hht by (unfold ht, get_ht; by rewrite Ht0).
    rewrite Hht in *. destruct (decide (i = Z.to_nat (eIdx r))) as [->|Hne].
    + rewrite (rh_done _ Hr _ _ Hlt Hci) in He. done.
    + rewrite list_lookup_insert_ne in Hci' by done. by eapply rh_done.
  - rewrite HE2. pose proof (wf_nodup _ Hwf) as Hnd. rewrite HE1 in Hnd.
    destruct Hy as [->|(e' & -> & Hke)]; simpl in *.
    + by apply NoDup_cons in Hnd as [_ ?].
    + by rewrite Hke.
  - rewrite HE2. pose proof (wf_bound _ Hwf) as Hb. rewrite HE1 in Hb.
    rewrite length_app in *. destruct Hy as [->|(e' & -> & _)]; simpl in *; lia.
Qed.

Lemma nodup_map_None e R :
  NoDup (canon ∘ key <$> e :: R) -> entries_map R !! canon (key e) = None.
Proof.
  intros [Hn _]%NoDup_cons. apply entries_map_None. intros e' He' Heq. apply Hn.
  apply list_elem_of_fmap. exists e'. by split; [symmetry|].
Qed.

Lemma dictSetVal_spec d r k e x :
  dict_wf d -> points_to d r k e ->
  exists d', dictSetVal ty d r x = Some d' /\ dict_wf d' /\
    zlen (entries d') = zlen (entries d) /\
    dict_map d' =
      <[canon k := Some (match valDup ty with Some dup => dup x | None => x end)]> (dict_map d).
Proof.
  intros Hwf Hpt. pose proof Hpt as (He & Hk & Ht). unfold dictSetVal.
  set (x' := match valDup ty with Some dup => dup x | None => x end).
  apply obind_Some in He as (c & Hc & He). rewrite Hc. simpl. rewrite He. simpl.
  set (e' := DictEntry (key e) (Some x')).
  destruct (replace_entry_spec d r k e c (<[ePos r := e']> c) [e']
              (used (get_ht d (eTable r)))) as (Hwf' & R & HR1 & HR2);
    [done|done|done|by apply (chain_set_perm c _ e)|right; by exists e'|simpl; lia|].
  unfold zset. apply zget_lt_Some in Hc as Hr.
  rewrite (proj2 (Z.leb_le _ _)), (proj2 (Z.ltb_lt _ _)) by lia. simpl.
  eexists. split_and!; [done|exact Hwf'|by rewrite HR2, HR1|].
  pose proof (wf_nodup _ Hwf) as Hnd. rewrite HR1 in Hnd.
  unfold dict_map. rewrite (entries_map_perm _ _ (wf_nodup _ Hwf') HR2).
  rewrite (entries_map_perm _ _ (wf_nodup _ Hwf) HR1). simpl.
  rewrite !entries_map_cons. simpl. by rewrite Hk, insert_insert_eq.
Qed.

Lemma unlink_spec d r k e :
  dict_wf d -> points_to d r k e ->
  exists d', unlink d (eTable r) (eIdx r) (ePos r) = Some d' /\ dict_wf d' /\
    dict_map d' = delete (canon k) (dict_map d).
Proof.
  intros Hwf Hpt. pose proof Hpt as (He & Hk & Ht). unfold unlink.
  apply obind_Some in He as (c & Hc & He). rewrite Hc. simpl.
  destruct (points_to_ht d r k e Hwf Hpt) as [w Hw].
  pose proof (get_ht_le d (eTable r)) as Hle. pose proof (wf_bound _ Hwf) as Hb.
  assert (1 <= used (get_ht d (eTable r)) < 2 ^ 64) as Hu.
  { rewrite (ok_used _ _ Hw). apply zget_Some in Hc as [_ Hc].
    pose proof (elem_of_concat _ _ _ e Hc (list_elem_of_lookup_2 _ _ _ He)) as Hin.
    destruct (concat (table (get_ht d (eTable r)))); [by apply not_elem_of_nil in Hin|].
    simpl in *. cint. }
  rewrite wrapu_small by lia.
  destruct (replace_entry_spec d r k e c (take (ePos r) c ++ drop (S (ePos r)) c) []
              (used (get_ht d (eTable r)) - 1)) as (Hwf' & R & HR1 & HR2);
    [done|done|done|done|by left|simpl; lia|].
  unfold zset. apply zget_lt_Some in Hc as Hr.
  rewrite (proj2 (Z.leb_le _ _)), (proj2 (Z.ltb_lt _ _)) by lia. simpl.
  eexists. split_and!; [done|exact Hwf'|].
  pose proof (wf_nodup _ Hwf) as Hnd. rewrite HR1 in Hnd.
  unfold dict_map. rewrite (entries_map_perm _ _ (wf_nodup _ Hwf') HR2).
  rewrite (entries_map_perm _ _ (wf_nodup _ Hwf) HR1). simpl.
  rewrite entries_map_cons, <- Hk. rewrite delete_insert_id; [done|]. by apply nodup_map_None.
Qed.

(** ** The operations *)

Lemma dictAddRaw_spec d k :
  dict_wf d -> zlen (entries d) < 2 ^ 29 ->
  exists d' o, dictAddRaw ty can_resize d k = Some (d', o) /\ dict_wf d' /\
    match o with
    | Some r => dict_map d !! canon k = None /\
        dict_map d' = <[canon k := None]> (dict_map d) /\
        zlen (entries d') = zlen (entries d) + 1 /\
        exists e, points_to d' r k e
    | None => is_Some (dict_map d !! canon k) /\ dict_map d' = dict_map d /\
        zlen (entries d') = zlen (entries d)
    end.
Proof.
  intros Hwf Hb. unfold dictAddRaw, _dictKeyIndex.
  destruct (rehash_if_needed_spec d Hwf) as (d1 & -> & Hp1 & Hwf1 & Hm1 & _). simpl.
  destruct (_dictExpandIfNeeded_spec d1 Hwf1) as (d2 & -> & Hp2 & Hwf2 & Hm2 & Hrd);
    [by rewrite Hp1|]. simpl. rewrite Hm1 in Hm2.
  assert (entries d2 ≡ₚ entries d) as Hp by (by rewrite Hp2).
  destruct (search_tables_spec d2 k Hwf2 Hrd) as (idx & o & -> & Ho). simpl.
  destruct o as [r|].
  { destruct Ho as (e & Hpt). exists d2, None. split_and!; [done|done| |done|by rewrite Hp].
    rewrite <- Hm2. exists (v e). by eapply points_to_lookup. }
  destruct Ho as (Habs & w & Hw & ->). set (t := if dictIsRehashing d2 then 1 else 0) in *.
  pose proof (ht_index_range w _ k Hw) as Hi. rewrite (ok_len _ _ Hw) in Hi.
  pose proof (ht_ok_pow _ _ Hw) as Hpow. rewrite s32_small by cint.
  cbn [obind]. rewrite (proj2 (Z.eqb_neq (hash k mod 2 ^ w) (-1))) by lia. cbv zeta. fold t.
  set (e := DictEntry (dictSetKey ty k) None).
  assert (canon (key e) = canon k) as Hke by apply keydup_canon.
  destruct (ht_push w (get_ht d2 t) e (u64 (used (get_ht d2 t) + 1)) Hw)
    as (c & tb & Hc & Htb & Hok & Hpt); [|done|].
  { pose proof (get_ht_le d2 t) as Hle. rewrite Hp in Hle.
    change (2 ^ 29) with 536870912 in Hb. change (2 ^ 33) with 8589934592. lia. }
  rewrite (hash_canon (ty := ty) _ _ Hke) in Hc, Htb. rewrite Hc. simpl. rewrite Htb. simpl.
  set (h' := Dictht tb _ _ _) in *.
  destruct (entries_set d2 t h' [] [e] (concat (table (get_ht d2 t)))) as (R & HR1 & HR2);
    [unfold t; destruct (dictIsRehashing d2); auto|done|done|].
  simpl in HR1, HR2. rewrite Hp in HR1.
  assert (NoDup (canon ∘ key <$> e :: R)) as Hnd.
  { simpl. constructor; [|rewrite <- HR1, <- Hp; apply Hwf2]. rewrite <- HR1, <- Hp.
    intros (e' & Heq & He')%list_elem_of_fmap. apply (Habs e' He').
    rewrite <- Hke. symmetry. exact Heq. }
  assert (dict_wf (set_ht d2 t h')) as Hwf'.
  { constructor.
    - apply (shape_set d2 t w); [apply Hwf2| |done|done|].
      + unfold t. destruct (dictIsRehashing d2); auto.
      + intros Ht0 Hre. unfold t in Ht0. by rewrite Hre in Ht0.
    - by rewrite HR2.
    - rewrite HR2. simpl. rewrite <- HR1. change (2 ^ 29) with 536870912 in Hb. cint. }
  eexists _, _. split; [done|]. split; [exact Hwf'|]. cbv iota. split_and!.
  - rewrite <- Hm2. by apply absent_lookup.
  - rewrite <- Hm2. unfold dict_map. rewrite (entries_map_perm _ _ (wf_nodup _ Hwf') HR2).
    rewrite entries_map_cons, Hke. rewrite <- Hp in HR1.
    by rewrite (entries_map_perm _ _ (wf_nodup _ Hwf2) HR1).
  - rewrite HR2, HR1. simpl. lia.
  - exists e. split_and!; [|done|].
    + unfold entry_at. simpl.
      assert (get_ht (set_ht d2 t h') t = h') as ->
        by (unfold t; by destruct (dictIsRehashing d2)).
      simpl. apply zset_Some in Htb as [Hr ->]. unfold zget.
      rewrite (proj2 (Z.leb_le _ _)) by lia. rewrite list_lookup_insert_eq by lia. done.
    + simpl. unfold t. destruct (dictIsRehashing d2) eqn:Hre; [right|by left].
      split; [done|]. unfold dictIsRehashing in *. done.
Qed.

Lemma entries_size d : dict_wf d -> zlen (entries d) = Z.of_nat (base.size (dict_map d)).
Proof.
  intros Hwf. unfold dict_map, entries_map. rewrite map_size_list_to_map.
  - unfold assoc. by rewrite length_fmap.
  - rewrite assoc_fst. apply Hwf.
Qed.

Definition dupVal (x : V) : V := match valDup ty with Some dup => dup x | None => x end.

Lemma dictAdd_spec d k x :
  dict_wf d -> zlen (entries d) < 2 ^ 29 ->
  exists d' st, dictAdd ty can_resize d k x = Some (d', st) /\ dict_wf d' /\
    (st = DICT_OK /\ dict_map d !! canon k = None /\
       dict_map d' = <[canon k := Some (dupVal x)]> (dict_map d) \/
     st = DICT_ERR /\ is_Some (dict_map d !! canon k) /\ dict_map d' = dict_map d).
Proof.
  intros Hwf Hb. unfold dictAdd.
  destruct (dictAddRaw_spec d k Hwf Hb) as (d1 & o & -> & Hwf1 & Ho). simpl.
  destruct o as [r|].
  - destruct Ho as (Hnone & Hm & _ & e & Hpt).
    destruct (dictSetVal_spec d1 r k e x Hwf1 Hpt) as (d2 & -> & Hwf2 & _ & Hm2).
    eexists _, _. split_and!; [done..|left]. split_and!; [done..|].
    by rewrite Hm2, Hm, insert_insert_eq.
  - eexists _, _. split_and!; [done..|right]. by destruct Ho as (? & ? & _).
Qed.

Lemma dictReplace_spec d k x :
  dict_wf d -> zlen (entries d) < 2 ^ 29 ->
  exists d', dictReplace ty can_resize d k x =
      Some (d', match dict_map d !! canon k with Some _ => 0 | None => 1 end) /\
    dict_wf d' /\ dict_map d' = <[canon k := Some (dupVal x)]> (dict_map d).
Proof.
  intros Hwf Hb. unfold dictReplace.
  destruct (dictAdd_spec d k x Hwf Hb) as (d1 & st & -> & Hwf1 & Hst). simpl.
  destruct Hst as [(-> & Hn & Hm)|(-> & [o Ho] & Hm)]; simpl.
  { rewrite Hn. by exists d1. }
  destruct (dictFind_spec d1 k Hwf1) as (d2 & r & -> & _ & Hwf2 & Hm2 & Hr). simpl.
  rewrite Hm in Hm2. destruct r as [r|]; simpl.
  - destruct Hr as (e & Hpt).
    destruct (dictSetVal_spec d2 r k e x Hwf2 Hpt) as (d3 & -> & Hwf3 & _ & Hm3).
    exists d3. rewrite Ho, Hm3, Hm2. done.
  - apply absent_lookup in Hr. rewrite Hm2 in Hr. congruence.
Qed.

Lemma dictDelete_spec d k :
  dict_wf d ->
  exists d', dictDelete ty d k =
      Some (d', match dict_map d !! canon k with Some _ => DICT_OK | None => DICT_ERR end) /\
    dict_wf d' /\ dict_map d' = delete (canon k) (dict_map d).
Proof.
  intros Hwf. unfold dictDelete, dictGenericDelete.
  destruct (Z.eqb_spec (size (ht0 d)) 0) as [Hz|Hz].
  { unfold dict_map. rewrite (reset_entries d Hwf Hz). exists d.
    rewrite (reset_entries d Hwf Hz). split_and!; [done..|].
    change (entries_map []) with (∅ : gmap C (option V)). by rewrite delete_empty. }
  destruct (rehash_if_needed_spec d Hwf) as (d1 & -> & Hp & Hwf1 & Hm & _ & Hsz). simpl.
  destruct (search_tables_spec d1 k Hwf1 (wf_ready d1 Hwf1 (Hsz Hz))) as (idx & o & -> & Ho).
  simpl. rewrite <- Hm. destruct o as [r|].
  - destruct Ho as (e & Hpt). rewrite (points_to_lookup d1 r k e Hwf1 Hpt).
    destruct (unlink_spec d1 r k e Hwf1 Hpt) as (d2 & -> & Hwf2 & Hm2). by exists d2.
  - destruct Ho as [Ha _]. apply absent_lookup in Ha. rewrite Ha. exists d1.
    split_and!; [done..|]. by rewrite delete_id.
Qed.

Lemma dictFetchValue_spec d k :
  dict_wf d ->
  exists d', dictFetchValue ty d k = Some (d', mjoin (dict_map d !! canon k)) /\
    dict_wf d' /\ dict_map d' = dict_map d.
Proof.
  intros Hwf. unfold dictFetchValue.
  destruct (dictFind_spec d k Hwf) as (d' & o & -> & _ & Hwf' & Hm & Ho). simpl.
  exists d'. split; [|done]. rewrite <- Hm. destruct o as [r|].
  - destruct Ho as (e & Hpt). rewrite (points_to_lookup d' r k e Hwf' Hpt).
    destruct Hpt as [-> _]. done.
  - by rewrite (absent_lookup _ _ Ho).
Qed.

Lemma dictRehash_spec d n :
  dict_wf d ->
  exists d' r, dictRehash ty d n = Some (d', r) /\ dict_wf d' /\ dict_map d' = dict_map d /\
    (size (ht0 d) < Z.of_nat n -> r = 0 /\ dictIsRehashing d' = false).
Proof.
  intros Hwf. unfold dictRehash. destruct (wf_shape _ Hwf) as [Hs|Hr].
  { rewrite (single_ok_rehashing d Hs). eexists _, _. split_and!; [done..|].
    intros _. by rewrite (single_ok_rehashing d Hs). }
  rewrite (rehash_ok_rehashing d Hr).
  destruct (rehash_loop_spec n d Hr (wf_bound _ Hwf)) as (d' & r & -> & Hp & _ & Hres).
  exists d', r. split; [done|]. apply (and_assoc (dict_wf d')). split.
  - apply (dict_wf_perm d); [done..|]. destruct Hres as [(_ & ? & _)|(_ & ? & _)]; auto.
  - intros Hn. destruct Hres as [(-> & Hs & _)|(_ & Hr' & Hsz & Hle)].
    + split; [done|]. by apply single_ok_rehashing.
    + pose proof (rh_idx _ Hr'). pose proof (rh_idx _ Hr). lia.
Qed.

Lemma dictResize_spec d :
  dict_wf d -> zlen (entries d) <= 2 ^ 30 ->
  exists d' st, dictResize can_resize d = Some (d', st) /\ dict_wf d' /\
    dict_map d' = dict_map d.
Proof.
  intros Hwf Hb. unfold dictResize. destruct (wf_shape _ Hwf) as [Hs|Hr].
  - rewrite (single_ok_rehashing d Hs). destruct can_resize; simpl; [|by eexists _, _].
    rewrite (used_entries d Hs). rewrite s32_small by cint.
    destruct (Z.ltb_spec (zlen (entries d)) DICT_HT_INITIAL_SIZE) as [Hlt|Hge].
    + destruct (dictExpand_spec d (u64 DICT_HT_INITIAL_SIZE) Hwf Hs)
        as (d' & -> & _ & ? & ? & _); [|by eexists _, _].
      rewrite (used_entries d Hs). unfold DICT_HT_INITIAL_SIZE in *.
      rewrite wrapu_small; cint.
    + rewrite wrapu_small by cint.
      destruct (dictExpand_spec d (zlen (entries d)) Hwf Hs) as (d' & -> & _ & ? & ? & _);
        [|by eexists _, _]. rewrite (used_entries d Hs). lia.
  - rewrite (rehash_ok_rehashing d Hr). rewrite orb_true_r. by eexists _, _.
Qed.

Lemma dict_wf_create : dict_wf dictCreate /\ dict_map dictCreate = ∅.
Proof.
  split; [|done]. constructor; [left|by constructor|done].
  constructor; [done|by left|done].
Qed.

(** ** Sequences of operations *)

Inductive dict_op :=
  | OpAdd (k : K) (x : V)
  | OpReplace (k : K) (x : V)
  | OpDelete (k : K)
  | OpFetch (k : K)
  | OpRehash (n : nat)
  | OpResize.

(** What an operation returns: a status, or a fetched value. *)
Inductive dict_res := RStatus (st : Z) | RValue (o : option V) | RNone.

Definition exec_op d (op : dict_op) : option (dict K V * dict_res) :=
  match op with
  | OpAdd k x => let? (d, st) := dictAdd ty can_resize d k x in Some (d, RStatus st)
  | OpReplace k x => let? (d, st) := dictReplace ty can_resize d k x in Some (d, RStatus st)
  | OpDelete k => let? (d, st) := dictDelete ty d k in Some (d, RStatus st)
  | OpFetch k => let? (d, o) := dictFetchValue ty d k in Some (d, RValue o)
  | OpRehash n => let? (d, _) := dictRehash ty d n in Some (d, RNone)
  | OpResize => let? (d, _) := dictResize can_resize d in Some (d, RNone)
  end.

(** The same operations on a finite map over canonical keys. *)
Definition spec_op (m : gmap C V) (op : dict_op) : gmap C V * dict_res :=
  match op with
  | OpAdd k x =>
      match m !! canon k with
      | Some _ => (m, RStatus DICT_ERR)
      | None => (<[canon k := dupVal x]> m, RStatus DICT_OK)
      end
  | OpReplace k x =>
      (<[canon k := dupVal x]> m,
       RStatus (match m !! canon k with Some _ => 0 | None => 1 end))
  | OpDelete k =>
      (delete (canon k) m,
       RStatus (match m !! canon k with Some _ => DICT_OK | None => DICT_ERR end))
  | OpFetch k => (m, RValue (m !! canon k))
  | OpRehash _ | OpResize => (m, RNone)
  end.

Fixpoint exec_ops d (ops : list dict_op) : option (dict K V * list dict_res) :=
  match ops with
  | [] => Some (d, [])
  | op :: ops =>
      let? (d, r) := exec_op d op in
      let? (d, rs) := exec_ops d ops in
      Some (d, r :: rs)
  end.

Fixpoint spec_ops (m : gmap C V) (ops : list dict_op) : gmap C V * list dict_res :=
  match ops with
  | [] => (m, [])
  | op :: ops =>
      let (m, r) := spec_op m op in
      let (m, rs) := spec_ops m ops in
      (m, r :: rs)
  end.

(** The simulation relation: the dictionary holds exactly the bindings of [m]. *)
Definition dict_rel d (m : gmap C V) : Prop := dict_wf d /\ dict_map d = Some <$> m.

Lemma dict_rel_lookup d m k : dict_rel d m -> dict_map d !! canon k = Some <$> m !! canon k.
Proof. intros [_ ->]. apply lookup_fmap. Qed.

Lemma dict_rel_size d m : dict_rel d m -> zlen (entries d) = Z.of_nat (base.size m).
Proof. intros [Hwf Hm]. by rewrite entries_size, Hm, map_size_fmap. Qed.

Lemma exec_op_sim d m op :
  dict_rel d m -> Z.of_nat (base.size m) < 2 ^ 29 ->
  exists d', exec_op d op = Some (d', (spec_op m op).2) /\ dict_rel d' (spec_op m op).1.
Proof.
  intros Hrel Hsz. pose proof (dict_rel_size d m Hrel) as Hlen. rewrite <- Hlen in Hsz.
  pose proof Hrel as [Hwf Hm].
  destruct op as [k x|k x|k|k|n|]; simpl;
    try (pose proof (dict_rel_lookup d m k Hrel) as Hk).
  - destruct (dictAdd_spec d k x Hwf Hsz)
      as (d' & st & -> & Hwf' & [(-> & Hn & Hm')|(-> & [o Ho] & Hm')]); simpl; exists d'.
    + rewrite Hn in Hk. destruct (m !! canon k); [done|]. simpl. split; [done|].
      split; [done|]. by rewrite Hm', Hm, fmap_insert.
    + rewrite Ho in Hk. destruct (m !! canon k); [|done]. simpl. split; [done|].
      split; [done|]. by rewrite Hm', Hm.
  - destruct (dictReplace_spec d k x Hwf Hsz) as (d' & -> & Hwf' & Hm'). simpl. exists d'.
    rewrite Hk. split; [by destruct (m !! canon k)|]. split; [done|].
    by rewrite Hm', Hm, fmap_insert.
  - destruct (dictDelete_spec d k Hwf) as (d' & -> & Hwf' & Hm'). simpl. exists d'.
    rewrite Hk. split; [by destruct (m !! canon k)|]. split; [done|].
    by rewrite Hm', Hm, fmap_delete.
  - destruct (dictFetchValue_spec d k Hwf) as (d' & -> & Hwf' & Hm'). simpl. exists d'.
    rewrite Hk. split; [by destruct (m !! canon k)|]. split; [done|]. by rewrite Hm', Hm.
  - destruct (dictRehash_spec d n Hwf) as (d' & r & -> & Hwf' & Hm' & _). simpl.
    exists d'. split; [done|]. split; [done|]. by rewrite Hm', Hm.
  - destruct (dictResize_spec d Hwf) as (d' & st & -> & Hwf' & Hm').
    { change (2 ^ 29) with 536870912 in Hsz. cint. }
    simpl. exists d'. split; [done|]. split; [done|]. by rewrite Hm', Hm.
Qed.

Lemma spec_op_size (m : gmap C V) op :
  (base.size (spec_op m op).1 <= S (base.size m))%nat.
Proof.
  assert (forall (k : C) (x : V), base.size (<[k := x]> m : gmap C V) <= S (base.size m))%nat as Hi.
  { intros k x. rewrite map_size_insert. destruct (m !! k); unfold id; lia. }
  destruct op as [k x|k x|k|k|n|]; simpl; [destruct (m !! canon k); simpl; auto|auto| |lia..].
  rewrite map_size_delete. destruct (m !! canon k); unfold id; lia.
Qed.

Lemma exec_ops_sim ops d m :
  dict_rel d m -> Z.of_nat (base.size m) + zlen ops < 2 ^ 29 ->
  exists d', exec_ops d ops = Some (d', (spec_ops m ops).2) /\
    dict_rel d' (spec_ops m ops).1.
Proof.
  revert d m. induction ops as [|op ops IH]; intros d m Hrel Hb; simpl in *; [by exists d|].
  destruct (exec_op_sim d m op Hrel) as (d1 & -> & Hrel1); [lia|]. simpl.
  pose proof (spec_op_size m op) as Hs. destruct (spec_op m op) as [m1 r1]. simpl in *.
  destruct (IH d1 m1 Hrel1) as (d2 & -> & Hrel2); [lia|].
  destruct (spec_ops m1 ops) as [m2 rs]. simpl in *. by exists d2.
Qed.

(** C3: dict.c implements a finite map.  Any sequence of fewer than 2^29
    additions, replacements, deletions, lookups, rehashing and resizing
    calls on a new dictionary runs without an out-of-bounds access, a failed
    assertion or a null dereference, returns at every call exactly what the
    same sequence returns on a finite map over the keys' comparison classes,
    and leaves a well-formed dictionary holding exactly that map's bindings,
    wherever the incremental rehashing happens to stand. *)
Theorem dict_refines_map ops :
  zlen ops < 2 ^ 29 ->
  exists d', exec_ops dictCreate ops = Some (d', (spec_ops ∅ ops).2) /\
    dict_wf d' /\ dict_map d' = Some <$> (spec_ops ∅ ops).1.
Proof.
  intros Hb. destruct dict_wf_create as [Hwf Hm].
  apply (exec_ops_sim ops dictCreate ∅); [|by rewrite map_size_empty].
  split; [done|]. by rewrite Hm, fmap_empty.
Qed.

(** Incremental rehashing terminates.  On a well-formed dictionary any
    number of rehashing steps succeeds and keeps every binding, and one more
    step than the old table has buckets completes the rehashing. *)
Theorem dictRehash_completes d n :
  dict_wf d ->
  exists d' r, dictRehash ty d n = Some (d', r) /\ dict_wf d' /\ dict_map d' = dict_map d /\
    (size (ht0 d) < Z.of_nat n -> r = 0 /\ dictIsRehashing d' = false).
Proof. apply dictRehash_spec. Qed.

(** ** Iteration *)

Abbreviation iter := (dictIterator (K := K) (V := V)).
Implicit Types (it : iter).

Record sizes_ok d : Prop := {
  sz0 : size (ht0 d) = zlen (table (ht0 d));
  sz1 : dictIsRehashing d = true -> size (ht1 d) = zlen (table (ht1 d)) /\ 1 <= size (ht1 d)
}.

Record it_ok d it : Prop := {
  it_ok_table : it_table it = 0 \/ it_table it = 1 /\ dictIsRehashing d = true;
  it_ok_index : -1 <= it_index it;
  it_ok_started : it_table it = 1 \/ it_entry it <> [] -> 0 <= it_index it
}.

(** The buckets and entries an iterator has still to visit. *)
Definition second d it : list (list (dictEntry K V)) :=
  if dictIsRehashing d && (it_table it =? 0) then table (ht1 d) else [].

Definition buckets_left d it : list (list (dictEntry K V)) :=
  drop (Z.to_nat (it_index it + 1)) (table (get_ht d (it_table it))) ++ second d it.

Definition chain_left it : list (dictEntry K V) :=
  match it_entry it with [] => [] | _ => it_nextEntry it end.

Definition remaining d it : list (dictEntry K V) :=
  chain_left it ++ concat (buckets_left d it).

Definition starting it : bool :=
  (it_index it =? -1) && (it_table it =? 0) && it_safe it &&
  match it_entry it with [] => true | _ => false end.

Definition next_spec d it (d' : dict K V) (it' : iter) (o : option (dictEntry K V)) : Prop :=
  ht0 d' = ht0 d /\ ht1 d' = ht1 d /\ rehashidx d' = rehashidx d /\
  iterators d' = (if starting it then s32 (iterators d + 1) else iterators d) /\
  it_safe it' = it_safe it /\ ((it_index it' =? -1) && (it_table it' =? 0)) = false /\
  match o with
  | Some e => it_ok d' it' /\ it_entry it' <> [] /\ remaining d it = e :: remaining d' it'
  | None => remaining d it = []
  end.

Lemma next_spec_trans d it d1 it1 d' it' o :
  ht0 d1 = ht0 d -> ht1 d1 = ht1 d -> rehashidx d1 = rehashidx d ->
  iterators d1 = (if starting it then s32 (iterators d + 1) else iterators d) ->
  it_safe it1 = it_safe it -> starting it1 = false -> remaining d1 it1 = remaining d it ->
  next_spec d1 it1 d' it' o -> next_spec d it d' it' o.
Proof.
  intros H0 H1 Hr Hi Hs Hst Hrem (A0 & A1 & Ar & Ai & As & An & Ao). unfold next_spec.
  rewrite A0, A1, Ar, Ai, As, <- Hrem, Hst. split_and!; congruence || done.
Qed.

(** Moving to the bucket [c] that is next in line. *)
Lemma enter_bucket fuel d it d1 it1 c bs :
  ht0 d1 = ht0 d -> ht1 d1 = ht1 d -> rehashidx d1 = rehashidx d ->
  iterators d1 = (if starting it then s32 (iterators d + 1) else iterators d) ->
  it_safe it1 = it_safe it -> it_entry it1 = [] -> it_ok d1 it1 -> 0 <= it_index it1 ->
  it_entry it = [] -> buckets_left d it = c :: bs -> buckets_left d1 it1 = bs ->
  (forall it2, it_ok d1 it2 -> it_entry it2 = [] -> buckets_left d1 it2 = bs ->
     starting it2 = false ->
     exists d' it' o, dictNext_loop fuel d1 it2 = Some (d', it', o) /\ next_spec d1 it2 d' it' o) ->
  exists d' it' o,
    match c with
    | e :: next =>
        Some (d1, DictIterator (it_table it1) (it_index it1) (it_safe it1) c next, Some e)
    | [] => dictNext_loop fuel d1
              (DictIterator (it_table it1) (it_index it1) (it_safe it1) [] (it_nextEntry it1))
    end = Some (d', it', o) /\ next_spec d it d' it' o.
Proof.
  intros H0 H1 Hr Hi Hs He1 Hok Hix He Hb Hb1 Hrec. destruct c as [|e next].
  - set (it2 := DictIterator _ _ _ _ _).
    assert (starting it2 = false) as Hst.
    { unfold starting. simpl. by rewrite (proj2 (Z.eqb_neq _ _)) by lia. }
    destruct (Hrec it2) as (d' & it' & o & -> & Hn); [|done|done|done|].
    { destruct Hok. constructor; simpl; [done|done|]. intros _. done. }
    exists d', it', o. split; [done|]. eapply next_spec_trans; [..|exact Hn]; try done.
    unfold remaining, chain_left. rewrite He, Hb. simpl. by rewrite <- Hb1.
  - eexists _, _, _. split; [done|]. unfold next_spec. simpl.
    rewrite (proj2 (Z.eqb_neq (it_index it1) (-1))) by lia.
    split_and!; try done; [destruct Hok; constructor; simpl; [done|done|intros _; done]|].
    unfold remaining, chain_left. rewrite He, Hb. simpl. by rewrite <- Hb1.
Qed.

(** The end of the last table. *)
Lemma buckets_left_nil d it :
  sizes_ok d -> it_ok d it -> size (get_ht d (it_table it)) <= it_index it + 1 ->
  dictIsRehashing d && (it_table it =? 0) = false -> buckets_left d it = [].
Proof.
  intros Hsz Hok Hle Hr. unfold buckets_left, second. rewrite Hr, app_nil_r.
  apply drop_ge. pose proof (it_ok_index _ _ Hok). destruct (it_ok_table _ _ Hok) as [Ht|[Ht Hre]].
  - rewrite Ht in Hle |- *. change (get_ht d 0) with (ht0 d) in *.
    rewrite (sz0 _ Hsz) in Hle. lia.
  - rewrite Ht in Hle |- *. change (get_ht d 1) with (ht1 d) in *.
    destruct (sz1 _ Hsz Hre) as [Hs _]. rewrite Hs in Hle. lia.
Qed.

(** The next bucket of the current table. *)
Lemma buckets_left_cons d it :
  sizes_ok d -> it_ok d it -> it_index it + 1 < size (get_ht d (it_table it)) ->
  exists c, zget (table (get_ht d (it_table it))) (it_index it + 1) = Some c /\
    buckets_left d it = c :: drop (Z.to_nat (it_index it + 2)) (table (get_ht d (it_table it)))
                          ++ second d it.
Proof.
  intros Hsz Hok Hlt. pose proof (it_ok_index _ _ Hok) as Hi.
  assert (size (get_ht d (it_table it)) = zlen (table (get_ht d (it_table it)))) as Hs.
  { destruct (it_ok_table _ _ Hok) as [Ht|[Ht Hre]]; rewrite Ht; simpl;
      [apply Hsz|by apply (sz1 _ Hsz)]. }
  destruct (zget_is_Some (table (get_ht d (it_table it))) (it_index it + 1)) as [c Hc]; [lia|].
  exists c. split; [done|]. apply zget_Some in Hc as [_ Hc]. unfold buckets_left.
  rewrite (drop_S _ _ _ Hc). simpl.
  by replace (S (Z.to_nat (it_index it + 1))) with (Z.to_nat (it_index it + 2)) by lia.
Qed.

Lemma dictNext_loop_spec fuel d it :
  sizes_ok d -> it_ok d it ->
  (length (buckets_left d it) + (match it_entry it with [] => 0 | _ => 1 end) < fuel)%nat ->
  exists d' it' o, dictNext_loop fuel d it = Some (d', it', o) /\ next_spec d it d' it' o.
Proof.
  revert d it. induction fuel as [|fuel IH]; intros d it Hsz Hok Hf; [lia|].
  cbn [dictNext_loop]. destruct (it_entry it) as [|e0 r0] eqn:He.
  - (* a new bucket is needed *)
    set (d1 := if _ && it_safe it then _ else d).
    assert (ht0 d1 = ht0 d /\ ht1 d1 = ht1 d /\ rehashidx d1 = rehashidx d /\
            iterators d1 = (if starting it then s32 (iterators d + 1) else iterators d))
      as (H0 & H1 & Hr & Hi).
    { unfold d1, starting. rewrite He, andb_true_r. by destruct (_ && it_safe it). }
    assert (forall t, get_ht d1 t = get_ht d t) as Hg by (intros t; unfold get_ht; by rewrite H0, H1).
    assert (dictIsRehashing d1 = dictIsRehashing d) as Hre by (unfold dictIsRehashing; by rewrite Hr).
    assert (sizes_ok d1) as Hsz1 by (destruct Hsz; constructor; by rewrite ?H0, ?H1, ?Hre).
    assert (forall it2, it_ok d1 it2 <-> it_ok d it2) as Hoks
      by (intros it2; split; intros [A B C0]; constructor; rewrite ?Hg, ?Hre in *; done).
    assert (forall it2, buckets_left d1 it2 = buckets_left d it2) as Hbl
      by (intros it2; unfold buckets_left, second; by rewrite Hg, Hre, H1).
    pose proof (it_ok_index _ _ Hok) as Hix. rewrite Hg, Hre.
    destruct (Z.leb_spec (size (get_ht d (it_table it))) (it_index it + 1)) as [Hle|Hlt].
    + destruct (dictIsRehashing d && (it_table it =? 0)) eqn:Hsw.
      * apply andb_true_iff in Hsw as [Hre' Ht0%Z.eqb_eq].
        destruct (sz1 _ Hsz Hre') as [Hs1 Hs1'].
        destruct (table (ht1 d)) as [|c bs] eqn:Et1; [simpl in Hs1; lia|].
        rewrite H1, Et1. cbn [zget obind Z.leb Z.compare Z.to_nat lookup list_lookup].
        assert (buckets_left d it = c :: bs) as Hb.
        { unfold buckets_left, second. rewrite Hre', Ht0, Et1. simpl. rewrite drop_ge; [done|].
          rewrite Ht0 in Hle. change (get_ht d 0) with (ht0 d) in *.
          rewrite (sz0 _ Hsz) in Hle. lia. }
        apply (enter_bucket fuel d it d1 (DictIterator 1 0 (it_safe it) [] (it_nextEntry it)) c bs);
          try done.
        { constructor; simpl; [by right; rewrite Hre|lia|lia]. }
        { unfold buckets_left, second. simpl. rewrite andb_false_r, app_nil_r.
          unfold get_ht. simpl. by rewrite H1, Et1. }
        intros it2 Hok2 He2 Hb2 _. apply IH; [done..|]. rewrite Hb2, He2. rewrite Hb in Hf.
        simpl in Hf. lia.
      * eexists _, _, _. split; [done|]. unfold next_spec. simpl.
        rewrite (proj2 (Z.eqb_neq (it_index it + 1) (-1))) by lia. split_and!; try done.
        unfold remaining, chain_left. rewrite He. by rewrite buckets_left_nil.
    + destruct (buckets_left_cons d it Hsz Hok Hlt) as (c & Hc & Hb). rewrite Hc. cbn [obind].
      eapply (enter_bucket fuel d it d1
               (DictIterator (it_table it) (it_index it + 1) (it_safe it) [] (it_nextEntry it))
               c _ H0 H1 Hr Hi eq_refl eq_refl); [| |exact He|exact Hb| |].
      { destruct Hok as [A B C0]. constructor; simpl; [by rewrite Hre|lia|lia]. }
      { simpl. lia. }
      { unfold buckets_left, second. simpl. rewrite Hg, Hre, H1.
        by replace (it_index it + 1 + 1) with (it_index it + 2) by lia. }
      intros it2 Hok2 He2 Hb2 _. apply IH; [done..|]. rewrite Hb2, He2, Hb in *.
      simpl in Hf. lia.
  - (* the chain continues *)
    assert (0 <= it_index it) as Hpos by (apply (it_ok_started _ _ Hok); right; by rewrite He).
    assert (starting it = false) as Hst by (unfold starting; rewrite He; by rewrite andb_false_r).
    assert (remaining d it = it_nextEntry it ++ concat (buckets_left d it)) as Hrem
      by (unfold remaining, chain_left; by rewrite He).
    destruct (it_nextEntry it) as [|e next] eqn:Hn.
    + set (it2 := DictIterator _ _ _ _ _).
      assert (starting it2 = false) as Hst2
        by (unfold starting; simpl; by rewrite (proj2 (Z.eqb_neq _ _)) by lia).
      destruct (IH d it2) as (d' & it' & o & -> & Hs); [done| | |].
      { destruct Hok as [A B C0]. constructor; simpl; [done|done|]. intros _. lia. }
      { simpl. change (buckets_left d it2) with (buckets_left d it). lia. }
      exists d', it', o. split; [done|]. eapply next_spec_trans; [..|exact Hs]; try done.
      by rewrite Hst.
    + eexists _, _, _. split; [done|]. unfold next_spec. rewrite Hst, Hrem. simpl.
      rewrite (proj2 (Z.eqb_neq (it_index it) (-1))) by lia. split_and!; try done.
      destruct Hok as [A B C0]. constructor; simpl; [done|done|]. intros _. lia.
Qed.

Lemma dict_wf_sizes d : dict_wf d -> sizes_ok d.
Proof.
  intros [[Hs|Hr] _ _].
  - constructor; [|by rewrite (single_ok_rehashing d Hs)].
    destruct (sg_ht0 _ Hs) as [->|[w Hw]]; [done|]. by rewrite (ok_size _ _ Hw), (ok_len _ _ Hw).
  - constructor.
    + destruct (rh_ht0 _ Hr) as [w Hw]. by rewrite (ok_size _ _ Hw), (ok_len _ _ Hw).
    + intros _. destruct (rh_ht1 _ Hr) as [w Hw]. rewrite (ok_size _ _ Hw), (ok_len _ _ Hw).
      pose proof (ht_ok_pow _ _ Hw). lia.
Qed.

Lemma dictNext_spec d it :
  sizes_ok d -> it_ok d it -> 0 <= size (ht1 d) ->
  exists d' it' o, dictNext d it = Some (d', it', o) /\ next_spec d it d' it' o.
Proof.
  intros Hsz Hok H1. apply dictNext_loop_spec; [done..|].
  assert (length (buckets_left d it) <= Z.to_nat (size (ht0 d) + size (ht1 d)))%nat.
  { unfold buckets_left, second. rewrite length_app, length_drop. pose proof (sz0 _ Hsz).
    destruct (it_ok_table _ _ Hok) as [Ht|[Ht Hre]]; rewrite Ht; unfold get_ht; simpl.
    - destruct (dictIsRehashing d) eqn:Hre; simpl; [destruct (sz1 _ Hsz Hre); lia|lia].
    - rewrite andb_false_r. destruct (sz1 _ Hsz Hre). simpl. lia. }
  destruct (it_entry it); lia.
Qed.

Lemma iterate_loop_spec fuel d it :
  sizes_ok d -> it_ok d it -> 0 <= size (ht1 d) -> it_safe it = true ->
  (length (remaining d it) < fuel)%nat ->
  exists d', iterate_loop fuel d it = Some (d', remaining d it) /\
    ht0 d' = ht0 d /\ ht1 d' = ht1 d /\ rehashidx d' = rehashidx d /\
    iterators d' = s32 ((if starting it then s32 (iterators d + 1) else iterators d) - 1).
Proof.
  revert d it. induction fuel as [|fuel IH]; intros d it Hsz Hok H1 Hs Hf; [lia|].
  cbn [iterate_loop].
  destruct (dictNext_spec d it Hsz Hok H1) as (d1 & it1 & o & -> & Hn). cbn [obind].
  destruct Hn as (A0 & A1 & Ar & Ai & As & An & Ao). destruct o as [e|].
  - destruct Ao as (Hok1 & Hne & Hrem).
    assert (starting it1 = false) as Hst
      by (unfold starting; destruct (it_entry it1); [done|]; by rewrite andb_false_r).
    destruct (IH d1 it1) as (d2 & -> & B0 & B1 & Br & Bi).
    + destruct Hsz. unfold dictIsRehashing in *. constructor; unfold dictIsRehashing; by rewrite ?A0, ?A1, ?Ar.
    + done.
    + by rewrite A1.
    + by rewrite As.
    + rewrite Hrem in Hf. simpl in Hf. lia.
    + exists d2. cbn [obind]. rewrite Hrem, B0, B1, Br, Bi, Hst, Ai. by split_and!.
  - exists (dictReleaseIterator d1 it1). rewrite Ao. unfold dictReleaseIterator.
    rewrite An, As, Hs. simpl. by rewrite A0, A1, Ar, Ai.
Qed.

Lemma dict_iterate_spec d :
  dict_wf d -> 0 <= iterators d < 2 ^ 31 - 1 ->
  dict_iterate d = Some (d, entries d).
Proof.
  intros Hwf Hit. unfold dict_iterate. pose proof (dict_wf_sizes d Hwf) as Hsz.
  assert (remaining d dictGetSafeIterator = entries d /\ 0 <= size (ht1 d) /\
          Z.to_nat (used (ht0 d) + used (ht1 d)) = length (entries d)) as (Hrem & H1 & Hu).
  { unfold remaining, buckets_left, second, entries. simpl. rewrite length_app.
    destruct (wf_shape _ Hwf) as [Hs|Hr].
    - rewrite (single_ok_rehashing d Hs), (sg_ht1 _ Hs). simpl. rewrite !app_nil_r.
      rewrite (used_entries d Hs). unfold entries. rewrite (sg_ht1 _ Hs). simpl.
      rewrite app_nil_r. split_and!; [done|lia|lia].
    - rewrite (rehash_ok_rehashing d Hr). simpl. rewrite concat_app.
      destruct (rh_ht0 _ Hr) as [w0 H0]. destruct (rh_ht1 _ Hr) as [w1 H1].
      rewrite (ok_used _ _ H0), (ok_used _ _ H1), (ok_size _ _ H1).
      pose proof (ht_ok_pow _ _ H1). split_and!; [done|lia|lia]. }
  destruct (iterate_loop_spec (S (Z.to_nat (used (ht0 d) + used (ht1 d)))) d dictGetSafeIterator)
    as (d' & Hd & A0 & A1 & Ar & Ai); [done| |done|done|by rewrite Hrem, Hu; lia|].
  { constructor; simpl; [by left|lia|]. intros [?|?]; [lia|done]. }
  rewrite Hd, Hrem. do 2 f_equal. destruct d, d'. simpl in *. subst. f_equal. simpl in *.
  rewrite (s32_small (iterators0 + 1)) by cint. rewrite s32_small by cint. lia.
Qed.

(** A safe iteration is exact.  Iterating over a well-formed dictionary
    with a safe iterator, even in the middle of a rehash, terminates, yields
    every entry exactly once (the entries of the old table, then those of
    the new one), and leaves the dictionary and its iterator count as they
    were. *)
Theorem dict_iterate_exact d :
  dict_wf d -> 0 <= iterators d < 2 ^ 31 - 1 ->
  exists es, dict_iterate d = Some (d, es) /\
    NoDup (canon ∘ key <$> es) /\
    (forall k o, dict_map d !! canon k = Some o <->
                 exists e, e ∈ es /\ canon (key e) = canon k /\ v e = o).
Proof.
  intros Hwf Hit. exists (entries d). split; [by apply dict_iterate_spec|].
  split; [apply Hwf|]. intros k o. split.
  - intros Hk. apply elem_of_list_to_map_2, list_elem_of_fmap in Hk as (e & He & Hin).
    simplify_eq. by exists e.
  - intros (e & He & <- & <-). apply entries_map_Some; [apply Hwf|done].
Qed.

End Spec.

(** ** The user table's dictionary type *)

Lemma casehash_lower a b h :
  tolower <$> a = tolower <$> b -> casehash_loop a h = casehash_loop b h.
Proof.
  revert b h. induction a as [|x a IH]; intros [|y b] h; simpl; intros E; simplify_eq; [done|].
  rewrite H. by apply IH.
Qed.

Lemma casehash_range a h : 0 <= h < 2 ^ 32 -> 0 <= casehash_loop a h < 2 ^ 32.
Proof. revert h. induction a as [|x a IH]; intros h Hh; simpl; [done|]. apply IH, wrapu_bound. lia. Qed.

Lemma nonul_cstr s : nonul s = true -> cstr s = s.
Proof.
  induction s as [|c s IH]; simpl; [done|]. intros [Hc Hs]%andb_true_iff.
  apply negb_true_iff in Hc. rewrite Hc. by rewrite IH.
Qed.

#[export] Instance commandTable_ok {V} seed :
  DictTypeOk (commandTableDictType (V := V) seed) canon_case.
Proof.
  constructor; unfold dictHashKey, dictCompareKeys; simpl.
  - intros k. apply casehash_range, wrapu_bound. lia.
  - intros k1 k2. apply casehash_lower.
  - intros [k1 H1] [k2 H2]. unfold dictSdsKeyCaseCompare, strcaseeq, canon_case. simpl.
    rewrite bool_decide_eq_true, !nonul_cstr by done. done.
  - done.
Qed.

(** ** Lookups and insertions leave the iterator count alone *)

Section Iterators.
Context {K V : Type} `{EqDecision K} (ty : dictType K V) (cr : bool).
Implicit Types (d : dict K V).

Lemma rehash_loop_iterators n d d' r :
  rehash_loop ty n d = Some (d', r) -> iterators d' = iterators d.
Proof.
  revert d. induction n as [|n IH]; intros d; simpl; [by intros [= <- _]|].
  destruct (_ =? _); [by intros [= <- _]|]. destruct (_ <=? _); [done|]. intros Hr.
  apply obind_Some in Hr as (idx & _ & Hr). apply obind_Some in Hr as (de & _ & Hr).
  apply obind_Some in Hr as ([h0 h1] & _ & Hr). apply obind_Some in Hr as (t0 & _ & Hr).
  by apply IH in Hr.
Qed.

Lemma rehash_if_needed_iterators d d' :
  rehash_if_needed ty d = Some d' -> iterators d' = iterators d.
Proof.
  unfold rehash_if_needed, _dictRehashStep, dictRehash.
  destruct (dictIsRehashing d); [|by intros [= <-]].
  destruct (_ =? _); [|by intros [= <-]].
  destruct (rehash_loop ty 1 d) as [[d1 r]|] eqn:E; simpl; [|done].
  intros [= <-]. by eapply rehash_loop_iterators.
Qed.

Lemma dictExpand_iterators d sz d' st :
  dictExpand d sz = Some (d', st) -> iterators d' = iterators d.
Proof.
  intros Hd. apply obind_Some in Hd as (rs & _ & Hd).
  destruct (_ || _); [by simplify_eq|]. cbv zeta in Hd.
  case_bool_decide; injection Hd as <- _; done.
Qed.

Lemma set_ht_iterators d t h : iterators (set_ht d t h) = iterators d.
Proof. unfold set_ht. by destruct (_ =? _). Qed.

Lemma dictFetchValue_iterators d k d' o :
  dictFetchValue ty d k = Some (d', o) -> iterators d' = iterators d.
Proof.
  intros Hd. apply obind_Some in Hd as ([d1 r] & Hf & Hd).
  assert (iterators d1 = iterators d) as <-.
  { unfold dictFind in Hf. destruct (_ =? 0); [by simplify_eq|].
    apply obind_Some in Hf as (d2 & H2%rehash_if_needed_iterators & Hf).
    apply obind_Some in Hf as ([? ?] & _ & Hf). injection Hf as -> _. done. }
  destruct r as [r|]; [|by simplify_eq].
  apply obind_Some in Hd as (e & _ & Hd). by simplify_eq.
Qed.

Lemma dictAdd_iterators d k x d' st :
  dictAdd ty cr d k x = Some (d', st) -> iterators d' = iterators d.
Proof.
  intros Hd. apply obind_Some in Hd as ([d1 r] & Hf & Hd).
  assert (iterators d1 = iterators d) as <-.
  { apply obind_Some in Hf as (d2 & <-%rehash_if_needed_iterators & Hf).
    apply obind_Some in Hf as ([d3 idx] & Hk & Hf).
    assert (iterators d3 = iterators d2) as <-.
    { apply obind_Some in Hk as ([d4 st4] & He & Hk).
      assert (iterators d4 = iterators d2) as <-.
      { unfold _dictExpandIfNeeded in He. destruct (dictIsRehashing d2); [by simplify_eq|].
        destruct (_ =? _); [by eapply dictExpand_iterators|].
        destruct (_ && _); [by eapply dictExpand_iterators|by simplify_eq]. }
      destruct (_ =? _); [by simplify_eq|].
      apply obind_Some in Hk as ([? [?|]] & _ & Hk); by simplify_eq. }
    destruct (_ =? _); [by simplify_eq|].
    apply obind_Some in Hf as (c & _ & Hf). apply obind_Some in Hf as (tb & _ & Hf).
    simplify_eq. apply set_ht_iterators. }
  destruct r as [r|]; [|by simplify_eq].
  apply obind_Some in Hd as (d2 & Hs & Hd). simplify_eq.
  apply obind_Some in Hs as (c & _ & Hs). apply obind_Some in Hs as (e & _ & Hs).
  apply obind_Some in Hs as (tb & _ & Hs). simplify_eq. apply set_ht_iterators.
Qed.

End Iterators.

(** ** The theorems apply to the user table's dictionary *)

Section Examples.

Abbreviation ty := (commandTableDictType (V := nat) 5381).
Abbreviation kk s := (sdsnew (bytes_of_string s)).

(** Enough additions to start a rehash, which is then still in progress. *)
Definition some_ops : list (dict_op (K := cstring) (V := nat)) :=
  [OpAdd (kk "tv") 1%nat; OpAdd (kk "lamp") 2%nat; OpAdd (kk "TV") 3%nat;
   OpReplace (kk "Lamp") 4%nat; OpAdd (kk "door") 5%nat; OpAdd (kk "fan") 6%nat;
   OpAdd (kk "heater") 7%nat; OpDelete (kk "door"); OpFetch (kk "LAMP"); OpFetch (kk "door")].

Lemma dict_refines_map_witness :
  exists d', exec_ops ty true dictCreate some_ops =
      Some (d', (spec_ops ty canon_case ∅ some_ops).2) /\
    dict_wf ty canon_case d' /\
    dict_map canon_case d' = Some <$> (spec_ops ty canon_case ∅ some_ops).1.
Proof. apply (dict_refines_map ty canon_case true some_ops). by vm_compute. Defined.

Definition some_dict : dict cstring nat :=
  match exec_ops ty true dictCreate some_ops with Some (d, _) => d | None => dictCreate end.

Lemma some_dict_wf : dict_wf ty canon_case some_dict.
Proof.
  destruct (dict_wf_create ty canon_case) as [Hwf Hm].
  destruct (exec_ops_sim ty canon_case true some_ops dictCreate ∅) as (d & Hd & Hr & _).
  { split; [done|]. by rewrite Hm, fmap_empty. }
  { by rewrite map_size_empty; vm_compute. }
  unfold some_dict. by rewrite Hd.
Qed.

Lemma dictRehash_completes_witness :
  dictIsRehashing some_dict = true /\
  exists d' r, dictRehash ty some_dict 10 = Some (d', r) /\ dict_wf ty canon_case d' /\
    dict_map canon_case d' = dict_map canon_case some_dict /\
    (size (ht0 some_dict) < 10 -> r = 0 /\ dictIsRehashing d' = false).
Proof.
  split; [by vm_compute|].
  apply (dictRehash_completes ty canon_case some_dict 10), some_dict_wf.
Defined.

Lemma dict_iterate_exact_witness :
  exists es, dict_iterate some_dict = Some (some_dict, es) /\
    NoDup (canon_case ∘ key <$> es) /\
    (forall k o, dict_map canon_case some_dict !! canon_case k = Some o <->
                 exists e, e ∈ es /\ canon_case (key e) = canon_case k /\ v e = o).
Proof.
  apply (dict_iterate_exact ty canon_case some_dict); [apply some_dict_wf|]. by vm_compute.
Defined.

End Examples.

End DictRefinement.
