(* ===== verification/DictScan.v ===== *)
(** * dict.c: scanning with a cursor, random entries and emptying

    [dictScan] walks the buckets in the order of their reversed indices, so
    that a scan survives changes of the size of the table between its calls.
    The reversed cursor is a position that only grows, and the entries whose
    reversed hash lies below it have been returned. *)

From S2P Require Import Prelude Dict DictSpec.
Import HashTable DictRefinement.

Module DictScan.

(** ** The code *)

(** The loop of [rev]; it runs six times and ends in the seventh turn. *)
Fixpoint rev_loop (fuel : nat) (s mask v : Z) : Z :=
  match fuel with
  | O => v
  | S fuel =>
      let s := s ≫ 1 in
      if 0 <? s then
        let mask := mask ^. u64 (mask ≪ s) in
        let v := ((v ≫ s) &. mask) |. (u64 (v ≪ s) &. ~. mask) in
        rev_loop fuel s mask v
      else v
  end.

Definition rev (v : Z) : Z := rev_loop 7 64 (2 ^ 64 - 1) v.

Section Scan.
Context {K V : Type} `{EqDecision K} (ty : dictType K V).
Implicit Types (d : dict K V).

(** The [do] loop over the expansions of the cursor in the larger table. *)
Fixpoint expand_loop (fuel : nat) (t1 : dictht K V) (m0 m1 v : Z) : option (Z * list (dictEntry K V)) :=
  match fuel with
  | O => None
  | S fuel =>
      let? de := zget (table t1) (v &. m1) in
      let v := (u64 ((v |. m0) + 1) &. ~. m0) |. (v &. m0) in
      if v &. (m0 ^. m1) =? 0 then Some (v, de)
      else let? (v, des) := expand_loop fuel t1 m0 m1 v in Some (v, de ++ des)
  end.

(** The new cursor and the entries [fn] is called with; [fn] does not change
    the dictionary.  The loop visits each bucket of the larger table at most
    once. *)
Definition dictScan d (v : Z) : option (Z * list (dictEntry K V)) :=
  if dictSize d =? 0 then Some (0, [])
  else
    let? (v, m0, des) :=
      (if negb (dictIsRehashing d) then
         let t0 := ht0 d in
         let m0 := sizemask t0 in
         let? de := zget (table t0) (v &. m0) in
         Some (v, m0, de)
       else
         let '(t0, t1) := if size (ht1 d) <? size (ht0 d) then (ht1 d, ht0 d) else (ht0 d, ht1 d) in
         let m0 := sizemask t0 in
         let m1 := sizemask t1 in
         let? de := zget (table t0) (v &. m0) in
         let? (v, des) := expand_loop (Z.to_nat (size t1)) t1 m0 m1 v in
         Some (v, m0, de ++ des)) in
    let v := v |. u64 (~. m0) in
    Some (rev (u64 (rev v + 1)), des).

(** The draws of [random], a number between 0 and 2^31-1 each time: [rnd i]
    is the [i]-th.  The loop looks for a bucket that is not empty. *)
Fixpoint random_bucket (fuel : nat) d (rnd : nat -> Z) (i : nat) : option (nat * list (dictEntry K V)) :=
  match fuel with
  | O => None
  | S fuel =>
      let? he :=
        (if dictIsRehashing d then
           let h := u32 (rnd i mod u64 (size (ht0 d) + size (ht1 d))) in
           if size (ht0 d) <=? h then zget (table (ht1 d)) (h - size (ht0 d)) else zget (table (ht0 d)) h
         else zget (table (ht0 d)) (u32 (rnd i &. sizemask (ht0 d)))) in
      match he with
      | [] => random_bucket fuel d rnd (S i)
      | _ :: _ => Some (S i, he)
      end
  end.

Definition dictGetRandomKey (fuel : nat) d (rnd : nat -> Z) : option (dict K V * option (dictEntry K V)) :=
  if dictSize d =? 0 then Some (d, None)
  else
    let? d := (if dictIsRehashing d then _dictRehashStep ty d else Some d) in
    let? (i, he) := random_bucket fuel d rnd 0 in
    let listlen := zlen he in
    let listele := Z.rem (rnd i) listlen in
    let? e := zget he listele in
    Some (d, Some e).

(** The buckets from [i] on while entries are left; the entries freed. *)
Fixpoint clear_loop (bs : list (list (dictEntry K V))) (used : Z) : list (dictEntry K V) :=
  match bs with
  | [] => []
  | he :: bs => if 0 <? used then he ++ clear_loop bs (u64 (used - zlen he)) else []
  end.

Definition _dictClear (ht : dictht K V) : dictht K V * list (dictEntry K V) :=
  (_dictReset, clear_loop (take (Z.to_nat (size ht)) (table ht)) (used ht)).

Definition dictEmpty d : dict K V * list (dictEntry K V) :=
  let '(h0, freed0) := _dictClear (ht0 d) in
  let '(h1, freed1) := _dictClear (ht1 d) in
  (Dict h0 h1 (-1) 0, freed0 ++ freed1).

(** What is freed before the structure itself. *)
Definition dictRelease d : list (dictEntry K V) := (_dictClear (ht0 d)).2 ++ (_dictClear (ht1 d)).2.

(** [clock i] is the [i]-th reading of the time. *)
Fixpoint rehash_ms_loop (fuel : nat) d (clock : nat -> Z) (i : nat) (start ms rehashes : Z) : option (dict K V * Z) :=
  match fuel with
  | O => None
  | S fuel =>
      let? (d, r) := dictRehash ty d 100 in
      if r =? 0 then Some (d, rehashes)
      else
        let rehashes := s32 (rehashes + 100) in
        if ms <? clock i - start then Some (d, rehashes)
        else rehash_ms_loop fuel d clock (S i) start ms rehashes
  end.

(** A hundred buckets a turn. *)
Definition dictRehashMilliseconds d (clock : nat -> Z) (ms : Z) : option (dict K V * Z) :=
  rehash_ms_loop (S (Z.to_nat (size (ht0 d)))) d clock 1 (clock 0%nat) ms 0.

End Scan.

(** ** Reversing bits *)

Lemma testbit_u64 x i : 0 <= i < 64 -> Z.testbit (u64 x) i = Z.testbit x i.
Proof. intros. unfold wrapu. apply Z.mod_pow2_bits_low. lia. Qed.

Lemma testbit_high x i : 0 <= x < 2 ^ 64 -> 64 <= i -> Z.testbit x i = false.
Proof. intros Hx Hi. rewrite <- (Z.mod_small x (2 ^ 64)) by done. apply Z.mod_pow2_bits_high. lia. Qed.

Lemma range_by_bits x : 0 <= x -> (forall i, 64 <= i -> Z.testbit x i = false) -> 0 <= x < 2 ^ 64.
Proof.
  intros Hx Hi. assert (x = x mod 2 ^ 64) as ->; [|apply Z.mod_pos_bound; lia].
  apply Z.bits_inj'. intros i Hi0. destruct (Z.lt_ge_cases i 64).
  - by rewrite Z.mod_pow2_bits_low.
  - rewrite Z.mod_pow2_bits_high by lia. by apply Hi.
Qed.

(** One turn of the loop swaps neighbouring groups of [s] bits. *)
Definition swap (s mask v : Z) : Z := ((v ≫ s) &. mask) |. (u64 (v ≪ s) &. ~. mask).

Definition source (s mask i : Z) : Z := if Z.testbit mask i then i + s else i - s.

Lemma swap_testbit s mask v i :
  0 <= i < 64 -> Z.testbit (swap s mask v) i = Z.testbit v (source s mask i).
Proof.
  intros Hi. unfold swap, source. rewrite Z.lor_spec, !Z.land_spec, Z.lnot_spec by lia.
  rewrite testbit_u64 by lia. rewrite Z.shiftl_spec, Z.shiftr_spec by lia.
  destruct (Z.testbit mask i); cbn; [by rewrite andb_true_r, andb_false_r, orb_false_r|].
  by rewrite andb_false_r, andb_true_r.
Qed.

Lemma swap_range s mask v : 0 <= mask < 2 ^ 64 -> 0 <= swap s mask v < 2 ^ 64.
Proof.
  intros Hm. unfold swap. apply range_by_bits.
  - apply Z.lor_nonneg. split; apply Z.land_nonneg; [right; lia|left].
    unfold wrapu. apply Z.mod_pos_bound. lia.
  - intros i Hi. rewrite Z.lor_spec, !Z.land_spec. rewrite (testbit_high mask) by lia.
    unfold wrapu. rewrite Z.mod_pow2_bits_high by lia. by rewrite andb_false_r.
Qed.

Lemma rev_swaps v :
  rev v =
  swap 1 0x5555555555555555 (swap 2 0x3333333333333333 (swap 4 0x0f0f0f0f0f0f0f0f
    (swap 8 0x00ff00ff00ff00ff (swap 16 0x0000ffff0000ffff (swap 32 0x00000000ffffffff v))))).
Proof. reflexivity. Qed.

Definition source6 (i : Z) : Z :=
  source 32 0x00000000ffffffff (source 16 0x0000ffff0000ffff (source 8 0x00ff00ff00ff00ff
    (source 4 0x0f0f0f0f0f0f0f0f (source 2 0x3333333333333333 (source 1 0x5555555555555555 i))))).

Lemma sources_reverse :
  forallb (fun i =>
    let i1 := source 1 0x5555555555555555 i in
    let i2 := source 2 0x3333333333333333 i1 in
    let i3 := source 4 0x0f0f0f0f0f0f0f0f i2 in
    let i4 := source 8 0x00ff00ff00ff00ff i3 in
    let i5 := source 16 0x0000ffff0000ffff i4 in
    forallb (fun j => (0 <=? j) && (j <? 64)) [i1; i2; i3; i4; i5] && (source6 i =? 63 - i)) (seqZ 0 64) = true.
Proof. vm_compute. reflexivity. Qed.

Lemma rev_testbit v i : 0 <= i < 64 -> Z.testbit (rev v) i = Z.testbit v (63 - i).
Proof.
  intros Hi. pose proof sources_reverse as Hs. rewrite forallb_forall in Hs.
  specialize (Hs i). cbv zeta in Hs. cbn [forallb] in Hs.
  rewrite <- list_elem_of_In, elem_of_seqZ in Hs. specialize (Hs ltac:(lia)).
  rewrite !andb_true_iff, !Z.leb_le, !Z.ltb_lt, Z.eqb_eq in Hs.
  destruct Hs as [(H1 & H2 & H3 & H4 & H5 & _) Hsrc].
  rewrite rev_swaps. rewrite !swap_testbit by lia. by rewrite <- Hsrc.
Qed.

Lemma rev_range v : 0 <= rev v < 2 ^ 64.
Proof. rewrite rev_swaps. apply swap_range. lia. Qed.

Lemma eq_by_bits x y :
  0 <= x < 2 ^ 64 -> 0 <= y < 2 ^ 64 -> (forall i, 0 <= i < 64 -> Z.testbit x i = Z.testbit y i) -> x = y.
Proof.
  intros Hx Hy Hb. apply Z.bits_inj'. intros i Hi. destruct (Z.lt_ge_cases i 64); [by apply Hb|].
  by rewrite !testbit_high.
Qed.

Lemma rev_involutive v : 0 <= v < 2 ^ 64 -> rev (rev v) = v.
Proof.
  intros Hv. apply eq_by_bits; [apply rev_range|done|]. intros i Hi. rewrite !rev_testbit by lia. f_equal. lia.
Qed.

Lemma rev_zero : rev 0 = 0.
Proof. reflexivity. Qed.

(** Setting the bits above the mask of a table sets the low bits of the
    reversed cursor. *)
Lemma rev_fill v w :
  0 <= v < 2 ^ 64 -> 0 <= w <= 64 -> rev (v |. u64 (~. (2 ^ w - 1)))%C = (rev v |. Z.ones (64 - w))%C.
Proof.
  intros Hv Hw. assert (Hu : forall x, 0 <= u64 x < 2 ^ 64) by (intros; apply Z.mod_pos_bound; lia).
  apply eq_by_bits; [apply rev_range| |].
  - apply range_by_bits; [apply Z.lor_nonneg; split; [apply rev_range|rewrite Z.ones_equiv; pose proof (Z.pow_pos_nonneg 2 (64 - w)); lia]|].
    intros i Hi. rewrite Z.lor_spec, testbit_high, Z.ones_spec_high; [done|lia|apply rev_range|lia].
  - intros i Hi. rewrite rev_testbit, !Z.lor_spec, rev_testbit, testbit_u64, Z.lnot_spec by lia.
    replace (2 ^ w - 1) with (Z.ones w) by (rewrite Z.ones_equiv; lia). f_equal. destruct (Z.lt_ge_cases i (64 - w)).
    + rewrite (Z.ones_spec_low (64 - w)) by lia. by rewrite Z.ones_spec_high by lia.
    + rewrite (Z.ones_spec_high (64 - w)) by lia. by rewrite Z.ones_spec_low by lia.
Qed.

(** Filling the low bits and adding one moves to the next multiple. *)
Lemma fill_succ p k : 0 <= k -> (p |. Z.ones k)%C + 1 = (p / 2 ^ k + 1) * 2 ^ k.
Proof.
  intros Hk. set (x := Z.lor p (Z.ones k)). assert (0 < 2 ^ k) by (apply Z.pow_pos_nonneg; lia).
  assert (x / 2 ^ k = p / 2 ^ k).
  { unfold x. rewrite <- !Z.shiftr_div_pow2 by lia. rewrite Z.shiftr_lor.
    rewrite (Z.shiftr_div_pow2 (Z.ones k)), Z.ones_equiv, (Z.div_small (Z.pred _)) by lia. apply Z.lor_0_r. }
  assert (x mod 2 ^ k = Z.ones k).
  { unfold x. rewrite <- Z.land_ones by lia. apply Z.bits_inj'. intros i Hi.
    rewrite Z.land_spec, Z.lor_spec. destruct (Z.testbit p i), (Z.testbit (Z.ones k) i); done. }
  rewrite Z.ones_equiv in *. pose proof (Z.div_mod x (2 ^ k) ltac:(lia)). lia.
Qed.

(** Two numbers whose reversals share the high [w] bits share the low [w]. *)
Lemma low_of_high a b w :
  0 <= w <= 64 -> rev a / 2 ^ (64 - w) = rev b / 2 ^ (64 - w) -> a mod 2 ^ w = b mod 2 ^ w.
Proof.
  intros Hw Heq. apply Z.bits_inj'. intros i Hi. destruct (Z.lt_ge_cases i w).
  - rewrite !Z.mod_pow2_bits_low by lia.
    assert (Hb : forall x, Z.testbit x i = Z.testbit (rev x / 2 ^ (64 - w)) (w - 1 - i)).
    { intros x. rewrite Z.div_pow2_bits by lia. rewrite rev_testbit by lia. f_equal. lia. }
    by rewrite !Hb, Heq.
  - by rewrite !Z.mod_pow2_bits_high by lia.
Qed.

Lemma high_of_low a b w :
  0 <= w <= 64 -> a mod 2 ^ w = b mod 2 ^ w -> rev a / 2 ^ (64 - w) = rev b / 2 ^ (64 - w).
Proof.
  intros Hw Heq. apply Z.bits_inj'. intros i Hi. rewrite !Z.div_pow2_bits by lia. destruct (Z.lt_ge_cases i w).
  - rewrite !rev_testbit by lia. rewrite <- (Z.mod_pow2_bits_low a w), <- (Z.mod_pow2_bits_low b w) by lia. by rewrite Heq.
  - rewrite !testbit_high; [done|apply rev_range|lia|apply rev_range|lia].
Qed.

(** The next bit of the reversal. *)
Lemma next_bit x w :
  0 <= w < 64 -> rev x / 2 ^ (63 - w) = 2 * (rev x / 2 ^ (64 - w)) + (x / 2 ^ w) mod 2.
Proof.
  intros Hw. rewrite <- Z.testbit_spec' by lia.
  replace w with (63 - (63 - w)) at 3 by lia. rewrite <- rev_testbit by lia. rewrite Z.testbit_spec' by lia.
  replace (2 ^ (64 - w)) with (2 ^ (63 - w) * 2)
    by (rewrite Z.mul_comm, <- Z.pow_succ_r by lia; f_equal; lia).
  rewrite <- Z.div_div by (pose proof (Z.pow_pos_nonneg 2 (63 - w)); lia). apply Z.div_mod. lia.
Qed.

(** ** The expansions of a cursor *)

Lemma lor_disjoint a b n : 0 <= n -> 0 <= b < 2 ^ n -> Z.lor (2 ^ n * a) b = 2 ^ n * a + b.
Proof.
  intros Hn Hb. rewrite Z.mul_comm, <- Z.shiftl_mul_pow2 by lia.
  assert (Z.land (Z.shiftl a n) b = 0) as Hd.
  { apply Z.bits_inj'. intros i Hi. rewrite Z.land_spec, Z.bits_0. destruct (Z.lt_ge_cases i n).
    - by rewrite Z.shiftl_spec_low by lia.
    - rewrite <- (Z.mod_small b (2 ^ n)), Z.mod_pow2_bits_high by lia. apply andb_false_r. }
  by rewrite Z.add_nocarry_lxor, Z.lxor_lor.
Qed.

(** The counter above the smaller mask. *)
Lemma cursor_step v w : 0 <= w <= 64 ->
  ((u64 ((v |. (2 ^ w - 1)) + 1) &. ~. (2 ^ w - 1)) |. (v &. (2 ^ w - 1)))%C =
  2 ^ w * ((v / 2 ^ w + 1) mod 2 ^ (64 - w)) + v mod 2 ^ w.
Proof.
  intros Hw. rewrite land_pow2_mask by lia. replace (2 ^ w - 1) with (Z.ones w) by (rewrite Z.ones_equiv; lia).
  rewrite fill_succ by lia. unfold wrapu.
  replace ((v / 2 ^ w + 1) * 2 ^ w) with (2 ^ w * (v / 2 ^ w + 1)) by lia.
  replace (2 ^ 64) with (2 ^ w * 2 ^ (64 - w)) by (rewrite <- Z.pow_add_r by lia; f_equal; lia).
  assert (0 < 2 ^ w) by (apply Z.pow_pos_nonneg; lia). assert (0 < 2 ^ (64 - w)) by (apply Z.pow_pos_nonneg; lia).
  rewrite Z.mul_mod_distr_l by lia.
  rewrite <- Z.ldiff_land, Z.ldiff_ones_r, Z.shiftr_div_pow2, Z.shiftl_mul_pow2 by lia.
  rewrite (Z.mul_comm (2 ^ w)), Z.div_mul, (Z.mul_comm _ (2 ^ w)) by lia.
  apply lor_disjoint; [lia|]. apply Z.mod_pos_bound. lia.
Qed.

(** The part of a cursor between the two masks. *)
Lemma between_masks v w0 w1 : 0 <= w0 <= w1 ->
  (v &. ((2 ^ w0 - 1) ^. (2 ^ w1 - 1)))%C = 2 ^ w0 * ((v / 2 ^ w0) mod 2 ^ (w1 - w0)).
Proof.
  intros Hw. replace (2 ^ w0 - 1) with (Z.ones w0) by (rewrite Z.ones_equiv; lia).
  replace (2 ^ w1 - 1) with (Z.ones w1) by (rewrite Z.ones_equiv; lia).
  rewrite Z.mul_comm, <- Z.shiftl_mul_pow2 by lia. apply Z.bits_inj'. intros i Hi.
  rewrite Z.land_spec, Z.lxor_spec, Z.shiftl_spec by lia. destruct (Z.lt_ge_cases i w0).
  - rewrite !Z.ones_spec_low by lia. rewrite (Z.testbit_neg_r _ (i - w0)) by lia. apply andb_false_r.
  - rewrite (Z.ones_spec_high w0) by lia. destruct (Z.lt_ge_cases i w1).
    + rewrite Z.ones_spec_low, Z.mod_pow2_bits_low, Z.div_pow2_bits by lia. rewrite andb_true_r. f_equal. lia.
    + rewrite Z.ones_spec_high, Z.mod_pow2_bits_high by lia. apply andb_false_r.
Qed.

Lemma mod_split x w0 w1 : 0 <= w0 <= w1 ->
  x mod 2 ^ w1 = x mod 2 ^ w0 + 2 ^ w0 * ((x / 2 ^ w0) mod 2 ^ (w1 - w0)).
Proof.
  intros Hw. replace (2 ^ w1) with (2 ^ w0 * 2 ^ (w1 - w0)) by (rewrite <- Z.pow_add_r by lia; f_equal; lia).
  apply Z.rem_mul_r; [|lia]. pose proof (Z.pow_pos_nonneg 2 w0). lia.
Qed.

Lemma cursor_next v w0 w1 : 0 <= w0 <= w1 -> w1 <= 64 ->
  let v1 := 2 ^ w0 * ((v / 2 ^ w0 + 1) mod 2 ^ (64 - w0)) + v mod 2 ^ w0 in
  0 <= v1 < 2 ^ 64 /\ v1 mod 2 ^ w0 = v mod 2 ^ w0 /\
  (v1 / 2 ^ w0) mod 2 ^ (w1 - w0) = ((v / 2 ^ w0) mod 2 ^ (w1 - w0) + 1) mod 2 ^ (w1 - w0).
Proof.
  intros Hw Hw1 v1. assert (Hp : 0 < 2 ^ w0) by (apply Z.pow_pos_nonneg; lia).
  assert (Hn : 0 < 2 ^ (64 - w0)) by (apply Z.pow_pos_nonneg; lia).
  assert (Hn1 : 0 < 2 ^ (w1 - w0)) by (apply Z.pow_pos_nonneg; lia).
  pose proof (Z.mod_pos_bound (v / 2 ^ w0 + 1) _ Hn). pose proof (Z.mod_pos_bound v _ Hp). split_and!.
  - subst v1. nia.
  - replace (2 ^ 64) with (2 ^ w0 * 2 ^ (64 - w0)) by (rewrite <- Z.pow_add_r by lia; f_equal; lia). subst v1. nia.
  - subst v1. rewrite Z.add_comm, Z.mul_comm, Z.mod_add, Z.mod_mod by lia. done.
  - subst v1. rewrite (Z.mul_comm (2 ^ w0)), Z.div_add_l, (Z.div_small (v mod _)), Z.add_0_r by lia.
    rewrite Z.add_mod_idemp_l by lia. apply Z.mod_mod_divide.
    exists (2 ^ (64 - w1)). rewrite <- Z.pow_add_r by lia. f_equal. lia.
Qed.

Section Complete.
Context {K V C : Type} `{EqDecision K} `{Countable C}.
Context (ty : dictType K V) (canon : K -> C) `{!DictTypeOk ty canon}.
Implicit Types (d : dict K V) (e : dictEntry K V).

Abbreviation hash := (dictHashKey ty).

(** The bucket a cursor selects holds the entries whose hash agrees with it
    below the mask. *)
Lemma bucket_at w (t : dictht K V) v :
  ht_ok ty w t -> exists de, zget (table t) (Z.land v (sizemask t)) = Some de /\
    (forall e, e ∈ de -> e ∈ concat (table t)) /\
    (forall e, e ∈ concat (table t) -> hash (key e) mod 2 ^ w = v mod 2 ^ w -> e ∈ de).
Proof.
  intros Ht. pose proof (ok_width _ _ _ Ht). rewrite (ok_mask _ _ _ Ht), land_pow2_mask by lia.
  assert (0 < 2 ^ w) by (apply Z.pow_pos_nonneg; lia). pose proof (Z.mod_pos_bound v (2 ^ w) ltac:(lia)) as Hr.
  destruct (zget_is_Some (table t) (v mod 2 ^ w)) as [de Hde]; [rewrite (ok_len _ _ _ Ht); lia|].
  exists de. split; [done|]. apply zget_Some in Hde as [_ Hde]. split.
  - intros e He. by eapply elem_of_concat.
  - intros e (i & c & Hi & He)%concat_elem_of Heq. pose proof (ok_place _ _ _ Ht i c e Hi He) as Hp.
    assert (i = Z.to_nat (v mod 2 ^ w)) as -> by lia. by simplify_eq.
Qed.

Lemma expand_loop_spec w0 w1 (t1 : dictht K V) fuel v :
  ht_ok ty w1 t1 -> 0 <= w0 <= w1 -> 0 <= v < 2 ^ 64 ->
  (Z.to_nat (2 ^ (w1 - w0) - (v / 2 ^ w0) mod 2 ^ (w1 - w0)) <= fuel)%nat ->
  exists v' es, expand_loop fuel t1 (2 ^ w0 - 1) (2 ^ w1 - 1) v = Some (v', es) /\
    0 <= v' < 2 ^ 64 /\ v' mod 2 ^ w0 = v mod 2 ^ w0 /\
    (forall e, e ∈ es -> e ∈ concat (table t1)) /\
    (forall e, e ∈ concat (table t1) -> hash (key e) mod 2 ^ w0 = v mod 2 ^ w0 ->
       (v / 2 ^ w0) mod 2 ^ (w1 - w0) <= (hash (key e) / 2 ^ w0) mod 2 ^ (w1 - w0) -> e ∈ es).
Proof.
  intros Ht Hw Hv Hfuel. pose proof (ok_width _ _ _ Ht). revert v Hv Hfuel.
  assert (Hn : 0 < 2 ^ (w1 - w0)) by (apply Z.pow_pos_nonneg; lia).
  assert (Hp : 0 < 2 ^ w0) by (apply Z.pow_pos_nonneg; lia).
  induction fuel as [|fuel IH]; intros v Hv Hfuel.
  { pose proof (Z.mod_pos_bound (v / 2 ^ w0) _ Hn). lia. }
  destruct (bucket_at w1 t1 v Ht) as (de & Hde & Hin & Hall). rewrite (ok_mask _ _ _ Ht) in Hde.
  cbn [expand_loop]. rewrite Hde. cbn [obind]. rewrite cursor_step by lia.
  destruct (cursor_next v w0 w1 Hw ltac:(lia)) as (Hr1 & Hm & Hc).
  set (v1 := 2 ^ w0 * _ + _) in *. set (n := 2 ^ (w1 - w0)) in *. set (c := (v / 2 ^ w0) mod n) in *.
  assert (Hb : 0 <= c < n) by (apply Z.mod_pos_bound; lia).
  assert (Hhere : forall e, e ∈ concat (table t1) -> hash (key e) mod 2 ^ w0 = v mod 2 ^ w0 ->
    (hash (key e) / 2 ^ w0) mod n = c -> e ∈ de).
  { intros e He Hl Hh. apply Hall; [done|]. rewrite !(mod_split _ w0 w1) by lia. fold n. by rewrite Hl, Hh. }
  rewrite between_masks by lia. fold n. rewrite Hc. destruct (decide (c + 1 = n)) as [Hlast|Hmore].
  - rewrite Hlast, Z.mod_same, Z.mul_0_r by lia. cbn. exists v1, de. split_and!; [done|lia|lia|done|done|].
    intros e He Hl Hle. apply Hhere; [done|done|]. pose proof (Z.mod_pos_bound (hash (key e) / 2 ^ w0) n Hn). lia.
  - rewrite (Z.mod_small (c + 1)) in * by lia. rewrite (proj2 (Z.eqb_neq _ _)) by nia.
    destruct (IH v1 Hr1) as (v' & es & -> & Hr' & Hm' & Hin' & Hall'); [lia|]. cbn. exists v', (de ++ es).
    split_and!; [done|lia|lia|congruence| |].
    + intros e [He|He]%elem_of_app; auto.
    + intros e He Hl Hle. apply elem_of_app. destruct (decide ((hash (key e) / 2 ^ w0) mod n = c)); [left; auto|].
      right. apply Hall'; [done|congruence|lia].
Qed.

(** The condition on a call while the table is being rehashed: the cursor
    points to the first expansion, or there are only two. *)
Definition fine d (v : Z) : Prop :=
  dictIsRehashing d = true ->
  (v &. (sizemask (ht0 d) ^. sizemask (ht1 d)))%C = 0 \/
  size (ht0 d) = 2 * size (ht1 d) \/ size (ht1 d) = 2 * size (ht0 d).

(** Where the position stands after a call with a table of width [w]. *)
Definition next_position (p w : Z) : Z := (p / 2 ^ (64 - w) + 1) * 2 ^ (64 - w).

Lemma next_position_spec p w : 0 <= w <= 64 -> p < next_position p w.
Proof.
  intros Hw. unfold next_position. assert (0 < 2 ^ (64 - w)) by (apply Z.pow_pos_nonneg; lia).
  pose proof (Z.div_mod p (2 ^ (64 - w)) ltac:(lia)). pose proof (Z.mod_pos_bound p (2 ^ (64 - w)) ltac:(lia)). nia.
Qed.

Lemma same_position p q w : 0 <= w <= 64 -> p <= q < next_position p w -> q / 2 ^ (64 - w) = p / 2 ^ (64 - w).
Proof.
  intros Hw Hq. unfold next_position in Hq. assert (0 < 2 ^ (64 - w)) by (apply Z.pow_pos_nonneg; lia).
  pose proof (Z.div_le_mono p q (2 ^ (64 - w)) ltac:(lia) ltac:(lia)).
  pose proof (Z.div_lt_upper_bound q (2 ^ (64 - w)) (p / 2 ^ (64 - w) + 1) ltac:(lia) ltac:(lia)). lia.
Qed.

(** The end of the code: the cursor moves to the next position. *)
Lemma advance v v1 w :
  0 <= v1 < 2 ^ 64 -> 0 <= w <= 64 -> v1 mod 2 ^ w = v mod 2 ^ w ->
  u64 (rev (v1 |. u64 (~. (2 ^ w - 1)))%C + 1) = u64 (next_position (rev v) w).
Proof.
  intros Hv Hw Heq. rewrite rev_fill, fill_succ by lia. unfold next_position. by rewrite (high_of_low v1 v w).
Qed.

Lemma power_ratio w0 w1 : 0 <= w0 -> 0 <= w1 -> 2 ^ w1 = 2 * 2 ^ w0 -> w1 = w0 + 1.
Proof. intros H0 H1 Heq. rewrite <- Z.pow_succ_r in Heq by lia. apply Z.pow_inj_r in Heq; lia. Qed.

(** An entry at or after the position is in an expansion at or after the one
    of the cursor. *)
Lemma expansion_order w0 w1 v x :
  0 <= w0 <= w1 -> w1 <= 30 -> (v &. ((2 ^ w0 - 1) ^. (2 ^ w1 - 1)))%C = 0 \/ 2 ^ w1 = 2 * 2 ^ w0 ->
  rev v <= rev x -> rev x / 2 ^ (64 - w0) = rev v / 2 ^ (64 - w0) ->
  (v / 2 ^ w0) mod 2 ^ (w1 - w0) <= (x / 2 ^ w0) mod 2 ^ (w1 - w0).
Proof.
  intros Hw Hw1 Hfine Hpos Hsame. assert (Hn : 0 < 2 ^ (w1 - w0)) by (apply Z.pow_pos_nonneg; lia).
  pose proof (Z.mod_pos_bound (x / 2 ^ w0) _ Hn). destruct Hfine as [Hf|Hf].
  - rewrite between_masks in Hf by lia. pose proof (Z.pow_pos_nonneg 2 w0). nia.
  - apply power_ratio in Hf; [|lia|lia]. subst w1. replace (w0 + 1 - w0) with 1 in * by lia. change (2 ^ 1) with 2 in *.
    pose proof (next_bit v w0 ltac:(lia)). pose proof (next_bit x w0 ltac:(lia)).
    assert (0 < 2 ^ (63 - w0)) by (apply Z.pow_pos_nonneg; lia).
    pose proof (Z.div_le_mono (rev v) (rev x) (2 ^ (63 - w0)) ltac:(lia) ltac:(lia)). lia.
Qed.

(** The code on the smaller table [t0] and the larger table [t1]. *)
Lemma scan_two w0 w1 (t0 t1 : dictht K V) v :
  ht_ok ty w0 t0 -> ht_ok ty w1 t1 -> w0 <= w1 -> 0 <= v < 2 ^ 64 ->
  (v &. ((2 ^ w0 - 1) ^. (2 ^ w1 - 1)))%C = 0 \/ 2 ^ w1 = 2 * 2 ^ w0 ->
  exists v1 es,
    (let? de := zget (table t0) (Z.land v (sizemask t0)) in
     let? (v, des) := expand_loop (Z.to_nat (2 ^ w1)) t1 (sizemask t0) (sizemask t1) v in
     Some (v, sizemask t0, de ++ des)) = Some (v1, 2 ^ w0 - 1, es) /\
    0 <= v1 < 2 ^ 64 /\ v1 mod 2 ^ w0 = v mod 2 ^ w0 /\
    (forall e, e ∈ es -> e ∈ concat (table t0) \/ e ∈ concat (table t1)) /\
    (forall e, e ∈ concat (table t0) \/ e ∈ concat (table t1) ->
       rev v <= rev (hash (key e)) < next_position (rev v) w0 -> e ∈ es).
Proof.
  intros H0 H1 Hw Hv Hfine. pose proof (ok_width _ _ _ H0). pose proof (ok_width _ _ _ H1).
  destruct (bucket_at w0 t0 v H0) as (de & Hde & Hin & Hall).
  assert (Hn : 0 < 2 ^ (w1 - w0)) by (apply Z.pow_pos_nonneg; lia).
  destruct (expand_loop_spec w0 w1 t1 (Z.to_nat (2 ^ w1)) v H1 ltac:(lia) Hv) as (v1 & des & Hex & Hr & Hm & Hin1 & Hall1).
  { pose proof (Z.mod_pos_bound (v / 2 ^ w0) _ Hn).
    assert (2 ^ (w1 - w0) <= 2 ^ w1) by (apply Z.pow_le_mono_r; lia). lia. }
  exists v1, (de ++ des). rewrite Hde. rewrite (ok_mask _ _ _ H0), (ok_mask _ _ _ H1) in *. cbn [obind]. rewrite Hex.
  split_and!; [done|lia|lia|done| |].
  - intros e [He|He]%elem_of_app; auto.
  - intros e He Hpos. apply elem_of_app. apply same_position in Hpos as Hsame; [|lia].
    apply low_of_high in Hsame as Hlow; [|lia]. destruct He as [He|He]; [left; auto|right].
    apply Hall1; [done|done|]. apply expansion_order; [lia|lia|done|lia|done].
Qed.

Lemma dictSize_entries d : dict_wf ty canon d -> dictSize d = zlen (entries d).
Proof.
  intros [Hshape _ Hbound]. unfold dictSize, entries in *. rewrite length_app in *.
  assert (used (ht0 d) + used (ht1 d) = zlen (concat (table (ht0 d))) + zlen (concat (table (ht1 d)))) as ->.
  { destruct Hshape as [[_ [->|[w0 H0]] ->]|[[w0 H0] [w1 H1] _ _]]; [done| |].
    - by rewrite (ok_used _ _ _ H0).
    - by rewrite (ok_used _ _ _ H0), (ok_used _ _ _ H1). }
  unfold wrapu. rewrite Z.mod_small; lia.
Qed.

(** One call: the position advances, and the entries between the old and the
    new position are returned. *)
Lemma dictScan_step d v :
  dict_wf ty canon d -> 0 <= v < 2 ^ 64 -> fine d v -> entries d <> [] ->
  exists w es, dictScan d v = Some (rev (u64 (next_position (rev v) w)), es) /\
    2 <= w <= 30 /\ 2 ^ w <= size (ht0 d) /\
    (forall e, e ∈ es -> e ∈ entries d) /\
    (forall e, e ∈ entries d -> rev v <= rev (hash (key e)) < next_position (rev v) w -> e ∈ es).
Proof.
  intros Hwf Hv Hfine Hne. unfold dictScan. rewrite dictSize_entries by done.
  rewrite (proj2 (Z.eqb_neq _ _)) by (destruct (entries d); [done|cbn; lia]).
  destruct (wf_shape _ _ _ Hwf) as [Hs|[[w0 H0] [w1 H1] Hidx _]].
  - destruct Hs as [Hi Hs H1]. unfold dictIsRehashing. rewrite Hi. cbn -[rev zget wrapu].
    assert (Hent : entries d = concat (table (ht0 d))) by (unfold entries; rewrite H1; apply app_nil_r).
    destruct Hs as [Hs|[w H0]]; [by rewrite Hent, Hs in Hne|]. pose proof (ok_width _ _ _ H0).
    destruct (bucket_at w (ht0 d) v H0) as (de & Hde & Hin & Hall). rewrite Hde. cbn -[rev wrapu].
    exists w, de. rewrite (ok_mask _ _ _ H0), (advance v v w), (ok_size _ _ _ H0), Hent by (done || lia).
    split_and!; [done|lia|lia|lia|done|]. intros e He Hpos. apply Hall; [done|].
    apply low_of_high; [lia|]. apply same_position; [lia|done].
  - pose proof (ok_width _ _ _ H0). pose proof (ok_width _ _ _ H1).
    assert (dictIsRehashing d = true) as Hre by (unfold dictIsRehashing; destruct (Z.eqb_spec (rehashidx d) (-1)); lia || done).
    rewrite Hre. cbn -[rev zget wrapu]. specialize (Hfine Hre).
    rewrite (ok_mask _ _ _ H0), (ok_mask _ _ _ H1), (ok_size _ _ _ H0), (ok_size _ _ _ H1) in Hfine.
    rewrite (ok_size _ _ _ H0), (ok_size _ _ _ H1). destruct (Z.ltb_spec (2 ^ w1) (2 ^ w0)) as [Hlt|Hge].
    + apply Z.pow_lt_mono_r_iff in Hlt as Hlt'; [|lia|lia].
      destruct (scan_two w1 w0 (ht1 d) (ht0 d) v H1 H0 ltac:(lia) Hv) as (v1 & es & Hex & Hr & Hm & Hin & Hall).
      { rewrite Z.lxor_comm in Hfine. destruct Hfine as [Hf|[Hf|Hf]]; [by left|by right|lia]. }
      rewrite (ok_size _ _ _ H0), Hex. cbn -[rev wrapu]. exists w1, es. rewrite (advance v v1 w1) by lia.
      split_and!; [done|lia|lia|lia| |]; intros e; unfold entries; rewrite elem_of_app; [intros ?%Hin; tauto|intros; apply Hall; tauto].
    + apply Z.pow_le_mono_r_iff in Hge as Hge'; [|lia|lia].
      destruct (scan_two w0 w1 (ht0 d) (ht1 d) v H0 H1 ltac:(lia) Hv) as (v1 & es & Hex & Hr & Hm & Hin & Hall).
      { destruct Hfine as [Hf|[Hf|Hf]]; [by left|lia|by right]. }
      rewrite (ok_size _ _ _ H1), Hex. cbn -[rev wrapu]. exists w0, es. rewrite (advance v v1 w0) by lia.
      split_and!; [done|lia|lia|lia| |]; intros e; unfold entries; rewrite elem_of_app; [intros ?%Hin; tauto|intros; apply Hall; tauto].
Qed.

(** ** A whole scan

    The dictionary may change between the calls: [ds] are its states at each
    of them. *)
Fixpoint scan_run (v : Z) (ds : list (dict K V)) : option (Z * list (dictEntry K V)) :=
  match ds with
  | [] => Some (v, [])
  | d :: ds =>
      let? (v, es) := dictScan d v in
      if v =? 0 then Some (0, es)
      else let? (v, es') := scan_run v ds in Some (v, es ++ es')
  end.

Fixpoint all_fine (v : Z) (ds : list (dict K V)) : Prop :=
  match ds with
  | [] => True
  | d :: ds => fine d v /\ forall v' es, dictScan d v = Some (v', es) -> v' <> 0 -> all_fine v' ds
  end.

#[export] Instance fine_dec d v : Decision (fine d v).
Proof. unfold fine. apply _. Defined.

(** The condition, computed. *)
Fixpoint all_fineb (v : Z) (ds : list (dict K V)) : bool :=
  match ds with
  | [] => true
  | d :: ds =>
      bool_decide (fine d v) &&
      match dictScan d v with Some (v', _) => (v' =? 0) || all_fineb v' ds | None => true end
  end.

Lemma all_fineb_ok v ds : all_fineb v ds = true -> all_fine v ds.
Proof.
  revert v. induction ds as [|d ds IH]; intros v; [done|]. cbn. rewrite andb_true_iff, bool_decide_eq_true.
  intros [Hf Hr]. split; [done|]. intros v' es Heq Hne. rewrite Heq in Hr. apply IH.
  by apply orb_true_iff in Hr as [->%Z.eqb_eq|?].
Qed.

Lemma next_position_le p w : 0 <= w <= 64 -> p < 2 ^ 64 -> next_position p w <= 2 ^ 64.
Proof.
  intros Hw Hp. unfold next_position. assert (0 < 2 ^ (64 - w)) by (apply Z.pow_pos_nonneg; lia).
  replace (2 ^ 64) with (2 ^ w * 2 ^ (64 - w)) in * by (rewrite <- Z.pow_add_r by lia; f_equal; lia).
  pose proof (Z.div_lt_upper_bound p (2 ^ (64 - w)) (2 ^ w) ltac:(lia) ltac:(lia)). nia.
Qed.

(** Every call moves the position by at least the width of a bucket of the
    largest table. *)
Lemma next_position_grows p w W n :
  0 <= w <= W -> W <= 64 -> n * 2 ^ (64 - W) <= p -> (n + 1) * 2 ^ (64 - W) <= next_position p w.
Proof.
  intros Hw HW Hn. pose proof (next_position_spec p w ltac:(lia)) as Hlt. revert Hlt. unfold next_position.
  replace (64 - w) with ((64 - W) + (W - w)) by lia. rewrite Z.pow_add_r by lia.
  set (a := p / _ + 1). intros Hlt. assert (0 < 2 ^ (64 - W)) by (apply Z.pow_pos_nonneg; lia).
  assert (n < a * 2 ^ (W - w)) by nia. nia.
Qed.

Lemma scan_call d v W n :
  dict_wf ty canon d -> size (ht0 d) <= 2 ^ W -> 0 <= W <= 64 -> 0 <= v < 2 ^ 64 -> fine d v ->
  n * 2 ^ (64 - W) <= rev v ->
  exists v1 es, dictScan d v = Some (v1, es) /\ 0 <= v1 < 2 ^ 64 /\ (forall e, e ∈ es -> e ∈ entries d) /\
    (v1 <> 0 -> (n + 1) * 2 ^ (64 - W) <= rev v1) /\
    (forall e, e ∈ entries d -> rev v <= rev (hash (key e)) -> v1 = 0 \/ rev (hash (key e)) < rev v1 -> e ∈ es).
Proof.
  intros Hwf Hsz HW Hv Hfine Hn. destruct (decide (entries d = [])) as [He|He].
  { exists 0, []. unfold dictScan. rewrite dictSize_entries, He by done. by split_and!. }
  destruct (dictScan_step d v Hwf Hv Hfine He) as (w & es & -> & Hw & Hle & Hin & Hall).
  assert (w <= W) by (apply (Z.pow_le_mono_r_iff 2); lia). pose proof (rev_range v) as Hr.
  pose proof (next_position_spec (rev v) w ltac:(lia)). pose proof (next_position_le (rev v) w ltac:(lia) ltac:(lia)).
  set (np := next_position (rev v) w) in *. exists (rev (u64 np)), es.
  assert (Hu : rev (rev (u64 np)) = u64 np) by (apply rev_involutive, Z.mod_pos_bound; lia).
  assert (Hcase : np = 2 ^ 64 \/ u64 np = np) by (unfold wrapu; destruct (decide (np = 2 ^ 64)); [by left|right; apply Z.mod_small; lia]).
  split_and!; [done|apply rev_range|apply rev_range|done| |].
  - intros Hne. rewrite Hu. destruct Hcase as [E|E]; [by rewrite E in Hne|]. rewrite E.
    apply next_position_grows; lia.
  - intros e He' Hge Hlt. apply Hall; [done|]. split; [done|]. pose proof (rev_range (hash (key e))).
    destruct Hcase as [E|E]; [lia|]. rewrite Hu, E in Hlt. destruct Hlt as [Hz|]; [|done].
    rewrite E, Hz, rev_zero in Hu. lia.
Qed.

Lemma scan_run_spec W ds : 0 <= W <= 64 ->
  forall v n, Forall (fun d => dict_wf ty canon d /\ size (ht0 d) <= 2 ^ W) ds ->
  all_fine v ds -> 0 <= v < 2 ^ 64 -> n * 2 ^ (64 - W) <= rev v -> v <> 0 \/ ds <> [] ->
  exists v' es, scan_run v ds = Some (v', es) /\
    (2 ^ W <= n + zlen ds -> v' = 0) /\
    (forall e, e ∈ es -> exists d, d ∈ ds /\ e ∈ entries d) /\
    (v' = 0 -> forall k, (forall d, d ∈ ds -> exists e, e ∈ entries d /\ canon (key e) = canon k) ->
       rev v <= rev (hash k) -> exists e, e ∈ es /\ canon (key e) = canon k).
Proof.
  intros HW. induction ds as [|d ds IH]; intros v n Hds Hf Hv Hn Hne.
  - exists v, []. split_and!; [done| |by intros e ?%not_elem_of_nil|intros ->; naive_solver].
    intros Hlast. pose proof (rev_range v). exfalso. cbn in Hlast. assert (0 < 2 ^ (64 - W)) by (apply Z.pow_pos_nonneg; lia).
    replace (2 ^ 64) with (2 ^ W * 2 ^ (64 - W)) in * by (rewrite <- Z.pow_add_r by lia; f_equal; lia). nia.
  - apply Forall_cons in Hds as [[Hwf Hsz] Hds]. destruct Hf as [Hfine Hf].
    destruct (scan_call d v W n Hwf Hsz HW Hv Hfine Hn) as (v1 & es & Hscan & Hr1 & Hin & Hgrow & Hall).
    assert (Hkey : forall k, (forall d', d' ∈ d :: ds -> exists e, e ∈ entries d' /\ canon (key e) = canon k) ->
      rev v <= rev (hash k) -> v1 = 0 \/ rev (hash k) < rev v1 -> exists e, e ∈ es /\ canon (key e) = canon k).
    { intros k Hk Hge Hlt. destruct (Hk d ltac:(left)) as (e & He & Hc). exists e. split; [|done].
      apply hash_canon in Hc. rewrite <- Hc in *. by apply Hall. }
    cbn [scan_run]. rewrite Hscan. cbn [obind]. destruct (Z.eqb_spec v1 0) as [->|H1].
    + exists 0, es. split_and!; [done|done| |].
      * intros e He. exists d. split; [left|by apply Hin].
      * intros _ k Hk Hge. apply Hkey; [done|done|by left].
    + destruct (IH v1 (n + 1) Hds (Hf v1 es Hscan H1) Hr1 (Hgrow H1) ltac:(by left)) as (v' & es' & -> & Hend & Hin' & Hall').
      cbn. exists v', (es ++ es'). split_and!; [done| | |].
      * intros Hlen. apply Hend. lia.
      * intros e [He|He]%elem_of_app; [exists d; split; [left|by apply Hin]|].
        apply Hin' in He as (d' & Hd' & He). exists d'. split; [by right|done].
      * intros Hz k Hk Hge. destruct (Z.lt_ge_cases (rev (hash k)) (rev v1)) as [Hlt|Hge1].
        -- destruct (Hkey k Hk Hge ltac:(by right)) as (e & He & Hc). exists e. split; [apply elem_of_app; by left|done].
        -- destruct (Hall' Hz k) as (e & He & Hc); [intros d' Hd'; apply Hk; by right|done|].
           exists e. split; [apply elem_of_app; by right|done].
Qed.

(** C18: a scan with [dictScan] is complete although the dictionary may grow,
    shrink, be rehashed and be changed in any way between the calls: the
    calls never leave a table, the scan ends (the cursor is 0 again) after
    no more calls than the largest table has buckets, what it returns are
    entries of the dictionary, and it returns every key that is there at all
    the calls.  For each call made while the table is being rehashed, one
    table must have at most twice as many buckets as the other, or the cursor
    must point to the first expansion, as it does in a table that grows. *)
Theorem dictScan_complete W ds :
  0 <= W <= 64 -> ds <> [] -> Forall (fun d => dict_wf ty canon d /\ size (ht0 d) <= 2 ^ W) ds -> all_fine 0 ds ->
  exists v es, scan_run 0 ds = Some (v, es) /\
    (2 ^ W <= zlen ds -> v = 0) /\
    (forall e, e ∈ es -> exists d, d ∈ ds /\ e ∈ entries d) /\
    (v = 0 -> forall k, (forall d, d ∈ ds -> exists e, e ∈ entries d /\ canon (key e) = canon k) ->
       exists e, e ∈ es /\ canon (key e) = canon k).
Proof.
  intros HW Hne Hds Hf. destruct (scan_run_spec W ds HW 0 0 Hds Hf) as (v & es & Hrun & Hend & Hin & Hall);
    [lia|rewrite rev_zero; lia|by right|].
  exists v, es. split_and!; [done|done|done|]. intros Hz k Hk. apply Hall; [done|done|].
  rewrite rev_zero. apply rev_range.
Qed.

(** ** Random entries *)

(** The bucket [random_bucket] looks at for a draw. *)
Definition drawn d (x : Z) : option (list (dictEntry K V)) :=
  if dictIsRehashing d then
    let h := u32 (x mod u64 (size (ht0 d) + size (ht1 d))) in
    if size (ht0 d) <=? h then zget (table (ht1 d)) (h - size (ht0 d)) else zget (table (ht0 d)) h
  else zget (table (ht0 d)) (u32 (x &. sizemask (ht0 d)))%C.

Lemma table_bucket w (t : dictht K V) i c :
  ht_ok ty w t -> zget (table t) i = Some c -> 0 <= i < 2 ^ w /\ forall e, e ∈ c -> e ∈ concat (table t).
Proof.
  intros Ht [Hi Hc]%zget_Some. pose proof (ok_len _ _ _ Ht). apply lookup_lt_Some in Hc as Hlt. split; [lia|].
  intros e He. by eapply elem_of_concat.
Qed.

(** Every draw selects a bucket of the dictionary. *)
Lemma drawn_ok d x :
  ready ty d -> 0 <= x -> exists c, drawn d x = Some c /\ forall e, e ∈ c -> e ∈ entries d.
Proof.
  intros [[w0 H0] Hr] Hx. unfold drawn, entries. pose proof (ht_ok_pow _ _ _ H0) as Hp0.
  destruct (dictIsRehashing d).
  - destruct (Hr eq_refl) as [w1 H1]. pose proof (ht_ok_pow _ _ _ H1) as Hp1.
    rewrite (ok_size _ _ _ H0), (ok_size _ _ _ H1). unfold wrapu. rewrite (Z.mod_small (2 ^ w0 + 2 ^ w1)) by lia.
    pose proof (Z.mod_pos_bound x (2 ^ w0 + 2 ^ w1) ltac:(lia)). rewrite Z.mod_small by lia.
    destruct (Z.leb_spec (2 ^ w0) (x mod (2 ^ w0 + 2 ^ w1))).
    + destruct (zget_is_Some (table (ht1 d)) (x mod (2 ^ w0 + 2 ^ w1) - 2 ^ w0)) as [c Hc];
        [rewrite (ok_len _ _ _ H1); lia|]. exists c. split; [done|]. intros e He. apply elem_of_app. right.
      by apply (table_bucket w1 _ _ _ H1 Hc).
    + destruct (zget_is_Some (table (ht0 d)) (x mod (2 ^ w0 + 2 ^ w1))) as [c Hc];
        [rewrite (ok_len _ _ _ H0); lia|]. exists c. split; [done|]. intros e He. apply elem_of_app. left.
      by apply (table_bucket w0 _ _ _ H0 Hc).
  - rewrite (ok_mask _ _ _ H0), land_pow2_mask by (pose proof (ok_width _ _ _ H0); lia).
    pose proof (Z.mod_pos_bound x (2 ^ w0) ltac:(lia)). unfold wrapu. rewrite Z.mod_small by lia.
    destruct (zget_is_Some (table (ht0 d)) (x mod 2 ^ w0)) as [c Hc]; [rewrite (ok_len _ _ _ H0); lia|].
    exists c. split; [done|]. intros e He. apply elem_of_app. left. by apply (table_bucket w0 _ _ _ H0 Hc).
Qed.

(** Some draw selects the bucket of a given entry. *)
Lemma drawn_hits d e :
  ready ty d -> (dictIsRehashing d = false -> ht1 d = _dictReset) -> e ∈ entries d ->
  exists x c, 0 <= x < 2 ^ 31 /\ drawn d x = Some c /\ e ∈ c.
Proof.
  intros [[w0 H0] Hr] Hsingle He. unfold drawn, entries in *. pose proof (ht_ok_pow _ _ _ H0) as Hp0.
  assert (Hbucket : forall w t, ht_ok ty w t -> e ∈ concat (table t) ->
    exists i c, 0 <= i < 2 ^ w /\ zget (table t) i = Some c /\ e ∈ c).
  { intros w t Ht (i & c & Hi & Hc)%concat_elem_of. exists (Z.of_nat i), c. apply lookup_lt_Some in Hi as Hlt.
    pose proof (ok_len _ _ _ Ht). split_and!; [lia|lia| |done]. apply zget_Some. by rewrite Nat2Z.id; split; [lia|]. }
  destruct (dictIsRehashing d).
  - destruct (Hr eq_refl) as [w1 H1]. pose proof (ht_ok_pow _ _ _ H1) as Hp1. change (2 ^ 31) with (2 ^ 30 + 2 ^ 30).
    rewrite (ok_size _ _ _ H0), (ok_size _ _ _ H1). unfold wrapu. rewrite (Z.mod_small (2 ^ w0 + 2 ^ w1)) by lia.
    apply elem_of_app in He as [He|He].
    + destruct (Hbucket w0 _ H0 He) as (i & c & Hi & Hc & Hin). exists i, c. split; [lia|].
      rewrite (Z.mod_small i), Z.mod_small by lia. by rewrite (proj2 (Z.leb_gt _ _)) by lia.
    + destruct (Hbucket w1 _ H1 He) as (i & c & Hi & Hc & Hin). exists (2 ^ w0 + i), c. split; [lia|].
      rewrite (Z.mod_small (2 ^ w0 + i)), Z.mod_small by lia. rewrite (proj2 (Z.leb_le _ _)) by lia. by replace (2 ^ w0 + i - 2 ^ w0) with i by lia.
  - rewrite (Hsingle eq_refl), app_nil_r in He. destruct (Hbucket w0 _ H0 He) as (i & c & Hi & Hc & Hin).
    exists i, c. split; [lia|]. rewrite (ok_mask _ _ _ H0), land_pow2_mask by (pose proof (ok_width _ _ _ H0); lia).
    unfold wrapu. by rewrite (Z.mod_small i), Z.mod_small by lia.
Qed.

Lemma random_bucket_spec d rnd n i c :
  ready ty d -> (forall j, 0 <= rnd j) -> drawn d (rnd (n + i)%nat) = Some c -> c <> [] ->
  forall fuel, (n < fuel)%nat ->
  exists j he, random_bucket fuel d rnd i = Some (j, he) /\ he <> [] /\ forall e, e ∈ he -> e ∈ entries d.
Proof.
  intros Hr Hpos Hd Hc. revert i Hd. induction n as [|n IH]; intros i Hd fuel Hf; (destruct fuel as [|fuel]; [lia|]);
    cbn [random_bucket]; fold (drawn d (rnd i)); destruct (drawn_ok d (rnd i) Hr (Hpos i)) as (he & Hhe & Hin); rewrite Hhe;
    cbn [obind]; destruct he as [|e he].
  - cbn [plus] in Hd. rewrite Hhe in Hd. simplify_eq.
  - by exists (S i), (e :: he).
  - apply IH; [|lia]. by rewrite Nat.add_succ_r.
  - by exists (S i), (e :: he).
Qed.

Lemma rehash_step_spec d :
  dict_wf ty canon d -> exists d', (if dictIsRehashing d then _dictRehashStep ty d else Some d) = Some d' /\
    entries d' ≡ₚ entries d /\ dict_wf ty canon d' /\ dict_map canon d' = dict_map canon d.
Proof.
  intros Hwf. destruct (rehash_if_needed_spec ty canon d Hwf) as (d' & Hd & Hp & Hwf' & Hm & _). by exists d'.
Qed.

Lemma wf_single d : dict_wf ty canon d -> dictIsRehashing d = false -> ht1 d = _dictReset.
Proof.
  intros [[Hs|Hr] _ _] Hn; [apply Hs|]. by rewrite (rehash_ok_rehashing ty d Hr) in Hn.
Qed.

(** [dictGetRandomKey] returns an entry of a dictionary that is not
    empty, also in the middle of rehashing, as soon as [random] has drawn
    the number of a bucket that is not empty, which it does some time if every
    number up to 2^31 comes up; the dictionary keeps its bindings.  For an
    empty dictionary it returns NULL. *)
Theorem dictGetRandomKey_returns d (rnd : nat -> Z) :
  dict_wf ty canon d -> (forall i, 0 <= rnd i < 2 ^ 31) -> (forall x, 0 <= x < 2 ^ 31 -> exists i, rnd i = x) ->
  (entries d = [] -> forall fuel, dictGetRandomKey ty fuel d rnd = Some (d, None)) /\
  (entries d <> [] -> exists fuel0, forall fuel, (fuel0 <= fuel)%nat ->
     exists d' e, dictGetRandomKey ty fuel d rnd = Some (d', Some e) /\ e ∈ entries d /\
       dict_wf ty canon d' /\ dict_map canon d' = dict_map canon d).
Proof.
  intros Hwf Hrange Hall. unfold dictGetRandomKey. rewrite dictSize_entries by done. split.
  { intros ->. done. }
  intros Hne. rewrite (proj2 (Z.eqb_neq _ _)) by (destruct (entries d); [done|cbn; lia]).
  destruct (rehash_step_spec d Hwf) as (d' & -> & Hp & Hwf' & Hm). cbn [obind].
  assert (exists e, e ∈ entries d') as [e He].
  { destruct (entries d) as [|e r]; [done|]. exists e. rewrite Hp. left. }
  assert (Hready : ready ty d').
  { apply (wf_ready ty canon); [done|]. intros Hz. by rewrite (reset_entries ty canon d' Hwf' Hz) in He; apply not_elem_of_nil in He. }
  destruct (drawn_hits d' e Hready (wf_single d' Hwf') He) as (x & c & Hx & Hc & Hin).
  destruct (Hall x Hx) as [n Hn]. exists (S n). intros fuel Hfuel.
  destruct (random_bucket_spec d' rnd n 0 c Hready) with (fuel := fuel) as (j & he & -> & Hhe & Hsub).
  - intros i. apply Hrange.
  - by rewrite Nat.add_0_r, Hn.
  - intros ->. by apply not_elem_of_nil in Hin.
  - lia.
  - cbn [obind]. assert (0 < zlen he) by (destruct he; [done|cbn; lia]). pose proof (Hrange j).
    pose proof (Z.rem_bound_pos (rnd j) (zlen he) ltac:(lia) ltac:(lia)).
    destruct (zget_is_Some he (Z.rem (rnd j) (zlen he)) ltac:(lia)) as [e' He']. rewrite He'. cbn.
    exists d', e'. split_and!; [done| |done|done]. rewrite <- Hp. apply Hsub. apply zget_Some in He' as [_ He'].
    by eapply list_elem_of_lookup_2.
Qed.

(** ** Rehashing for a while *)

Lemma rehash_ms_loop_spec fuel d clock i start ms n :
  dict_wf ty canon d -> (dictIsRehashing d = true -> size (ht0 d) - rehashidx d < Z.of_nat fuel) -> (0 < fuel)%nat ->
  exists d' r, rehash_ms_loop ty fuel d clock i start ms n = Some (d', r) /\
    dict_wf ty canon d' /\ dict_map canon d' = dict_map canon d.
Proof.
  revert d i n. induction fuel as [|fuel IH]; intros d i n Hwf Hf Hpos; [lia|]. cbn [rehash_ms_loop]. unfold dictRehash.
  destruct (wf_shape _ _ _ Hwf) as [Hs|Hr].
  { rewrite (single_ok_rehashing ty d Hs). cbn. eauto. }
  rewrite (rehash_ok_rehashing ty d Hr) in *. pose proof (rh_idx _ _ Hr).
  destruct (rehash_loop_spec ty 100 d Hr (wf_bound _ _ _ Hwf)) as (d' & r & Heq & Hp & _ & Hres). rewrite Heq.
  destruct (dict_wf_perm ty canon d d' Hwf Hp) as [Hwf' Hm].
  { destruct Hres as [(_ & ? & _)|(_ & ? & _)]; [by left|by right]. }
  cbn [obind]. destruct Hres as [(-> & _)|(-> & Hr' & Hsz & Hidx)]; [cbn; eauto|]. cbn -[Z.of_nat].
  destruct (ms <? clock i - start); [eauto|]. pose proof (rh_idx _ _ Hr'). specialize (Hf eq_refl).
  destruct (IH d' (S i) (s32 (n + 100)) Hwf') as (d2 & r2 & -> & Hwf2 & Hm2); [intros _; lia|lia|].
  exists d2, r2. by rewrite Hm2.
Qed.

(** [dictRehashMilliseconds] returns whatever the clock shows, and keeps the
    bindings. *)
Lemma dictRehashMilliseconds_spec d clock ms :
  dict_wf ty canon d -> exists d' r, dictRehashMilliseconds ty d clock ms = Some (d', r) /\
    dict_wf ty canon d' /\ dict_map canon d' = dict_map canon d.
Proof.
  intros Hwf. apply rehash_ms_loop_spec; [done| |lia]. intros Hre.
  destruct (wf_shape _ _ _ Hwf) as [Hs|Hr]; [by rewrite (single_ok_rehashing ty d Hs) in Hre|].
  pose proof (rh_idx _ _ Hr). lia.
Qed.

(** ** Emptying *)

Lemma clear_loop_all (bs : list (list (dictEntry K V))) :
  zlen (concat bs) < 2 ^ 64 -> clear_loop bs (zlen (concat bs)) = concat bs.
Proof.
  induction bs as [|he bs IH]; intros Hb; [done|]. cbn [clear_loop concat] in *. rewrite length_app in *.
  destruct (Z.ltb_spec 0 (zlen he + zlen (concat bs))).
  - replace (Z.of_nat (length he + length (concat bs))) with (zlen he + zlen (concat bs)) by lia.
    rewrite (proj2 (Z.ltb_lt _ _)) by lia. f_equal. unfold wrapu.
    replace (zlen he + zlen (concat bs) - zlen he) with (zlen (concat bs)) by lia. rewrite Z.mod_small by lia. apply IH. lia.
  - destruct he; [|cbn in *; lia]. cbn in *. destruct (concat bs); [done|cbn in *; lia].
Qed.

(** [dictEmpty] frees every entry exactly once and leaves the empty
    dictionary. *)
Lemma dictEmpty_spec d :
  dict_wf ty canon d -> dictEmpty d = (dictCreate, entries d) /\ dictRelease d = entries d.
Proof.
  intros Hwf. unfold dictEmpty, dictRelease, entries, _dictClear. cbn [fst snd].
  assert (Hone : forall t, (t = _dictReset \/ exists w, ht_ok ty w t) -> zlen (concat (table t)) <= 2 ^ 32 ->
    clear_loop (take (Z.to_nat (size t)) (table t)) (used t) = concat (table t)).
  { intros t [->|[w Ht]] Hb; [done|]. rewrite (ok_used _ _ _ Ht), take_ge; [apply clear_loop_all; lia|].
    pose proof (ok_len _ _ _ Ht). rewrite (ok_size _ _ _ Ht). lia. }
  pose proof (wf_bound _ _ _ Hwf) as Hb. unfold entries in Hb. rewrite length_app in Hb.
  rewrite !Hone; [done| |lia| |lia]; destruct (wf_shape _ _ _ Hwf) as [Hs|Hr].
  - left. apply Hs.
  - right. apply Hr.
  - apply Hs.
  - right. apply Hr.
Qed.

End Complete.
(** ** A dictionary at work *)

Module Demo.

(** Keys are numbers and their own hash. *)
Definition zty : dictType Z nat := DictType (fun k => k mod 2 ^ 32) None None None.

#[export] Instance zty_ok : DictTypeOk zty (fun k : Z => k).
Proof.
  split.
  - intros k. apply Z.mod_pos_bound. lia.
  - by intros ?? ->.
  - intros k1 k2. unfold dictCompareKeys. cbn. apply bool_decide_eq_true.
  - done.
Qed.

Definition state (ops : list (@dict_op Z nat)) : dict Z nat :=
  match exec_ops zty true dictCreate ops with Some (d, _) => d | None => dictCreate end.

Lemma state_wf ops : zlen ops < 2 ^ 29 -> dict_wf zty (fun k : Z => k) (state ops).
Proof.
  intros Hl. destruct (dict_wf_create zty (fun k : Z => k)) as [Hwf Hm].
  destruct (exec_ops_sim zty (fun k : Z => k) true ops dictCreate ∅) as (d & Hd & Hr & _).
  { split; [done|]. by rewrite Hm, fmap_empty. }
  { rewrite map_size_empty. lia. }
  unfold state. rewrite Hd. apply Hr.
Qed.

Definition adds (n : nat) : list (@dict_op Z nat) := (fun k => OpAdd (Z.of_nat k) k) <$> seq 0 n.

(** A table of four buckets that grows to eight during the scan. *)
Definition small : dict Z nat := Eval vm_compute in state (adds 4).
Definition growing : dict Z nat := Eval vm_compute in state (adds 5).
Definition grown : dict Z nat := Eval vm_compute in state (adds 5 ++ [OpRehash 10]).

Definition demo_states : list (dict Z nat) := [small; growing; growing; grown; grown; grown; grown; grown].

Lemma demo_states_wf : Forall (fun d => dict_wf zty (fun k : Z => k) d /\ size (ht0 d) <= 2 ^ 3) demo_states.
Proof.
  assert (dict_wf zty (fun k : Z => k) small) by exact (state_wf (adds 4) eq_refl).
  assert (dict_wf zty (fun k : Z => k) growing) by exact (state_wf (adds 5) eq_refl).
  assert (dict_wf zty (fun k : Z => k) grown) by exact (state_wf (adds 5 ++ [OpRehash 10]) eq_refl).
  repeat (apply List.Forall_cons; [split; [done|by vm_compute]|]). apply List.Forall_nil.
Qed.

Lemma demo_fine : all_fine 0 demo_states.
Proof.
  apply all_fineb_ok. vm_compute. reflexivity.
Qed.

Definition scan_keys (r : option (Z * list (dictEntry Z nat))) : option (Z * list Z) :=
  match r with Some (v, es) => Some (v, map key es) | None => None end.

(** The new key 4 came after its bucket had been passed. *)
Lemma demo_scan : scan_keys (scan_run 0 demo_states) = Some (0, [0; 2; 1; 3]).
Proof. vm_compute. reflexivity. Qed.

Lemma dictScan_complete_witness :
  exists v es, scan_run 0 demo_states = Some (v, es) /\
    (2 ^ 3 <= zlen demo_states -> v = 0) /\
    (forall e, e ∈ es -> exists d, d ∈ demo_states /\ e ∈ entries d) /\
    (v = 0 -> forall k, (forall d, d ∈ demo_states -> exists e, e ∈ entries d /\ key e = k) ->
       exists e, e ∈ es /\ key e = k).
Proof.
  apply (dictScan_complete zty (fun k : Z => k) 3 demo_states); [lia|done|exact demo_states_wf|exact demo_fine].
Defined.

Lemma dictGetRandomKey_returns_witness :
  exists fuel0, forall fuel, (fuel0 <= fuel)%nat ->
    exists d' e, dictGetRandomKey zty fuel growing (fun i => Z.of_nat i mod 2 ^ 31) = Some (d', Some e) /\
      e ∈ entries growing /\ dict_wf zty (fun k : Z => k) d' /\
      dict_map (fun k : Z => k) d' = dict_map (fun k : Z => k) growing.
Proof.
  refine (proj2 (dictGetRandomKey_returns zty (fun k : Z => k) growing (fun i => Z.of_nat i mod 2 ^ 31) _ _ _) _).
  - exact (state_wf (adds 5) eq_refl).
  - intros i. apply Z.mod_pos_bound. lia.
  - intros x Hx. exists (Z.to_nat x). rewrite Z2Nat.id by lia. by apply Z.mod_small.
  - done.
Defined.

(** ** A scan that misses an entry

    A table of 64 buckets with the keys 0 and 8 shrinks to four buckets after
    the first call.  The cursor is then in the middle of the expansions of
    bucket 0, and the loop goes through them in the order of their numbers
    and not in that of the scan: bucket 8 is skipped. *)
Definition sparse : list (@dict_op Z nat) :=
  adds 33 ++ [OpRehash 100] ++ (OpDelete <$> filter (fun k => k <> 0 /\ k <> 8) (Z.of_nat <$> seq 0 33)).

Definition large : dict Z nat := Eval vm_compute in state sparse.
Definition shrinking : dict Z nat := Eval vm_compute in state (sparse ++ [OpResize]).

Lemma shrinking_scan_misses :
  (size (ht0 large), size (ht0 shrinking), size (ht1 shrinking)) = (64, 64, 4) /\
  map key (entries large) = [0; 8] /\ map key (entries shrinking) = [0; 8] /\
  scan_keys (scan_run 0 [large; shrinking; shrinking; shrinking; shrinking]) = Some (0, [0]).
Proof. split_and!; vm_compute; reflexivity. Qed.

End Demo.
End DictScan.
