(* ===== verification/Reply.v ===== *)
(** * networking.c: the output buffers of a client

    A reply is first copied into a fixed static buffer; once an object has
    been queued on the reply list, later data goes to the list.  The write
    handler drains the buffer and then the list, remembering in [sentlen] how
    much of the current object is already on the wire. *)

From S2P Require Import Prelude.

Module Output.

Definition REDIS_REPLY_CHUNK_BYTES : Z := 16 * 1024.
Definition REDIS_MAX_WRITE_PER_EVENT : Z := 1024 * 64.
Definition REDIS_MASTER : Z := 1 ≪ 1.
Definition REDIS_CLOSE_AFTER_REPLY : Z := 1 ≪ 6.
Definition REDIS_LUA_CLIENT : Z := 1 ≪ 8.
Definition REDIS_MASTER_FORCE_REPLY : Z := 1 ≪ 13.
Definition REDIS_REPL_NONE : Z := 0.
Definition REDIS_REPL_ONLINE : Z := 9.

(** The fields of [redisClient] the output path uses.  [buf] holds the
    [bufpos] bytes in use of the static buffer. *)
Record outbuf := OutBuf {
  fd : Z;
  flags : Z;
  replstate : Z;
  buf : list Z;
  reply : list (list Z);
  sentlen : Z
}.

Definition set_buf (c : outbuf) (b : list Z) : outbuf :=
  OutBuf (fd c) (flags c) (replstate c) b (reply c) (sentlen c).
Definition set_reply (c : outbuf) (r : list (list Z)) : outbuf :=
  OutBuf (fd c) (flags c) (replstate c) (buf c) r (sentlen c).
Definition set_sentlen (c : outbuf) (n : Z) : outbuf :=
  OutBuf (fd c) (flags c) (replstate c) (buf c) (reply c) n.

Definition has_flag (c : outbuf) (f : Z) : bool := negb (flags c &. f =? 0).

Section Output.

(** Whether the event loop accepts a write handler for a descriptor. *)
Context (aeCreateFileEvent : Z -> bool).

(** [true] for [REDIS_OK]. *)
Definition prepareClientToWrite (c : outbuf) : bool :=
  if has_flag c REDIS_LUA_CLIENT then true
  else if has_flag c REDIS_MASTER && negb (has_flag c REDIS_MASTER_FORCE_REPLY) then false
  else if fd c <=? 0 then false
  else if bool_decide (buf c = []) && bool_decide (reply c = []) &&
          ((replstate c =? REDIS_REPL_NONE) || (replstate c =? REDIS_REPL_ONLINE)) &&
          negb (aeCreateFileEvent (fd c))
  then false
  else true.

(** [None] for [REDIS_ERR]: the caller then queues on the list. *)
Definition _addReplyToBuffer (c : outbuf) (s : list Z) : option outbuf :=
  let available := REDIS_REPLY_CHUNK_BYTES - zlen (buf c) in
  if has_flag c REDIS_CLOSE_AFTER_REPLY then Some c
  else if bool_decide (reply c <> []) then None
  else if available <? zlen s then None
  else Some (set_buf c (buf c ++ s)).

(** Append to the last object when the result stays within a chunk, or
    queue a new object. *)
Definition append_tail (r : list (list Z)) (s : list Z) : list (list Z) :=
  match last r with
  | None => [s]
  | Some tail =>
      if zlen tail + zlen s <=? REDIS_REPLY_CHUNK_BYTES
      then removelast r ++ [tail ++ s]
      else r ++ [s]
  end.

Definition _addReplyStringToList (c : outbuf) (s : list Z) : outbuf :=
  if has_flag c REDIS_CLOSE_AFTER_REPLY then c
  else set_reply c (append_tail (reply c) s).

(** [_addReplyObjectToList] and [_addReplySdsToList] differ from the
    previous function only in who owns the memory of the string. *)
Definition _addReplySdsToList := _addReplyStringToList.
Definition _addReplyObjectToList := _addReplyStringToList.

Definition addReplyString (c : outbuf) (s : list Z) : outbuf :=
  if negb (prepareClientToWrite c) then c
  else match _addReplyToBuffer c s with
       | Some c => c
       | None => _addReplyStringToList c s
       end.

Definition addReplySds (c : outbuf) (s : list Z) : outbuf :=
  if negb (prepareClientToWrite c) then c
  else match _addReplyToBuffer c s with
       | Some c => c
       | None => _addReplySdsToList c s
       end.

Definition addReplyErrorLength (c : outbuf) (s : list Z) : outbuf :=
  let c := addReplyString c (bytes_of_string "-ERR ") in
  let c := addReplyString c s in
  addReplyString c [13; 10].

Definition addReplyError (c : outbuf) (err : list Z) : outbuf :=
  addReplyErrorLength c (cstr err).

Definition addReplyStatusLength (c : outbuf) (s : list Z) : outbuf :=
  let c := addReplyString c (bytes_of_string "+") in
  let c := addReplyString c s in
  addReplyString c [13; 10].

Definition addReplyStatus (c : outbuf) (status : list Z) : outbuf :=
  addReplyStatusLength c (cstr status).

End Output.

(** ** The write handler *)

(** What [write(2)] reported; it never writes more than it was asked to. *)
Inductive write_res := Wrote (n : Z) | WriteAgain | WriteError.

(** What happens to the client when the handler returns. *)
Inductive send_end := SendMore | SendDrained | SendFree.

(** Leading empty objects are unlinked before anything is written. *)
Fixpoint drop_empty (r : list (list Z)) : list (list Z) :=
  match r with
  | [] :: r => drop_empty r
  | _ => r
  end.

(** Account for [n] bytes of the current object [o] having been written:
    the new [sentlen] and whether the object is finished. *)
Definition advance (o : list Z) (sent n : Z) : Z * bool :=
  let sent := sent + n in
  if sent =? zlen o then (0, true) else (sent, false).

Section Send.

(** [server.maxmemory == 0 || zmalloc_used_memory() < server.maxmemory] *)
Context (under_maxmemory : bool).

(** The loop of [sendReplyToClient], driven by the results of the successive
    [write] calls: the client, the bytes put on the wire, and whether the
    last call failed hard. *)
Fixpoint send_loop (ws : list write_res) (c : outbuf) (tot : Z)
  : outbuf * list Z * bool :=
  let c := if bool_decide (buf c = []) then set_reply c (drop_empty (reply c)) else c in
  if bool_decide (buf c = []) && bool_decide (reply c = []) then (c, [], false)
  else
    let o := if bool_decide (buf c = []) then hd [] (reply c) else buf c in
    match ws with
    | [] | WriteAgain :: _ => (c, [], false)
    | WriteError :: _ => (c, [], true)
    | Wrote n :: ws =>
        let n := Z.min n (zlen o - sentlen c) in
        if n <=? 0 then (c, [], false)
        else
          let out := take (Z.to_nat n) (drop (Z.to_nat (sentlen c)) o) in
          let (sent, finished) := advance o (sentlen c) n in
          let c1 := if finished then
                      if bool_decide (buf c = []) then set_reply c (tail (reply c))
                      else set_buf c []
                    else c in
          let c1 := set_sentlen c1 sent in
          let tot := tot + n in
          if (REDIS_MAX_WRITE_PER_EVENT <? tot) && under_maxmemory then (c1, out, false)
          else
            let '(c2, out2, err) := send_loop ws c1 tot in
            (c2, out ++ out2, err)
    end.

Definition sendReplyToClient (ws : list write_res) (c : outbuf)
  : outbuf * list Z * send_end :=
  let '(c, out, err) := send_loop ws c 0 in
  if err then (c, out, SendFree)
  else if bool_decide (buf c = []) && bool_decide (reply c = []) then
    (set_sentlen c 0, out,
     if has_flag c REDIS_CLOSE_AFTER_REPLY then SendFree else SendDrained)
  else (c, out, SendMore).

End Send.

(** ** Correctness *)

(** The bytes still to be sent. *)
Definition pending (c : outbuf) : list Z :=
  drop (Z.to_nat (sentlen c)) (buf c ++ concat (reply c)).

(** [sentlen] lies within the object being sent. *)
Definition out_ok (c : outbuf) : Prop :=
  0 <= sentlen c /\
  match buf c with
  | [] => match reply c with
          | [] => sentlen c = 0
          | o :: _ => sentlen c < zlen o \/ sentlen c = 0
          end
  | b => sentlen c < zlen b
  end /\ zlen (buf c) <= REDIS_REPLY_CHUNK_BYTES.

(** A connected client that is not closing. *)
Definition out_open (ae : Z -> bool) (c : outbuf) : Prop :=
  prepareClientToWrite ae c = true /\ has_flag c REDIS_CLOSE_AFTER_REPLY = false.

Lemma concat_append_tail r s : concat (append_tail r s) = concat r ++ s.
Proof.
  unfold append_tail. destruct r as [|x r] using rev_ind; [simpl; by rewrite app_nil_r|].
  rewrite last_snoc. destruct (_ <=? _).
  - rewrite removelast_last, !concat_app. simpl. by rewrite !app_nil_r, app_assoc.
  - rewrite !concat_app. simpl. by rewrite !app_nil_r.
Qed.

Lemma drop_append_le (n : nat) (a b : list Z) :
  (n <= length a)%nat -> drop n (a ++ b) = drop n a ++ b.
Proof. intros. by rewrite drop_app_le. Qed.

Lemma out_ok_len c : out_ok c -> sentlen c <= zlen (buf c ++ concat (reply c)).
Proof.
  intros (H0 & H1 & _). rewrite length_app.
  destruct (buf c); [destruct (reply c) as [|o r]|]; simpl in *; try rewrite length_app; lia.
Qed.

Lemma append_tail_head r s o :
  hd_error r = Some o -> exists o', hd_error (append_tail r s) = Some o' /\ zlen o <= zlen o'.
Proof.
  intros Ho. unfold append_tail. destruct r as [|x r] using rev_ind; [done|]. clear IHr.
  rewrite last_snoc. destruct (_ <=? _).
  - rewrite removelast_last. destruct r as [|y r]; simpl in *; simplify_eq.
    + eexists. split; [done|]. rewrite length_app. lia.
    + by eexists.
  - destruct r as [|y r]; simpl in *; simplify_eq; by eexists.
Qed.

Lemma addReplyString_ok ae c s :
  out_ok c -> out_ok (addReplyString ae c s).
Proof.
  intros Hok. unfold addReplyString, _addReplyToBuffer, _addReplyStringToList.
  destruct (prepareClientToWrite ae c); simpl; [|done].
  destruct (has_flag c REDIS_CLOSE_AFTER_REPLY) eqn:Hcl; [done|].
  destruct Hok as (H0 & H1 & H2).
  assert (forall r, reply c <> [] -> r = append_tail (reply c) s ->
            out_ok (set_reply c r)) as Hlist.
  { intros r Hne ->. split; [done|]. split; [|done]. simpl. destruct (buf c); [|done].
    destruct (reply c) as [|o r0] eqn:Er; [done|].
    destruct (append_tail_head (o :: r0) s o eq_refl) as (o' & Ho' & Hle).
    destruct (append_tail (o :: r0) s); [done|]. simpl in Ho'. simplify_eq. lia. }
  case_bool_decide as Hr; [by apply Hlist|].
  rename Hr into Hnil.
  destruct (Z.ltb_spec (REDIS_REPLY_CHUNK_BYTES - zlen (buf c)) (zlen s)).
  - split; [done|]. split; [|done]. simpl. rewrite Hnil in *. simpl.
    destruct (buf c); [lia|done].
  - split; [done|]. simpl. rewrite Hnil in *. rewrite length_app.
    destruct (buf c) as [|b bs]; simpl in *; [|rewrite length_app; lia].
    destruct s; simpl in *; lia.
Qed.

(** Queued data is appended to what is already pending. *)
Lemma addReplyString_pending ae c s :
  out_ok c -> out_open ae c ->
  pending (addReplyString ae c s) = pending c ++ s.
Proof.
  intros Hok [Hp Hc]. unfold addReplyString. rewrite Hp. simpl.
  pose proof (out_ok_len c Hok) as Hlen. unfold pending.
  unfold _addReplyToBuffer, _addReplyStringToList. rewrite Hc.
  destruct Hok as (H0 & _). case_bool_decide as Hr.
  { simpl. rewrite concat_append_tail, app_assoc, drop_append_le by lia. done. }
  rename Hr into Hnil.
  destruct (_ <? _); simpl; rewrite Hnil in *; simpl in *; rewrite ?app_nil_r in *;
    by rewrite drop_append_le by lia.
Qed.

Lemma concat_drop_empty r : concat (drop_empty r) = concat r.
Proof. induction r as [|[|x o] r IH]; simpl; auto. Qed.

Lemma drop_empty_head r : match drop_empty r with [] :: _ => False | _ => True end.
Proof. induction r as [|[|x o] r IH]; simpl; auto. Qed.

(** The client after the leading empty objects are unlinked. *)
Definition skip (c : outbuf) : outbuf :=
  if bool_decide (buf c = []) then set_reply c (drop_empty (reply c)) else c.

Lemma skip_spec c :
  out_ok c ->
  out_ok (skip c) /\ pending (skip c) = pending c /\
  fd (skip c) = fd c /\ flags (skip c) = flags c /\ replstate (skip c) = replstate c /\
  (buf (skip c) = [] -> reply (skip c) <> [] ->
   exists x o r, reply (skip c) = (x :: o) :: r /\ sentlen (skip c) < zlen (x :: o)).
Proof.
  intros (H0 & H1 & H2). unfold skip. case_bool_decide as Hb; [|done].
  unfold out_ok, pending. simpl. rewrite Hb in *. simpl. rewrite concat_drop_empty.
  pose proof (drop_empty_head (reply c)) as Hh.
  assert (match drop_empty (reply c) with
          | [] => sentlen c = 0
          | o :: _ => sentlen c < zlen o \/ sentlen c = 0
          end) as H1'.
  { destruct (reply c) as [|[|y o] r]; simpl in *; [done| |done].
    assert (sentlen c = 0) as -> by lia. destruct (drop_empty r); auto. }
  split_and!; [done..|]. intros _ Hne.
  destruct (drop_empty (reply c)) as [|[|x o] r]; [done..|].
  exists x, o, r. split; [done|]. simpl in *. lia.
Qed.

(** One successful [write] of [n] bytes of the current object. *)
Definition wrote (c : outbuf) (n : Z) : outbuf :=
  let o := if bool_decide (buf c = []) then hd [] (reply c) else buf c in
  let (sent, finished) := advance o (sentlen c) n in
  let c1 := if finished then
              if bool_decide (buf c = []) then set_reply c (tail (reply c))
              else set_buf c []
            else c in
  set_sentlen c1 sent.

Definition cur (c : outbuf) : list Z := if bool_decide (buf c = []) then hd [] (reply c) else buf c.

Lemma wrote_spec c n :
  out_ok c -> sentlen c < zlen (cur c) -> 0 < n <= zlen (cur c) - sentlen c ->
  out_ok (wrote c n) /\
  pending c = take (Z.to_nat n) (drop (Z.to_nat (sentlen c)) (cur c)) ++ pending (wrote c n) /\
  fd (wrote c n) = fd c /\ flags (wrote c n) = flags c /\ replstate (wrote c n) = replstate c.
Proof.
  intros (H0 & H1 & H2) Hs Hn. unfold wrote. fold (cur c). unfold advance.
  assert (exists rest, buf c ++ concat (reply c) = cur c ++ rest /\
            rest = concat (if bool_decide (buf c = []) then tail (reply c) else reply c))
    as (rest & Hall & Hrest).
  { unfold cur. case_bool_decide as Hb; [rewrite Hb|]; eexists; (split; [|done]); [|done].
    by destruct (reply c). }
  assert (pending c = drop (Z.to_nat (sentlen c)) (cur c) ++ rest) as Hp.
  { unfold pending. by rewrite Hall, drop_append_le by lia. }
  rewrite Hp. rewrite <- (take_drop (Z.to_nat n) (drop _ (cur c))) at 1.
  rewrite drop_drop, <- app_assoc.
  replace (Z.to_nat (sentlen c) + Z.to_nat n)%nat with (Z.to_nat (sentlen c + n)) by lia.
  destruct (Z.eqb_spec (sentlen c + n) (zlen (cur c))) as [He|He].
  - rewrite (drop_ge (cur c) (Z.to_nat (sentlen c + n))) by lia. simpl. rewrite Hrest.
    unfold out_ok, pending. case_bool_decide as Hb; simpl.
    + rewrite Hb in *. split_and!; try done. destruct (tail (reply c)); auto.
    + split_and!; try done. destruct (reply c); auto.
  - unfold out_ok, pending. simpl. rewrite Hall, drop_append_le by lia.
    split_and!; try done; [lia|]. unfold cur in *. case_bool_decide as Hb.
    + rewrite Hb in *. destruct (reply c); simpl in *; lia.
    + destruct (buf c); [done|simpl in *; lia].
Qed.

Lemma cur_bound c : out_ok c -> buf c <> [] -> sentlen c < zlen (cur c).
Proof.
  intros (_ & H1 & _) Hb. unfold cur. rewrite bool_decide_eq_false_2 by done.
  by destruct (buf c).
Qed.

(** The loop, one step at a time. *)
Lemma send_loop_step um ws c tot :
  send_loop um ws c tot =
    let c := skip c in
    if bool_decide (buf c = []) && bool_decide (reply c = []) then (c, [], false)
    else match ws with
         | [] | WriteAgain :: _ => (c, [], false)
         | WriteError :: _ => (c, [], true)
         | Wrote n :: ws =>
             let n := Z.min n (zlen (cur c) - sentlen c) in
             if n <=? 0 then (c, [], false)
             else
               let out := take (Z.to_nat n) (drop (Z.to_nat (sentlen c)) (cur c)) in
               if (REDIS_MAX_WRITE_PER_EVENT <? tot + n) && um then (wrote c n, out, false)
               else let '(c2, out2, err) := send_loop um ws (wrote c n) (tot + n) in
                    (c2, out ++ out2, err)
         end.
Proof.
  destruct ws as [|[n| |] ws]; cbn [send_loop]; fold (skip c); try done.
  destruct (_ && _); [done|]. fold (cur (skip c)). cbv zeta.
  destruct (Z.min n (zlen (cur (skip c)) - sentlen (skip c)) <=? 0); [done|].
  unfold wrote. fold (cur (skip c)). by destruct (advance _ _ _) as [sent [|]].
Qed.

Lemma skip_cur c :
  out_ok c -> bool_decide (buf (skip c) = []) && bool_decide (reply (skip c) = []) = false ->
  sentlen (skip c) < zlen (cur (skip c)).
Proof.
  intros Hok He. destruct (skip_spec c Hok) as (Hok' & _ & _ & _ & _ & Hh).
  destruct (decide (buf (skip c) = [])) as [Hb|Hb]; [|by apply cur_bound].
  rewrite bool_decide_eq_true_2 in He by done. apply bool_decide_eq_false in He.
  destruct (Hh Hb He) as (x & o & r & Hr & Hlt). unfold cur.
  by rewrite bool_decide_eq_true_2, Hr by done.
Qed.

Lemma send_loop_spec um ws c tot :
  out_ok c ->
  let '(c', out, err) := send_loop um ws c tot in
  out_ok c' /\ pending c = out ++ pending c' /\
  fd c' = fd c /\ flags c' = flags c /\ replstate c' = replstate c.
Proof.
  revert c tot. induction ws as [|w ws IH]; intros c tot Hok; rewrite send_loop_step;
    destruct (skip_spec c Hok) as (Hok1 & Hp1 & Hf1 & Hg1 & Hr1 & _); cbv zeta;
    destruct (bool_decide (buf (skip c) = []) && _) eqn:He; try done.
  destruct w as [n| |]; [|done..].
  destruct (Z.leb_spec (Z.min n (zlen (cur (skip c)) - sentlen (skip c))) 0) as [Hn|Hn]; [done|].
  destruct (wrote_spec (skip c) (Z.min n (zlen (cur (skip c)) - sentlen (skip c))) Hok1)
    as (Hok2 & Hp2 & Hf2 & Hg2 & Hr2); [by apply skip_cur|lia|].
  rewrite <- Hp1, <- Hf1, <- Hg1, <- Hr1, <- Hf2, <- Hg2, <- Hr2.
  destruct ((REDIS_MAX_WRITE_PER_EVENT <? _) && um); [done|].
  specialize (IH (wrote (skip c) (Z.min n (zlen (cur (skip c)) - sentlen (skip c))))
                 (tot + Z.min n (zlen (cur (skip c)) - sentlen (skip c))) Hok2).
  destruct (send_loop _ _ _ _) as [[c2 out2] err]. destruct IH as (? & Hp & ? & ? & ?).
  cbv beta iota. split_and!; [done| |done..]. by rewrite Hp2, Hp, app_assoc.
Qed.

(** With enough successful writes, and below the per-event cap, the handler
    empties the queue. *)
Lemma send_loop_drains um ws c tot :
  out_ok c -> Forall (fun w => exists n, w = Wrote n /\ 0 < n) ws ->
  (length (pending c) <= length ws)%nat ->
  tot + zlen (pending c) <= REDIS_MAX_WRITE_PER_EVENT ->
  let '(c', out, err) := send_loop um ws c tot in
  buf c' = [] /\ reply c' = [] /\ err = false /\ out = pending c.
Proof.
  revert c tot. induction ws as [|w ws IH]; intros c tot Hok Hall Hlen Htot;
    rewrite send_loop_step; destruct (skip_spec c Hok) as (Hok1 & Hp1 & _); cbv zeta;
    destruct (bool_decide (buf (skip c) = []) && _) eqn:He.
  1, 3: apply andb_true_iff in He as [Hb%bool_decide_eq_true Hr%bool_decide_eq_true];
    rewrite <- Hp1; unfold pending; rewrite Hb, Hr; simpl; by rewrite drop_nil.
  - pose proof (skip_cur c Hok He) as Hc. rewrite <- Hp1 in Hlen. exfalso.
    destruct (wrote_spec (skip c) (zlen (cur (skip c)) - sentlen (skip c)) Hok1)
      as (_ & Hp2 & _); [done|lia|]. rewrite Hp2, length_app, length_take, length_drop in Hlen.
    destruct Hok1 as (? & _). simpl in Hlen. lia.
  - apply Forall_cons in Hall as [(n & -> & Hn) Hall]. pose proof (skip_cur c Hok He) as Hc.
    set (k := Z.min n (zlen (cur (skip c)) - sentlen (skip c))).
    rewrite (proj2 (Z.leb_gt k 0)) by lia.
    destruct (wrote_spec (skip c) k Hok1) as (Hok2 & Hp2 & _); [done|lia|].
    rewrite <- Hp1 in *. pose proof Hok1 as (? & _).
    assert (Hsplit : length (pending (skip c)) = (Z.to_nat k + length (pending (wrote (skip c) k)))%nat)
      by (rewrite Hp2, length_app, length_take, length_drop; lia).
    rewrite (proj2 (Z.ltb_ge REDIS_MAX_WRITE_PER_EVENT (tot + k))) by lia. simpl.
    specialize (IH (wrote (skip c) k) (tot + k) Hok2 Hall ltac:(simpl in Hlen; lia) ltac:(lia)).
    destruct (send_loop _ _ _ _) as [[c2 out2] err]. destruct IH as (? & ? & ? & ->).
    split_and!; [done..|]. by rewrite Hp2.
Qed.

(** ** Streams *)

(** What happens to a connected client: a reply is queued, or the socket
    becomes writable and the successive writes return [ws]. *)
Inductive out_event := Queue (s : list Z) | Writable (ws : list write_res).

(** A plain client: connected, with no replication or closing flags. *)
Definition plain (ae : Z -> bool) (c : outbuf) : Prop :=
  0 < fd c /\ flags c = 0 /\ ae (fd c) = true.

(** The client and the bytes on the wire after a sequence of events. *)
Fixpoint run_events (ae : Z -> bool) (um : bool) (es : list out_event) (c : outbuf)
  : outbuf * list Z :=
  match es with
  | [] => (c, [])
  | Queue s :: es => run_events ae um es (addReplyString ae c s)
  | Writable ws :: es =>
      let '(c, out, _) := sendReplyToClient um ws c in
      let '(c, outs) := run_events ae um es c in
      (c, out ++ outs)
  end.

Fixpoint queued (es : list out_event) : list Z :=
  match es with
  | [] => []
  | Queue s :: es => s ++ queued es
  | Writable _ :: es => queued es
  end.

Lemma plain_open ae c : plain ae c -> out_open ae c.
Proof.
  intros (Hf & Hg & Ha). unfold out_open, prepareClientToWrite, has_flag. rewrite Hg. simpl.
  rewrite (proj2 (Z.leb_gt _ _)) by lia. rewrite Ha. simpl. by rewrite andb_false_r.
Qed.

Lemma addReplyString_fields ae c s :
  fd (addReplyString ae c s) = fd c /\ flags (addReplyString ae c s) = flags c.
Proof.
  unfold addReplyString, _addReplyToBuffer, _addReplyStringToList.
  repeat case_match; simplify_eq; done.
Qed.

Lemma sendReplyToClient_spec um ws c :
  out_ok c ->
  let '(c', out, _) := sendReplyToClient um ws c in
  out_ok c' /\ pending c = out ++ pending c' /\ fd c' = fd c /\ flags c' = flags c.
Proof.
  intros Hok. unfold sendReplyToClient. pose proof (send_loop_spec um ws c 0 Hok) as H.
  destruct (send_loop um ws c 0) as [[c1 out] err]. destruct H as (Hok1 & Hp & Hf & Hg & _).
  destruct err; [done|]. destruct (_ && _) eqn:He; [|done].
  apply andb_true_iff in He as [Hb%bool_decide_eq_true Hr%bool_decide_eq_true].
  unfold out_ok, pending in *. simpl. rewrite Hb, Hr in *. simpl.
  simpl in Hp. rewrite drop_nil in Hp. done.
Qed.

Lemma run_events_spec ae um es c :
  out_ok c -> plain ae c ->
  let '(c', wire) := run_events ae um es c in
  out_ok c' /\ wire ++ pending c' = pending c ++ queued es.
Proof.
  revert c. induction es as [|[s|ws] es IH]; intros c Hok Hpl; simpl.
  - by rewrite app_nil_r.
  - destruct (addReplyString_fields ae c s) as [Hf Hg].
    specialize (IH (addReplyString ae c s) (addReplyString_ok ae c s Hok)).
    destruct (run_events ae um es (addReplyString ae c s)) as [c' wire].
    rewrite (addReplyString_pending ae c s Hok (plain_open ae c Hpl)), <- app_assoc in IH.
    apply IH. unfold plain. by rewrite Hf, Hg.
  - pose proof (sendReplyToClient_spec um ws c Hok) as Hs.
    destruct (sendReplyToClient um ws c) as [[c1 out] e]. destruct Hs as (Hok1 & Hp & Hf & Hg).
    specialize (IH c1 Hok1). destruct (run_events ae um es c1) as [c' wire].
    destruct IH as [Hok' Hw]; [unfold plain; by rewrite Hf, Hg|].
    split; [done|]. by rewrite <- app_assoc, Hw, Hp, app_assoc.
Qed.

Definition new_outbuf (fd0 : Z) : outbuf := OutBuf fd0 0 REDIS_REPL_NONE [] [] 0.

(** C13: the output path delivers replies in order.  For a plain client and
    any interleaving of replies being queued and of write events, whatever
    the partial writes, retries and chunk boundaries, the bytes on the wire
    followed by the bytes still pending are exactly the queued replies in
    order: nothing is lost, duplicated or reordered. *)
Theorem replies_in_order ae um es fd0 :
  0 < fd0 -> ae fd0 = true ->
  let '(c, wire) := run_events ae um es (new_outbuf fd0) in
  wire ++ pending c = queued es.
Proof.
  intros Hfd Hae.
  pose proof (run_events_spec ae um es (new_outbuf fd0)) as H.
  destruct (run_events _ _ _ _) as [c wire]. apply H; [|done].
  split; [simpl; lia|]. split; [done|]. unfold REDIS_REPLY_CHUNK_BYTES. simpl. lia.
Qed.

Lemma replies_in_order_witness :
  let es := [Queue (bytes_of_string "login ok"); Writable [Wrote 3; Wrote 2; WriteAgain];
             Queue (bytes_of_string "!"); Writable [Wrote 100; Wrote 100]] in
  let '(c, wire) := run_events (fun _ => true) true es (new_outbuf 7) in
  wire ++ pending c = queued es.
Proof. intros es. exact (replies_in_order (fun _ => true) true es 7 eq_refl eq_refl). Defined.

(** The write handler makes progress.  When every write accepts at least
    one byte and no more than 64 KiB are pending, one event with as many
    writes as pending bytes sends everything and reports the queue drained. *)
Theorem sendReplyToClient_drains um ws c :
  out_ok c -> has_flag c REDIS_CLOSE_AFTER_REPLY = false ->
  Forall (fun w => exists n, w = Wrote n /\ 0 < n) ws ->
  (length (pending c) <= length ws)%nat -> zlen (pending c) <= REDIS_MAX_WRITE_PER_EVENT ->
  exists c', sendReplyToClient um ws c = (c', pending c, SendDrained) /\ pending c' = [].
Proof.
  intros Hok Hcl Hall Hlen Htot. unfold sendReplyToClient.
  pose proof (send_loop_drains um ws c 0 Hok Hall Hlen Htot) as Hd.
  pose proof (send_loop_spec um ws c 0 Hok) as Hs.
  destruct (send_loop um ws c 0) as [[c1 out] err]. destruct Hd as (Hb & Hr & -> & ->).
  destruct Hs as (_ & _ & _ & Hg & _). rewrite !bool_decide_eq_true_2 by done. simpl.
  assert (has_flag c1 REDIS_CLOSE_AFTER_REPLY = false) as ->
    by (unfold has_flag in *; by rewrite Hg).
  eexists. split; [done|]. unfold pending. simpl. by rewrite Hb, Hr.
Qed.

Lemma sendReplyToClient_drains_witness :
  exists c', sendReplyToClient true [Wrote 1; Wrote 5; Wrote 5]
               (OutBuf 7 0 0 [97; 98] [[99]] 0) = (c', [97; 98; 99], SendDrained) /\
             pending c' = [].
Proof.
  apply (sendReplyToClient_drains true _ (OutBuf 7 0 0 [97; 98] [[99]] 0)); try done.
  repeat constructor; eexists; (split; [reflexivity|lia]).
Defined.

End Output.
