(* ===== verification/UserTable.v ===== *)
(** * mydictuser.c: the table of users and their nodes

    User records live on the heap and are reachable in two ways that must
    agree: through the dictionary [myuserdict], keyed by name without regard
    to case, and through the singly linked list headed by
    [myAllNodeUserInfo.userInfo]. *)

From S2P Require Import Prelude Dict DictSpec.
Import HashTable.

Module Users.

Definition MY_NAME_LENGTH : Z := 256.
Definition MYNODE_LINE_LENGTH : Z := 10.
Definition MYNODE_MAX_NODES : Z := 6.
Definition OPERATION_GET_INFO : Z := 0.
Definition OPERATION_SET_INFO : Z := 1.

(** ** The dictionary as the table sees it *)

(** The operations of dict.c the table uses. *)
Class UserDict (D V : Type) := {
  ud_create : D;
  ud_fetch : D -> cstring -> option (D * option V);
  ud_add : D -> cstring -> V -> option (D * Z);
  ud_iter : D -> option (D * list V)
}.

(** What they promise: a finite map over lowered names. *)
Class UserDictSpec (D V : Type) `{UserDict D V} := {
  ud_wf : D -> Prop;
  ud_map : D -> gmap (list Z) V;
  ud_create_wf : ud_wf ud_create;
  ud_create_map : ud_map ud_create = ∅;
  ud_fetch_spec : forall d k, ud_wf d ->
    exists d', ud_fetch d k = Some (d', ud_map d !! canon_case k) /\
      ud_wf d' /\ ud_map d' = ud_map d;
  ud_add_spec : forall d k x, ud_wf d -> Z.of_nat (base.size (ud_map d)) < 2 ^ 29 ->
    ud_map d !! canon_case k = None ->
    exists d', ud_add d k x = Some (d', DICT_OK) /\
      ud_wf d' /\ ud_map d' = <[canon_case k := x]> (ud_map d);
  ud_iter_spec : forall d, ud_wf d ->
    exists vs, ud_iter d = Some (d, vs) /\ vs ≡ₚ (map_to_list (ud_map d)).*2
}.

(** ** Data *)

(** The C strings held by the character arrays. *)
Record MyNodeInfo := mkNode { n_name : list Z; n_line : list Z }.

Record MyNodeUserInfo := mkUser {
  u_name : list Z;
  u_userid : list Z;
  u_line : list Z;
  u_nodes : list MyNodeInfo;      (* the whole array *)
  u_index : Z;                    (* how many slots are in use *)
  u_next : option nat
}.

Definition set_line (u : MyNodeUserInfo) (l : list Z) : MyNodeUserInfo :=
  mkUser (u_name u) (u_userid u) l (u_nodes u) (u_index u) (u_next u).
Definition set_nodes (u : MyNodeUserInfo) (ns : list MyNodeInfo) (i : Z) : MyNodeUserInfo :=
  mkUser (u_name u) (u_userid u) (u_line u) ns i (u_next u).

Section Table.
Context {D : Type} `{!UserDict D nat}.

(** The globals: the dictionary, the records by address, the list head and
    length of [myAllNodeUserInfo], and the next free address. *)
Record usertable := UserTable {
  myuserdict : D;
  records : gmap nat MyNodeUserInfo;
  userInfo : option nat;
  ucount : Z;
  brk : nat
}.

Definition set_dict (st : usertable) (d : D) : usertable :=
  UserTable d (records st) (userInfo st) (ucount st) (brk st).
Definition set_records (st : usertable) (r : gmap nat MyNodeUserInfo) : usertable :=
  UserTable (myuserdict st) r (userInfo st) (ucount st) (brk st).

Definition empty_table : usertable := UserTable ud_create ∅ None 0 0.

(** [sds name = sdsnew(username); dictFetchValue(myuserdict,name); sdsfree(name)]:
    looking up a name may move the dictionary one rehashing step. *)
Definition fetch (st : usertable) (username : list Z) : option (usertable * option nat) :=
  let? (d, p) := ud_fetch (myuserdict st) (sdsnew username) in
  Some (set_dict st d, p).

Definition newMyNodeUserInfo : MyNodeUserInfo :=
  mkUser [] [] [] (replicate (Z.to_nat MYNODE_MAX_NODES) (mkNode [] [])) 0 None.

Definition insertUserInfo (st : usertable) (userid username : list Z) : option usertable :=
  let? (st, p) := fetch st username in
  match p with
  | Some _ => Some st
  | None =>
      let new := newMyNodeUserInfo in
      let? name := strcpy MY_NAME_LENGTH username in
      let? uid := strcpy MY_NAME_LENGTH userid in
      let? line := strcpy MY_NAME_LENGTH (bytes_of_string "off") in
      let new := mkUser name uid line (u_nodes new) 0 (userInfo st) in
      let? (d, _) := ud_add (myuserdict st) (sdsnew username) (brk st) in
      Some (UserTable d (<[brk st := new]> (records st)) (Some (brk st))
              (u32 (ucount st + 1)) (S (brk st)))
  end.

(** The loop [for(j=0;j<n;j++) if(!strcmp(nodename,nodes[j].name))]: the index
    of the first match; reading past the array is an error. *)
Fixpoint find_node (nodename : list Z) (nodes : list MyNodeInfo) (n : nat) (j : nat) {struct n}
  : option (option nat) :=
  match n with
  | O => Some None
  | S n =>
      match nodes with
      | [] => None
      | x :: nodes =>
          if streq nodename (n_name x) then Some (Some j) else find_node nodename nodes n (S j)
      end
  end.

(** 1: a new node; 0: it exists; -1: no room; -2: no such user. *)
Definition insertNodeToUserInfo (st : usertable) (username nodename : list Z)
  : option (usertable * Z) :=
  let? (st, p) := fetch st username in
  match p with
  | None => Some (st, -2)
  | Some p =>
      let? u := records st !! p in
      let? found := find_node nodename (u_nodes u) (Z.to_nat (u_index u)) 0 in
      match found with
      | Some _ => Some (st, 0)
      | None =>
          if MYNODE_MAX_NODES <=? u_index u then Some (st, -1)
          else
            let? name := strcpy MY_NAME_LENGTH nodename in
            let? line := strcpy MYNODE_LINE_LENGTH (bytes_of_string "off") in
            let? ns := zset (u_nodes u) (u_index u) (mkNode name line) in
            Some (set_records st (<[p := set_nodes u ns (u32 (u_index u + 1))]> (records st)), 1)
      end
  end.

Definition getUserNodeSize (st : usertable) (username : list Z) : option (usertable * Z) :=
  let? (st, p) := fetch st username in
  match p with
  | None => Some (st, 0)
  | Some p => let? u := records st !! p in Some (st, s32 (u_index u))
  end.

(** The records on the linked list, in order; a cycle or a dangling pointer
    gives [None]. *)
Fixpoint walk (fuel : nat) (rs : gmap nat MyNodeUserInfo) (p : option nat)
  : option (list MyNodeUserInfo) :=
  match p with
  | None => Some []
  | Some p =>
      match fuel with
      | O => None
      | S fuel =>
          let? u := rs !! p in
          let? us := walk fuel rs (u_next u) in
          Some (u :: us)
      end
  end.

Definition all_users (st : usertable) : option (list MyNodeUserInfo) :=
  walk (base.size (records st)) (records st) (userInfo st).

(** One formatted line per record, each through [char buf[256]]. *)
Fixpoint format_all {A} (fmt : A -> list Z) (xs : list A) : option (list (list Z)) :=
  match xs with
  | [] => Some []
  | x :: xs =>
      let? l := sprintf 256 (fmt x) in
      let? ls := format_all fmt xs in
      Some (l :: ls)
  end.

Definition userinfo_line (u : MyNodeUserInfo) : list Z :=
  bytes_of_string "userinfo ok " ++ u_name u ++ [32] ++ u_line u ++ CRLF.

Definition nodeinfo_line (n : MyNodeInfo) : list Z :=
  bytes_of_string "nodeinfo ok " ++ n_name n ++ [32] ++ n_line n ++ CRLF.

(** The reply lines of [chatUserInfo]. *)
Definition chatUserInfo (st : usertable) : option (list (list Z)) :=
  let? us := all_users st in
  format_all userinfo_line us.

(** The reply lines of [getAllNodeInfo] for the client's user name. *)
Definition getAllNodeInfo (st : usertable) (username : list Z)
  : option (usertable * list (list Z)) :=
  let? (st, p) := fetch st username in
  match p with
  | None => Some (st, [])
  | Some p =>
      let? u := records st !! p in
      if zlen (u_nodes u) <? u_index u then None
      else
        let? ls := format_all nodeinfo_line (take (Z.to_nat (u_index u)) (u_nodes u)) in
        Some (st, ls)
  end.

(** NULL is [None]. *)
Definition getUseridByName (st : usertable) (username : list Z)
  : option (usertable * option (list Z)) :=
  let? (st, p) := fetch st username in
  match p with
  | None => Some (st, None)
  | Some p => let? u := records st !! p in Some (st, Some (u_userid u))
  end.

Fixpoint find_userid (fuel : nat) (rs : gmap nat MyNodeUserInfo) (p : option nat)
  (userid : list Z) : option (option (list Z)) :=
  match p with
  | None => Some None
  | Some p =>
      match fuel with
      | O => None
      | S fuel =>
          let? u := rs !! p in
          if streq userid (u_userid u) then Some (Some (u_name u))
          else find_userid fuel rs (u_next u) userid
      end
  end.

Definition getNameByUserid (st : usertable) (userid : list Z) : option (option (list Z)) :=
  find_userid (base.size (records st)) (records st) (userInfo st) userid.

(** The second result is the caller's [state] buffer afterwards. *)
Definition chatSetOrGetUserInfo (st : usertable) (username state : list Z) (operation : Z)
  : option (usertable * list Z) :=
  let? (st, p) := fetch st username in
  match p with
  | None => Some (st, state)
  | Some p =>
      let? u := records st !! p in
      let? state := if operation =? OPERATION_GET_INFO
                    then strcpy MY_NAME_LENGTH (u_line u) else Some state in
      if operation =? OPERATION_SET_INFO then
        let? line := strcpy MY_NAME_LENGTH state in
        Some (set_records st (<[p := set_line u line]> (records st)), state)
      else Some (st, state)
  end.

Definition chatSetOrGetNodeInfo (st : usertable) (username nodename state : list Z) (operation : Z)
  : option (usertable * list Z) :=
  let? (st, p) := fetch st username in
  match p with
  | None => Some (st, state)
  | Some p =>
      let? u := records st !! p in
      let? found := find_node nodename (u_nodes u) (Z.to_nat (u_index u)) 0 in
      match found with
      | None => Some (st, state)
      | Some j =>
          let? n := u_nodes u !! j in
          let? state := if operation =? OPERATION_GET_INFO
                        then sprintf MY_NAME_LENGTH (n_line n) else Some state in
          if operation =? OPERATION_SET_INFO then
            let? line := sprintf MYNODE_LINE_LENGTH (cstr state) in
            Some (set_records st
                    (<[p := set_nodes u (<[j := mkNode (n_name n) line]> (u_nodes u))
                              (u_index u)]> (records st)), state)
          else Some (st, state)
      end
  end.

End Table.
Arguments usertable : clear implicits.
Arguments UserTable {D}.

(** ** The invariant *)

(** The key of a user name in the dictionary. *)
Definition lower (s : list Z) : list Z := tolower <$> cstr s.

Lemma canon_sdsnew s : canon_case (sdsnew s) = lower s.
Proof. done. Qed.

Record node_ok (n : MyNodeInfo) : Prop := {
  node_name_nul : cstr (n_name n) = n_name n;
  node_name_len : zlen (n_name n) < MY_NAME_LENGTH;
  node_line_nul : cstr (n_line n) = n_line n;
  node_line_len : zlen (n_line n) < MYNODE_LINE_LENGTH
}.

Definition live_nodes (u : MyNodeUserInfo) : list MyNodeInfo :=
  take (Z.to_nat (u_index u)) (u_nodes u).

Record user_ok (u : MyNodeUserInfo) : Prop := {
  user_name_nul : cstr (u_name u) = u_name u;
  user_name_len : zlen (u_name u) < MY_NAME_LENGTH;
  user_id_nul : cstr (u_userid u) = u_userid u;
  user_id_len : zlen (u_userid u) < MY_NAME_LENGTH;
  user_line_nul : cstr (u_line u) = u_line u;
  user_line_len : zlen (u_line u) < MY_NAME_LENGTH;
  user_slots : zlen (u_nodes u) = MYNODE_MAX_NODES;
  user_index : 0 <= u_index u <= MYNODE_MAX_NODES;
  user_nodes : Forall node_ok (live_nodes u);
  user_distinct : NoDup (n_name <$> live_nodes u)
}.

(** The [next] pointers from [p] on go through the addresses [ps]. *)
Inductive chain (rs : gmap nat MyNodeUserInfo) : option nat -> list nat -> Prop :=
  | chain_nil : chain rs None []
  | chain_cons p u ps :
      rs !! p = Some u -> chain rs (u_next u) ps -> chain rs (Some p) (p :: ps).

Section Invariant.
Context {D : Type} `{!UserDict D nat} `{!UserDictSpec D nat}.
Implicit Types (st : usertable D) (u : MyNodeUserInfo).

Record ut_wf st : Prop := {
  wf_dict : ud_wf (myuserdict st);
  wf_keys : forall k p, ud_map (myuserdict st) !! k = Some p <->
              exists u, records st !! p = Some u /\ lower (u_name u) = k;
  wf_users : forall p u, records st !! p = Some u -> user_ok u;
  wf_brk : forall p, is_Some (records st !! p) -> (p < brk st)%nat;
  wf_list : exists ps, chain (records st) (userInfo st) ps /\ NoDup ps /\
              (forall p, p ∈ ps <-> is_Some (records st !! p)) /\
              ucount st = u32 (zlen ps)
}.

Lemma chain_length (rs : gmap nat MyNodeUserInfo) ps :
  NoDup ps -> (forall p, p ∈ ps <-> is_Some (rs !! p)) -> length ps = base.size rs.
Proof.
  intros Hnd Hdom. rewrite <- (size_dom (D := gset nat) rs).
  rewrite <- (size_list_to_set (C := gset nat) ps Hnd). f_equal.
  apply set_eq. intros p. rewrite elem_of_list_to_set, elem_of_dom. apply Hdom.
Qed.

Lemma chain_walk rs p ps fuel :
  chain rs p ps -> (length ps <= fuel)%nat ->
  exists us, walk fuel rs p = Some us /\
    Forall2 (fun q u => rs !! q = Some u) ps us.
Proof.
  intros Hc. revert fuel. induction Hc as [|p u ps Hp _ IH]; intros fuel Hf.
  - exists []. by destruct fuel.
  - destruct fuel as [|fuel]; simpl in Hf; [lia|]. destruct (IH fuel) as (us & Hus & Hall); [lia|].
    exists (u :: us). simpl. rewrite Hp. simpl. rewrite Hus. simpl. split; [done|by constructor].
Qed.

Lemma chain_insert rs p ps q u u' :
  chain rs p ps -> rs !! q = Some u -> u_next u' = u_next u -> chain (<[q := u']> rs) p ps.
Proof.
  intros Hc Hq Hn. induction Hc as [|p w ps Hp _ IH]; [constructor|].
  destruct (decide (p = q)) as [->|Hne].
  - simplify_eq. eapply chain_cons; [apply lookup_insert_eq|]. by rewrite Hn.
  - eapply chain_cons; [by rewrite lookup_insert_ne|done].
Qed.

Lemma chain_fresh rs p ps q u :
  chain rs p ps -> q ∉ ps -> chain (<[q := u]> rs) p ps.
Proof.
  induction 1 as [|p w ps Hp _ IH]; intros Hq; [constructor|].
  apply not_elem_of_cons in Hq as [Hne Hq].
  eapply chain_cons; [by rewrite lookup_insert_ne|auto].
Qed.

(** The record a name resolves to. *)
Definition lookup_user st (username : list Z) : option MyNodeUserInfo :=
  match ud_map (myuserdict st) !! lower username with
  | Some p => records st !! p
  | None => None
  end.

Lemma ut_wf_set_dict st d :
  ut_wf st -> ud_wf d -> ud_map d = ud_map (myuserdict st) -> ut_wf (set_dict st d).
Proof. intros [A B C E F] Hd Hm. constructor; simpl; auto. intros k p. rewrite Hm. apply B. Qed.

(** Looking a name up finds its record, or that there is none. *)
Lemma fetch_spec st name :
  ut_wf st ->
  exists d, let st' := set_dict st d in
    ut_wf st' /\ ud_map d = ud_map (myuserdict st) /\
    match lookup_user st name with
    | Some u => exists p, fetch st name = Some (st', Some p) /\
        records st !! p = Some u /\ user_ok u /\ lower (u_name u) = lower name
    | None => fetch st name = Some (st', None) /\
        ud_map (myuserdict st) !! lower name = None
    end.
Proof.
  intros Hwf. destruct (ud_fetch_spec (myuserdict st) (sdsnew name) (wf_dict _ Hwf))
    as (d & Hd & Hwd & Hm). exists d. cbv zeta.
  split; [by apply ut_wf_set_dict|]. split; [done|].
  unfold lookup_user, fetch. rewrite Hd, canon_sdsnew. simpl.
  destruct (ud_map (myuserdict st) !! lower name) as [p|] eqn:Hp; [|done].
  apply (wf_keys _ Hwf) in Hp as (u & Hu & Hn). rewrite Hu. exists p.
  split_and!; [done..|by eapply wf_users|done].
Qed.

(** Updating a record in place, keeping its name and link. *)
Lemma ut_wf_update st p u u' :
  ut_wf st -> records st !! p = Some u -> user_ok u' ->
  u_name u' = u_name u -> u_next u' = u_next u ->
  ut_wf (set_records st (<[p := u']> (records st))).
Proof.
  intros [A B C E (ps & F1 & F2 & F3 & F4)] Hp Hok Hn Hx. constructor; simpl.
  - done.
  - intros k q. rewrite B. destruct (decide (p = q)) as [<-|Hne].
    + rewrite lookup_insert_eq, Hp. split; intros (w & Hw & Hl); simplify_eq.
      * exists u'. by rewrite Hn.
      * exists u. by rewrite <- Hn.
    + by rewrite lookup_insert_ne.
  - intros q w. destruct (decide (p = q)) as [<-|Hne].
    + rewrite lookup_insert_eq. intros. by simplify_eq.
    + rewrite lookup_insert_ne by done. apply C.
  - intros q. rewrite lookup_insert_is_Some. intros [<-|[_ Hq]]; apply E; [by exists u|done].
  - exists ps. split_and!; [by eapply chain_insert|done| |done].
    intros q. rewrite F3, lookup_insert_is_Some. destruct (decide (p = q)) as [<-|Hne].
    + split; [by left|intros _; by exists u].
    + split; [by right|by intros [?|[_ ?]]].
Qed.

(** ** The operations *)

Lemma find_node_spec nodename nodes n j :
  (n <= length nodes)%nat ->
  exists r, find_node nodename nodes n j = Some r /\
    match r with
    | Some i => exists x, (j <= i)%nat /\ take n nodes !! (i - j)%nat = Some x /\
                  nodes !! (i - j)%nat = Some x /\ cstr (n_name x) = cstr nodename
    | None => forall x, x ∈ take n nodes -> cstr (n_name x) <> cstr nodename
    end.
Proof.
  revert nodes j. induction n as [|n IH]; intros nodes j Hn; simpl.
  { exists None. split; [done|]. by intros x ?%not_elem_of_nil. }
  destruct nodes as [|x nodes]; simpl in Hn; [lia|].
  destruct (streq nodename (n_name x)) eqn:E.
  - apply streq_true in E. exists (Some j). split; [done|]. exists x.
    rewrite Nat.sub_diag. by split_and!.
  - assert (cstr (n_name x) <> cstr nodename) as Hne
      by (intros Hx; symmetry in Hx; apply streq_true in Hx; congruence).
    destruct (IH nodes (S j)) as (r & Hr & Hs); [lia|]. exists r. split; [done|].
    destruct r as [i|].
    + destruct Hs as (y & Hle & Ht & Hy & He). exists y. split; [lia|].
      replace (i - j)%nat with (S (i - S j)) by lia. by split_and!.
    + intros y [->|Hy]%elem_of_cons; auto.
Qed.

Lemma lookup_set_dict st d name :
  ud_map d = ud_map (myuserdict st) -> lookup_user (set_dict st d) name = lookup_user st name.
Proof. intros Hm. unfold lookup_user. simpl. by rewrite Hm. Qed.

Lemma lower_cstr s : lower (cstr s) = lower s.
Proof. unfold lower. by rewrite cstr_idem. Qed.

(** A new user's record. *)
Definition fresh_user (userid username : list Z) (next : option nat) : MyNodeUserInfo :=
  mkUser (cstr username) (cstr userid) (bytes_of_string "off")
    (replicate (Z.to_nat MYNODE_MAX_NODES) (mkNode [] [])) 0 next.

Lemma fresh_user_ok userid username next :
  strlen username < MY_NAME_LENGTH -> strlen userid < MY_NAME_LENGTH ->
  user_ok (fresh_user userid username next).
Proof.
  intros Hn Hu. constructor; simpl; try done; try by rewrite cstr_idem.
  constructor.
Qed.

Lemma insertUserInfo_spec st userid username :
  ut_wf st -> strlen username < MY_NAME_LENGTH -> strlen userid < MY_NAME_LENGTH ->
  Z.of_nat (base.size (ud_map (myuserdict st))) < 2 ^ 29 ->
  exists st', insertUserInfo st userid username = Some st' /\ ut_wf st' /\
    match lookup_user st username with
    | Some u => records st' = records st /\ userInfo st' = userInfo st /\
        ud_map (myuserdict st') = ud_map (myuserdict st)
    | None =>
        records st' = <[brk st := fresh_user userid username (userInfo st)]> (records st) /\
        userInfo st' = Some (brk st) /\ records st !! brk st = None /\
        ud_map (myuserdict st') = <[lower username := brk st]> (ud_map (myuserdict st))
    end.
Proof.
  intros Hwf Hn Hu Hsz. unfold insertUserInfo.
  destruct (fetch_spec st username Hwf) as (d & Hwf1 & Hm & Hf).
  destruct (lookup_user st username) as [u|].
  { destruct Hf as (p & -> & _). simpl. eexists. split; [done|]. by split_and!. }
  destruct Hf as [-> Hnone]. cbn [obind].
  rewrite (strcpy_Some _ username Hn), (strcpy_Some _ userid Hu), strcpy_Some by done.
  cbn [obind]. simpl myuserdict. simpl userInfo. simpl brk.
  destruct (ud_add_spec d (sdsnew username) (brk st)) as (d2 & -> & Hwd & Hm2).
  { apply (wf_dict _ Hwf1). } { by rewrite Hm. } { by rewrite Hm. }
  cbn [obind]. eexists. split; [done|]. rewrite canon_sdsnew, Hm in Hm2.
  change (mkUser _ _ _ _ _ _) with (fresh_user userid username (userInfo st)).
  set (nu := fresh_user userid username (userInfo st)).
  assert (records st !! brk st = None) as Hfr.
  { destruct (records st !! brk st) eqn:E; [|done].
    assert (brk st < brk st)%nat; [|lia]. apply (wf_brk _ Hwf). by rewrite E. }
  split; [|by split_and!]. destruct Hwf as [A B C E (ps & F1 & F2 & F3 & F4)].
  constructor; simpl.
  - done.
  - intros k p. rewrite Hm2. destruct (decide (k = lower username)) as [->|Hne].
    + rewrite lookup_insert_eq. split.
      * intros [= <-]. exists nu. rewrite lookup_insert_eq. split; [done|]. apply lower_cstr.
      * intros (w & Hw & Hl). f_equal. destruct (decide (brk st = p)) as [?|Hp]; [done|].
        rewrite lookup_insert_ne in Hw by done. exfalso.
        assert (ud_map (myuserdict st) !! lower username = Some p) by (apply B; eauto).
        congruence.
    + rewrite lookup_insert_ne by done. rewrite B. destruct (decide (brk st = p)) as [<-|Hp].
      * rewrite lookup_insert_eq, Hfr. split; [by intros (w & ? & _)|].
        intros (w & [= <-] & Hl). exfalso. apply Hne. rewrite <- Hl. apply lower_cstr.
      * by rewrite lookup_insert_ne.
  - intros p w. destruct (decide (brk st = p)) as [<-|Hp].
    + rewrite lookup_insert_eq. intros [= <-]. by apply fresh_user_ok.
    + rewrite lookup_insert_ne by done. apply C.
  - intros p. rewrite lookup_insert_is_Some. intros [<-|[_ Hp]]; [lia|].
    apply E in Hp. lia.
  - assert (brk st ∉ ps) as Hni by (rewrite F3, Hfr; by intros []).
    exists (brk st :: ps). split_and!.
    + eapply chain_cons; [apply lookup_insert_eq|]. by apply chain_fresh.
    + by constructor.
    + intros p. rewrite elem_of_cons, F3, lookup_insert_is_Some.
      destruct (decide (p = brk st)) as [->|Hp]; [tauto|]. split; [intros [?|?]|intros [?|[_ ?]]]; auto; congruence.
    + rewrite F4, wrapu_add_l by lia. simpl length. f_equal. lia.
Qed.

Lemma live_nodes_length u : user_ok u -> length (live_nodes u) = Z.to_nat (u_index u).
Proof.
  intros Hok. unfold live_nodes. rewrite length_take.
  pose proof (user_slots _ Hok). pose proof (user_index _ Hok). lia.
Qed.

Lemma user_ok_find u nodename :
  user_ok u ->
  exists r, find_node nodename (u_nodes u) (Z.to_nat (u_index u)) 0 = Some r /\
    match r with
    | Some i => exists x, live_nodes u !! i = Some x /\ u_nodes u !! i = Some x /\
                  n_name x = cstr nodename /\ node_ok x
    | None => forall x, x ∈ live_nodes u -> n_name x <> cstr nodename
    end.
Proof.
  intros Hok. destruct (find_node_spec nodename (u_nodes u) (Z.to_nat (u_index u)) 0)
    as (r & Hr & Hs).
  { pose proof (user_slots _ Hok). pose proof (user_index _ Hok). lia. }
  exists r. split; [done|]. pose proof (user_nodes _ Hok) as Hall. rewrite Forall_forall in Hall.
  destruct r as [i|].
  - destruct Hs as (x & _ & Ht & Hx & Hn). rewrite Nat.sub_0_r in *. exists x.
    assert (node_ok x) as Hx' by (apply Hall, list_elem_of_lookup; by exists i).
    split_and!; [done..| |done]. by rewrite <- Hn, (node_name_nul _ Hx').
  - intros x Hx He. apply (Hs x Hx). rewrite He. apply cstr_idem.
Qed.

Definition node_names u : list (list Z) := n_name <$> live_nodes u.

(** Resolving names after the record at [p] was replaced. *)
Lemma lookup_user_update st d p u u' name :
  ut_wf st -> ud_map d = ud_map (myuserdict st) ->
  records st !! p = Some u -> lower (u_name u) = lower name ->
  let st' := set_records (set_dict st d) (<[p := u']> (records st)) in
  lookup_user st' name = Some u' /\
  forall other, lower other <> lower name -> lookup_user st' other = lookup_user st other.
Proof.
  intros Hwf Hm Hp Hn. unfold lookup_user. simpl. rewrite Hm.
  assert (ud_map (myuserdict st) !! lower name = Some p) as ->
    by (apply (wf_keys _ Hwf); by exists u).
  rewrite lookup_insert_eq. split; [done|]. intros other Ho.
  destruct (ud_map (myuserdict st) !! lower other) as [q|] eqn:Hq; [|done].
  rewrite lookup_insert_ne; [done|]. intros <-.
  apply (wf_keys _ Hwf) in Hq as (w & Hw & Hl). simplify_eq. congruence.
Qed.

(** The record of a user after a node was added. *)
Definition with_node u (nodename : list Z) : MyNodeUserInfo :=
  set_nodes u (<[Z.to_nat (u_index u) := mkNode (cstr nodename) (bytes_of_string "off")]> (u_nodes u))
    (u_index u + 1).

Lemma live_with_node u nodename :
  user_ok u -> u_index u < MYNODE_MAX_NODES ->
  live_nodes (with_node u nodename) =
    live_nodes u ++ [mkNode (cstr nodename) (bytes_of_string "off")].
Proof.
  intros Hok Hi. pose proof (user_slots _ Hok). pose proof (user_index _ Hok).
  unfold live_nodes. simpl. replace (Z.to_nat (u_index u + 1)) with (S (Z.to_nat (u_index u))) by lia.
  erewrite take_S_r; [|apply list_lookup_insert_eq; lia].
  by rewrite take_insert_ge by lia.
Qed.

Lemma with_node_ok u nodename :
  user_ok u -> u_index u < MYNODE_MAX_NODES -> strlen nodename < MY_NAME_LENGTH ->
  (forall x, x ∈ live_nodes u -> n_name x <> cstr nodename) ->
  user_ok (with_node u nodename).
Proof.
  intros Hok Hi Hlen Hnew. pose proof (live_with_node u nodename Hok Hi) as Hl.
  destruct Hok as [A1 A2 A3 A4 A5 A6 A7 A8 A9 A10].
  constructor; simpl; try done; try lia; try (by rewrite length_insert).
  - rewrite Hl. apply Forall_app. split; [done|]. constructor; [|done].
    constructor; simpl; try done. by rewrite cstr_idem.
  - rewrite Hl, fmap_app. apply NoDup_app. split; [done|]. split.
    + intros y Hy Hy'. simpl in Hy'. apply list_elem_of_singleton in Hy' as ->.
      apply list_elem_of_fmap in Hy as (x & Hx & Hin). by apply (Hnew x Hin).
    + simpl. constructor; [by apply not_elem_of_nil|constructor].
Qed.

Lemma insertNodeToUserInfo_spec st username nodename :
  ut_wf st -> strlen nodename < MY_NAME_LENGTH ->
  exists st' r, insertNodeToUserInfo st username nodename = Some (st', r) /\ ut_wf st' /\
    ud_map (myuserdict st') = ud_map (myuserdict st) /\ userInfo st' = userInfo st /\
    match lookup_user st username with
    | None => r = -2 /\ records st' = records st
    | Some u =>
        (r = 0 /\ cstr nodename ∈ node_names u /\ records st' = records st) \/
        (r = -1 /\ (cstr nodename ∉ node_names u) /\
           u_index u = MYNODE_MAX_NODES /\ records st' = records st) \/
        (r = 1 /\ (cstr nodename ∉ node_names u) /\ u_index u < MYNODE_MAX_NODES /\
           lookup_user st' username = Some (with_node u nodename) /\
           forall other, lower other <> lower username ->
             lookup_user st' other = lookup_user st other)
    end.
Proof.
  intros Hwf Hlen. unfold insertNodeToUserInfo.
  destruct (fetch_spec st username Hwf) as (d & Hwf1 & Hm & Hf).
  destruct (lookup_user st username) as [u|] eqn:Hlk.
  2:{ destruct Hf as [-> _]. simpl. eexists _, _. by split_and!. }
  destruct Hf as (p & -> & Hp & Hok & Hn). cbn [obind]. simpl records. rewrite Hp. cbn [obind].
  destruct (user_ok_find u nodename Hok) as (r & -> & Hr). cbn [obind]. destruct r as [i|].
  { destruct Hr as (x & Hx & _ & Hxn & _). eexists _, _. split_and!; [done..|].
    left. split_and!; [done| |done]. rewrite <- Hxn. apply list_elem_of_fmap.
    exists x. split; [done|]. apply list_elem_of_lookup. by exists i. }
  assert (cstr nodename ∉ node_names u) as Hnew.
  { intros (x & Hx & Hin)%list_elem_of_fmap. by apply (Hr x Hin). }
  pose proof (user_index _ Hok) as Hi. pose proof (user_slots _ Hok) as Hs.
  destruct (Z.leb_spec MYNODE_MAX_NODES (u_index u)).
  { eexists _, _. split_and!; [done..|]. right; left. split_and!; [done|done|lia|done]. }
  rewrite (strcpy_Some _ _ Hlen), strcpy_Some by done. cbn [obind].
  assert (zset (u_nodes u) (u_index u) (mkNode (cstr nodename) (cstr (bytes_of_string "off"))) =
          Some (<[Z.to_nat (u_index u) := mkNode (cstr nodename) (bytes_of_string "off")]> (u_nodes u)))
    as -> by (apply zset_Some; split; [lia|done]).
  cbn [obind]. rewrite wrapu_small by (unfold MYNODE_MAX_NODES in *; cint).
  eexists _, _. split; [done|]. fold (with_node u nodename). split; [|split_and!].
  - apply (ut_wf_update (set_dict st d) p u); [done|done| |done|done].
    by apply with_node_ok.
  - done.
  - done.
  - right; right. do 3 (split; [done|]).
    by apply (lookup_user_update st d p u (with_node u nodename) username).
Qed.

(** Reading and writing the line state of a user. *)
Lemma chatSetUserInfo_spec st username state :
  ut_wf st -> strlen state < MY_NAME_LENGTH ->
  exists st', chatSetOrGetUserInfo st username state OPERATION_SET_INFO = Some (st', state) /\
    ut_wf st' /\ ud_map (myuserdict st') = ud_map (myuserdict st) /\
    match lookup_user st username with
    | Some u => lookup_user st' username = Some (set_line u (cstr state))
    | None => lookup_user st' username = None
    end /\
    forall other, lower other <> lower username -> lookup_user st' other = lookup_user st other.
Proof.
  intros Hwf Hlen. unfold chatSetOrGetUserInfo.
  destruct (fetch_spec st username Hwf) as (d & Hwf1 & Hm & Hf).
  destruct (lookup_user st username) as [u|] eqn:Hlk.
  2:{ destruct Hf as [-> _]. simpl. exists (set_dict st d).
      split_and!; [done..|by rewrite lookup_set_dict|intros; by apply lookup_set_dict]. }
  destruct Hf as (p & -> & Hp & Hok & Hn). cbn [obind]. simpl records. rewrite Hp. cbn [obind].
  cbn [OPERATION_SET_INFO OPERATION_GET_INFO Z.eqb Pos.eqb obind].
  rewrite (strcpy_Some _ _ Hlen). cbn [obind]. eexists. split; [done|].
  destruct (lookup_user_update st d p u (set_line u (cstr state)) username) as [Hl Ho]; [done..|].
  split_and!; [|done..]. apply (ut_wf_update (set_dict st d) p u); [done|done| |done|done].
  destruct Hok. constructor; try done; simpl; by rewrite cstr_idem.
Qed.

Lemma chatGetUserInfo_spec st username state :
  ut_wf st ->
  exists d, chatSetOrGetUserInfo st username state OPERATION_GET_INFO =
      Some (set_dict st d, match lookup_user st username with
                           | Some u => u_line u | None => state end) /\
    ut_wf (set_dict st d) /\ ud_map d = ud_map (myuserdict st).
Proof.
  intros Hwf. unfold chatSetOrGetUserInfo.
  destruct (fetch_spec st username Hwf) as (d & Hwf1 & Hm & Hf). exists d.
  destruct (lookup_user st username) as [u|] eqn:Hlk; [|by destruct Hf as [-> _]].
  destruct Hf as (p & -> & Hp & Hok & Hn). cbn [obind]. simpl records. rewrite Hp. cbn [obind].
  cbn [OPERATION_SET_INFO OPERATION_GET_INFO Z.eqb Pos.eqb obind].
  rewrite strcpy_Some; [|unfold strlen; rewrite (user_line_nul _ Hok); by apply Hok].
  cbn [obind]. by rewrite (user_line_nul _ Hok).
Qed.

(** The record of a user after the state of node [j] was set. *)
Definition with_node_line u (j : nat) (n : MyNodeInfo) (line : list Z) : MyNodeUserInfo :=
  set_nodes u (<[j := mkNode (n_name n) line]> (u_nodes u)) (u_index u).

Lemma with_node_line_ok u j n line :
  user_ok u -> live_nodes u !! j = Some n -> cstr line = line ->
  zlen line < MYNODE_LINE_LENGTH -> user_ok (with_node_line u j n line).
Proof.
  intros Hok Hj Hnul Hlen. pose proof (user_nodes _ Hok) as Hall.
  assert (node_ok n) as Hn by (rewrite Forall_forall in Hall; apply Hall, list_elem_of_lookup; eauto).
  assert (live_nodes (with_node_line u j n line) = <[j := mkNode (n_name n) line]> (live_nodes u)) as Hl.
  { unfold live_nodes in *. simpl. apply lookup_lt_Some in Hj. rewrite length_take in Hj.
    by rewrite take_insert_lt by lia. }
  destruct Hok as [A1 A2 A3 A4 A5 A6 A7 A8 A9 A10].
  constructor; simpl; try done; try (by rewrite length_insert).
  - rewrite Hl. apply Forall_insert; [done|]. destruct Hn. by constructor.
  - rewrite Hl, list_fmap_insert. simpl.
    rewrite list_insert_id; [done|]. by rewrite list_lookup_fmap, Hj.
Qed.

(** In the updated record the node is present, and any node of that name has
    the new state. *)
Lemma with_node_line_read u j n line :
  user_ok u -> live_nodes u !! j = Some n -> cstr line = line -> zlen line < MYNODE_LINE_LENGTH ->
  let u' := with_node_line u j n line in
  mkNode (n_name n) line ∈ live_nodes u' /\
  forall m, m ∈ live_nodes u' -> n_name m = n_name n -> n_line m = line.
Proof.
  intros Hok Hj Hnul Hlen u'. pose proof (with_node_line_ok u j n line Hok Hj Hnul Hlen) as Hok'.
  fold u' in Hok'.
  assert (live_nodes u' !! j = Some (mkNode (n_name n) line)) as Hb.
  { unfold live_nodes in *. simpl. apply lookup_lt_Some in Hj as Hl. rewrite length_take in Hl.
    rewrite lookup_take_lt by lia. apply list_lookup_insert_eq. lia. }
  split; [apply list_elem_of_lookup; by exists j|]. intros m [a Ha]%list_elem_of_lookup Hm.
  assert (a = j) as ->; [|by simplify_eq].
  eapply (NoDup_lookup _ a j (n_name n) (user_distinct _ Hok')); rewrite list_lookup_fmap;
    [rewrite Ha|rewrite Hb]; simpl; congruence.
Qed.

Lemma chatSetNodeInfo_spec st username nodename state :
  ut_wf st -> strlen state < MYNODE_LINE_LENGTH ->
  exists st', chatSetOrGetNodeInfo st username nodename state OPERATION_SET_INFO = Some (st', state) /\
    ut_wf st' /\ ud_map (myuserdict st') = ud_map (myuserdict st) /\
    match lookup_user st username with
    | Some u =>
        (exists j n, live_nodes u !! j = Some n /\ n_name n = cstr nodename /\
           lookup_user st' username = Some (with_node_line u j n (cstr state))) \/
        ((cstr nodename ∉ node_names u) /\ lookup_user st' username = Some u)
    | None => lookup_user st' username = None
    end /\
    forall other, lower other <> lower username -> lookup_user st' other = lookup_user st other.
Proof.
  intros Hwf Hlen. unfold chatSetOrGetNodeInfo.
  destruct (fetch_spec st username Hwf) as (d & Hwf1 & Hm & Hf).
  destruct (lookup_user st username) as [u|] eqn:Hlk.
  2:{ destruct Hf as [-> _]. simpl. exists (set_dict st d).
      split_and!; [done..|by rewrite lookup_set_dict|intros; by apply lookup_set_dict]. }
  destruct Hf as (p & -> & Hp & Hok & Hn). cbn [obind]. simpl records. rewrite Hp. cbn [obind].
  destruct (user_ok_find u nodename Hok) as (r & -> & Hr). cbn [obind]. destruct r as [j|].
  2:{ exists (set_dict st d). split_and!; [done..| |intros; by apply lookup_set_dict].
      right. split; [|by rewrite lookup_set_dict].
      intros (x & Hx & Hin)%list_elem_of_fmap. by apply (Hr x Hin). }
  destruct Hr as (n & Hlj & Hj & Hnn & Hnok). rewrite Hj.
  cbn [obind OPERATION_SET_INFO OPERATION_GET_INFO Z.eqb Pos.eqb].
  rewrite sprintf_Some by done. cbn [obind]. eexists. split; [done|].
  fold (with_node_line u j n (cstr state)).
  destruct (lookup_user_update st d p u (with_node_line u j n (cstr state)) username)
    as [Hl Ho]; [done..|].
  split_and!; [|done|left; by exists j, n|done].
  apply (ut_wf_update (set_dict st d) p u); [done|done| |done|done].
  apply with_node_line_ok; [done|done|apply cstr_idem|done].
Qed.

(** Every node lookup that does not write leaves the table as it is. *)
Lemma chatGetNodeInfo_spec st username nodename state :
  ut_wf st ->
  exists d out, chatSetOrGetNodeInfo st username nodename state OPERATION_GET_INFO =
      Some (set_dict st d, out) /\
    ut_wf (set_dict st d) /\ ud_map d = ud_map (myuserdict st) /\
    match lookup_user st username with
    | Some u =>
        (exists n, n ∈ live_nodes u /\ n_name n = cstr nodename /\ out = n_line n) \/
        ((cstr nodename ∉ node_names u) /\ out = state)
    | None => out = state
    end.
Proof.
  intros Hwf. unfold chatSetOrGetNodeInfo.
  destruct (fetch_spec st username Hwf) as (d & Hwf1 & Hm & Hf). exists d.
  destruct (lookup_user st username) as [u|] eqn:Hlk; [|destruct Hf as [-> _]; by exists state].
  destruct Hf as (p & -> & Hp & Hok & Hn). cbn [obind]. simpl records. rewrite Hp. cbn [obind].
  destruct (user_ok_find u nodename Hok) as (r & -> & Hr). cbn [obind]. destruct r as [j|].
  2:{ exists state. split_and!; [done..|]. right. split; [|done].
      intros (x & Hx & Hin)%list_elem_of_fmap. by apply (Hr x Hin). }
  destruct Hr as (n & Hlj & Hj & Hnn & Hnok). rewrite Hj.
  cbn [obind OPERATION_SET_INFO OPERATION_GET_INFO Z.eqb Pos.eqb].
  rewrite sprintf_Some
    by (pose proof (node_line_len _ Hnok); unfold MYNODE_LINE_LENGTH, MY_NAME_LENGTH in *; lia).
  cbn [obind]. exists (n_line n). split_and!; [done..|]. left. exists n.
  split_and!; [|done|done]. apply list_elem_of_lookup. by exists j.
Qed.


(** The linked list holds exactly the records the dictionary resolves. *)
Lemma all_users_spec st :
  ut_wf st ->
  exists us, all_users st = Some us /\ NoDup (lower ∘ u_name <$> us) /\
    (forall u, u ∈ us <-> lookup_user st (u_name u) = Some u).
Proof.
  intros Hwf. destruct (wf_list _ Hwf) as (ps & Hc & Hnd & Hdom & _).
  destruct (chain_walk _ _ ps (base.size (records st)) Hc) as (us & Hus & Hall).
  { by rewrite (chain_length _ ps Hnd Hdom). }
  exists us. split; [done|]. split.
  - clear Hc Hdom Hus. induction Hall as [|p u ps us Hp Hall IH]; simpl; [constructor|].
    apply NoDup_cons in Hnd as [Hni Hnd]. constructor; [|by apply IH].
    intros (w & Hw & Hin)%list_elem_of_fmap. apply Hni.
    apply list_elem_of_lookup in Hin as [i Hi].
    destruct (Forall2_lookup_r _ _ _ _ _ Hall Hi) as (q & Hq & Hqw).
    assert (ud_map (myuserdict st) !! lower (u_name u) = Some p) as H1
      by (apply (wf_keys _ Hwf); by exists u).
    assert (ud_map (myuserdict st) !! lower (u_name w) = Some q) as H2
      by (apply (wf_keys _ Hwf); by exists w).
    unfold compose in Hw. rewrite Hw in H1. assert (p = q) as -> by congruence.
    apply list_elem_of_lookup. by exists i.
  - intros u. unfold lookup_user. split.
    + intros [i Hi]%list_elem_of_lookup.
      destruct (Forall2_lookup_r _ _ _ _ _ Hall Hi) as (q & _ & Hq).
      assert (ud_map (myuserdict st) !! lower (u_name u) = Some q) as ->
        by (apply (wf_keys _ Hwf); by exists u). done.
    + intros Hu. destruct (ud_map _ !! _) as [q|]; [|done].
      assert (q ∈ ps) as [i Hi]%list_elem_of_lookup by (apply Hdom; by exists u).
      destruct (Forall2_lookup_l _ _ _ _ _ Hall Hi) as (w & Hw & Hqw). simplify_eq.
      apply list_elem_of_lookup. by exists i.
Qed.

Lemma find_userid_walk fuel rs p userid us :
  walk fuel rs p = Some us ->
  find_userid fuel rs p userid =
    Some (u_name <$> head (filter (fun u => cstr userid = cstr (u_userid u)) us)).
Proof.
  revert p us. induction fuel as [|fuel IH]; intros [p|] us; simpl;
    [done|by intros [= <-]| |by intros [= <-]].
  intros (u & Hu & Hw)%obind_Some. apply obind_Some in Hw as (us' & Hw & [= <-]).
  rewrite Hu. simpl. rewrite filter_cons. unfold streq.
  case_bool_decide; [by rewrite decide_True|]. rewrite decide_False by done. by apply IH.
Qed.

(** Both reply builders are defined as long as their lines fit. *)
Lemma format_all_Some {A} (fmt : A -> list Z) xs :
  Forall (fun x => zlen (fmt x) < 256) xs -> format_all fmt xs = Some (fmt <$> xs).
Proof.
  induction 1 as [|x xs Hx _ IH]; [done|]. simpl. rewrite sprintf_Some by done. simpl.
  by rewrite IH.
Qed.

(** ** Sequences of table operations *)

Inductive table_op :=
  | InsertUser (userid username : list Z)
  | InsertNode (username nodename : list Z)
  | SetUser (username state : list Z)
  | SetNode (username nodename state : list Z).

(** The C strings fit the arrays they are copied to. *)
Definition op_fits (op : table_op) : Prop :=
  match op with
  | InsertUser userid username =>
      strlen userid < MY_NAME_LENGTH /\ strlen username < MY_NAME_LENGTH
  | InsertNode _ nodename => strlen nodename < MY_NAME_LENGTH
  | SetUser _ state => strlen state < MY_NAME_LENGTH
  | SetNode _ _ state => strlen state < MYNODE_LINE_LENGTH
  end.

Definition run_op st (op : table_op) : option (usertable D) :=
  match op with
  | InsertUser userid username => insertUserInfo st userid username
  | InsertNode username nodename => let? (st, _) := insertNodeToUserInfo st username nodename in Some st
  | SetUser username state =>
      let? (st, _) := chatSetOrGetUserInfo st username state OPERATION_SET_INFO in Some st
  | SetNode username nodename state =>
      let? (st, _) := chatSetOrGetNodeInfo st username nodename state OPERATION_SET_INFO in Some st
  end.

Fixpoint run_ops st (ops : list table_op) : option (usertable D) :=
  match ops with
  | [] => Some st
  | op :: ops => let? st := run_op st op in run_ops st ops
  end.

Abbreviation users_of st := (ud_map (myuserdict st)).

Lemma run_op_wf st op :
  ut_wf st -> op_fits op -> Z.of_nat (base.size (users_of st)) < 2 ^ 29 ->
  exists st', run_op st op = Some st' /\ ut_wf st' /\
    (base.size (users_of st') <= S (base.size (users_of st)))%nat.
Proof.
  intros Hwf Hfit Hsz. destruct op as [uid name|name node|name state|name node state]; simpl in *.
  - destruct Hfit as [Hu Hn].
    destruct (insertUserInfo_spec st uid name Hwf Hn Hu Hsz) as (st' & Hi & Hwf' & Hcase).
    exists st'. split_and!; [done..|]. destruct (lookup_user st name).
    + destruct Hcase as (_ & _ & ->). lia.
    + destruct Hcase as (_ & _ & _ & ->). rewrite map_size_insert.
      destruct (_ !! _); unfold id; lia.
  - destruct (insertNodeToUserInfo_spec st name node Hwf Hfit) as (st' & r & -> & ? & Hm & _).
    exists st'. simpl. rewrite Hm. split_and!; [done..|lia].
  - destruct (chatSetUserInfo_spec st name state Hwf Hfit) as (st' & -> & ? & Hm & _).
    exists st'. simpl. rewrite Hm. split_and!; [done..|lia].
  - destruct (chatSetNodeInfo_spec st name node state Hwf Hfit) as (st' & -> & ? & Hm & _).
    exists st'. simpl. rewrite Hm. split_and!; [done..|lia].
Qed.

Lemma run_ops_wf ops st :
  ut_wf st -> Forall op_fits ops -> Z.of_nat (base.size (users_of st)) + zlen ops < 2 ^ 29 ->
  exists st', run_ops st ops = Some st' /\ ut_wf st'.
Proof.
  revert st. induction ops as [|op ops IH]; intros st Hwf Hall Hsz; simpl in *; [by exists st|].
  apply Forall_cons in Hall as [Hop Hall].
  destruct (run_op_wf st op Hwf Hop) as (st1 & -> & Hwf1 & Hs1); [lia|]. simpl.
  apply IH; [done..|]. lia.
Qed.

Lemma empty_table_wf : ut_wf empty_table.
Proof.
  constructor; simpl.
  - apply ud_create_wf.
  - intros k p. rewrite ud_create_map, lookup_empty. split; [done|].
    intros (u & Hu & _). by rewrite lookup_empty in Hu.
  - intros p u Hp. by rewrite lookup_empty in Hp.
  - intros p Hp. rewrite lookup_empty in Hp. by destruct Hp.
  - exists []. split_and!; [constructor|constructor| |done].
    intros p. rewrite lookup_empty. split; [by intros ?%not_elem_of_nil|by intros []].
Qed.

(** C14: the user table stays consistent.  Any sequence of fewer than 2^29
    table operations whose strings fit their arrays runs without a buffer
    overflow, a stray pointer or an out-of-range node slot, and afterwards
    the linked list of users is acyclic and complete: it yields exactly the
    records the dictionary resolves, one per name up to case. *)
Theorem user_table_consistent ops :
  Forall op_fits ops -> zlen ops < 2 ^ 29 ->
  exists st us, run_ops empty_table ops = Some st /\ all_users st = Some us /\
    NoDup (lower ∘ u_name <$> us) /\
    (forall u, u ∈ us <-> lookup_user st (u_name u) = Some u) /\
    Forall user_ok us.
Proof.
  intros Hall Hsz. destruct (run_ops_wf ops empty_table empty_table_wf Hall) as (st & Hrun & Hwf).
  { simpl. by rewrite ud_create_map, map_size_empty. }
  destruct (all_users_spec st Hwf) as (us & Hus & Hnd & Hin). exists st, us.
  split_and!; [done..|]. apply Forall_forall. intros u Hu%Hin. unfold lookup_user in Hu.
  destruct (ud_map _ !! _); [|done]. by eapply wf_users.
Qed.

(** A user has at most six nodes.  [insertNodeToUserInfo] reports an
    unknown user with -2, an existing node with 0 and a full user with -1,
    changing nothing, and otherwise appends the node, off line, to that user
    alone and reports 1. *)
Theorem insertNodeToUserInfo_result st username nodename :
  ut_wf st -> strlen nodename < MY_NAME_LENGTH ->
  exists st' r, insertNodeToUserInfo st username nodename = Some (st', r) /\ ut_wf st' /\
    match lookup_user st username with
    | None => r = -2 /\ records st' = records st
    | Some u =>
        (r = 0 /\ cstr nodename ∈ node_names u /\ records st' = records st) \/
        (r = -1 /\ (cstr nodename ∉ node_names u) /\
           length (live_nodes u) = 6%nat /\ records st' = records st) \/
        (r = 1 /\ (cstr nodename ∉ node_names u) /\
           exists u', lookup_user st' username = Some u' /\
             live_nodes u' = live_nodes u ++ [mkNode (cstr nodename) (bytes_of_string "off")] /\
             forall other, lower other <> lower username ->
               lookup_user st' other = lookup_user st other)
    end.
Proof.
  intros Hwf Hlen.
  destruct (insertNodeToUserInfo_spec st username nodename Hwf Hlen)
    as (st' & r & Hr & Hwf' & _ & _ & Hcase). exists st', r. split; [done|]. split; [done|].
  destruct (fetch_spec st username Hwf) as (d & _ & _ & Hf).
  destruct (lookup_user st username) as [u|]; [|done]. destruct Hf as (_ & _ & _ & Hok & _).
  destruct Hcase as [?|[(? & ? & Hi & ?)|(? & ? & Hi & Hl & Ho)]]; [by left|right; left|right; right].
  - split_and!; [done..| |done]. rewrite (live_nodes_length u Hok), Hi. done.
  - split_and!; [done..|]. eexists. split; [done|]. split; [by apply live_with_node|done].
Qed.

(** Line states are read back as written.  After the state of a known
    user, or of one of its nodes, is set, reading it returns the new state,
    and the records of all other users are unchanged. *)
Theorem line_state_roundtrip st username nodename state u :
  ut_wf st -> strlen state < MYNODE_LINE_LENGTH -> lookup_user st username = Some u ->
  cstr nodename ∈ node_names u ->
  exists st1 st2 st3 st4,
    chatSetOrGetUserInfo st username state OPERATION_SET_INFO = Some (st1, state) /\
    chatSetOrGetUserInfo st1 username [] OPERATION_GET_INFO = Some (st2, cstr state) /\
    chatSetOrGetNodeInfo st username nodename state OPERATION_SET_INFO = Some (st3, state) /\
    chatSetOrGetNodeInfo st3 username nodename [] OPERATION_GET_INFO = Some (st4, cstr state) /\
    forall other, lower other <> lower username ->
      lookup_user st2 other = lookup_user st other /\
      lookup_user st4 other = lookup_user st other.
Proof.
  intros Hwf Hlen Hu Hnode.
  destruct (chatSetUserInfo_spec st username state Hwf) as (st1 & E1 & Hwf1 & Hm1 & Hl1 & Ho1).
  { unfold MYNODE_LINE_LENGTH, MY_NAME_LENGTH in *. lia. }
  destruct (chatGetUserInfo_spec st1 username [] Hwf1) as (d2 & E2 & _ & Hm2).
  destruct (chatSetNodeInfo_spec st username nodename state Hwf Hlen)
    as (st3 & E3 & Hwf3 & Hm3 & Hl3 & Ho3).
  destruct (chatGetNodeInfo_spec st3 username nodename [] Hwf3) as (d4 & out & E4 & _ & Hm4 & Hc4).
  rewrite Hu in Hl1, Hl3. rewrite Hl1 in E2.
  assert (out = cstr state) as ->.
  { destruct Hl3 as [(j & n & Hj & Hn & Hl3)|[Hn _]]; [|done]. rewrite Hl3 in Hc4.
    destruct (fetch_spec st username Hwf) as (d & _ & _ & Hf). rewrite Hu in Hf.
    destruct Hf as (_ & _ & _ & Hok & _).
    destruct (with_node_line_read u j n (cstr state) Hok Hj (cstr_idem _) Hlen) as [Hin Hread].
    destruct Hc4 as [(m & Hm & Hmn & ->)|[Hno _]]; [apply (Hread m Hm); congruence|].
    exfalso. apply Hno. rewrite <- Hn. apply list_elem_of_fmap.
    exists (mkNode (n_name n) (cstr state)). by split. }
  eexists st1, _, st3, _. split_and!; [done..|]. intros other Ho.
  rewrite !lookup_set_dict by done. auto.
Qed.

End Invariant.

End Users.

(** ** The hash table of dict.c implements the table's dictionary *)

Module DictImpl.
Import DictRefinement Users.

Section Impl.
Context (seed : Z) (can_resize : bool).

Abbreviation ty := (commandTableDictType (V := nat) seed).

#[export] Instance dict_userdict : UserDict (dict cstring nat) nat := {
  ud_create := dictCreate;
  ud_fetch d k := dictFetchValue ty d k;
  ud_add d k p := dictAdd ty can_resize d k p;
  ud_iter d := let? (d, es) := dict_iterate d in Some (d, omap v es)
}.

(** Every entry has its value, and no iteration is in progress. *)
Record impl_wf (d : dict cstring nat) : Prop := {
  impl_dict : dict_wf ty canon_case d;
  impl_vals : forall k o, dict_map canon_case d !! k = Some o -> is_Some o;
  impl_iter : iterators d = 0
}.

Definition impl_map (d : dict cstring nat) : gmap (list Z) nat := omap id (dict_map canon_case d).

Lemma impl_map_lookup d k : impl_map d !! k = mjoin (dict_map canon_case d !! k).
Proof. unfold impl_map. rewrite lookup_omap. by destruct (dict_map canon_case d !! k). Qed.

Lemma impl_map_size d :
  impl_wf d -> dict_map canon_case d = Some <$> impl_map d.
Proof.
  intros Hwf. apply map_eq. intros k. rewrite lookup_fmap, impl_map_lookup.
  destruct (dict_map canon_case d !! k) as [o|] eqn:E; [|done].
  destruct (impl_vals _ Hwf k o E) as [p ->]. done.
Qed.

Lemma impl_fetch d k :
  impl_wf d ->
  exists d', ud_fetch d k = Some (d', impl_map d !! canon_case k) /\
    impl_wf d' /\ impl_map d' = impl_map d.
Proof.
  intros [Hwf Hv Hi]. destruct (dictFetchValue_spec ty canon_case d k Hwf) as (d' & Hd & Hwf' & Hm).
  exists d'. simpl. rewrite impl_map_lookup. split; [done|].
  split; [constructor; [done|by rewrite Hm|]|unfold impl_map; by rewrite Hm].
  by rewrite (dictFetchValue_iterators _ _ _ _ _ Hd).
Qed.

Lemma impl_add d k x :
  impl_wf d -> Z.of_nat (base.size (impl_map d)) < 2 ^ 29 -> impl_map d !! canon_case k = None ->
  exists d', ud_add d k x = Some (d', DICT_OK) /\
    impl_wf d' /\ impl_map d' = <[canon_case k := x]> (impl_map d).
Proof.
  intros Hw Hsz Hk. pose proof Hw as [Hwf Hv Hi].
  assert (zlen (entries d) < 2 ^ 29) as Hlen.
  { rewrite (entries_size ty canon_case d Hwf), (impl_map_size d Hw), map_size_fmap. done. }
  destruct (dictAdd_spec ty canon_case can_resize d k x Hwf Hlen) as (d' & st & Hd & Hwf' & Hc).
  destruct Hc as [(-> & Hn & Hm)|(-> & [o Ho] & _)].
  2:{ exfalso. rewrite impl_map_lookup, Ho in Hk. destruct (Hv _ _ Ho) as [p ->]. done. }
  exists d'. split; [done|]. split; [constructor; [done| |]|].
  - intros k' o. rewrite Hm. destruct (decide (canon_case k = k')) as [<-|Hne].
    + rewrite lookup_insert_eq. intros [= <-]. eauto.
    + rewrite lookup_insert_ne by done. apply Hv.
  - by rewrite (dictAdd_iterators _ _ _ _ _ _ _ Hd).
  - unfold impl_map. rewrite Hm. by rewrite (omap_insert_Some _ _ _ _ x).
Qed.

Lemma impl_iterate d :
  impl_wf d ->
  exists vs, ud_iter d = Some (d, vs) /\ vs ≡ₚ (map_to_list (impl_map d)).*2.
Proof.
  intros Hw. pose proof Hw as [Hwf Hv Hi]. simpl.
  rewrite (dict_iterate_spec ty canon_case d Hwf) by (rewrite Hi; cint). simpl.
  eexists. split; [done|].
  assert (forall (l : list (dictEntry cstring nat)) (m : gmap (list Z) nat),
    assoc canon_case l ≡ₚ prod_map id Some <$> map_to_list m ->
    omap v l ≡ₚ (map_to_list m).*2) as Hgen.
  { intros l m Hp. assert (omap v l = omap snd (assoc canon_case l)) as ->.
    { clear. induction l as [|e l IH]; [done|]. csimpl. by rewrite IH. }
    rewrite Hp. clear. induction (map_to_list m) as [|[a b] l IH]; [done|]. csimpl. by rewrite IH. }
  apply Hgen. rewrite <- map_to_list_fmap, <- (impl_map_size d Hw).
  symmetry. apply map_to_list_to_map. rewrite assoc_fst. apply Hwf.
Qed.

Lemma impl_create : impl_wf ud_create.
Proof.
  destruct (dict_wf_create ty canon_case) as [Hwf Hm]. constructor; [done| |done].
  intros k o. simpl. by rewrite Hm, lookup_empty.
Qed.

Lemma impl_create_map : impl_map ud_create = ∅.
Proof.
  unfold impl_map. simpl. destruct (dict_wf_create ty canon_case) as [_ ->]. apply omap_empty.
Qed.

#[export] Instance dict_userdict_spec : UserDictSpec (dict cstring nat) nat := {
  ud_wf := impl_wf;
  ud_map := impl_map;
  ud_create_wf := impl_create;
  ud_create_map := impl_create_map;
  ud_fetch_spec := impl_fetch;
  ud_add_spec := impl_add;
  ud_iter_spec := impl_iterate
}.

End Impl.

(** ** The table theorems on the hash table *)

#[local] Instance ud5381 : UserDict (dict cstring nat) nat := dict_userdict 5381 true.
#[local] Instance ud5381_spec : UserDictSpec (dict cstring nat) nat := dict_userdict_spec 5381 true.

Definition some_table_ops : list table_op :=
  [InsertUser (bytes_of_string "id1") (bytes_of_string "alice");
   InsertUser (bytes_of_string "id2") (bytes_of_string "Bob");
   InsertUser (bytes_of_string "id3") (bytes_of_string "ALICE");
   InsertNode (bytes_of_string "alice") (bytes_of_string "tv");
   SetUser (bytes_of_string "bob") (bytes_of_string "on")].

Lemma some_table_ops_fit : Forall op_fits some_table_ops.
Proof. repeat constructor; by vm_compute. Qed.

Lemma user_table_consistent_witness :
  exists st us, run_ops empty_table some_table_ops = Some st /\ all_users st = Some us /\
    NoDup (lower ∘ u_name <$> us) /\
    (forall u, u ∈ us <-> lookup_user st (u_name u) = Some u) /\
    Forall user_ok us.
Proof.
  apply (user_table_consistent some_table_ops); [apply some_table_ops_fit|by vm_compute].
Defined.

Definition some_table : usertable (dict cstring nat) :=
  default empty_table (run_ops empty_table some_table_ops).

Lemma some_table_wf : ut_wf some_table.
Proof.
  destruct (run_ops_wf some_table_ops empty_table empty_table_wf some_table_ops_fit) as (st & Hs & Hwf).
  { by vm_compute. }
  unfold some_table. by rewrite Hs.
Qed.

Lemma insertNodeToUserInfo_result_witness :
  exists st' r,
    insertNodeToUserInfo some_table (bytes_of_string "Alice") (bytes_of_string "lamp") = Some (st', r) /\
    ut_wf st' /\
    match lookup_user some_table (bytes_of_string "Alice") with
    | None => r = -2 /\ records st' = records some_table
    | Some u =>
        (r = 0 /\ cstr (bytes_of_string "lamp") ∈ node_names u /\ records st' = records some_table) \/
        (r = -1 /\ (cstr (bytes_of_string "lamp") ∉ node_names u) /\
           length (live_nodes u) = 6%nat /\ records st' = records some_table) \/
        (r = 1 /\ (cstr (bytes_of_string "lamp") ∉ node_names u) /\
           exists u', lookup_user st' (bytes_of_string "Alice") = Some u' /\
             live_nodes u' = live_nodes u ++
               [mkNode (cstr (bytes_of_string "lamp")) (bytes_of_string "off")] /\
             forall other, lower other <> lower (bytes_of_string "Alice") ->
               lookup_user st' other = lookup_user some_table other)
    end.
Proof.
  apply (insertNodeToUserInfo_result some_table (bytes_of_string "Alice") (bytes_of_string "lamp"));
    [apply some_table_wf|done].
Defined.

Definition some_user : MyNodeUserInfo :=
  default newMyNodeUserInfo (lookup_user some_table (bytes_of_string "alice")).

Lemma line_state_roundtrip_witness :
  exists st1 st2 st3 st4,
    let alice := bytes_of_string "alice" in
    let tv := bytes_of_string "tv" in
    let on := bytes_of_string "on" in
    chatSetOrGetUserInfo some_table alice on OPERATION_SET_INFO = Some (st1, on) /\
    chatSetOrGetUserInfo st1 alice [] OPERATION_GET_INFO = Some (st2, cstr on) /\
    chatSetOrGetNodeInfo some_table alice tv on OPERATION_SET_INFO = Some (st3, on) /\
    chatSetOrGetNodeInfo st3 alice tv [] OPERATION_GET_INFO = Some (st4, cstr on) /\
    forall other, lower other <> lower alice ->
      lookup_user st2 other = lookup_user some_table other /\
      lookup_user st4 other = lookup_user some_table other.
Proof.
  apply (line_state_roundtrip some_table (bytes_of_string "alice") (bytes_of_string "tv")
           (bytes_of_string "on") some_user); [apply some_table_wf|done|by vm_compute|].
  vm_compute. left.
Defined.

End DictImpl.
