(* ===== verification/Chat.v ===== *)
(** * mychat.c, mydebug.c, mydump.c: the chat and node commands

    The server keeps the connected clients on a list and the users in the
    table of [UserTable]; commands read and write both, and queue replies on
    the output buffers of the clients concerned. *)

From S2P Require Import Prelude Dict DictSpec Reply UserTable.
Import HashTable Output Users.

Module Chat.

Definition MYNODE_TYPE_USER : Z := 0.
Definition MYNODE_TYPE_NODE : Z := 1.
Definition MYCHAT_MAX_MESSAGE : Z := 70.
Definition MY_REDIS_ROOT_NAME : list Z := bytes_of_string "root".

Definition errChatInvalidUser := bytes_of_string "chat fail invalidUser" ++ CRLF.
Definition errChatTooBigMsg := bytes_of_string "chat fail tooBigMessage" ++ CRLF.
Definition errWrongNameOrPwd := bytes_of_string "login fail wrongNameOrPasswd" ++ CRLF.
Definition errAlreadyLogin := bytes_of_string "login fail alreadyLogin" ++ CRLF.
Definition errTooManyNodes := bytes_of_string "login fail tooManyNode" ++ CRLF.
Definition errNodeNoLogin := bytes_of_string "node fail nologin" ++ CRLF.

Definition s_all := bytes_of_string "all".
Definition s_on := bytes_of_string "on".
Definition s_off := bytes_of_string "off".

(** The fields of [redisClient] these commands use; the names are the C
    strings in the client's arrays. *)
Record redisClient := Client {
  out : outbuf;
  userid : list Z;
  username : list Z;
  nodename : list Z;
  password : list Z;
  isvaliduser : Z;
  isvalidnode : Z;
  mynode_type : Z;
  lastinteraction : Z
}.

Definition set_out (c : redisClient) (o : outbuf) : redisClient :=
  Client o (userid c) (username c) (nodename c) (password c)
    (isvaliduser c) (isvalidnode c) (mynode_type c) (lastinteraction c).
Definition set_valid (c : redisClient) (u n : Z) : redisClient :=
  Client (out c) (userid c) (username c) (nodename c) (password c)
    u n (mynode_type c) (lastinteraction c).
Definition set_type (c : redisClient) (t : Z) : redisClient :=
  Client (out c) (userid c) (username c) (nodename c) (password c)
    (isvaliduser c) (isvalidnode c) t (lastinteraction c).
Definition set_names (c : redisClient) (uid un nn pw : list Z) : redisClient :=
  Client (out c) uid un nn pw
    (isvaliduser c) (isvalidnode c) (mynode_type c) (lastinteraction c).
Definition set_time (c : redisClient) (t : Z) : redisClient :=
  Client (out c) (userid c) (username c) (nodename c) (password c)
    (isvaliduser c) (isvalidnode c) (mynode_type c) t.

Section Chat.
Context {D : Type} `{!UserDict D nat}.

(** Whether the event loop accepts a write handler for a descriptor. *)
Context (ae : Z -> bool).

(** The MySQL client library: a query gives its rows or fails; a command
    changes the database. *)
Context {DB : Type} (db_query : DB -> list Z -> option (list (list (list Z))))
        (db_exec : DB -> list Z -> DB).

(** The server: [server.clients] as addresses, the client objects, the user
    table, the database and the clock. *)
Record server := Server {
  clients : list nat;
  objects : gmap nat redisClient;
  users : usertable D;
  db : DB;
  unixtime : Z
}.

Definition set_objects (s : server) (o : gmap nat redisClient) : server :=
  Server (clients s) o (users s) (db s) (unixtime s).
Definition set_users (s : server) (u : usertable D) : server :=
  Server (clients s) (objects s) u (db s) (unixtime s).
Definition set_clients (s : server) (l : list nat) : server :=
  Server l (objects s) (users s) (db s) (unixtime s).
Definition set_db (s : server) (d : DB) : server :=
  Server (clients s) (objects s) (users s) d (unixtime s).

(** Update one client object. *)
Definition upd (s : server) (p : nat) (f : redisClient -> redisClient) : option server :=
  let? c := objects s !! p in Some (set_objects s (<[p := f c]> (objects s))).

Definition reply_to (s : server) (p : nat) (text : list Z) : option server :=
  upd s p (fun c => set_out c (addReplyString ae (out c) text)).

Fixpoint reply_lines (s : server) (p : nat) (ls : list (list Z)) : option server :=
  match ls with
  | [] => Some s
  | l :: ls => let? s := reply_to s p l in reply_lines s p ls
  end.

(** [c->argv[i]->ptr] as a C string. *)
Definition arg (argv : list (list Z)) (i : nat) : option (list Z) :=
  let? a := argv !! i in Some (cstr a).

(** ** Delivery *)

(** Is this client addressed by [to]? *)
Definition addressed (c : redisClient) (to : list Z) (toType : Z) : bool :=
  if negb (mynode_type c =? toType) then false
  else if toType =? MYNODE_TYPE_NODE then streq to s_all || streq (nodename c) to
  else if toType =? MYNODE_TYPE_USER then streq to s_all || streq (username c) to
  else true.

(** [snprintf(sbuf, sizeof(sbuf), ...)] into [char sbuf[1024] = {0}], and the
    [slen] bytes [addReplyString] then reads from it. *)
Definition snprintf_reply (text : list Z) : option (list Z) :=
  let slen := zlen text in
  if slen <=? 1024 then Some (take (Z.to_nat slen) (take 1023 text ++ [0])) else None.

Definition message_text (tag from message : list Z) : list Z :=
  tag ++ bytes_of_string " ok " ++ from ++ [32] ++ message ++ CRLF.

Fixpoint send_loop_clients (ps : list nat) (s : server)
  (tag from to message : list Z) (toType : Z) : option server :=
  match ps with
  | [] => Some s
  | p :: ps =>
      let? c := objects s !! p in
      if addressed c to toType then
        let? text := snprintf_reply (message_text tag from message) in
        let? s := reply_to s p text in
        send_loop_clients ps s tag from to message toType
      else send_loop_clients ps s tag from to message toType
  end.

Definition _chatSend (s : server) (tag from to message : list Z) (toType : Z) : option server :=
  send_loop_clients (clients s) s tag from to message toType.

Definition chatNotifyUserInfo (s : server) (p : nat) : option server :=
  let? c := objects s !! p in
  if (isvaliduser c =? 0) || (isvalidnode c =? 0) then Some s
  else if mynode_type c =? MYNODE_TYPE_USER then
    let? s := _chatSend s (bytes_of_string "userinfo") (username c) s_all s_off MYNODE_TYPE_USER in
    let? (u, _) := chatSetOrGetUserInfo (users s) (username c) s_off OPERATION_SET_INFO in
    Some (set_users s u)
  else if mynode_type c =? MYNODE_TYPE_NODE then
    let? s := _chatSend s (bytes_of_string "nodeinfo") (nodename c) (username c) s_off
                MYNODE_TYPE_USER in
    let? (u, _) := chatSetOrGetNodeInfo (users s) (username c) (nodename c) s_off
                     OPERATION_SET_INFO in
    Some (set_users s u)
  else Some s.

Definition chatSay (s : server) (p : nat) (argv : list (list Z)) : option server :=
  let? c := objects s !! p in
  if isvaliduser c =? 0 then reply_to s p errChatInvalidUser
  else
    let? msg := arg argv 3 in
    if MYCHAT_MAX_MESSAGE <? zlen msg then reply_to s p errChatTooBigMsg
    else
      let? to := arg argv 2 in
      _chatSend s (bytes_of_string "chat") (username c) to msg MYNODE_TYPE_USER.

(** ** Logging in *)

(** is_valid_user (mydump.c): one row must match; a failing query is a
    refusal. *)
Definition is_valid_user (s : server) (name pwd : list Z) : option Z :=
  let? query := sprintf 256
    (bytes_of_string "select  *  from alluser where name='" ++ name ++
     bytes_of_string "' and password='" ++ pwd ++ bytes_of_string "' ;") in
  match db_query (db s) query with
  | None => Some 0
  | Some [] => Some 0
  | Some (_ :: _) => Some 1
  end.

Definition mysqlRunCommand (s : server) (cmd : list Z) : server :=
  set_db s (db_exec (db s) cmd).

(** Refuse a login with a message. *)
Definition refuse (s : server) (p : nat) (msg : list Z) : option server :=
  let? s := reply_to s p msg in
  upd s p (fun c => set_valid c 0 0).

Definition chatUserInfoReply (s : server) (p : nat) : option server :=
  let? ls := chatUserInfo (users s) in
  reply_lines s p ls.

(** An account that is not in the table has no id: [sprintf] is then given a
    null pointer. *)
Definition chatLogin (s : server) (p : nat) (argv : list (list Z)) : option server :=
  let? c := objects s !! p in
  if negb (isvaliduser c =? 0) || negb (isvalidnode c =? 0) then reply_to s p errAlreadyLogin
  else
    let? name := arg argv 2 in
    let? pwd := arg argv 3 in
    let? ret := is_valid_user s name pwd in
    if ret <=? 0 then refuse s p errWrongNameOrPwd
    else
      let? (u, state) := chatSetOrGetUserInfo (users s) name [] OPERATION_GET_INFO in
      let s := set_users s u in
      if streq state s_on then refuse s p errAlreadyLogin
      else
        let? s := upd s p (fun c => set_type (set_valid c 1 1) MYNODE_TYPE_USER) in
        let? (u, _) := chatSetOrGetUserInfo (users s) name s_on OPERATION_SET_INFO in
        let s := set_users s u in
        let? s := _chatSend s (bytes_of_string "userinfo") name s_all s_on MYNODE_TYPE_USER in
        let? un := sprintf MY_NAME_LENGTH name in
        let? pw := sprintf MY_NAME_LENGTH pwd in
        let? s := upd s p (fun c => set_names c (userid c) un (nodename c) pw) in
        let? (u, uid) := getUseridByName (users s) un in
        let s := set_users s u in
        let? uid := uid in
        let? buf := sprintf 256 (bytes_of_string "login ok " ++ uid ++ CRLF) in
        let? s := reply_to s p buf in
        let? (u, ls) := getAllNodeInfo (users s) un in
        let s := set_users s u in
        let? s := reply_lines s p ls in
        chatUserInfoReply s p.

Definition nodeLogin (s : server) (p : nat) (argv : list (list Z)) : option server :=
  let? c := objects s !! p in
  if negb (isvaliduser c =? 0) || negb (isvalidnode c =? 0) then reply_to s p errAlreadyLogin
  else
    let? uid := arg argv 2 in
    let? node := arg argv 3 in
    let? name := getNameByUserid (users s) uid in
    match name with
    | None => refuse s p errWrongNameOrPwd
    | Some name =>
        let? (u, _) := getUserNodeSize (users s) name in
        let s := set_users s u in
        let? (u, state) := chatSetOrGetNodeInfo (users s) (username c) (nodename c) []
                             OPERATION_GET_INFO in
        let s := set_users s u in
        if streq state s_on then refuse s p errAlreadyLogin
        else
          let? (u, ret) := insertNodeToUserInfo (users s) name node in
          let s := set_users s u in
          if ret =? -1 then refuse s p errTooManyNodes
          else
            let? s :=
              if ret =? 1 then
                let? cmd := sprintf 256
                  (bytes_of_string "insert into node values('" ++ uid ++
                   bytes_of_string "', '" ++ node ++ bytes_of_string "',  '0','0');") in
                Some (mysqlRunCommand s cmd)
              else Some s in
            let? buf := sprintf 256 (bytes_of_string "login ok " ++ name ++ CRLF) in
            let? s := reply_to s p buf in
            let? un := sprintf MY_NAME_LENGTH name in
            let? ui := sprintf MY_NAME_LENGTH uid in
            let? nn := sprintf MY_NAME_LENGTH node in
            let? s := upd s p (fun c =>
              set_names (set_type (set_valid c 1 1) MYNODE_TYPE_NODE) ui un nn (password c)) in
            let? s := _chatSend s (bytes_of_string "nodeinfo") nn un s_on MYNODE_TYPE_USER in
            let? (u, _) := chatSetOrGetNodeInfo (users s) un nn s_on OPERATION_SET_INFO in
            Some (set_users s u)
    end.

Definition nodeSay (s : server) (p : nat) (argv : list (list Z)) : option server :=
  let? c := objects s !! p in
  if mynode_type c =? MYNODE_TYPE_USER then
    let? to := arg argv 2 in
    let? msg := arg argv 3 in
    _chatSend s (bytes_of_string "node") (username c) to msg MYNODE_TYPE_NODE
  else if mynode_type c =? MYNODE_TYPE_NODE then
    let? msg := arg argv 3 in
    _chatSend s (bytes_of_string "node") (nodename c) (username c) msg MYNODE_TYPE_USER
  else Some s.

(** ** The debug commands (mydebug.c) *)

(** [listRotate]: the tail node becomes the head. *)
Definition rotate (l : list nat) : list nat :=
  match last l with Some x => x :: removelast l | None => [] end.

Definition client_line (c : redisClient) : list Z :=
  bytes_of_string "type:" ++ pad_right 5 (fmt_d (mynode_type c)) ++
  bytes_of_string "  name :" ++ pad_right 15 (username c) ++
  bytes_of_string " id:" ++ pad_right 40 (userid c) ++
  bytes_of_string " nodename:" ++ pad_right 15 (nodename c) ++ [32] ++ CRLF.

Fixpoint dump_loop (n : nat) (s : server) (p : nat) : option server :=
  match n with
  | O => Some s
  | S n =>
      let s := set_clients s (rotate (clients s)) in
      let? h := head (clients s) in
      let? ctemp := objects s !! h in
      let? buf := sprintf 256 (client_line ctemp) in
      let? s := reply_to s p buf in
      dump_loop n s p
  end.

Definition dumpClients (s : server) (p : nat) : option server :=
  let numclients := length (clients s) in
  let? buf := sprintf 256
    (bytes_of_string " total " ++ pad_right 6 (fmt_d (Z.of_nat numclients)) ++
     bytes_of_string " client on line" ++ CRLF) in
  let? s := reply_to s p buf in
  dump_loop numclients s p.

Definition user_line (u : MyNodeUserInfo) : list Z :=
  bytes_of_string "username : " ++ pad_right 25 (u_name u) ++
  bytes_of_string " and userid : " ++ pad_right 25 (u_userid u) ++ CRLF ++ [32].

Definition node_line (n : MyNodeInfo) : list Z :=
  bytes_of_string "-----nodename : " ++ pad_right 20 (n_name n) ++
  bytes_of_string "  line :" ++ pad_right 5 (n_line n) ++ CRLF.

Fixpoint dump_users (ps : list nat) (s : server) (p : nat) : option server :=
  match ps with
  | [] => Some s
  | q :: ps =>
      let? u := records (users s) !! q in
      let? buf := sprintf 256 (user_line u) in
      let? s := reply_to s p buf in
      if zlen (u_nodes u) <? u_index u then None
      else
        let? ls := format_all node_line (take (Z.to_nat (u_index u)) (u_nodes u)) in
        let? s := reply_lines s p ls in
        dump_users ps s p
  end.

Definition dumpAlluser (s : server) (p : nat) : option server :=
  let? (d, ps) := ud_iter (myuserdict (users s)) in
  dump_users ps (set_users s (set_dict (users s) d)) p.

Definition myDebugEntry (s : server) (p : nat) : option server :=
  let? c := objects s !! p in
  if negb (streq (username c) MY_REDIS_ROOT_NAME) then Some s
  else let? s := dumpClients s p in dumpAlluser s p.

Definition myAddUser (s : server) (p : nat) (argv : list (list Z)) : option server :=
  let? c := objects s !! p in
  if negb (streq (username c) MY_REDIS_ROOT_NAME) then Some s
  else
    let? uid := arg argv 2 in
    let? name := arg argv 3 in
    let? u := insertUserInfo (users s) uid name in
    Some (set_users s u).

(** ** Dispatch *)

Definition touch (s : server) (p : nat) : option server :=
  upd s p (fun c => set_time c (unixtime s)).

Definition nodeCommand (s : server) (p : nat) (argv : list (list Z)) : option server :=
  let? sub := arg argv 1 in
  if streq sub (bytes_of_string "login") then nodeLogin s p argv
  else
    let? c := objects s !! p in
    if isvalidnode c =? 0 then reply_to s p errNodeNoLogin
    else if streq sub (bytes_of_string "say") then nodeSay s p argv
    else if streq sub (bytes_of_string "heartbeat") then touch s p
    else Some s.

Definition chatCommand (s : server) (p : nat) (argv : list (list Z)) : option server :=
  let? sub := arg argv 1 in
  if streq sub (bytes_of_string "login") then chatLogin s p argv
  else
    let? c := objects s !! p in
    if isvaliduser c =? 0 then reply_to s p errNodeNoLogin
    else if streq sub (bytes_of_string "say") then chatSay s p argv
    else if streq sub (bytes_of_string "userinfo") then chatUserInfoReply s p
    else if streq sub (bytes_of_string "heartbeat") then touch s p
    else if streq sub (bytes_of_string "debug") then myDebugEntry s p
    else if streq sub (bytes_of_string "adduser") then myAddUser s p argv
    else Some s.

(** ** Connections (networking.c, redis.c) *)

(** The part of [createClient] that concerns these fields.  [mynode_type]
    is not among the fields it initialises: [junk] is what the allocator
    left there. *)
Definition createClient (s : server) (p : nat) (fd junk : Z) : server :=
  let c := Client (new_outbuf fd) [] [] [] [] 0 0 junk (unixtime s) in
  Server (clients s ++ [p]) (<[p := c]> (objects s)) (users s) (db s) (unixtime s).

(** [listSearchKey] and [listDelNode]: unlink the first node holding [p]; a
    missing node fails [redisAssert]. *)
Fixpoint del_node (p : nat) (l : list nat) : option (list nat) :=
  match l with
  | [] => None
  | q :: l => if bool_decide (q = p) then Some l else let? l := del_node p l in Some (q :: l)
  end.

(** The part of [freeClient] that concerns these fields: the notification,
    the wiped names, the removal from the list and the release. *)
Definition freeClient (s : server) (p : nat) : option server :=
  let? s := chatNotifyUserInfo s p in
  let? s := upd s p (fun c => set_valid (set_names c [] [] [] []) 0 0) in
  let? rest := del_node p (clients s) in
  Some (Server rest (delete p (objects s)) (users s) (db s) (unixtime s)).

(** [clientsCronHandleTimeout] for an ordinary client (no replication,
    blocking or pub/sub state): idle clients are closed, except root. *)
Definition clientsCronHandleTimeout (maxidletime : Z) (s : server) (p : nat)
  : option (server * Z) :=
  let? c := objects s !! p in
  if negb (maxidletime =? 0) && (maxidletime <? unixtime s - lastinteraction c) then
    if streq (username c) MY_REDIS_ROOT_NAME then Some (s, 0)
    else let? s := freeClient s p in Some (s, 1)
  else Some (s, 0).

(** ** Loading the accounts (mydump.c) *)

(** The loop over the rows of a node query. *)
Fixpoint load_nodes (rows : list (list (list Z))) (u : usertable D) (username : list Z)
  : option (usertable D) :=
  match rows with
  | [] => Some u
  | row :: rows =>
      let? nid := row !! 0%nat in
      let? buf := sprintf 256 nid in
      let? (u, _) := insertNodeToUserInfo u username nid in
      load_nodes rows u username
  end.

Definition node_query (userid : list Z) : list Z :=
  bytes_of_string "select  nodeid  from node where userid='" ++ userid ++ bytes_of_string "' ;".

(** A failing connection or query loads nothing. *)
Definition insert_all_node (d : DB) (u : usertable D) (userid username : list Z)
  : option (usertable D) :=
  let? query := sprintf 256 (node_query userid) in
  match db_query d query with
  | None => Some u
  | Some rows => load_nodes rows u username
  end.

Fixpoint load_users (rows : list (list (list Z))) (d : DB) (u : usertable D)
  : option (usertable D) :=
  match rows with
  | [] => Some u
  | row :: rows =>
      let? userid := row !! 0%nat in
      let? name := row !! 1%nat in
      let? u := insertUserInfo u userid name in
      let? u := insert_all_node d u userid name in
      load_users rows d u
  end.

Definition user_query : list Z :=
  bytes_of_string "select  userid,name,password  from alluser;".

Definition do_mysql_dump_redis (s : server) : option server :=
  match db_query (db s) user_query with
  | None => Some s
  | Some rows => let? u := load_users rows (db s) (users s) in Some (set_users s u)
  end.

(** The server when [main] has created the user dictionary. *)
Definition init_server (d : DB) (now : Z) : server := Server [] ∅ empty_table d now.

End Chat.
Arguments server : clear implicits.

End Chat.
