(* ===== verification/ChatSpec.v ===== *)
(** * Correctness of the chat server

    Two families of results about [Chat]: a message reaches exactly the
    clients it is addressed to, and the sessions of the connected clients
    agree with the on/off states in the user table along every run of the
    server. *)

From S2P Require Import Prelude Dict DictSpec Reply UserTable Chat.
Import HashTable Output Users Chat.

Module ChatProofs.

(** ** Names *)

(** The length of names for which every formatting buffer is large enough. *)
Definition NAME_MAX : Z := 64.

Definition short (s : list Z) : Prop := cstr s = s /\ zlen s <= NAME_MAX.

Record user_small (u : MyNodeUserInfo) : Prop := {
  small_name : short (u_name u);
  small_id : short (u_userid u);
  small_line : u_line u = s_on \/ u_line u = s_off;
  small_nodes : Forall (fun n => short (n_name n)) (live_nodes u)
}.

Lemma short_nil : short [].
Proof. by split. Qed.

Lemma short_cstr a : strlen a <= NAME_MAX -> short (cstr a).
Proof. intros. split; [apply cstr_idem|done]. Qed.

Lemma short_strlen n : short n -> strlen n < MY_NAME_LENGTH.
Proof. unfold strlen, MY_NAME_LENGTH, NAME_MAX, short. intros [-> ?]. unfold NAME_MAX in *. lia. Qed.

Lemma short_sprintf n : short n -> sprintf MY_NAME_LENGTH n = Some n.
Proof. intros [_ ?]. apply sprintf_Some. unfold NAME_MAX, MY_NAME_LENGTH in *. lia. Qed.

(** Lengths of formatted lines: expand, then compare. *)
Ltac fits :=
  repeat match goal with H : short _ |- _ => destruct H as [_ H] end;
  unfold NAME_MAX, MY_NAME_LENGTH, MYNODE_LINE_LENGTH in *; unfold s_on, s_off;
  unfold CRLF; cbn [bytes_of_string];
  repeat (progress (rewrite ?length_app; cbn [length app]));
  repeat match goal with |- context [length (pad_right ?w ?x)] =>
    let n := fresh "n" in pose proof (length_pad_right w x);
    set (n := length (pad_right w x)) in * end;
  repeat match goal with H : context [fmt_d ?z] |- _ =>
    let n := fresh "n" in pose proof (length_fmt_d z); set (n := fmt_d z) in * end;
  lia.

Section Tables.
Context {D : Type} `{!UserDict D nat} `{!UserDictSpec D nat}.
Implicit Types st : usertable D.

(** The dictionary's contents. *)
Abbreviation users_of st := (ud_map (myuserdict st)).

Definition users_ok st : Prop :=
  ut_wf st /\ forall name u, lookup_user st name = Some u -> user_small u.

(** The line state of a user. *)
Definition line st (name : list Z) : option (list Z) := u_line <$> lookup_user st name.

(** A table operation that changes no line state. *)
Record tbl_eq st st' : Prop := {
  tbl_ok : users_ok st -> users_ok st';
  tbl_wf : ut_wf st -> ut_wf st';
  tbl_map : users_of st' = users_of st;
  tbl_line : forall name, line st' name = line st name
}.

#[global] Instance tbl_eq_refl : Reflexive tbl_eq.
Proof. intros st. by constructor. Qed.

#[global] Instance tbl_eq_trans : Transitive tbl_eq.
Proof.
  intros a b c [A1 A2 A3 A4] [B1 B2 B3 B4]. constructor; [auto|auto|congruence|].
  intros n. by rewrite B4.
Qed.

Lemma lookup_user_lower st a b : lower a = lower b -> lookup_user st a = lookup_user st b.
Proof. intros E. unfold lookup_user. by rewrite E. Qed.

(** One record was replaced. *)
Lemma users_ok_update st st' name :
  users_ok st -> ut_wf st' ->
  (forall other, lower other <> lower name -> lookup_user st' other = lookup_user st other) ->
  (forall u', lookup_user st' name = Some u' -> user_small u') -> users_ok st'.
Proof.
  intros [_ Hs] Hwf Ho Hn. split; [done|]. intros other u Hu.
  destruct (decide (lower other = lower name)) as [E|E].
  - apply Hn. by rewrite <- (lookup_user_lower st' _ _ E).
  - rewrite Ho in Hu by done. eauto.
Qed.

Lemma tbl_eq_update st st' name :
  ut_wf st' -> users_of st' = users_of st ->
  (forall other, lower other <> lower name -> lookup_user st' other = lookup_user st other) ->
  match lookup_user st' name, lookup_user st name with
  | Some u', Some u => u_line u' = u_line u /\ (user_small u -> user_small u')
  | None, None => True
  | _, _ => False
  end -> tbl_eq st st'.
Proof.
  intros Hwf Hm Ho Hn. constructor; [intros Hok; pose proof Hok as [_ Hs]|done|done|].
  - apply (users_ok_update st st' name); [done..|]. intros u' Hu'. rewrite Hu' in Hn.
    destruct (lookup_user st name) as [u|] eqn:E; [|done]. apply Hn. eauto.
  - intros other. unfold line. destruct (decide (lower other = lower name)) as [E|E].
    + rewrite !(lookup_user_lower _ _ _ E).
      destruct (lookup_user st' name), (lookup_user st name); try done. simpl. by destruct Hn as [-> _].
    + by rewrite Ho.
Qed.

Lemma tbl_eq_set_dict st d :
  ut_wf (set_dict st d) -> ud_map d = users_of st -> tbl_eq st (set_dict st d).
Proof.
  intros Hwf Hm. constructor; [|done|done|].
  - intros [_ Hs]. split; [done|]. intros n u. rewrite lookup_set_dict by done. eauto.
  - intros n. unfold line. by rewrite lookup_set_dict.
Qed.

(** *** The operations of the table, for short names *)

Lemma getUser_ok st name :
  ut_wf st ->
  exists st', chatSetOrGetUserInfo st name [] OPERATION_GET_INFO =
      Some (st', default [] (line st name)) /\ tbl_eq st st'.
Proof.
  intros Hwf. destruct (chatGetUserInfo_spec st name [] Hwf) as (d & -> & Hwf' & Hm).
  eexists. split; [|by apply tbl_eq_set_dict]. unfold line. by destruct (lookup_user st name).
Qed.

Lemma setUser_ok st name state :
  ut_wf st -> state = s_on \/ state = s_off ->
  exists st', chatSetOrGetUserInfo st name state OPERATION_SET_INFO = Some (st', state) /\
    (ut_wf st' /\ (users_ok st -> users_ok st')) /\ users_of st' = users_of st /\
    (forall other, lower other <> lower name -> line st' other = line st other) /\
    (forall other, lower other = lower name ->
       line st' other = match line st name with Some _ => Some state | None => None end).
Proof.
  intros Hwf Hst.
  destruct (chatSetUserInfo_spec st name state Hwf) as (st' & -> & Hwf' & Hm & Hl & Ho).
  { destruct Hst as [-> | ->]; done. }
  assert (cstr state = state) as Hc by (destruct Hst as [-> | ->]; done). rewrite Hc in Hl.
  exists st'. split; [done|]. split; [|split; [done|split]].
  - split; [done|]. intros Hok. pose proof Hok as [_ Hs].
    apply (users_ok_update st st' name); [done..|]. intros u' Hu'.
    destruct (lookup_user st name) as [u|] eqn:E; [|congruence].
    rewrite Hl in Hu'. simplify_eq. destruct (Hs _ _ E). by constructor.
  - intros other Hne. unfold line. by rewrite Ho.
  - intros other He. unfold line. rewrite (lookup_user_lower _ _ _ He).
    destruct (lookup_user st name); by rewrite Hl.
Qed.

Lemma getNode_ok st name node :
  ut_wf st ->
  exists st' out, chatSetOrGetNodeInfo st name node [] OPERATION_GET_INFO = Some (st', out) /\
    tbl_eq st st'.
Proof.
  intros Hwf. destruct (chatGetNodeInfo_spec st name node [] Hwf)
    as (d & o & -> & Hwf' & Hm & _). eexists _, _. split; [done|]. by apply tbl_eq_set_dict.
Qed.

Lemma setNode_ok st name node state :
  ut_wf st -> state = s_on \/ state = s_off ->
  exists st', chatSetOrGetNodeInfo st name node state OPERATION_SET_INFO = Some (st', state) /\
    tbl_eq st st'.
Proof.
  intros Hwf Hst.
  destruct (chatSetNodeInfo_spec st name node state Hwf) as (st' & -> & Hwf' & Hm & Hl & Ho).
  { destruct Hst as [-> | ->]; done. }
  eexists. split; [done|]. apply (tbl_eq_update st st' name); [done..|].
  destruct (lookup_user st name) as [u|]; [|by rewrite Hl].
  destruct Hl as [(j & n & Hj & Hn & ->)|[_ ->]]; [|done].
  split; [done|]. intros [A B C E]. constructor; [done..|].
  unfold live_nodes, with_node_line in *. simpl.
  apply lookup_lt_Some in Hj as Hlt. rewrite length_take in Hlt.
  rewrite take_insert_lt by lia. apply Forall_insert; [done|]. simpl.
  eapply (Forall_lookup_1 _ _ _ _ E Hj).
Qed.

Lemma insertNode_ok st name node :
  users_ok st -> short node ->
  exists st' r, insertNodeToUserInfo st name node = Some (st', r) /\ tbl_eq st st'.
Proof.
  intros Hok Hsh. pose proof Hok as [Hwf Hs].
  destruct (insertNodeToUserInfo_spec st name node Hwf (short_strlen _ Hsh))
    as (st' & r & -> & Hwf' & Hm & _ & Hc). eexists _, _. split; [done|].
  destruct (fetch_spec st name Hwf) as (d & _ & _ & Hf).
  assert (records st' = records st -> tbl_eq st st') as Hsame.
  { intros Hr. assert (forall n, lookup_user st' n = lookup_user st n) as Hl
      by (intros n; unfold lookup_user; by rewrite Hr, Hm).
    apply (tbl_eq_update st st' name); [done..|by intros|]. rewrite Hl. by destruct (lookup_user st name). }
  destruct (lookup_user st name) as [u|] eqn:E; [|by apply Hsame, Hc].
  destruct Hc as [(_ & _ & ?)|[(_ & _ & _ & ?)|(_ & _ & Hi & Hl & Ho)]]; [by apply Hsame..|].
  apply (tbl_eq_update st st' name); [done..|]. rewrite Hl, E. split; [done|].
  intros [A B C F]. destruct Hf as (_ & _ & _ & Huok & _).
  constructor; [done..|]. rewrite (live_with_node u node Huok Hi). apply Forall_app. split; [done|].
  constructor; [|constructor]. simpl. by rewrite (proj1 Hsh).
Qed.

Lemma insertUser_ok st uid name :
  users_ok st -> short uid -> short name -> Z.of_nat (base.size (users_of st)) < 2 ^ 29 ->
  exists st', insertUserInfo st uid name = Some st' /\ users_ok st' /\
    (forall other, line st' other = line st other \/
       (line st other = None /\ line st' other = Some s_off)) /\
    (base.size (users_of st') <= S (base.size (users_of st)))%nat.
Proof.
  intros Hok Hu Hn Hsz. pose proof Hok as [Hwf Hs].
  destruct (insertUserInfo_spec st uid name Hwf (short_strlen _ Hn) (short_strlen _ Hu) Hsz)
    as (st' & -> & Hwf' & Hc). exists st'. split; [done|].
  destruct (lookup_user st name) as [u|] eqn:E.
  - destruct Hc as (Hr & _ & Hm).
    assert (forall n, lookup_user st' n = lookup_user st n) as Hl
      by (intros n; unfold lookup_user; by rewrite Hr, Hm).
    split; [|split; [intros n; left; unfold line; by rewrite Hl|rewrite Hm; lia]].
    split; [done|]. intros n w. rewrite Hl. eauto.
  - destruct Hc as (Hr & _ & Hfr & Hm).
    assert (forall n, lower n = lower name ->
      lookup_user st' n = Some (fresh_user uid name (userInfo st))) as Hl1.
    { intros n Hn'. unfold lookup_user. by rewrite Hr, Hm, Hn', !lookup_insert_eq. }
    assert (forall n, lower n <> lower name -> lookup_user st' n = lookup_user st n) as Hl2.
    { intros n Hne. unfold lookup_user. rewrite Hr, Hm, lookup_insert_ne by done.
      destruct (ud_map _ !! lower n) as [q|] eqn:Eq; [|done]. rewrite lookup_insert_ne; [done|].
      intros <-. apply (wf_keys _ Hwf) in Eq as (w & Hw & _). congruence. }
    split; [|split].
    + apply (users_ok_update st st' name); [done..|]. intros u'. rewrite Hl1 by done. intros [= <-].
      constructor; simpl; [by rewrite (proj1 Hn)|by rewrite (proj1 Hu)|by right|constructor].
    + intros n. unfold line. destruct (decide (lower n = lower name)) as [Hn'|Hn'].
      * right. rewrite (lookup_user_lower st _ _ Hn'), E. by rewrite Hl1.
      * left. by rewrite Hl2.
    + rewrite Hm, map_size_insert. destruct (ud_map (myuserdict st) !! lower name); unfold id; lia.
Qed.

(** The names on the linked list are those of the table. *)
Lemma getName_ok st uid :
  users_ok st ->
  exists r, getNameByUserid st uid = Some r /\ forall name, r = Some name -> short name.
Proof.
  intros [Hwf Hs]. destruct (all_users_spec st Hwf) as (us & Hus & _ & Hin).
  unfold getNameByUserid. rewrite (find_userid_walk _ _ _ _ us Hus). eexists. split; [done|].
  intros name Hn. destruct (head _) as [u|] eqn:E; [|done]. simpl in Hn. simplify_eq.
  apply head_Some_elem_of, list_elem_of_filter in E as [_ Hu]. apply (small_name u), (Hs (u_name u)).
  by apply Hin.
Qed.

Lemma nodeSize_ok st name :
  ut_wf st -> exists st' r, getUserNodeSize st name = Some (st', r) /\ tbl_eq st st'.
Proof.
  intros Hwf. unfold getUserNodeSize. destruct (fetch_spec st name Hwf) as (d & Hwf' & Hm & Hf).
  destruct (lookup_user st name) as [u|].
  - destruct Hf as (p & -> & Hp & _). simpl. rewrite Hp. simpl. eexists _, _. split; [done|].
    by apply tbl_eq_set_dict.
  - destruct Hf as [-> _]. simpl. eexists _, _. split; [done|]. by apply tbl_eq_set_dict.
Qed.

Lemma getUserid_ok st name u :
  users_ok st -> lookup_user st name = Some u ->
  exists st', getUseridByName st name = Some (st', Some (u_userid u)) /\ tbl_eq st st'.
Proof.
  intros [Hwf _] Hu. unfold getUseridByName.
  destruct (fetch_spec st name Hwf) as (d & Hwf' & Hm & Hf). rewrite Hu in Hf.
  destruct Hf as (p & -> & Hp & _). simpl. rewrite Hp. simpl. eexists. split; [done|].
  by apply tbl_eq_set_dict.
Qed.

Lemma node_lines_fit u (fmt : MyNodeInfo -> list Z) :
  user_ok u -> user_small u ->
  (forall n, node_ok n -> short (n_name n) -> zlen (fmt n) < 256) ->
  format_all fmt (live_nodes u) = Some (fmt <$> live_nodes u).
Proof.
  intros Hok Hs Hf. apply format_all_Some. pose proof (user_nodes _ Hok) as H1.
  pose proof (small_nodes _ Hs) as H2. rewrite Forall_forall in *. eauto.
Qed.

Lemma allNodes_ok st name :
  users_ok st -> exists st' ls, getAllNodeInfo st name = Some (st', ls) /\ tbl_eq st st'.
Proof.
  intros [Hwf Hs]. unfold getAllNodeInfo.
  destruct (fetch_spec st name Hwf) as (d & Hwf' & Hm & Hf).
  destruct (lookup_user st name) as [u|] eqn:E.
  - destruct Hf as (p & -> & Hp & Hok & _). simpl. rewrite Hp. simpl.
    pose proof (user_slots _ Hok). pose proof (user_index _ Hok).
    destruct (Z.ltb_spec (zlen (u_nodes u)) (u_index u)); [lia|].
    fold (live_nodes u). rewrite (node_lines_fit u); [|done|eauto|].
    + simpl. eexists _, _. split; [done|]. by apply tbl_eq_set_dict.
    + intros n Hn Hsh. pose proof (node_line_len _ Hn). unfold nodeinfo_line. fits.
  - destruct Hf as [-> _]. simpl. eexists _, _. split; [done|]. by apply tbl_eq_set_dict.
Qed.

Lemma userInfo_ok st : users_ok st -> exists ls, chatUserInfo st = Some ls.
Proof.
  intros [Hwf Hs]. destruct (all_users_spec st Hwf) as (us & Hus & _ & Hin).
  unfold chatUserInfo. rewrite Hus. simpl. eexists. apply format_all_Some, Forall_forall.
  intros u Hu%Hin%Hs. destruct Hu as [A _ B _]. unfold userinfo_line.
  destruct B as [-> | ->]; fits.
Qed.

End Tables.

(** ** Sessions *)

(** What the table of sessions knows of a client. *)
Record session := Session {
  s_user : Z;
  s_node : Z;
  s_type : Z;
  s_id : list Z;
  s_name : list Z;
  s_nodename : list Z
}.

Definition session_of (c : redisClient) : session :=
  Session (isvaliduser c) (isvalidnode c) (mynode_type c) (userid c) (username c) (nodename c).

(** The user a session belongs to: none unless it is a user's, logged in. *)
Definition session_key (x : session) : option (list Z) :=
  if (s_user x =? 1) && (s_type x =? MYNODE_TYPE_USER) then Some (lower (s_name x)) else None.

Record session_ok (x : session) : Prop := {
  ses_flags : (s_user x = 0 /\ s_node x = 0) \/
              (s_user x = 1 /\ s_node x = 1 /\
               (s_type x = MYNODE_TYPE_USER \/ s_type x = MYNODE_TYPE_NODE));
  ses_id : short (s_id x);
  ses_name : short (s_name x);
  ses_nodename : short (s_nodename x)
}.

Section Server.
Context {D : Type} `{!UserDict D nat} `{!UserDictSpec D nat}.
Context (ae : Z -> bool).
Context {DB : Type} (db_query : DB -> list Z -> option (list (list (list Z))))
        (db_exec : DB -> list Z -> DB).
Implicit Types s : server D DB.

Definition sessions s : gmap nat session := session_of <$> objects s.

(** User [k] has a session on client [p]. *)
Definition online s (p : nat) (k : list Z) : Prop :=
  exists x, sessions s !! p = Some x /\ session_key x = Some k.

Definition live s (p : nat) : Prop := is_Some (objects s !! p).

(** A step that only queues replies, moves the dictionary along or reorders
    the client list. *)
Record quiet s s' : Prop := {
  quiet_clients : clients s' ≡ₚ clients s;
  quiet_sessions : sessions s' = sessions s;
  quiet_users : tbl_eq (users s) (users s')
}.

#[local] Instance quiet_refl : Reflexive quiet.
Proof. intros s. by constructor. Qed.

#[local] Instance quiet_trans : Transitive quiet.
Proof.
  intros a b c [A1 A2 A3] [B1 B2 B3]. constructor; [|congruence|by etrans].
  by rewrite B1.
Qed.

Lemma live_sessions s p : live s p <-> is_Some (sessions s !! p).
Proof. unfold live, sessions. rewrite lookup_fmap. by rewrite fmap_is_Some. Qed.

Lemma quiet_live s s' p : quiet s s' -> live s p -> live s' p.
Proof. intros [_ Hs _]. by rewrite !live_sessions, Hs. Qed.

Lemma quiet_ok s s' : quiet s s' -> users_ok (users s) -> users_ok (users s').
Proof. intros [_ _ []]. auto. Qed.

Lemma sessions_insert s p c c' :
  objects s !! p = Some c -> session_of c' = session_of c ->
  sessions (set_objects s (<[p := c']> (objects s))) = sessions s.
Proof.
  intros Hc He. unfold sessions. simpl. rewrite fmap_insert, He.
  apply insert_id. by rewrite lookup_fmap, Hc.
Qed.

Lemma upd_ok s p f :
  live s p -> (forall c, objects s !! p = Some c -> session_of (f c) = session_of c) ->
  exists s', upd s p f = Some s' /\ quiet s s'.
Proof.
  intros [c Hc] Hf. unfold upd. rewrite Hc. simpl. eexists. split; [done|].
  constructor; [done|by apply (sessions_insert s p c); auto|done].
Qed.

Lemma reply_ok s p text : live s p -> exists s', reply_to ae s p text = Some s' /\ quiet s s'.
Proof. intros Hl. by apply upd_ok. Qed.

Lemma reply_lines_ok ls s p :
  live s p -> exists s', reply_lines ae s p ls = Some s' /\ quiet s s'.
Proof.
  revert s. induction ls as [|l ls IH]; intros s Hl; simpl; [by exists s|].
  destruct (reply_ok s p l Hl) as (s1 & -> & Hq). simpl.
  destruct (IH s1) as (s2 & -> & Hq2); [by eapply quiet_live|]. exists s2. split; [done|]. by etrans.
Qed.

Lemma set_users_quiet s u : tbl_eq (users s) u -> quiet s (set_users s u).
Proof. by constructor. Qed.

(** *** Delivery *)

Definition deliver (text to : list Z) (toType : Z) (c : redisClient) : redisClient :=
  if addressed c to toType then set_out c (addReplyString ae (out c) text) else c.

Lemma deliver_session text to ty c : session_of (deliver text to ty c) = session_of c.
Proof. unfold deliver. by destruct (addressed c to ty). Qed.

Lemma snprintf_fits text : zlen text <= 1023 -> snprintf_reply text = Some text.
Proof.
  intros H. unfold snprintf_reply. rewrite (proj2 (Z.leb_le _ _)) by lia.
  rewrite (take_ge text 1023) by lia. rewrite Nat2Z.id, take_app_length. done.
Qed.

Lemma chat_send_loop_spec ps s tag from to msg ty text :
  snprintf_reply (message_text tag from msg) = Some text -> NoDup ps -> Forall (live s) ps ->
  exists o, send_loop_clients ae ps s tag from to msg ty = Some (set_objects s o) /\
    forall q, o !! q = if bool_decide (q ∈ ps)
                       then deliver text to ty <$> objects s !! q
                       else objects s !! q.
Proof.
  intros Ht. revert s. induction ps as [|p ps IH]; intros s Hnd Hl; cbn [send_loop_clients].
  { exists (objects s). by destruct s. }
  apply NoDup_cons in Hnd as [Hp Hnd]. apply Forall_cons in Hl as [[c Hc] Hl]. rewrite Hc.
  cbn [obind]. rewrite Ht. cbn [obind]. unfold reply_to, upd. rewrite Hc.
  cbn [obind]. pose proof (eq_refl (deliver text to ty c)) as Hd.
  unfold deliver in Hd at 1.
  destruct (addressed c to ty).
  - set (s1 := set_objects s _). destruct (IH s1) as (o & Ho & Hlook); [done| |].
    { eapply Forall_impl; [done|]. intros q Hq. unfold live, s1. simpl.
      rewrite lookup_insert_is_Some'. by right. }
    exists o. split; [done|]. intros q. rewrite Hlook. unfold s1. simpl.
    destruct (decide (q = p)) as [->|Hne].
    + rewrite (bool_decide_eq_false_2 (p ∈ ps)), (bool_decide_eq_true_2 (p ∈ p :: ps)) by first [done|left].
      rewrite lookup_insert_eq, Hc. simpl. by rewrite Hd.
    + rewrite lookup_insert_ne by done.
      rewrite (bool_decide_ext (q ∈ p :: ps) (q ∈ ps)); [done|]. rewrite elem_of_cons. tauto.
  - destruct (IH s) as (o & Ho & Hlook); [done..|]. exists o. split; [done|]. intros q.
    rewrite Hlook. destruct (decide (q = p)) as [->|Hne].
    + rewrite (bool_decide_eq_false_2 (p ∈ ps)), (bool_decide_eq_true_2 (p ∈ p :: ps)) by first [done|left].
      rewrite Hc. simpl. by rewrite <- Hd.
    + rewrite (bool_decide_ext (q ∈ p :: ps) (q ∈ ps)); [done|]. rewrite elem_of_cons. tauto.
Qed.

(** A text that does not fit is noticed when somebody is addressed, and only
    then. *)
Lemma send_loop_too_long ps s tag from to msg ty :
  snprintf_reply (message_text tag from msg) = None -> Forall (live s) ps ->
  send_loop_clients ae ps s tag from to msg ty =
  if existsb (fun p => match objects s !! p with Some c => addressed c to ty | None => false end) ps
  then None else Some s.
Proof.
  intros Ht. induction ps as [|p ps IH]; intros Hl; cbn [send_loop_clients existsb]; [done|].
  apply Forall_cons in Hl as [[c Hc] Hl]. rewrite Hc. cbn [obind]. rewrite Ht.
  destruct (addressed c to ty); [done|]. by apply IH.
Qed.

(** The client list and the client objects agree. *)
Definition clients_ok s : Prop := NoDup (clients s) /\ forall p, p ∈ clients s <-> live s p.

Lemma quiet_clients_ok s s' : quiet s s' -> clients_ok s -> clients_ok s'.
Proof.
  intros [Hc Hs _] [Hnd Hin]. split; [by rewrite Hc|].
  intros p. rewrite Hc, Hin, !live_sessions. by rewrite Hs.
Qed.

Lemma chatSend_ok s tag from to msg ty :
  clients_ok s -> zlen (message_text tag from msg) <= 1023 ->
  exists s', _chatSend ae s tag from to msg ty = Some s' /\ quiet s s'.
Proof.
  intros [Hnd Hin] Hlen.
  destruct (chat_send_loop_spec (clients s) s tag from to msg ty _ (snprintf_fits _ Hlen) Hnd) as (o & Ho & Hlook).
  { apply Forall_forall. intros p. by rewrite Hin. }
  eexists. split; [done|]. constructor; [done| |done]. unfold sessions. simpl.
  apply map_eq. intros q. rewrite !lookup_fmap, Hlook. case_bool_decide; [|done].
  destruct (objects s !! q); [|done]. simpl. by rewrite deliver_session.
Qed.

(** *** The listing commands *)

Definition sessions_ok s : Prop := forall p x, sessions s !! p = Some x -> session_ok x.

Lemma quiet_sessions_ok s s' : quiet s s' -> sessions_ok s -> sessions_ok s'.
Proof. intros [_ Hs _] H p x. rewrite Hs. apply H. Qed.

Lemma client_session_ok s p c : sessions_ok s -> objects s !! p = Some c -> session_ok (session_of c).
Proof. intros H Hc. apply (H p). unfold sessions. by rewrite lookup_fmap, Hc. Qed.

Lemma rotate_snoc l x : rotate (l ++ [x]) = x :: l.
Proof. unfold rotate. by rewrite last_snoc, removelast_last. Qed.

Lemma rotate_perm l : rotate l ≡ₚ l.
Proof.
  destruct l as [|x l] using rev_ind; [done|]. rewrite rotate_snoc. apply Permutation_cons_append.
Qed.

Lemma rotate_iter b a : Nat.iter (length b) rotate (a ++ b) = b ++ a.
Proof.
  revert a. induction b as [|x b IH] using rev_ind; intros a; [by rewrite app_nil_r|].
  rewrite length_app, Nat.add_1_r, Nat.iter_succ_r, app_assoc, rotate_snoc.
  rewrite app_comm_cons, IH. by rewrite <- app_assoc.
Qed.

Lemma client_line_fits c : session_ok (session_of c) -> zlen (client_line c) < 256.
Proof. intros [_ H1 H2 H3]. simpl in *. unfold client_line. fits. Qed.

Lemma dump_loop_ok n s p :
  clients_ok s -> sessions_ok s -> live s p -> (n <= length (clients s))%nat ->
  exists s', dump_loop ae n s p = Some s' /\ quiet s s' /\
    clients s' = Nat.iter n rotate (clients s).
Proof.
  revert s. induction n as [|n IH]; intros s Hc Hs Hp Hn; simpl dump_loop; [by exists s|].
  set (s1 := set_clients s (rotate (clients s))).
  assert (quiet s s1) as Hq1 by (constructor; [apply rotate_perm|done|done]).
  pose proof (quiet_clients_ok _ _ Hq1 Hc) as Hc1.
  destruct (rotate (clients s)) as [|h t] eqn:Er.
  { pose proof (Permutation_length (rotate_perm (clients s))) as E. rewrite Er in E. simpl in *. lia. }
  destruct (proj1 (proj2 Hc1 h)) as [c Hh]; [left|]. cbn [head obind].
  change (objects s) with (objects s1). rewrite Hh. cbn [obind].
  rewrite sprintf_Some
    by (apply client_line_fits, (client_session_ok s1 h); [by apply (quiet_sessions_ok s)|done]).
  cbn [obind]. destruct (reply_ok s1 p (client_line c)) as (s2 & E2 & Hq2).
  { by apply (quiet_live s). }
  assert (clients s2 = clients s1) as Hcl.
  { unfold reply_to, upd in E2. destruct (objects s1 !! p); [|done]. simpl in E2. by simplify_eq. }
  rewrite E2. cbn [obind]. destruct (IH s2) as (s3 & -> & Hq3 & Hr).
  - by apply (quiet_clients_ok s1).
  - apply (quiet_sessions_ok s1); [done|]. by apply (quiet_sessions_ok s).
  - apply (quiet_live s1); [done|]. by apply (quiet_live s).
  - rewrite Hcl. simpl.
    pose proof (Permutation_length (rotate_perm (clients s))) as E. rewrite Er in E. simpl in *. lia.
  - exists s3. split; [done|]. split; [by do 2 (etrans; [done|])|].
    rewrite Hr, Hcl. unfold s1. simpl clients. by rewrite <- Er, <- Nat.iter_succ_r.
Qed.

Lemma dumpClients_ok s p :
  clients_ok s -> sessions_ok s -> live s p ->
  exists s', dumpClients ae s p = Some s' /\ quiet s s' /\ clients s' = clients s.
Proof.
  intros Hc Hs Hp. unfold dumpClients. rewrite sprintf_Some by fits. cbn [obind].
  match goal with |- context [reply_to ae s p ?t] => destruct (reply_ok s p t Hp) as (s1 & E1 & Hq1) end.
  assert (clients s1 = clients s) as Hcl.
  { unfold reply_to, upd in E1. destruct (objects s !! p); [|done]. simpl in E1. by simplify_eq. }
  rewrite E1. cbn [obind].
  destruct (dump_loop_ok (length (clients s)) s1 p) as (s2 & -> & Hq2 & Hr).
  - by apply (quiet_clients_ok s).
  - by apply (quiet_sessions_ok s).
  - by apply (quiet_live s).
  - by rewrite Hcl.
  - exists s2. split; [done|]. split; [by etrans|]. rewrite Hr, Hcl.
    etrans; [apply (rotate_iter (clients s) [])|apply app_nil_r].
Qed.

Lemma dump_users_ok ps s p :
  users_ok (users s) -> live s p ->
  Forall (fun q => exists u, records (users s) !! q = Some u /\ user_ok u /\ user_small u) ps ->
  exists s', dump_users ae ps s p = Some s' /\ quiet s s'.
Proof.
  revert s. induction ps as [|q ps IH]; intros s Hu Hp Hall; simpl; [by exists s|].
  apply Forall_cons in Hall as [(u & Hq & Hok & Hsm) Hall]. rewrite Hq. cbn [obind].
  rewrite sprintf_Some by (destruct Hsm; unfold user_line; fits). cbn [obind].
  destruct (reply_ok s p (user_line u) Hp) as (s1 & E1 & Hq1). rewrite E1. cbn [obind].
  assert (users s1 = users s) as Hus.
  { unfold reply_to, upd in E1. destruct (objects s !! p); [|done]. simpl in E1. by simplify_eq. }
  pose proof (user_slots _ Hok). pose proof (user_index _ Hok).
  destruct (Z.ltb_spec (zlen (u_nodes u)) (u_index u)); [lia|].
  fold (live_nodes u). rewrite (node_lines_fit u); [|done..|].
  2:{ intros n Hn Hsh. pose proof (node_line_len _ Hn). unfold node_line. fits. }
  cbn [obind]. destruct (reply_lines_ok (node_line <$> live_nodes u) s1 p) as (s2 & E2 & Hq2).
  { by apply (quiet_live s). }
  assert (users s2 = users s1) as Hus2.
  { clear -E2. revert s1 E2. induction (node_line <$> live_nodes u) as [|l ls IHl]; intros s1 E2;
      simpl in E2; [by simplify_eq|]. unfold reply_to, upd in E2.
    destruct (objects s1 !! p); [|done]. cbn [obind] in E2. by apply IHl in E2. }
  rewrite E2. cbn [obind]. destruct (IH s2) as (s3 & -> & Hq3).
  - by rewrite Hus2, Hus.
  - apply (quiet_live s1); [done|]. by apply (quiet_live s).
  - by rewrite Hus2, Hus.
  - exists s3. split; [done|]. by do 2 (etrans; [done|]).
Qed.

Lemma dumpAlluser_ok s p :
  users_ok (users s) -> live s p ->
  exists s', dumpAlluser ae s p = Some s' /\ quiet s s' /\ clients s' ≡ₚ clients s.
Proof.
  intros Hu Hp. pose proof Hu as [Hwf Hs]. unfold dumpAlluser.
  destruct (ud_iter_spec (myuserdict (users s)) (wf_dict _ Hwf)) as (vs & -> & Hvs). cbn [obind].
  assert (set_users s (set_dict (users s) (myuserdict (users s))) = s) as -> by (by destruct s as [? ? []]).
  destruct (dump_users_ok vs s p) as (s' & -> & Hq); [done..| |].
  - apply Forall_forall. intros q. rewrite Hvs. intros ([k q'] & -> & Hkq)%list_elem_of_fmap.
    apply elem_of_map_to_list, (wf_keys _ Hwf) in Hkq as (u & Hr & Hk). exists u. simpl.
    split_and!; [done|by apply (wf_users _ Hwf q')|]. apply (Hs (u_name u)). unfold lookup_user.
    assert (ud_map (myuserdict (users s)) !! lower (u_name u) = Some q') as ->; [|done].
    apply (wf_keys _ Hwf). by exists u.
  - exists s'. split_and!; [done..|]. apply Hq.
Qed.

(** *** The server invariant *)

(** A session as the arrays of the client hold it, whatever the length of the
    names that were sent. *)
Record session_sized (x : session) : Prop := {
  sized_flags : (s_user x = 0 /\ s_node x = 0) \/
                (s_user x = 1 /\ s_node x = 1 /\
                 (s_type x = MYNODE_TYPE_USER \/ s_type x = MYNODE_TYPE_NODE));
  sized_name : zlen (s_name x) < MY_NAME_LENGTH;
  sized_nodename : zlen (s_nodename x) < MY_NAME_LENGTH
}.

(** Sessions and line states agree. *)
Record sinv s : Prop := {
  sinv_clients : clients_ok s;
  sinv_users : ut_wf (users s);
  sinv_sessions : forall p x, sessions s !! p = Some x -> session_sized x;
  sinv_unique : forall p q k, online s p k -> online s q k -> p = q;
  sinv_line : forall name, line (users s) name = Some s_on <-> exists p, online s p (lower name)
}.

(** They do, and all names are short. *)
Record inv s : Prop := {
  inv_sinv : sinv s;
  inv_users : users_ok (users s);
  inv_sessions : sessions_ok s
}.

Lemma inv_clients s : inv s -> clients_ok s.
Proof. intros [[] _ _]. done. Qed.
Lemma inv_wf s : inv s -> ut_wf (users s).
Proof. intros [[] _ _]. done. Qed.

Lemma session_ok_sized x : session_ok x -> session_sized x.
Proof. intros [A _ [_ B] [_ C]]. constructor; [done| |]; unfold NAME_MAX, MY_NAME_LENGTH in *; lia. Qed.

Lemma quiet_sinv s s' : quiet s s' -> sinv s -> sinv s'.
Proof.
  intros Hq [A B C E F].
  assert (forall p k, online s' p k <-> online s p k) as Ho
    by (intros; unfold online; by rewrite (quiet_sessions _ _ Hq)).
  constructor.
  - by apply (quiet_clients_ok s).
  - by apply (tbl_wf _ _ (quiet_users _ _ Hq)).
  - intros p x. rewrite (quiet_sessions _ _ Hq). apply C.
  - intros p q k. rewrite !Ho. apply E.
  - intros name. rewrite (tbl_line _ _ (quiet_users _ _ Hq)), F. by setoid_rewrite Ho.
Qed.

Lemma quiet_inv s s' : quiet s s' -> inv s -> inv s'.
Proof.
  intros Hq [A B C]. constructor; [by apply (quiet_sinv s)|by apply (quiet_ok s)|by apply (quiet_sessions_ok s)].
Qed.

(** Changing the session of one client. *)
Lemma upd_session s p x f (g : session -> session) :
  sessions s !! p = Some x -> (forall c, session_of (f c) = g (session_of c)) ->
  exists s', upd s p f = Some s' /\ clients s' = clients s /\ users s' = users s /\
    sessions s' = <[p := g x]> (sessions s).
Proof.
  intros Hx Hf. unfold sessions in Hx. rewrite lookup_fmap in Hx. unfold upd.
  destruct (objects s !! p) as [c|]; [|done]. simpl in *. simplify_eq.
  eexists. split; [done|]. unfold sessions. simpl. by rewrite fmap_insert, Hf.
Qed.

Lemma clients_ok_insert s s' p x :
  clients_ok s -> clients s' ≡ₚ clients s -> live s p ->
  sessions s' = <[p := x]> (sessions s) -> clients_ok s'.
Proof.
  intros [Hnd Hin] Hc Hp Hs. split; [by rewrite Hc|]. intros q.
  rewrite Hc, Hin, !live_sessions, Hs, lookup_insert_is_Some'.
  destruct (decide (p = q)) as [->|]; [|tauto]. rewrite live_sessions in Hp. tauto.
Qed.

Lemma sessions_ok_insert s s' p x :
  sessions_ok s -> session_ok x -> sessions s' = <[p := x]> (sessions s) -> sessions_ok s'.
Proof.
  intros H Hx Hs q y. rewrite Hs. destruct (decide (p = q)) as [->|Hne].
  - rewrite lookup_insert_eq. by intros [= <-].
  - rewrite lookup_insert_ne by done. apply H.
Qed.

Lemma online_insert s s' p x q k :
  sessions s' = <[p := x]> (sessions s) ->
  online s' q k <-> (q = p /\ session_key x = Some k) \/ (q <> p /\ online s q k).
Proof.
  intros Hs. unfold online. rewrite Hs. destruct (decide (p = q)) as [->|Hne].
  - rewrite lookup_insert_eq. split; [intros (y & [= <-] & ?); by left|].
    intros [[_ ?]|[? _]]; [by exists x|done].
  - rewrite lookup_insert_ne by done. split; [by right|]. by intros [[-> _]|[_ ?]].
Qed.

Lemma sessions_sized_insert s s' p x :
  (forall q y, sessions s !! q = Some y -> session_sized y) -> session_sized x ->
  sessions s' = <[p := x]> (sessions s) -> forall q y, sessions s' !! q = Some y -> session_sized y.
Proof.
  intros H Hx Hs q y. rewrite Hs. destruct (decide (p = q)) as [->|Hne].
  - rewrite lookup_insert_eq. by intros [= <-].
  - rewrite lookup_insert_ne by done. apply H.
Qed.

(** A client without a user session takes on another that is not a user's. *)
Lemma insert_session_sinv s s' p x y :
  sinv s -> sessions s !! p = Some x -> session_key x = None ->
  session_sized y -> session_key y = None ->
  clients s' ≡ₚ clients s -> sessions s' = <[p := y]> (sessions s) -> ut_wf (users s') ->
  (forall name, line (users s') name = line (users s) name) -> sinv s'.
Proof.
  intros [A B C E F] Hx Hkx Hy Hky Hc Hs Hw Ht.
  assert (live s p) as Hl by (rewrite live_sessions; by exists x).
  assert (forall q k, online s' q k <-> online s q k) as Ho.
  { intros q k. rewrite (online_insert s s' p y) by done. split.
    - intros [[_ ?]|[_ ?]]; [congruence|done].
    - intros Hon. right. split; [|done]. intros ->. destruct Hon as (z & Hz & Hkz). congruence. }
  constructor.
  - by apply (clients_ok_insert s s' p y).
  - done.
  - by apply (sessions_sized_insert s s' p y).
  - intros q r k. rewrite !Ho. apply E.
  - intros name. rewrite Ht, F. by setoid_rewrite Ho.
Qed.

(** A client without a session becomes the session of an off-line user. *)
Lemma login_sinv s s' p x y :
  sinv s -> sessions s !! p = Some x -> session_key x = None ->
  session_sized y -> session_key y = Some (lower (s_name y)) ->
  line (users s) (s_name y) <> Some s_on ->
  clients s' ≡ₚ clients s -> sessions s' = <[p := y]> (sessions s) -> ut_wf (users s') ->
  (forall other, lower other <> lower (s_name y) -> line (users s') other = line (users s) other) ->
  (forall other, lower other = lower (s_name y) -> line (users s') other = Some s_on) -> sinv s'.
Proof.
  intros [A B C E F] Hx Hkx Hy Hky Hoff Hc Hs Hu Hne Heq.
  assert (live s p) as Hl by (rewrite live_sessions; by exists x).
  pose proof (fun q k => online_insert s s' p y q k Hs) as Ho.
  assert (forall q, ~ online s q (lower (s_name y))) as Hno
    by (intros q Hq; apply Hoff, F; by exists q).
  constructor.
  - by apply (clients_ok_insert s s' p y).
  - done.
  - by apply (sessions_sized_insert s s' p y).
  - intros q r k. rewrite !Ho, Hky.
    intros [[-> [= <-]]|[? H1]] [[-> H2]|[? H2]]; [done| | |by eapply E].
    + by destruct (Hno r).
    + simplify_eq. by destruct (Hno q).
  - intros name. setoid_rewrite Ho. destruct (decide (lower name = lower (s_name y))) as [Hn|Hn].
    + rewrite Heq by done. split; [|done]. intros _. exists p. left. by rewrite Hn.
    + rewrite Hne, F by done. split.
      * intros [q Hq]. exists q. right. split; [|done]. intros ->.
        destruct Hq as (z & Hz & Hkz). congruence.
      * intros (q & [[_ Hq]|[_ Hq]]); [congruence|by exists q].
Qed.

Lemma message_fits tag from msg :
  zlen tag + zlen msg <= 952 -> zlen from <= NAME_MAX ->
  zlen (message_text tag from msg) <= 1023.
Proof. intros. unfold message_text. fits. Qed.

Lemma chatUserInfoReply_ok s p :
  users_ok (users s) -> live s p -> exists s', chatUserInfoReply ae s p = Some s' /\ quiet s s'.
Proof.
  intros Hu Hp. unfold chatUserInfoReply. destruct (userInfo_ok _ Hu) as (ls & ->). simpl.
  by apply reply_lines_ok.
Qed.

(** *** The commands *)

(** The arguments of a four-word command are short. *)
Definition argv_ok (argv : list (list Z)) : Prop :=
  length argv = 4%nat /\ Forall (fun a => strlen a <= NAME_MAX) argv.

Lemma argv_arg argv i : argv_ok argv -> (i < 4)%nat -> exists a, arg argv i = Some a /\ short a.
Proof.
  intros [Hl Hall] Hi. unfold arg. destruct (lookup_lt_is_Some_2 argv i) as [a Ha]; [lia|].
  rewrite Ha. simpl. eexists. split; [done|]. apply short_cstr.
  by apply (Forall_lookup_1 _ _ _ _ Hall Ha).
Qed.

Lemma refuse_ok s p x msg :
  sessions s !! p = Some x -> s_user x = 0 -> s_node x = 0 ->
  exists s', refuse ae s p msg = Some s' /\ quiet s s'.
Proof.
  intros Hx Hu Hn. unfold refuse.
  destruct (reply_ok s p msg) as (s1 & -> & Hq1); [rewrite live_sessions; by exists x|]. cbn [obind].
  destruct (upd_ok s1 p (fun c => set_valid c 0 0)) as (s2 & -> & Hq2).
  - apply (quiet_live s); [done|]. rewrite live_sessions. by exists x.
  - intros c Hc. assert (session_of c = x) as <-.
    { pose proof (quiet_sessions _ _ Hq1) as E. rewrite <- E in Hx. unfold sessions in Hx.
      rewrite lookup_fmap, Hc in Hx. by injection Hx. }
    unfold session_of. simpl in *. by rewrite Hu, Hn.
  - exists s2. split; [done|]. by etrans.
Qed.

Lemma valid_user_ok s name pwd :
  short name -> short pwd -> exists r, is_valid_user db_query s name pwd = Some r /\ (r = 0 \/ r = 1).
Proof.
  intros Hn Hp. unfold is_valid_user. rewrite sprintf_Some by fits. cbn [obind].
  destruct (db_query _ _) as [[|]|]; eauto.
Qed.

(** If the database accepts the name and password in the command, the
    account has been loaded into the table. *)
Definition account_loaded s (argv : list (list Z)) : Prop :=
  forall name pwd, arg argv 2 = Some name -> arg argv 3 = Some pwd ->
    is_valid_user db_query s name pwd = Some 1 -> is_Some (lookup_user (users s) name).

(** The replies that end a successful login. *)
Lemma login_replies_ok s p name u :
  users_ok (users s) -> live s p -> lookup_user (users s) name = Some u ->
  exists s',
    (let? (u, uid) := getUseridByName (users s) name in
     let s := set_users s u in
     let? uid := uid in
     let? buf := sprintf 256 (bytes_of_string "login ok " ++ uid ++ CRLF) in
     let? s := reply_to ae s p buf in
     let? (u, ls) := getAllNodeInfo (users s) name in
     let s := set_users s u in
     let? s := reply_lines ae s p ls in
     chatUserInfoReply ae s p) = Some s' /\ quiet s s'.
Proof.
  intros Hu Hp Hl. destruct (getUserid_ok _ _ _ Hu Hl) as (u1 & -> & Ht1). cbn [obind].
  pose proof (small_id _ (proj2 Hu _ _ Hl)) as Hid. rewrite sprintf_Some by fits. cbn [obind].
  pose proof (set_users_quiet s u1 Ht1) as Hq1. set (s1 := set_users s u1) in *.
  match goal with |- context [reply_to ae s1 p ?t] =>
    destruct (reply_ok s1 p t) as (s2 & -> & Hq2); [by apply (quiet_live s)|] end.
  cbn [obind]. pose proof (quiet_trans _ _ _ Hq1 Hq2) as Hq.
  destruct (allNodes_ok (users s2) name) as (u3 & ls & -> & Ht3); [by apply (quiet_ok s)|]. cbn [obind].
  pose proof (set_users_quiet s2 u3 Ht3) as Hq3. set (s3 := set_users s2 u3) in *.
  pose proof (quiet_trans _ _ _ Hq Hq3) as Hq'.
  destruct (reply_lines_ok ls s3 p) as (s4 & -> & Hq4); [by apply (quiet_live s)|]. cbn [obind].
  pose proof (quiet_trans _ _ _ Hq' Hq4) as Hq''.
  destruct (chatUserInfoReply_ok s4 p) as (s5 & -> & Hq5);
    [by apply (quiet_ok s)|by apply (quiet_live s)|].
  exists s5. split; [done|]. by etrans.
Qed.

(** The client becomes the session of a known user who is off line, and
    everyone is told. *)
Lemma user_session_ok s p x name pwd :
  inv s -> sessions s !! p = Some x -> s_user x = 0 -> short name -> short pwd ->
  is_Some (lookup_user (users s) name) -> line (users s) name <> Some s_on ->
  exists s', inv s' /\ live s' p /\ is_Some (lookup_user (users s') name) /\
    forall k : server D DB -> list Z -> option (server D DB),
      (let? s := upd s p (fun c => set_type (set_valid c 1 1) MYNODE_TYPE_USER) in
       let? (u, _) := chatSetOrGetUserInfo (users s) name s_on OPERATION_SET_INFO in
       let s := set_users s u in
       let? s := _chatSend ae s (bytes_of_string "userinfo") name s_all s_on MYNODE_TYPE_USER in
       let? un := sprintf MY_NAME_LENGTH name in
       let? pw := sprintf MY_NAME_LENGTH pwd in
       let? s := upd s p (fun c => set_names c (userid c) un (nodename c) pw) in
       k s un) = k s' name.
Proof.
  intros Hi Hx Hu Hname Hpwd [w Hw] Hoff.
  destruct (upd_session s p x (fun c => set_type (set_valid c 1 1) MYNODE_TYPE_USER)
    (fun x => Session 1 1 MYNODE_TYPE_USER (s_id x) (s_name x) (s_nodename x)) Hx)
    as (s2 & -> & Hc2 & Hu2 & Hs2); [done|]. cbn [obind].
  destruct (setUser_ok (users s2) name s_on) as (u3 & -> & Hok3 & _ & Hne3 & Heq3);
    [rewrite Hu2; by apply inv_wf|by left|]. cbn [obind]. rewrite Hu2 in Hok3, Hne3, Heq3.
  unfold line in Heq3 at 2. rewrite Hw in Heq3. simpl in Heq3. set (s3 := set_users s2 u3) in *.
  assert (live s p) as Hp by (rewrite live_sessions; by exists x).
  assert (clients_ok s3) as Hcl3
    by (eapply (clients_ok_insert s s3 p); [by apply inv_clients|by rewrite <- Hc2|done|exact Hs2]).
  destruct (chatSend_ok s3 (bytes_of_string "userinfo") name s_all s_on MYNODE_TYPE_USER)
    as (s4 & -> & Hq4); [done|apply message_fits; [done|apply Hname]|]. cbn [obind].
  rewrite !short_sprintf by done. cbn [obind].
  destruct (upd_session s4 p (Session 1 1 MYNODE_TYPE_USER (s_id x) (s_name x) (s_nodename x))
    (fun c => set_names c (userid c) name (nodename c) pwd)
    (fun x => Session (s_user x) (s_node x) (s_type x) (s_id x) name (s_nodename x)))
    as (s5 & -> & Hc5 & Hu5 & Hs5); [|done|].
  { rewrite (quiet_sessions _ _ Hq4). change (sessions s3) with (sessions s2).
    by rewrite Hs2, lookup_insert_eq. }
  cbn [obind]. exists s5. rewrite (quiet_sessions _ _ Hq4) in Hs5.
  change (sessions s3) with (sessions s2) in Hs5. rewrite Hs2, insert_insert_eq in Hs5. simpl in Hs5.
  pose proof (quiet_users _ _ Hq4) as Ht4.
  assert (forall n, line (users s5) n = line u3 n) as Hl5
    by (intros n; rewrite Hu5; apply (tbl_line _ _ Ht4)).
  split_and!; [|rewrite live_sessions, Hs5, lookup_insert_eq; by eexists| |done].
  - set (y := Session 1 1 MYNODE_TYPE_USER (s_id x) name (s_nodename x)) in *.
    assert (session_ok y) as Hy by (destruct (inv_sessions _ Hi p x Hx); constructor; simpl; auto).
    constructor; [apply (login_sinv s s5 p x y); try done| |].
    + apply Hi.
    + unfold session_key. by rewrite Hu.
    + by apply session_ok_sized.
    + rewrite Hc5, (quiet_clients _ _ Hq4). simpl. by rewrite Hc2.
    + rewrite Hu5. apply (tbl_wf _ _ Ht4). exact (proj1 Hok3).
    + intros other Ho. rewrite Hl5. by apply Hne3.
    + intros other Ho. rewrite Hl5. by apply Heq3.
    + rewrite Hu5. apply Ht4, Hok3, Hi.
    + by apply (sessions_ok_insert s s5 p y); [apply Hi| |].
  - specialize (Hl5 name). rewrite (Heq3 name eq_refl) in Hl5. unfold line in Hl5.
    by destruct (lookup_user (users s5) name).
Qed.

Lemma chatLogin_ok s p argv :
  inv s -> live s p -> argv_ok argv -> account_loaded s argv ->
  exists s', chatLogin ae db_query s p argv = Some s' /\ inv s'.
Proof.
  intros Hi Hp Ha Hdb. pose proof Hp as [c Hc]. unfold chatLogin. rewrite Hc. cbn [obind].
  assert (sessions s !! p = Some (session_of c)) as Hx by (unfold sessions; by rewrite lookup_fmap, Hc).
  destruct (negb _ || negb _) eqn:Ev.
  { destruct (reply_ok s p errAlreadyLogin Hp) as (s' & -> & Hq). exists s'. split; [done|].
    by apply (quiet_inv s). }
  apply orb_false_iff in Ev as [Eu%negb_false_iff%Z.eqb_eq En%negb_false_iff%Z.eqb_eq].
  destruct (argv_arg argv 2 Ha) as (name & Ename & Hname); [lia|]. rewrite Ename. cbn [obind].
  destruct (argv_arg argv 3 Ha) as (pwd & Epwd & Hpwd); [lia|]. rewrite Epwd. cbn [obind].
  destruct (valid_user_ok s name pwd Hname Hpwd) as (r & Hr & Hr01). rewrite Hr. cbn [obind].
  destruct (Z.leb_spec r 0).
  { destruct (refuse_ok s p (session_of c) errWrongNameOrPwd Hx Eu En) as (s' & -> & Hq).
    exists s'. split; [done|]. by apply (quiet_inv s). }
  assert (r = 1) as -> by lia. destruct (Hdb name pwd Ename Epwd Hr) as [u Hu].
  destruct (getUser_ok (users s) name) as (u1 & -> & Ht1); [by apply inv_wf|]. cbn [obind].
  pose proof (quiet_inv _ _ (set_users_quiet s u1 Ht1) Hi) as Hi1. set (s1 := set_users s u1) in *.
  destruct (streq _ s_on) eqn:Eon.
  { destruct (refuse_ok s1 p (session_of c) errAlreadyLogin Hx Eu En) as (s' & -> & Hq).
    exists s'. split; [done|]. by apply (quiet_inv s1). }
  pose proof (tbl_line _ _ Ht1 name) as Hl1. change u1 with (users s1) in Hl1.
  destruct (user_session_ok s1 p (session_of c) name pwd) as (s5 & Hi5 & Hp5 & [w Hw] & Hk);
    try done.
  { unfold line in Hl1. rewrite Hu in Hl1. by destruct (lookup_user (users s1) name). }
  { rewrite Hl1. intros E. rewrite E in Eon. done. }
  destruct (login_replies_ok s5 p name w (inv_users _ Hi5) Hp5 Hw) as (s6 & E6 & Hq6).
  exists s6. split; [|by apply (quiet_inv s5)]. etrans; [apply Hk|exact E6].
Qed.

(** The client becomes a node of [name], and the user is told. *)
Lemma node_session_ok s p x name uid node :
  inv s -> sessions s !! p = Some x -> s_user x = 0 -> short name -> short uid -> short node ->
  exists s',
    (let? s := upd s p (fun c =>
       set_names (set_type (set_valid c 1 1) MYNODE_TYPE_NODE) uid name node (password c)) in
     let? s := _chatSend ae s (bytes_of_string "nodeinfo") node name s_on MYNODE_TYPE_USER in
     let? (u, _) := chatSetOrGetNodeInfo (users s) name node s_on OPERATION_SET_INFO in
     Some (set_users s u)) = Some s' /\ inv s'.
Proof.
  intros Hi Hx Hu Hname Huid Hnode.
  destruct (upd_session s p x
    (fun c => set_names (set_type (set_valid c 1 1) MYNODE_TYPE_NODE) uid name node (password c))
    (fun _ => Session 1 1 MYNODE_TYPE_NODE uid name node) Hx)
    as (s1 & -> & Hc1 & Hu1 & Hs1); [done|]. cbn [obind].
  assert (inv s1) as Hi1.
  { set (y := Session 1 1 MYNODE_TYPE_NODE uid name node) in *.
    assert (session_ok y) as Hy by (constructor; simpl; auto).
    constructor; [apply (insert_session_sinv s s1 p x y); try done| |].
    - apply Hi.
    - unfold session_key. by rewrite Hu.
    - by apply session_ok_sized.
    - by rewrite Hc1.
    - rewrite Hu1. by apply inv_wf.
    - by rewrite Hu1.
    - rewrite Hu1. apply Hi.
    - by apply (sessions_ok_insert s s1 p y); [apply Hi| |]. }
  destruct (chatSend_ok s1 (bytes_of_string "nodeinfo") node name s_on MYNODE_TYPE_USER)
    as (s2 & -> & Hq2); [by apply inv_clients|apply message_fits; [done|apply Hnode]|]. cbn [obind].
  pose proof (quiet_inv _ _ Hq2 Hi1) as Hi2.
  destruct (setNode_ok (users s2) name node s_on) as (u3 & -> & Ht3); [by apply inv_wf|by left|].
  cbn [obind]. eexists. split; [done|]. apply (quiet_inv s2); [|done]. by apply set_users_quiet.
Qed.

Lemma nodeLogin_ok s p argv :
  inv s -> live s p -> argv_ok argv ->
  exists s', nodeLogin ae db_exec s p argv = Some s' /\ inv s'.
Proof.
  intros Hi Hp Ha. pose proof Hp as [c Hc]. unfold nodeLogin. rewrite Hc. cbn [obind].
  assert (sessions s !! p = Some (session_of c)) as Hx by (unfold sessions; by rewrite lookup_fmap, Hc).
  destruct (negb _ || negb _) eqn:Ev.
  { destruct (reply_ok s p errAlreadyLogin Hp) as (s' & -> & Hq). exists s'. split; [done|].
    by apply (quiet_inv s). }
  apply orb_false_iff in Ev as [Eu%negb_false_iff%Z.eqb_eq En%negb_false_iff%Z.eqb_eq].
  destruct (argv_arg argv 2 Ha) as (uid & -> & Huid); [lia|]. cbn [obind].
  destruct (argv_arg argv 3 Ha) as (node & -> & Hnode); [lia|]. cbn [obind].
  destruct (getName_ok (users s) uid) as (r & -> & Hname); [apply Hi|]. cbn [obind].
  destruct r as [name|].
  2:{ destruct (refuse_ok s p (session_of c) errWrongNameOrPwd Hx Eu En) as (s' & -> & Hq).
      exists s'. split; [done|]. by apply (quiet_inv s). }
  specialize (Hname name eq_refl).
  destruct (nodeSize_ok (users s) name) as (u1 & r1 & -> & Ht1); [by apply inv_wf|]. cbn [obind].
  pose proof (quiet_inv _ _ (set_users_quiet s u1 Ht1) Hi) as Hi1. set (s1 := set_users s u1) in *.
  destruct (getNode_ok (users s1) (username c) (nodename c)) as (u2 & st & -> & Ht2); [by apply inv_wf|].
  cbn [obind]. pose proof (quiet_inv _ _ (set_users_quiet s1 u2 Ht2) Hi1) as Hi2.
  set (s2 := set_users s1 u2) in *. destruct (streq st s_on).
  { destruct (refuse_ok s2 p (session_of c) errAlreadyLogin Hx Eu En) as (s' & -> & Hq).
    exists s'. split; [done|]. by apply (quiet_inv s2). }
  destruct (insertNode_ok (users s2) name node) as (u3 & r3 & -> & Ht3); [apply Hi2|done|].
  cbn [obind]. pose proof (quiet_inv _ _ (set_users_quiet s2 u3 Ht3) Hi2) as Hi3.
  set (s3 := set_users s2 u3) in *. destruct (r3 =? -1).
  { destruct (refuse_ok s3 p (session_of c) errTooManyNodes Hx Eu En) as (s' & -> & Hq).
    exists s'. split; [done|]. by apply (quiet_inv s3). }
  rewrite (sprintf_Some 256) by fits.
  match goal with |- context [obind (if r3 =? 1 then ?a else ?b) _] =>
    assert (exists s4, (if r3 =? 1 then a else b) = Some s4 /\ quiet s3 s4) as (s4 & -> & Hq4) end.
  { destruct (r3 =? 1); eexists; (split; [done|]); [|done]. by constructor. }
  cbn [obind]. rewrite sprintf_Some by fits. cbn [obind].
  match goal with |- context [reply_to ae s4 p ?t] =>
    destruct (reply_ok s4 p t) as (s5 & -> & Hq5); [by apply (quiet_live s3)|] end.
  cbn [obind]. rewrite !short_sprintf by done. cbn [obind].
  pose proof (quiet_trans _ _ _ Hq4 Hq5) as Hq.
  apply (node_session_ok s5 p (session_of c)); try done; [by apply (quiet_inv s3)|].
  by rewrite (quiet_sessions _ _ Hq).
Qed.

(** The length of a node's message that fits the buffer with a short name. *)
Definition SAY_MAX : Z := 948.

Lemma nodeSay_ok s p argv msg :
  inv s -> live s p -> length argv = 4%nat -> arg argv 3 = Some msg -> zlen msg <= SAY_MAX ->
  exists s', nodeSay ae s p argv = Some s' /\ quiet s s'.
Proof.
  intros Hi [c Hc] Ha Em Hmsg. unfold nodeSay. rewrite Hc. cbn [obind].
  destruct (client_session_ok s p c (inv_sessions _ Hi) Hc) as [_ _ Hn Hnn].
  assert (exists to, arg argv 2 = Some to) as [to ->].
  { unfold arg. destruct (lookup_lt_is_Some_2 argv 2) as [a Ha2]; [lia|]. rewrite Ha2. by eexists. }
  rewrite Em. cbn [obind]. unfold SAY_MAX in *.
  destruct (_ =? _); [|destruct (_ =? _); [|by exists s]];
    (apply chatSend_ok; [by apply inv_clients|apply message_fits; [cbn; lia|apply Hn || apply Hnn]]).
Qed.

Lemma chatSay_ok s p argv :
  inv s -> live s p -> length argv = 4%nat -> exists s', chatSay ae s p argv = Some s' /\ quiet s s'.
Proof.
  intros Hi [c Hc] Ha. unfold chatSay. rewrite Hc. cbn [obind].
  destruct (_ =? _); [by apply reply_ok; exists c|].
  do 5 (destruct argv as [|? argv]; try done). unfold arg. cbn [lookup list_lookup obind].
  match goal with |- context [cstr ?a] => destruct (Z.ltb_spec MYCHAT_MAX_MESSAGE (zlen (cstr a))) end;
    [by apply reply_ok; exists c|].
  apply chatSend_ok; [by apply inv_clients|]. apply message_fits; [unfold MYCHAT_MAX_MESSAGE in *; cbn; lia|].
  apply (client_session_ok s p c (inv_sessions _ Hi) Hc).
Qed.

Lemma touch_ok s p : live s p -> exists s', touch s p = Some s' /\ quiet s s'.
Proof. intros Hl. by apply upd_ok. Qed.

Lemma myDebugEntry_ok s p :
  inv s -> live s p -> exists s', myDebugEntry ae s p = Some s' /\ quiet s s'.
Proof.
  intros Hi Hp. pose proof Hp as [c Hc]. unfold myDebugEntry. rewrite Hc. cbn [obind].
  destruct (negb _); [by exists s|].
  destruct (dumpClients_ok s p) as (s1 & -> & Hq1 & _); [by apply inv_clients|apply Hi|done|]. cbn [obind].
  destruct (dumpAlluser_ok s1 p) as (s2 & -> & Hq2 & _).
  - apply (quiet_ok s); [done|apply Hi].
  - by apply (quiet_live s).
  - exists s2. split; [done|]. by etrans.
Qed.

Definition room s : Prop := Z.of_nat (base.size (ud_map (myuserdict (users s)))) < 2 ^ 29.

Lemma add_user_sinv s u :
  sinv s -> ut_wf u ->
  (forall other, line u other = line (users s) other \/
     (line (users s) other = None /\ line u other = Some s_off)) -> sinv (set_users s u).
Proof.
  intros [A B C E F] Hu Hl. constructor; [done..|]. intros name.
  change (line u name = Some s_on <-> exists p, online s p (lower name)). rewrite <- F.
  destruct (Hl name) as [->|[-> ->]]; done.
Qed.

Lemma add_user_inv s u :
  inv s -> users_ok u ->
  (forall other, line u other = line (users s) other \/
     (line (users s) other = None /\ line u other = Some s_off)) -> inv (set_users s u).
Proof. intros [A B C] Hu Hl. constructor; [|done..]. apply add_user_sinv; [done|apply Hu|done]. Qed.

Lemma myAddUser_ok s p argv :
  inv s -> live s p -> argv_ok argv -> room s ->
  exists s', myAddUser s p argv = Some s' /\ inv s'.
Proof.
  intros Hi [c Hc] Ha Hr. unfold myAddUser. rewrite Hc. cbn [obind].
  destruct (negb _); [by exists s|].
  destruct (argv_arg argv 2 Ha) as (uid & -> & Huid); [lia|].
  destruct (argv_arg argv 3 Ha) as (name & -> & Hname); [lia|]. cbn [obind].
  destruct (insertUser_ok (users s) uid name (inv_users _ Hi) Huid Hname Hr) as (u & -> & Hu & Hl & _).
  cbn [obind]. eexists. split; [done|]. by apply add_user_inv.
Qed.

(** What a [chat] command must meet: a login has short words and an account
    that was loaded, a new account has short words and room in the table;
    nothing is asked of the other words. *)
Definition chat_ok s (argv : list (list Z)) : Prop :=
  length argv = 4%nat /\ forall sub, arg argv 1 = Some sub ->
    (streq sub (bytes_of_string "login") = true -> argv_ok argv /\ account_loaded s argv) /\
    (streq sub (bytes_of_string "adduser") = true -> argv_ok argv /\ room s).

(** And a [node] command: short words in a login, a message that fits. *)
Definition node_ok_args (argv : list (list Z)) : Prop :=
  length argv = 4%nat /\ forall sub, arg argv 1 = Some sub ->
    (streq sub (bytes_of_string "login") = true -> argv_ok argv) /\
    (streq sub (bytes_of_string "say") = true -> exists msg, arg argv 3 = Some msg /\ zlen msg <= SAY_MAX).

Lemma four_words argv : length argv = 4%nat -> exists sub, arg argv 1 = Some sub.
Proof.
  intros H. unfold arg. destruct (lookup_lt_is_Some_2 argv 1) as [a Ha]; [lia|]. rewrite Ha. by eexists.
Qed.

Lemma chatCommand_ok s p argv :
  inv s -> live s p -> chat_ok s argv ->
  exists s', chatCommand ae db_query s p argv = Some s' /\ inv s'.
Proof.
  intros Hi Hp [Ha Hsub]. unfold chatCommand.
  destruct (four_words argv Ha) as [sub Es]. destruct (Hsub sub Es) as [Hlog Hadd].
  rewrite Es. cbn [obind].
  destruct (streq sub (bytes_of_string "login")); [destruct (Hlog eq_refl); by apply chatLogin_ok|].
  assert (forall r, (exists s', r = Some s' /\ quiet s s') -> exists s', r = Some s' /\ inv s') as Hq.
  { intros r (s' & -> & Hq). exists s'. split; [done|]. by apply (quiet_inv s). }
  pose proof Hp as [c Hc]. rewrite Hc. cbn [obind].
  destruct (_ =? _); [by apply Hq, reply_ok|].
  destruct (streq sub (bytes_of_string "say")); [by apply Hq, chatSay_ok|].
  destruct (streq sub (bytes_of_string "userinfo")); [apply Hq, chatUserInfoReply_ok; [apply Hi|done]|].
  destruct (streq sub (bytes_of_string "heartbeat")); [by apply Hq, touch_ok|].
  destruct (streq sub (bytes_of_string "debug")); [by apply Hq, myDebugEntry_ok|].
  destruct (streq sub (bytes_of_string "adduser")); [destruct (Hadd eq_refl); by apply myAddUser_ok|by exists s].
Qed.

Lemma nodeCommand_ok s p argv :
  inv s -> live s p -> node_ok_args argv ->
  exists s', nodeCommand ae db_exec s p argv = Some s' /\ inv s'.
Proof.
  intros Hi Hp [Ha Hsub]. unfold nodeCommand.
  destruct (four_words argv Ha) as [sub Es]. destruct (Hsub sub Es) as [Hlog Hsay].
  rewrite Es. cbn [obind].
  destruct (streq sub (bytes_of_string "login")); [by apply nodeLogin_ok, Hlog|].
  assert (forall r, (exists s', r = Some s' /\ quiet s s') -> exists s', r = Some s' /\ inv s') as Hq.
  { intros r (s' & -> & Hq). exists s'. split; [done|]. by apply (quiet_inv s). }
  pose proof Hp as [c Hc]. rewrite Hc. cbn [obind].
  destruct (_ =? _); [by apply Hq, reply_ok|].
  destruct (streq sub (bytes_of_string "say")).
  { destruct (Hsay eq_refl) as (msg & Em & Hm). by apply Hq, (nodeSay_ok s p argv msg). }
  destruct (streq sub _); [by apply Hq, touch_ok|by exists s].
Qed.

(** *** Connections *)

(** What a notification does to the table of accounts. *)
Record notified s s' (k : option (list Z)) : Prop := {
  nt_clients : clients s' ≡ₚ clients s;
  nt_sessions : sessions s' = sessions s;
  nt_wf : ut_wf (users s');
  nt_users : users_ok (users s) -> users_ok (users s');
  nt_others : forall other, k <> Some (lower other) -> line (users s') other = line (users s) other;
  nt_own : forall other, k = Some (lower other) -> line (users s') other <> Some s_on
}.

Lemma quiet_notified s s' : sinv s -> quiet s s' -> notified s s' None.
Proof.
  intros Hi Hq. constructor; [apply Hq|apply Hq|apply (tbl_wf _ _ (quiet_users _ _ Hq)), Hi|by apply (quiet_ok s)| |done].
  intros other _. apply (tbl_line _ _ (quiet_users _ _ Hq)).
Qed.

(** A note about a session fits the buffer: the arrays bound the names. *)
Lemma note_fits tag from state :
  zlen tag <= 16 -> zlen from < MY_NAME_LENGTH -> state = s_on \/ state = s_off ->
  zlen (message_text tag from state) <= 1023.
Proof. intros ? ? [-> | ->]; unfold message_text; fits. Qed.

Lemma chatNotify_ok s p x :
  sinv s -> sessions s !! p = Some x ->
  exists s', chatNotifyUserInfo ae s p = Some s' /\ notified s s' (session_key x).
Proof.
  intros Hi Hx. pose proof (sinv_sessions _ Hi p x Hx) as [Hfl Hn Hnn].
  pose proof (sinv_clients _ Hi) as Hc. pose proof (sinv_users _ Hi) as Hw.
  assert (exists c, objects s !! p = Some c /\ session_of c = x) as (c & Hco & <-).
  { unfold sessions in Hx. rewrite lookup_fmap in Hx.
    destruct (objects s !! p) as [c|]; [|done]. exists c. split; [done|]. by injection Hx. }
  unfold chatNotifyUserInfo. rewrite Hco. cbn [obind].
  simpl in Hfl, Hn, Hnn. destruct Hfl as [[Hu Hv]|(Hu & Hv & Ht)].
  { rewrite Hu. exists s. split; [done|].
    replace (session_key (session_of c)) with (@None (list Z)) by (unfold session_key; simpl; by rewrite Hu).
    by apply quiet_notified. }
  assert (session_key (session_of c) =
    if mynode_type c =? MYNODE_TYPE_USER then Some (lower (username c)) else None) as Hk
    by (unfold session_key; simpl; by rewrite Hu). rewrite Hk. clear Hk.
  rewrite Hu, Hv. cbn [Z.eqb orb]. destruct Ht as [Ht|Ht]; rewrite Ht.
  - rewrite Z.eqb_refl.
    destruct (chatSend_ok s (bytes_of_string "userinfo") (username c) s_all s_off MYNODE_TYPE_USER)
      as (s1 & -> & Hq1); [done|apply note_fits; auto; done|]. cbn [obind].
    destruct (setUser_ok (users s1) (username c) s_off) as (u2 & -> & [Hw2 Hok2] & _ & Hne & Heq);
      [by apply (tbl_wf _ _ (quiet_users _ _ Hq1))|by right|]. cbn [obind]. eexists. split; [done|].
    constructor; simpl; [apply Hq1|apply Hq1|done|by intros ?%(quiet_ok _ _ Hq1)%Hok2| |].
    + intros other Ho. rewrite Hne by congruence. apply (tbl_line _ _ (quiet_users _ _ Hq1)).
    + intros other [= Ho]. rewrite Heq by done. by destruct (line _ _).
  - change (MYNODE_TYPE_NODE =? MYNODE_TYPE_USER) with false. rewrite Z.eqb_refl.
    destruct (chatSend_ok s (bytes_of_string "nodeinfo") (nodename c) (username c) s_off
                MYNODE_TYPE_USER)
      as (s1 & -> & Hq1); [done|apply note_fits; auto; done|]. cbn [obind].
    destruct (setNode_ok (users s1) (username c) (nodename c) s_off) as (u2 & -> & Ht2);
      [by apply (tbl_wf _ _ (quiet_users _ _ Hq1))|by right|]. cbn [obind]. eexists. split; [done|].
    apply quiet_notified; [done|]. etrans; [done|]. by apply set_users_quiet.
Qed.

Lemma del_node_ok p l : p ∈ l -> exists l', del_node p l = Some l' /\ l ≡ₚ p :: l'.
Proof.
  induction l as [|q l IH]; intros Hp; [by apply not_elem_of_nil in Hp|]. simpl.
  case_bool_decide as Hq; [subst; by eexists|].
  apply elem_of_cons in Hp as [->|Hp]; [done|]. destruct (IH Hp) as (l' & -> & Hl). simpl.
  eexists. split; [done|]. rewrite Hl. apply Permutation_swap.
Qed.

Lemma freeClient_sinv s p :
  sinv s -> live s p ->
  exists s', freeClient ae s p = Some s' /\ sinv s' /\ (users_ok (users s) -> users_ok (users s')) /\
    sessions s' = delete p (sessions s) /\
    forall x, sessions s !! p = Some x ->
      (forall other, session_key x <> Some (lower other) ->
         line (users s') other = line (users s) other) /\
      (forall other, session_key x = Some (lower other) -> line (users s') other <> Some s_on).
Proof.
  intros Hi Hp. pose proof (proj1 (live_sessions s p) Hp) as [x Hx].
  destruct (chatNotify_ok s p x Hi Hx) as (s1 & Hn & [Hc1 Hs1 Hw1 Hu1 Hne Hon]).
  unfold freeClient. rewrite Hn. cbn [obind].
  destruct (upd_session s1 p x (fun c => set_valid (set_names c [] [] [] []) 0 0)
    (fun x => Session 0 0 (s_type x) [] [] [])) as (s2 & -> & Hc2 & Hu2 & Hs2); [by rewrite Hs1|done|].
  cbn [obind]. destruct (del_node_ok p (clients s2)) as (l & -> & Hl).
  { rewrite Hc2, Hc1. by apply (sinv_clients _ Hi). }
  cbn [obind]. eexists. split; [done|]. set (s3 := Server _ _ _ _ _).
  assert (sessions s3 = delete p (sessions s)) as Hs3.
  { unfold s3, sessions in *. simpl. rewrite fmap_delete, Hs2, Hs1. apply delete_insert_eq. }
  assert (clients s ≡ₚ p :: l) as Hpl by (by rewrite <- Hl, Hc2, Hc1).
  assert (users s3 = users s1) as Hu3 by exact Hu2. assert (clients s3 = l) as Hl3 by done. clearbody s3. rewrite Hu3.
  split; [|split; [done|split; [done|intros y Hy; by simplify_eq]]].
  assert (forall q k, online s3 q k <-> q <> p /\ online s q k) as Ho.
  { intros q k. unfold online. rewrite Hs3. destruct (decide (p = q)) as [->|Hq].
    - rewrite lookup_delete_eq. split; [by intros (y & ? & _)|tauto].
    - rewrite lookup_delete_ne by done. split; [intros H; split; [congruence|done]|tauto]. }
  destruct Hi as [[Hnd Hin] B C E F]. rewrite Hpl in Hnd. apply NoDup_cons in Hnd as [Hpn Hnd].
  constructor.
  - assert (forall q, q ∈ clients s3 <-> q ∈ l) as Hcl by (intros q; by rewrite Hl3).
    split; [by rewrite Hl3|]. intros q. rewrite Hcl, live_sessions, Hs3. destruct (decide (p = q)) as [<-|Hq].
    + rewrite lookup_delete_eq. split; [done|by intros []].
    + rewrite lookup_delete_ne by done. rewrite <- live_sessions, <- Hin, Hpl, elem_of_cons.
      intuition congruence.
  - by rewrite Hu3.
  - intros q y. rewrite Hs3, lookup_delete_Some. intros [_ Hy]. by apply (C q).
  - intros q r k [_ Hq]%Ho [_ Hr]%Ho. by eapply E.
  - intros name. setoid_rewrite Ho. rewrite Hu3.
    destruct (decide (session_key x = Some (lower name))) as [Hk|Hk].
    + split; [intros Hl1; by destruct (Hon name Hk)|]. intros (q & Hq & Hqo). destruct Hq.
      apply (E q p (lower name)); [done|]. by exists x.
    + rewrite Hne, F by done. split; [|intros (q & _ & Hq); by exists q].
      intros (q & Hq). exists q. split; [|done]. intros ->.
      destruct Hq as (y & Hy & Hky). congruence.
Qed.

Lemma freeClient_ok s p :
  inv s -> live s p -> exists s', freeClient ae s p = Some s' /\ inv s'.
Proof.
  intros [A B C] Hp. destruct (freeClient_sinv s p A Hp) as (s' & E & A' & B' & Hs & _).
  exists s'. split; [done|]. constructor; [done|by apply B'|].
  intros q x. rewrite Hs. intros [_ Hx]%lookup_delete_Some. by apply (C q).
Qed.

Lemma createClient_sessions s p fd junk :
  sessions (createClient s p fd junk) = <[p := Session 0 0 junk [] [] []]> (sessions s).
Proof. unfold sessions. simpl. by rewrite fmap_insert. Qed.

Lemma createClient_sinv s p fd junk : sinv s -> ~ live s p -> sinv (createClient s p fd junk).
Proof.
  intros [[Hnd Hin] B C E F] Hp. set (s' := createClient s p fd junk).
  pose proof (createClient_sessions s p fd junk) as Hs. fold s' in Hs.
  assert (forall q k, online s' q k <-> online s q k) as Ho.
  { intros q k. rewrite (online_insert s s' p _ q k Hs). split; [by intros [[_ ?]|[_ ?]]|].
    intros Hq. right. split; [|done]. intros ->. apply Hp. rewrite live_sessions.
    destruct Hq as (y & Hy & _). by exists y. }
  constructor.
  - split.
    + simpl. apply NoDup_app. split; [done|]. split; [|by apply NoDup_singleton].
      intros q Hq%Hin ->%list_elem_of_singleton. done.
    + intros q. simpl. rewrite elem_of_app, list_elem_of_singleton, live_sessions, Hs.
      rewrite lookup_insert_is_Some', <- live_sessions, Hin. intuition congruence.
  - done.
  - apply (sessions_sized_insert s s' p (Session 0 0 junk [] [] [])); [done| |done].
    constructor; simpl; auto; done.
  - intros q r k. rewrite !Ho. apply E.
  - intros name. setoid_rewrite Ho. apply F.
Qed.

Lemma createClient_ok s p fd junk : inv s -> ~ live s p -> inv (createClient s p fd junk).
Proof.
  intros [A B C] Hp. constructor; [by apply createClient_sinv|done|].
  apply (sessions_ok_insert s _ p (Session 0 0 junk [] [] [])); [done| |apply createClient_sessions].
  constructor; simpl; auto using short_nil.
Qed.

(** *** Start-up *)

(** A row of the account table, and those of the node table that belong to
    it: the columns are short. *)
Definition row_ok (d : DB) (row : list (list Z)) : Prop :=
  exists uid name rest, row = uid :: name :: rest /\ short uid /\ short name /\
    forall rows, db_query d (node_query uid) = Some rows ->
      Forall (fun row => exists nid rest, row = nid :: rest /\ short nid) rows.

Definition db_ok (d : DB) : Prop :=
  forall rows, db_query d user_query = Some rows -> zlen rows < 2 ^ 29 /\ Forall (row_ok d) rows.

(** Accounts may have been added, off line. *)
Definition grows (u u' : usertable D) : Prop :=
  forall other, line u' other = line u other \/ (line u other = None /\ line u' other = Some s_off).

#[local] Instance grows_trans : Transitive grows.
Proof.
  intros a b c H1 H2 n. destruct (H1 n) as [E1|[? E1]], (H2 n) as [E2|[? E2]]; rewrite ?E2, ?E1; auto.
  - right. split; [|done]. congruence.
Qed.

Lemma load_nodes_ok rows (u : usertable D) name :
  users_ok u -> Forall (fun row => exists nid rest, row = nid :: rest /\ short nid) rows ->
  exists u', load_nodes rows u name = Some u' /\ tbl_eq u u'.
Proof.
  revert u. induction rows as [|row rows IH]; intros u Hu Hall; simpl; [by exists u|].
  apply Forall_cons in Hall as [(nid & rest & -> & Hn) Hall]. cbn [lookup list_lookup obind].
  rewrite sprintf_Some by fits. cbn [obind].
  destruct (insertNode_ok u name nid Hu Hn) as (u1 & r & -> & Ht). cbn [obind].
  destruct (IH u1) as (u2 & -> & Ht2); [by apply Ht|done|]. exists u2. split; [done|]. by etrans.
Qed.

Lemma load_users_ok rows d : forall u : usertable D,
  users_ok u -> Forall (row_ok d) rows ->
  Z.of_nat (base.size (ud_map (myuserdict u))) + zlen rows <= 2 ^ 29 ->
  exists u', load_users db_query rows d u = Some u' /\ users_ok u' /\ grows u u'.
Proof.
  induction rows as [|row rows IH]; intros u Hu Hall Hsz;
    cbn [load_users]; [exists u; split; [reflexivity|split; [done|by left]]|].
  apply Forall_cons in Hall as [(uid & name & rest & -> & Hid & Hn & Hnodes) Hall].
  cbn [lookup list_lookup obind]. cbn [length] in Hsz.
  destruct (insertUser_ok u uid name Hu Hid Hn) as (u1 & Hi & Hu1 & Hl1 & Hs1); [lia|].
  rewrite Hi. cbn [obind].
  assert (exists u2, insert_all_node db_query d u1 uid name = Some u2 /\ tbl_eq u1 u2) as (u2 & -> & Ht).
  { unfold insert_all_node. rewrite sprintf_Some by (unfold node_query; fits). cbn [obind].
    destruct (db_query d (node_query uid)) as [rs|] eqn:Eq; [|by exists u1].
    apply load_nodes_ok; [done|]. by apply Hnodes. }
  cbn [obind]. destruct (IH u2) as (u3 & -> & Hu3 & Hg); [by apply Ht|done|rewrite (tbl_map _ _ Ht); lia|].
  exists u3. split; [done|]. split; [done|]. apply (grows_trans _ u1); [done|].
  intros n. rewrite <- (tbl_line _ _ Ht n). apply Hg.
Qed.

Lemma empty_table_line name : line (empty_table : usertable D) name = None.
Proof. unfold line, lookup_user. simpl. by rewrite ud_create_map, lookup_empty. Qed.

Lemma init_inv d now : inv (init_server d now : server D DB).
Proof.
  assert (forall p k, ~ online (init_server d now) p k) as Hno.
  { intros p k (x & Hx & _). unfold sessions in Hx. simpl in Hx. by rewrite fmap_empty, lookup_empty in Hx. }
  constructor; [constructor; simpl; [split; [constructor|]|apply empty_table_wf| | |]| |].
  - intros p. unfold live. simpl. rewrite lookup_empty.
    split; [by intros ?%not_elem_of_nil|by intros []].
  - intros p x. unfold sessions. simpl. by rewrite fmap_empty, lookup_empty.
  - intros p q k Hp. by destruct (Hno p k).
  - intros name. rewrite empty_table_line. split; [done|intros [p Hp]; by destruct (Hno p (lower name))].
  - split; [apply empty_table_wf|]. intros n u Hu. pose proof (empty_table_line n) as E.
    unfold line in E. simpl in Hu. by rewrite Hu in E.
  - intros p x. unfold sessions. simpl. by rewrite fmap_empty, lookup_empty.
Qed.

Lemma startup_ok d now :
  db_ok d -> exists s, do_mysql_dump_redis db_query (init_server d now) = Some s /\ inv s.
Proof.
  intros Hdb. pose proof (init_inv d now) as Hi. unfold do_mysql_dump_redis. simpl db.
  destruct (db_query d user_query) as [rows|] eqn:Eq; [|by eexists].
  destruct (Hdb rows Eq) as [Hsz Hall].
  destruct (load_users_ok rows d empty_table (inv_users _ Hi) Hall) as (u & El & Hu & Hg).
  { cbn [empty_table myuserdict]. rewrite ud_create_map, map_size_empty. lia. }
  cbn [init_server users]. rewrite El. cbn [obind]. eexists. split; [done|]. by apply add_user_inv.
Qed.

(** *** Runs of the server *)

Inductive event :=
  | Connect (p : nat) (fd junk : Z)
  | ChatCommand (p : nat) (argv : list (list Z))
  | NodeCommand (p : nat) (argv : list (list Z))
  | Disconnect (p : nat)
  | IdleCheck (maxidletime : Z) (p : nat)
  | Tick (now : Z).

Definition run_event s (e : event) : option (server D DB) :=
  match e with
  | Connect p fd junk => Some (createClient s p fd junk)
  | ChatCommand p argv => chatCommand ae db_query s p argv
  | NodeCommand p argv => nodeCommand ae db_exec s p argv
  | Disconnect p => freeClient ae s p
  | IdleCheck maxidle p => let? (s, _) := clientsCronHandleTimeout ae maxidle s p in Some s
  | Tick now => Some (Server (clients s) (objects s) (users s) (db s) now)
  end.

(** What the rest of the server guarantees of an event: a new connection has
    a fresh address, commands come from connected clients with four words
    each (the arity in the command table) and meet their conditions. *)
Definition event_ok s (e : event) : Prop :=
  match e with
  | Connect p _ _ => ~ live s p
  | ChatCommand p argv => live s p /\ chat_ok s argv
  | NodeCommand p argv => live s p /\ node_ok_args argv
  | Disconnect p | IdleCheck _ p => live s p
  | Tick _ => True
  end.

Inductive reachable : server D DB -> Prop :=
  | reach_boot d now s :
      db_ok d -> do_mysql_dump_redis db_query (init_server d now) = Some s -> reachable s
  | reach_step s e s' :
      reachable s -> event_ok s e -> run_event s e = Some s' -> reachable s'.

Lemma run_event_ok s e : inv s -> event_ok s e -> exists s', run_event s e = Some s' /\ inv s'.
Proof.
  intros Hi Hok. destruct e as [p fd junk|p argv|p argv|p|maxidle p|now]; simpl in *.
  - eexists. split; [done|]. by apply createClient_ok.
  - destruct Hok as (? & ?). by apply chatCommand_ok.
  - destruct Hok as (? & ?). by apply nodeCommand_ok.
  - by apply freeClient_ok.
  - unfold clientsCronHandleTimeout. pose proof Hok as [c Hc]. rewrite Hc. cbn [obind].
    destruct (_ && _); [|by exists s]. destruct (streq _ _); [by exists s|].
    destruct (freeClient_ok s p Hi Hok) as (s' & -> & ?). by exists s'.
  - eexists. split; [done|]. apply (quiet_inv s); [|done]. by constructor.
Qed.

Lemma reachable_inv s : reachable s -> inv s.
Proof.
  induction 1 as [d now s Hdb Hs|s e s' _ IH He Hs].
  - destruct (startup_ok d now Hdb) as (s' & Hs' & Hi). congruence.
  - destruct (run_event_ok s e IH He) as (s'' & Hs'' & Hi). congruence.
Qed.

(** What the clients are sent: the text, or what [snprintf] leaves of one
    byte too many. *)
Definition cut_text (text : list Z) : list Z :=
  if decide (zlen text <= 1023) then text else take 1023 text ++ [0].

Lemma snprintf_cut text : zlen text <= 1024 -> snprintf_reply text = Some (cut_text text).
Proof.
  intros H. unfold cut_text. destruct (decide (zlen text <= 1023)); [by apply snprintf_fits|].
  unfold snprintf_reply. rewrite (proj2 (Z.leb_le _ _)) by lia.
  by rewrite (take_ge (take 1023 text ++ [0]))
    by (rewrite length_app, length_take; change (length [0]) with 1%nat; lia).
Qed.

Lemma snprintf_overrun text : 1024 < zlen text -> snprintf_reply text = None.
Proof. intros H. unfold snprintf_reply. by rewrite (proj2 (Z.leb_gt _ _)) by lia. Qed.

(** A client that is being closed or cannot be written to gets nothing. *)
Lemma reply_closed o text : ~ out_open ae o -> addReplyString ae o text = o.
Proof.
  unfold out_open, addReplyString, _addReplyToBuffer. destruct (prepareClientToWrite ae o); [|done].
  destruct (has_flag o REDIS_CLOSE_AFTER_REPLY); [done|]. by intros [].
Qed.


(** The server never faults.  In every reachable state, every event
    that the rest of the server can deliver is handled without a buffer
    overflow, a null pointer, a dangling record or a failed assertion. *)
Theorem server_never_faults s e :
  reachable s -> event_ok s e -> exists s', run_event s e = Some s'.
Proof.
  intros Hr He. destruct (run_event_ok s e (reachable_inv s Hr) He) as (s' & Hs & _).
  by exists s'.
Qed.

(** An account is marked [on] exactly when some connected client is logged in
    as that user, and no account has two such clients. *)
Definition consistent s : Prop :=
  (forall name u, lookup_user (users s) name = Some u ->
     u_line u = s_on <->
     exists p c, p ∈ clients s /\ objects s !! p = Some c /\ isvaliduser c = 1 /\
       mynode_type c = MYNODE_TYPE_USER /\ lower (username c) = lower name) /\
  (forall p q c c', objects s !! p = Some c -> objects s !! q = Some c' ->
     isvaliduser c = 1 -> mynode_type c = MYNODE_TYPE_USER ->
     isvaliduser c' = 1 -> mynode_type c' = MYNODE_TYPE_USER ->
     lower (username c) = lower (username c') -> p = q).

Lemma inv_consistent s : sinv s -> consistent s.
Proof.
  intros Hi.
  assert (forall p k, online s p k <->
    exists c, objects s !! p = Some c /\ isvaliduser c = 1 /\ mynode_type c = MYNODE_TYPE_USER /\
      lower (username c) = k) as Ho.
  { intros p k. unfold online, sessions. rewrite lookup_fmap. split.
    - intros (x & Hx & Hk). destruct (objects s !! p) as [c|]; [|done]. simpl in Hx. simplify_eq.
      exists c. unfold session_key in Hk. simpl in Hk.
      destruct (Z.eqb_spec (isvaliduser c) 1); [|done].
      destruct (Z.eqb_spec (mynode_type c) MYNODE_TYPE_USER); [|done]. by simplify_eq/=.
    - intros (c & -> & Hu & Ht & <-). eexists. split; [done|]. unfold session_key. simpl.
      by rewrite Hu, Ht. }
  split.
  - intros name u Hu. pose proof (sinv_line _ Hi name) as Hl. unfold line in Hl. rewrite Hu in Hl.
    simpl in Hl. transitivity (Some (u_line u) = Some s_on); [split; congruence|]. rewrite Hl.
    setoid_rewrite Ho. split; intros (p & c & H); exists p, c; [|tauto].
    split; [|done]. apply (sinv_clients _ Hi). exists c. tauto.
  - intros p q c c' Hp Hq ? ? ? ? E. apply (sinv_unique _ Hi p q (lower (username c))); apply Ho.
    + by exists c.
    + by exists c'.
Qed.

(** Sessions and line states agree.  In every reachable state an account
    is marked [on] exactly when some connected client is logged in as that
    user, and no account has two such clients. *)
Theorem sessions_consistent s : reachable s -> consistent s.
Proof. intros H. by apply inv_consistent, inv_sinv, reachable_inv. Qed.

(** The refusal of a command before login. *)
Definition denied s p c : server D DB :=
  set_objects s (<[p := set_out c (addReplyString ae (out c) errNodeNoLogin)]> (objects s)).

(** Commands before a login are refused.  A client whose flags are
    clear, sending anything but a login, gets the refusal appended to its own
    output, and nothing else in the server changes. *)
Theorem login_required s p c argv sub :
  objects s !! p = Some c -> isvaliduser c = 0 -> isvalidnode c = 0 ->
  arg argv 1 = Some sub -> streq sub (bytes_of_string "login") = false ->
  chatCommand ae db_query s p argv = Some (denied s p c) /\
  nodeCommand ae db_exec s p argv = Some (denied s p c).
Proof.
  intros Hc Hu Hn Hsub Hlog. unfold chatCommand, nodeCommand. rewrite Hsub. cbn [obind].
  rewrite Hlog, Hc. cbn [obind]. rewrite Hu, Hn. unfold reply_to, upd. by rewrite Hc.
Qed.

(** A refused login changes nothing but the reply.  With an account that
    is already on line, or a name and password the database does not accept,
    the client stays logged out and the line states are untouched. *)
Theorem chatLogin_refused s p argv name pwd c :
  inv s -> objects s !! p = Some c -> isvaliduser c = 0 -> isvalidnode c = 0 -> argv_ok argv ->
  arg argv 2 = Some name -> arg argv 3 = Some pwd ->
  is_valid_user db_query s name pwd = Some 0 \/ line (users s) name = Some s_on ->
  exists s', chatLogin ae db_query s p argv = Some s' /\ sessions s' = sessions s /\
    clients s' ≡ₚ clients s /\ forall other, line (users s') other = line (users s) other.
Proof.
  intros Hi Hc Hu Hn Ha Hname Hpwd Hcase.
  assert (forall r, (exists s', r = Some s' /\ quiet s s') ->
    exists s', r = Some s' /\ sessions s' = sessions s /\ clients s' ≡ₚ clients s /\
      forall other, line (users s') other = line (users s) other) as Hq.
  { intros r (s' & -> & Hq). exists s'. split_and!; [done|apply Hq..]. }
  assert (sessions s !! p = Some (session_of c)) as Hx by (unfold sessions; by rewrite lookup_fmap, Hc).
  apply Hq. unfold chatLogin. rewrite Hc. cbn [obind]. rewrite Hu, Hn. cbn [Z.eqb negb orb].
  rewrite Hname, Hpwd. cbn [obind].
  destruct (argv_arg argv 2 Ha) as (a & Ea & Hsa); [lia|]. rewrite Hname in Ea. injection Ea as <-.
  destruct (argv_arg argv 3 Ha) as (b & Eb & Hsb); [lia|]. rewrite Hpwd in Eb. injection Eb as <-.
  destruct (valid_user_ok s name pwd Hsa Hsb) as (r & Hr & Hr01). rewrite Hr. cbn [obind].
  destruct (Z.leb_spec r 0); [by apply (refuse_ok s p (session_of c))|].
  destruct Hcase as [Hc0|Hon]; [rewrite Hr in Hc0; simplify_eq; lia|].
  destruct (getUser_ok (users s) name) as (u1 & -> & Ht1); [by apply inv_wf|]. cbn [obind].
  rewrite Hon. simpl default. rewrite (proj2 (streq_true s_on s_on) eq_refl).
  destruct (refuse_ok (set_users s u1) p (session_of c) errAlreadyLogin Hx Hu Hn) as (s' & -> & Hq').
  exists s'. split; [done|]. etrans; [by apply set_users_quiet|done].
Qed.

(** Listing the clients does not disturb them.  [dumpClients] walks the
    client list by rotating it; when it is done every client is back in its
    place and no session or line state has changed. *)
Theorem dumpClients_restores s p :
  clients_ok s -> sessions_ok s -> live s p ->
  exists s', dumpClients ae s p = Some s' /\ clients s' = clients s /\
    sessions s' = sessions s /\ forall other, line (users s') other = line (users s) other.
Proof.
  intros Hc Hs Hp. destruct (dumpClients_ok s p Hc Hs Hp) as (s' & -> & Hq & Hcl).
  exists s'. split_and!; [done..|apply Hq|apply Hq].
Qed.

(** Disconnecting logs out.  Freeing a client removes it, and its
    account, if it had a user's session, is no longer marked [on], while the
    states of all other accounts are unchanged. *)
Theorem freeClient_logs_out s p c :
  inv s -> objects s !! p = Some c -> isvaliduser c = 1 -> mynode_type c = MYNODE_TYPE_USER ->
  exists s', freeClient ae s p = Some s' /\ sessions s' = delete p (sessions s) /\
    (p ∉ clients s') /\ line (users s') (username c) <> Some s_on /\
    forall other, lower other <> lower (username c) ->
      line (users s') other = line (users s) other.
Proof.
  intros Hi Hc Hu Ht. assert (live s p) as Hp by (by exists c).
  destruct (freeClient_sinv s p (inv_sinv _ Hi) Hp) as (s' & Hs & Hi' & _ & Hd & Hl). exists s'.
  assert (sessions s !! p = Some (session_of c)) as Hx by (unfold sessions; by rewrite lookup_fmap, Hc).
  assert (session_key (session_of c) = Some (lower (username c))) as Hk
    by (unfold session_key; simpl; by rewrite Hu, Ht).
  destruct (Hl _ Hx) as [Hne Hoff]. split_and!; [done..| |by apply Hoff|].
  - rewrite (proj2 (sinv_clients _ Hi') p), live_sessions, Hd, lookup_delete_eq. by intros [].
  - intros other Ho. apply Hne. congruence.
Qed.

End Server.
End ChatProofs.
