(* ===== verification/Scenario.v ===== *)
(** * A small household

    A concrete server, on the real hash table, with two accounts in its
    database.  The scenario shows that the hypotheses of the chat theorems
    can be met, and pins down some behaviours of the code on concrete
    inputs. *)

From S2P Require Import Prelude Dict DictSpec Reply UserTable Chat ChatSpec.
Import HashTable Output Users Chat ChatProofs DictRefinement DictImpl.

Module Scenario.

#[local] Instance ud : UserDict (dict cstring nat) nat := dict_userdict 5381 true.
#[local] Instance ud_spec : UserDictSpec (dict cstring nat) nat := dict_userdict_spec 5381 true.

Abbreviation str := bytes_of_string.

(** The answers of the database: two accounts; only the right password of
    each gives a row; no stored nodes. *)
Definition accounts : list (list (list Z)) :=
  [[str "id1"; str "alice"; str "pw1"]; [str "id2"; str "bob"; str "pw2"]].

Definition login_query (name pwd : list Z) : list Z :=
  str "select  *  from alluser where name='" ++ name ++ str "' and password='" ++ pwd ++ str "' ;".

Definition query (_ : unit) (q : list Z) : option (list (list (list Z))) :=
  if bool_decide (q = user_query) then Some accounts
  else if bool_decide (q = login_query (str "alice") (str "pw1")) ||
          bool_decide (q = login_query (str "bob") (str "pw2")) then Some [[str "row"]]
  else Some [].

Definition exec (d : unit) (_ : list Z) : unit := d.

Definition ae (_ : Z) : bool := true.

Abbreviation house := (server (dict cstring nat) unit).

Definition run (s : house) (e : event) : house :=
  default s (run_event ae query exec s e).

Fixpoint run_all (s : house) (es : list event) : house :=
  match es with [] => s | e :: es => run_all (run s e) es end.

Definition boot : house := default (init_server tt 0) (do_mysql_dump_redis query (init_server tt 0)).

Definition chat (sub a b : string) : list (list Z) := [str "chat"; str sub; str a; str b].
Definition node (sub a b : string) : list (list Z) := [str "node"; str sub; str a; str b].

(** Alice logs in from client 1 and her tv from client 2. *)
Definition evening : list event :=
  [Connect 1 5 0; ChatCommand 1 (chat "login" "alice" "pw1");
   Connect 2 6 1; NodeCommand 2 (node "login" "id1" "tv")].

Definition home : house := run_all boot evening.

Lemma query_ok : db_ok query tt.
Proof.
  intros rows Hq. vm_compute in Hq. injection Hq as <-. split; [done|].
  assert (forall uid rows, query tt (node_query uid) = Some rows -> rows = []) as Hn.
  { intros uid rows Hq. unfold query in Hq.
    do 3 (rewrite bool_decide_eq_false_2 in Hq by discriminate). by simplify_eq/=. }
  repeat constructor; eexists _, _, _; (split; [reflexivity|]);
    (split; [by vm_compute|]; split; [by vm_compute|]); by intros rows ->%Hn.
Qed.

Lemma boot_eq : do_mysql_dump_redis query (init_server tt 0) = Some boot.
Proof. by vm_compute. Qed.

Lemma argv_ok_dec argv :
  bool_decide (length argv = 4%nat /\ Forall (fun a => strlen a <= NAME_MAX) argv) = true ->
  argv_ok argv.
Proof. apply bool_decide_eq_true_1. Qed.

(** Every event of the scenario meets its conditions. *)
Definition event_okb (s : house) (e : event) : bool :=
  match e with
  | Connect p _ _ => bool_decide (objects s !! p = None)
  | ChatCommand p argv =>
      bool_decide (is_Some (objects s !! p)) &&
      bool_decide (length argv = 4%nat /\ Forall (fun a => strlen a <= NAME_MAX) argv) &&
      match arg argv 2 with
      | Some name => bool_decide (is_Some (lookup_user (users s) name))
      | None => false
      end &&
      (Z.of_nat (base.size (ud_map (myuserdict (users s)))) <? 2 ^ 29)
  | NodeCommand p argv =>
      bool_decide (is_Some (objects s !! p)) &&
      bool_decide (length argv = 4%nat /\ Forall (fun a => strlen a <= NAME_MAX) argv)
  | Disconnect p | IdleCheck _ p => bool_decide (is_Some (objects s !! p))
  | Tick _ => true
  end.
Lemma event_okb_ok s e : event_okb s e = true -> event_ok query s e.
Proof.
  destruct e as [p fd junk|p argv|p argv|p|m p|t]; simpl; rewrite ?andb_true_iff, ?bool_decide_eq_true;
    try done.
  - intros Hn [c Hc]. congruence.
  - intros [[[Hp Ha] Hl] Hr]. split; [done|]. split; [apply Ha|]. intros sub _.
    split; intros _; (split; [done|]); [|by apply Z.ltb_lt].
    intros name pwd Hname _ _. rewrite Hname in Hl. by apply bool_decide_eq_true in Hl.
  - intros [Hp Ha]. split; [done|]. split; [apply Ha|]. intros sub _. split; intros _; [done|].
    destruct (argv_arg argv 3 Ha) as (msg & Em & [_ Hm]); [lia|]. exists msg. split; [done|].
    unfold NAME_MAX, SAY_MAX in *. lia.
Qed.

Fixpoint checks (s : house) (es : list event) : bool :=
  match es with
  | [] => true
  | e :: es => event_okb s e && bool_decide (is_Some (run_event ae query exec s e)) && checks (run s e) es
  end.

Lemma run_all_reachable es s :
  reachable ae query exec s -> checks s es = true -> reachable ae query exec (run_all s es).
Proof.
  revert s. induction es as [|e es IH]; intros s Hr Hc; [done|]. simpl in *.
  apply andb_true_iff in Hc as [[He [s' Hs]%bool_decide_eq_true]%andb_true_iff Hc].
  apply IH; [|done]. unfold run. rewrite Hs. simpl.
  by apply (reach_step _ _ _ s e s' Hr (event_okb_ok s e He)).
Qed.

Lemma boot_reachable : reachable ae query exec boot.
Proof. exact (reach_boot _ _ _ tt 0 boot query_ok boot_eq). Qed.

Lemma home_reachable : reachable ae query exec home.
Proof. apply run_all_reachable; [apply boot_reachable|by vm_compute]. Qed.

Lemma home_inv : inv home.
Proof. apply (reachable_inv ae query exec), home_reachable. Qed.

(** ** The theorems apply *)

Definition hi : list Z := message_text (str "chat") (str "alice") (str "hi").

Lemma home_out_ok : forall p c, objects home !! p = Some c -> out_ok (out c).
Proof.
  assert (map_Forall (fun _ c => out_ok (out c)) (objects home)) as H; [|exact H].
  apply map_Forall_to_list.
  assert (map_to_list (objects home) =
    [(2%nat, default (Client (new_outbuf 0) [] [] [] [] 0 0 0 0) (objects home !! 2%nat));
     (1%nat, default (Client (new_outbuf 0) [] [] [] [] 0 0 0 0) (objects home !! 1%nat))]) as ->
    by (vm_compute; reflexivity).
  apply Forall_cons; split; [|apply Forall_cons; split; [|apply Forall_nil_2]];
    vm_compute; split_and!; done.
Qed.


Lemma server_never_faults_witness :
  exists s', run_event ae query exec home (ChatCommand 1 (chat "say" "bob" "hello")) = Some s'.
Proof.
  apply (server_never_faults ae query exec home); [apply home_reachable|].
  apply event_okb_ok. by vm_compute.
Defined.

Lemma sessions_consistent_witness :
  (forall name u, lookup_user (users home) name = Some u ->
     u_line u = s_on <->
     exists p c, p ∈ clients home /\ objects home !! p = Some c /\ isvaliduser c = 1 /\
       mynode_type c = MYNODE_TYPE_USER /\ lower (username c) = lower name) /\
  (forall p q c c', objects home !! p = Some c -> objects home !! q = Some c' ->
     isvaliduser c = 1 -> mynode_type c = MYNODE_TYPE_USER ->
     isvaliduser c' = 1 -> mynode_type c' = MYNODE_TYPE_USER ->
     lower (username c) = lower (username c') -> p = q).
Proof. apply (sessions_consistent ae query exec home), home_reachable. Defined.

Definition visitor : redisClient := Client (new_outbuf 7) [] [] [] [] 0 0 0 0.

(** A stranger connects. *)
Definition visited : house := run home (Connect 3 7 0).

Lemma visited_reachable : reachable ae query exec visited.
Proof. apply (run_all_reachable [Connect 3 7 0] home home_reachable). by vm_compute. Qed.

Lemma login_required_witness :
  let s' := set_objects visited
    (<[3%nat := set_out visitor (addReplyString ae (out visitor) errNodeNoLogin)]> (objects visited)) in
  chatCommand ae query visited 3 (chat "say" "all" "boo") = Some s' /\
  nodeCommand ae exec visited 3 (chat "say" "all" "boo") = Some s'.
Proof.
  apply (login_required ae query exec visited 3 visitor _ (str "say")); by vm_compute.
Defined.

Lemma chatLogin_refused_witness :
  exists s', chatLogin ae query visited 3 (chat "login" "ALICE" "pw1") = Some s' /\
    sessions s' = sessions visited /\
    clients s' ≡ₚ clients visited /\
    forall other, line (users s') other = line (users visited) other.
Proof.
  apply (chatLogin_refused ae query visited 3 _ (str "ALICE") (str "pw1") visitor);
    [apply (reachable_inv ae query exec), visited_reachable|by vm_compute|done|done|
     by apply argv_ok_dec|done|done|right; by vm_compute].
Defined.

Lemma dumpClients_restores_witness :
  exists s', dumpClients ae visited 3 = Some s' /\ clients s' = [1; 2; 3]%nat /\
    sessions s' = sessions visited /\
    forall other, line (users s') other = line (users visited) other.
Proof.
  assert (inv visited) as Hi by apply (reachable_inv ae query exec), visited_reachable.
  apply (dumpClients_restores ae visited 3); [apply Hi|apply Hi|by eexists; vm_compute].
Defined.

Definition alice : redisClient := default visitor (objects home !! 1%nat).

Lemma freeClient_logs_out_witness :
  exists s', freeClient ae home 1 = Some s' /\ sessions s' = delete 1%nat (sessions home) /\
    (1%nat ∉ clients s') /\ line (users s') (username alice) <> Some s_on /\
    forall other, lower other <> lower (username alice) ->
      line (users s') other = line (users home) other.
Proof.
  apply (freeClient_logs_out ae home 1 alice home_inv); by vm_compute.
Defined.

(** ** Behaviours worth knowing *)

(** A second login of the same node is accepted: [nodeLogin] looks for the
    state of the client's own, still empty, names. *)
Lemma duplicate_node_accepted :
  let s := run_all home [Connect 3 7 1; NodeCommand 3 (node "login" "id1" "tv")] in
  (nodename <$> objects s !! 2%nat) = Some (str "tv") /\
  (nodename <$> objects s !! 3%nat) = Some (str "tv") /\
  (isvalidnode <$> objects s !! 2%nat) = Some 1 /\ (isvalidnode <$> objects s !! 3%nat) = Some 1.
Proof. by vm_compute. Qed.

(** Consequently, when one of the two leaves, the node is shown off line
    although the other is still connected. *)
Lemma node_state_wrong_after_duplicate :
  let s := run_all home [Connect 3 7 1; NodeCommand 3 (node "login" "id1" "tv"); Disconnect 3] in
  (isvalidnode <$> objects s !! 2%nat) = Some 1 /\
  ((fun u => n_line <$> live_nodes u) <$> lookup_user (users s) (str "alice")) = Some [s_off].
Proof. by vm_compute. Qed.

(** A client that has not logged in, whose uninitialised type happens to be
    that of users, receives the messages to all. *)
Lemma stranger_overhears :
  let s := run_all visited [ChatCommand 1 (chat "say" "all" "secret")] in
  ((fun c => pending (out c)) <$> objects s !! 3%nat) =
    Some (message_text (str "chat") (str "alice") (str "secret")).
Proof. by vm_compute. Qed.

(** A long node message makes [_chatSend] queue bytes from beyond its
    buffer. *)
Lemma long_node_message_faults :
  run_event ae query exec home (NodeCommand 2 [str "node"; str "say"; str "x"; replicate 1100 65]) = None.
Proof. by vm_compute. Qed.

(** Only root is spared by the idle check. *)
Lemma idle_client_closed :
  let s := run_all home [Tick 1000; IdleCheck 300 1] in objects s !! 1%nat = None.
Proof. by vm_compute. Qed.

End Scenario.
