(* ===== verification/Rand.v ===== *)
(** * rand.c: the pseudo-random generator

    A 48-bit linear congruential generator computed on three 16-bit limbs,
    with the products and carries of 32-bit arithmetic. *)

From S2P Require Import Prelude.

Module Rand.

(** Let [lia] see through division and remainder in this file. *)
#[local] Ltac Zify.zify_post_hook ::= Z.to_euclidean_division_equations.

Definition MASK : Z := 65535.
Definition LOW (x : Z) : Z := u32 x &. MASK.
Definition HIGH (x : Z) : Z := LOW (Z.shiftr x 16).

(** [MUL]: the product goes through an [int32_t]. *)
Definition MUL (x y : Z) : Z * Z := let l := s32 (x * y) in (LOW l, HIGH l).

Definition CARRY (x y : Z) : Z := if MASK <? s32 x + y then 1 else 0.

(** [ADDEQU]: the carry and the new value of [x]. *)
Definition ADDEQU (x y : Z) : Z * Z := (CARRY x y, LOW (u32 (x + y))).

(** The limbs of the static [x]. *)
Record state := State { x0 : Z; x1 : Z; x2 : Z }.

Definition A0 : Z := 58989.
Definition A1 : Z := 57068.
Definition A2 : Z := 5.
Definition C : Z := 11.

Definition initial : state := State 13070 43981 4660.

Definition next (x : state) : state :=
  let (p0, p1) := MUL A0 (x0 x) in
  let (carry0, p0) := ADDEQU p0 C in
  let (carry1, p1) := ADDEQU p1 carry0 in
  let (q0, q1) := MUL A0 (x1 x) in
  let (carry0, p1) := ADDEQU p1 q0 in
  let (r0, r1) := MUL A1 (x0 x) in
  State (LOW p0) (LOW (u32 (p1 + r0)))
    (LOW (u32 (carry0 + carry1 + CARRY p1 r0 + q1 + r1 +
               u32 (A0 * x2 x) + u32 (A1 * x1 x) + u32 (A2 * x0 x)))).

Definition redisLrand48 (x : state) : state * Z :=
  let x := next x in
  (x, s32 (u32 (Z.shiftl (x2 x) 15 + Z.shiftr (x1 x) 1))).

Definition redisSrand48 (seedval : Z) : state := State 13070 (LOW seedval) (HIGH seedval).

(** ** The generator as a number *)

Definition limb (v : Z) : Prop := 0 <= v < 65536.
Definition limbs_ok (x : state) : Prop := limb (x0 x) /\ limb (x1 x) /\ limb (x2 x).
Definition value (x : state) : Z := x0 x + x1 x * 2 ^ 16 + x2 x * 2 ^ 32.

Lemma LOW_mod x : LOW x = x mod 65536.
Proof.
  unfold LOW, MASK. change 65535 with (2 ^ 16 - 1). rewrite land_pow2_mask by lia.
  unfold wrapu. change (2 ^ 32) with (65536 * 65536). change (2 ^ 16) with 65536.
  rewrite Z.rem_mul_r by lia.
  rewrite (Z.mul_comm 65536), Z.mod_add, Z.mod_mod by lia. done.
Qed.

Lemma LOW_limb x : limb (LOW x).
Proof. rewrite LOW_mod. unfold limb. lia. Qed.

Lemma LOW_u32 x : LOW (u32 x) = LOW x.
Proof. unfold LOW. by rewrite wrapu_idem. Qed.

Lemma MUL_limbs x y : limb x -> limb y ->
  exists l h, MUL x y = (l, h) /\ limb l /\ limb h /\ l + h * 65536 = x * y.
Proof.
  intros Hx Hy. unfold MUL, HIGH. do 2 eexists. split; [done|].
  split; [apply LOW_limb|]. split; [apply LOW_limb|].
  assert (0 <= x * y < 4294967296) by (unfold limb in *; nia).
  rewrite !LOW_mod. rewrite Z.shiftr_div_pow2 by lia. unfold wraps.
  change (2 ^ 32) with 4294967296. change (2 ^ (32 - 1)) with 2147483648. change (2 ^ 16) with 65536.
  lia.
Qed.

Lemma ADDEQU_limbs x y : limb x -> 0 <= y < 65536 ->
  exists c l, ADDEQU x y = (c, l) /\ 0 <= c <= 1 /\ limb l /\ l + c * 65536 = x + y.
Proof.
  intros Hx Hy. unfold ADDEQU, CARRY. do 2 eexists. split; [done|].
  rewrite LOW_u32. pose proof (LOW_limb (x + y)). rewrite LOW_mod in *. unfold limb, MASK in *.
  rewrite s32_small by lia. destruct (Z.ltb_spec 65535 (x + y)); lia.
Qed.

Lemma CARRY_limbs x y : limb x -> limb y -> CARRY x y * 65536 + LOW (x + y) = x + y.
Proof.
  intros Hx Hy. unfold CARRY. rewrite LOW_mod. unfold limb, MASK in *.
  rewrite s32_small by lia. destruct (Z.ltb_spec 65535 (x + y)); lia.
Qed.

Lemma next_limbs x : limbs_ok (next x).
Proof.
  unfold next. repeat case_match. unfold limbs_ok. cbn [x0 x1 x2]. auto using LOW_limb.
Qed.

Lemma sum_wrap a b c d e f g h :
  u32 (a + b + c + d + e + u32 f + u32 g + u32 h) = u32 (a + b + c + d + e + f + g + h).
Proof.
  rewrite wrapu_add_r by lia.
  replace (a + b + c + d + e + u32 f + u32 g + h) with (a + b + c + d + e + u32 f + h + u32 g) by lia.
  rewrite wrapu_add_r by lia.
  replace (a + b + c + d + e + u32 f + h + g) with (a + b + c + d + e + h + g + u32 f) by lia.
  rewrite wrapu_add_r by lia. f_equal. lia.
Qed.

Lemma next_value x : limbs_ok x -> value (next x) = (25214903917 * value x + 11) mod 2 ^ 48.
Proof.
  intros (H0 & H1 & H2). unfold next.
  destruct (MUL_limbs A0 (x0 x)) as (p0 & p1 & -> & ? & ? & Ep); [by unfold limb, A0|done|].
  destruct (ADDEQU_limbs p0 C) as (c0 & p0' & -> & ? & ? & E0); [done|by unfold C|].
  destruct (ADDEQU_limbs p1 c0) as (c1 & p1' & -> & ? & ? & E1); [done|lia|].
  destruct (MUL_limbs A0 (x1 x)) as (q0 & q1 & -> & ? & ? & Eq); [by unfold limb, A0|done|].
  destruct (ADDEQU_limbs p1' q0) as (c2 & p1'' & -> & ? & ? & E2); [done..|].
  destruct (MUL_limbs A1 (x0 x)) as (r0 & r1 & -> & ? & ? & Er); [by unfold limb, A1|done|].
  pose proof (CARRY_limbs p1'' r0) as Ec. specialize (Ec ltac:(done) ltac:(done)).
  unfold value. cbn [x0 x1 x2]. rewrite sum_wrap, !LOW_u32.
  set (k := CARRY p1'' r0) in *. rewrite !LOW_mod in *. unfold A0, A1, A2, C, limb in *.
  rewrite (Z.mod_small p0') by lia.
  change (2 ^ 16) with 65536. change (2 ^ 32) with 4294967296. change (2 ^ 48) with 281474976710656.
  match goal with |- context [?e mod 65536 * 4294967296] => set (t := e) in * end.
  set (w := (p1'' + r0) mod 65536) in *.
  pose proof (Z.div_mod t 65536). pose proof (Z.mod_pos_bound t 65536).
  apply (Z.mod_unique_pos _ _ (t / 65536 + 57068 * x2 x + 5 * (x1 x + x2 x * 65536))); lia.
Qed.

(** Rand.c is the 48-bit congruential generator.  A step maps the value
    [X] of the limbs to [0x5DEECE66D * X + 0xB] modulo [2^48], in spite of
    the signed 32-bit products and the hand-made carries, and the number
    returned is the upper 31 bits of the new value. *)
Theorem redisLrand48_lcg x :
  limbs_ok x ->
  exists x' r, redisLrand48 x = (x', r) /\ limbs_ok x' /\
    value x' = (25214903917 * value x + 11) mod 2 ^ 48 /\
    r = value x' / 2 ^ 17 /\ 0 <= r < 2 ^ 31.
Proof.
  intros Hx. unfold redisLrand48. do 2 eexists. split; [done|].
  pose proof (next_limbs x) as Hl. split; [done|]. split; [by apply next_value|].
  destruct Hl as (H0 & H1 & H2). unfold value. set (y := next x) in *. unfold limb in *.
  rewrite Z.shiftl_mul_pow2, Z.shiftr_div_pow2 by lia.
  change (2 ^ 15) with 32768. change (2 ^ 1) with 2. change (2 ^ 16) with 65536.
  change (2 ^ 32) with 4294967296. change (2 ^ 17) with 131072. change (2 ^ 31) with 2147483648.
  rewrite wrapu_small by cint. rewrite s32_small by cint. split; lia.
Qed.

Lemma redisLrand48_lcg_witness :
  limbs_ok initial /\
  exists x' r, redisLrand48 initial = (x', r) /\ limbs_ok x' /\
    value x' = (25214903917 * value initial + 11) mod 2 ^ 48 /\
    r = value x' / 2 ^ 17 /\ 0 <= r < 2 ^ 31.
Proof.
  assert (limbs_ok initial) as H by (unfold limbs_ok, limb; simpl; lia).
  split; [exact H|]. apply (redisLrand48_lcg initial H).
Defined.

(** The first numbers after start-up are those of POSIX [lrand48] without a
    seed. *)
Example first_numbers :
  (let (x, a) := redisLrand48 initial in let (x, b) := redisLrand48 x in [a; b])
  = [851401618; 1804928587].
Proof. by vm_compute. Qed.

End Rand.
