(* ===== verification/Md5.v ===== *)
(** * md5.c: the MD5 digest and HMAC-MD5

    The code computes with [unsigned long], which has 64 bits here, and lets
    the upper halves fill with carries; the digest takes the lower halves. *)

From S2P Require Import Prelude.

Module Md5.

(** ** Little-endian words *)

Definition GET_ULONG_LE (b : list Z) (i : Z) : option Z :=
  let? b0 := zget b i in
  let? b1 := zget b (i + 1) in
  let? b2 := zget b (i + 2) in
  let? b3 := zget b (i + 3) in
  Some (b0 |. Z.shiftl b1 8 |. Z.shiftl b2 16 |. Z.shiftl b3 24).

(** The four bytes [PUT_ULONG_LE] stores. *)
Definition PUT_ULONG_LE (n : Z) : list Z :=
  [u8 n; u8 (Z.shiftr n 8); u8 (Z.shiftr n 16); u8 (Z.shiftr n 24)].

(** ** The compression function *)

Record regs := Regs { rA : Z; rB : Z; rC : Z; rD : Z }.

(** [S(x,n)], the rotation; its upper half is not meaningful. *)
Definition S_ (x n : Z) : Z := u64 (Z.shiftl x n) |. Z.shiftr (x &. 0xFFFFFFFF) (32 - n).

(** One [P(a,b,c,d,k,s,t)].  The next step names the registers one place
    further, so the result is already rotated. *)
Definition P (F : Z -> Z -> Z -> Z) (x : Z) (s t : Z) (r : regs) : regs :=
  let a := u64 (rA r + u64 (F (rB r) (rC r) (rD r) + x + t)) in
  let a := u64 (S_ a s + rB r) in
  Regs (rD r) a (rB r) (rC r).

Definition F1 (x y z : Z) : Z := z ^. (x &. (y ^. z)).
Definition F2 (x y z : Z) : Z := y ^. (z &. (x ^. y)).
Definition F3 (x y z : Z) : Z := x ^. y ^. z.
Definition F4 (x y z : Z) : Z := y ^. (x |. u64 (~. z)).

(** The arguments [k], [s] and [t] of the sixteen steps of each round. *)
Definition round1 : list (Z * Z * Z) :=
  [(0, 7, 0xD76AA478); (1, 12, 0xE8C7B756); (2, 17, 0x242070DB); (3, 22, 0xC1BDCEEE);
   (4, 7, 0xF57C0FAF); (5, 12, 0x4787C62A); (6, 17, 0xA8304613); (7, 22, 0xFD469501);
   (8, 7, 0x698098D8); (9, 12, 0x8B44F7AF); (10, 17, 0xFFFF5BB1); (11, 22, 0x895CD7BE);
   (12, 7, 0x6B901122); (13, 12, 0xFD987193); (14, 17, 0xA679438E); (15, 22, 0x49B40821)].

Definition round2 : list (Z * Z * Z) :=
  [(1, 5, 0xF61E2562); (6, 9, 0xC040B340); (11, 14, 0x265E5A51); (0, 20, 0xE9B6C7AA);
   (5, 5, 0xD62F105D); (10, 9, 0x02441453); (15, 14, 0xD8A1E681); (4, 20, 0xE7D3FBC8);
   (9, 5, 0x21E1CDE6); (14, 9, 0xC33707D6); (3, 14, 0xF4D50D87); (8, 20, 0x455A14ED);
   (13, 5, 0xA9E3E905); (2, 9, 0xFCEFA3F8); (7, 14, 0x676F02D9); (12, 20, 0x8D2A4C8A)].

Definition round3 : list (Z * Z * Z) :=
  [(5, 4, 0xFFFA3942); (8, 11, 0x8771F681); (11, 16, 0x6D9D6122); (14, 23, 0xFDE5380C);
   (1, 4, 0xA4BEEA44); (4, 11, 0x4BDECFA9); (7, 16, 0xF6BB4B60); (10, 23, 0xBEBFBC70);
   (13, 4, 0x289B7EC6); (0, 11, 0xEAA127FA); (3, 16, 0xD4EF3085); (6, 23, 0x04881D05);
   (9, 4, 0xD9D4D039); (12, 11, 0xE6DB99E5); (15, 16, 0x1FA27CF8); (2, 23, 0xC4AC5665)].

Definition round4 : list (Z * Z * Z) :=
  [(0, 6, 0xF4292244); (7, 10, 0x432AFF97); (14, 15, 0xAB9423A7); (5, 21, 0xFC93A039);
   (12, 6, 0x655B59C3); (3, 10, 0x8F0CCC92); (10, 15, 0xFFEFF47D); (1, 21, 0x85845DD1);
   (8, 6, 0x6FA87E4F); (15, 10, 0xFE2CE6E0); (6, 15, 0xA3014314); (13, 21, 0x4E0811A1);
   (4, 6, 0xF7537E82); (11, 10, 0xBD3AF235); (2, 15, 0x2AD7D2BB); (9, 21, 0xEB86D391)].

Fixpoint run_round (F : Z -> Z -> Z -> Z) (X : list Z) (rows : list (Z * Z * Z)) (r : regs)
  : option regs :=
  match rows with
  | [] => Some r
  | (k, s, t) :: rows =>
      let? x := zget X k in
      run_round F X rows (P F x s t r)
  end.

Definition load_block (data : list Z) : option (list Z) :=
  mapM (fun k => GET_ULONG_LE data (4 * k)) (seqZ 0 16).

Definition md5_process (st : regs) (data : list Z) : option regs :=
  let? X := load_block data in
  let? r := run_round F1 X round1 st in
  let? r := run_round F2 X round2 r in
  let? r := run_round F3 X round3 r in
  let? r := run_round F4 X round4 r in
  Some (Regs (u64 (rA st + rA r)) (u64 (rB st + rB r)) (u64 (rC st + rC r)) (u64 (rD st + rD r))).

(** ** The context *)

Record md5_context := Ctx {
  total0 : Z;
  total1 : Z;
  state : regs;
  buffer : list Z;
  ipad : list Z;
  opad : list Z
}.

Definition set_total (c : md5_context) (t0 t1 : Z) : md5_context :=
  Ctx t0 t1 (state c) (buffer c) (ipad c) (opad c).
Definition set_state (c : md5_context) (r : regs) : md5_context :=
  Ctx (total0 c) (total1 c) r (buffer c) (ipad c) (opad c).
Definition set_buffer (c : md5_context) (b : list Z) : md5_context :=
  Ctx (total0 c) (total1 c) (state c) b (ipad c) (opad c).

Definition md5_starts (c : md5_context) : md5_context :=
  set_state (set_total c 0 0) (Regs 0x67452301 0xEFCDAB89 0x98BADCFE 0x10325476).

(** The loop over the whole blocks of the input. *)
Fixpoint update_blocks (n : nat) (c : md5_context) (input : list Z) : option (md5_context * list Z) :=
  match n with
  | O => Some (c, input)
  | S n =>
      let? st := md5_process (state c) input in
      update_blocks n (set_state c st) (drop 64 input)
  end.

(** What [printf] reads for [%s]: the bytes up to the first zero of the memory
    from the pointer on; without a zero it runs off the end. *)
Definition printf_s (mem : list Z) : option (list Z) :=
  if bool_decide (0 ∈ mem) then Some (cstr mem) else None.

(** [input] is the memory from the pointer to the end of its object; it is
    printed first, and [ilen] bytes are taken from it. *)
Definition md5_update (c : md5_context) (input : list Z) (ilen : Z) : option md5_context :=
  let? _ := printf_s input in
  if ilen <=? 0 then Some c else
  let lft := total0 c &. 0x3F in
  let fill := 64 - lft in
  let t0 := u64 (total0 c + ilen) &. 0xFFFFFFFF in
  let t1 := if t0 <? ilen then u64 (total1 c + 1) else total1 c in
  let c := set_total c t0 t1 in
  let? (c, input, ilen, lft) :=
    if negb (lft =? 0) && (fill <=? ilen) then
      let? chunk := zread input 0 fill in
      let? b := zwrite (buffer c) lft chunk in
      let? st := md5_process (state c) b in
      Some (set_state (set_buffer c b) st, drop (Z.to_nat fill) input, ilen - fill, 0)
    else Some (c, input, ilen, lft) in
  let? (c, input) := update_blocks (Z.to_nat (ilen / 64)) c input in
  let ilen := ilen mod 64 in
  if 0 <? ilen then
    let? chunk := zread input 0 ilen in
    let? b := zwrite (buffer c) lft chunk in
    Some (set_buffer c b)
  else Some c.

Definition md5_padding : list Z := 0x80 :: replicate 63 0.

Definition md5_finish (c : md5_context) : option (md5_context * list Z) :=
  let high := Z.shiftr (total0 c) 29 |. u64 (Z.shiftl (total1 c) 3) in
  let low := u64 (Z.shiftl (total0 c) 3) in
  let msglen := PUT_ULONG_LE low ++ PUT_ULONG_LE high in
  let last := total0 c &. 0x3F in
  let padn := if last <? 56 then 56 - last else 120 - last in
  let? c := md5_update c md5_padding padn in
  let? c := md5_update c msglen 8 in
  let st := state c in
  Some (c, PUT_ULONG_LE (rA st) ++ PUT_ULONG_LE (rB st) ++ PUT_ULONG_LE (rC st) ++ PUT_ULONG_LE (rD st)).

(** [ctx] is what the local variable holds before it is set. *)
Definition md5 (ctx : md5_context) (input : list Z) (ilen : Z) : option (list Z) :=
  let? c := md5_update (md5_starts ctx) input ilen in
  let? (_, output) := md5_finish c in
  Some output.

(** The reads of [md5_file]: each fills the front of the buffer [buf]. *)
Fixpoint md5_updates (c : md5_context) (buf : list Z) (chunks : list (list Z)) : option md5_context :=
  match chunks with
  | [] => Some c
  | x :: chunks =>
      let? buf := zwrite buf 0 x in
      let? c := md5_update c buf (zlen x) in
      md5_updates c buf chunks
  end.

(** [buf] is what the stack holds in [unsigned char buf[1024]]; [file] is
    what the file gives: [None] when it cannot be opened, else the chunks
    that [fread] returns and whether [ferror] is set after them.  The result
    is the status and the digest. *)
Definition md5_file (ctx : md5_context) (buf : list Z) (file : option (list (list Z) * bool))
  : option (Z * option (list Z)) :=
  match file with
  | None => Some (1, None)
  | Some (chunks, ferror) =>
      let? c := md5_updates (md5_starts ctx) buf chunks in
      let? (_, output) := md5_finish c in
      Some (if (ferror : bool) then 2 else 0, Some output)
  end.

(** ** HMAC *)

Fixpoint xor_key (pad key : list Z) : option (list Z) :=
  match key, pad with
  | [], _ => Some pad
  | k :: key, p :: pad => let? r := xor_key pad key in Some (u8 (p ^. k) :: r)
  | _ :: _, [] => None
  end.

(** Behind [ipad] in the structure lies [opad], and behind that its end. *)
Definition md5_hmac_starts (ctx junk : md5_context) (key : list Z) (keylen : Z) : option md5_context :=
  let? key :=
    if 64 <? keylen then md5 junk key keylen else zread key 0 keylen in
  let? ip := xor_key (replicate 64 0x36) key in
  let? op := xor_key (replicate 64 0x5C) key in
  let c := md5_starts (Ctx (total0 ctx) (total1 ctx) (state ctx) (buffer ctx) ip op) in
  md5_update c (ipad c ++ opad c) 64.

Definition md5_hmac_update (c : md5_context) (input : list Z) (ilen : Z) : option md5_context :=
  md5_update c input ilen.

Definition md5_hmac_finish (c : md5_context) : option (list Z) :=
  let? (c, tmpbuf) := md5_finish c in
  let c := md5_starts c in
  let? c := md5_update c (opad c) 64 in
  let? c := md5_update c tmpbuf 16 in
  let? (_, output) := md5_finish c in
  Some output.

Definition md5_hmac (ctx junk : md5_context) (key : list Z) (keylen : Z) (input : list Z) (ilen : Z)
  : option (list Z) :=
  let? c := md5_hmac_starts ctx junk key keylen in
  let? c := md5_hmac_update c input ilen in
  md5_hmac_finish c.

(** [%02x] *)
Definition hex_nibble (d : Z) : Z := if d <? 10 then 48 + d else 87 + d.
Definition hex2 (b : Z) : list Z := [hex_nibble (b / 16); hex_nibble (b mod 16)].

(** The text [mymd5] writes into its buffer. *)
Definition mymd5 (ctx : md5_context) (str : list Z) : option (list Z) :=
  let? md5sum := md5 ctx (cstr str ++ [0]) (strlen str) in
  Some (concat (hex2 <$> md5sum)).

End Md5.
