(* ===== verification/Md5Spec.v ===== *)
(** * The digest of md5.c against RFC 1321

    The reference works on 32-bit words and on the whole padded message; the
    code works on 64-bit registers, block by block, with the input cut at
    arbitrary places. *)

From S2P Require Import Prelude Md5.

Module Md5Proofs.
Import Md5.

(** ** The reference definition *)

Definition rotl32 (x n : Z) : Z := u32 (Z.shiftl x n) |. Z.shiftr x (32 - n).

Definition rfc_F (i : Z) (x y z : Z) : Z :=
  if i <? 16 then (x &. y) |. (u32 (~. x) &. z)
  else if i <? 32 then (x &. z) |. (y &. u32 (~. z))
  else if i <? 48 then x ^. y ^. z
  else y ^. (x |. u32 (~. z)).

Definition rfc_index (i : Z) : Z :=
  if i <? 16 then i
  else if i <? 32 then (5 * i + 1) mod 16
  else if i <? 48 then (3 * i + 5) mod 16
  else (7 * i) mod 16.

Definition rfc_shift (i : Z) : Z :=
  nth (Z.to_nat (i mod 4))
    (if i <? 16 then [7; 12; 17; 22] else if i <? 32 then [5; 9; 14; 20]
     else if i <? 48 then [4; 11; 16; 23] else [6; 10; 15; 21]) 0.

(** [floor(2^32 * abs(sin(i + 1)))] *)
Definition rfc_T : list Z :=
  [3614090360; 3905402710; 606105819; 3250441966; 4118548399; 1200080426; 2821735955; 4249261313;
   1770035416; 2336552879; 4294925233; 2304563134; 1804603682; 4254626195; 2792965006; 1236535329;
   4129170786; 3225465664; 643717713; 3921069994; 3593408605; 38016083; 3634488961; 3889429448;
   568446438; 3275163606; 4107603335; 1163531501; 2850285829; 4243563512; 1735328473; 2368359562;
   4294588738; 2272392833; 1839030562; 4259657740; 2763975236; 1272893353; 4139469664; 3200236656;
   681279174; 3936430074; 3572445317; 76029189; 3654602809; 3873151461; 530742520; 3299628645;
   4096336452; 1126891415; 2878612391; 4237533241; 1700485571; 2399980690; 4293915773; 2240044497;
   1873313359; 4264355552; 2734768916; 1309151649; 4149444226; 3174756917; 718787259; 3951481745].

Definition rfc_word (b : list Z) (k : Z) : Z :=
  let byte j := nth (Z.to_nat (4 * k + j)) b 0 in
  byte 0 + byte 1 * 2 ^ 8 + byte 2 * 2 ^ 16 + byte 3 * 2 ^ 24.

Definition rfc_step (b : list Z) (r : regs) (i : Z) : regs :=
  let a := u32 (rB r + rotl32 (u32 (rA r + rfc_F i (rB r) (rC r) (rD r) +
                                    rfc_word b (rfc_index i) + nth (Z.to_nat i) rfc_T 0)) (rfc_shift i)) in
  Regs (rD r) a (rB r) (rC r).

Definition rfc_compress (st : regs) (b : list Z) : regs :=
  let r := foldl (rfc_step b) st (seqZ 0 64) in
  Regs (u32 (rA st + rA r)) (u32 (rB st + rB r)) (u32 (rC st + rC r)) (u32 (rD st + rD r)).

Definition rfc_init : regs := Regs 0x67452301 0xEFCDAB89 0x98BADCFE 0x10325476.

(** [n] bytes of [v], least significant first. *)
Fixpoint le_bytes (n : nat) (v : Z) : list Z :=
  match n with O => [] | S n => v mod 256 :: le_bytes n (v / 256) end.

Definition rfc_pad (m : list Z) : list Z :=
  m ++ 128 :: replicate (Z.to_nat ((55 - zlen m) mod 64)) 0 ++ le_bytes 8 (8 * zlen m).

Fixpoint rfc_blocks (n : nat) (st : regs) (m : list Z) : regs :=
  match n with O => st | S n => rfc_blocks n (rfc_compress st (take 64 m)) (drop 64 m) end.

Definition rfc_md5 (m : list Z) : list Z :=
  let p := rfc_pad m in
  let r := rfc_blocks (length p / 64) rfc_init p in
  le_bytes 4 (rA r) ++ le_bytes 4 (rB r) ++ le_bytes 4 (rC r) ++ le_bytes 4 (rD r).

(** ** Lower halves *)

Definition lo (r : regs) : regs := Regs (u32 (rA r)) (u32 (rB r)) (u32 (rC r)) (u32 (rD r)).

Lemma wrapu_testbit w x i : 0 <= w -> 0 <= i -> Z.testbit (wrapu w x) i = (i <? w) && Z.testbit x i.
Proof.
  intros. unfold wrapu. rewrite Z.testbit_mod_pow2 by lia. done.
Qed.

(** Bitwise operations commute with reduction to [w] bits. *)
Ltac bits :=
  apply Z.bits_inj'; intros i Hi;
  repeat first [rewrite wrapu_testbit by lia | rewrite Z.land_spec | rewrite Z.lor_spec
               | rewrite Z.lxor_spec | rewrite Z.lnot_spec by lia].

Ltac bits_solve := bits; repeat (destruct (Z.testbit _ _)); repeat (destruct (_ <? _)); done.

Lemma u32_u64 x : u32 (u64 x) = u32 x.
Proof.
  bits. destruct (Z.ltb_spec i 32); [|done]. by rewrite (proj2 (Z.ltb_lt i 64)) by lia.
Qed.

Lemma F1_lo i x y z : 0 <= i < 16 -> u32 (F1 x y z) = rfc_F i (u32 x) (u32 y) (u32 z).
Proof.
  intros. unfold rfc_F, F1. rewrite (proj2 (Z.ltb_lt i 16)) by lia. clear. bits_solve.
Qed.

Lemma F2_lo i x y z : 16 <= i < 32 -> u32 (F2 x y z) = rfc_F i (u32 x) (u32 y) (u32 z).
Proof.
  intros. unfold rfc_F, F2. rewrite (proj2 (Z.ltb_ge i 16)), (proj2 (Z.ltb_lt i 32)) by lia.
  clear. bits_solve.
Qed.

Lemma F3_lo i x y z : 32 <= i < 48 -> u32 (F3 x y z) = rfc_F i (u32 x) (u32 y) (u32 z).
Proof.
  intros. unfold rfc_F, F3. rewrite (proj2 (Z.ltb_ge i 16)), (proj2 (Z.ltb_ge i 32)),
    (proj2 (Z.ltb_lt i 48)) by lia. clear. bits_solve.
Qed.

Lemma F4_lo i x y z : 48 <= i -> u32 (F4 x y z) = rfc_F i (u32 x) (u32 y) (u32 z).
Proof.
  intros. unfold rfc_F, F4. rewrite (proj2 (Z.ltb_ge i 16)), (proj2 (Z.ltb_ge i 32)),
    (proj2 (Z.ltb_ge i 48)) by lia. clear. bits.
  destruct (Z.ltb_spec i 32); [rewrite (proj2 (Z.ltb_lt i 64)) by lia|]; simpl;
    repeat (destruct (Z.testbit _ _)); done.
Qed.

Lemma S_lo x n : 0 < n < 32 -> u32 (S_ x n) = rotl32 (u32 x) n.
Proof.
  intros. unfold S_, rotl32. change 0xFFFFFFFF with (2 ^ 32 - 1). rewrite land_pow2_mask by lia.
  fold (u32 x). bits. rewrite !Z.shiftr_spec, !Z.shiftl_spec by lia.
  destruct (Z.ltb_spec i 32); simpl.
  - rewrite (proj2 (Z.ltb_lt i 64)) by lia. f_equal. simpl.
    destruct (Z.lt_ge_cases (i - n) 0); [by rewrite !Z.testbit_neg_r by lia|].
    rewrite wrapu_testbit by lia. by rewrite (proj2 (Z.ltb_lt (i - n) 32)) by lia.
  - rewrite wrapu_testbit by lia. by rewrite (proj2 (Z.ltb_ge (i + (32 - n)) 32)) by lia.
Qed.

Lemma u32_add x y : u32 (x + y) = u32 (u32 x + u32 y).
Proof. by rewrite wrapu_add_l, wrapu_add_r by lia. Qed.

(** One step on 64-bit registers is a step of the reference on their lower
    halves. *)
Lemma P_lo F b r i :
  (forall x y z, u32 (F x y z) = rfc_F i (u32 x) (u32 y) (u32 z)) -> 0 < rfc_shift i < 32 ->
  lo (P F (rfc_word b (rfc_index i)) (rfc_shift i) (nth (Z.to_nat i) rfc_T 0) r) = rfc_step b (lo r) i.
Proof.
  intros HF Hs. unfold P, rfc_step, lo. cbn [rA rB rC rD]. f_equal.
  rewrite u32_u64, Z.add_comm, u32_add, S_lo by done. rewrite wrapu_add_l by lia.
  rewrite <- (wrapu_add_l _ (rB r)) by lia. f_equal. f_equal. f_equal.
  rewrite u32_u64, <- wrapu_add_r, u32_u64 by lia. rewrite wrapu_add_r by lia.
  rewrite <- HF. rewrite (Z.add_assoc (rA r)), (Z.add_assoc (rA r)).
  set (w := rfc_word b (rfc_index i)). set (t := nth (Z.to_nat i) rfc_T 0).
  replace (rA r + F (rB r) (rC r) (rD r) + w + t) with ((rA r + F (rB r) (rC r) (rD r)) + (w + t)) by lia.
  symmetry. rewrite <- (Z.add_assoc _ w t).
  rewrite <- (wrapu_add_l 32 (u32 (rA r) + _)) by lia. by rewrite <- u32_add, wrapu_add_l by lia.
Qed.

(** ** Words and blocks *)

Definition bytes (l : list Z) : Prop := Forall (fun b => 0 <= b < 256) l.

Lemma zget_nth (l : list Z) i : 0 <= i < zlen l -> zget l i = Some (nth (Z.to_nat i) l 0).
Proof.
  intros Hi. apply zget_Some. split; [lia|].
  destruct (lookup_lt_is_Some_2 l (Z.to_nat i)) as [x Hx]; [lia|]. rewrite Hx.
  by rewrite (nth_lookup_Some _ _ _ _ Hx).
Qed.

Lemma bytes_nth l j : bytes l -> 0 <= nth j l 0 < 256.
Proof.
  intros H. rewrite nth_lookup. destruct (l !! j) as [x|] eqn:E; [|done].
  by apply (Forall_lookup_1 _ _ _ _ H E).
Qed.

Lemma GET_word b k :
  bytes b -> 0 <= k -> 4 * k + 3 < zlen b -> GET_ULONG_LE b (4 * k) = Some (rfc_word b k).
Proof.
  intros Hb Hk Hl. unfold GET_ULONG_LE. rewrite !zget_nth by lia. cbn [obind]. f_equal.
  unfold rfc_word. rewrite Z.add_0_r.
  pose proof (bytes_nth b (Z.to_nat (4 * k)) Hb). pose proof (bytes_nth b (Z.to_nat (4 * k + 1)) Hb).
  pose proof (bytes_nth b (Z.to_nat (4 * k + 2)) Hb).
  rewrite (lor_shiftl_add _ _ 8) by cint. rewrite (lor_shiftl_add _ _ 16) by cint.
  rewrite (lor_shiftl_add _ _ 24); change (2 ^ 24) with 16777216; cint.
Qed.

Lemma load_block_words b :
  bytes b -> 64 <= zlen b -> load_block b = Some (rfc_word b <$> seqZ 0 16).
Proof.
  intros Hb Hl. unfold load_block. apply mapM_Some_2. apply Forall2_fmap_r, Forall_Forall2_diag.
  apply Forall_forall. intros k Hk%elem_of_seqZ. apply GET_word; [done|lia..].
Qed.

(** The rows of a round are the reference's steps [i0 .. i0 + 15]. *)
Definition row_of (i : Z) : Z * Z * Z := (rfc_index i, rfc_shift i, nth (Z.to_nat i) rfc_T 0).
Definition rows_from (i0 : Z) : list (Z * Z * Z) := row_of <$> seqZ i0 16.

Lemma words_get b k : 0 <= k < 16 -> zget (rfc_word b <$> seqZ 0 16) k = Some (rfc_word b k).
Proof.
  intros Hk. apply zget_Some. split; [lia|]. rewrite list_lookup_fmap, lookup_seqZ_lt by lia.
  simpl. do 2 f_equal. lia.
Qed.

Lemma run_round_lo F b X : (forall k, 0 <= k < 16 -> zget X k = Some (rfc_word b k)) -> forall is_ r,
  Forall (fun i => (forall x y z, u32 (F x y z) = rfc_F i (u32 x) (u32 y) (u32 z)) /\
                   0 < rfc_shift i < 32 /\ 0 <= rfc_index i < 16) is_ ->
  exists r', run_round F X (row_of <$> is_) r = Some r' /\
    lo r' = foldl (rfc_step b) (lo r) is_.
Proof.
  intros HX. induction is_ as [|i is_ IH]; intros r Hall; [by exists r|].
  apply Forall_cons in Hall as [(HF & Hs & Hk) Hall]. rewrite fmap_cons. unfold row_of at 1. cbn [run_round foldl].
  rewrite HX by done. cbn [obind]. destruct (IH (P F (rfc_word b (rfc_index i)) (rfc_shift i) (nth (Z.to_nat i) rfc_T 0) r) Hall)
    as (r' & -> & Hr'). exists r'. split; [done|]. by rewrite Hr', P_lo.
Qed.

Lemma round_lo F b i0 r rows :
  rows = rows_from i0 ->
  (forall i, i0 <= i < i0 + 16 -> forall x y z, u32 (F x y z) = rfc_F i (u32 x) (u32 y) (u32 z)) ->
  forallb (fun i => (0 <? rfc_shift i) && (rfc_shift i <? 32) && (0 <=? rfc_index i) &&
                    (rfc_index i <? 16)) (seqZ i0 16) = true ->
  exists r', run_round F (rfc_word b <$> seqZ 0 16) rows r = Some r' /\
    lo r' = foldl (rfc_step b) (lo r) (seqZ i0 16).
Proof.
  intros -> HF Hb. apply run_round_lo; [apply words_get|]. apply Forall_forall. intros i Hi.
  rewrite forallb_forall in Hb. apply list_elem_of_In in Hi as Hi'. specialize (Hb i Hi').
  apply elem_of_seqZ in Hi. split; [by apply HF|]. rewrite !andb_true_iff in Hb. lia.
Qed.

Lemma md5_process_lo st b :
  bytes b -> 64 <= zlen b ->
  exists st', md5_process st b = Some st' /\ lo st' = rfc_compress (lo st) (take 64 b).
Proof.
  intros Hb Hl. unfold md5_process.
  assert (load_block b = Some (rfc_word (take 64 b) <$> seqZ 0 16)) as ->.
  { rewrite load_block_words by done. f_equal. apply list_fmap_ext. intros j k Hj%lookup_seqZ.
    unfold rfc_word. rewrite !nth_lookup, !lookup_take_lt by lia. done. }
  cbn [obind]. set (b' := take 64 b).
  destruct (round_lo F1 b' 0 st round1) as (r1 & -> & E1); [done| |done|].
  { intros. by apply F1_lo. }
  destruct (round_lo F2 b' 16 r1 round2) as (r2 & E2' & E2); [done| |done|].
  { intros. by apply F2_lo. }
  destruct (round_lo F3 b' 32 r2 round3) as (r3 & E3' & E3); [done| |done|].
  { intros. by apply F3_lo. }
  destruct (round_lo F4 b' 48 r3 round4) as (r4 & E4' & E4); [done| |done|].
  { intros. apply F4_lo. lia. }
  cbn [obind]. rewrite E2'. cbn [obind]. rewrite E3'. cbn [obind]. rewrite E4'. cbn [obind].
  eexists. split; [done|]. unfold rfc_compress.
  change (seqZ 0 64) with (seqZ 0 16 ++ seqZ 16 16 ++ seqZ 32 16 ++ seqZ 48 16).
  rewrite !foldl_app, <- E1, <- E2, <- E3, <- E4. unfold lo. cbn [rA rB rC rD].
  f_equal; rewrite u32_u64; apply u32_add.
Qed.

(** ** Updating *)

Lemma rfc_blocks_prefix n : forall st m x,
  (64 * n <= length m)%nat -> rfc_blocks n st (m ++ x) = rfc_blocks n st m.
Proof.
  induction n as [|n IH]; intros st m x Hl; [done|]. cbn [rfc_blocks].
  rewrite take_app_le, drop_app_le by lia. apply IH. rewrite length_drop. lia.
Qed.

Lemma rfc_blocks_S n : forall st m,
  rfc_blocks (S n) st m = rfc_compress (rfc_blocks n st m) (take 64 (drop (64 * n) m)).
Proof.
  induction n as [|n IH]; intros st m; [done|]. change (rfc_blocks (S (S n)) st m)
    with (rfc_blocks (S n) (rfc_compress st (take 64 m)) (drop 64 m)).
  rewrite IH. cbn [rfc_blocks]. rewrite drop_drop. do 3 f_equal. lia.
Qed.

(** The registers and the buffer after the message [m]. *)
Record digesting (st : regs) (buf : list Z) (m : list Z) : Prop := {
  dg_len : length buf = 64%nat;
  dg_bytes : bytes buf;
  dg_state : lo st = rfc_blocks (length m / 64) rfc_init m;
  dg_rest : take (length m mod 64) buf = drop (64 * (length m / 64)) m
}.

Lemma bytes_app a b : bytes (a ++ b) <-> bytes a /\ bytes b.
Proof. apply Forall_app. Qed.
Lemma bytes_take n a : bytes a -> bytes (take n a).
Proof. apply Forall_take. Qed.
Lemma bytes_drop n a : bytes a -> bytes (drop n a).
Proof. apply Forall_drop. Qed.

Hint Resolve bytes_take bytes_drop : cint.

Lemma mod_div_64 (n : nat) : (n = 64 * (n / 64) + n mod 64 /\ n mod 64 < 64)%nat.
Proof. split; [apply Nat.div_mod_eq|by apply Nat.mod_upper_bound]. Qed.

Lemma div_64_unique (n q r : nat) : (n = 64 * q + r)%nat -> (r < 64)%nat -> (n / 64 = q /\ n mod 64 = r)%nat.
Proof. intros. split; symmetry; [by apply (Nat.div_unique _ _ _ r)|by apply (Nat.mod_unique _ _ q)]. Qed.

(** Appending a block's worth of bytes completes a block. *)
Lemma digest_block st buf m x b st' :
  digesting st buf m -> (length m mod 64 + length x = 64)%nat ->
  take 64 b = take (length m mod 64) buf ++ x -> lo st' = rfc_compress (lo st) (take 64 b) ->
  lo st' = rfc_blocks (length (m ++ x) / 64) rfc_init (m ++ x) /\ (length (m ++ x) mod 64 = 0)%nat.
Proof.
  intros [Hl Hb Hst Hr] Hx Eb E. destruct (mod_div_64 (length m)) as [Hm Hlt].
  destruct (div_64_unique (length (m ++ x)) (S (length m / 64)) 0) as [-> ->];
    [rewrite length_app; lia|lia|].
  split; [|done]. rewrite rfc_blocks_S, rfc_blocks_prefix by lia. rewrite E, Hst. f_equal.
  rewrite Eb, Hr, drop_app_le by lia. symmetry. apply take_ge. rewrite length_app, length_drop. lia.
Qed.

Lemma update_blocks_spec n : forall c x m,
  digesting (state c) (buffer c) m -> (length m mod 64 = 0)%nat -> bytes x -> (64 * n <= length x)%nat ->
  exists st, update_blocks n c x = Some (set_state c st, drop (64 * n) x) /\
    digesting st (buffer c) (m ++ take (64 * n) x) /\ (length (m ++ take (64 * n) x) mod 64 = 0)%nat.
Proof.
  induction n as [|n IH]; intros c x m Hd H0 Hx Hl; cbn [update_blocks].
  - exists (state c). rewrite drop_0, take_0, app_nil_r. by destruct c.
  - destruct (md5_process_lo (state c) x) as (st & -> & E); [done|lia|]. cbn [obind].
    destruct (digest_block (state c) (buffer c) m (take 64 x) x st) as [E' H0']; [done| | |done|].
    { rewrite length_take. lia. }
    { by rewrite H0, take_0. }
    destruct (IH (set_state c st) (drop 64 x) (m ++ take 64 x)) as (st' & -> & Hd' & H0'').
    { destruct Hd. constructor; [done..|]. cbn [set_state buffer]. rewrite H0', take_0.
      symmetry. apply drop_ge. destruct (mod_div_64 (length (m ++ take 64 x))). lia. }
    { done. }
    { by apply bytes_drop. }
    { rewrite length_drop. lia. }
    exists st'. rewrite drop_drop, <- app_assoc, take_take_drop in *.
    by replace (64 * S n)%nat with (64 + 64 * n)%nat by lia.
Qed.

(** The part of [md5_update] after the first partial block. *)
Lemma update_tail_spec c x y m :
  digesting (state c) (buffer c) m -> bytes (x ++ y) ->
  (length m mod 64 = 0 \/ length m mod 64 + length x < 64)%nat ->
  exists c', (let? (c, input) := update_blocks (Z.to_nat (zlen x / 64)) c (x ++ y) in
     let ilen := zlen x mod 64 in
     if 0 <? ilen then
       let? chunk := zread input 0 ilen in
       let? b := zwrite (buffer c) (Z.of_nat (length m mod 64)) chunk in
       Some (set_buffer c b)
     else Some c) = Some c' /\
    digesting (state c') (buffer c') (m ++ x) /\
    c' = set_state (set_buffer c (buffer c')) (state c').
Proof.
  intros Hd Hxy Hcase. destruct (mod_div_64 (length x)) as [Ex Hx].
  change 64 with (Z.of_nat 64). rewrite <- Nat2Z.inj_div, <- Nat2Z.inj_mod, Nat2Z.id.
  set (n := (length x / 64)%nat) in *. set (r := (length x mod 64)%nat) in *.
  assert (exists st, update_blocks n c (x ++ y) = Some (set_state c st, drop (64 * n) x ++ y) /\
    digesting st (buffer c) (m ++ take (64 * n) x) /\
    (length (m ++ take (64 * n) x) mod 64 = length m mod 64 /\ length m mod 64 + r < 64)%nat)
    as (st & -> & Hd' & E & Hr).
  { destruct (decide (length m mod 64 = 0)%nat) as [H0|Hne].
    - destruct (update_blocks_spec n c (x ++ y) m) as (st & -> & Hd' & E); [done..| |].
      { rewrite length_app. lia. }
      exists st. rewrite drop_app_le, take_app_le in * by lia. rewrite H0. split_and!; done || lia.
    - assert (n = 0)%nat as -> by lia. exists (state c). cbn [update_blocks Nat.mul].
      rewrite drop_0, take_0, app_nil_r. destruct c. split_and!; done || lia. }
  cbn [obind]. set (m' := m ++ take (64 * n) x) in *. set (d := drop (64 * n) x).
  assert (m ++ x = m' ++ d) as -> by (unfold m', d; by rewrite <- app_assoc, take_drop).
  assert (length d = r) as Ed by (unfold d; rewrite length_drop; lia).
  destruct Hd' as [Hl Hb Hst Hrest]. destruct (mod_div_64 (length m')) as [Em Hm].
  destruct (div_64_unique (length (m' ++ d)) (length m' / 64) (length m' mod 64 + r)) as [Eq Er];
    [rewrite length_app; lia|lia|].
  destruct (Z.ltb_spec 0 (Z.of_nat r)) as [Hpos|Hz].
  - assert (zread (d ++ y) 0 (Z.of_nat r) = Some d) as ->.
    { apply zread_Some. rewrite length_app. split; [lia|]. rewrite drop_0, Nat2Z.id, <- Ed.
      symmetry. apply take_app_length. }
    cbn [obind set_state buffer]. rewrite <- E.
    set (b := take (length m' mod 64) (buffer c) ++ d ++ drop (length m' mod 64 + r) (buffer c)).
    assert (zwrite (buffer c) (Z.of_nat (length m' mod 64)) d = Some b) as ->.
    { apply zwrite_Some. unfold b. rewrite Nat2Z.id, Ed. split; [lia|done]. }
    eexists. split; [done|]. split; [|by destruct c]. constructor; cbn [set_buffer set_state buffer state].
    + unfold b. rewrite !length_app, length_take, length_drop. lia.
    + unfold b. rewrite !bytes_app. split_and!; auto with cint. unfold d.
      rewrite bytes_app in Hxy. apply bytes_drop, Hxy.
    + by rewrite Eq, Hst, rfc_blocks_prefix by lia.
    + rewrite Eq, Er, drop_app_le by lia. rewrite <- Hrest. unfold b. rewrite app_assoc.
      apply take_app_length'. rewrite length_app, length_take. lia.
  - assert (d = []) as -> by (apply nil_length_inv; lia). rewrite app_nil_r.
    eexists. split; [done|]. split; [by constructor|by destruct c].
Qed.

(** The context after the message [m]. *)
Record holds (c : md5_context) (m : list Z) : Prop := {
  hd_total0 : total0 c = zlen m mod 2 ^ 32;
  hd_total1 : total1 c = zlen m / 2 ^ 32;
  hd_digest : digesting (state c) (buffer c) m
}.

Lemma total_left (m : list Z) : zlen m mod 2 ^ 32 &. 0x3F = Z.of_nat (length m mod 64).
Proof.
  change 0x3F with (2 ^ 6 - 1). rewrite land_pow2_mask by lia. change (2 ^ 6) with 64.
  change (2 ^ 32) with (64 * 67108864). rewrite Z.rem_mul_r by lia.
  rewrite (Z.mul_comm 64), Z.mod_add, Z.mod_mod by lia. by rewrite Nat2Z.inj_mod.
Qed.

Lemma totals_add a n :
  0 <= a -> 0 <= n < 2 ^ 31 -> a + n < 2 ^ 61 ->
  u64 (a mod 2 ^ 32 + n) &. 0xFFFFFFFF = (a + n) mod 2 ^ 32 /\
  (if (a + n) mod 2 ^ 32 <? n then u64 (a / 2 ^ 32 + 1) else a / 2 ^ 32) = (a + n) / 2 ^ 32.
Proof.
  intros Ha Hn Hb. change 0xFFFFFFFF with (2 ^ 32 - 1). rewrite land_pow2_mask by lia.
  change (2 ^ 61) with 2305843009213693952 in *.
  pose proof (Z.div_mod a (2 ^ 32)) as Ea. pose proof (Z.mod_pos_bound a (2 ^ 32)) as Hr.
  pose proof (Z.div_mod (a + n) (2 ^ 32)) as Es. pose proof (Z.mod_pos_bound (a + n) (2 ^ 32)) as Hs.
  change (2 ^ 31) with 2147483648 in *. change (2 ^ 32) with 4294967296 in *.
  split; [rewrite wrapu_small by cint; by apply Zplus_mod_idemp_l|].
  assert (0 <= a / 4294967296 < 1152921504606846976) by lia.
  destruct (Z.ltb_spec ((a + n) mod 4294967296) n); [rewrite wrapu_small by cint|]; lia.
Qed.

Lemma printf_s_zero mem : 0 ∈ mem -> printf_s mem = Some (cstr mem).
Proof. intros H. unfold printf_s. by rewrite bool_decide_eq_true_2. Qed.

Lemma md5_update_spec c m x y :
  holds c m -> bytes (x ++ y) -> 0 ∈ x ++ y -> zlen x < 2 ^ 31 -> zlen m + zlen x < 2 ^ 61 ->
  exists c', md5_update c (x ++ y) (zlen x) = Some c' /\ holds c' (m ++ x) /\
    ipad c' = ipad c /\ opad c' = opad c.
Proof.
  intros [E0 E1 Hd] Hxy Hz0 Hn Hb. unfold md5_update. rewrite printf_s_zero by done. cbn [obind].
  destruct (Z.leb_spec (zlen x) 0) as [Hz|Hpos].
  { assert (x = []) as -> by (apply nil_length_inv; lia). exists c. by rewrite app_nil_r. }
  destruct (totals_add (zlen m) (zlen x)) as [T0 T1]; [lia..|].
  rewrite E0, E1, T0, T1, total_left. destruct (mod_div_64 (length m)) as [Em Hm].
  set (c1 := set_total c _ _).
  assert (forall c2 m2 x2, digesting (state c2) (buffer c2) m2 -> bytes (x2 ++ y) ->
    (length m2 mod 64 = 0 \/ length m2 mod 64 + length x2 < 64)%nat -> m2 ++ x2 = m ++ x ->
    c2 = set_state (set_buffer c1 (buffer c2)) (state c2) ->
    exists c', (let? (c, input) := update_blocks (Z.to_nat (zlen x2 / 64)) c2 (x2 ++ y) in
       let ilen := zlen x2 mod 64 in
       if 0 <? ilen then
         let? chunk := zread input 0 ilen in
         let? b := zwrite (buffer c) (Z.of_nat (length m2 mod 64)) chunk in
         Some (set_buffer c b)
       else Some c) = Some c' /\ holds c' (m ++ x) /\ ipad c' = ipad c /\ opad c' = opad c) as Htail.
  { intros c2 m2 x2 Hd2 Hb2 Hc2 Emx E2. destruct (update_tail_spec c2 x2 y m2) as (c' & -> & Hd' & E'); [done..|].
    exists c'. split; [done|]. rewrite E', E2. rewrite <- Emx. split; [|done].
    rewrite <- E2, <- E'. constructor; [| |done]; rewrite E', E2, Emx, length_app; cbn; by rewrite Nat2Z.inj_add. }
  destruct (Z.eqb_spec (Z.of_nat (length m mod 64)) 0) as [H0|Hne]; cbn [negb andb obind].
  { apply (Htail c1 m x); [done|done|lia|done|by destruct c]. }
  destruct (Z.leb_spec (64 - Z.of_nat (length m mod 64)) (zlen x)) as [Hfill|]; cbn [obind].
  2:{ apply (Htail c1 m x); [done|done|lia|done|by destruct c]. }
  set (f := (64 - length m mod 64)%nat).
  replace (64 - Z.of_nat (length m mod 64)) with (Z.of_nat f) by lia. rewrite Nat2Z.id.
  set (x1 := take f x). assert (length x1 = f) as Hx1 by (unfold x1; rewrite length_take; lia).
  assert (zread (x ++ y) 0 (Z.of_nat f) = Some x1) as ->.
  { apply zread_Some. rewrite length_app. split; [lia|]. by rewrite drop_0, Nat2Z.id, take_app_le by lia. }
  cbn [obind]. destruct Hd as [Hl Hbuf Hst Hrest].
  set (b := take (length m mod 64) (buffer c) ++ x1).
  assert (length b = 64%nat) as Hlb by (unfold b; rewrite length_app, length_take; lia).
  assert (zwrite (buffer c1) (Z.of_nat (length m mod 64)) x1 = Some b) as ->.
  { apply zwrite_Some. change (buffer c1) with (buffer c). rewrite Nat2Z.id. split; [lia|].
    rewrite (drop_ge (buffer c)) by lia. by rewrite app_nil_r. }
  assert (bytes b) as Hbb.
  { apply bytes_app. split; auto with cint. apply bytes_app in Hxy as [? _]. by apply bytes_take. }
  destruct (md5_process_lo (state c1) b) as (st & Est & Elo); [done|lia|]. cbn [obind]. rewrite Est.
  cbn [obind]. rewrite drop_app_le by lia.
  destruct (digest_block (state c) (buffer c) m x1 b st) as [Es Hmod]; [by constructor|lia| |done|].
  { fold b. rewrite take_ge by lia. done. }
  replace (zlen x - Z.of_nat f) with (zlen (drop f x)) by (rewrite length_drop; lia).
  assert (digesting st b (m ++ x1)) as Hd1.
  { constructor; [done..|]. rewrite Hmod, take_0. symmetry. apply drop_ge.
    destruct (mod_div_64 (length (m ++ x1))). lia. }
  destruct (Htail (set_state (set_buffer c1 b) st) (m ++ x1) (drop f x)) as (c' & Ec & ?);
    [done| |by left| |by destruct c|].
  - apply bytes_app in Hxy as [? ?]. apply bytes_app. auto with cint.
  - unfold x1. by rewrite <- app_assoc, take_drop.
  - exists c'. rewrite Hmod in Ec. done.
Qed.

(** ** Padding and output *)

Lemma le_bytes_mod n : forall v, le_bytes n (v mod 256 ^ Z.of_nat n) = le_bytes n v.
Proof.
  induction n as [|n IH]; intros v; [done|]. cbn [le_bytes].
  rewrite Nat2Z.inj_succ, Z.pow_succ_r by lia. pose proof (Z.pow_pos_nonneg 256 (Z.of_nat n)).
  rewrite Z.rem_mul_r by lia. rewrite (Z.mul_comm 256). f_equal.
  - by rewrite Z.mod_add, Z.mod_mod by lia.
  - rewrite Z.div_add by lia. rewrite Z.div_small by (apply Z.mod_pos_bound; lia). apply IH.
Qed.

Lemma PUT_le n : PUT_ULONG_LE n = le_bytes 4 (u32 n).
Proof.
  assert (u32 n = n mod 256 ^ Z.of_nat 4) as -> by done. rewrite le_bytes_mod.
  unfold PUT_ULONG_LE, wrapu. rewrite !Z.shiftr_div_pow2 by lia. cbn [le_bytes].
  by rewrite !Z.div_div by lia.
Qed.

Lemma le_bytes_app a b : forall v, le_bytes (a + b) v = le_bytes a v ++ le_bytes b (v / 256 ^ Z.of_nat a).
Proof.
  induction a as [|a IH]; intros v; [by rewrite Z.div_1_r|]. cbn [le_bytes Nat.add app]. f_equal.
  rewrite IH, Z.div_div by (try apply Z.pow_pos_nonneg; lia). do 3 f_equal.
  by rewrite Nat2Z.inj_succ, Z.pow_succ_r by lia.
Qed.

Lemma le_bytes_bytes n : forall v, bytes (le_bytes n v).
Proof. induction n as [|n IH]; intros v; constructor; [apply Z.mod_pos_bound; lia|apply IH]. Qed.

Lemma length_le_bytes n : forall v, length (le_bytes n v) = n.
Proof. induction n as [|n IH]; intros v; simpl; auto. Qed.

(** The eight bytes of the length field. *)
Lemma length_field a :
  0 <= a < 2 ^ 61 ->
  PUT_ULONG_LE (u64 (Z.shiftl (a mod 2 ^ 32) 3)) ++
  PUT_ULONG_LE (Z.shiftr (a mod 2 ^ 32) 29 |. u64 (Z.shiftl (a / 2 ^ 32) 3)) = le_bytes 8 (8 * a).
Proof.
  intros Ha. rewrite !PUT_le. rewrite (le_bytes_app 4 4). change (256 ^ Z.of_nat 4) with (2 ^ 32).
  pose proof (Z.div_mod a (2 ^ 32)) as E. pose proof (Z.mod_pos_bound a (2 ^ 32)) as Hr.
  set (q := a / 2 ^ 32) in *. set (r := a mod 2 ^ 32) in *.
  change (2 ^ 61) with 2305843009213693952 in *. change (2 ^ 32) with 4294967296 in *.
  assert (0 <= q < 536870912) by lia. f_equal.
  - rewrite u32_u64, Z.shiftl_mul_pow2 by lia. rewrite <- (le_bytes_mod 4 (8 * a)). f_equal.
    unfold wrapu. change (2 ^ 32) with 4294967296. change (256 ^ Z.of_nat 4) with 4294967296.
    replace (8 * a) with (r * 2 ^ 3 + 8 * q * 4294967296) by (change (2 ^ 3) with 8; lia).
    by rewrite Z.mod_add by lia.
  - rewrite !Z.shiftl_mul_pow2, Z.shiftr_div_pow2 by lia. rewrite (wrapu_small 64) by (change (2 ^ 3) with 8; cint).
    rewrite <- Z.shiftl_mul_pow2, lor_shiftl_add by (change (2 ^ 3) with 8; change (2 ^ 29) with 536870912;
      pose proof (Z.div_mod r 536870912); pose proof (Z.mod_pos_bound r 536870912); lia).
    rewrite <- (le_bytes_mod 4 (8 * a / 4294967296)). f_equal. unfold wrapu.
    change (256 ^ Z.of_nat 4) with 4294967296. change (2 ^ 32) with 4294967296. f_equal.
    change (2 ^ 29) with 536870912. change (2 ^ 3) with 8.
    pose proof (Z.div_mod r 536870912). pose proof (Z.mod_pos_bound r 536870912).
    apply (Z.div_unique_pos _ _ _ (8 * (r mod 536870912))); lia.
Qed.

(** The last of them is zero unless the message is enormous. *)
Lemma length_field_zero a : 0 <= a < 9007199254740992 -> 0 ∈ le_bytes 8 (8 * a).
Proof.
  intros Ha. rewrite (le_bytes_app 7 1). apply elem_of_app. right.
  rewrite Z.div_small by (change (256 ^ Z.of_nat 7) with 72057594037927936; lia). left.
Qed.

Lemma padding_split m :
  let padn := if Z.of_nat (length m mod 64) <? 56 then 56 - Z.of_nat (length m mod 64)
              else 120 - Z.of_nat (length m mod 64) in
  exists x y, md5_padding = x ++ y /\ zlen x = padn /\
    x = 128 :: replicate (Z.to_nat ((55 - zlen m) mod 64)) 0 /\
    (exists k, length (m ++ x) + 8 = 64 * k)%nat.
Proof.
  intros padn. destruct (mod_div_64 (length m)) as [Em Hm]. set (r := (length m mod 64)%nat) in *.
  set (z := Z.to_nat ((55 - zlen m) mod 64)).
  assert (Z.of_nat z = padn - 1 /\ 0 < padn <= 64) as [Ez Hp].
  { unfold z. rewrite Z2Nat.id by (apply Z.mod_pos_bound; lia). unfold padn.
    destruct (Z.ltb_spec (Z.of_nat r) 56); split; try lia; symmetry;
      [apply (Z.mod_unique_pos _ _ (- Z.of_nat (length m / 64)))
      |apply (Z.mod_unique_pos _ _ (- Z.of_nat (length m / 64) - 1))]; lia. }
  exists (128 :: replicate z 0), (replicate (63 - z) 0).
  split; [unfold md5_padding; cbn [app]; f_equal; rewrite <- replicate_add; f_equal; lia|].
  split; [cbn [length]; rewrite length_replicate; lia|]. split; [done|].
  rewrite length_app. cbn [length]. rewrite length_replicate. unfold padn in *.
  destruct (Z.ltb_spec (Z.of_nat r) 56); [exists (S (length m / 64))|exists (S (S (length m / 64)))]; lia.
Qed.

Lemma md5_finish_spec c m :
  holds c m -> zlen m < 2 ^ 53 ->
  exists c', md5_finish c = Some (c', rfc_md5 m) /\ opad c' = opad c /\ length (buffer c') = 64%nat /\
    bytes (buffer c').
Proof.
  intros Hh Hlen. pose proof Hh as [E0 E1 _]. unfold md5_finish. rewrite E0, E1, total_left.
  rewrite length_field by (change (2 ^ 53) with 9007199254740992 in *;
                           change (2 ^ 61) with 2305843009213693952; lia).
  destruct (padding_split m) as (x & y & Exy & <- & Ex & k & Hk).
  assert (bytes (x ++ y)) as Hxy by (rewrite <- Exy; repeat constructor; lia).
  assert (zlen x <= 64) as Hx.
  { apply (f_equal length) in Exy. rewrite length_app in Exy. cbn in Exy. lia. }
  change (2 ^ 53) with 9007199254740992 in *. rewrite Exy.
  destruct (md5_update_spec c m x y) as (c1 & -> & Hh1 & _ & Eo1);
    [done|done|rewrite <- Exy; apply list_elem_of_In; simpl; auto|change (2 ^ 31) with 2147483648; lia|change (2 ^ 61) with 2305843009213693952; lia|].
  cbn [obind]. set (f := le_bytes 8 (8 * zlen m)).
  assert (length f = 8%nat) as Hf by apply length_le_bytes.
  destruct (md5_update_spec c1 (m ++ x) f []) as (c2 & Ec2 & Hh2 & _ & Eo2).
  { done. }
  { rewrite app_nil_r. apply le_bytes_bytes. }
  { rewrite app_nil_r. apply length_field_zero. lia. }
  { rewrite Hf. done. }
  { rewrite length_app, Hf. change (2 ^ 61) with 2305843009213693952. lia. }
  rewrite app_nil_r, Hf in Ec2. change (Z.of_nat 8) with 8 in Ec2. rewrite Ec2. cbn [obind].
  exists c2. destruct Hh2 as [_ _ [Hl2 Hb2 Hst _]]. rewrite <- app_assoc in Hst.
  assert (m ++ x ++ f = rfc_pad m) as Ep by (unfold rfc_pad; subst x; done).
  rewrite Ep in Hst. split; [|by rewrite Eo2]. f_equal. f_equal. unfold rfc_md5.
  rewrite <- Hst, !PUT_le. done.
Qed.

(** ** Digests *)

(** Storage for a context: whatever its fields hold, the buffer is there. *)
Definition storage (c : md5_context) : Prop := length (buffer c) = 64%nat /\ bytes (buffer c).

Lemma starts_holds c : storage c -> holds (md5_starts c) [].
Proof. intros [? ?]. by constructor. Qed.

(** A caller's updates, each with a chunk and the memory behind it. *)
Fixpoint update_all (c : md5_context) (chunks : list (list Z * list Z)) : option md5_context :=
  match chunks with
  | [] => Some c
  | (x, y) :: chunks => let? c := md5_update c (x ++ y) (zlen x) in update_all c chunks
  end.

Definition chunk_ok (chunk : list Z * list Z) : Prop := bytes (chunk.1 ++ chunk.2) /\ zlen chunk.1 < 2 ^ 31.
Definition terminated (chunk : list Z * list Z) : Prop := 0 ∈ chunk.1 ++ chunk.2.

#[export] Instance terminated_dec chunk : Decision (terminated chunk).
Proof. unfold terminated. apply _. Defined.

Lemma update_all_spec chunks : forall c m,
  holds c m -> Forall chunk_ok chunks -> Forall terminated chunks -> zlen m + zlen (concat chunks.*1) < 2 ^ 53 ->
  exists c', update_all c chunks = Some c' /\ holds c' (m ++ concat chunks.*1) /\
    ipad c' = ipad c /\ opad c' = opad c.
Proof.
  change (2 ^ 53) with 9007199254740992.
  induction chunks as [|[x y] chunks IH]; intros c m Hh Hall Ht Hb; cbn [update_all concat fmap list_fmap fst] in *.
  { exists c. by rewrite app_nil_r. }
  apply Forall_cons in Hall as [[Hx Hlx] Hall]. apply Forall_cons in Ht as [Hz Ht]. rewrite length_app in Hb.
  destruct (md5_update_spec c m x y) as (c1 & -> & Hh1 & Ei & Eo); [done|done|done|done| |].
  { change (2 ^ 61) with 2305843009213693952. lia. }
  cbn [obind]. destruct (IH c1 (m ++ x)) as (c2 & -> & Hh2 & Ei2 & Eo2); [done|done|done|rewrite length_app; lia|].
  exists c2. rewrite <- app_assoc in Hh2. by rewrite Ei2, Eo2.
Qed.

Lemma update_all_runs_off chunks : forall c, ~ Forall terminated chunks -> update_all c chunks = None.
Proof.
  induction chunks as [|[x y] chunks IH]; intros c Hn; [by destruct Hn|]. cbn [update_all].
  destruct (decide (terminated (x, y))) as [Ht|Ht].
  - destruct (md5_update c (x ++ y) (zlen x)); [|done]. cbn [obind]. apply IH. intros H. apply Hn. by constructor.
  - unfold md5_update, printf_s. by rewrite bool_decide_eq_false_2.
Qed.

Lemma md5_spec ctx m y :
  storage ctx -> bytes (m ++ y) -> 0 ∈ m ++ y -> zlen m < 2 ^ 31 -> md5 ctx (m ++ y) (zlen m) = Some (rfc_md5 m).
Proof.
  intros Hs Hm Hz Hl. unfold md5. change (2 ^ 31) with 2147483648 in *.
  destruct (md5_update_spec (md5_starts ctx) [] m y) as (c & -> & Hh & _);
    [by apply starts_holds|done|done|done|change (2 ^ 61) with 2305843009213693952; simpl; lia|].
  cbn [obind].
  destruct (md5_finish_spec c m) as (c' & -> & _); [done|change (2 ^ 53) with 9007199254740992; lia|done].
Qed.

Lemma length_rfc_md5 m : length (rfc_md5 m) = 16%nat.
Proof. unfold rfc_md5. by rewrite !length_app, !length_le_bytes. Qed.

Lemma bytes_rfc_md5 m : bytes (rfc_md5 m).
Proof. unfold rfc_md5. rewrite !bytes_app. split_and!; apply le_bytes_bytes. Qed.

Lemma digest_spec ctx chunks :
  storage ctx -> Forall chunk_ok chunks -> Forall terminated chunks -> zlen (concat chunks.*1) < 2 ^ 53 ->
  (let? c := update_all (md5_starts ctx) chunks in
   let? (_, output) := md5_finish c in Some output) = Some (rfc_md5 (concat chunks.*1)).
Proof.
  intros Hs Hall Ht Hl.
  destruct (update_all_spec chunks (md5_starts ctx) []) as (c & -> & Hh & _);
    [by apply starts_holds|done|done|simpl; lia|].
  cbn [obind app]. by destruct (md5_finish_spec c (concat chunks.*1)) as (c' & -> & _).
Qed.

(** C33: md5.c computes RFC 1321.  However a message of less than 2^53 bytes
    is cut into chunks of less than 2^31, starting a context in any storage,
    updating it with the chunks and finishing it gives the digest of the
    whole message that the reference computes on 32-bit words, provided that
    in the memory from each chunk on there is a zero byte; if for some chunk
    there is none, the trace that [md5_update] prints runs off that memory. *)
Theorem md5_incremental ctx chunks :
  storage ctx -> Forall chunk_ok chunks -> zlen (concat chunks.*1) < 2 ^ 53 ->
  (let? c := update_all (md5_starts ctx) chunks in
   let? (_, output) := md5_finish c in Some output) =
  if decide (Forall terminated chunks) then Some (rfc_md5 (concat chunks.*1)) else None.
Proof.
  intros Hs Hall Hl. destruct (decide (Forall terminated chunks)) as [Ht|Ht]; [by apply digest_spec|].
  by rewrite update_all_runs_off.
Qed.

(** The memory behind the chunks of a file: the rest of the buffer. *)
Fixpoint file_chunks (buf : list Z) (chunks : list (list Z)) : list (list Z * list Z) :=
  match chunks with
  | [] => []
  | x :: chunks => (x, drop (length x) buf) :: file_chunks (x ++ drop (length x) buf) chunks
  end.

Lemma md5_updates_file chunks : forall c buf,
  Forall (fun x => (length x <= length buf)%nat) chunks ->
  md5_updates c buf chunks = update_all c (file_chunks buf chunks).
Proof.
  induction chunks as [|x chunks IH]; intros c buf Hall; [done|]. apply Forall_cons in Hall as [Hx Hall].
  cbn [md5_updates file_chunks update_all].
  assert (zwrite buf 0 x = Some (x ++ drop (length x) buf)) as ->.
  { apply zwrite_Some. split; [lia|]. done. }
  cbn [obind]. destruct (md5_update c _ _) as [c1|]; [|done]. cbn [obind]. apply IH.
  eapply Forall_impl; [exact Hall|]. intros z Hz. cbv beta in *. rewrite length_app, length_drop. lia.
Qed.

Lemma file_chunks_fst chunks : forall buf, (file_chunks buf chunks).*1 = chunks.
Proof. induction chunks as [|x chunks IH]; intros buf; cbn; [done|]. f_equal. apply IH. Qed.

Lemma file_chunks_ok chunks : forall buf,
  bytes buf -> (length buf <= 1024)%nat -> Forall (fun x => bytes x /\ (length x <= length buf)%nat) chunks ->
  Forall chunk_ok (file_chunks buf chunks).
Proof.
  induction chunks as [|x chunks IH]; intros buf Hb Hl Hall; [constructor|].
  apply Forall_cons in Hall as [[Hx Hlx] Hall]. cbn [file_chunks].
  assert (bytes (x ++ drop (length x) buf)) as Hn by (apply bytes_app; auto with cint).
  assert (length (x ++ drop (length x) buf) = length buf) as El by (rewrite length_app, length_drop; lia).
  constructor; [split; [done|]; cbn [fst]; change (2 ^ 31) with 2147483648; lia|]. apply IH; [done|lia|by rewrite El].
Qed.

(** The digest of a file.  Reading into [buf[1024]], [md5_file] gives the
    digest of the bytes read, if after every read the buffer holds a zero. *)
Theorem md5_file_digest ctx buf chunks err :
  storage ctx -> bytes buf -> length buf = 1024%nat ->
  Forall (fun x => bytes x /\ (length x <= 1024)%nat) chunks -> zlen (concat chunks) < 2 ^ 53 ->
  Forall terminated (file_chunks buf chunks) ->
  md5_file ctx buf (Some (chunks, err)) = Some (if err then 2 else 0, Some (rfc_md5 (concat chunks))).
Proof.
  intros Hs Hb Hlb Hall Hl Ht. unfold md5_file.
  rewrite md5_updates_file by (rewrite Hlb; eapply Forall_impl; [exact Hall|]; by intros ? []).
  pose proof (digest_spec ctx (file_chunks buf chunks) Hs) as H. rewrite file_chunks_fst in H.
  rewrite <- Hlb in Hall. specialize (H (file_chunks_ok chunks buf Hb ltac:(lia) Hall) Ht Hl).
  destruct (update_all (md5_starts ctx) (file_chunks buf chunks)) as [c|]; [|done]. cbn [obind] in *.
  apply obind_Some in H as ([c1 o] & -> & [= ->]). done.
Qed.

(** ** HMAC *)

(** RFC 2104 with a block of 64 bytes. *)
Definition rfc_key (key : list Z) : list Z :=
  let k := if 64 <? zlen key then rfc_md5 key else key in k ++ replicate (64 - length k) 0.
Definition rfc_hmac (key m : list Z) : list Z :=
  rfc_md5 ((Z.lxor 0x5C <$> rfc_key key) ++ rfc_md5 ((Z.lxor 0x36 <$> rfc_key key) ++ m)).

Lemma u8_lxor p k : 0 <= p < 256 -> 0 <= k < 256 -> u8 (p ^. k) = p ^. k.
Proof.
  intros. rewrite <- (wrapu_small 8 p), <- (wrapu_small 8 k) by done. bits.
  destruct (i <? 8), (Z.testbit p i), (Z.testbit k i); done.
Qed.

Lemma xor_key_spec p : 0 <= p < 256 -> forall key n, bytes key -> (length key <= n)%nat ->
  xor_key (replicate n p) key = Some (Z.lxor p <$> key ++ replicate (n - length key) 0).
Proof.
  intros Hp. induction key as [|k key IH]; intros n Hb Hl.
  - cbn [length app]. rewrite Nat.sub_0_r, fmap_replicate, Z.lxor_0_r. by destruct n.
  - destruct n as [|n]; cbn [length] in Hl; [lia|]. apply Forall_cons in Hb as [Hk Hb].
    cbn [xor_key replicate]. rewrite IH by (done || lia). cbn [obind]. by rewrite u8_lxor.
Qed.

Lemma xor_bytes p key : 0 <= p < 256 -> bytes key -> bytes (Z.lxor p <$> key).
Proof.
  intros Hp Hb. apply Forall_fmap. eapply Forall_impl; [exact Hb|]. intros k Hk. cbn.
  rewrite <- u8_lxor by done. apply (wrapu_bound 8). lia.
Qed.

Lemma rfc_key_ok key : bytes key -> bytes (rfc_key key) /\ length (rfc_key key) = 64%nat.
Proof.
  intros Hb. unfold rfc_key. rewrite bytes_app, length_app, length_replicate.
  destruct (Z.ltb_spec 64 (zlen key)).
  - rewrite length_rfc_md5. split; [|done]. split; [apply bytes_rfc_md5|]. apply Forall_replicate. lia.
  - split; [split; [done|]; apply Forall_replicate; lia|lia].
Qed.

Lemma hmac_starts_spec ctx junk key y :
  storage ctx -> storage junk -> bytes (key ++ y) -> 0 ∈ key ++ y -> zlen key < 2 ^ 31 ->
  0 ∈ (Z.lxor 0x5C <$> rfc_key key) ->
  exists c, md5_hmac_starts ctx junk (key ++ y) (zlen key) = Some c /\
    holds c (Z.lxor 0x36 <$> rfc_key key) /\ opad c = (Z.lxor 0x5C <$> rfc_key key).
Proof.
  intros Hc Hj Hby Hzk Hl Hz. unfold md5_hmac_starts.
  assert (bytes key) as Hb by (apply bytes_app in Hby; apply Hby).
  set (k := if 64 <? zlen key then rfc_md5 key else key).
  assert ((if 64 <? zlen key then md5 junk (key ++ y) (zlen key) else zread (key ++ y) 0 (zlen key)) = Some k
    /\ bytes k /\ (length k <= 64)%nat) as (-> & Hk & Hlk).
  { unfold k. destruct (Z.ltb_spec 64 (zlen key)).
    - rewrite md5_spec by done. rewrite length_rfc_md5. split_and!; [done|apply bytes_rfc_md5|lia].
    - split_and!; [|done|lia]. apply zread_Some. rewrite length_app. split; [lia|].
      by rewrite drop_0, Nat2Z.id, take_app_length. }
  cbn [obind]. rewrite !xor_key_spec by (done || lia). cbn [obind].
  change (k ++ replicate (64 - length k) 0) with (rfc_key key).
  destruct (rfc_key_ok key Hb) as [Hrb Hrl].
  set (i := Z.lxor 0x36 <$> rfc_key key). set (o := Z.lxor 0x5C <$> rfc_key key).
  assert (length i = 64%nat) as Hi by (unfold i; by rewrite length_fmap).
  set (c0 := Ctx _ _ _ _ i o).
  destruct (md5_update_spec (md5_starts c0) [] i o) as (c & E & Hh & _ & Eo).
  - by apply starts_holds.
  - apply bytes_app. split; by apply xor_bytes.
  - apply elem_of_app. by right.
  - rewrite Hi. done.
  - rewrite Hi. done.
  - rewrite Hi in E. exists c. split; [exact E|]. by rewrite Eo.
Qed.

(** HMAC-MD5.  For keys of any length, longer than a block included,
    [md5_hmac] computes the construction of RFC 2104 over the reference
    digest, in the few cases in which the trace of [md5_update] finds a zero
    in everything it prints: the key, the message, the outer pad (that is
    when the key contains a backslash) and the inner digest. *)
Theorem md5_hmac_rfc2104 ctx junk key y m z :
  storage ctx -> storage junk -> bytes (key ++ y) -> zlen key < 2 ^ 31 -> bytes (m ++ z) -> zlen m < 2 ^ 31 ->
  0 ∈ key ++ y -> 0 ∈ m ++ z -> 0 ∈ (Z.lxor 0x5C <$> rfc_key key) ->
  0 ∈ rfc_md5 ((Z.lxor 0x36 <$> rfc_key key) ++ m) ->
  md5_hmac ctx junk (key ++ y) (zlen key) (m ++ z) (zlen m) = Some (rfc_hmac key m).
Proof.
  intros Hc Hj Hby Hl Hm Hlm Hzk Hzm Hzo Hzd. unfold md5_hmac, md5_hmac_update, md5_hmac_finish.
  assert (bytes key) as Hb by (apply bytes_app in Hby; apply Hby).
  destruct (hmac_starts_spec ctx junk key y) as (c & -> & Hh & Eo); [done..|]. cbn [obind].
  destruct (rfc_key_ok key Hb) as [Hrb Hrl].
  set (i := Z.lxor 0x36 <$> rfc_key key) in *. set (o := Z.lxor 0x5C <$> rfc_key key) in *.
  assert (length i = 64%nat /\ length o = 64%nat) as [Hi Ho] by (unfold i, o; by rewrite !length_fmap).
  assert (bytes o) as Hbo by by apply xor_bytes.
  change (2 ^ 31) with 2147483648 in *.
  destruct (md5_update_spec c i m z) as (c1 & -> & Hh1 & _ & Eo1);
    [done|done|done|done|change (2 ^ 61) with 2305843009213693952; lia|]. cbn [obind].
  destruct (md5_finish_spec c1 (i ++ m)) as (c2 & -> & Eo2 & Hl2 & Hb2);
    [done|rewrite length_app; change (2 ^ 53) with 9007199254740992; lia|].
  cbn [obind]. change (opad (md5_starts c2)) with (opad c2). rewrite Eo2, Eo1, Eo.
  set (d := rfc_md5 (i ++ m)) in *. assert (length d = 16%nat) as Hd by apply length_rfc_md5.
  assert (Forall chunk_ok [(o, []); (d, [])]) as Hok.
  { repeat apply Forall_cons_2; try apply Forall_nil_2; unfold chunk_ok; cbn [fst snd]; rewrite app_nil_r.
    - rewrite Ho. done.
    - rewrite Hd. split; [apply bytes_rfc_md5|done]. }
  assert (Forall terminated [(o, []); (d, [])]) as Ht.
  { repeat apply Forall_cons_2; try apply Forall_nil_2; unfold terminated; cbn [fst snd]; by rewrite app_nil_r. }
  assert (zlen (concat [(o, @nil Z); (d, [])].*1) < 2 ^ 53) as Hlc.
  { cbn [fmap list_fmap fst concat]. rewrite app_nil_r, length_app, Ho, Hd. done. }
  pose proof (digest_spec c2 [(o, []); (d, [])] (conj Hl2 Hb2) Hok Ht Hlc) as H.
  cbn [update_all fmap list_fmap fst concat] in H. rewrite !app_nil_r, Ho, Hd in H.
  change (Z.of_nat 64) with 64 in H. change (Z.of_nat 16) with 16 in H. unfold rfc_hmac. fold i o d. rewrite <- H.
  destruct (md5_update (md5_starts c2) o 64) as [c3|]; [|done]. cbn [obind].
  by destruct (md5_update c3 d 16).
Qed.

(** ** Concrete digests *)

Definition stack : md5_context := Ctx 7 8 (Regs 1 2 3 4) (replicate 64 99) [] [].

Lemma stack_storage : storage stack.
Proof. split; [done|]. apply Forall_replicate. lia. Qed.

Lemma ascii_bytes s : bytes (bytes_of_string s).
Proof.
  induction s as [|a s IH]; constructor; [|exact IH]. unfold byte_of_ascii.
  pose proof (Ascii.N_ascii_bounded a). lia.
Qed.

(** Two chunks of one string literal. *)
Definition text : list Z := bytes_of_string "message digest" ++ [0].
Definition two_chunks : list (list Z * list Z) := [(take 7 text, drop 7 text); (take 7 (drop 7 text), [0])].

Lemma text_bytes : bytes text.
Proof. apply bytes_app. split; [apply ascii_bytes|]. repeat constructor; lia. Qed.

Lemma md5_incremental_witness :
  (let? c := update_all (md5_starts stack) two_chunks in
   let? (_, output) := md5_finish c in Some output) = Some (rfc_md5 (bytes_of_string "message digest")).
Proof.
  assert (Forall chunk_ok two_chunks) as Hc.
  { repeat apply Forall_cons_2; try apply Forall_nil_2; (split; [|vm_compute; reflexivity]); cbn [fst snd].
    - rewrite take_drop. apply text_bytes.
    - apply bytes_app. split; [apply bytes_take, bytes_drop, text_bytes|]. repeat constructor; lia. }
  assert (zlen (concat two_chunks.*1) < 2 ^ 53) as Hl by (vm_compute; reflexivity).
  pose proof (md5_incremental stack two_chunks stack_storage Hc Hl) as H.
  destruct (decide (Forall terminated two_chunks)) as [_|Hn]; [exact H|]. exfalso. apply Hn.
  apply (bool_decide_eq_true_1 (Forall terminated two_chunks)). vm_compute. reflexivity.
Defined.

(** A block of text without a zero behind it: the trace runs off. *)
Example full_buffer_runs_off :
  md5_file stack (replicate 1024 0) (Some ([replicate 1024 97], false)) = None.
Proof. by vm_compute. Qed.

(** A key with a backslash and a message whose inner digest holds a zero. *)
Example hmac_of_a_lucky_message :
  md5_hmac stack stack (bytes_of_string "a\b" ++ [0]) 3 (bytes_of_string "5" ++ [0]) 1 =
  Some (rfc_hmac (bytes_of_string "a\b") (bytes_of_string "5")).
Proof. by vm_compute. Qed.

(** The test vector of RFC 2202: the pads hold no zero, and the trace prints
    them beyond the end of the context. *)
Example hmac_prints_its_pads :
  md5_hmac stack stack (bytes_of_string "Jefe" ++ [0]) 4 (bytes_of_string "what do ya want for nothing?" ++ [0]) 28 = None.
Proof. by vm_compute. Qed.

(** The values the source quotes: RFC 1321 and RFC 2202 test vectors and the
    digest in the comment of [mymd5]. *)
Example rfc1321_abc :
  rfc_md5 (bytes_of_string "abc") =
  [0x90; 0x01; 0x50; 0x98; 0x3C; 0xD2; 0x4F; 0xB0; 0xD6; 0x96; 0x3F; 0x7D; 0x28; 0xE1; 0x7F; 0x72].
Proof. by vm_compute. Qed.

Example rfc2202_jefe :
  rfc_hmac (bytes_of_string "Jefe") (bytes_of_string "what do ya want for nothing?") =
  [0x75; 0x0C; 0x78; 0x3E; 0x6A; 0xB0; 0xB5; 0x03; 0xEA; 0xA8; 0x6E; 0x31; 0x0A; 0x5D; 0xB7; 0x38].
Proof. by vm_compute. Qed.

Example mymd5_comment :
  mymd5 stack (bytes_of_string "yongming@gmail.com") =
  Some (bytes_of_string "2745dd5ef44dd3f7a9a19e6d1491f18f").
Proof. by vm_compute. Qed.

End Md5Proofs.
