(* ===== verification/Register.v ===== *)
(** * myregister.c: registration of new accounts

    [register getuserid <email>] hands out a user id, the digest of the
    address and a random number, and stores it; [register adduser] turns a
    stored id into an account, in the database and in the user table. *)

From S2P Require Import Prelude Dict DictSpec Reply UserTable Chat ChatSpec Rand Md5 Md5Spec.
Import HashTable Output Users Chat Md5.

Module Register.

Definition errRegisterInvalidEmail := bytes_of_string "register fail  invalidEmail" ++ CRLF.
Definition errRegisterEmailIsExist := bytes_of_string "register fail  emailIsExist" ++ CRLF.
Definition errRegisterUsernameIsExist := bytes_of_string "register fail  usernameIsExist" ++ CRLF.
Definition errRegisterInvalidUserid := bytes_of_string "register fail  invalidUserid" ++ CRLF.
Definition okRegister := bytes_of_string "register ok" ++ CRLF.

(** What the stack holds in the variables that are read before they are
    written: [t] in two calls of [mysql_is_exist], and the digest context. *)
Record stackframe := Frame { t_first : Z; t_second : Z; md5_ctx : md5_context }.

Section Register.
Context {D : Type} `{!UserDict D nat}.
Context (ae : Z -> bool).
Context {DB : Type} (db_query : DB -> list Z -> option (list (list (list Z))))
        (db_exec : DB -> list Z -> DB).
Implicit Types s : server D DB.

(** [mysql_is_exist] (mydump.c).  The result of the query goes nowhere and
    the test reads [t] as it was found.  After a failed query there is no
    result set to fetch from. *)
Definition mysql_is_exist s (t : Z) (cmd : list Z) : option Z :=
  if negb (t =? 0) then Some 1
  else match db_query (db s) cmd with
       | None => None
       | Some [] => Some 0
       | Some (_ :: _) => Some 1
       end.

Definition email_query (email : list Z) : list Z :=
  bytes_of_string "select  *  from alluser where email='" ++ email ++ bytes_of_string "';".
Definition salt_of_email_query (email : list Z) : list Z :=
  bytes_of_string "select  *  from emailmd5 where email='" ++ email ++ bytes_of_string "';".
Definition update_salt (md5buf email : list Z) : list Z :=
  bytes_of_string "update  emailmd5 set saltmd5='" ++ md5buf ++ bytes_of_string "' where email='" ++
  email ++ bytes_of_string "'".
Definition insert_salt (email md5buf : list Z) : list Z :=
  bytes_of_string "insert into emailmd5 values('" ++ email ++ bytes_of_string "','" ++ md5buf ++
  bytes_of_string "')".
Definition salt_query (userid : list Z) : list Z :=
  bytes_of_string "select  *  from emailmd5 where saltmd5='" ++ userid ++ bytes_of_string "';".
Definition name_query (username : list Z) : list Z :=
  bytes_of_string "select  *  from alluser where name='" ++ username ++ bytes_of_string "';".
Definition insert_user (userid username password email : list Z) : list Z :=
  bytes_of_string "insert into alluser values('" ++ userid ++ bytes_of_string "', '" ++ username ++
  bytes_of_string "',  '" ++ password ++ bytes_of_string "','" ++ email ++ bytes_of_string "');".

(** The branch for [getuserid]; [x] is the state of the random generator. *)
Definition register_getuserid (x : Rand.state) s (p : nat) (f : stackframe) (argv : list (list Z))
  : option (Rand.state * server D DB) :=
  let? email := arg argv 2 in
  match strchr 64 email with
  | None => let? s := reply_to ae s p errRegisterInvalidEmail in Some (x, s)
  | Some _ =>
      let? cmd := sprintf 256 (email_query email) in
      let? e := mysql_is_exist s (t_first f) cmd in
      if negb (e =? 0) then let? s := reply_to ae s p errRegisterEmailIsExist in Some (x, s)
      else
        let (x, r) := Rand.redisLrand48 x in
        let? myrandom := sprintf 256 (fmt_d r) in
        let? buf := sprintf 256 (email ++ myrandom) in
        let? md5buf := mymd5 (md5_ctx f) buf in
        let? buf := sprintf 256 (bytes_of_string "register ok   " ++ md5buf ++
                                 bytes_of_string "  " ++ myrandom ++ CRLF) in
        let? s := reply_to ae s p buf in
        let? cmd := sprintf 256 (salt_of_email_query email) in
        let? e := mysql_is_exist s (t_second f) cmd in
        let? cmd := sprintf 256 (if negb (e =? 0) then update_salt md5buf email
                                 else insert_salt email md5buf) in
        Some (x, mysqlRunCommand db_exec s cmd)
  end.

(** The branch for [adduser]. *)
Definition register_adduser s (p : nat) (f : stackframe) (argv : list (list Z)) : option (server D DB) :=
  let? username := arg argv 2 in
  let? password := arg argv 3 in
  let? userid := arg argv 4 in
  let? email := arg argv 5 in
  let? cmd := sprintf 256 (salt_query userid) in
  let? e := mysql_is_exist s (t_first f) cmd in
  if e =? 0 then reply_to ae s p errRegisterInvalidUserid
  else
    let? cmd := sprintf 256 (name_query username) in
    let? e := mysql_is_exist s (t_second f) cmd in
    if negb (e =? 0) then reply_to ae s p errRegisterUsernameIsExist
    else
      let? cmd := sprintf 256 (insert_user userid username password email) in
      let s := mysqlRunCommand db_exec s cmd in
      let? s := reply_to ae s p okRegister in
      let? u := insertUserInfo (users s) userid username in
      Some (set_users s u).

Definition registerCommand (x : Rand.state) s (p : nat) (f : stackframe) (argv : list (list Z))
  : option (Rand.state * server D DB) :=
  let? sub := arg argv 1 in
  if streq sub (bytes_of_string "getuserid") then register_getuserid x s p f argv
  else if streq sub (bytes_of_string "adduser") then
    let? s := register_adduser s p f argv in Some (x, s)
  else Some (x, s).

End Register.

End Register.
