(* ===== verification/RegisterSpec.v ===== *)
(** * What registration promises *)

From S2P Require Import Prelude Dict DictSpec Reply UserTable Chat ChatSpec Scenario Rand Md5 Md5Spec Register.
Import HashTable Output Users Chat ChatProofs Md5 Md5Proofs.

Module RegisterProofs.
Import Register.

(** The length of words for which every command text fits its buffer. *)
Definition WORD_MAX : Z := 48.

Definition words_ok (argv : list (list Z)) : Prop :=
  length argv = 6%nat /\ Forall (fun a => strlen a <= WORD_MAX /\ bytes a) argv.

Definition word (a : list Z) : Prop := cstr a = a /\ zlen a <= WORD_MAX /\ bytes a.

Lemma bytes_cstr a : bytes a -> bytes (cstr a).
Proof.
  induction 1 as [|x a Hx Ha IH]; simpl; [constructor|]. destruct (x =? 0); by constructor.
Qed.

Lemma words_arg argv i : words_ok argv -> (i < 6)%nat -> exists a, arg argv i = Some a /\ word a.
Proof.
  intros [Hl Hall] Hi. unfold arg. destruct (lookup_lt_is_Some_2 argv i) as [a Ha]; [lia|].
  rewrite Ha. simpl. eexists. split; [done|].
  destruct (Forall_lookup_1 _ _ _ _ Hall Ha) as [? ?].
  split; [apply cstr_idem|]. split; [done|by apply bytes_cstr].
Qed.

Lemma word_short a : word a -> short a.
Proof. intros (? & ? & _). split; [done|]. unfold WORD_MAX, NAME_MAX in *. lia. Qed.

Ltac word_fits :=
  repeat match goal with H : word _ |- _ => destruct H as (_ & H & _) end;
  unfold WORD_MAX, email_query, salt_of_email_query, update_salt, insert_salt, salt_query, name_query,
    insert_user in *; unfold CRLF; cbn [bytes_of_string];
  repeat (progress (rewrite ?length_app; cbn [length app]));
  repeat match goal with |- context [fmt_d ?z] =>
    let n := fresh "n" in pose proof (length_fmt_d z); set (n := fmt_d z) in * end;
  lia.

(** ** The user id *)

Definition hex_digest (m : list Z) : list Z := concat (hex2 <$> rfc_md5 m).

Lemma length_hex l : zlen (concat (hex2 <$> l)) = 2 * zlen l.
Proof. induction l as [|x l IH]; [done|]. csimpl. lia. Qed.

Lemma length_hex_digest m : zlen (hex_digest m) = 32.
Proof. unfold hex_digest. rewrite length_hex, length_rfc_md5. done. Qed.


Lemma fmt_d_text r : 0 <= r -> (0 ∉ fmt_d r) /\ bytes (fmt_d r).
Proof.
  intros Hr. pose proof (fmt_d_chars r Hr) as Hc. split.
  - rewrite Forall_forall in Hc. intros H%Hc. lia.
  - eapply Forall_impl; [exact Hc|]. simpl. lia.
Qed.

Lemma mymd5_spec ctx m :
  storage ctx -> cstr m = m -> bytes m -> zlen m < 256 -> mymd5 ctx m = Some (hex_digest m).
Proof.
  intros Hs Hc Hb Hl. unfold mymd5, strlen. rewrite Hc.
  rewrite md5_spec; [done|done| | |].
  - apply bytes_app. split; [done|]. repeat constructor; lia.
  - apply elem_of_app. right. left.
  - change (2 ^ 31) with 2147483648. lia.
Qed.

(** The text that is hashed. *)
Lemma salted_text email r :
  word email -> 0 <= r -> cstr (email ++ fmt_d r) = email ++ fmt_d r /\ bytes (email ++ fmt_d r).
Proof.
  intros (He & _ & Hb) Hr. destruct (fmt_d_text r Hr) as [Hz Hd]. split.
  - rewrite cstr_app by (rewrite <- He; apply cstr_no_nul). f_equal.
    apply cstr_id. apply Forall_forall. intros c Hc ->. done.
  - apply bytes_app. done.
Qed.

Section Register.
Context {D : Type} `{!UserDict D nat} `{!UserDictSpec D nat}.
Context (ae : Z -> bool).
Context {DB : Type} (db_query : DB -> list Z -> option (list (list (list Z))))
        (db_exec : DB -> list Z -> DB).
Implicit Types s : server D DB.

Abbreviation getuserid := (register_getuserid ae db_query db_exec).
Abbreviation adduser := (register_adduser ae db_query db_exec).
Abbreviation exists_row := (mysql_is_exist db_query).

Definition salt (email : list Z) (x : Rand.state) : list Z :=
  hex_digest (email ++ fmt_d (Rand.redisLrand48 x).2).

(** The reply to a granted [getuserid]. *)
Definition id_reply (email : list Z) (x : Rand.state) : list Z :=
  bytes_of_string "register ok   " ++ salt email x ++ bytes_of_string "  " ++
  fmt_d (Rand.redisLrand48 x).2 ++ CRLF.

Definition with_reply s p c (text : list Z) : server D DB :=
  set_objects s (<[p := set_out c (addReplyString ae (out c) text)]> (objects s)).

Lemma reply_to_eq s p c text :
  objects s !! p = Some c -> reply_to ae s p text = Some (with_reply s p c text).
Proof. intros Hc. unfold reply_to, upd. by rewrite Hc. Qed.

Lemma lrand_nonneg x : Rand.limbs_ok x -> 0 <= (Rand.redisLrand48 x).2.
Proof.
  intros Hx. unfold Rand.redisLrand48. cbn [snd]. destruct (Rand.next_limbs x) as (_ & H1 & H2).
  unfold Rand.limb in *. rewrite Z.shiftl_mul_pow2, Z.shiftr_div_pow2 by lia.
  change (2 ^ 15) with 32768. change (2 ^ 1) with 2.
  pose proof (Z.div_pos (Rand.x1 (Rand.next x)) 2). pose proof (Z.div_lt_upper_bound (Rand.x1 (Rand.next x)) 2 32768).
  rewrite wrapu_small by cint. rewrite s32_small by cint. lia.
Qed.

Lemma getuserid_spec x s p f argv c email e1 e2 :
  words_ok argv -> arg argv 2 = Some email -> Rand.limbs_ok x -> storage (md5_ctx f) ->
  objects s !! p = Some c ->
  exists_row s (t_first f) (email_query email) = Some e1 ->
  exists_row s (t_second f) (salt_of_email_query email) = Some e2 ->
  getuserid x s p f argv = Some
    match strchr 64 email with
    | None => (x, with_reply s p c errRegisterInvalidEmail)
    | Some _ =>
        if negb (e1 =? 0) then (x, with_reply s p c errRegisterEmailIsExist)
        else ((Rand.redisLrand48 x).1,
              mysqlRunCommand db_exec (with_reply s p c (id_reply email x))
                (if negb (e2 =? 0) then update_salt (salt email x) email
                 else insert_salt email (salt email x)))
    end.
Proof.
  intros Hw Ha Hx Hst Hc E1 E2. unfold register_getuserid.
  destruct (words_arg argv 2 Hw) as (a & Ha' & He); [lia|]. rewrite Ha in Ha'. injection Ha' as <-.
  rewrite Ha. cbn [obind].
  destruct (strchr 64 email); [|by rewrite (reply_to_eq s p c)].
  rewrite sprintf_Some by word_fits. cbn [obind]. rewrite E1. cbn [obind].
  destruct (negb (e1 =? 0)); [by rewrite (reply_to_eq s p c)|].
  pose proof (lrand_nonneg x Hx) as Hr. unfold id_reply, salt.
  destruct (Rand.redisLrand48 x) as [x' r]. cbn [fst snd] in *.
  destruct (salted_text email r He Hr) as [Hcs Hbs].
  rewrite (sprintf_Some _ (fmt_d r)) by word_fits. cbn [obind].
  rewrite sprintf_Some by word_fits. cbn [obind].
  rewrite mymd5_spec by (done || word_fits). cbn [obind].
  pose proof (length_hex_digest (email ++ fmt_d r)) as Hh. set (h := hex_digest (email ++ fmt_d r)) in *.
  rewrite sprintf_Some by word_fits. cbn [obind]. rewrite (reply_to_eq s p c) by done. cbn [obind].
  rewrite sprintf_Some by word_fits. cbn [obind].
  assert (exists_row (with_reply s p c _) (t_second f) (salt_of_email_query email) = Some e2) as -> by exact E2.
  cbn [obind]. rewrite sprintf_Some; [done|]. destruct (negb (e2 =? 0)); word_fits.
Qed.

(** Whether [mysql_is_exist] reports a row: it looks at the answer of the
    database only when the uninitialised [t] happens to be zero. *)
Definition found (t : Z) (rows : list (list (list Z))) : bool :=
  negb (t =? 0) || negb (bool_decide (rows = [])).

Lemma exists_row_found s t q rows :
  (t = 0 -> db_query (db s) q = Some rows) -> exists_row s t q = Some (if found t rows then 1 else 0).
Proof.
  intros H. unfold mysql_is_exist, found. destruct (Z.eqb_spec t 0) as [Ht|Ht]; cbn [negb orb]; [|done].
  rewrite (H Ht). by destruct rows.
Qed.

(** C31: a user id is the salted digest of the address.  For words of at
    most 48 bytes, when the database answers the queries whose answer is
    looked at, [getuserid] refuses a text without an at sign and an address
    that is reported to have an account, and otherwise replies with the
    digest of the address followed by the next random number, stores that
    digest for the address, by an update if one is reported and by an
    insertion if not, and changes nothing else.  A row is reported when the
    database returns one or the word that [mysql_is_exist] finds on the stack
    is not zero. *)
Theorem getuserid_grants x s p f argv c email rows1 rows2 :
  words_ok argv -> arg argv 1 = Some (bytes_of_string "getuserid") -> arg argv 2 = Some email ->
  Rand.limbs_ok x -> storage (md5_ctx f) -> objects s !! p = Some c ->
  (t_first f = 0 -> db_query (db s) (email_query email) = Some rows1) ->
  (t_second f = 0 -> db_query (db s) (salt_of_email_query email) = Some rows2) ->
  registerCommand ae db_query db_exec x s p f argv = Some
    match strchr 64 email with
    | None => (x, with_reply s p c errRegisterInvalidEmail)
    | Some _ =>
        if found (t_first f) rows1 then (x, with_reply s p c errRegisterEmailIsExist)
        else ((Rand.redisLrand48 x).1,
              mysqlRunCommand db_exec (with_reply s p c (id_reply email x))
                (if found (t_second f) rows2 then update_salt (salt email x) email
                 else insert_salt email (salt email x)))
    end.
Proof.
  intros Hw Hsub Ha Hx Hst Hc Q1 Q2. unfold registerCommand. rewrite Hsub. cbn [obind].
  rewrite (proj2 (streq_true _ _)) by done.
  rewrite (getuserid_spec x s p f argv c email _ _ Hw Ha Hx Hst Hc (exists_row_found _ _ _ _ Q1)
             (exists_row_found _ _ _ _ Q2)).
  by destruct (strchr 64 email), (found (t_first f) rows1), (found (t_second f) rows2).
Qed.

Lemma adduser_spec s p f argv c name pwd uid email e1 e2 :
  words_ok argv -> arg argv 2 = Some name -> arg argv 3 = Some pwd -> arg argv 4 = Some uid ->
  arg argv 5 = Some email -> users_ok (users s) -> room s -> objects s !! p = Some c ->
  exists_row s (t_first f) (salt_query uid) = Some e1 ->
  exists_row s (t_second f) (name_query name) = Some e2 ->
  if e1 =? 0 then adduser s p f argv = Some (with_reply s p c errRegisterInvalidUserid)
  else if negb (e2 =? 0) then adduser s p f argv = Some (with_reply s p c errRegisterUsernameIsExist)
  else exists u, insertUserInfo (users s) uid name = Some u /\
    adduser s p f argv = Some (set_users (with_reply (mysqlRunCommand db_exec s
                                 (insert_user uid name pwd email)) p c okRegister) u).
Proof.
  intros Hw A2 A3 A4 A5 Hu Hr Hc E1 E2. unfold register_adduser.
  destruct (words_arg argv 2 Hw) as (? & Ha & H2); [lia|]. rewrite A2 in Ha. injection Ha as <-.
  destruct (words_arg argv 3 Hw) as (? & Ha & H3); [lia|]. rewrite A3 in Ha. injection Ha as <-.
  destruct (words_arg argv 4 Hw) as (? & Ha & H4); [lia|]. rewrite A4 in Ha. injection Ha as <-.
  destruct (words_arg argv 5 Hw) as (? & Ha & H5); [lia|]. rewrite A5 in Ha. injection Ha as <-.
  rewrite A2, A3, A4, A5. cbn [obind].
  rewrite sprintf_Some by (clear H2 H3 H5; word_fits). cbn [obind]. rewrite E1. cbn [obind].
  destruct (e1 =? 0); [by rewrite (reply_to_eq s p c)|].
  rewrite sprintf_Some by (clear H3 H4 H5; word_fits). cbn [obind]. rewrite E2. cbn [obind].
  destruct (negb (e2 =? 0)); [by rewrite (reply_to_eq s p c)|].
  destruct (insertUser_ok (users s) uid name Hu (word_short _ H4) (word_short _ H2) Hr)
    as (u & Hins & _).
  rewrite sprintf_Some by word_fits. cbn [obind].
  rewrite (reply_to_eq _ p c) by done. cbn [obind].
  change (users (with_reply _ p c okRegister)) with (users s). rewrite Hins. by exists u.
Qed.

(** The table after a registration. *)
Lemma insert_lookup (st : usertable D) uid name u :
  users_ok st -> word uid -> word name -> Z.of_nat (base.size (ud_map (myuserdict st))) < 2 ^ 29 ->
  insertUserInfo st uid name = Some u ->
  lookup_user u name = Some (default (fresh_user uid name (userInfo st)) (lookup_user st name)).
Proof.
  intros Hok Hu Hn Hsz E. pose proof Hok as [Hwf _].
  destruct (insertUserInfo_spec st uid name Hwf (short_strlen _ (word_short _ Hn))
              (short_strlen _ (word_short _ Hu)) Hsz) as (st' & E' & _ & Hc).
  rewrite E in E'. injection E' as <-. destruct (lookup_user st name) as [w|] eqn:El.
  - destruct Hc as (Hr & _ & Hm). change (lookup_user u name = Some w).
    rewrite <- El. unfold lookup_user. by rewrite Hr, Hm.
  - destruct Hc as (Hr & _ & _ & Hm). unfold lookup_user. by rewrite Hr, Hm, !lookup_insert_eq.
Qed.

Lemma with_reply_quiet s p c text : objects s !! p = Some c -> quiet s (with_reply s p c text).
Proof.
  intros Hc. destruct (reply_ok ae s p text) as (s' & E & Hq); [by exists c|].
  rewrite (reply_to_eq s p c) in E by done. by injection E as <-.
Qed.

(** The database is not part of the invariant. *)
Lemma run_command_inv s cmd : inv s -> inv (mysqlRunCommand db_exec s cmd).
Proof. intros Hi. by apply (quiet_inv s). Qed.

Lemma register_inv s p c cmd text uid name u :
  inv s -> objects s !! p = Some c -> room s -> word uid -> word name ->
  insertUserInfo (users s) uid name = Some u ->
  inv (set_users (with_reply (mysqlRunCommand db_exec s cmd) p c text) u).
Proof.
  intros Hi Hc Hr Hu Hn E.
  destruct (insertUser_ok (users s) uid name (inv_users _ Hi) (word_short _ Hu) (word_short _ Hn) Hr)
    as (u' & E' & Hok & Hl & _). rewrite E in E'. injection E' as <-.
  apply add_user_inv; [|done|done]. eapply quiet_inv; [by apply with_reply_quiet|].
  by apply run_command_inv.
Qed.

(** C32: registration creates the account.  For words of at most 48 bytes, on
    a server with its invariant and room in the table, when the database
    answers the queries whose answer is looked at: [adduser] with an id that
    is not reported as handed out, or with a name that is reported as taken,
    gets the refusal and changes nothing else.  Otherwise the account is
    inserted into the database, the name is in the user table afterwards, off
    line if it is new and as before if not, and the invariant is kept.  A row
    is reported when the database returns one or the word that
    [mysql_is_exist] finds on the stack is not zero. *)
Theorem adduser_creates_account x s p f argv c name pwd uid email rows1 rows2 :
  words_ok argv -> arg argv 1 = Some (bytes_of_string "adduser") ->
  arg argv 2 = Some name -> arg argv 3 = Some pwd -> arg argv 4 = Some uid -> arg argv 5 = Some email ->
  inv s -> room s -> objects s !! p = Some c ->
  (t_first f = 0 -> db_query (db s) (salt_query uid) = Some rows1) ->
  (t_second f = 0 -> db_query (db s) (name_query name) = Some rows2) ->
  exists s', registerCommand ae db_query db_exec x s p f argv = Some (x, s') /\ inv s' /\
    if negb (found (t_first f) rows1) then s' = with_reply s p c errRegisterInvalidUserid
    else if found (t_second f) rows2 then s' = with_reply s p c errRegisterUsernameIsExist
    else
      db s' = db_exec (db s) (insert_user uid name pwd email) /\
      objects s' = objects (with_reply s p c okRegister) /\
      lookup_user (users s') name =
        Some (default (fresh_user uid name (userInfo (users s))) (lookup_user (users s) name)).
Proof.
  intros Hw Hsub A2 A3 A4 A5 Hi Hr Hc Q1 Q2. unfold registerCommand. rewrite Hsub. cbn [obind].
  assert (streq (bytes_of_string "adduser") (bytes_of_string "getuserid") = false) as -> by done.
  assert (streq (bytes_of_string "adduser") (bytes_of_string "adduser") = true) as -> by done.
  destruct (words_arg argv 2 Hw) as (? & Ha & H2); [lia|]. rewrite A2 in Ha. injection Ha as <-.
  destruct (words_arg argv 4 Hw) as (? & Ha & H4); [lia|]. rewrite A4 in Ha. injection Ha as <-.
  pose proof (adduser_spec s p f argv c name pwd uid email _ _ Hw A2 A3 A4 A5 (inv_users _ Hi) Hr Hc
                (exists_row_found _ _ _ _ Q1) (exists_row_found _ _ _ _ Q2)) as Hs.
  assert (forall text, inv (with_reply s p c text)) as Hq
    by (intros text; by eapply quiet_inv; [apply with_reply_quiet|]).
  destruct (found (t_first f) rows1); cbn [negb Z.eqb Pos.eqb] in *; [|rewrite Hs; by eexists].
  destruct (found (t_second f) rows2); cbn [negb Z.eqb Pos.eqb] in *; [rewrite Hs; by eexists|].
  destruct Hs as (u & Hins & ->). eexists. split; [done|].
  split; [exact (register_inv s p c _ _ uid name u Hi Hc Hr H4 H2 Hins)|].
  split; [done|]. split; [done|]. apply insert_lookup; [apply Hi|done..].
Qed.

(** Every registration command keeps the invariant. *)
Definition db_answers s : Prop := forall q, is_Some (db_query (db s) q).

Lemma exists_row_total s t q : db_answers s -> exists e, exists_row s t q = Some e.
Proof.
  intros Hd. unfold mysql_is_exist. destruct (negb (t =? 0)); [by eexists|].
  destruct (Hd q) as [[|? ?] ->]; by eexists.
Qed.

Lemma registerCommand_ok x s p f argv :
  inv s -> live s p -> words_ok argv -> room s -> db_answers s -> Rand.limbs_ok x -> storage (md5_ctx f) ->
  exists x' s', registerCommand ae db_query db_exec x s p f argv = Some (x', s') /\ inv s' /\
    Rand.limbs_ok x'.
Proof.
  intros Hi [c Hc] Hw Hr Hd Hx Hst. unfold registerCommand.
  destruct (words_arg argv 1 Hw) as (sub & -> & _); [lia|]. cbn [obind].
  destruct (words_arg argv 2 Hw) as (a2 & A2 & H2); [lia|].
  assert (forall text, inv (with_reply s p c text)) as Hq.
  { intros text. by eapply quiet_inv; [apply with_reply_quiet|]. }
  destruct (streq sub (bytes_of_string "getuserid")).
  { destruct (exists_row_total s (t_first f) (email_query a2) Hd) as [e1 E1].
    destruct (exists_row_total s (t_second f) (salt_of_email_query a2) Hd) as [e2 E2].
    rewrite (getuserid_spec x s p f argv c a2 e1 e2) by done.
    destruct (strchr 64 a2); [|by eauto]. destruct (negb (e1 =? 0)); [by eauto|].
    do 2 eexists. split; [done|]. split; [by apply run_command_inv|]. apply Rand.next_limbs. }
  destruct (streq sub _); [|by eauto].
  destruct (words_arg argv 3 Hw) as (a3 & A3 & H3); [lia|].
  destruct (words_arg argv 4 Hw) as (a4 & A4 & H4); [lia|].
  destruct (words_arg argv 5 Hw) as (a5 & A5 & H5); [lia|].
  destruct (exists_row_total s (t_first f) (salt_query a4) Hd) as [e1 E1].
  destruct (exists_row_total s (t_second f) (name_query a2) Hd) as [e2 E2].
  pose proof (adduser_spec s p f argv c a2 a3 a4 a5 e1 e2 Hw A2 A3 A4 A5 (inv_users _ Hi) Hr Hc E1 E2) as Hs.
  destruct (e1 =? 0); [rewrite Hs; cbn [obind]; by eauto|].
  destruct (negb (e2 =? 0)); [rewrite Hs; cbn [obind]; by eauto|].
  destruct Hs as (u & Hins & ->). cbn [obind]. do 2 eexists. split; [done|].
  split; [exact (register_inv s p c _ _ a4 a2 u Hi Hc Hr H4 H2 Hins)|done].
Qed.

End Register.

(** ** Registering in the household of [Scenario] *)
Module Demo.
Import Scenario DictRefinement DictImpl.

#[local] Instance ud : UserDict (dict cstring nat) nat := dict_userdict 5381 true.
#[local] Instance ud_spec : UserDictSpec (dict cstring nat) nat := dict_userdict_spec 5381 true.

(** The database has handed out one id. *)
Definition registry (d : unit) (q : list Z) : option (list (list (list Z))) :=
  if bool_decide (q = salt_query (str "cafe")) then Some [[str "row"]] else query d q.

Definition frame : stackframe := Frame 0 0 stack.

Definition ask : list (list Z) :=
  [str "register"; str "getuserid"; str "eve@example.org"; str "n"; str "n"; str "n"].
Definition join : list (list Z) :=
  [str "register"; str "adduser"; str "eve"; str "pw3"; str "cafe"; str "eve@example.org"].

Lemma words_dec argv :
  bool_decide (length argv = 6%nat /\
    Forall (fun a => strlen a <= WORD_MAX /\ Forall (fun b => 0 <= b < 256) a) argv) = true ->
  words_ok argv.
Proof. apply bool_decide_eq_true_1. Qed.

Lemma home_client : exists c, objects home !! 1%nat = Some c.
Proof. eexists. vm_compute. reflexivity. Qed.

Lemma getuserid_grants_witness :
  exists c, registerCommand ae registry exec Rand.initial home 1%nat frame ask = Some
    ((Rand.redisLrand48 Rand.initial).1,
     mysqlRunCommand exec (with_reply ae home 1%nat c (id_reply (str "eve@example.org") Rand.initial))
       (insert_salt (str "eve@example.org") (salt (str "eve@example.org") Rand.initial))).
Proof.
  destruct home_client as [c Hc]. exists c.
  rewrite (getuserid_grants ae registry exec Rand.initial home 1%nat frame ask c (str "eve@example.org") [] []);
    [reflexivity| |reflexivity|reflexivity| |apply stack_storage|exact Hc|by vm_compute|by vm_compute].
  - apply words_dec. vm_compute. reflexivity.
  - repeat split; vm_compute; congruence.
Defined.

Lemma adduser_creates_account_witness :
  exists c s', registerCommand ae registry exec Rand.initial home 1%nat frame join = Some (Rand.initial, s') /\
    inv s' /\
    db s' = exec (db home) (insert_user (str "cafe") (str "eve") (str "pw3") (str "eve@example.org")) /\
    objects s' = objects (with_reply ae home 1%nat c okRegister) /\
    lookup_user (users s') (str "eve") =
      Some (default (fresh_user (str "cafe") (str "eve") (userInfo (users home))) (lookup_user (users home) (str "eve"))).
Proof.
  destruct home_client as [c Hc]. exists c.
  apply (adduser_creates_account ae registry exec Rand.initial home 1%nat frame join c
           (str "eve") (str "pw3") (str "cafe") (str "eve@example.org") [[str "row"]] []);
    try reflexivity; [|apply home_inv|exact Hc].
  apply words_dec. vm_compute. reflexivity.
Defined.

(** When the word found on the stack is not zero, every address counts as
    registered, whatever the database says. *)
Example stale_stack_refuses :
  (let? (_, s) := registerCommand ae registry exec Rand.initial home 1%nat (Frame 1 1 stack) ask in
   let? c := objects s !! 1%nat in let? c0 := objects home !! 1%nat in
   Some (drop (length (buf (out c0))) (buf (out c)))) = Some errRegisterEmailIsExist.
Proof. by vm_compute. Qed.

(** The generator is never seeded: the salt of the first address after every
    start is the same. *)
Example first_salt_is_fixed :
  salt (str "eve@example.org") Rand.initial = hex_digest (str "eve@example.org851401618").
Proof. by vm_compute. Qed.

End Demo.

End RegisterProofs.
