(* ===== verification/SessionSpec.v ===== *)
(** * Sessions stay consistent whatever is sent

    [ChatSpec] shows that commands with short words succeed and keep the
    invariant.  Here nothing is assumed of the words: whenever a command
    returns, sessions and line states agree afterwards if they did before.
    The one limit is the number of accounts the dictionary can index. *)

From S2P Require Import Prelude Dict DictSpec Reply UserTable Chat ChatSpec Rand Md5 Register.
Import HashTable Output Users Chat ChatProofs Register.

Module SessionProofs.

(** ** The table of users *)

Section Tables.
Context {D : Type} `{!UserDict D nat} `{!UserDictSpec D nat}.
Implicit Types st : usertable D.

(** A table operation that adds no account and changes no line state. *)
Record tbl_keeps st st' : Prop := {
  tk_brk : brk st' = brk st;
  tk_wf : ut_wf st -> ut_wf st';
  tk_line : ut_wf st -> forall name, line st' name = line st name
}.

#[global] Instance tbl_keeps_refl : Reflexive tbl_keeps.
Proof. intros st. by constructor. Qed.

#[global] Instance tbl_keeps_trans : Transitive tbl_keeps.
Proof.
  intros a b c [A1 A2 A3] [B1 B2 B3]. constructor; [congruence|auto|].
  intros H n. by rewrite B3, A3 by auto.
Qed.

Lemma tbl_eq_keeps st st' : (ut_wf st -> tbl_eq st st') -> brk st' = brk st -> tbl_keeps st st'.
Proof. intros H Hb. constructor; [done|intros Hw; by apply (tbl_wf _ _ (H Hw))|intros Hw; apply (tbl_line _ _ (H Hw))]. Qed.

Lemma fetch_keeps st name st' p : fetch st name = Some (st', p) -> tbl_keeps st st'.
Proof.
  intros E. apply tbl_eq_keeps.
  - intros Hw. destruct (fetch_spec st name Hw) as (d & Hw' & Hm & Hf).
    assert (st' = set_dict st d) as -> by (destruct (lookup_user st name); [destruct Hf as (q & Hf & _)|destruct Hf as [Hf _]]; congruence).
    by apply tbl_eq_set_dict.
  - unfold fetch in E. apply obind_Some in E as ([d q] & _ & [= <- <-]). done.
Qed.

(** Operations that only look a name up. *)
Ltac looks_up :=
  repeat match goal with
  | H : obind (fetch _ _) _ = Some _ |- _ =>
      apply obind_Some in H; destruct H as ([? ?] & ?%fetch_keeps & H)
  | H : obind _ _ = Some _ |- _ => apply obind_Some in H; destruct H as (? & ? & H)
  | H : (if ?b then _ else _) = Some _ |- _ => destruct b
  | H : match ?x with _ => _ end = Some _ |- _ => destruct x
  end; try discriminate; by simplify_eq.

Lemma getUser_keeps st name state st' r :
  chatSetOrGetUserInfo st name state OPERATION_GET_INFO = Some (st', r) -> tbl_keeps st st'.
Proof. unfold chatSetOrGetUserInfo. cbn [Z.eqb OPERATION_GET_INFO OPERATION_SET_INFO]. intros H. looks_up. Qed.

Lemma getNode_keeps st name node state st' r :
  chatSetOrGetNodeInfo st name node state OPERATION_GET_INFO = Some (st', r) -> tbl_keeps st st'.
Proof. unfold chatSetOrGetNodeInfo. cbn [Z.eqb OPERATION_GET_INFO OPERATION_SET_INFO]. intros H. looks_up. Qed.

Lemma nodeSize_keeps st name st' r : getUserNodeSize st name = Some (st', r) -> tbl_keeps st st'.
Proof. unfold getUserNodeSize. intros H. looks_up. Qed.

Lemma allNodes_keeps st name st' r : getAllNodeInfo st name = Some (st', r) -> tbl_keeps st st'.
Proof. unfold getAllNodeInfo. intros H. looks_up. Qed.

Lemma getUserid_keeps st name st' r : getUseridByName st name = Some (st', r) -> tbl_keeps st st'.
Proof. unfold getUseridByName. intros H. looks_up. Qed.

(** An id is found for an account. *)
Lemma getUserid_found st name st' uid :
  ut_wf st -> getUseridByName st name = Some (st', Some uid) -> is_Some (line st name).
Proof.
  intros Hw E. unfold line. destruct (fetch_spec st name Hw) as (d & _ & _ & Hf).
  destruct (lookup_user st name) as [u|]; [by eexists|]. destruct Hf as [Hf _].
  unfold getUseridByName in E. by rewrite Hf in E.
Qed.

Lemma setNode_keeps st name node state st' r :
  state = s_on \/ state = s_off ->
  chatSetOrGetNodeInfo st name node state OPERATION_SET_INFO = Some (st', r) -> tbl_keeps st st'.
Proof.
  intros Hs E. apply tbl_eq_keeps.
  - intros Hw. destruct (setNode_ok st name node state Hw Hs) as (u & E' & Ht). congruence.
  - unfold chatSetOrGetNodeInfo in E. apply obind_Some in E as ([st1 p] & H1%fetch_keeps & E).
    destruct p as [p|]; [|injection E as <- _; apply H1].
    apply obind_Some in E as (u & _ & E). apply obind_Some in E as ([j|] & _ & E); [|injection E as <- _; apply H1].
    apply obind_Some in E as (n & _ & E). cbn [Z.eqb OPERATION_GET_INFO OPERATION_SET_INFO Pos.eqb obind] in E.
    apply obind_Some in E as (l & _ & [= <- _]). apply H1.
Qed.

Lemma setUser_brk st name state st' r :
  chatSetOrGetUserInfo st name state OPERATION_SET_INFO = Some (st', r) -> brk st' = brk st.
Proof.
  unfold chatSetOrGetUserInfo. intros E. apply obind_Some in E as ([st1 p] & H1%fetch_keeps & E).
  destruct p as [p|]; [|injection E as <- _; apply H1].
  apply obind_Some in E as (u & _ & E). cbn [Z.eqb OPERATION_GET_INFO OPERATION_SET_INFO Pos.eqb obind] in E.
  apply obind_Some in E as (l & _ & [= <- _]). apply H1.
Qed.

Lemma strcpy_fits n s t : strcpy n s = Some t -> strlen s < n.
Proof. unfold strcpy. destruct (Z.ltb_spec (strlen s) n); [done|discriminate]. Qed.

Lemma sprintf_fits n s t : sprintf n s = Some t -> t = s /\ zlen t < n.
Proof. unfold sprintf. destruct (Z.ltb_spec (zlen s) n); [by intros [= <-]|discriminate]. Qed.

Lemma insertNode_keeps st name node st' r :
  insertNodeToUserInfo st name node = Some (st', r) -> tbl_keeps st st'.
Proof.
  intros E. pose proof E as E0. unfold insertNodeToUserInfo in E.
  apply obind_Some in E as ([st1 p] & H1%fetch_keeps & E).
  destruct p as [p|]; [|by injection E as <- _].
  apply obind_Some in E as (u & _ & E). apply obind_Some in E as ([j|] & _ & E); [by injection E as <- _|].
  destruct (_ <=? _); [by injection E as <- _|].
  apply obind_Some in E as (nm & Hn%strcpy_fits & E). apply obind_Some in E as (l & _ & E).
  apply obind_Some in E as (ns & _ & [= E <-]). constructor; [rewrite <- E; apply H1|intros Hw..];
    destruct (insertNodeToUserInfo_spec st name node Hw Hn) as (st2 & r2 & E2 & Hw2 & Hm & _ & Hc);
    rewrite E0 in E2; injection E2 as <- <-; [done|].
  intros other. unfold line. destruct (lookup_user st name) as [w|] eqn:Hl.
  2:{ destruct Hc as [_ Hr]. unfold lookup_user. by rewrite Hr, Hm. }
  destruct Hc as [(_ & _ & Hr)|[(_ & _ & _ & Hr)|(_ & _ & _ & Hn1 & Ho)]];
    [unfold lookup_user; by rewrite Hr, Hm..|].
  destruct (decide (lower other = lower name)) as [Eo|Eo]; [|by rewrite Ho].
  by rewrite !(lookup_user_lower _ other name Eo), Hn1, Hl.
Qed.

(** Every account has its record, at an address that was given out. *)
Lemma accounts_bound st : ut_wf st -> (base.size (ud_map (myuserdict st)) <= brk st)%nat.
Proof.
  intros Hw. set (m := ud_map (myuserdict st)).
  rewrite <- length_map_to_list, <- (length_fmap snd), <- (length_seq (brk st) 0).
  apply submseteq_length, NoDup_submseteq.
  - apply NoDup_fmap_2_strong; [|apply NoDup_map_to_list].
    intros [k p] [k' p'] H1%elem_of_map_to_list H2%elem_of_map_to_list Ep. cbn in Ep. subst p'.
    apply (wf_keys _ Hw) in H1 as (u & Hu & <-). apply (wf_keys _ Hw) in H2 as (u' & Hu' & <-). congruence.
  - intros p ([k q] & -> & Hq%elem_of_map_to_list)%list_elem_of_fmap. apply elem_of_seq. cbn.
    apply (wf_keys _ Hw) in Hq as (u & Hu & _). pose proof (wf_brk _ Hw q (mk_is_Some _ _ Hu)). lia.
Qed.

(** The largest number of accounts. *)
Definition MAX_ACCOUNTS : Z := 2 ^ 29.

Lemma insertUser_partial st uid name st' :
  insertUserInfo st uid name = Some st' ->
  (brk st <= brk st')%nat /\
  (Z.of_nat (brk st') <= MAX_ACCOUNTS -> ut_wf st -> ut_wf st' /\ grows st st').
Proof.
  intros E. pose proof E as E0. unfold insertUserInfo in E.
  apply obind_Some in E as ([st1 p] & H1%fetch_keeps & E).
  destruct p as [p|].
  { injection E as <-. rewrite (tk_brk _ _ H1). split; [done|]. intros _ Hw.
    split; [by apply H1|]. intros n. left. by apply (tk_line _ _ H1). }
  apply obind_Some in E as (nm & Hn%strcpy_fits & E). apply obind_Some in E as (ui & Hu%strcpy_fits & E).
  apply obind_Some in E as (l & _ & E). apply obind_Some in E as ([d z] & _ & [= E]).
  assert (brk st' = S (brk st)) as Eb by (rewrite <- E; cbn; by rewrite (tk_brk _ _ H1)).
  split; [lia|]. intros Hmax Hw. pose proof (accounts_bound st Hw).
  destruct (insertUserInfo_spec st uid name Hw Hn Hu) as (st2 & E2 & Hw2 & Hc); [unfold MAX_ACCOUNTS in *; lia|].
  rewrite E0 in E2. injection E2 as <-. split; [done|]. intros other. unfold line.
  destruct (lookup_user st name) as [u|] eqn:El.
  { destruct Hc as (Hr & _ & Hm). left. unfold lookup_user. by rewrite Hr, Hm. }
  destruct Hc as (Hr & _ & Hfr & Hm). destruct (decide (lower other = lower name)) as [Eo|Eo].
  - right. rewrite (lookup_user_lower st _ _ Eo), El. split; [done|].
    unfold lookup_user. by rewrite Hr, Hm, Eo, !lookup_insert_eq.
  - left. unfold lookup_user. rewrite Hr, Hm, lookup_insert_ne by done.
    destruct (ud_map _ !! lower other) as [q|] eqn:Eq; [|done]. rewrite lookup_insert_ne; [done|].
    intros <-. apply (wf_keys _ Hw) in Eq as (w & Hw' & _). congruence.
Qed.

End Tables.

(** ** Steps of the server *)

Section Server.
Context {D : Type} `{!UserDict D nat} `{!UserDictSpec D nat}.
Context (ae : Z -> bool).
Context {DB : Type} (db_query : DB -> list Z -> option (list (list (list Z))))
        (db_exec : DB -> list Z -> DB).
Implicit Types s : server D DB.

(** A step that changes no session and no line state. *)
Record keeps s s' : Prop := {
  kp_clients : clients s' ≡ₚ clients s;
  kp_sessions : sessions s' = sessions s;
  kp_users : tbl_keeps (users s) (users s')
}.

#[local] Instance keeps_refl : Reflexive keeps.
Proof. intros s. by constructor. Qed.

#[local] Instance keeps_trans : Transitive keeps.
Proof.
  intros a b c [A1 A2 A3] [B1 B2 B3]. constructor; [by rewrite B1|congruence|by etrans].
Qed.

(** A step that keeps the agreement, as long as there are not too many
    accounts after it. *)
Definition goes s s' : Prop :=
  (brk (users s) <= brk (users s'))%nat /\
  (Z.of_nat (brk (users s')) <= MAX_ACCOUNTS -> sinv s -> sinv s').

Lemma goes_trans a b c : goes a b -> goes b c -> goes a c.
Proof. intros [A1 A2] [B1 B2]. split; [lia|]. intros Hm Ha. apply B2; [done|]. apply A2; [lia|done]. Qed.

Lemma keeps_sinv s s' : keeps s s' -> sinv s -> sinv s'.
Proof.
  intros [Hc Hs [_ Hw Hl]] [A B C E F].
  assert (forall p k, online s' p k <-> online s p k) as Ho by (intros; unfold online; by rewrite Hs).
  constructor.
  - destruct A as [Hnd Hin]. split; [by rewrite Hc|]. intros p. rewrite Hc, Hin, !live_sessions. by rewrite Hs.
  - by apply Hw.
  - intros p x. rewrite Hs. apply C.
  - intros p q k. rewrite !Ho. apply E.
  - intros name. rewrite Hl, F by done. by setoid_rewrite Ho.
Qed.

Lemma keeps_goes s s' : keeps s s' -> goes s s'.
Proof.
  intros H. split; [by rewrite (tk_brk _ _ (kp_users _ _ H))|]. intros _. by apply keeps_sinv.
Qed.

(** *** A result that keeps, if there is one *)

Definition kept s (r : option (server D DB)) : Prop := forall s', r = Some s' -> keeps s s'.

Lemma kept_ret s s1 : keeps s s1 -> kept s (Some s1).
Proof. by intros H s' [= <-]. Qed.

Lemma kept_then s r (k : server D DB -> option (server D DB)) :
  kept s r -> (forall s1, keeps s s1 -> kept s (k s1)) -> kept s (obind r k).
Proof. intros Hr Hk s' (s1 & E1 & E2)%obind_Some. exact (Hk s1 (Hr s1 E1) s' E2). Qed.

Lemma kept_bind {A} s (r : option A) (k : A -> option (server D DB)) :
  (forall a, r = Some a -> kept s (k a)) -> kept s (obind r k).
Proof. intros Hk s' (a & E1 & E2)%obind_Some. exact (Hk a E1 s' E2). Qed.

Lemma kept_upd s s1 p f : keeps s s1 -> (forall c, session_of (f c) = session_of c) -> kept s (upd s1 p f).
Proof.
  intros H Hf s'. unfold upd. destruct (objects s1 !! p) as [c|] eqn:Hc; [|done]. cbn [obind]. intros [= <-].
  etrans; [done|]. constructor; [done| |done]. by apply (sessions_insert s1 p c).
Qed.

Lemma kept_reply s s1 p text : keeps s s1 -> kept s (reply_to ae s1 p text).
Proof. intros H. by apply kept_upd. Qed.

Lemma kept_lines ls s p : forall s1, keeps s s1 -> kept s (reply_lines ae s1 p ls).
Proof.
  induction ls as [|l ls IH]; intros s1 H; cbn [reply_lines]; [by apply kept_ret|].
  apply kept_then; [by apply kept_reply|]. apply IH.
Qed.

Lemma kept_send s s1 tag from to msg ty : keeps s s1 -> kept s (_chatSend ae s1 tag from to msg ty).
Proof.
  unfold _chatSend. generalize (clients s1) as ps. intros ps. revert s1.
  induction ps as [|p ps IH]; intros s1 H; cbn [send_loop_clients]; [by apply kept_ret|].
  apply kept_bind. intros c _. destruct (addressed c to ty); [|by apply IH].
  apply kept_bind. intros text _. apply kept_then; [by apply kept_reply|]. apply IH.
Qed.

Lemma keeps_set_users s s1 u : keeps s s1 -> tbl_keeps (users s1) u -> keeps s (set_users s1 u).
Proof. intros H Hu. etrans; [done|]. by constructor. Qed.

Lemma keeps_command s s1 cmd : keeps s s1 -> keeps s (mysqlRunCommand db_exec s1 cmd).
Proof. intros H. etrans; [done|]. by constructor. Qed.

Lemma kept_users s p s1 : keeps s s1 -> kept s (chatUserInfoReply ae s1 p).
Proof. intros H. apply kept_bind. intros ls _. by apply kept_lines. Qed.

(** A refusal of a client that is not logged in. *)
Lemma kept_refuse s s1 p x msg :
  keeps s s1 -> sessions s !! p = Some x -> s_user x = 0 -> s_node x = 0 -> kept s (refuse ae s1 p msg).
Proof.
  intros H Hx Hu Hn. apply kept_then; [by apply kept_reply|]. intros s2 H2 s' E.
  destruct (upd_session s2 p x (fun c => set_valid c 0 0)
    (fun x => Session 0 0 (s_type x) (s_id x) (s_name x) (s_nodename x))) as (s3 & E3 & Hc & Hus & Hs);
    [by rewrite (kp_sessions _ _ H2)|done|].
  rewrite E in E3. injection E3 as <-. etrans; [done|]. constructor; [by rewrite Hc| |by rewrite Hus].
  rewrite Hs. apply insert_id. rewrite (kp_sessions _ _ H2), Hx. destruct x. cbn in *. congruence.
Qed.

Ltac kept :=
  repeat first
  [ by apply kept_ret
  | apply kept_then; [solve [by apply kept_reply | by apply kept_lines | by apply kept_send | by apply kept_upd]
                     |intros ? ?]
  | solve [by apply kept_reply | by apply kept_lines | by apply kept_send | by apply kept_users | by apply kept_upd]
  | match goal with
    | |- kept _ (if ?b then _ else _) => destruct b
    | |- kept _ (match ?x with _ => _ end) => destruct x
    | |- kept _ (obind _ _) => apply kept_bind; intros ? ?
    end ].

Lemma chatSay_keeps s p argv : kept s (chatSay ae s p argv).
Proof. unfold chatSay. kept. Qed.

Lemma nodeSay_keeps s p argv : kept s (nodeSay ae s p argv).
Proof. unfold nodeSay. kept. Qed.

Lemma touch_keeps s p : kept s (touch s p).
Proof. unfold touch. kept. Qed.

Lemma dump_loop_keeps n s p : forall s1, keeps s s1 -> kept s (dump_loop ae n s1 p).
Proof.
  induction n as [|n IH]; intros s1 H; cbn [dump_loop]; [by apply kept_ret|].
  assert (keeps s (set_clients s1 (rotate (clients s1)))) as H1
    by (etrans; [done|]; constructor; [apply rotate_perm|done|done]).
  do 3 (apply kept_bind; intros ? _). apply kept_then; [by apply kept_reply|]. apply IH.
Qed.

Lemma dump_users_keeps ps s p : forall s1, keeps s s1 -> kept s (dump_users ae ps s1 p).
Proof.
  induction ps as [|q ps IH]; intros s1 H; cbn [dump_users]; [by apply kept_ret|].
  do 2 (apply kept_bind; intros ? _). apply kept_then; [by apply kept_reply|]. intros s2 H2.
  destruct (_ <? _); [done|]. apply kept_bind. intros ls _. apply kept_then; [by apply kept_lines|]. apply IH.
Qed.

Lemma iter_keeps (st : usertable D) d ps :
  ud_iter (myuserdict st) = Some (d, ps) -> tbl_keeps st (set_dict st d).
Proof.
  intros E. apply tbl_eq_keeps; [|done]. intros Hw.
  destruct (ud_iter_spec (myuserdict st) (wf_dict _ Hw)) as (vs & E' & _). rewrite E in E'. injection E' as -> ->.
  assert (set_dict st (myuserdict st) = st) as -> by (by destruct st). done.
Qed.

Lemma myDebugEntry_keeps s p : kept s (myDebugEntry ae s p).
Proof.
  unfold myDebugEntry, dumpClients, dumpAlluser. apply kept_bind. intros c _. destruct (negb _); [by apply kept_ret|].
  apply kept_then.
  - apply kept_bind. intros buf _. apply kept_then; [by apply kept_reply|]. intros s1 H1. by apply dump_loop_keeps.
  - intros s1 H1. apply kept_bind. intros [d ps] E. apply dump_users_keeps.
    apply keeps_set_users; [done|]. by eapply iter_keeps.
Qed.

(** *** Commands that change sessions or accounts *)

Definition went s (r : option (server D DB)) : Prop := forall s', r = Some s' -> goes s s'.

Lemma kept_went s r : kept s r -> went s r.
Proof. intros H s' E. by apply keeps_goes, H. Qed.

Lemma went_after s s1 r : goes s s1 -> went s1 r -> went s r.
Proof. intros H Hr s' E. by eapply goes_trans; [|apply Hr]. Qed.

Lemma went_bind {A} s (r : option A) (k : A -> option (server D DB)) :
  (forall a, r = Some a -> went s (k a)) -> went s (obind r k).
Proof. intros Hk s' (a & E1 & E2)%obind_Some. exact (Hk a E1 s' E2). Qed.

Lemma insert_goes s uid name u : insertUserInfo (users s) uid name = Some u -> goes s (set_users s u).
Proof.
  intros [Hb Hi]%insertUser_partial. split; [done|]. intros Hm Hs.
  destruct (Hi Hm (sinv_users _ Hs)) as [Hw Hg]. by apply add_user_sinv.
Qed.

Lemma myAddUser_goes s p argv : went s (myAddUser s p argv).
Proof.
  unfold myAddUser. apply went_bind. intros c _. destruct (negb _); [by apply kept_went, kept_ret|].
  do 2 (apply went_bind; intros ? _). apply went_bind. intros u Hu s' [= <-]. by eapply insert_goes.
Qed.

Lemma object_session s p c : objects s !! p = Some c -> sessions s !! p = Some (session_of c).
Proof. intros Hc. unfold sessions. by rewrite lookup_fmap, Hc. Qed.

(** The successful part of a login. *)
Lemma user_session_goes s0 s p x name pwd s2 u3 r3 s4 un pw s5 u6 uid s' :
  keeps s0 s -> sessions s !! p = Some x -> s_user x = 0 ->
  (ut_wf (users s0) -> line (users s) name <> Some s_on) ->
  upd s p (fun c => set_type (set_valid c 1 1) MYNODE_TYPE_USER) = Some s2 ->
  chatSetOrGetUserInfo (users s2) name s_on OPERATION_SET_INFO = Some (u3, r3) ->
  _chatSend ae (set_users s2 u3) (bytes_of_string "userinfo") name s_all s_on MYNODE_TYPE_USER = Some s4 ->
  sprintf MY_NAME_LENGTH name = Some un -> sprintf MY_NAME_LENGTH pwd = Some pw ->
  upd s4 p (fun c => set_names c (userid c) un (nodename c) pw) = Some s5 ->
  getUseridByName (users s5) un = Some (u6, Some uid) ->
  keeps (set_users s5 u6) s' -> goes s0 s'.
Proof.
  intros H0 Hx Hu Hoff E2 E3 E4 [-> Hlen]%sprintf_fits _ E5 E6 Hk.
  destruct (upd_session s p x (fun c => set_type (set_valid c 1 1) MYNODE_TYPE_USER)
    (fun x => Session 1 1 MYNODE_TYPE_USER (s_id x) (s_name x) (s_nodename x)) Hx)
    as (s2' & E2' & Hc2 & Hu2 & Hs2); [done|]. rewrite E2 in E2'. injection E2' as <-.
  pose proof (kept_send _ _ _ _ _ _ _ (keeps_refl (set_users s2 u3)) s4 E4) as [Hc4 Hs4 Hk4]. cbn in Hc4, Hk4.
  change (sessions (set_users s2 u3)) with (sessions s2) in Hs4.
  destruct (upd_session s4 p (Session 1 1 MYNODE_TYPE_USER (s_id x) (s_name x) (s_nodename x))
    (fun c => set_names c (userid c) name (nodename c) pw)
    (fun x => Session (s_user x) (s_node x) (s_type x) (s_id x) name (s_nodename x)))
    as (s5' & E5' & Hc5 & Hu5 & Hs5); [by rewrite Hs4, Hs2, lookup_insert_eq|done|].
  rewrite E5 in E5'. injection E5' as <-.
  rewrite Hs4, Hs2, insert_insert_eq in Hs5. cbn in Hs5.
  assert (keeps s5 (set_users s5 u6)) as Hk6 by (apply keeps_set_users; [done|by eapply getUserid_keeps]).
  eapply (goes_trans _ s5); [|apply keeps_goes; by etrans]. split.
  { by rewrite Hu5, (tk_brk _ _ Hk4), (setUser_brk _ _ _ _ _ E3), Hu2, (tk_brk _ _ (kp_users _ _ H0)). }
  intros _ Hs0. specialize (Hoff (sinv_users _ Hs0)). pose proof (keeps_sinv _ _ H0 Hs0) as Hs. pose proof (sinv_users _ Hs) as Hw.
  destruct (setUser_ok (users s2) name s_on) as (u3' & E3' & [Hw3 _] & _ & Hne & Heq);
    [by rewrite Hu2|by left|]. rewrite E3 in E3'. injection E3' as <- _. rewrite Hu2 in Hne, Heq.
  assert (ut_wf (users s5)) as Hw5 by (rewrite Hu5; by apply Hk4).
  assert (forall n, line (users s5) n = line u3 n) as Hl5 by (intros n; rewrite Hu5; by apply Hk4).
  destruct (getUserid_found _ _ _ _ Hw5 E6) as [l Hl]. rewrite Hl5, (Heq name eq_refl) in Hl.
  destruct (line (users s) name) as [l0|] eqn:El; [|done].
  set (y := Session 1 1 MYNODE_TYPE_USER (s_id x) name (s_nodename x)).
  apply (login_sinv s s5 p x y); try done.
  - unfold session_key. by rewrite Hu.
  - destruct (sinv_sessions _ Hs p x Hx). constructor; [right; cbn; auto|done|done].
  - cbn [y s_name]. by rewrite El.
  - by rewrite Hc5, Hc4, Hc2.
  - intros other Ho. rewrite Hl5. by apply Hne.
  - intros other Ho. rewrite Hl5. by apply Heq.
Qed.

Lemma chatLogin_goes s p argv : went s (chatLogin ae db_query s p argv).
Proof.
  unfold chatLogin. apply went_bind. intros c Hc. pose proof (object_session s p c Hc) as Hx.
  destruct (negb _ || negb _) eqn:Ev; [by apply kept_went, kept_reply|].
  apply orb_false_iff in Ev as [Eu%negb_false_iff%Z.eqb_eq En%negb_false_iff%Z.eqb_eq].
  do 3 (apply went_bind; intros ? _). rename a into name, a0 into pwd.
  destruct (_ <=? 0); [by eapply kept_went, kept_refuse|].
  apply went_bind. intros [u1 state] E1. pose proof (getUser_keeps _ _ _ _ _ E1) as K1.
  assert (keeps s (set_users s u1)) as H1 by by apply keeps_set_users.
  destruct (streq state s_on) eqn:Eon; [by eapply kept_went, kept_refuse|].
  set (s1 := set_users s u1) in *.
  apply went_bind. intros s2 E2. apply went_bind. intros [u3 r3] E3. apply went_bind. intros s4 E4.
  apply went_bind. intros un E5. apply went_bind. intros pw E6. apply went_bind. intros s5 E7.
  apply went_bind. intros [u6 [uid|]] E8; [|done]. intros s' E9. cbn [obind] in E9.
  eapply (user_session_goes s s1 p (session_of c) name pwd); try done; [|clear -E9; revert s' E9].
  - intros Hw. cbn [s1 users set_users]. rewrite (tk_line _ _ K1 Hw).
    destruct (getUser_ok (users s) name Hw) as (u1' & E1' & _). rewrite E1 in E1'. injection E1' as _ ->.
    intros E. rewrite E in Eon. done.
  - set (s6 := set_users s5 u6). fold (kept s6). cbv zeta.
    apply kept_bind. intros buf _. apply kept_then; [by apply kept_reply|]. intros s7 H7.
    apply kept_bind. intros [u8 ls] E8%allNodes_keeps.
    apply kept_then; [apply kept_lines; by apply keeps_set_users|]. intros s9 H9. by apply kept_users.
Qed.

(** A client becomes a node. *)
Lemma node_session_goes s0 s p x name uid node ui un nn s1 s2 u r :
  keeps s0 s -> sessions s !! p = Some x -> s_user x = 0 ->
  sprintf MY_NAME_LENGTH name = Some un -> sprintf MY_NAME_LENGTH uid = Some ui ->
  sprintf MY_NAME_LENGTH node = Some nn ->
  upd s p (fun c => set_names (set_type (set_valid c 1 1) MYNODE_TYPE_NODE) ui un nn (password c)) = Some s1 ->
  _chatSend ae s1 (bytes_of_string "nodeinfo") nn un s_on MYNODE_TYPE_USER = Some s2 ->
  chatSetOrGetNodeInfo (users s2) un nn s_on OPERATION_SET_INFO = Some (u, r) ->
  goes s0 (set_users s2 u).
Proof.
  intros H0 Hx Hu [-> Hlen]%sprintf_fits _ [-> Hlen']%sprintf_fits E1 E2 E3%setNode_keeps; [|by left].
  destruct (upd_session s p x
    (fun c => set_names (set_type (set_valid c 1 1) MYNODE_TYPE_NODE) ui name node (password c))
    (fun _ => Session 1 1 MYNODE_TYPE_NODE ui name node) Hx)
    as (s1' & E1' & Hc1 & Hu1 & Hs1); [done|]. rewrite E1 in E1'. injection E1' as <-.
  eapply (goes_trans _ s1); [|apply keeps_goes, keeps_set_users; [|exact E3]; by eapply kept_send; [done|]].
  split; [by rewrite Hu1, (tk_brk _ _ (kp_users _ _ H0))|]. intros _ Hs0.
  pose proof (keeps_sinv _ _ H0 Hs0) as Hs.
  apply (insert_session_sinv s s1 p x (Session 1 1 MYNODE_TYPE_NODE ui name node)); try done.
  - unfold session_key. by rewrite Hu.
  - constructor; [right; cbn; auto|done|done].
  - by rewrite Hc1.
  - rewrite Hu1. apply Hs.
  - by rewrite Hu1.
Qed.

Lemma nodeLogin_goes s p argv : went s (nodeLogin ae db_exec s p argv).
Proof.
  unfold nodeLogin. apply went_bind. intros c Hc. pose proof (object_session s p c Hc) as Hx.
  destruct (negb _ || negb _) eqn:Ev; [by apply kept_went, kept_reply|].
  apply orb_false_iff in Ev as [Eu%negb_false_iff%Z.eqb_eq En%negb_false_iff%Z.eqb_eq].
  apply went_bind. intros uid _. apply went_bind. intros node _. apply went_bind. intros [name|] _;
    [|by eapply kept_went, kept_refuse].
  apply went_bind. intros [u1 r1] E1%nodeSize_keeps.
  assert (keeps s (set_users s u1)) as H1 by by apply keeps_set_users. set (s1 := set_users s u1) in *.
  apply went_bind. intros [u2 state] E2%getNode_keeps.
  assert (keeps s (set_users s1 u2)) as H2 by by apply keeps_set_users. set (s2 := set_users s1 u2) in *.
  destruct (streq state s_on); [by eapply kept_went, kept_refuse|].
  apply went_bind. intros [u3 ret] E3%insertNode_keeps.
  assert (keeps s (set_users s2 u3)) as H3 by by apply keeps_set_users. set (s3 := set_users s2 u3) in *.
  destruct (ret =? -1); [by eapply kept_went, kept_refuse|].
  apply went_bind. intros s4 E4.
  assert (keeps s s4) as H4.
  { revert E4. destruct (ret =? 1); [|by intros [= <-]]. intros (cmd & _ & [= <-])%obind_Some. by apply keeps_command. }
  apply went_bind. intros buf _. apply went_bind. intros s5 E5.
  pose proof (kept_reply _ _ _ _ H4 _ E5) as H5.
  apply went_bind. intros un E6. apply went_bind. intros ui E7. apply went_bind. intros nn E8.
  apply went_bind. intros s6 E9. apply went_bind. intros s7 E10. apply went_bind. intros [u8 r8] E11 s' [= <-].
  apply (node_session_goes s s5 p (session_of c) name uid node ui un nn s6 s7 u8 r8); try done.
  by rewrite (kp_sessions _ _ H5).
Qed.

(** *** The command procedures *)

Lemma chatCommand_goes s p argv : went s (chatCommand ae db_query s p argv).
Proof.
  unfold chatCommand. apply went_bind. intros sub _.
  destruct (streq sub (bytes_of_string "login")); [apply chatLogin_goes|].
  apply went_bind. intros c _. destruct (_ =? 0); [by apply kept_went, kept_reply|].
  destruct (streq sub (bytes_of_string "say")); [apply kept_went, chatSay_keeps|].
  destruct (streq sub (bytes_of_string "userinfo")); [by apply kept_went, kept_users|].
  destruct (streq sub (bytes_of_string "heartbeat")); [apply kept_went, touch_keeps|].
  destruct (streq sub (bytes_of_string "debug")); [apply kept_went, myDebugEntry_keeps|].
  destruct (streq sub (bytes_of_string "adduser")); [apply myAddUser_goes|by apply kept_went, kept_ret].
Qed.

Lemma nodeCommand_goes s p argv : went s (nodeCommand ae db_exec s p argv).
Proof.
  unfold nodeCommand. apply went_bind. intros sub _.
  destruct (streq sub (bytes_of_string "login")); [apply nodeLogin_goes|].
  apply went_bind. intros c _. destruct (_ =? 0); [by apply kept_went, kept_reply|].
  destruct (streq sub (bytes_of_string "say")); [apply kept_went, nodeSay_keeps|].
  destruct (streq sub (bytes_of_string "heartbeat")); [apply kept_went, touch_keeps|by apply kept_went, kept_ret].
Qed.

Lemma register_adduser_goes s p f argv : went s (register_adduser ae db_query db_exec s p f argv).
Proof.
  unfold register_adduser. do 6 (apply went_bind; intros ? _).
  destruct (_ =? 0); [by apply kept_went, kept_reply|]. do 2 (apply went_bind; intros ? _).
  destruct (negb _); [by apply kept_went, kept_reply|]. apply went_bind. intros cmd _.
  apply went_bind. intros s1 E1. apply kept_reply with (s := s) in E1; [|by apply keeps_command].
  apply (went_after s s1); [by apply keeps_goes|].
  apply went_bind. intros u Hu s' [= <-]. by eapply insert_goes.
Qed.

Lemma register_getuserid_goes x s p f argv x' s' :
  register_getuserid ae db_query db_exec x s p f argv = Some (x', s') -> goes s s'.
Proof.
  unfold register_getuserid. intros (email & _ & E)%obind_Some.
  assert (forall r, went s r -> (let? s := r in Some (x, s)) = Some (x', s') -> goes s s') as Hr.
  { intros r Hw (s1 & E1 & [= _ <-])%obind_Some. by apply Hw. }
  destruct (strchr 64 email); [|by eapply Hr; [|exact E]; apply kept_went, kept_reply].
  apply obind_Some in E as (cmd & _ & E). apply obind_Some in E as (e & _ & E).
  destruct (negb _); [by eapply Hr; [|exact E]; apply kept_went, kept_reply|].
  destruct (Rand.redisLrand48 x) as [x1 r1]. do 4 apply obind_Some in E as (? & _ & E).
  apply obind_Some in E as (s1 & E1 & E). do 3 apply obind_Some in E as (? & _ & E). injection E as _ <-.
  apply keeps_goes, keeps_command. by eapply kept_reply; [|exact E1].
Qed.

Lemma registerCommand_goes x s p f argv x' s' :
  registerCommand ae db_query db_exec x s p f argv = Some (x', s') -> goes s s'.
Proof.
  unfold registerCommand. intros (sub & _ & E)%obind_Some.
  destruct (streq sub (bytes_of_string "getuserid")); [by eapply register_getuserid_goes|].
  destruct (streq sub (bytes_of_string "adduser")); [|injection E as _ <-; by apply keeps_goes].
  apply obind_Some in E as (s1 & E1 & [= _ <-]). by eapply register_adduser_goes.
Qed.

Lemma freeClient_brk s p s' : freeClient ae s p = Some s' -> brk (users s') = brk (users s).
Proof.
  unfold freeClient. intros (s1 & E1 & E)%obind_Some. apply obind_Some in E as (s2 & E2 & E).
  apply obind_Some in E as (rest & _ & [= <-]). cbn [users].
  assert (users s2 = users s1) as -> by (unfold upd in E2; destruct (objects s1 !! p); [by injection E2 as <-|done]).
  clear E2. revert E1. unfold chatNotifyUserInfo. intros (c & _ & E1)%obind_Some.
  destruct (_ || _); [by injection E1 as <-|].
  destruct (mynode_type c =? _); [|destruct (mynode_type c =? _); [|by injection E1 as <-]];
    apply obind_Some in E1 as (s3 & E3 & E1); apply obind_Some in E1 as ([u r] & E4 & [= <-]);
    rewrite <- (tk_brk _ _ (kp_users _ _ (kept_send _ _ _ _ _ _ _ (keeps_refl s) s3 E3))).
  - by apply setUser_brk in E4.
  - apply setNode_keeps in E4; [apply E4|by right].
Qed.

(** *** Loading accounts *)

Lemma load_nodes_keeps rows name : forall (u u' : usertable D),
  load_nodes rows u name = Some u' -> tbl_keeps u u'.
Proof.
  induction rows as [|row rows IH]; intros u u'; cbn [load_nodes]; [by intros [= <-]|]. intros E.
  apply obind_Some in E as (nid & _ & E). apply obind_Some in E as (buf & _ & E).
  apply obind_Some in E as ([u1 r] & E1%insertNode_keeps & E). etrans; [exact E1|by apply IH].
Qed.

Lemma load_users_goes rows d : forall s u,
  load_users db_query rows d (users s) = Some u -> goes s (set_users s u).
Proof.
  induction rows as [|row rows IH]; intros s u; cbn [load_users].
  { intros [= <-]. apply keeps_goes. by apply keeps_set_users. }
  intros E. apply obind_Some in E as (uid & _ & E). apply obind_Some in E as (name & _ & E).
  apply obind_Some in E as (u1 & E1 & E). apply obind_Some in E as (u2 & E2 & E).
  apply (goes_trans _ (set_users s u1)); [by eapply insert_goes|].
  apply (goes_trans _ (set_users s u2)); [|by apply (IH (set_users s u2))].
  apply keeps_goes, (keeps_set_users _ (set_users s u1)); [done|]. cbn [users set_users].
  unfold insert_all_node in E2. apply obind_Some in E2 as (q & _ & E2).
  destruct (db_query d q) as [rs|]; [by eapply load_nodes_keeps|by injection E2 as <-].
Qed.

End Server.

End SessionProofs.
