(* ===== verification/Ihex.v ===== *)
(** * ihex.c, validate.c: the Intel HEX loader of the boot loader

    Packets of HEX text go into a ring buffer; complete lines are decoded
    into a page FIFO, and full pages are written to the program flash. *)

From S2P Require Import Prelude.

Module Ihex.

Definition SPM_PAGESIZE : Z := 128.
Definition TFTP_MAX_PAYLOAD : Z := 512.
Definition RING_BUFFER_LEN : Z := TFTP_MAX_PAYLOAD + 80.
Definition PAGE_FIFO_LEN : Z := SPM_PAGESIZE * 2.

(** Where the boot loader's own section starts; nothing in the code looks at
    it. *)
Definition MAX_ADDR : Z := 0x7000.

Definition HEX_FILE_END : Z := 1.
Definition HEX_ERR_NONE : Z := 0.
Definition HEX_ERR_FORMAT : Z := -1.
Definition HEX_ERR_CHECK : Z := -2.
Definition HEX_ERR_LINE : Z := -3.
Definition HEX_ERR_EMPTY : Z := -4.
Definition HEX_LINE_MAX_LEN : Z := 80.
Definition HEX_READ_LINE_ERR : Z := 255.

(** ** The program flash

    Self-programming works on pages: erasing sets a page to ones, filling
    loads a word into the page buffer, and writing clears, in the flash, the
    bits that are clear in the buffer, which is thereby reset.  Addresses are
    the 16 bits of [g_writeAddr]; those of the application part are below
    [MAX_ADDR]. *)

Record flash := Flash { cells : gmap Z Z; page_buffer : list Z }.

Definition read_cell (f : flash) (a : Z) : Z := default 255 (cells f !! a).

Definition page_base (a : Z) : Z := a - a mod SPM_PAGESIZE.

(** Set the cells from [base] on, one per byte. *)
Fixpoint program (m : gmap Z Z) (base : Z) (bs : list Z) : gmap Z Z :=
  match bs with
  | [] => m
  | b :: bs => program (<[base := b]> m) (base + 1) bs
  end.

Definition boot_page_erase (f : flash) (a : Z) : flash :=
  Flash (program (cells f) (page_base a) (replicate 128 255)) (page_buffer f).

Definition boot_page_fill (f : flash) (a wv : Z) : option flash :=
  let? b := zset (page_buffer f) (a mod SPM_PAGESIZE) (wv &. 255) in
  let? b := zset b (a mod SPM_PAGESIZE + 1) (wv ≫ 8) in
  Some (Flash (cells f) b).

Fixpoint page_and (f : flash) (base : Z) (bs : list Z) : list Z :=
  match bs with
  | [] => []
  | b :: bs => Z.land (read_cell f base) b :: page_and f (base + 1) bs
  end.

Definition boot_page_write (f : flash) (a : Z) : flash :=
  Flash (program (cells f) (page_base a) (page_and f (page_base a) (page_buffer f)))
        (replicate 128 255).

(** ** The loader's globals *)

Record loader := Loader {
  g_ring_buffer : list Z;
  g_buffer_head : Z;
  g_buffer_trail : Z;
  g_read_trail : Z;
  g_page_fifo : list Z;
  g_fifo_head : Z;
  g_fifo_trail : Z;
  g_writeAddr : Z;
  g_flash : flash
}.

Definition set_ring (s : loader) (r : list Z) (h : Z) : loader :=
  Loader r h (g_buffer_trail s) (g_read_trail s) (g_page_fifo s) (g_fifo_head s)
    (g_fifo_trail s) (g_writeAddr s) (g_flash s).
Definition set_trail (s : loader) (t : Z) : loader :=
  Loader (g_ring_buffer s) (g_buffer_head s) t (g_read_trail s) (g_page_fifo s)
    (g_fifo_head s) (g_fifo_trail s) (g_writeAddr s) (g_flash s).
Definition set_read (s : loader) (t : Z) : loader :=
  Loader (g_ring_buffer s) (g_buffer_head s) (g_buffer_trail s) t (g_page_fifo s)
    (g_fifo_head s) (g_fifo_trail s) (g_writeAddr s) (g_flash s).
Definition set_fifo (s : loader) (f : list Z) (h t : Z) : loader :=
  Loader (g_ring_buffer s) (g_buffer_head s) (g_buffer_trail s) (g_read_trail s) f h t
    (g_writeAddr s) (g_flash s).
Definition set_write (s : loader) (a : Z) (f : flash) : loader :=
  Loader (g_ring_buffer s) (g_buffer_head s) (g_buffer_trail s) (g_read_trail s)
    (g_page_fifo s) (g_fifo_head s) (g_fifo_trail s) a f.

(** The buffers keep what they held; only the indices are reset. *)
Definition ihex_init (s : loader) : loader :=
  Loader (g_ring_buffer s) 0 0 (g_read_trail s) (g_page_fifo s) 0 0 0 (g_flash s).

Fixpoint ihex_push_back (s : loader) (new_data : list Z) : option loader :=
  match new_data with
  | [] => Some s
  | c :: new_data =>
      let? r := zset (g_ring_buffer s) (g_buffer_head s) c in
      let h := u16 (g_buffer_head s + 1) in
      let h := if RING_BUFFER_LEN <=? h then 0 else h in
      ihex_push_back (set_ring s r h) new_data
  end.

(** ** Hexadecimal *)

Definition xtod (x : Z) : Z :=
  if (48 <=? x) && (x <=? 57) then x - 48
  else if (65 <=? x) && (x <=? 70) then x - 65 + 10
  else if (97 <=? x) && (x <=? 102) then x - 97 + 10
  else -1.

Definition _ascii2bin (h l : Z) : Z := u8 ((u8 (xtod h) ≪ 4) |. u8 (xtod l)).

(** ** Lines *)

(** [None] in the second component is [HEX_READ_LINE_ERR]. *)
Fixpoint get_line_loop (fuel : nat) (s : loader) (line : list Z)
  : option (loader * option (list Z)) :=
  if g_read_trail s =? g_buffer_head s then Some (s, Some line)
  else
    match fuel with
    | O => None
    | S fuel =>
        let? c := zget (g_ring_buffer s) (g_read_trail s) in
        let t := u16 (g_read_trail s + 1) in
        let t := if RING_BUFFER_LEN <=? t then 0 else t in
        let s := set_read s t in
        if (48 <=? c) && (c <=? 102) then
          let line := line ++ [c] in
          if HEX_LINE_MAX_LEN <=? zlen line then Some (s, None)
          else get_line_loop fuel s line
        else if c =? 10 then
          if 0 <? zlen line then Some (s, Some line) else get_line_loop fuel s line
        else if c =? 13 then get_line_loop fuel s line
        else Some (s, None)
    end.

(** Every round moves [g_read_trail] on, so a full turn of the ring is
    enough. *)
Definition ihex_get_line (s : loader) : option (loader * option (list Z)) :=
  get_line_loop (Z.to_nat RING_BUFFER_LEN) s [].

Definition ihex_line_take (s : loader) : loader := set_trail s (g_read_trail s).

(** ** Pages *)

(** A character of [line_buffer]; positions past the line hold whatever the
    stack held, which no decision depends on. *)
Definition lb (line : list Z) (i : Z) : Z := default 0 (zget line i).

(** The loop over the data bytes of a record: [n] bytes from position [j]. *)
Fixpoint data_loop (n : nat) (line : list Z) (j : Z) (s : loader) (checksum : Z)
  : option (loader * Z * Z) :=
  match n with
  | O => Some (s, j, checksum)
  | S n =>
      let d := _ascii2bin (lb line j) (lb line (j + 1)) in
      let? f := zset (g_page_fifo s) (g_fifo_head s) d in
      let h := u8 (g_fifo_head s + 1) mod PAGE_FIFO_LEN in
      data_loop n line (u8 (j + 2)) (set_fifo s f h (g_fifo_trail s)) (u8 (checksum + d))
  end.

(** The loop of [ihex_get_page]: the state, the length of the last line
    read, [page_len] and the error code. *)
Fixpoint page_loop (fuel : nat) (s : loader) (page_len err : Z)
  : option (loader * Z * Z * Z) :=
  match fuel with
  | O => None
  | S fuel =>
      let? (s, l) := ihex_get_line s in
      match l with
      | None => Some (s, HEX_READ_LINE_ERR, page_len, HEX_ERR_FORMAT)
      | Some line =>
          let line_len := zlen line in
          if line_len =? 0 then Some (s, 0, page_len, err)
          else if negb (lb line 0 =? 58) then Some (s, line_len, page_len, HEX_ERR_FORMAT)
          else
            let len := _ascii2bin (lb line 1) (lb line 2) in
            if (line_len <? 11) || negb (len * 2 + 11 =? line_len)
            then Some (s, line_len, page_len, HEX_ERR_LINE)
            else
              let s := ihex_line_take s in
              let type := _ascii2bin (lb line 7) (lb line 8) in
              if type =? 0 then
                let addr_H := _ascii2bin (lb line 3) (lb line 4) in
                let addr_L := _ascii2bin (lb line 5) (lb line 6) in
                let checksum := u8 (len + addr_H + addr_L) in
                let? (s, j, checksum) := data_loop (Z.to_nat len) line 9 s checksum in
                let checksum := u8 (checksum + _ascii2bin (lb line j) (lb line (j + 1))) in
                if negb (checksum =? 0) then Some (s, line_len, page_len, HEX_ERR_CHECK)
                else
                  let page_len := u8 (g_fifo_head s - g_fifo_trail s) in
                  if SPM_PAGESIZE <=? page_len then Some (s, line_len, page_len, HEX_ERR_NONE)
                  else page_loop fuel s page_len HEX_ERR_NONE
              else if type =? 1 then Some (s, line_len, page_len, HEX_FILE_END)
              else page_loop fuel s page_len HEX_ERR_NONE
      end
  end.

(** Take [n] bytes out of the FIFO. *)
Fixpoint fifo_take (n : nat) (s : loader) : option (loader * list Z) :=
  match n with
  | O => Some (s, [])
  | S n =>
      let? b := zget (g_page_fifo s) (g_fifo_trail s) in
      let t := u8 (g_fifo_trail s + 1) mod PAGE_FIFO_LEN in
      let? (s, bs) := fifo_take n (set_fifo s (g_page_fifo s) (g_fifo_head s) t) in
      Some (s, b :: bs)
  end.

(** The bytes of the page (of which there are [page_len]) and the code.
    Every line taken moves the ring on, so its length bounds the rounds. *)
Definition ihex_get_page (s : loader) : option (loader * list Z * Z) :=
  let s := set_read s (g_buffer_trail s) in
  let? (s, line_len, page_len, err) := page_loop (Z.to_nat RING_BUFFER_LEN) s 0 HEX_ERR_EMPTY in
  let err := if (line_len =? 0) && (0 <? page_len) then HEX_ERR_LINE else err in
  if HEX_ERR_NONE <=? err then
    let page_len := if SPM_PAGESIZE <? page_len then SPM_PAGESIZE else page_len in
    let? (s, page) := fifo_take (Z.to_nat page_len) s in
    Some (s, page, err)
  else Some (s, [], err).

(** validate.c: a jump instruction in each of the 13 vectors. *)
Fixpoint valid_loop (n : nat) (i : Z) (base : list Z) : option bool :=
  match n with
  | O => Some true
  | S n =>
      let? a := zget base i in
      if negb (a =? 12) then Some false
      else
        let? b := zget base (i + 1) in
        if negb (b =? 148) then Some false else valid_loop n (i + 4) base
  end.

Definition validImage (base : list Z) : option bool := valid_loop 13 0 base.

(** ** Packets *)

(** The loop that fills the page buffer, a word at a time. *)
Fixpoint fill_loop (n : nat) (f : flash) (addr offset : Z) (package : list Z) : option flash :=
  match n with
  | O => Some f
  | S n =>
      let? lo := zget package offset in
      let? hi := zget package (offset + 1) in
      let? f := boot_page_fill f (u16 (addr + offset)) (u16 (lo |. (hi ≪ 8))) in
      fill_loop n f addr (offset + 2) package
  end.

Definition flash_page (f : flash) (addr : Z) (package : list Z) : option flash :=
  let f := boot_page_erase f addr in
  let? f := fill_loop 64 f addr 0 package in
  Some (boot_page_write f addr).

(** The loop of [ihex_package_process], once the packet is in the ring. *)
Fixpoint process_loop (fuel : nat) (s : loader) : option (loader * Z) :=
  match fuel with
  | O => None
  | S fuel =>
      let? (s, page, err) := ihex_get_page s in
      if 0 <? zlen page then
        let package := page ++ replicate (Z.to_nat (SPM_PAGESIZE - zlen page)) 255 in
        let? ok := if g_writeAddr s =? 0 then validImage package else Some true in
        if negb ok then Some (s, -1)
        else
          let? f := flash_page (g_flash s) (g_writeAddr s) package in
          let s := set_write s (g_writeAddr s) f in
          if err =? HEX_FILE_END then Some (s, 1)
          else process_loop fuel (set_write s (u16 (g_writeAddr s + zlen page)) f)
      else if (err =? HEX_ERR_LINE) || (err =? HEX_ERR_EMPTY) then Some (s, 0)
      else Some (s, -2)
  end.

Definition ihex_package_process (s : loader) (package : list Z) : option (loader * Z) :=
  let? s := ihex_push_back s package in
  process_loop (Z.to_nat RING_BUFFER_LEN) s.

End Ihex.
