(* ===== verification/IhexSpec.v ===== *)
(** * Correctness of the HEX loader

    The ring buffer and the FIFO implement queues, and feeding the text of
    an image, cut into packets in any way, writes exactly the image's pages
    to the flash. *)

From S2P Require Import Prelude Ihex.
Import Ihex.

Module IhexProofs.

(** ** Cyclic buffers *)

(** The queue [q] starts at position [t] of the cyclic buffer. *)
Record cyc (buf : list Z) (n t : Z) (q : list Z) : Prop := {
  cyc_len : zlen buf = n;
  cyc_pos : 0 <= t < n;
  cyc_room : zlen q < n;
  cyc_get : forall i x, q !! i = Some x -> zget buf ((t + Z.of_nat i) mod n) = Some x
}.

Lemma mod_next x n : 0 < n -> (x + 1) mod n = if n <=? x mod n + 1 then 0 else x mod n + 1.
Proof.
  intros Hn. pose proof (Z.mod_pos_bound x n Hn).
  rewrite <- Zplus_mod_idemp_l. destruct (Z.leb_spec n (x mod n + 1)).
  - replace (x mod n + 1) with n by lia. apply Z.mod_same. lia.
  - apply Z.mod_small. lia.
Qed.

(** Positions less than a turn apart are different. *)
Lemma mod_diff t i j n : 0 < n -> 0 <= i < j -> j < n -> (t + i) mod n <> (t + j) mod n.
Proof.
  intros Hn Hij Hj E.
  assert ((t + j - (t + i)) mod n = 0) as Hz
    by (rewrite Zminus_mod, E, Z.sub_diag; apply Z.mod_0_l; lia).
  replace (t + j - (t + i)) with (j - i) in Hz by lia. rewrite Z.mod_small in Hz; lia.
Qed.

Lemma cyc_push buf n t q c :
  cyc buf n t q -> zlen q + 1 < n ->
  exists buf', zset buf ((t + zlen q) mod n) c = Some buf' /\ cyc buf' n t (q ++ [c]).
Proof.
  intros [Hl Hp Hr Hg] Hroom. pose proof (Z.mod_pos_bound (t + zlen q) n ltac:(lia)) as Hm.
  eexists. split; [by apply zset_Some; split; [lia|]|].
  constructor; [by rewrite length_insert|done|rewrite length_app; simpl; lia|].
  intros i x Hi. apply zget_Some. pose proof (Z.mod_pos_bound (t + Z.of_nat i) n ltac:(lia)).
  split; [lia|]. destruct (decide (i < length q)%nat) as [Hlt|Hge].
  - rewrite lookup_app_l in Hi by done. specialize (Hg i x Hi). apply zget_Some in Hg as [_ Hg].
    rewrite list_lookup_insert_ne; [done|].
    pose proof (mod_diff t (Z.of_nat i) (zlen q) n ltac:(lia) ltac:(lia) ltac:(lia)). lia.
  - rewrite lookup_app_r in Hi by lia. apply list_lookup_singleton_Some in Hi as [Hi ->].
    assert (i = length q) as -> by lia. apply list_lookup_insert_eq. lia.
Qed.

Lemma cyc_pop buf n t c q :
  cyc buf n t (c :: q) -> zget buf t = Some c /\ cyc buf n ((t + 1) mod n) q.
Proof.
  intros [Hl Hp Hr Hg]. split.
  - specialize (Hg 0%nat c eq_refl). rewrite Z.add_0_r, Z.mod_small in Hg by lia. done.
  - constructor; [done|apply Z.mod_pos_bound; lia|simpl in Hr; lia|].
    intros i x Hi. rewrite Zplus_mod_idemp_l. specialize (Hg (S i) x Hi).
    by replace (t + 1 + Z.of_nat i) with (t + Z.of_nat (S i)) by lia.
Qed.

Lemma cyc_app buf n t p q :
  cyc buf n t (p ++ q) -> cyc buf n ((t + zlen p) mod n) q.
Proof.
  revert t. induction p as [|c p IH]; intros t H; simpl.
  - rewrite Z.add_0_r, Z.mod_small; [done|apply H].
  - apply cyc_pop in H as [_ H]. apply IH in H. rewrite Zplus_mod_idemp_l in H.
    by replace (t + Z.of_nat (S (length p))) with (t + 1 + zlen p) by lia.
Qed.

(** ** The loader on queues *)

Fixpoint line_of (text line : list Z) : option (list Z) * list Z :=
  match text with
  | [] => (Some line, [])
  | c :: text =>
      if (48 <=? c) && (c <=? 102) then
        if HEX_LINE_MAX_LEN <=? zlen line + 1 then (None, text) else line_of text (line ++ [c])
      else if c =? 10 then
        if 0 <? zlen line then (Some line, text) else line_of text line
      else if c =? 13 then line_of text line
      else (None, text)
  end.

(** The data bytes of a record and its checksum test. *)
Fixpoint bytes_at (n : nat) (line : list Z) (j : Z) : list Z :=
  match n with
  | O => []
  | S n => _ascii2bin (lb line j) (lb line (j + 1)) :: bytes_at n line (j + 2)
  end.

Definition sum8 (c : Z) (bs : list Z) : Z := fold_left (fun c b => u8 (c + b)) bs c.

Inductive record := RFormat | RShort | RData (bs : list Z) (ok : bool) | REnd | ROther.

Definition record_of (line : list Z) : record :=
  if negb (lb line 0 =? 58) then RFormat
  else
    let len := _ascii2bin (lb line 1) (lb line 2) in
    if (zlen line <? 11) || negb (len * 2 + 11 =? zlen line) then RShort
    else
      let type := _ascii2bin (lb line 7) (lb line 8) in
      if type =? 0 then
        let bs := bytes_at (Z.to_nat len) line 9 in
        let c := sum8 (u8 (len + _ascii2bin (lb line 3) (lb line 4) +
                           _ascii2bin (lb line 5) (lb line 6))) bs in
        let j := 9 + 2 * len in
        RData bs (u8 (c + _ascii2bin (lb line j) (lb line (j + 1))) =? 0)
      else if type =? 1 then REnd else ROther.

(** What the page loop leaves: the text and FIFO, whether the last line was
    empty, the page length and the code. *)
Fixpoint page_of (fuel : nat) (text F : list Z) (page_len err : Z)
  : option (list Z * list Z * bool * Z * Z) :=
  match fuel with
  | O => None
  | S fuel =>
      match line_of text [] with
      | (None, _) => Some (text, F, false, page_len, HEX_ERR_FORMAT)
      | (Some [], _) => Some (text, F, true, page_len, err)
      | (Some line, text') =>
          match record_of line with
          | RFormat => Some (text, F, false, page_len, HEX_ERR_FORMAT)
          | RShort => Some (text, F, false, page_len, HEX_ERR_LINE)
          | RData bs ok =>
              if ok then
                if SPM_PAGESIZE <=? zlen (F ++ bs)
                then Some (text', F ++ bs, false, zlen (F ++ bs), HEX_ERR_NONE)
                else page_of fuel text' (F ++ bs) (zlen (F ++ bs)) HEX_ERR_NONE
              else Some (text', F ++ bs, false, page_len, HEX_ERR_CHECK)
          | REnd => Some (text', F, false, page_len, HEX_FILE_END)
          | ROther => page_of fuel text' F page_len HEX_ERR_NONE
          end
      end
  end.

(** ** The ring implements the text queue *)

Record rel (s : loader) (text F : list Z) : Prop := {
  rel_ring : cyc (g_ring_buffer s) RING_BUFFER_LEN (g_buffer_trail s) text;
  rel_head : g_buffer_head s = (g_buffer_trail s + zlen text) mod RING_BUFFER_LEN;
  rel_fifo : cyc (g_page_fifo s) PAGE_FIFO_LEN (g_fifo_trail s) F;
  rel_fhead : g_fifo_head s = (g_fifo_trail s + zlen F) mod PAGE_FIFO_LEN
}.

(** The unread text starts at [g_read_trail]. *)
Definition reading (s : loader) (text : list Z) : Prop :=
  cyc (g_ring_buffer s) RING_BUFFER_LEN (g_read_trail s) text /\
  g_buffer_head s = (g_read_trail s + zlen text) mod RING_BUFFER_LEN.

Lemma ring_next t : 0 <= t < RING_BUFFER_LEN ->
  (if RING_BUFFER_LEN <=? u16 (t + 1) then 0 else u16 (t + 1)) = (t + 1) mod RING_BUFFER_LEN.
Proof.
  intros Ht. unfold RING_BUFFER_LEN, TFTP_MAX_PAYLOAD in *.
  rewrite wrapu_small by cint. rewrite mod_next by done. by rewrite (Z.mod_small t) by done.
Qed.

Lemma push_back_ok data s text F :
  rel s text F -> zlen text + zlen data < RING_BUFFER_LEN ->
  exists s', ihex_push_back s data = Some s' /\ rel s' (text ++ data) F /\
    g_writeAddr s' = g_writeAddr s /\ g_flash s' = g_flash s.
Proof.
  revert s text. induction data as [|c data IH]; intros s text [A B C E] Hlen; simpl.
  - exists s. rewrite app_nil_r. split_and!; done.
  - simpl in Hlen. destruct (cyc_push _ _ _ _ c A) as (buf' & Hz & Hc); [lia|].
    rewrite B, Hz. cbn [obind].
    rewrite ring_next by (apply Z.mod_pos_bound; done). rewrite Zplus_mod_idemp_l.
    set (s1 := set_ring s buf' _).
    destruct (IH s1 (text ++ [c])) as (s' & -> & Hr & Hw & Hf).
    + constructor; simpl; [done| |done|done]. rewrite length_app. simpl. f_equal. lia.
    + rewrite length_app. simpl. lia.
    + exists s'. rewrite <- app_assoc in Hr. by split_and!.
Qed.

Lemma get_line_ok text fuel s line :
  reading s text -> (length text <= fuel)%nat ->
  exists t, get_line_loop fuel s line = Some (set_read s t, (line_of text line).1) /\
    reading (set_read s t) (line_of text line).2.
Proof.
  revert fuel s line. induction text as [|c text IH]; intros fuel s line [Hc Hh] Hf.
  - exists (g_read_trail s). simpl in Hh. rewrite Z.add_0_r, Z.mod_small in Hh by apply Hc.
    assert (set_read s (g_read_trail s) = s) as -> by (by destruct s).
    assert (get_line_loop fuel s line = Some (s, Some line)) as ->
      by (destruct fuel; simpl; by rewrite Hh, Z.eqb_refl).
    split; [done|]. split; [done|]. rewrite Hh. simpl. rewrite Z.add_0_r, Z.mod_small; [done|apply Hc].
  - destruct fuel as [|fuel]; simpl in Hf; [lia|]. pose proof (cyc_pos _ _ _ _ Hc) as Hp.
    pose proof (cyc_room _ _ _ _ Hc) as Hr. apply cyc_pop in Hc as [Hg Hc]. cbn [get_line_loop].
    destruct (Z.eqb_spec (g_read_trail s) (g_buffer_head s)) as [He|_].
    { exfalso. rewrite Hh in He. apply (mod_diff (g_read_trail s) 0 (zlen (c :: text)) RING_BUFFER_LEN).
      - done.
      - simpl. lia.
      - done.
      - rewrite Z.add_0_r, (Z.mod_small (g_read_trail s)) by done. done. }
    rewrite Hg. cbn [obind]. rewrite ring_next by done.
    set (t := (g_read_trail s + 1) mod RING_BUFFER_LEN) in *.
    assert (reading (set_read s t) text) as Hrd.
    { split; [done|]. simpl. rewrite Hh. unfold t. rewrite Zplus_mod_idemp_l. f_equal. simpl. lia. }
    assert (forall l, exists t', get_line_loop fuel (set_read s t) l =
        Some (set_read s t', (line_of text l).1) /\ reading (set_read s t') (line_of text l).2) as IH'
      by (intros l; apply (IH fuel (set_read s t) l Hrd); lia).
    cbn [line_of]. destruct ((48 <=? c) && (c <=? 102)).
    + rewrite length_app. simpl length. rewrite Nat2Z.inj_add. change (Z.of_nat 1) with 1.
      destruct (HEX_LINE_MAX_LEN <=? zlen line + 1); [by exists t|apply IH'].
    + destruct (c =? 10); [destruct (0 <? zlen line); [by exists t|apply IH']|].
      destruct (c =? 13); [apply IH'|by exists t].
Qed.

(** ** The FIFO implements the page queue *)

Lemma fifo_next t : u8 (t + 1) mod PAGE_FIFO_LEN = (t + 1) mod PAGE_FIFO_LEN.
Proof. unfold PAGE_FIFO_LEN, SPM_PAGESIZE, wrapu. apply Z.mod_mod. lia. Qed.

Lemma data_loop_ok n line j s F chk :
  cyc (g_page_fifo s) PAGE_FIFO_LEN (g_fifo_trail s) F ->
  g_fifo_head s = (g_fifo_trail s + zlen F) mod PAGE_FIFO_LEN ->
  0 <= j -> j + 2 * Z.of_nat n < 256 -> zlen F + Z.of_nat n < PAGE_FIFO_LEN ->
  exists f h, data_loop n line j s chk =
      Some (set_fifo s f h (g_fifo_trail s), j + 2 * Z.of_nat n, sum8 chk (bytes_at n line j)) /\
    cyc f PAGE_FIFO_LEN (g_fifo_trail s) (F ++ bytes_at n line j) /\
    h = (g_fifo_trail s + zlen (F ++ bytes_at n line j)) mod PAGE_FIFO_LEN.
Proof.
  revert j s F chk. induction n as [|n IH]; intros j s F chk Hc Hh Hj Hjn HF; cbn [data_loop bytes_at].
  - exists (g_page_fifo s), (g_fifo_head s). rewrite app_nil_r. replace (j + 2 * Z.of_nat 0) with j by lia.
    split; [by destruct s|done].
  - set (d := _ascii2bin _ _).
    destruct (cyc_push _ _ _ _ d Hc) as (f & Hz & Hc'); [lia|]. rewrite Hh, Hz. cbn [obind].
    rewrite fifo_next, Zplus_mod_idemp_l, (wrapu_small 8 (j + 2)) by cint.
    match goal with |- context [data_loop n line (j + 2) ?s1 _] => set (s1' := s1) end.
    destruct (IH (j + 2) s1' (F ++ [d]) (u8 (chk + d))) as (f' & h' & -> & Hc'' & Hh'').
    + done.
    + simpl. rewrite length_app. simpl. f_equal. lia.
    + lia.
    + lia.
    + rewrite length_app. simpl. lia.
    + exists f', h'. rewrite <- app_assoc in Hc'', Hh''. split; [|done].
      replace (j + 2 + 2 * Z.of_nat n) with (j + 2 * Z.of_nat (S n)) by lia. done.
Qed.

Lemma fifo_take_ok n s text F :
  rel s text F -> (n <= length F)%nat ->
  exists s', fifo_take n s = Some (s', take n F) /\ rel s' text (drop n F) /\
    g_writeAddr s' = g_writeAddr s /\ g_flash s' = g_flash s.
Proof.
  revert s F. induction n as [|n IH]; intros s F [A B C E] Hn; simpl.
  - exists s. split_and!; done.
  - destruct F as [|b F]; simpl in Hn; [lia|]. pose proof (cyc_pos _ _ _ _ C).
    apply cyc_pop in C as [Hg C]. rewrite Hg. cbn [obind]. rewrite fifo_next.
    set (s1 := set_fifo s _ _ _). destruct (IH s1 F) as (s' & -> & Hr & Hw & Hf).
    + constructor; simpl; [done|done|done|]. rewrite E, Zplus_mod_idemp_l. simpl. f_equal. lia.
    + lia.
    + exists s'. split_and!; done.
Qed.

(** ** Pages *)

Lemma line_of_len text line l rest :
  zlen line < HEX_LINE_MAX_LEN -> line_of text line = (Some l, rest) -> zlen l < HEX_LINE_MAX_LEN.
Proof.
  revert line. induction text as [|c text IH]; intros line Hl; simpl; [by intros [= <- _]|].
  destruct (_ && _).
  - destruct (Z.leb_spec HEX_LINE_MAX_LEN (zlen line + 1)); [done|].
    apply IH. rewrite length_app. simpl. lia.
  - destruct (c =? 10); [destruct (0 <? zlen line)|destruct (c =? 13)]; [by intros [= <- _]|by apply IH..|done].
Qed.

Lemma bytes_at_length n line j : length (bytes_at n line j) = n.
Proof. revert j. induction n as [|n IH]; intros j; simpl; by rewrite ?IH. Qed.

Lemma record_of_data line bs ok :
  zlen line < HEX_LINE_MAX_LEN -> record_of line = RData bs ok -> zlen bs < 35.
Proof.
  unfold record_of, HEX_LINE_MAX_LEN. intros Hl. destruct (negb _); [done|].
  destruct (_ || _) eqn:E; [done|]. apply orb_false_iff in E as [_ E%negb_false_iff%Z.eqb_eq].
  destruct (_ =? 0); [|by destruct (_ =? 1)]. intros [= <- _]. rewrite bytes_at_length. lia.
Qed.

Lemma ascii2bin_range h l : 0 <= _ascii2bin h l < 256.
Proof. apply wrapu_bound. lia. Qed.

Lemma page_loop_ok fuel s text F plen err :
  rel s text F -> g_read_trail s = g_buffer_trail s -> zlen F < SPM_PAGESIZE ->
  match page_of fuel text F plen err with
  | None => page_loop fuel s plen err = None
  | Some (text', F', e, plen', err') =>
      exists s' ll, page_loop fuel s plen err = Some (s', ll, plen', err') /\
        rel s' text' F' /\ (ll =? 0) = e /\
        g_writeAddr s' = g_writeAddr s /\ g_flash s' = g_flash s
  end.
Proof.
  revert s text F plen err. induction fuel as [|fuel IH]; intros s text F plen err Hrel Hrt HF; [done|].
  cbn [page_loop page_of]. unfold ihex_get_line. pose proof Hrel as [A B C E].
  destruct (get_line_ok text (Z.to_nat RING_BUFFER_LEN) s []) as (t & -> & Hrd).
  { by split; rewrite Hrt. } { pose proof (cyc_room _ _ _ _ A). lia. }
  cbn [obind]. destruct (line_of text []) as [[line|] rest] eqn:El; cbn [fst snd] in *.
  2:{ eexists _, _. split; [done|]. by split_and!. }
  pose proof (line_of_len text [] line rest ltac:(done) El) as Hll. unfold HEX_LINE_MAX_LEN in Hll.
  destruct line as [|c0 line'].
  { eexists _, _. split; [done|]. by split_and!. }
  set (line := c0 :: line') in *.
  destruct (Z.eqb_spec (zlen line) 0) as [Hz|Hnz]; [by unfold line in Hz; simpl in Hz; lia|].
  assert (forall r : Z, exists (s' : loader) (ll : Z),
    Some (set_read s t, zlen line, plen, r) = Some (s', ll, plen, r) /\
    rel s' text F /\ (ll =? 0) = false /\
    g_writeAddr s' = g_writeAddr s /\ g_flash s' = g_flash s) as Hstop.
  { intros r. eexists _, _. split; [done|]. split_and!; try done. }
  unfold record_of. destruct (negb (lb line 0 =? 58)); [apply Hstop|].
  set (len := _ascii2bin (lb line 1) (lb line 2)). pose proof (ascii2bin_range (lb line 1) (lb line 2)) as Hlen.
  fold len in Hlen. destruct (_ || _) eqn:Es; [apply Hstop|].
  apply orb_false_iff in Es as [_ Es%negb_false_iff%Z.eqb_eq].
  assert (rel (ihex_line_take (set_read s t)) rest F) as Hrel'.
  { destruct Hrd as [R1 R2]. constructor; done. }
  assert ((zlen line =? 0) = false) as Hlz by by apply Z.eqb_neq.
  destruct (_ascii2bin (lb line 7) (lb line 8) =? 0).
  - destruct (data_loop_ok (Z.to_nat len) line 9 (ihex_line_take (set_read s t)) F
      (u8 (len + _ascii2bin (lb line 3) (lb line 4) + _ascii2bin (lb line 5) (lb line 6))))
      as (f & h & -> & Hc & Hh); [apply Hrel'|apply Hrel'|lia|lia| |].
    { unfold PAGE_FIFO_LEN, SPM_PAGESIZE in *. lia. }
    cbn [obind]. rewrite Z2Nat.id by lia. set (bs := bytes_at _ _ _) in *.
    set (s1 := set_fifo _ f h _). assert (rel s1 rest (F ++ bs)) as Hr1.
    { destruct Hrel' as [? ? ? ?]. constructor; done. }
    destruct (u8 (sum8 _ bs + _) =? 0); cbn [negb].
    + assert (u8 (g_fifo_head s1 - g_fifo_trail s1) = zlen (F ++ bs)) as ->.
      { change (g_fifo_trail s1) with (g_fifo_trail s). change (g_fifo_head s1) with h. rewrite Hh.
        change (g_fifo_trail (ihex_line_take _)) with (g_fifo_trail s). unfold PAGE_FIFO_LEN, SPM_PAGESIZE, wrapu.
        change (128 * 2) with (2 ^ 8). rewrite Zminus_mod_idemp_l. rewrite Z.mod_small; [lia|].
        pose proof (cyc_room _ _ _ _ Hc). unfold PAGE_FIFO_LEN, SPM_PAGESIZE in *. cint. }
      destruct (Z.leb_spec SPM_PAGESIZE (zlen (F ++ bs))).
      * eexists _, _. split; [done|]. by split_and!.
      * specialize (IH s1 rest (F ++ bs) (zlen (F ++ bs)) HEX_ERR_NONE Hr1 eq_refl ltac:(done)).
        destruct (page_of fuel rest (F ++ bs) _ _) as [[[[[? ?] ?] ?] ?]|]; [|done].
        exact IH.
    + eexists _, _. split; [done|]. by split_and!.
  - destruct (_ascii2bin (lb line 7) (lb line 8) =? 1).
    + eexists _, _. split; [done|]. by split_and!.
    + specialize (IH (ihex_line_take (set_read s t)) rest F plen HEX_ERR_NONE Hrel' eq_refl HF).
      destruct (page_of fuel rest F _ _) as [[[[[? ?] ?] ?] ?]|]; [|done]. exact IH.
Qed.

(** What a page loop can end with. *)
Lemma page_of_inv fuel text F plen err text' F' e plen' err' :
  page_of fuel text F plen err = Some (text', F', e, plen', err') ->
  0 <= plen <= zlen F -> zlen F < SPM_PAGESIZE ->
  0 <= plen' <= zlen F' /\ zlen F' < SPM_PAGESIZE + 35 /\
  (e = true \/ err' < HEX_ERR_NONE \/ err' = HEX_FILE_END \/
   (err' = HEX_ERR_NONE /\ SPM_PAGESIZE <= plen')).
Proof.
  revert text F plen err. induction fuel as [|fuel IH]; intros text F plen err; simpl; [done|].
  destruct (line_of text []) as [[line|] rest] eqn:El.
  2:{ intros [= <- <- <- <- <-] ? ?. split_and!; [lia..|]. right; left. done. }
  pose proof (line_of_len text [] line rest ltac:(done) El) as Hll.
  destruct line as [|c0 line].
  { intros [= <- <- <- <- <-] ? ?. split_and!; [lia..|]. by left. }
  destruct (record_of (c0 :: line)) as [| |bs ok| |] eqn:Er.
  - intros [= <- <- <- <- <-] ? ?. split_and!; [lia..|]. right; left. done.
  - intros [= <- <- <- <- <-] ? ?. split_and!; [lia..|]. right; left. done.
  - pose proof (record_of_data _ _ _ Hll Er) as Hbs. rewrite length_app. destruct ok.
    + destruct (Z.leb_spec SPM_PAGESIZE (Z.of_nat (length F + length bs))).
      * intros [= <- <- <- <- <-] ? ?. rewrite length_app. split_and!; [lia..|]. right; right; right.
        split; [done|lia].
      * intros Hp ? ?. eapply IH; [exact Hp|rewrite length_app; lia..].
    + intros [= <- <- <- <- <-] ? ?. rewrite length_app. split_and!; [lia..|]. right; left. done.
  - intros [= <- <- <- <- <-] ? ?. split_and!; [lia..|]. right; right; left. done.
  - intros Hp ? ?. eapply IH; [exact Hp|lia..].
Qed.

(** The page taken out of the queue. *)
Definition get_page_of (text F : list Z) : option (list Z * list Z * list Z * Z) :=
  let? (text, F, e, plen, err) := page_of (Z.to_nat RING_BUFFER_LEN) text F 0 HEX_ERR_EMPTY in
  let err := if e && (0 <? plen) then HEX_ERR_LINE else err in
  let n := if HEX_ERR_NONE <=? err then Z.to_nat (Z.min plen SPM_PAGESIZE) else 0%nat in
  Some (text, drop n F, take n F, err).

Lemma get_page_ok s text F :
  rel s text F -> zlen F < SPM_PAGESIZE ->
  match get_page_of text F with
  | None => ihex_get_page s = None
  | Some (text', F', page, err) =>
      exists s', ihex_get_page s = Some (s', page, err) /\ rel s' text' F' /\
        g_writeAddr s' = g_writeAddr s /\ g_flash s' = g_flash s
  end.
Proof.
  intros Hrel HF. unfold get_page_of, ihex_get_page.
  pose proof (page_loop_ok (Z.to_nat RING_BUFFER_LEN) (set_read s (g_buffer_trail s)) text F 0
    HEX_ERR_EMPTY) as Hp.
  destruct (page_of _ text F 0 HEX_ERR_EMPTY) as [[[[[text1 F1] e] plen] err]|] eqn:Epg.
  2:{ rewrite Hp; [done| |done|done]. destruct Hrel. by constructor. }
  destruct Hp as (s1 & ll & -> & Hrel1 & He & Ha1 & Hf1); [|done|done|].
  { destruct Hrel. by constructor. }
  destruct (page_of_inv _ _ _ _ _ _ _ _ _ _ Epg) as (Hpl & _); [lia|done|].
  cbn [obind]. rewrite He. destruct (HEX_ERR_NONE <=? _).
  - assert ((if SPM_PAGESIZE <? plen then SPM_PAGESIZE else plen) = Z.min plen SPM_PAGESIZE) as ->
      by (destruct (Z.ltb_spec SPM_PAGESIZE plen); lia).
    destruct (fifo_take_ok (Z.to_nat (Z.min plen SPM_PAGESIZE)) s1 text1 F1 Hrel1)
      as (s2 & -> & Hr2 & Ha2 & Hf2); [lia|].
    cbn [obind]. exists s2. split_and!; [done..| |]; [rewrite Ha2, Ha1|rewrite Hf2, Hf1]; done.
  - exists s1. rewrite take_0, drop_0. by split_and!.
Qed.

(** After a page that does not end the file, less than a page is left. *)
Lemma get_page_rest text F text' F' page err :
  get_page_of text F = Some (text', F', page, err) -> zlen F < SPM_PAGESIZE ->
  0 < zlen page -> err <> HEX_FILE_END -> zlen F' < SPM_PAGESIZE.
Proof.
  unfold get_page_of. intros Hg HF.
  destruct (page_of _ text F 0 HEX_ERR_EMPTY) as [[[[[text1 F1] e] plen] err1]|] eqn:Epg; [|done].
  destruct (page_of_inv _ _ _ _ _ _ _ _ _ _ Epg) as (Hpl & HF1 & Hcase); [lia|done|].
  cbn [obind] in Hg. injection Hg as <- <- <- <-.
  rewrite length_take, length_drop. unfold HEX_ERR_NONE, HEX_ERR_LINE, HEX_FILE_END, SPM_PAGESIZE in *.
  intros Hpos Hne. destruct (e && (0 <? plen)) eqn:Ee; [simpl in Hpos; lia|].
  destruct Hcase as [->|[?|[?|[-> ?]]]].
  - simpl in Ee. destruct (Z.ltb_spec 0 plen); [done|]. destruct (_ <=? _); lia.
  - destruct (Z.leb_spec 0 err1); lia.
  - done.
  - simpl. lia.
Qed.

(** ** Packets *)

Fixpoint process_of (fuel : nat) (text F : list Z) (addr : Z) (f : flash)
  : option (list Z * list Z * Z * flash * Z) :=
  match fuel with
  | O => None
  | S fuel =>
      let? (text, F, page, err) := get_page_of text F in
      if 0 <? zlen page then
        let package := page ++ replicate (Z.to_nat (SPM_PAGESIZE - zlen page)) 255 in
        let? ok := if addr =? 0 then validImage package else Some true in
        if negb ok then Some (text, F, addr, f, -1)
        else
          let? f := flash_page f addr package in
          if err =? HEX_FILE_END then Some (text, F, addr, f, 1)
          else process_of fuel text F (u16 (addr + zlen page)) f
      else if (err =? HEX_ERR_LINE) || (err =? HEX_ERR_EMPTY) then Some (text, F, addr, f, 0)
      else Some (text, F, addr, f, -2)
  end.

(** The loader's state is that of the queues, the address and the flash. *)
Definition loader_rel (s : loader) (text F : list Z) (addr : Z) (f : flash) : Prop :=
  rel s text F /\ g_writeAddr s = addr /\ g_flash s = f.

Lemma process_loop_ok fuel s text F addr f :
  loader_rel s text F addr f -> zlen F < SPM_PAGESIZE ->
  match process_of fuel text F addr f with
  | None => process_loop fuel s = None
  | Some (text', F', addr', f', r) =>
      exists s', process_loop fuel s = Some (s', r) /\ loader_rel s' text' F' addr' f'
  end.
Proof.
  revert s text F addr f. induction fuel as [|fuel IH]; intros s text F addr f (Hrel & Ha & Hfl) HF; [done|].
  cbn [process_loop process_of]. pose proof (get_page_ok s text F Hrel HF) as Hg.
  destruct (get_page_of text F) as [[[[text1 F1] page] err]|] eqn:Eg; [|by rewrite Hg].
  destruct Hg as (s1 & -> & Hrel1 & Ha1 & Hf1). cbn [obind]. rewrite Ha1, Hf1, Ha, Hfl.
  destruct (Z.ltb_spec 0 (zlen page)) as [Hpos|Hnil].
  2:{ destruct (_ || _); exists s1; (split; [done|]); (split; [done|]); split; congruence. }
  set (package := page ++ _).
  destruct (if addr =? 0 then validImage package else Some true) as [[|]|]; cbn [obind negb];
    [|exists s1; split; [done|]; split; [done|]; split; congruence|done].
  destruct (flash_page f addr package) as [f'|]; cbn [obind]; [|done].
  destruct (Z.eqb_spec err HEX_FILE_END) as [|Hne].
  { eexists. split; [done|]. destruct Hrel1. split; [by constructor|done]. }
  apply IH; [destruct Hrel1; split; [by constructor|done]|].
  by eapply get_page_rest.
Qed.

(** ** Writing a page *)

Definition byte (b : Z) : Prop := 0 <= b < 256.

(** No page write is in progress. *)
Definition flash_idle (f : flash) : Prop := page_buffer f = replicate 128 255.

Lemma program_lookup bs m base a :
  program m base bs !! a =
    if (base <=? a) && (a <? base + zlen bs) then bs !! Z.to_nat (a - base) else m !! a.
Proof.
  revert m base. induction bs as [|b bs IH]; intros m base; simpl.
  - destruct (_ && _) eqn:E; [|done]. apply andb_true_iff in E as [?%Z.leb_le ?%Z.ltb_lt]. lia.
  - rewrite IH. replace (base + Z.of_nat (S (length bs))) with (base + 1 + zlen bs) by lia.
    destruct (decide (a = base)) as [->|Hne].
    + rewrite (proj2 (Z.leb_gt (base + 1) base)), Z.leb_refl, (proj2 (Z.ltb_lt _ _)) by lia.
      by rewrite lookup_insert_eq, Z.sub_diag.
    + rewrite lookup_insert_ne by done.
      destruct (Z.leb_spec (base + 1) a), (Z.leb_spec base a); try lia; cbn [andb]; [|done].
      destruct (a <? base + 1 + zlen bs); [|done].
      by replace (Z.to_nat (a - base)) with (S (Z.to_nat (a - (base + 1)))) by lia.
Qed.

Lemma page_and_erased f base bs :
  (forall i, (i < length bs)%nat -> read_cell f (base + Z.of_nat i) = 255) -> Forall byte bs ->
  page_and f base bs = bs.
Proof.
  revert base. induction bs as [|b bs IH]; intros base Hc Hb; simpl; [done|].
  apply Forall_cons in Hb as [Hb Hbs]. rewrite IH; [|intros i Hi|done].
  - specialize (Hc 0%nat ltac:(simpl; lia)). rewrite Z.add_0_r in Hc. rewrite Hc.
    f_equal. unfold byte in Hb. rewrite Z.land_comm. change 255 with (2 ^ 8 - 1).
    rewrite land_pow2_mask by done. by apply Z.mod_small.
  - replace (base + 1 + Z.of_nat i) with (base + Z.of_nat (S i)) by lia. apply Hc. simpl. lia.
Qed.

Lemma word_split lo hi : byte lo -> byte hi ->
  u16 (lo |. (hi ≪ 8)) &. 255 = lo /\ u16 (lo |. (hi ≪ 8)) ≫ 8 = hi.
Proof.
  unfold byte. intros Hl Hh.
  rewrite lor_shiftl_add by done. change (2 ^ 8) with 256.
  rewrite wrapu_small by cint. split.
  - change 255 with (2 ^ 8 - 1). rewrite land_pow2_mask by done. change (2 ^ 8) with 256.
    rewrite Z_mod_plus_full. by apply Z.mod_small.
  - rewrite Z.shiftr_div_pow2 by done. change (2 ^ 8) with 256. rewrite Z_div_plus_full by done.
    rewrite Z.div_small by done. done.
Qed.

Lemma fill_loop_ok n f addr k package :
  length package = 128%nat -> Forall byte package -> length (page_buffer f) = 128%nat ->
  addr mod SPM_PAGESIZE = 0 -> 0 <= addr < 65536 -> (k + n = 64)%nat ->
  take (2 * k) (page_buffer f) = take (2 * k) package ->
  fill_loop n f addr (2 * Z.of_nat k) package = Some (Flash (cells f) package).
Proof.
  intros Hp Hb. revert f k. induction n as [|n IH]; intros f k Hl Ha Hr Hk Ht; cbn [fill_loop].
  - assert (k = 64%nat) as -> by lia. rewrite !take_ge in Ht by lia. subst. by destruct f.
  - destruct (lookup_lt_is_Some_2 package (2 * k)) as [lo Hlo]; [lia|].
    destruct (lookup_lt_is_Some_2 package (2 * k + 1)) as [hi Hhi]; [lia|].
    assert (zget package (2 * Z.of_nat k) = Some lo) as ->
      by (apply zget_Some; split; [lia|]; rewrite <- Hlo; f_equal; lia).
    assert (zget package (2 * Z.of_nat k + 1) = Some hi) as ->
      by (apply zget_Some; split; [lia|]; rewrite <- Hhi; f_equal; lia).
    cbn [obind]. destruct (word_split lo hi) as [E1 E2];
      [by apply (Forall_lookup_1 _ _ _ _ Hb Hlo)|by apply (Forall_lookup_1 _ _ _ _ Hb Hhi)|].
    unfold boot_page_fill. rewrite E1, E2.
    assert (u16 (addr + 2 * Z.of_nat k) mod SPM_PAGESIZE = 2 * Z.of_nat k) as ->.
    { unfold SPM_PAGESIZE in *. rewrite wrapu_small.
      - rewrite <- Zplus_mod_idemp_l, Ha. apply Z.mod_small. lia.
      - assert (addr <= 65408); [|cint]. pose proof (Z.div_mod addr 128 ltac:(lia)). lia. }
    rewrite (proj2 (zset_Some (page_buffer f) (2 * Z.of_nat k) lo _)) by (split; [lia|done]).
    cbn [obind]. rewrite (proj2 (zset_Some _ (2 * Z.of_nat k + 1) hi _))
      by (split; [rewrite length_insert; lia|done]).
    cbn [obind]. replace (2 * Z.of_nat k + 2) with (2 * Z.of_nat (S k)) by lia.
    rewrite (IH (Flash _ _) (S k)); cbn [page_buffer cells]; rewrite ?length_insert; try lia; [done|].
    replace (Z.to_nat (2 * Z.of_nat k)) with (2 * k)%nat by lia.
    replace (Z.to_nat (2 * Z.of_nat k + 1)) with (2 * k + 1)%nat by lia.
    replace (2 * S k)%nat with (S (S (2 * k))) by lia.
    rewrite (take_S_r package (S (2 * k)) hi), (take_S_r package (2 * k) lo) by (done || (by rewrite <- Hhi; f_equal; lia)).
    rewrite (take_S_r _ (S (2 * k)) hi), (take_S_r _ (2 * k) lo).
    + by rewrite !take_insert_ge, Ht by lia.
    + rewrite list_lookup_insert_ne by lia. apply list_lookup_insert_eq. lia.
    + replace (S (2 * k)) with (2 * k + 1)%nat by lia. apply list_lookup_insert_eq.
      rewrite length_insert. lia.
Qed.

Lemma flash_page_ok f addr package :
  flash_idle f -> length package = 128%nat -> Forall byte package ->
  addr mod SPM_PAGESIZE = 0 -> 0 <= addr < 65536 ->
  exists f', flash_page f addr package = Some f' /\ flash_idle f' /\
    forall a, read_cell f' a =
      if (addr <=? a) && (a <? addr + 128) then default 255 (zget package (a - addr))
      else read_cell f a.
Proof.
  intros Hi Hp Hb Ha Hr. unfold flash_page.
  assert (page_base addr = addr) as Hbase by (unfold page_base; lia).
  change 0 with (2 * Z.of_nat 0) at 1.
  rewrite (fill_loop_ok 64 (boot_page_erase f addr) addr 0 package); try done.
  2:{ simpl. by rewrite Hi. }
  cbn [obind]. eexists. split; [done|]. split; [done|]. intros a. unfold boot_page_write.
  cbn [page_buffer cells]. rewrite Hbase. rewrite page_and_erased; [|intros i Hlt|done].
  - unfold read_cell at 1. cbn [cells]. rewrite program_lookup, Hp. change (Z.of_nat 128) with 128.
    destruct (Z.leb_spec addr a), (Z.ltb_spec a (addr + 128)); cbn [andb].
    1: { unfold zget. by rewrite (proj2 (Z.leb_le 0 (a - addr))) by lia. }
    all: unfold read_cell; cbn [cells boot_page_erase]; rewrite program_lookup, Hbase, length_replicate;
      change (Z.of_nat 128) with 128;
      destruct (Z.leb_spec addr a), (Z.ltb_spec a (addr + 128)); try lia; done.
  - unfold read_cell. cbn [cells boot_page_erase]. rewrite program_lookup, Hbase, length_replicate.
    change (Z.of_nat 128) with 128.
    rewrite (proj2 (Z.leb_le addr _)), (proj2 (Z.ltb_lt _ (addr + 128))) by lia. cbn [andb].
    rewrite lookup_replicate_2; [done|lia].
Qed.

(** ** The text of an image *)

Definition hexdigit (d : Z) : Z := if d <? 10 then 48 + d else 55 + d.
Definition hex2 (b : Z) : list Z := [hexdigit (b / 16); hexdigit (b mod 16)].

Definition zsum (bs : list Z) : Z := foldr Z.add 0 bs.

(** A data record without its line end, and with it. *)
Definition head_bytes (addr : Z) (data : list Z) : list Z :=
  [zlen data; addr / 256; addr mod 256; 0].
Definition body (r : Z * list Z) : list Z :=
  let (addr, data) := r in
  58 :: concat (hex2 <$> head_bytes addr data ++ data ++
                [u8 (- (zlen data + addr / 256 + addr mod 256 + zsum data))]).
Definition record_line (r : Z * list Z) : list Z := body r ++ CRLF.
Definition image_text (recs : list (Z * list Z)) : list Z := concat (record_line <$> recs).
Definition image_data (recs : list (Z * list Z)) : list Z := concat recs.*2.

Definition rec_ok (r : Z * list Z) : Prop :=
  0 <= r.1 < 65536 /\ 1 <= zlen r.2 <= 32 /\ Forall byte r.2.

Lemma hex2_check :
  forallb (fun b => (_ascii2bin (hexdigit (b / 16)) (hexdigit (b mod 16)) =? b) &&
                    (48 <=? hexdigit (b / 16)) && (hexdigit (b / 16) <=? 102) &&
                    (48 <=? hexdigit (b mod 16)) && (hexdigit (b mod 16) <=? 102))
    (Z.of_nat <$> seq 0 256) = true.
Proof. by vm_compute. Qed.

Lemma hex2_ok b : byte b ->
  _ascii2bin (hexdigit (b / 16)) (hexdigit (b mod 16)) = b /\
  Forall (fun c => (48 <=? c) && (c <=? 102) = true) (hex2 b).
Proof.
  intros Hb. pose proof (proj1 (forallb_forall _ _) hex2_check b) as H.
  rewrite !andb_true_iff, Z.eqb_eq in H.
  destruct H as [[[[H1 H2] H3] H4] H5].
  { apply list_elem_of_In, list_elem_of_fmap. exists (Z.to_nat b). unfold byte in Hb.
    split; [lia|]. apply elem_of_seq. lia. }
  split; [done|]. repeat constructor; by rewrite ?H2, ?H3, ?H4, ?H5.
Qed.

Lemma hexes_chars bs : Forall byte bs ->
  Forall (fun c => (48 <=? c) && (c <=? 102) = true) (concat (hex2 <$> bs)).
Proof.
  induction 1 as [|b bs Hb _ IH]; cbn [fmap list_fmap concat]; [done|].
  apply Forall_app. split; [by apply hex2_ok|done].
Qed.

Lemma hexes_length bs : length (concat (hex2 <$> bs)) = (2 * length bs)%nat.
Proof.
  induction bs as [|b bs IH]; [done|]. cbn [fmap list_fmap concat]. rewrite length_app, IH.
  simpl. lia.
Qed.

(** Byte [i] of an encoded sequence is at position [2 i]. *)
Lemma hexes_at pre bs post i b :
  Forall byte bs -> bs !! i = Some b ->
  let line := pre ++ concat (hex2 <$> bs) ++ post in
  let j := zlen pre + 2 * Z.of_nat i in
  _ascii2bin (lb line j) (lb line (j + 1)) = b.
Proof.
  revert pre i. induction bs as [|x bs IH]; intros pre i Hall Hi; [done|].
  apply Forall_cons in Hall as [Hx Hall]. cbn [fmap list_fmap concat]. cbv zeta.
  destruct i as [|i]; simpl in Hi.
  - injection Hi as ->. rewrite Z.mul_0_r, Z.add_0_r. unfold lb, zget.
    rewrite (proj2 (Z.leb_le 0 (zlen pre))), (proj2 (Z.leb_le 0 (zlen pre + 1))) by lia.
    rewrite Nat2Z.id. replace (Z.to_nat (zlen pre + 1)) with (length pre + 1)%nat by lia.
    rewrite (lookup_app_r pre _ (length pre)), Nat.sub_diag by lia.
    rewrite (lookup_app_r pre _ (length pre + 1)) by lia.
    replace (length pre + 1 - length pre)%nat with 1%nat by lia. simpl. by apply hex2_ok.
  - specialize (IH (pre ++ hex2 x) i Hall Hi). cbv zeta in IH.
    rewrite <- !app_assoc in IH. rewrite <- !app_assoc. rewrite length_app in IH. simpl length in IH.
    replace (zlen pre + 2 * Z.of_nat (S i)) with (Z.of_nat (length pre + 2) + 2 * Z.of_nat i) by lia.
    done.
Qed.

Lemma bytes_at_hexes pre bs post :
  Forall byte bs ->
  bytes_at (length bs) (pre ++ concat (hex2 <$> bs) ++ post) (zlen pre) = bs.
Proof.
  revert pre. induction bs as [|b bs IH]; intros pre Hall; [done|].
  pose proof (hexes_at pre (b :: bs) post 0 b Hall eq_refl) as H0. cbv zeta in H0.
  rewrite Z.mul_0_r, Z.add_0_r in H0. cbn [length bytes_at]. rewrite H0. f_equal.
  apply Forall_cons in Hall as [_ Hall]. specialize (IH (pre ++ hex2 b) Hall).
  rewrite length_app in IH. simpl length in IH. rewrite Nat2Z.inj_add in IH.
  cbn [fmap list_fmap concat]. rewrite <- !app_assoc in *. exact IH.
Qed.

Lemma sum8_eq bs c : sum8 (u8 c) bs = u8 (c + zsum bs).
Proof.
  revert c. induction bs as [|b bs IH]; intros c; simpl; [by rewrite Z.add_0_r|].
  rewrite wrapu_add_l by lia. rewrite IH. f_equal. lia.
Qed.

Lemma body_bytes r : rec_ok r ->
  let '(addr, data) := r in
  Forall byte (head_bytes addr data ++ data ++
               [u8 (- (zlen data + addr / 256 + addr mod 256 + zsum data))]).
Proof.
  destruct r as [addr data]. intros (Ha & Hl & Hd). cbn [fst snd] in *.
  apply Forall_app; split; [|apply Forall_app; split; [done|]].
  - pose proof (Z.mod_pos_bound addr 256). pose proof (Z.div_mod addr 256 ltac:(lia)).
    unfold head_bytes. repeat apply Forall_cons_2; [..|apply Forall_nil_2]; unfold byte; lia.
  - apply Forall_singleton. apply wrapu_bound. lia.
Qed.

Lemma body_length r : zlen (body r) = 11 + 2 * zlen r.2.
Proof.
  destruct r as [addr data]. unfold body. cbn [length snd]. rewrite hexes_length, !length_app.
  simpl length. lia.
Qed.

Lemma body_at addr data i b :
  rec_ok (addr, data) ->
  (head_bytes addr data ++ data ++
   [u8 (- (zlen data + addr / 256 + addr mod 256 + zsum data))]) !! i = Some b ->
  _ascii2bin (lb (body (addr, data)) (1 + 2 * Z.of_nat i))
             (lb (body (addr, data)) (1 + 2 * Z.of_nat i + 1)) = b.
Proof.
  intros Hok Hi. pose proof (hexes_at [58] _ [] i b (body_bytes _ Hok) Hi) as H.
  cbv zeta in H. rewrite app_nil_r in H. exact H.
Qed.

Lemma record_of_body r : rec_ok r -> record_of (body r) = RData r.2 true.
Proof.
  destruct r as [addr data]. intros Hok. pose proof Hok as (Ha & Hl & Hd). cbn [fst snd] in *.
  unfold record_of. change (lb (body (addr, data)) 0) with 58. cbn [Z.eqb Pos.eqb negb].
  pose proof (body_at addr data 0 _ Hok eq_refl) as E0. pose proof (body_at addr data 1 _ Hok eq_refl) as E1.
  pose proof (body_at addr data 2 _ Hok eq_refl) as E2. pose proof (body_at addr data 3 _ Hok eq_refl) as E3.
  change (1 + 2 * Z.of_nat 0) with 1 in E0. change (1 + 2 * Z.of_nat 1) with 3 in E1.
  change (1 + 2 * Z.of_nat 2) with 5 in E2. change (1 + 2 * Z.of_nat 3) with 7 in E3.
  change (1 + 1) with 2 in E0. change (3 + 1) with 4 in E1. change (5 + 1) with 6 in E2.
  change (7 + 1) with 8 in E3. rewrite E0, E1, E2, E3, body_length. cbn [fst snd].
  rewrite (proj2 (Z.ltb_ge _ _)) by lia. rewrite (proj2 (Z.eqb_eq _ _)) by lia. cbn [negb orb].
  rewrite Z.eqb_refl, Nat2Z.id.
  assert (bytes_at (length data) (body (addr, data)) 9 = data) as ->.
  { pose proof (bytes_at_hexes (58 :: concat (hex2 <$> head_bytes addr data)) data
      (hex2 (u8 (- (zlen data + addr / 256 + addr mod 256 + zsum data)))) Hd) as H.
    assert (body (addr, data) = (58 :: concat (hex2 <$> head_bytes addr data)) ++
      concat (hex2 <$> data) ++ hex2 (u8 (- (zlen data + addr / 256 + addr mod 256 + zsum data)))) as ->.
    { unfold body. rewrite !fmap_app, !concat_app. cbn [fmap list_fmap concat]. by rewrite app_nil_r. }
    exact H. }
  pose proof (body_at addr data (4 + length data)
    (u8 (- (zlen data + addr / 256 + addr mod 256 + zsum data))) Hok) as Ec.
  replace (1 + 2 * Z.of_nat (4 + length data)) with (9 + 2 * zlen data) in Ec by lia. rewrite Ec.
  2:{ rewrite app_assoc. apply list_lookup_middle. rewrite length_app. done. }
  rewrite sum8_eq, wrapu_add_l, wrapu_add_r, Z.add_opp_diag_r by lia. done.
Qed.

Lemma lb_take k l i : 0 <= i < Z.of_nat k -> lb (take k l) i = lb l i.
Proof. intros H. unfold lb, zget. destruct (0 <=? i); [|done]. by rewrite lookup_take_lt by lia. Qed.

(** A record cut short is waited for. *)
Lemma record_of_prefix r k :
  rec_ok r -> (0 < k)%nat -> Z.of_nat k < zlen (body r) -> record_of (take k (body r)) = RShort.
Proof.
  intros Hok Hk Hlt. pose proof (record_of_body r Hok) as Hb. unfold record_of in Hb |- *.
  rewrite (lb_take k _ 0) by lia. destruct (negb (lb (body r) 0 =? 58)); [done|].
  rewrite length_take, Nat.min_l by lia. destruct (Z.ltb_spec (Z.of_nat k) 11); [done|].
  rewrite !lb_take by lia. destruct (Z.eqb_spec (_ascii2bin (lb (body r) 1) (lb (body r) 2) * 2 + 11) (zlen (body r)));
    [|cbn [negb] in Hb; by rewrite orb_true_r in Hb].
  cbn [orb]. rewrite (proj2 (Z.eqb_neq _ (Z.of_nat k))) by lia. done.
Qed.

Lemma line_of_digits p text acc :
  Forall (fun c => (48 <=? c) && (c <=? 102) = true) p -> zlen acc + zlen p < HEX_LINE_MAX_LEN ->
  line_of (p ++ text) acc = line_of text (acc ++ p).
Proof.
  intros Hp. revert acc. induction Hp as [|c p Hc _ IH]; intros acc Hl; simpl; [by rewrite app_nil_r|].
  simpl in Hl. rewrite Hc. rewrite (proj2 (Z.leb_gt _ _)) by lia. rewrite IH.
  - by rewrite <- app_assoc.
  - rewrite length_app. simpl. lia.
Qed.

Lemma body_chars r : rec_ok r -> Forall (fun c => (48 <=? c) && (c <=? 102) = true) (body r).
Proof.
  destruct r as [addr data]. intros Hok. pose proof (body_bytes _ Hok) as Hb. unfold body.
  apply Forall_cons. split; [done|]. by apply hexes_chars.
Qed.

(** ** Streams

    What is left of the text of the records: the rest of a line end, then
    whole records.  [T] is what has arrived of it and [U] what has not. *)

Definition line_end (pre : list Z) : Prop := pre = [] \/ pre = [10] \/ pre = [13; 10].

Definition stream (T U : list Z) (recs : list (Z * list Z)) : Prop :=
  Forall rec_ok recs /\ exists pre, line_end pre /\ T ++ U = pre ++ image_text recs.

Lemma line_of_skip pre T : line_end pre -> line_of (pre ++ T) [] = line_of T [].
Proof. by intros [-> | [-> | ->]]. Qed.

(** After a whole record the line end is dropped as far as it has arrived. *)
Lemma line_of_end l T U rest :
  l <> [] -> T ++ U = CRLF ++ rest ->
  exists T' pre, line_of T l = (Some l, T') /\ line_end pre /\ T' ++ U = pre ++ rest /\ zlen T' <= zlen T.
Proof.
  intros Hl HT. destruct T as [|a [|b T]]; simpl in HT.
  - exists [], [13; 10]. split_and!; [done|by right; right|done|done].
  - injection HT as -> HT. exists [], [10]. split_and!; [done|by right; left|done|simpl; lia].
  - injection HT as -> -> HT. exists T, []. split_and!; [|by left|done|simpl; lia].
    simpl. destruct l; done.
Qed.

(** Reading a line from a stream either waits or yields the next record. *)
Lemma stream_step T U recs :
  stream T U recs ->
  (exists l, line_of T [] = (Some l, []) /\ (l = [] \/ record_of l = RShort) /\ zlen T <= 76 /\
     (U = [] -> recs = [])) \/
  (exists r recs' T', recs = r :: recs' /\ rec_ok r /\ line_of T [] = (Some (body r), T') /\
     stream T' U recs' /\ zlen T' < zlen T).
Proof.
  intros [Hall (pre & Hpre & HT)].
  apply app_eq_inv in HT as [(w & HT & Hi)|(w & Hp & HU)].
  2:{ (* only part of the line end has arrived *)
    left. exists []. assert (line_end T \/ T = [13]) as HTe.
    { unfold line_end. destruct Hpre as [-> | [-> | ->]]; destruct T as [|a [|b [|c T]]];
        simplify_eq/=; auto. }
    split_and!.
    - destruct HTe as [[-> | [-> | ->]] | ->]; done.
    - by left.
    - destruct HTe as [[-> | [-> | ->]] | ->]; simpl; lia.
    - intros ->. symmetry in HU. apply app_nil in HU as [_ HU]. destruct recs as [|r recs]; [done|].
      exfalso. unfold image_text in HU. simpl in HU. destruct r. done. }
  subst T. rewrite line_of_skip by done. rewrite length_app.
  destruct recs as [|r recs].
  { left. exists []. unfold image_text in Hi. symmetry in Hi. apply app_nil in Hi as [-> ->]. simpl.
    split_and!; [done|by left| |done]. destruct Hpre as [-> | [-> | ->]]; simpl; lia. }
  apply Forall_cons in Hall as [Hr Hall]. pose proof (body_length r) as Hbl.
  pose proof Hr as (_ & Hd & _). pose proof (body_chars r Hr) as Hch.
  change (image_text (r :: recs)) with ((body r ++ CRLF) ++ image_text recs) in Hi.
  rewrite <- app_assoc in Hi.
  destruct (decide (zlen w < zlen (body r))) as [Hlt|Hge].
  - left. assert (w = take (length w) (body r)) as Hw.
    { apply (f_equal (take (length w))) in Hi. rewrite take_app_length, take_app_le in Hi by lia. done. }
    exists w. assert (Forall (fun c => (48 <=? c) && (c <=? 102) = true) w) as Hcw
      by (rewrite Hw; by apply Forall_take).
    split_and!.
    + rewrite <- (app_nil_r w) at 1. rewrite line_of_digits; [done|done|unfold HEX_LINE_MAX_LEN; simpl; lia].
    + destruct (decide (w = [])) as [|Hne]; [by left|right]. rewrite Hw. apply record_of_prefix; [done| |lia].
      destruct w; [done|simpl; lia].
    + destruct Hpre as [-> | [-> | ->]]; simpl; lia.
    + intros ->. exfalso. rewrite app_nil_r in Hi. apply (f_equal length) in Hi.
      rewrite length_app in Hi. lia.
  - right. assert (w = body r ++ drop (length (body r)) w) as Hw.
    { rewrite <- (take_drop (length (body r)) w) at 1. f_equal.
      apply (f_equal (take (length (body r)))) in Hi. rewrite take_app_length, take_app_le in Hi by lia. done. }
    rewrite Hw in Hi. rewrite <- app_assoc in Hi. apply app_inv_head in Hi.
    destruct (line_of_end (body r) _ U (image_text recs) ltac:(by destruct r) (eq_sym Hi))
      as (T' & pre' & Hl & Hpre' & HT' & Hlen).
    exists r, recs, T'. split_and!; [done|done| |split; [done|by exists pre']|].
    + rewrite Hw. rewrite line_of_digits; [done|done|unfold HEX_LINE_MAX_LEN; simpl; lia].
    + rewrite Hw, length_app. lia.
Qed.

Lemma image_data_app a b : image_data (a ++ b) = image_data a ++ image_data b.
Proof. unfold image_data. by rewrite fmap_app, concat_app. Qed.

Lemma image_data_bytes recs : Forall rec_ok recs -> Forall byte (image_data recs).
Proof.
  induction 1 as [|r recs (_ & _ & Hd) _ IH]; [constructor|].
  change (image_data (r :: recs)) with (r.2 ++ image_data recs). by apply Forall_app.
Qed.

(** The page loop takes records off the stream until a page is full or it
    has to wait. *)
Lemma page_of_stream fuel T U recs F plen err :
  stream T U recs -> (length T < fuel)%nat -> zlen F < SPM_PAGESIZE ->
  exists used rest T' e plen' err',
    recs = used ++ rest /\ stream T' U rest /\
    page_of fuel T F plen err = Some (T', F ++ image_data used, e, plen', err') /\
    ((SPM_PAGESIZE <= zlen (F ++ image_data used) /\ e = false /\
      plen' = zlen (F ++ image_data used) /\ err' = HEX_ERR_NONE /\ zlen T' < zlen T) \/
     (zlen (F ++ image_data used) < SPM_PAGESIZE /\ zlen T' <= 76 /\ (U = [] -> rest = []) /\
      ((e = true /\ (used = [] /\ plen' = plen /\ err' = err \/ 0 < plen')) \/
       (e = false /\ err' = HEX_ERR_LINE)))).
Proof.
  revert T recs F plen err. induction fuel as [|fuel IH]; intros T recs F plen err Hs Hf HF; [lia|].
  cbn [page_of]. destruct (stream_step T U recs Hs) as
    [(l & -> & Hl & HT & HU)|(r & recs' & T1 & -> & Hr & -> & Hs1 & Hlen)].
  - exists [], recs, T. change (image_data []) with (@nil Z). rewrite app_nil_r.
    destruct l as [|c l].
    + exists true, plen, err. split_and!; try done. right. split_and!; try done. left. split; [done|]. by left.
    + destruct Hl as [Hl|Hl]; [done|]. rewrite Hl. exists false, plen, HEX_ERR_LINE.
      split_and!; try done. right. split_and!; try done. by right.
  - destruct (body r) as [|c l] eqn:Eb; [by destruct r|]. rewrite <- Eb, record_of_body by done.
    pose proof Hr as (_ & Hd & _). rewrite length_app. destruct (Z.leb_spec SPM_PAGESIZE (Z.of_nat (length F + length r.2))).
    + exists [r], recs', T1, false, (Z.of_nat (length F + length r.2)), HEX_ERR_NONE.
      assert (image_data [r] = r.2) as -> by (unfold image_data; simpl; apply app_nil_r).
      rewrite length_app. split_and!; try done. left. by split_and!.
    + destruct (IH T1 recs' (F ++ r.2) (Z.of_nat (length F + length r.2)) HEX_ERR_NONE Hs1)
        as (used & rest & T' & e & plen' & err' & -> & Hs' & Hp & Hcase); [lia|rewrite length_app; lia|].
      exists (r :: used), rest, T', e, plen', err'.
      change (image_data (r :: used)) with (r.2 ++ image_data used). rewrite app_assoc.
      split_and!; try done. destruct Hcase as [(? & ? & ? & ? & ?)|(? & ? & ? & Hc)].
      * left. split_and!; try done. lia.
      * right. split_and!; try done. destruct Hc as [[-> [(-> & -> & ->)|?]]|?]; [|by left; split; [|right]|by right].
        left. split; [done|]. right. lia.
Qed.

Lemma get_page_of_stream T U recs F :
  stream T U recs -> zlen T < RING_BUFFER_LEN -> zlen F < SPM_PAGESIZE ->
  exists used rest T', recs = used ++ rest /\ stream T' U rest /\
    let G := F ++ image_data used in
    ((SPM_PAGESIZE <= zlen G /\ zlen T' < zlen T /\
      get_page_of T F = Some (T', drop 128 G, take 128 G, HEX_ERR_NONE)) \/
     (zlen G < SPM_PAGESIZE /\ zlen T' <= 76 /\ (U = [] -> rest = []) /\
      exists err, (err = HEX_ERR_LINE \/ err = HEX_ERR_EMPTY) /\
        get_page_of T F = Some (T', G, [], err))).
Proof.
  intros Hs HT HF. destruct (page_of_stream (Z.to_nat RING_BUFFER_LEN) T U recs F 0 HEX_ERR_EMPTY Hs)
    as (used & rest & T' & e & plen & err & -> & Hs' & Hp & Hcase); [lia|done|].
  exists used, rest, T'. split; [done|]. split; [done|]. unfold get_page_of. rewrite Hp. cbn [obind].
  cbv zeta. destruct Hcase as [(HG & -> & -> & -> & Hl)|(HG & HT' & HU & Hc)].
  - left. split; [done|]. split; [done|]. cbn [andb].
    change (HEX_ERR_NONE <=? HEX_ERR_NONE) with true. rewrite Z.min_r by done. done.
  - right. split_and!; try done. destruct Hc as [[-> [(-> & -> & ->)|Hpl]]|[-> ->]].
    + exists HEX_ERR_EMPTY. split; [by right|]. simpl. by rewrite drop_0, take_0.
    + exists HEX_ERR_LINE. split; [by left|]. rewrite (proj2 (Z.ltb_lt 0 plen)) by done. cbn [andb].
      change (HEX_ERR_NONE <=? HEX_ERR_LINE) with false. cbv beta iota. by rewrite drop_0, take_0.
    + exists HEX_ERR_LINE. split; [by left|]. cbn [andb].
      change (HEX_ERR_NONE <=? HEX_ERR_LINE) with false. cbv beta iota. by rewrite drop_0, take_0.
Qed.

(** The bytes [D] are in the flash [f] from address 0 on, and every other
    cell is as it was in [f0]. *)
Definition written (f0 f : flash) (D : list Z) : Prop :=
  (forall i x, D !! i = Some x -> read_cell f (Z.of_nat i) = x) /\
  forall a, ~ 0 <= a < zlen D -> read_cell f a = read_cell f0 a.

(** The first page, once complete, starts with a jump table. *)
Definition first_page_ok (data : list Z) : Prop :=
  128 <= zlen data -> validImage (take 128 data) = Some true.

Lemma written_page f0 f f' D page :
  written f0 f D -> length page = 128%nat ->
  (forall a, read_cell f' a =
     if (zlen D <=? a) && (a <? zlen D + 128) then default 255 (zget page (a - zlen D))
     else read_cell f a) ->
  written f0 f' (D ++ page).
Proof.
  intros [HD Hrest] Hp Hf. split.
  - intros i x Hi. rewrite Hf. destruct (decide (i < length D)%nat) as [Hlt|Hge].
    + rewrite (proj2 (Z.leb_gt (zlen D) _)) by lia. cbn [andb]. apply HD.
      by rewrite lookup_app_l in Hi.
    + rewrite lookup_app_r in Hi by lia. pose proof (lookup_lt_Some _ _ _ Hi).
      rewrite (proj2 (Z.leb_le (zlen D) _)), (proj2 (Z.ltb_lt _ (zlen D + 128))) by lia. cbn [andb].
      unfold zget. rewrite (proj2 (Z.leb_le 0 _)) by lia.
      replace (Z.to_nat (Z.of_nat i - zlen D)) with (i - length D)%nat by lia. by rewrite Hi.
  - intros a Ha. rewrite length_app in Ha. rewrite Hf, <- Hrest by lia.
    destruct (Z.leb_spec (zlen D) a), (Z.ltb_spec a (zlen D + 128)); cbn [andb]; try done. lia.
Qed.

Lemma process_of_stream fuel T U recs F D f0 f :
  stream T U recs -> zlen T < RING_BUFFER_LEN -> (length T < fuel)%nat -> zlen F < SPM_PAGESIZE ->
  Forall byte F -> flash_idle f -> written f0 f D -> zlen D mod SPM_PAGESIZE = 0 ->
  first_page_ok (D ++ F ++ image_data recs) -> zlen (D ++ F ++ image_data recs) < 65536 ->
  exists used rest T' D' F' f', recs = used ++ rest /\ stream T' U rest /\ zlen T' <= 76 /\
    (U = [] -> rest = []) /\
    process_of fuel T F (zlen D) f = Some (T', F', zlen D', f', 0) /\
    D' ++ F' = D ++ F ++ image_data used /\ zlen F' < SPM_PAGESIZE /\ Forall byte F' /\
    flash_idle f' /\ written f0 f' D' /\ zlen D' mod SPM_PAGESIZE = 0.
Proof.
  revert T recs F D f. induction fuel as [|fuel IH];
    intros T recs F D f Hs HT Hfuel HF HFb Hidle HD Hal Hv Hsz; [lia|].
  cbn [process_of]. pose proof (image_data_bytes recs (proj1 Hs)) as Hrb.
  destruct (get_page_of_stream T U recs F Hs HT HF) as (used & rest & T1 & -> & Hs1 & Hcase).
  rewrite image_data_app in *. apply Forall_app in Hrb as [Hub Hrb].
  destruct Hcase as [(HG & Hl & Hgp)|(HG & HT1 & HU & err & Herr & Hgp)]; rewrite Hgp; cbn [obind].
  2:{ exists used, rest, T1, D, (F ++ image_data used), f. split_and!; try done.
      - destruct Herr as [-> | ->]; done.
      - by apply Forall_app. }
  set (G := F ++ image_data used) in *. assert (Forall byte G) as HGb by (by apply Forall_app).
  assert (length (take 128 G) = 128%nat) as Hpl
    by (rewrite length_take; unfold SPM_PAGESIZE in HG; lia).
  rewrite Hpl. change (0 <? Z.of_nat 128) with true. cbv beta iota.
  change (Z.to_nat (SPM_PAGESIZE - Z.of_nat 128)) with 0%nat. cbn [replicate]. rewrite app_nil_r.
  assert (D ++ F ++ image_data used ++ image_data rest = (D ++ take 128 G) ++ drop 128 G ++ image_data rest) as Hall.
  { rewrite <- app_assoc. f_equal. rewrite app_assoc. fold G. by rewrite app_assoc, take_drop. }
  rewrite Hall in Hv, Hsz.
  assert ((if zlen D =? 0 then validImage (take 128 G) else Some true) = Some true) as ->.
  { destruct (Z.eqb_spec (zlen D) 0) as [E|]; [|done]. destruct D; [|done]. cbn [app] in *.
    rewrite <- Hv; [f_equal; by rewrite take_app_length'|rewrite length_app; lia]. }
  cbn [obind negb]. rewrite !length_app in Hsz.
  destruct (flash_page_ok f (zlen D) (take 128 G)) as (f' & -> & Hi' & Hf');
    [done|done|by apply Forall_take|done|lia|].
  cbn [obind]. change (HEX_ERR_NONE =? HEX_FILE_END) with false. cbv beta iota.
  pose proof (written_page f0 f f' D (take 128 G) HD Hpl Hf') as HD'.
  rewrite wrapu_small by cint. rewrite <- Nat2Z.inj_add, <- Hpl, <- length_app, Hpl.
  destruct (IH T1 rest (drop 128 G) (D ++ take 128 G) f' Hs1)
    as (used' & rest' & T' & D' & F' & f'' & -> & ? & ? & ? & Hp & HDF & ? & ? & ? & ? & ?); try done.
  - lia.
  - lia.
  - by eapply (get_page_rest T F); [exact Hgp|done|rewrite Hpl|].
  - by apply Forall_drop.
  - rewrite length_app, Hpl, Nat2Z.inj_add. unfold SPM_PAGESIZE in *.
    rewrite <- Zplus_mod_idemp_l, Hal. done.
  - rewrite !length_app. lia.
  - exists (used ++ used'), rest', T', D', F', f''. split_and!; try done; [by rewrite app_assoc|].
    rewrite HDF, image_data_app. rewrite <- !app_assoc. f_equal.
    rewrite (app_assoc (take 128 G)), take_drop. unfold G. by rewrite <- app_assoc.
Qed.

(** ** Totality on arbitrary text *)

Lemma line_of_shrinks text acc l rest :
  line_of text acc = (Some l, rest) -> (length rest + length l <= length text + length acc)%nat.
Proof.
  revert acc. induction text as [|c text IH]; intros acc; simpl; [intros [= <- <-]; simpl; lia|].
  destruct (_ && _).
  - destruct (_ <=? _); [done|]. intros H%IH. rewrite length_app in H. simpl in H. lia.
  - destruct (c =? 10); [destruct (0 <? zlen acc)|destruct (c =? 13)]; [intros [= <- <-]; lia| | |done];
      intros H%IH; lia.
Qed.

Lemma bytes_at_byte n line j : Forall byte (bytes_at n line j).
Proof. revert j. induction n as [|n IH]; intros j; simpl; constructor; [apply ascii2bin_range|apply IH]. Qed.

Lemma record_of_byte line bs ok : record_of line = RData bs ok -> Forall byte bs.
Proof.
  unfold record_of. destruct (negb _); [done|]. destruct (_ || _); [done|].
  destruct (_ =? 0); [intros [= <- _]; apply bytes_at_byte|by destruct (_ =? 1)].
Qed.

Lemma page_of_total fuel text F plen err :
  (length text < fuel)%nat -> Forall byte F ->
  exists text' F' e plen' err', page_of fuel text F plen err = Some (text', F', e, plen', err') /\
    Forall byte F' /\ (length text' <= length text)%nat /\
    (plen' = plen \/ (length text' < length text)%nat).
Proof.
  revert text F plen err. induction fuel as [|fuel IH]; intros text F plen err Hf HF; [lia|].
  cbn [page_of]. destruct (line_of text []) as [[line|] rest] eqn:El.
  2:{ eexists _, _, _, _, _. split; [done|]. auto. }
  apply line_of_shrinks in El. destruct line as [|c line].
  { eexists _, _, _, _, _. split; [done|]. auto. }
  simpl in El. destruct (record_of (c :: line)) as [| |bs ok| |] eqn:Er.
  1, 2: eexists _, _, _, _, _; (split; [done|]); auto.
  - pose proof (record_of_byte _ _ _ Er) as Hbs.
    assert (Forall byte (F ++ bs)) as HFb by (by apply Forall_app). destruct ok.
    + destruct (_ <=? _).
      * eexists _, _, _, _, _. split; [done|]. split_and!; [done|lia|right; lia].
      * destruct (IH rest (F ++ bs) (zlen (F ++ bs)) HEX_ERR_NONE) as (t & G & e & p & r & -> & ? & ? & ?);
          [lia|done|]. eexists _, _, _, _, _. split; [done|]. split_and!; [done|lia|right; lia].
    + eexists _, _, _, _, _. split; [done|]. split_and!; [done|lia|right; lia].
  - eexists _, _, _, _, _. split; [done|]. split_and!; [done|lia|right; lia].
  - destruct (IH rest F plen HEX_ERR_NONE) as (t & G & e & p & r & -> & ? & ? & ?); [lia|done|].
    eexists _, _, _, _, _. split; [done|]. split_and!; [done|lia|right; lia].
Qed.

Lemma valid_loop_total n i base :
  0 <= i -> i + 4 * Z.of_nat n <= zlen base + 2 -> is_Some (valid_loop n i base).
Proof.
  revert i. induction n as [|n IH]; intros i Hi Hl; cbn [valid_loop]; [by eexists|].
  destruct (zget_is_Some base i) as [a ->]; [lia|]. cbn [obind]. destruct (negb _); [by eexists|].
  destruct (zget_is_Some base (i + 1)) as [b ->]; [lia|]. cbn [obind]. destruct (negb _); [by eexists|].
  apply IH; lia.
Qed.

(** A page that is not empty. *)
Lemma get_page_of_some text F text' F' page err :
  get_page_of text F = Some (text', F', page, err) -> zlen text < RING_BUFFER_LEN ->
  Forall byte F -> zlen F < SPM_PAGESIZE -> 0 < zlen page ->
  zlen page <= SPM_PAGESIZE /\ Forall byte page /\ Forall byte F' /\
  (length text' < length text)%nat /\ (err <> HEX_FILE_END -> zlen page = SPM_PAGESIZE).
Proof.
  unfold get_page_of. intros Eg HT HFb HF Hp.
  destruct (page_of_total (Z.to_nat RING_BUFFER_LEN) text F 0 HEX_ERR_EMPTY)
    as (t & G & e & p & r & E & HG & _ & Hcase); [lia|done|].
  destruct (page_of_inv _ _ _ _ _ _ _ _ _ _ E) as (Hpr & _ & Hc); [lia|done|].
  rewrite E in Eg. cbn [obind] in Eg. injection Eg as <- <- <- <-.
  rewrite length_take in *. unfold HEX_ERR_NONE, HEX_ERR_LINE, HEX_FILE_END in *.
  split_and!; [|by apply Forall_take|by apply Forall_drop| |].
  - destruct (_ <=? _); lia.
  - destruct Hcase as [->|]; [|done]. exfalso. destruct (_ <=? _); lia.
  - destruct (e && (0 <? p)) eqn:Ee; [rewrite (proj2 (Z.leb_gt 0 (-3))) in Hp by lia; lia|]. intros Hne.
    destruct Hc as [->|[?|[?|[-> ?]]]];
      [|rewrite (proj2 (Z.leb_gt 0 r)) in Hp by lia; lia|done|rewrite Z.leb_refl; unfold SPM_PAGESIZE in *; lia].
    cbn [andb] in Ee. apply Z.ltb_ge in Ee. destruct (0 <=? r); lia.
Qed.

Lemma get_page_of_is_Some text F :
  zlen text < RING_BUFFER_LEN -> Forall byte F -> is_Some (get_page_of text F).
Proof.
  intros HT HF. unfold get_page_of.
  destruct (page_of_total (Z.to_nat RING_BUFFER_LEN) text F 0 HEX_ERR_EMPTY)
    as (t & G & e & p & r & -> & _); [lia|done|]. by eexists.
Qed.

Lemma validImage_total package : length package = 128%nat -> is_Some (validImage package).
Proof. intros H. apply valid_loop_total; lia. Qed.

Lemma next_page_aligned addr :
  addr mod SPM_PAGESIZE = 0 -> u16 (addr + SPM_PAGESIZE) mod SPM_PAGESIZE = 0.
Proof.
  unfold wrapu, SPM_PAGESIZE. intros Hal. change (2 ^ 16) with (512 * 128).
  rewrite Z.mod_mod_divide by apply Z.divide_factor_r. rewrite <- Zplus_mod_idemp_l, Hal. done.
Qed.

Lemma process_of_total fuel text F addr f :
  (length text < fuel)%nat -> zlen text < RING_BUFFER_LEN -> Forall byte F -> zlen F < SPM_PAGESIZE ->
  flash_idle f -> addr mod SPM_PAGESIZE = 0 -> 0 <= addr < 65536 ->
  is_Some (process_of fuel text F addr f).
Proof.
  revert text F addr f. induction fuel as [|fuel IH]; intros text F addr f Hf HT HFb HF Hi Hal Ha; [lia|].
  cbn [process_of].
  destruct (get_page_of_is_Some text F HT HFb) as [[[[text1 F1] page] err] Eg]. rewrite Eg.
  pose proof (fun H1 H2 => get_page_rest _ _ _ _ _ _ Eg HF H1 H2) as Hrest.
  cbn [obind]. destruct (Z.ltb_spec 0 (zlen page)) as [Hp|]; [|destruct (_ || _); by eexists].
  destruct (get_page_of_some _ _ _ _ _ _ Eg HT HFb HF Hp) as (Hpl & Hpb & HF1 & Hlt & Hfull).
  set (package := page ++ _). assert (length package = 128%nat) as Hpkg
    by (unfold package; rewrite length_app, length_replicate; unfold SPM_PAGESIZE in *; lia).
  assert (Forall byte package) as Hkb.
  { apply Forall_app. split; [done|]. apply Forall_replicate. unfold byte. lia. }
  assert (is_Some (if addr =? 0 then validImage package else Some true)) as [ok ->]
    by (destruct (addr =? 0); [by apply validImage_total|by eexists]).
  cbn [obind]. destruct ok; cbn [negb]; [|by eexists].
  destruct (flash_page_ok f addr package Hi Hpkg Hkb Hal Ha) as (f' & -> & Hi' & _). cbn [obind].
  destruct (Z.eqb_spec err HEX_FILE_END); [by eexists|]. rewrite Hfull by done.
  apply IH; [lia|lia|done|by apply Hrest|done| |].
  - by apply next_page_aligned.
  - pose proof (wrapu_bound 16 (addr + SPM_PAGESIZE)). cint.
Qed.

(** ** The main results *)

(** The buffers have their sizes and no page write is in progress. *)
Definition loader_ok (s : loader) : Prop :=
  zlen (g_ring_buffer s) = RING_BUFFER_LEN /\ zlen (g_page_fifo s) = PAGE_FIFO_LEN /\
  flash_idle (g_flash s).

Lemma init_rel s : loader_ok s -> loader_rel (ihex_init s) [] [] 0 (g_flash s).
Proof. intros (Hr & Hf & _). split; [|done]. constructor; [by constructor|done|by constructor|done]. Qed.

(** C25: the loader's ring buffer and FIFO implement queues.  On a packet of
    arbitrary bytes that fits the ring, [ihex_package_process] stays within
    its buffers, returns, and does exactly what the same parser does on plain
    lists of pending text and pending page bytes. *)
Theorem ihex_refines_queues s text F addr f package :
  loader_rel s text F addr f -> zlen text + zlen package < RING_BUFFER_LEN ->
  zlen F < SPM_PAGESIZE -> Forall byte F -> flash_idle f ->
  addr mod SPM_PAGESIZE = 0 -> 0 <= addr < 65536 ->
  exists s' text' F' addr' f' r,
    process_of (Z.to_nat RING_BUFFER_LEN) (text ++ package) F addr f = Some (text', F', addr', f', r) /\
    ihex_package_process s package = Some (s', r) /\ loader_rel s' text' F' addr' f'.
Proof.
  intros (Hrel & Ha & Hfl) Hlen HF HFb Hi Hal Haddr. unfold ihex_package_process.
  destruct (push_back_ok package s text F Hrel Hlen) as (s1 & -> & Hrel1 & Ha1 & Hf1). cbn [obind].
  destruct (process_of_total (Z.to_nat RING_BUFFER_LEN) (text ++ package) F addr f)
    as [[[[[text' F'] addr'] f'] r] Hp]; [rewrite length_app; lia..|done|done|done|done|done|].
  pose proof (process_loop_ok (Z.to_nat RING_BUFFER_LEN) s1 (text ++ package) F addr f) as Hl.
  rewrite Hp in Hl. destruct Hl as (s' & Hs' & Hr'); [split; [done|]; split; congruence|done|].
  by exists s', text', F', addr', f', r.
Qed.

Fixpoint process_packets (s : loader) (pkts : list (list Z)) : option (loader * list Z) :=
  match pkts with
  | [] => Some (s, [])
  | p :: pkts =>
      let? (s, r) := ihex_package_process s p in
      let? (s, rs) := process_packets s pkts in
      Some (s, r :: rs)
  end.

Lemma packets_stream pkts U s T recs F D f0 f :
  loader_rel s T F (zlen D) f -> stream T (concat pkts ++ U) recs -> zlen T <= 76 ->
  Forall (fun p => zlen p <= TFTP_MAX_PAYLOAD) pkts ->
  zlen F < SPM_PAGESIZE -> Forall byte F -> flash_idle f -> written f0 f D -> zlen D mod SPM_PAGESIZE = 0 ->
  first_page_ok (D ++ F ++ image_data recs) -> zlen (D ++ F ++ image_data recs) < 65536 ->
  (pkts = [] -> U = [] -> recs = []) ->
  exists s' used rest D' F', process_packets s pkts = Some (s', replicate (length pkts) 0) /\
    recs = used ++ rest /\ D' ++ F' = D ++ F ++ image_data used /\ zlen F' < SPM_PAGESIZE /\
    g_writeAddr s' = zlen D' /\ written f0 (g_flash s') D' /\ zlen D' mod SPM_PAGESIZE = 0 /\
    (U = [] -> rest = []).
Proof.
  revert s T recs F D f. induction pkts as [|p pkts IH];
    intros s T recs F D f Hrel Hs HT Hp HF HFb Hi HD Hal Hv Hsz Hend; cbn [process_packets].
  { exists s, [], recs, D, F. destruct Hrel as (_ & Ha & <-). split_and!; try done; [by rewrite app_nil_r|auto]. }
  apply Forall_cons in Hp as [Hp Hps]. unfold TFTP_MAX_PAYLOAD in Hp.
  destruct Hrel as (Hrel & Ha & Hfl). unfold ihex_package_process.
  destruct (push_back_ok p s T F Hrel) as (s1 & -> & Hrel1 & Ha1 & Hf1).
  { unfold RING_BUFFER_LEN, TFTP_MAX_PAYLOAD. lia. }
  cbn [obind]. assert (stream (T ++ p) (concat pkts ++ U) recs) as Hs1.
  { destruct Hs as [Hall (pre & Hpre & E)]. split; [done|]. exists pre. split; [done|].
    rewrite <- E. simpl. by rewrite <- !app_assoc. }
  destruct (process_of_stream (Z.to_nat RING_BUFFER_LEN) (T ++ p) (concat pkts ++ U) recs F D f0 f Hs1)
    as (used & rest & T' & D' & F' & f' & -> & Hs' & HT' & HU' & Hpr & HDF & HF' & HFb' & Hi' & HD' & Hal');
    try done; [unfold RING_BUFFER_LEN, TFTP_MAX_PAYLOAD; rewrite length_app; lia..|].
  pose proof (process_loop_ok (Z.to_nat RING_BUFFER_LEN) s1 (T ++ p) F (zlen D) f) as Hl.
  rewrite Hpr in Hl. destruct Hl as (s2 & -> & Hrel2); [split; [done|]; split; congruence|done|].
  cbn [obind]. rewrite image_data_app in *.
  assert (D ++ F ++ image_data used ++ image_data rest = D' ++ F' ++ image_data rest) as Hall
    by (rewrite (app_assoc D'), HDF, <- !app_assoc; done).
  rewrite Hall in Hv, Hsz.
  destruct (IH s2 T' rest F' D' f' Hrel2 Hs' HT' Hps HF' HFb' Hi' HD' Hal' Hv Hsz)
    as (s3 & used' & rest' & D'' & F'' & -> & -> & HDF' & ? & ? & ? & ? & ?).
  { intros -> ->. by apply HU'. }
  cbn [obind]. exists s3, (used ++ used'), rest', D'', F''. split_and!; try done; [by rewrite app_assoc|].
  rewrite HDF', app_assoc, HDF, image_data_app, <- !app_assoc. done.
Qed.

(** C26: an upload writes the image and nothing else.  When the text of any
    sequence of data records is received in packets of at most 512 bytes cut
    at arbitrary places, every packet is accepted, the flash holds the leading
    bytes of the image up to the write address, which is a multiple of the
    page size, and every cell from there on is as it was before the upload;
    once all the text has been received every full page of the image has been
    written.

    Conditions: records carry 1 to 32 bytes; when the first page is complete
    it starts with the jump table [validImage] asks for (otherwise the packet
    that completes it is refused); the image fits the application part of the
    flash, [MAX_ADDR] bytes, a limit the code itself does not check
    ([boot_section_overwritten]); the buffers have their sizes and no page
    write is in progress at the start. *)
Theorem upload_writes_image s pkts U recs :
  loader_ok s -> Forall rec_ok recs -> concat pkts ++ U = image_text recs ->
  Forall (fun p => zlen p <= TFTP_MAX_PAYLOAD) pkts ->
  first_page_ok (image_data recs) -> zlen (image_data recs) <= MAX_ADDR -> pkts <> [] ->
  exists s', process_packets (ihex_init s) pkts = Some (s', replicate (length pkts) 0) /\
    g_writeAddr s' mod SPM_PAGESIZE = 0 /\ g_writeAddr s' <= zlen (image_data recs) /\
    (forall a x, image_data recs !! a = Some x -> Z.of_nat a < g_writeAddr s' ->
       read_cell (g_flash s') (Z.of_nat a) = x) /\
    (forall a, g_writeAddr s' <= a -> read_cell (g_flash s') a = read_cell (g_flash s) a) /\
    (U = [] -> g_writeAddr s' = zlen (image_data recs) / SPM_PAGESIZE * SPM_PAGESIZE).
Proof.
  intros Hs Hrec Htext Hp Hv Hsz Hne. unfold MAX_ADDR in Hsz.
  destruct (packets_stream pkts U (ihex_init s) [] recs [] [] (g_flash s) (g_flash s) (init_rel s Hs))
    as (s' & used & rest & D & F & Hpr & -> & HDF & HF & Ha & [HD Hrest] & Hal & HU); try done.
  { split; [done|]. exists []. split; [by left|done]. }
  { apply Hs. }
  { cbn [app]. lia. }
  exists s'. rewrite Ha, image_data_app, length_app. cbn [app] in HDF.
  assert (length D + length F = length (image_data used))%nat as Hlen by (by rewrite <- HDF, length_app).
  split_and!; [done|done|lia| | |].
  - intros a x Hx Hlt. apply HD. rewrite <- HDF, <- app_assoc in Hx. by rewrite lookup_app_l in Hx by lia.
  - intros a Hge. apply Hrest. lia.
  - intros ->. rewrite (HU eq_refl). change (image_data []) with (@nil Z). cbn [length].
    unfold SPM_PAGESIZE in *. pose proof (Z.div_mod (zlen D) 128 ltac:(lia)).
    replace (Z.of_nat (length (image_data used) + 0)) with (zlen F + zlen D / 128 * 128) by lia.
    rewrite Z.div_add, Z.div_small by lia. lia.
Qed.

(** ** An upload *)

(** A blank device. *)
Definition blank : loader :=
  Loader (replicate 592 0) 0 0 0 (replicate 256 0) 0 0 0 (Flash ∅ (replicate 128 255)).

Lemma blank_ok : loader_ok blank.
Proof. by split_and!. Qed.

(** A page that starts with a jump table, as eight records. *)
Definition vector_page : list Z :=
  concat (replicate 13 [12; 148; 52; 0]) ++ (Z.of_nat <$> seq 1 76).

Fixpoint records_of (addr : Z) (n : nat) (bs : list Z) : list (Z * list Z) :=
  match n with
  | O => []
  | S n => (addr, take 16 bs) :: records_of (addr + 16) n (drop 16 bs)
  end.

Definition page_recs : list (Z * list Z) := records_of 0 8 vector_page.
Definition page_text : list Z := image_text page_recs.

Lemma page_recs_ok : Forall rec_ok page_recs.
Proof.
  assert (bool_decide (Forall (fun r : Z * list Z => (0 <= r.1 < 65536 /\ 1 <= zlen r.2 <= 32) /\
    Forall (fun b => 0 <= b < 256) r.2) page_recs) = true) as H
    by (vm_compute; reflexivity).
  apply bool_decide_eq_true in H. eapply Forall_impl; [exact H|]. intros r [[? ?] ?]. unfold rec_ok, byte. auto.
Qed.

Lemma upload_writes_image_witness :
  exists s', process_packets (ihex_init blank) [take 100 page_text; drop 100 page_text] =
      Some (s', [0; 0]) /\
    g_writeAddr s' mod SPM_PAGESIZE = 0 /\ g_writeAddr s' <= zlen (image_data page_recs) /\
    (forall a x, image_data page_recs !! a = Some x -> Z.of_nat a < g_writeAddr s' ->
       read_cell (g_flash s') (Z.of_nat a) = x) /\
    (forall a, g_writeAddr s' <= a -> read_cell (g_flash s') a = read_cell (g_flash blank) a) /\
    (@nil Z = [] -> g_writeAddr s' = zlen (image_data page_recs) / SPM_PAGESIZE * SPM_PAGESIZE).
Proof.
  apply (upload_writes_image blank [take 100 page_text; drop 100 page_text] [] page_recs).
  - apply blank_ok.
  - apply page_recs_ok.
  - by vm_compute.
  - repeat constructor; by vm_compute.
  - intros _. by vm_compute.
  - by vm_compute.
  - done.
Defined.

Lemma ihex_refines_queues_witness :
  exists s' text' F' addr' f' r,
    process_of (Z.to_nat RING_BUFFER_LEN) (take 100 page_text) [] 0 (g_flash blank) =
      Some (text', F', addr', f', r) /\
    ihex_package_process (ihex_init blank) (take 100 page_text) = Some (s', r) /\
    loader_rel s' text' F' addr' f'.
Proof.
  apply (ihex_refines_queues (ihex_init blank) [] [] 0 (g_flash blank)).
  - apply init_rel, blank_ok.
  - by vm_compute.
  - done.
  - constructor.
  - done.
  - done.
  - lia.
Defined.

(** The write address is never compared with [MAX_ADDR]: a page that arrives
    when all of the application part has been written goes over the boot
    loader's own. *)
Example boot_section_overwritten :
  let full := set_write (ihex_init blank) MAX_ADDR (Flash (program ∅ MAX_ADDR (replicate 128 170)) (replicate 128 255)) in
  exists s, process_packets full [page_text] = Some (s, [0]) /\
    read_cell (g_flash full) MAX_ADDR = 170 /\
    (fun i => read_cell (g_flash s) (MAX_ADDR + Z.of_nat i)) <$> seq 0 128 = vector_page.
Proof. eexists. split; [vm_compute; reflexivity|]. by vm_compute. Qed.

(** The end-of-file record. *)
Definition end_text : list Z := bytes_of_string ":00000001FF" ++ CRLF.

(** An image whose last page is full is written, but its end record finds no
    pending page and the upload is then answered with an error. *)
Lemma full_page_image_rejected :
  exists s, process_packets (ihex_init blank) [page_text ++ end_text] = Some (s, [-2]) /\
    g_writeAddr s = 128 /\
    (fun a => read_cell (g_flash s) (Z.of_nat a)) <$> seq 0 128 = vector_page.
Proof. eexists. split; [vm_compute; reflexivity|]. by vm_compute. Qed.

(** An image that ends inside a page is padded, written and accepted. *)
Lemma partial_page_image_accepted :
  exists s, process_packets (ihex_init blank) [image_text (records_of 0 7 vector_page) ++ end_text] =
      Some (s, [1]) /\
    (fun a => read_cell (g_flash s) (Z.of_nat a)) <$> seq 0 128 =
      take 112 vector_page ++ replicate 16 255.
Proof. eexists. split; [vm_compute; reflexivity|]. by vm_compute. Qed.

End IhexProofs.
