(* ===== verification/Tftp.v ===== *)
(** * tftp.c, net.c, tftp_main.c: the TFTP server of the boot loader

    The firmware talks to a W5100 Ethernet chip through byte-wide registers;
    socket 3 has 2 KiB of receive and of transmit memory, each used as a
    ring.  Received data blocks go to the HEX loader of [Ihex]. *)

From S2P Require Import Prelude Ihex IhexSpec.
Import Ihex.

Module Tftp.

Definition REG_S3_MR : Z := 0x700.
Definition REG_S3_CR : Z := 0x701.
Definition REG_S3_SR : Z := 0x703.
Definition REG_S3_PORT0 : Z := 0x704.
Definition REG_S3_DIPR0 : Z := 0x70C.
Definition REG_S3_TX_WR0 : Z := 0x724.
Definition REG_S3_RX_RSR0 : Z := 0x726.
Definition REG_S3_RX_RD0 : Z := 0x728.
Definition S3_TX_START : Z := 0x5800.
Definition S3_TX_END : Z := 0x6000.
Definition S3_RX_START : Z := 0x7800.
Definition MR_UDP : Z := 2.
Definition CR_OPEN : Z := 1.
Definition CR_CLOSE : Z := 0x10.
Definition CR_SEND : Z := 0x20.
Definition CR_RECV : Z := 0x40.
Definition SOCK_UDP : Z := 0x22.

Definition TFTP_OPCODE_WRQ : Z := 2.
Definition TFTP_OPCODE_DATA : Z := 3.
Definition TFTP_OPCODE_ACK : Z := 4.
Definition TFTP_OPCODE_ERROR : Z := 5.
Definition TFTP_PORT : Z := 69.
Definition TFTP_DATA_SIZE : Z := 512.
Definition TFTP_PACKET_MAX_SIZE : Z := 12 + 2 + 2 + 512.
Definition TIMEOUT : Z := 28.

(** The response codes. *)
Definition ERROR_UNKNOWN : Z := 0.
Definition ERROR_INVALID : Z := 1.
Definition ACK : Z := 2.
Definition ERROR_FULL : Z := 3.
Definition FINAL_ACK : Z := 4.
Definition INVALID_IMAGE : Z := 5.

Definition tftp_opcode_error_packet : list Z := [0; 5; 0; 4] ++ bytes_of_string "Opcode?" ++ [0].
Definition tftp_full_error_packet : list Z := [0; 5; 0; 3] ++ bytes_of_string "Flash Full" ++ [0].
Definition tftp_unknown_error_packet : list Z := [0; 5; 0; 0] ++ bytes_of_string "Error" ++ [0].
Definition tftp_invalid_image_packet : list Z := [0; 5; 0; 0] ++ bytes_of_string "Invalid image" ++ [0].

(** ** The chip

    A register access over SPI. *)
Class W5100 (chip : Type) := {
  netReadReg : chip -> Z -> chip * Z;
  netWriteReg : chip -> Z -> Z -> chip
}.

Section Server.
Context {chip : Type} `{!W5100 chip}.

(** How often a status register is polled before the firmware is considered
    to hang. *)
Context (polls : nat).

Definition netReadWord (w : chip) (address : Z) : chip * Z :=
  let (w, H) := netReadReg w address in
  let (w, L) := netReadReg w (u16 (address + 1)) in
  (w, u16 ((H ≪ 8) |. L)).

Definition netWriteWord (w : chip) (address value : Z) : chip :=
  let w := netWriteReg w address (u8 (value ≫ 8)) in
  netWriteReg w (u16 (address + 1)) (value &. 255).

(** [while (netReadReg(address));] *)
Fixpoint wait_clear (n : nat) (w : chip) (address : Z) : option chip :=
  match n with
  | O => None
  | S n => let (w, r) := netReadReg w address in if r =? 0 then Some w else wait_clear n w address
  end.

Record tftp := State {
  hw : chip;
  hex : loader;
  lastPacket : Z;
  DownloadStarted : Z;
  tick : Z
}.

Definition set_hw (s : tftp) (w : chip) : tftp :=
  State w (hex s) (lastPacket s) (DownloadStarted s) (tick s).
Definition set_hex (s : tftp) (h : loader) : tftp :=
  State (hw s) h (lastPacket s) (DownloadStarted s) (tick s).
Definition set_last (s : tftp) (b : Z) : tftp :=
  State (hw s) (hex s) b (DownloadStarted s) (tick s).
Definition set_started (s : tftp) (b : Z) : tftp :=
  State (hw s) (hex s) (lastPacket s) b (tick s).
Definition set_tick (s : tftp) (t : Z) : tftp :=
  State (hw s) (hex s) (lastPacket s) (DownloadStarted s) t.

(** ** Receiving *)

(** The copy loop: [n] bytes from the receive ring. *)
Fixpoint read_loop (n : nat) (w : chip) (readPointer : Z) : chip * list Z :=
  match n with
  | O => (w, [])
  | S n =>
      let (w, b) := netReadReg w (u16 (S3_RX_START + readPointer)) in
      let p := u16 (readPointer + 1) in
      let p := if p =? 0x800 then 0 else p in
      let (w, bs) := read_loop n w p in
      (w, b :: bs)
  end.

(** Where the packet starts in the receive memory. *)
Definition rx_offset (readPointer : Z) : Z :=
  if 0x800 <? readPointer then readPointer &. 0x7FF else readPointer.

(** The first part of [processPacket]: the packet is copied to the stack
    buffer and its space in the chip released.  The packet's size, the
    8-byte header included, comes from the chip's header. *)
Definition receive_packet (w : chip) : option (chip * list Z * Z) :=
  let (w, base) := netReadWord w REG_S3_RX_RD0 in
  let readPointer := rx_offset base in
  let (w, H) := netReadReg w (u16 (readPointer + S3_RX_START + 6)) in
  let (w, L) := netReadReg w (u16 (readPointer + S3_RX_START + 7)) in
  let UDPPacketSize := u16 ((H ≪ 8) + L + 8) in
  let count := u16 (UDPPacketSize + 1) in
  if TFTP_PACKET_MAX_SIZE <? count then None
  else
    let (w, buffer) := read_loop (Z.to_nat count) w readPointer in
    let w := netWriteWord w REG_S3_RX_RD0 (u16 (UDPPacketSize + base)) in
    let w := netWriteReg w REG_S3_CR CR_RECV in
    let? w := wait_clear polls w REG_S3_CR in
    Some (w, buffer, UDPPacketSize).

(** Set up the return address. *)
Fixpoint write_regs (w : chip) (address : Z) (bs : list Z) : chip :=
  match bs with
  | [] => w
  | b :: bs => write_regs (netWriteReg w address b) (u16 (address + 1)) bs
  end.

(** [do { ... } while (netReadReg(REG_S3_SR) != SOCK_UDP)] around the given
    set-up of mode and port. *)
Fixpoint open_socket (n : nat) (w : chip) (setup : chip -> chip) : option chip :=
  match n with
  | O => None
  | S n =>
      let w := setup w in
      let (w, r) := netReadReg w REG_S3_SR in
      let w := if r =? SOCK_UDP then w else netWriteReg w REG_S3_CR CR_CLOSE in
      let (w, r) := netReadReg w REG_S3_SR in
      if r =? SOCK_UDP then Some w else open_socket n w setup
  end.

(** The port the transfer moves to. *)
Definition tid (buffer : list Z) : option Z :=
  let? b4 := zget buffer 4 in
  let? b5 := zget buffer 5 in
  Some (u16 ((b4 ≪ 8) |. ~. b5)).

Definition processPacket (s : tftp) : option (tftp * Z) :=
  let? (w, buffer, UDPPacketSize) := receive_packet (hw s) in
  let w := write_regs w REG_S3_DIPR0 (take 6 buffer) in
  let s := set_hw s w in
  let? b8 := zget buffer 8 in
  let? b9 := zget buffer 9 in
  let? b10 := zget buffer 10 in
  let? b11 := zget buffer 11 in
  let tftpOpcode := u16 ((b8 ≪ 8) + b9) in
  let tftpBlock := u16 ((b10 ≪ 8) + b11) in
  if tftpOpcode =? TFTP_OPCODE_WRQ then
    let w := netWriteReg (hw s) REG_S3_CR CR_RECV in
    let w := netWriteReg w REG_S3_CR CR_CLOSE in
    let? port := tid buffer in
    let? w := open_socket polls w (fun w =>
      netWriteWord (netWriteReg (netWriteReg w REG_S3_MR MR_UDP) REG_S3_CR CR_OPEN)
        REG_S3_PORT0 port) in
    Some (set_last (set_hw s w) 0, ACK)
  else if tftpOpcode =? TFTP_OPCODE_DATA then
    let s := set_last s tftpBlock in
    let len := u16 (UDPPacketSize - 12) in
    (* the loader copies [len] bytes from the buffer and then uses its first page *)
    if zlen buffer <? 12 + len then None
    else
      let? (h, r) := ihex_package_process (hex s) (take (Z.to_nat len) (drop 12 buffer)) in
      let s := set_hex s h in
      if r <? 0 then Some (s, INVALID_IMAGE)
      else if len <? TFTP_DATA_SIZE then Some (s, FINAL_ACK)
      else Some (s, ACK)
  else if (tftpOpcode =? TFTP_OPCODE_ACK) || (tftpOpcode =? TFTP_OPCODE_ERROR)
  then Some (s, ERROR_UNKNOWN)
  else Some (s, ERROR_INVALID).

(** ** Answering *)

Definition response_packet (s : tftp) (response : Z) : list Z :=
  if response =? INVALID_IMAGE then tftp_invalid_image_packet
  else if response =? ERROR_INVALID then tftp_opcode_error_packet
  else if response =? ERROR_FULL then tftp_full_error_packet
  else if (response =? ACK) || (response =? FINAL_ACK) then
    [TFTP_OPCODE_ACK ≫ 8; TFTP_OPCODE_ACK &. 255; lastPacket s ≫ 8; lastPacket s &. 255]
  else tftp_unknown_error_packet.

Fixpoint write_loop (w : chip) (writePointer : Z) (bs : list Z) : chip * Z :=
  match bs with
  | [] => (w, writePointer)
  | b :: bs =>
      let w := netWriteReg w writePointer b in
      let p := u16 (writePointer + 1) in
      write_loop w (if p =? S3_TX_END then S3_TX_START else p) bs
  end.

Definition sendResponse (s : tftp) (response : Z) : option tftp :=
  let (w, p) := netReadWord (hw s) REG_S3_TX_WR0 in
  let writePointer := u16 (p + S3_TX_START) in
  let (w, writePointer) := write_loop w writePointer (response_packet s response) in
  let w := netWriteWord w REG_S3_TX_WR0 (u16 (writePointer - S3_TX_START)) in
  let w := netWriteReg w REG_S3_CR CR_SEND in
  let? w := wait_clear polls w REG_S3_CR in
  Some (set_hw s w).

(** ** The main loop *)

(** The set-up in the loop of [tftpInit]: port, mode, open. *)
Definition tftp_setup (w : chip) : chip :=
  netWriteReg (netWriteReg (netWriteWord w REG_S3_PORT0 TFTP_PORT) REG_S3_MR MR_UDP) REG_S3_CR CR_OPEN.

Definition tftpInit (s : tftp) : option tftp :=
  let s := set_hex (set_started (set_last s 0) 0) (ihex_init (hex s)) in
  let? w := open_socket polls (hw s) tftp_setup in
  Some (set_hw s w).

(** The first word of the flash is blank when there is no application. *)
Definition timedOut (s : tftp) : bool :=
  let f := g_flash (hex s) in
  if (read_cell f 0 |. (read_cell f 1 ≪ 8)) =? 0xFFFF then false
  else TIMEOUT <? tick s.

Definition ResetTick (s : tftp) : tftp := set_tick s 0.

Definition erase_first_page (s : tftp) : tftp :=
  let h := hex s in
  set_hex s (set_write h (g_writeAddr h) (boot_page_erase (g_flash h) 0)).

(** 0: start the application; 1: go on. *)
Definition tftpPoll (s : tftp) : option (tftp * Z) :=
  let (w, packetSize) := netReadWord (hw s) REG_S3_RX_RSR0 in
  let s := set_hw s w in
  let? (s, response) :=
    if packetSize =? 0 then Some (s, ACK)
    else
      let? (s, response) := processPacket s in
      let? s := sendResponse s response in
      Some (ResetTick (set_started s 1), response) in
  if negb (packetSize =? 0) && (response =? FINAL_ACK) then
    Some (set_hw s (netWriteReg (hw s) REG_S3_CR CR_CLOSE), 0)
  else if timedOut s && negb (DownloadStarted s =? 0) then
    let s := set_hw s (netWriteReg (hw s) REG_S3_CR CR_CLOSE) in
    let s := erase_first_page (set_started s 0) in
    let? s := tftpInit s in
    Some (s, 1)
  else if timedOut s && (DownloadStarted s =? 0) then
    Some (set_hw s (netWriteReg (hw s) REG_S3_CR CR_CLOSE), 0)
  else Some (s, 1).

End Server.
Arguments tftp : clear implicits.
Arguments State {chip}.

(** ** What the firmware relies on of the chip *)

(** The rings and the ring pointers. *)
Definition ring_address (a : Z) : Prop :=
  S3_TX_START <= a < S3_TX_END \/ S3_RX_START <= a < S3_RX_START + 0x800 \/
  a = REG_S3_TX_WR0 \/ a = REG_S3_TX_WR0 + 1 \/ a = REG_S3_RX_RD0 \/ a = REG_S3_RX_RD0 + 1.

(** Reads do not disturb the rings and return what they hold; a write
    changes, of the rings and their pointers, its own address only; the
    receive and send commands are accepted within [polls] reads of the command
    register and leave the rings as they are. *)
Class W5100Spec (chip : Type) `{W5100 chip} (polls : nat) := {
  mem : chip -> Z -> Z;
  mem_byte : forall w a, 0 <= mem w a < 256;
  read_value : forall w a, ring_address a -> (netReadReg w a).2 = mem w a;
  read_stable : forall w a b, mem (netReadReg w a).1 b = mem w b;
  write_value : forall w a v, ring_address a -> 0 <= v < 256 -> mem (netWriteReg w a v) a = v;
  write_stable : forall w a v b, a <> b -> ring_address b -> mem (netWriteReg w a v) b = mem w b;
  command_done : forall w v, v = CR_RECV \/ v = CR_SEND ->
    exists w', wait_clear polls (netWriteReg w REG_S3_CR v) REG_S3_CR = Some w' /\
      forall b, ring_address b -> mem w' b = mem w b
}.

Section Rings.
Context {chip : Type} `{!W5100 chip} (polls : nat) `{!W5100Spec chip polls}.
Implicit Types w : chip.

Definition rx w (i : Z) : Z := mem (polls := polls) w (S3_RX_START + i mod 0x800).
Definition tx w (i : Z) : Z := mem (polls := polls) w (S3_TX_START + i mod 0x800).

Abbreviation cell w a := (mem (polls := polls) w a).
Abbreviation word w a := (cell w a * 256 + cell w (a + 1)).

Lemma word_of_bytes h l : 0 <= h < 256 -> 0 <= l < 256 -> u16 ((h ≪ 8) |. l) = h * 256 + l.
Proof.
  intros Hh Hl. rewrite Z.lor_comm, lor_shiftl_add by done. change (2 ^ 8) with 256.
  rewrite wrapu_small by cint. lia.
Qed.

Lemma read_word w a :
  ring_address a -> ring_address (a + 1) -> 0 <= a < 65535 ->
  (netReadWord w a).2 = word w a /\ forall b, cell (netReadWord w a).1 b = cell w b.
Proof.
  intros Ha Ha' Hr. unfold netReadWord. rewrite wrapu_small by cint.
  pose proof (read_value w a Ha) as E1. pose proof (read_stable w a) as S1.
  destruct (netReadReg w a) as [w1 H]. cbn [fst snd] in *.
  pose proof (read_value w1 (a + 1) Ha') as E2. pose proof (read_stable w1 (a + 1)) as S2.
  destruct (netReadReg w1 (a + 1)) as [w2 L]. cbn [fst snd] in *. subst H L.
  rewrite S1. split; [apply word_of_bytes; apply mem_byte|]. intros b. by rewrite S2, S1.
Qed.

Lemma write_word w a v :
  ring_address a -> ring_address (a + 1) -> 0 <= a < 65535 -> 0 <= v < 65536 ->
  word (netWriteWord w a v) a = v /\
  forall b, b <> a -> b <> a + 1 -> ring_address b -> cell (netWriteWord w a v) b = cell w b.
Proof.
  intros Ha Ha' Hr Hv. unfold netWriteWord. rewrite (wrapu_small 16 (a + 1)) by cint.
  assert (u8 (v ≫ 8) = v / 256) as ->.
  { rewrite Z.shiftr_div_pow2 by done. apply wrapu_small. change (2 ^ 8) with 256.
    split; [apply Z.div_pos; lia|apply Z.div_lt_upper_bound; lia]. }
  change 255 with (2 ^ 8 - 1). rewrite land_pow2_mask by done. change (2 ^ 8) with 256.
  pose proof (Z.mod_pos_bound v 256 ltac:(lia)). pose proof (Z.div_mod v 256 ltac:(lia)).
  assert (0 <= v / 256 < 256) by (split; [apply Z.div_pos; lia|apply Z.div_lt_upper_bound; lia]).
  split.
  - rewrite (write_value _ (a + 1)), (write_stable _ (a + 1) _ a), (write_value _ a) by (done || lia). lia.
  - intros b Hb Hb' Hra. by rewrite !write_stable by done.
Qed.

Lemma read_loop_ok n w p :
  0 <= p < 0x800 ->
  (read_loop n w p).2 = (fun i => rx w (p + Z.of_nat i)) <$> seq 0 n /\
  forall b, cell (read_loop n w p).1 b = cell w b.
Proof.
  revert w p. induction n as [|n IH]; intros w p Hp; cbn [read_loop]; [done|].
  rewrite (wrapu_small 16 (S3_RX_START + p)) by (unfold S3_RX_START; cint).
  assert (ring_address (S3_RX_START + p)) as Hra by (right; left; lia).
  pose proof (read_value w _ Hra) as E1. pose proof (read_stable w (S3_RX_START + p)) as S1.
  destruct (netReadReg w (S3_RX_START + p)) as [w1 x]. cbn [fst snd] in *. subst x.
  rewrite (wrapu_small 16 (p + 1)) by cint.
  set (p' := if p + 1 =? 0x800 then 0 else p + 1).
  assert (0 <= p' < 0x800 /\ forall i, (p' + i) mod 0x800 = (p + 1 + i) mod 0x800) as [Hp' Hmod].
  { unfold p'. destruct (Z.eqb_spec (p + 1) 0x800) as [E|E]; [|split; [lia|done]].
    split; [lia|]. intros i. rewrite E. symmetry. rewrite <- (Z.mod_add (0 + i) 1) by lia. f_equal. lia. }
  destruct (IH w1 p' Hp') as [E2 S2]. destruct (read_loop n w1 p') as [w2 bs]. cbn [fst snd] in *.
  split; [|intros b; by rewrite S2, S1]. rewrite E2. cbn [seq fmap list_fmap]. f_equal.
  - unfold rx. by rewrite Z.add_0_r, Z.mod_small.
  - rewrite <- fmap_S_seq, <- list_fmap_compose. apply list_fmap_ext. intros _ i _. unfold rx, compose.
    rewrite Hmod. replace (p + 1 + Z.of_nat i) with (p + Z.of_nat (S i)) by lia. apply S1.
Qed.

(** A received packet is the content of the receive ring.  Unless the
    read pointer is exactly 0x800 or the header straddles the end of the
    ring, and for packets that fit the stack buffer, the buffer holds the
    packet's bytes in order, across the end of the ring, and the read pointer
    is moved past the packet. *)
Theorem receive_packet_reads_ring w base size :
  word w REG_S3_RX_RD0 = base -> base <> 0x800 -> base mod 0x800 + 8 <= 0x800 ->
  size = rx w (base + 6) * 256 + rx w (base + 7) + 8 -> size < TFTP_PACKET_MAX_SIZE ->
  exists w', receive_packet polls w =
      Some (w', (fun i => rx w (base + Z.of_nat i)) <$> seq 0 (Z.to_nat (size + 1)), size) /\
    word w' REG_S3_RX_RD0 = u16 (size + base).
Proof.
  intros Hbase Hne Hroom Hsize Hmax.
  pose proof (mem_byte (polls := polls) w REG_S3_RX_RD0). pose proof (mem_byte (polls := polls) w (REG_S3_RX_RD0 + 1)).
  assert (0 <= base < 65536) as Hb by lia.
  assert (rx_offset base = base mod 0x800) as Hoff.
  { unfold rx_offset. destruct (Z.ltb_spec 0x800 base).
    - change 0x7FF with (2 ^ 11 - 1). by rewrite land_pow2_mask.
    - rewrite Z.mod_small by lia. done. }
  pose proof (Z.mod_pos_bound base 0x800 ltac:(lia)) as Hm.
  unfold receive_packet.
  destruct (read_word w REG_S3_RX_RD0) as [E0 S0]; [right; right; tauto..|done|].
  destruct (netReadWord w REG_S3_RX_RD0) as [w0 base']. cbn [fst snd] in *. subst base'.
  rewrite Hbase, Hoff. set (off := base mod 0x800) in *.
  assert (forall k, 0 <= k < 8 -> S3_RX_START + (base + k) mod 0x800 = off + S3_RX_START + k) as Hk.
  { intros k Hk. rewrite <- Zplus_mod_idemp_l. fold off. rewrite Z.mod_small by lia. lia. }
  rewrite !wrapu_small with (z := off + S3_RX_START + 6) by (unfold S3_RX_START; cint).
  rewrite !wrapu_small with (z := off + S3_RX_START + 7) by (unfold S3_RX_START; cint).
  assert (forall k, 0 <= k < 8 -> ring_address (off + S3_RX_START + k)) as Hra
    by (intros k ?; right; left; lia).
  pose proof (read_value w0 _ (Hra 6 ltac:(lia))) as E1. pose proof (read_stable w0 (off + S3_RX_START + 6)) as S1.
  destruct (netReadReg w0 (off + S3_RX_START + 6)) as [w1 hi]. cbn [fst snd] in *. subst hi.
  pose proof (read_value w1 _ (Hra 7 ltac:(lia))) as E2. pose proof (read_stable w1 (off + S3_RX_START + 7)) as S2.
  destruct (netReadReg w1 (off + S3_RX_START + 7)) as [w2 lo]. cbn [fst snd] in *. subst lo.
  unfold rx in Hsize. rewrite (Hk 6), (Hk 7) in Hsize by lia.
  rewrite S1, !S0, Z.shiftl_mul_pow2 by done. change (2 ^ 8) with 256. rewrite <- Hsize.
  pose proof (mem_byte (polls := polls) w (off + S3_RX_START + 6)).
  pose proof (mem_byte (polls := polls) w (off + S3_RX_START + 7)). unfold TFTP_PACKET_MAX_SIZE in *.
  rewrite (wrapu_small 16 size), (wrapu_small 16 (size + 1)) by cint.
  rewrite (proj2 (Z.ltb_ge _ (size + 1))) by lia.
  destruct (read_loop_ok (Z.to_nat (size + 1)) w2 off Hm) as [E3 S3].
  destruct (read_loop (Z.to_nat (size + 1)) w2 off) as [w3 bs]. cbn [fst snd] in *.
  destruct (write_word w3 REG_S3_RX_RD0 (u16 (size + base))) as [W1 W2];
    [right; right; tauto..|done|by apply wrapu_bound|].
  destruct (command_done (netWriteWord w3 REG_S3_RX_RD0 (u16 (size + base))) CR_RECV) as (w4 & -> & S4); [by left|].
  cbn [obind]. exists w4. split.
  - do 3 f_equal. rewrite E3. apply list_fmap_ext. intros _ i _. unfold rx.
    rewrite S2, S1, S0. do 2 f_equal. unfold off. apply Zplus_mod_idemp_l.
  - rewrite !S4 by (right; right; tauto). exact W1.
Qed.

(** An oversized datagram is copied beyond the buffer. *)
Lemma oversized_packet_overflows w base :
  word w REG_S3_RX_RD0 = base -> base < 0x800 -> base + 8 <= 0x800 ->
  520 <= rx w (base + 6) * 256 + rx w (base + 7) < 65000 ->
  receive_packet polls w = None.
Proof.
  intros Hbase Hb Hroom Hsize. unfold receive_packet.
  pose proof (mem_byte (polls := polls) w REG_S3_RX_RD0). pose proof (mem_byte (polls := polls) w (REG_S3_RX_RD0 + 1)).
  destruct (read_word w REG_S3_RX_RD0) as [E0 S0]; [right; right; tauto..|done|].
  destruct (netReadWord w REG_S3_RX_RD0) as [w0 base']. cbn [fst snd] in *. subst base'. rewrite Hbase.
  unfold rx_offset. rewrite (proj2 (Z.ltb_ge 0x800 base)) by lia.
  unfold rx in Hsize. rewrite !Z.mod_small in Hsize by lia.
  rewrite (wrapu_small 16 (base + S3_RX_START + 6)), (wrapu_small 16 (base + S3_RX_START + 7))
    by (unfold S3_RX_START; cint).
  replace (S3_RX_START + (base + 6)) with (base + S3_RX_START + 6) in Hsize by lia.
  replace (S3_RX_START + (base + 7)) with (base + S3_RX_START + 7) in Hsize by lia.
  pose proof (read_value w0 (base + S3_RX_START + 6) ltac:(right; left; lia)) as E1.
  pose proof (read_stable w0 (base + S3_RX_START + 6)) as S1.
  destruct (netReadReg w0 (base + S3_RX_START + 6)) as [w1 hi]. cbn [fst snd] in *. subst hi.
  pose proof (read_value w1 (base + S3_RX_START + 7) ltac:(right; left; lia)) as E2.
  destruct (netReadReg w1 (base + S3_RX_START + 7)) as [w2 lo]. cbn [fst snd] in *. subst lo.
  rewrite S1, !S0, Z.shiftl_mul_pow2 by done. change (2 ^ 8) with 256.
  unfold TFTP_PACKET_MAX_SIZE.
  set (x := cell w (base + S3_RX_START + 6) * 256 + cell w (base + S3_RX_START + 7)) in *.
  rewrite (wrapu_small 16 (x + 8)), (wrapu_small 16 (x + 8 + 1)) by cint.
  by rewrite (proj2 (Z.ltb_lt _ _)) by lia.
Qed.

Lemma write_loop_ok bs w p :
  0 <= p < 0x800 -> zlen bs <= 0x800 -> Forall (fun b => 0 <= b < 256) bs ->
  let r := write_loop w (S3_TX_START + p) bs in
  r.2 = S3_TX_START + (p + zlen bs) mod 0x800 /\
  (forall i x, bs !! i = Some x -> tx r.1 (p + Z.of_nat i) = x) /\
  (forall j, zlen bs <= j < 0x800 -> tx r.1 (p + j) = tx w (p + j)) /\
  (forall b, ~ (S3_TX_START <= b < S3_TX_END) -> ring_address b -> cell r.1 b = cell w b).
Proof.
  revert w p. induction bs as [|x bs IH]; intros w p Hp Hlen Hb; cbn [write_loop]; cbv zeta.
  { split_and!; [by rewrite Z.add_0_r, Z.mod_small|done|done|done]. }
  apply Forall_cons in Hb as [Hx Hb]. cbn [length] in Hlen.
  rewrite (wrapu_small 16) by (unfold S3_TX_START; cint).
  set (w1 := netWriteReg w (S3_TX_START + p) x).
  set (p' := if p + 1 =? 0x800 then 0 else p + 1).
  assert ((if S3_TX_START + p + 1 =? S3_TX_END then S3_TX_START else S3_TX_START + p + 1) =
          S3_TX_START + p') as ->.
  { unfold p', S3_TX_START, S3_TX_END.
    destruct (Z.eqb_spec (0x5800 + p + 1) 0x6000), (Z.eqb_spec (p + 1) 0x800); lia. }
  assert (0 <= p' < 0x800 /\ forall i, (p' + i) mod 0x800 = (p + (1 + i)) mod 0x800) as [Hp' Hmod].
  { unfold p'. destruct (Z.eqb_spec (p + 1) 0x800) as [E|E]; [|split; [lia|intros i; f_equal; lia]].
    split; [lia|]. intros i. rewrite Z.add_assoc, E. symmetry.
    rewrite <- (Z.mod_add (0 + i) 1) by lia. f_equal. lia. }
  assert (ring_address (S3_TX_START + p)) as Hra by (left; unfold S3_TX_START, S3_TX_END; lia).
  destruct (IH w1 p' Hp' ltac:(lia) Hb) as (E & H1 & H2 & H3). cbv zeta in *.
  assert (forall j, 0 < j < 0x800 -> tx w1 (p + j) = tx w (p + j)) as Hother.
  { intros j Hj. unfold tx, w1. apply write_stable; [|left; unfold S3_TX_START, S3_TX_END; pose proof (Z.mod_pos_bound (p + j) 0x800 ltac:(lia)); lia].
    pose proof (Z.mod_pos_bound (p + j) 0x800 ltac:(lia)). intros Heq.
    assert (p = (p + j) mod 0x800) as Hpj by lia.
    destruct (Z_lt_ge_dec (p + j) 0x800); [rewrite Z.mod_small in Hpj by lia; lia|].
    replace (p + j) with (p + j - 0x800 + 1 * 0x800) in Hpj by lia.
    rewrite Z.mod_add, Z.mod_small in Hpj by lia. lia. }
  split_and!.
  - rewrite E, Hmod. cbn [length]. do 2 f_equal. lia.
  - intros [|i] y Hi; cbn [lookup list_lookup] in Hi.
    + injection Hi as ->. change (Z.of_nat 0) with 0. specialize (H2 0x7FF). unfold tx in *. rewrite Hmod in H2.
      replace (p + (1 + 0x7FF)) with (p + 0 + 1 * 0x800) in H2 by lia. rewrite Z.mod_add in H2 by lia.
      rewrite H2 by lia. unfold w1. rewrite Z.add_0_r, (Z.mod_small p) by lia. by apply write_value.
    + specialize (H1 i y Hi). unfold tx in *. rewrite Hmod in H1.
      by replace (p + Z.of_nat (S i)) with (p + (1 + Z.of_nat i)) by lia.
  - intros j Hj. cbn [length] in Hj. rewrite <- Hother by lia. specialize (H2 (j - 1) ltac:(lia)).
    unfold tx in *. rewrite Hmod in H2. by replace (1 + (j - 1)) with j in H2 by lia.
  - intros b Hnb Hrb. rewrite H3 by done. unfold w1. apply write_stable; [|done].
    intros <-. apply Hnb. unfold S3_TX_START, S3_TX_END. lia.
Qed.

Lemma response_bytes (s : tftp chip) r :
  0 <= lastPacket s < 65536 ->
  Forall (fun b => 0 <= b < 256) (response_packet s r) /\ zlen (response_packet s r) <= 18.
Proof.
  intros Hl. unfold response_packet.
  assert (0 <= lastPacket s ≫ 8 < 256) by
    (rewrite Z.shiftr_div_pow2 by done; change (2 ^ 8) with 256;
     split; [apply Z.div_pos; lia|apply Z.div_lt_upper_bound; lia]).
  assert (0 <= lastPacket s &. 255 < 256) by
    (change 255 with (2 ^ 8 - 1); rewrite land_pow2_mask by done; by apply Z.mod_pos_bound).
  repeat (destruct (_ =? _) || destruct (_ || _)); (split; [|done]);
    repeat (apply Forall_cons_2; [lia || done|]); apply Forall_nil_2.
Qed.

(** A response is placed in the transmit ring.  [sendResponse] writes
    the packet for its code behind the write pointer, wrapping at the end of
    the ring, leaves the rest of the ring alone, and advances the pointer by
    the packet's length. *)
Theorem sendResponse_writes_ring s r p :
  word (hw s) REG_S3_TX_WR0 = p -> p < 0x800 -> 0 <= lastPacket s < 65536 ->
  let packet := response_packet s r in
  exists w', sendResponse polls s r = Some (set_hw s w') /\
    word w' REG_S3_TX_WR0 = (p + zlen packet) mod 0x800 /\
    (forall i x, packet !! i = Some x -> tx w' (p + Z.of_nat i) = x) /\
    (forall j, zlen packet <= j < 0x800 -> tx w' (p + j) = tx (hw s) (p + j)).
Proof.
  intros Hw Hp Hl packet. destruct (response_bytes s r Hl) as [Hb Hlen].
  fold packet in Hb, Hlen. unfold sendResponse. fold packet.
  pose proof (mem_byte (polls := polls) (hw s) REG_S3_TX_WR0).
  pose proof (mem_byte (polls := polls) (hw s) (REG_S3_TX_WR0 + 1)).
  destruct (read_word (hw s) REG_S3_TX_WR0) as [E0 S0]; [right; right; tauto..|done|].
  destruct (netReadWord (hw s) REG_S3_TX_WR0) as [w0 p0]. cbn [fst snd] in *. subst p0. rewrite Hw.
  rewrite wrapu_small by (unfold S3_TX_START; cint). rewrite (Z.add_comm p).
  destruct (write_loop_ok packet w0 p ltac:(lia) ltac:(lia) Hb) as (E1 & H1 & H2 & H3).
  destruct (write_loop w0 (S3_TX_START + p) packet) as [w1 p1]. cbn [fst snd] in *. subst p1.
  pose proof (Z.mod_pos_bound (p + zlen packet) 0x800 ltac:(lia)).
  replace (S3_TX_START + (p + zlen packet) mod 0x800 - S3_TX_START) with ((p + zlen packet) mod 0x800) by lia.
  rewrite (wrapu_small 16) by cint.
  destruct (write_word w1 REG_S3_TX_WR0 ((p + zlen packet) mod 0x800)) as [W1 W2];
    [right; right; tauto..|done|lia|].
  set (w2 := netWriteWord w1 _ _) in *.
  destruct (command_done w2 CR_SEND) as (w3 & -> & S3); [by right|]. cbn [obind].
  assert (forall i, tx w3 i = tx w1 i) as Htx.
  { intros i. unfold tx. pose proof (Z.mod_pos_bound i 0x800 ltac:(lia)).
    rewrite S3 by (left; unfold S3_TX_START, S3_TX_END; lia).
    apply W2; [unfold S3_TX_START, REG_S3_TX_WR0; lia..|left; unfold S3_TX_START, S3_TX_END; lia]. }
  exists w3. split; [done|]. split; [|split].
  - rewrite !S3 by (right; right; tauto). exact W1.
  - intros i x Hi. rewrite Htx. by apply H1.
  - intros j Hj. rewrite Htx, H2 by done. unfold tx. apply S0.
Qed.

(** C29: an interrupted download never starts the application.  When a
    transfer has begun and then stalls (the time-out has passed and no packet
    is waiting), one poll erases the first page of the flash and reopens the
    server, and from then on, however long nothing arrives, the time-out that
    would start the application cannot fire.

    Condition: the chip opens the UDP socket of the server, in whatever state
    it is, within [polls] rounds of port, mode and [OPEN] command (the loop
    of [tftpInit] goes on until it does). *)
Theorem interrupted_download_never_boots (s : tftp chip) :
  (forall w, is_Some (open_socket polls w tftp_setup)) ->
  (netReadWord (hw s) REG_S3_RX_RSR0).2 = 0 -> timedOut s = true -> DownloadStarted s <> 0 ->
  exists s', tftpPoll polls s = Some (s', 1) /\ DownloadStarted s' = 0 /\
    (forall a, 0 <= a < 128 -> read_cell (g_flash (hex s')) a = 255) /\
    forall t, timedOut (set_tick s' t) = false.
Proof.
  intros Hopen Hnone Hto Hst. unfold tftpPoll.
  destruct (netReadWord (hw s) REG_S3_RX_RSR0) as [w n]. cbn [snd] in Hnone. subst n.
  cbn [obind Z.eqb negb andb].
  change (timedOut (set_hw s w)) with (timedOut s). rewrite Hto.
  change (DownloadStarted (set_hw s w)) with (DownloadStarted s).
  rewrite (proj2 (Z.eqb_neq _ _) Hst). cbn [negb andb]. unfold tftpInit.
  match goal with |- context [open_socket polls ?a _] => destruct (Hopen a) as [w' ->] end.
  cbn [obind]. eexists. split; [done|]. split; [done|].
  match goal with |- context [g_flash (hex ?s2)] => set (s' := s2) end.
  assert (forall a, 0 <= a < 128 -> read_cell (g_flash (hex s')) a = 255) as Herased.
  { intros a Ha. unfold s', read_cell, erase_first_page, boot_page_erase.
    cbn [hex set_hw set_hex set_started set_last set_write ihex_init g_flash cells].
    rewrite IhexProofs.program_lookup, length_replicate.
    change (page_base 0) with 0. change (Z.of_nat 128) with 128.
    rewrite (proj2 (Z.leb_le 0 a)), (proj2 (Z.ltb_lt a _)) by lia. cbn [andb].
    rewrite lookup_replicate_2; [done|lia]. }
  split; [done|]. intros t. unfold timedOut.
  change (g_flash (hex (set_tick s' t))) with (g_flash (hex s')). by rewrite !Herased by lia.
Qed.

End Rings.

(** ** A chip that is memory and a status *)

Module MemoryChip.

(** Every command completes at once; the status follows the [OPEN] command
    in UDP mode and the [CLOSE] command. *)
#[export] Instance memory_chip : W5100 (gmap Z Z) := {
  netReadReg w a := (w, if a =? REG_S3_CR then 0 else u8 (default 0 (w !! a)));
  netWriteReg w a v :=
    if negb (a =? REG_S3_CR) then <[a := v]> w
    else if v =? CR_OPEN then <[REG_S3_SR := if default 0 (w !! REG_S3_MR) =? MR_UDP then SOCK_UDP else 0]> w
    else if v =? CR_CLOSE then <[REG_S3_SR := 0]> w
    else w
}.

#[export] Instance memory_chip_ok : W5100Spec (gmap Z Z) 1.
Proof.
  assert (Hcr : forall a, ring_address a -> a <> REG_S3_CR /\ a <> REG_S3_SR).
  { unfold ring_address, S3_TX_START, S3_TX_END, S3_RX_START, REG_S3_TX_WR0, REG_S3_RX_RD0, REG_S3_CR, REG_S3_SR.
    intros a Ha. lia. }
  apply (Build_W5100Spec _ _ _ (fun w a => u8 (default 0 (w !! a)))).
  - intros w a. by apply wrapu_bound.
  - intros w a [Ha _]%Hcr. simpl. by rewrite (proj2 (Z.eqb_neq a _) Ha).
  - done.
  - intros w a v [Ha _]%Hcr Hv. simpl. rewrite (proj2 (Z.eqb_neq a _) Ha). simpl. rewrite lookup_insert_eq. simpl.
    by apply wrapu_small.
  - intros w a v b Hab [_ Hb]%Hcr. simpl. repeat case_match; by rewrite ?lookup_insert_ne by done.
  - intros w v [-> | ->]; by eexists.
Defined.

(** The chip opens the server's socket at the first round, and a closed
    socket is not open. *)
Lemma memory_chip_opens (w : gmap Z Z) : is_Some (open_socket 1 w tftp_setup).
Proof.
  unfold open_socket, tftp_setup.
  match goal with |- context [netReadReg ?x REG_S3_SR] => set (w1 := x) end.
  assert (Hw1 : netReadReg w1 REG_S3_SR = (w1, SOCK_UDP)).
  { unfold w1. simpl. rewrite lookup_insert_eq. simpl. by rewrite lookup_insert_eq. }
  rewrite Hw1. cbn [Z.eqb]. rewrite Z.eqb_refl, Hw1. by rewrite Z.eqb_refl.
Qed.

Lemma memory_chip_closes (w : gmap Z Z) : (netReadReg (netWriteReg w REG_S3_CR CR_CLOSE) REG_S3_SR).2 = 0.
Proof. simpl. by rewrite lookup_insert_eq. Qed.

(** A 4-byte datagram near the end of the receive ring. *)
Definition some_chip : gmap Z Z :=
  write_regs (write_regs ∅ REG_S3_RX_RD0 [0x07; 0xF0])
    (S3_RX_START + 0x7F0) [192; 168; 0; 9; 0x12; 0x34; 0; 6; 0; 3; 0; 1; 58; 48].

Lemma receive_packet_reads_ring_witness :
  exists w', receive_packet 1 some_chip =
      Some (w', (fun i => rx 1 some_chip (0x7F0 + Z.of_nat i)) <$> seq 0 (Z.to_nat (14 + 1)), 14) /\
    mem (polls := 1) w' REG_S3_RX_RD0 * 256 + mem (polls := 1) w' (REG_S3_RX_RD0 + 1) = u16 (14 + 0x7F0).
Proof. apply (receive_packet_reads_ring 1 some_chip 0x7F0 14); by vm_compute. Defined.

Definition some_server : tftp (gmap Z Z) :=
  State (write_regs ∅ REG_S3_TX_WR0 [0x07; 0xFE]) IhexProofs.blank 258 1 29.

Lemma sendResponse_writes_ring_witness :
  let packet := response_packet some_server ACK in
  exists w', sendResponse 1 some_server ACK = Some (set_hw some_server w') /\
    mem (polls := 1) w' REG_S3_TX_WR0 * 256 + mem (polls := 1) w' (REG_S3_TX_WR0 + 1) =
      (0x7FE + zlen packet) mod 0x800 /\
    (forall i x, packet !! i = Some x -> tx 1 w' (0x7FE + Z.of_nat i) = x) /\
    (forall j, zlen packet <= j < 0x800 -> tx 1 w' (0x7FE + j) = tx 1 (hw some_server) (0x7FE + j)).
Proof. apply (sendResponse_writes_ring 1 some_server ACK 0x7FE); by vm_compute. Defined.

(** A device with an application, stalled in a download. *)
Definition stalled : tftp (gmap Z Z) :=
  State ∅ (set_write IhexProofs.blank 0 (Flash (<[0 := 12]> ∅) (replicate 128 255))) 3 1 29.

Lemma interrupted_download_never_boots_witness :
  exists s', tftpPoll 1 stalled = Some (s', 1) /\ DownloadStarted s' = 0 /\
    (forall a, 0 <= a < 128 -> read_cell (g_flash (hex s')) a = 255) /\
    forall t, timedOut (set_tick s' t) = false.
Proof.
  apply (interrupted_download_never_boots 1 stalled); [exact memory_chip_opens|by vm_compute..].
Defined.

(** With the read pointer at exactly 0x800 the packet is read from beyond
    the receive ring instead of from its start. *)
Lemma rx_offset_at_0x800 : rx_offset 0x800 = 0x800 /\ 0x800 mod 0x800 = 0.
Proof. done. Qed.

(** The port of a transfer does not depend on the high byte of the client's
    port: the complement sets all the high bits. *)
Lemma tid_high_bits b0 b1 b2 b3 b4 b5 rest :
  0 <= b4 < 256 -> 0 <= b5 < 256 ->
  tid (b0 :: b1 :: b2 :: b3 :: b4 :: b5 :: rest) = Some (0xFFFF - b5).
Proof.
  intros H4 H5. change (Some (u16 ((b4 ≪ 8) |. ~. b5)) = Some (0xFFFF - b5)). f_equal. unfold wrapu. rewrite <- Z.land_ones by done.
  assert (~. b5 = -1 - b5) as -> by (unfold Z.lnot; lia).
  apply Z.bits_inj'. intros i Hi. rewrite Z.land_spec, Z.lor_spec, Z.testbit_ones_nonneg by lia.
  replace (0xFFFF - b5) with (Z.land (-1 - b5) (Z.ones 16)).
  2:{ rewrite Z.land_ones by done. replace (-1 - b5) with (0xFFFF - b5 + (-1) * 2 ^ 16) by (simpl; lia).
      rewrite Z.mod_add by done. apply Z.mod_small. simpl. lia. }
  rewrite Z.land_spec, Z.testbit_ones_nonneg by lia.
  destruct (Z.ltb_spec i 16); [|by rewrite !andb_false_r]. rewrite !andb_true_r.
  destruct (Z.ltb_spec i 8).
  - by rewrite Z.shiftl_spec_low by done.
  - replace (-1 - b5) with (Z.lnot b5) by (unfold Z.lnot; lia). rewrite Z.lnot_spec by done.
    assert (Z.testbit b5 i = false) as ->; [|by rewrite orb_true_r].
    rewrite <- (Z.mod_small b5 (2 ^ 8)) by done. by apply Z.mod_pow2_bits_high.
Qed.

End MemoryChip.

End Tftp.
