(* ===== verification/Sds.v ===== *)
(** * sds.c: ranges, quoting and argument splitting

    An sds string is its list of bytes; where the code walks it as a C
    string the model uses [cstr].  [sdssplitargs] cuts an inline request into
    arguments with the quoting rules of a REPL, and [sdscatrepr] prints a
    string in that format. *)

From S2P Require Import Prelude.

Module Sds.

(** ** Ranges *)

(** [sdsrange(s,start,end)], both bounds inclusive, negative ones counted
    from the end; [start] and [end] are [int]. *)
Definition sdsrange (s : list Z) (start end_ : Z) : list Z :=
  let len := zlen s in
  if len =? 0 then s else
  let start := if start <? 0 then Z.max 0 (len + start) else start in
  let end_ := if end_ <? 0 then Z.max 0 (len + end_) else end_ in
  let newlen := if end_ <? start then 0 else end_ - start + 1 in
  let '(start, newlen) :=
    if negb (newlen =? 0) then
      if len <=? start then (start, 0)
      else if len <=? end_ then
        let end_ := len - 1 in (start, if end_ <? start then 0 else end_ - start + 1)
      else (start, newlen)
    else (0, newlen) in
  take (Z.to_nat newlen) (drop (Z.to_nat start) s).

(** ** Character classes of the C locale *)

Definition isspace (c : Z) : bool := (c =? 32) || ((9 <=? c) && (c <=? 13)).
Definition isprint (c : Z) : bool := (32 <=? c) && (c <=? 126).

Definition is_hex_digit (c : Z) : bool :=
  ((48 <=? c) && (c <=? 57)) || ((97 <=? c) && (c <=? 102)) || ((65 <=? c) && (c <=? 70)).

Definition hex_digit_to_int (c : Z) : Z :=
  if (48 <=? c) && (c <=? 57) then c - 48
  else if (97 <=? c) && (c <=? 102) then c - 87
  else if (65 <=? c) && (c <=? 70) then c - 55
  else 0.

(** ** Quoting *)

(** A digit of [%02x]. *)
Definition hex_char (d : Z) : Z := if d <? 10 then 48 + d else 87 + d.

Definition repr_char (c : Z) : list Z :=
  if (c =? 92) || (c =? 34) then [92; c]
  else if c =? 10 then [92; 110]
  else if c =? 13 then [92; 114]
  else if c =? 9 then [92; 116]
  else if c =? 7 then [92; 97]
  else if c =? 8 then [92; 98]
  else if isprint c then [c]
  else [92; 120; hex_char (c / 16); hex_char (c mod 16)].

Definition sdscatrepr (s p : list Z) : list Z := s ++ [34] ++ concat (repr_char <$> p) ++ [34].

(** ** Splitting

    The functions walk the text after the current position; its end is the
    terminating NUL.  A token comes with what follows it, [None] is the
    [err] label. *)

(** The character an escape in double quotes stands for. *)
Definition unescape (c : Z) : Z :=
  if c =? 110 then 10 else if c =? 114 then 13 else if c =? 116 then 9
  else if c =? 98 then 8 else if c =? 97 then 7 else c.

(** A closing quote must be followed by a space or nothing at all. *)
Definition close_quote (cur s : list Z) : option (list Z * list Z) :=
  match s with
  | c :: _ => if isspace c then Some (cur, s) else None
  | [] => Some (cur, s)
  end.

Fixpoint split_inq (cur s : list Z) : option (list Z * list Z) :=
  match s with
  | [] => None
  | c :: s1 =>
      if c =? 92 then
        match s1 with
        | [] => split_inq (cur ++ [c]) s1
        | d :: s2 =>
            match s2 with
            | h1 :: h2 :: s4 =>
                if (d =? 120) && is_hex_digit h1 && is_hex_digit h2
                then split_inq (cur ++ [hex_digit_to_int h1 * 16 + hex_digit_to_int h2]) s4
                else split_inq (cur ++ [unescape d]) s2
            | _ => split_inq (cur ++ [unescape d]) s2
            end
        end
      else if c =? 34 then close_quote cur s1
      else split_inq (cur ++ [c]) s1
  end.

Fixpoint split_insq (cur s : list Z) : option (list Z * list Z) :=
  match s with
  | [] => None
  | c :: s1 =>
      if c =? 92 then
        match s1 with
        | d :: s2 =>
            if d =? 39 then split_insq (cur ++ [39]) s2 else split_insq (cur ++ [c]) s1
        | [] => split_insq (cur ++ [c]) s1
        end
      else if c =? 39 then close_quote cur s1
      else split_insq (cur ++ [c]) s1
  end.

(** A token outside quotes ends at a blank, which is consumed. *)
Fixpoint split_token (cur s : list Z) : option (list Z * list Z) :=
  match s with
  | [] => Some (cur, [])
  | c :: s1 =>
      if (c =? 32) || (c =? 10) || (c =? 13) || (c =? 9) then Some (cur, s1)
      else if c =? 34 then split_inq cur s1
      else if c =? 39 then split_insq cur s1
      else split_token (cur ++ [c]) s1
  end.

Fixpoint skip_blanks (s : list Z) : list Z :=
  match s with
  | c :: s1 => if isspace c then skip_blanks s1 else s
  | [] => []
  end.

(** The outer loop; every token takes at least a character, so the length
    of the line bounds the rounds. *)
Fixpoint split_loop (fuel : nat) (vector : list (list Z)) (s : list Z) : option (list (list Z)) :=
  match skip_blanks s with
  | [] => Some vector
  | s =>
      match fuel with
      | O => None
      | S fuel => let? (tok, s) := split_token [] s in split_loop fuel (vector ++ [tok]) s
      end
  end.

Definition sdssplitargs (line : list Z) : option (list (list Z)) :=
  let s := cstr line in split_loop (length s) [] s.

(** ** Properties *)

Lemma sdsrange_from s n : 0 <= n -> sdsrange s n (-1) = drop (Z.to_nat n) s.
Proof.
  intros Hn. unfold sdsrange. destruct (Z.eqb_spec (zlen s) 0) as [E|E].
  { destruct s; [by rewrite drop_nil|]. simpl in E. lia. }
  rewrite (proj2 (Z.ltb_ge n 0)) by done. change (-1 <? 0) with true. cbn iota.
  replace (Z.max 0 (zlen s + -1)) with (zlen s - 1) by lia.
  destruct (Z.ltb_spec (zlen s - 1) n) as [Hb|Hb]; cbn [negb Z.eqb].
  - rewrite take_0, drop_ge by lia. done.
  - rewrite (proj2 (Z.eqb_neq _ 0)) by lia. cbn [negb].
    rewrite (proj2 (Z.leb_gt (zlen s) n)), (proj2 (Z.leb_gt (zlen s) (zlen s - 1))) by lia.
    apply take_ge. rewrite length_drop. lia.
Qed.

(** Quoted text has no control characters. *)
Lemma repr_char_plain c : 0 <= c < 256 -> Forall (fun x => 32 <= x) (repr_char c).
Proof.
  intros Hc. unfold repr_char, hex_char, isprint.
  pose proof (Z.div_pos c 16 ltac:(lia) ltac:(lia)). pose proof (Z.mod_pos_bound c 16 ltac:(lia)).
  repeat split_test; repeat constructor; try lia;
    try (match goal with H : (_ && _) = true |- _ => apply andb_true_iff in H as [?%Z.leb_le ?%Z.leb_le] end; lia);
    match goal with H : (_ || _) = true |- _ => apply orb_true_iff in H as [?%Z.eqb_eq|?%Z.eqb_eq] end; lia.
Qed.

(** An escaped character is read back, whatever follows. *)
Lemma split_inq_repr cur c s :
  0 <= c < 256 -> split_inq cur (repr_char c ++ s) = split_inq (cur ++ [c]) s.
Proof.
  intros Hc. unfold repr_char.
  destruct (Z.eqb_spec c 92) as [->|N1]; [by destruct s as [|? [|? ?]]|].
  destruct (Z.eqb_spec c 34) as [->|N2]; [by destruct s as [|? [|? ?]]|]. cbn [orb].
  destruct (Z.eqb_spec c 10) as [->|N3]; [by destruct s as [|? [|? ?]]|].
  destruct (Z.eqb_spec c 13) as [->|N4]; [by destruct s as [|? [|? ?]]|].
  destruct (Z.eqb_spec c 9) as [->|N5]; [by destruct s as [|? [|? ?]]|].
  destruct (Z.eqb_spec c 7) as [->|N6]; [by destruct s as [|? [|? ?]]|].
  destruct (Z.eqb_spec c 8) as [->|N7]; [by destruct s as [|? [|? ?]]|].
  destruct (isprint c) eqn:Ep.
  - cbn [app split_inq]. by rewrite (proj2 (Z.eqb_neq c 92)), (proj2 (Z.eqb_neq c 34)) by done.
  - assert (forall d, 0 <= d < 16 -> is_hex_digit (hex_char d) = true /\ hex_digit_to_int (hex_char d) = d) as Hd.
    { intros d Hd. assert (exists k, d = Z.of_nat k /\ (k < 16)%nat) as (k & -> & Hk)
        by (exists (Z.to_nat d); lia). do 16 (destruct k as [|k]; [done|]). lia. }
    destruct (Hd (c / 16)) as [H1 H2]; [split; [apply Z.div_pos; lia|apply Z.div_lt_upper_bound; lia]|].
    destruct (Hd (c mod 16)) as [H3 H4]; [apply Z.mod_pos_bound; lia|].
    cbn [app split_inq]. change (92 =? 92) with true. change (120 =? 120) with true. cbn iota.
    rewrite H1, H3, H2, H4. cbn [andb]. do 2 f_equal. f_equal. pose proof (Z.div_mod c 16). lia.
Qed.

Lemma split_inq_reprs cur p s :
  Forall (fun c => 0 <= c < 256) p ->
  split_inq cur (concat (repr_char <$> p) ++ s) = split_inq (cur ++ p) s.
Proof.
  intros Hp. revert cur. induction Hp as [|c p Hc Hp IH]; intros cur.
  - by rewrite app_nil_r.
  - cbn [fmap list_fmap concat]. rewrite <- app_assoc, split_inq_repr, IH, <- app_assoc by done. done.
Qed.

(** The arguments [ps], quoted and separated by single spaces. *)
Fixpoint quote_args (ps : list (list Z)) : list Z :=
  match ps with
  | [] => []
  | [p] => sdscatrepr [] p
  | p :: ps => sdscatrepr [] p ++ [32] ++ quote_args ps
  end.

Lemma quote_args_plain ps :
  Forall (Forall (fun c => 0 <= c < 256)) ps -> Forall (fun x => 32 <= x) (quote_args ps).
Proof.
  induction 1 as [|p ps Hp Hps IH]; [constructor|].
  assert (Forall (fun x => 32 <= x) (sdscatrepr [] p)) as Hq.
  { unfold sdscatrepr. rewrite app_nil_l. apply Forall_app. split; [repeat constructor; lia|].
    apply Forall_app. split; [|repeat constructor; lia]. apply Forall_concat, Forall_fmap.
    eapply Forall_impl; [done|]. intros c Hc. by apply repr_char_plain. }
  destruct ps as [|q ps]; [done|].
  change (quote_args (p :: q :: ps)) with (sdscatrepr [] p ++ [32] ++ quote_args (q :: ps)).
  apply Forall_app. split; [done|]. constructor; [lia|done].
Qed.

Lemma quote_args_not_in ps x :
  Forall (Forall (fun c => 0 <= c < 256)) ps -> x < 32 -> x ∉ quote_args ps.
Proof.
  intros Hps Hx Hin. pose proof (quote_args_plain ps Hps) as HF. rewrite Forall_forall in HF.
  specialize (HF x Hin). simpl in HF. lia.
Qed.

Lemma split_token_repr p s :
  Forall (fun c => 0 <= c < 256) p ->
  split_token [] (sdscatrepr [] p ++ s) = close_quote p s.
Proof.
  intros Hp. unfold sdscatrepr. cbn [app split_token]. rewrite <- app_assoc, split_inq_reprs by done.
  done.
Qed.

Lemma split_loop_quoted fuel v ps :
  Forall (Forall (fun c => 0 <= c < 256)) ps -> (length (quote_args ps) <= fuel)%nat ->
  split_loop fuel v (quote_args ps) = Some (v ++ ps) /\
  split_loop fuel v (32 :: quote_args ps) = Some (v ++ ps).
Proof.
  intros Hps. revert fuel v.
  assert (forall fuel v s, split_loop fuel v (32 :: s) = split_loop fuel v s) as Hsp by (by intros []).
  induction Hps as [|p ps Hp Hps IH]; intros fuel v Hf; rewrite Hsp.
  { rewrite app_nil_r. by destruct fuel. }
  destruct fuel as [|fuel].
  { exfalso. destruct ps; cbn in Hf; lia. }
  assert (forall s, split_loop (S fuel) v (sdscatrepr [] p ++ s) =
     let? (tok, s) := close_quote p s in split_loop fuel (v ++ [tok]) s) as Hstep.
  { intros s. rewrite <- split_token_repr by done. done. }
  destruct ps as [|q ps].
  - cbn [quote_args]. rewrite <- (app_nil_r (sdscatrepr [] p)), Hstep. simpl. by destruct fuel.
  - change (quote_args (p :: q :: ps)) with (sdscatrepr [] p ++ [32] ++ quote_args (q :: ps)) in *.
    rewrite Hstep. cbn [app close_quote obind]. change (isspace 32) with true. cbn iota.
    cbn [obind]. assert (forall A (a b : A), a = b -> a = b /\ a = b) as Hdup by done. apply Hdup.
    destruct (IH fuel (v ++ [p])) as [_ ->].
    + rewrite !length_app in Hf. cbn [length] in Hf. lia.
    + by rewrite <- app_assoc.
Qed.

Lemma sdssplitargs_quoted ps :
  Forall (Forall (fun c => 0 <= c < 256)) ps -> sdssplitargs (quote_args ps) = Some ps.
Proof.
  intros Hps. unfold sdssplitargs. rewrite cstr_id.
  - by apply (split_loop_quoted (length (quote_args ps)) [] ps).
  - eapply Forall_impl; [by apply quote_args_plain|]. simpl. lia.
Qed.

(** Quoting is inverted by splitting.  Any list of byte strings, quoted
    by [sdscatrepr] and separated by spaces, is split back into exactly
    those strings by [sdssplitargs]. *)
Theorem splitargs_inverts_repr ps :
  Forall (Forall (fun c => 0 <= c < 256)) ps -> sdssplitargs (quote_args ps) = Some ps.
Proof. apply sdssplitargs_quoted. Qed.

Lemma splitargs_inverts_repr_witness :
  sdssplitargs (quote_args [[0; 255; 34; 92; 10]; []; bytes_of_string "it's"]) =
  Some [[0; 255; 34; 92; 10]; []; bytes_of_string "it's"].
Proof. apply (splitargs_inverts_repr [[0; 255; 34; 92; 10]; []; bytes_of_string "it's"]).
  repeat constructor; vm_compute; congruence. Defined.

End Sds.
