(* ===== verification/Util.v ===== *)
(** * util.c: decimal numbers

    [ll2string] prints a 64-bit integer and [string2ll] reads one; the
    protocol parser relies on [string2ll] accepting only the canonical
    decimal form and on it never wrapping around. *)

From S2P Require Import Prelude.

Module Util.

Definition LLONG_MIN : Z := - 2 ^ 63.
Definition LLONG_MAX : Z := 2 ^ 63 - 1.
Definition ULLONG_MAX : Z := 2 ^ 64 - 1.

(** The digits [ll2string] writes from the end of its buffer backwards;
    twenty rounds are enough for 64 bits. *)
Fixpoint ll_digits (fuel : nat) (v : Z) (acc : list Z) : list Z :=
  match fuel with
  | O => acc
  | S fuel =>
      let acc := (48 + v mod 10) :: acc in
      let v := v / 10 in
      if v =? 0 then acc else ll_digits fuel v acc
  end.

(** The returned length and the text stored before its NUL, none when the
    buffer has no room at all. *)
Definition ll2string (len value : Z) : Z * option (list Z) :=
  if len =? 0 then (0, None) else
  let v := if value <? 0 then u64 (- value) else value in
  let text := ll_digits 20 v [] in
  let text := if value <? 0 then 45 :: text else text in
  let l := zlen text in
  let l := if len <? l + 1 then len - 1 else l in
  (l, Some (take (Z.to_nat l) text)).

Definition is_digit (c : Z) : bool := (48 <=? c) && (c <=? 57).

(** The digit loop of [string2ll] and its test that all bytes were used. *)
Fixpoint string2ll_loop (v : Z) (s : list Z) : option Z :=
  match s with
  | [] => Some v
  | c :: s =>
      if is_digit c then
        if ULLONG_MAX / 10 <? v then None else
        let v := u64 (v * 10) in
        if ULLONG_MAX - (c - 48) <? v then None else
        string2ll_loop (u64 (v + (c - 48))) s
      else None
  end.

(** [None] is a return value of 0. *)
Definition string2ll (s : list Z) : option Z :=
  match s with
  | [] => None
  | c0 :: s0 =>
      if bool_decide (s0 = []) && (c0 =? 48) then Some 0 else
      let negative := c0 =? 45 in
      let s := if negative then s0 else s in
      match s with
      | [] => None
      | c :: s1 =>
          if (49 <=? c) && (c <=? 57) then
            match string2ll_loop (c - 48) s1 with
            | None => None
            | Some v =>
                if negative then
                  if u64 (- (LLONG_MIN + 1)) + 1 <? v then None else Some (s64 (u64 (- v)))
                else if LLONG_MAX <? v then None else Some v
            end
          else if (c =? 48) && (zlen (c0 :: s0) =? 1) then Some 0
          else None
      end
  end.

(** On a 64-bit machine a [long] is a [long long]. *)
Definition string2l (s : list Z) : option Z :=
  let? llval := string2ll s in
  if (llval <? LLONG_MIN) || (LLONG_MAX <? llval) then None else Some llval.

(** ** The value of a digit string *)

Fixpoint dec_val (v : Z) (s : list Z) : Z :=
  match s with
  | [] => v
  | c :: s => dec_val (v * 10 + (c - 48)) s
  end.

Abbreviation digit := (fun c => 48 <= c <= 57).

Lemma is_digit_spec c : is_digit c = true <-> digit c.
Proof. unfold is_digit. rewrite andb_true_iff, !Z.leb_le. done. Qed.

Lemma dec_val_app v s c : dec_val v (s ++ [c]) = dec_val v s * 10 + (c - 48).
Proof. revert v. induction s; intros v; simpl; auto. Qed.

Lemma dec_val_ge v s : 0 <= v -> Forall digit s -> v * 10 ^ zlen s <= dec_val v s.
Proof.
  intros Hv Hs. revert v Hv. induction Hs as [|c s Hc Hs IH]; intros v Hv; [simpl; lia|].
  cbn [dec_val length]. specialize (IH (v * 10 + (c - 48)) ltac:(lia)).
  replace (Z.of_nat (S (length s))) with (zlen s + 1) by lia.
  rewrite Z.pow_add_r by lia. pose proof (Z.pow_pos_nonneg 10 (zlen s) ltac:(lia) ltac:(lia)). nia.
Qed.

Lemma dec_val_mono v s : 0 <= v -> Forall digit s -> v <= dec_val v s.
Proof.
  intros Hv Hs. pose proof (dec_val_ge v s Hv Hs).
  pose proof (Z.pow_pos_nonneg 10 (zlen s) ltac:(lia) ltac:(lia)). nia.
Qed.

Lemma string2ll_loop_spec v s r :
  0 <= v <= ULLONG_MAX ->
  string2ll_loop v s = Some r <-> Forall digit s /\ r = dec_val v s /\ r <= ULLONG_MAX.
Proof.
  change ULLONG_MAX with 18446744073709551615.
  revert v. induction s as [|c s IH]; intros v Hv; cbn [string2ll_loop dec_val].
  - split; [intros [= <-]; repeat split; try lia; constructor|]. by intros (_ & -> & _).
  - destruct (is_digit c) eqn:Ed.
    + apply is_digit_spec in Ed. change ULLONG_MAX with 18446744073709551615.
      change (18446744073709551615 / 10) with 1844674407370955161.
      assert (Forall digit s -> v * 10 + (c - 48) <= dec_val (v * 10 + (c - 48)) s) as Hmono
        by (intros; apply dec_val_mono; [lia|done]).
      destruct (Z.ltb_spec 1844674407370955161 v).
      { split; [done|]. intros ([_ Hs]%Forall_cons & -> & ?). specialize (Hmono Hs). lia. }
      rewrite (wrapu_small 64 (v * 10)) by cint.
      destruct (Z.ltb_spec (18446744073709551615 - (c - 48)) (v * 10)).
      { split; [done|]. intros ([_ Hs]%Forall_cons & -> & ?). specialize (Hmono Hs). lia. }
      rewrite wrapu_small by cint. rewrite IH by lia. rewrite Forall_cons. tauto.
    + split; [done|]. intros ([Hc _]%Forall_cons & _). apply is_digit_spec in Hc. congruence.
Qed.

(** ** Canonical decimal text *)

Lemma digits_are_digits fuel n : 0 <= n -> Forall digit (digits fuel n).
Proof.
  revert n. induction fuel as [|fuel IH]; intros n Hn; simpl; [constructor|].
  destruct (Z.ltb_spec n 10).
  - constructor; [lia|constructor].
  - apply Forall_app. split; [apply IH, Z.div_pos; lia|].
    constructor; [|constructor]. pose proof (Z.mod_pos_bound n 10). lia.
Qed.

Lemma dec_val_digits fuel n : 0 <= n < 10 ^ Z.of_nat fuel -> dec_val 0 (digits fuel n) = n.
Proof.
  revert n. induction fuel as [|fuel IH]; intros n Hn; [simpl in Hn; simpl; lia|]. cbn [digits].
  destruct (Z.ltb_spec n 10); [simpl; lia|].
  rewrite dec_val_app, IH; [pose proof (Z.div_mod n 10); lia|].
  split; [apply Z.div_pos; lia|]. apply Z.div_lt_upper_bound; [lia|].
  rewrite <- Z.pow_succ_r by lia. replace (Z.succ _) with (Z.of_nat (S fuel)) by lia. lia.
Qed.

(** A digit string without a leading zero is the canonical text of its
    value. *)
Lemma digits_unique fuel c s :
  49 <= c <= 57 -> Forall digit s -> (length s < fuel)%nat ->
  digits fuel (dec_val (c - 48) s) = c :: s.
Proof.
  intros Hc. revert fuel. induction s as [|d s IH] using rev_ind; intros fuel Hs Hf;
    (destruct fuel as [|fuel]; [lia|]); cbn [digits].
  - cbn [dec_val]. rewrite (proj2 (Z.ltb_lt _ _)) by lia. do 2 f_equal. lia.
  - apply Forall_app in Hs as [Hs [Hd _]%Forall_cons]. rewrite length_app in Hf. simpl in Hf.
    rewrite dec_val_app. pose proof (dec_val_mono (c - 48) s ltac:(lia) Hs) as Hm.
    rewrite (proj2 (Z.ltb_ge _ 10)) by lia.
    assert ((dec_val (c - 48) s * 10 + (d - 48)) / 10 = dec_val (c - 48) s) as ->.
    { symmetry. apply (Z.div_unique _ _ _ (d - 48)); lia. }
    assert ((dec_val (c - 48) s * 10 + (d - 48)) mod 10 = d - 48) as ->.
    { symmetry. apply (Z.mod_unique _ _ (dec_val (c - 48) s)); lia. }
    rewrite IH by (done || lia). cbn [app]. do 2 f_equal. f_equal. lia.
Qed.

Lemma digits_head fuel n :
  0 < n < 10 ^ Z.of_nat fuel -> exists c s, digits fuel n = c :: s /\ 49 <= c <= 57.
Proof.
  revert n. induction fuel as [|fuel IH]; intros n Hn; [simpl in Hn; lia|]. cbn [digits].
  destruct (Z.ltb_spec n 10); [eexists _, _; split; [done|]; lia|].
  destruct (IH (n / 10)) as (c & s & -> & Hc); [|by eexists _, _].
  split; [apply Z.div_str_pos; lia|]. apply Z.div_lt_upper_bound; [lia|].
  rewrite <- Z.pow_succ_r by lia. replace (Z.succ _) with (Z.of_nat (S fuel)) by lia. lia.
Qed.

Lemma dec_length c s :
  49 <= c <= 57 -> Forall digit s -> dec_val (c - 48) s <= ULLONG_MAX -> (length s < 20)%nat.
Proof.
  intros Hc Hs Hv. pose proof (dec_val_ge (c - 48) s ltac:(lia) Hs) as Hge.
  destruct (Nat.lt_ge_cases (length s) 20); [done|]. exfalso.
  assert (10 ^ 20 <= 10 ^ zlen s) by (apply Z.pow_le_mono_r; lia).
  change ULLONG_MAX with 18446744073709551615 in Hv.
  change (10 ^ 20) with 100000000000000000000 in *. nia.
Qed.

Lemma ll_digits_spec fuel v acc : 0 <= v < 10 ^ Z.of_nat fuel -> (0 < fuel)%nat ->
  ll_digits fuel v acc = digits fuel v ++ acc.
Proof.
  revert v acc. induction fuel as [|fuel IH]; intros v acc Hv Hf; [lia|]. cbn [ll_digits digits].
  destruct (Z.ltb_spec v 10) as [H|H].
  - rewrite Z.div_small, Z.mod_small by lia. done.
  - rewrite (proj2 (Z.eqb_neq (v / 10) 0)) by (pose proof (Z.div_str_pos v 10); lia).
    destruct fuel as [|fuel]; [simpl in Hv; lia|]. rewrite IH; [by rewrite <- app_assoc| |lia].
    split; [apply Z.div_pos; lia|]. apply Z.div_lt_upper_bound; [lia|].
    rewrite <- Z.pow_succ_r by lia. replace (Z.succ _) with (Z.of_nat (S (S fuel))) by lia. lia.
Qed.

Lemma string2ll_positive c s v :
  49 <= c <= 57 ->
  string2ll (c :: s) = Some v <->
  Forall digit s /\ v = dec_val (c - 48) s /\ v <= LLONG_MAX.
Proof.
  intros Hc. cbn [string2ll]. rewrite (proj2 (Z.eqb_neq c 48)), andb_false_r by lia.
  rewrite (proj2 (Z.eqb_neq c 45)) by lia. cbn iota.
  rewrite (proj2 (Z.leb_le 49 c)), (proj2 (Z.leb_le c 57)) by lia. cbn [andb].
  pose proof (fun r => string2ll_loop_spec (c - 48) s r) as Hspec.
  change ULLONG_MAX with 18446744073709551615 in Hspec. change LLONG_MAX with 9223372036854775807.
  destruct (string2ll_loop (c - 48) s) as [r|] eqn:E.
  - destruct (proj1 (Hspec r ltac:(lia)) eq_refl) as (Hs & -> & Hr).
    destruct (Z.ltb_spec 9223372036854775807 (dec_val (c - 48) s)).
    + split; [done|]. intros (_ & -> & ?). lia.
    + split; [intros [= <-]; done|]. by intros (_ & -> & _).
  - split; [done|]. intros (Hs & -> & Hv). exfalso.
    enough (None = Some (dec_val (c - 48) s)) by done. apply Hspec; [lia|]. split; [done|]. split; [done|]. lia.
Qed.

Lemma string2ll_negative c s v :
  49 <= c <= 57 ->
  string2ll (45 :: c :: s) = Some v <->
  Forall digit s /\ v = - dec_val (c - 48) s /\ LLONG_MIN <= v.
Proof.
  intros Hc. cbn [string2ll]. rewrite andb_false_r. change (45 =? 45) with true. cbn iota.
  rewrite (proj2 (Z.leb_le 49 c)), (proj2 (Z.leb_le c 57)) by lia. cbn [andb].
  pose proof (fun r => string2ll_loop_spec (c - 48) s r) as Hspec.
  change ULLONG_MAX with 18446744073709551615 in Hspec.
  change (u64 (- (LLONG_MIN + 1)) + 1) with 9223372036854775808.
  change LLONG_MIN with (-9223372036854775808).
  destruct (string2ll_loop (c - 48) s) as [r|] eqn:E.
  - destruct (proj1 (Hspec r ltac:(lia)) eq_refl) as (Hs & -> & Hr).
    pose proof (dec_val_mono (c - 48) s ltac:(lia) Hs) as Hpos.
    destruct (Z.ltb_spec 9223372036854775808 (dec_val (c - 48) s)).
    + split; [done|]. intros (_ & -> & ?). lia.
    + assert (s64 (u64 (- dec_val (c - 48) s)) = - dec_val (c - 48) s) as ->.
      { unfold wraps, wrapu. rewrite Zplus_mod_idemp_l.
        change (2 ^ (64 - 1)) with 9223372036854775808. change (2 ^ 64) with 18446744073709551616.
        rewrite Z.mod_small; lia. }
      split; [intros [= <-]; split; [done|]; split; [done|lia]|]. by intros (_ & -> & _).
  - split; [done|]. intros (Hs & -> & Hv). exfalso.
    enough (None = Some (dec_val (c - 48) s)) by done. apply Hspec; [lia|]. split; [done|]. split; [done|]. lia.
Qed.

Lemma string2ll_fmt_d v : LLONG_MIN <= v <= LLONG_MAX -> string2ll (fmt_d v) = Some v.
Proof.
  change LLONG_MIN with (-9223372036854775808). change LLONG_MAX with 9223372036854775807.
  intros Hv. unfold fmt_d.
  assert (10 ^ Z.of_nat 20 = 100000000000000000000) as E20 by done.
  assert (forall n, 0 < n < 10 ^ Z.of_nat 20 ->
    exists c s, digits 20 n = c :: s /\ 49 <= c <= 57 /\ Forall digit s /\ dec_val (c - 48) s = n) as Hdig.
  { intros n Hn. destruct (digits_head 20 n Hn) as (c & s & E & Hc). exists c, s.
    pose proof (digits_are_digits 20 n ltac:(lia)) as HF. rewrite E in HF. apply Forall_cons in HF as [_ HF].
    split; [done|]. split; [done|]. split; [done|].
    pose proof (dec_val_digits 20 n ltac:(lia)) as HV. rewrite E in HV. exact HV. }
  destruct (Z.ltb_spec v 0) as [Hneg|Hpos].
  - destruct (Hdig (- v) ltac:(lia)) as (c & s & -> & Hc & Hs & Hval).
    apply string2ll_negative; [done|]. split; [done|]. change LLONG_MIN with (-9223372036854775808). lia.
  - destruct (Z.eq_dec v 0) as [->|Hnz]; [done|].
    destruct (Hdig v ltac:(lia)) as (c & s & -> & Hc & Hs & Hval).
    apply string2ll_positive; [done|]. split; [done|]. change LLONG_MAX with 9223372036854775807. lia.
Qed.

Lemma string2ll_sound s v : string2ll s = Some v -> LLONG_MIN <= v <= LLONG_MAX /\ s = fmt_d v.
Proof.
  change LLONG_MIN with (-9223372036854775808). change LLONG_MAX with 9223372036854775807.
  intros H. destruct s as [|c0 s0]; [done|].
  destruct (decide (c0 :: s0 = [48])) as [E|E]; [rewrite E in *; injection H as <-; split; [lia|done]|].
  destruct (Z.eq_dec c0 45) as [->|Hm].
  - destruct s0 as [|c s]; [done|]. destruct (decide (49 <= c <= 57)) as [Hc|Hc].
    + apply string2ll_negative in H as (Hs & -> & Hmin); [|done]. change LLONG_MIN with (-9223372036854775808) in Hmin.
      pose proof (dec_val_mono (c - 48) s ltac:(lia) Hs) as Hpos. split; [lia|].
      unfold fmt_d. rewrite (proj2 (Z.ltb_lt _ 0)), Z.opp_involutive by lia. f_equal. symmetry.
      apply digits_unique; [done|done|]. apply (Nat.lt_le_trans _ 20); [|lia]. apply (dec_length c); [done|done|].
      change ULLONG_MAX with 18446744073709551615. lia.
    + exfalso. revert H. cbn [string2ll]. rewrite andb_false_r. change (45 =? 45) with true. cbn iota.
      destruct ((49 <=? c) && (c <=? 57)) eqn:Ec; [apply andb_true_iff in Ec as [?%Z.leb_le ?%Z.leb_le]; lia|].
      replace (zlen (45 :: c :: s) =? 1) with false by (symmetry; apply Z.eqb_neq; simpl; lia).
      by rewrite andb_false_r.
  - destruct (decide (49 <= c0 <= 57)) as [Hc|Hc].
    + apply string2ll_positive in H as (Hs & -> & Hmax); [|done]. change LLONG_MAX with 9223372036854775807 in Hmax.
      pose proof (dec_val_mono (c0 - 48) s0 ltac:(lia) Hs) as Hpos. split; [lia|].
      unfold fmt_d. rewrite (proj2 (Z.ltb_ge _ 0)) by lia. symmetry.
      apply digits_unique; [done|done|]. apply (dec_length c0); [done|done|].
      change ULLONG_MAX with 18446744073709551615. lia.
    + exfalso. revert H. cbn [string2ll].
      destruct (bool_decide (s0 = []) && (c0 =? 48)) eqn:Ez.
      { apply andb_true_iff in Ez as [?%bool_decide_eq_true ?%Z.eqb_eq]. congruence. }
      rewrite (proj2 (Z.eqb_neq c0 45)) by done. cbn iota.
      destruct ((49 <=? c0) && (c0 <=? 57)) eqn:Ec; [apply andb_true_iff in Ec as [?%Z.leb_le ?%Z.leb_le]; lia|].
      destruct (c0 =? 48) eqn:E0; [|done]. destruct s0; [done|].
      by replace (zlen (c0 :: z :: s0) =? 1) with false by (symmetry; apply Z.eqb_neq; simpl; lia).
Qed.

(** [string2ll] is exact.  It accepts a byte string exactly when it is
    the canonical decimal text of a 64-bit integer, and returns that
    integer: no overflow, sign, leading zero or trailing byte slips
    through. *)
Theorem string2ll_exact s v :
  string2ll s = Some v <-> LLONG_MIN <= v <= LLONG_MAX /\ s = fmt_d v.
Proof. split; [apply string2ll_sound|]. intros [Hv ->]. by apply string2ll_fmt_d. Qed.

Lemma ll2string_spec len v :
  LLONG_MIN <= v <= LLONG_MAX -> 22 <= len -> ll2string len v = (zlen (fmt_d v), Some (fmt_d v)).
Proof.
  change LLONG_MIN with (-9223372036854775808). change LLONG_MAX with 9223372036854775807.
  intros Hv Hl. unfold ll2string. rewrite (proj2 (Z.eqb_neq len 0)) by lia.
  assert ((if v <? 0 then 45 :: ll_digits 20 (if v <? 0 then u64 (- v) else v) []
           else ll_digits 20 (if v <? 0 then u64 (- v) else v) []) = fmt_d v) as ->.
  { unfold fmt_d. destruct (Z.ltb_spec v 0).
    - rewrite wrapu_small by cint. rewrite ll_digits_spec, app_nil_r; [done| |lia].
      change (10 ^ Z.of_nat 20) with 100000000000000000000. lia.
    - rewrite ll_digits_spec, app_nil_r; [done| |lia].
      change (10 ^ Z.of_nat 20) with 100000000000000000000. lia. }
  pose proof (length_fmt_d v). rewrite (proj2 (Z.ltb_ge len _)) by lia.
  by rewrite Nat2Z.id, firstn_all.
Qed.

(** Printing and reading back a 64-bit integer.  With a buffer of at
    least 22 bytes [ll2string] stores the whole text and [string2ll] returns
    the integer, the smallest one included. *)
Theorem ll2string_roundtrip len v :
  LLONG_MIN <= v <= LLONG_MAX -> 22 <= len ->
  exists s, ll2string len v = (zlen s, Some s) /\ zlen s < len /\ string2ll s = Some v.
Proof.
  intros Hv Hl. exists (fmt_d v). split; [by apply ll2string_spec|].
  split; [pose proof (length_fmt_d v); lia|by apply string2ll_fmt_d].
Qed.

Lemma ll2string_roundtrip_witness :
  exists s, ll2string 22 LLONG_MIN = (zlen s, Some s) /\ zlen s < 22 /\ string2ll s = Some LLONG_MIN.
Proof. apply (ll2string_roundtrip 22 LLONG_MIN); vm_compute; intuition congruence. Defined.

(** A buffer that is too small truncates the text but stays terminated. *)
Lemma ll2string_fits len v l s : 0 < len -> ll2string len v = (l, Some s) -> zlen s < len.
Proof.
  intros Hl. unfold ll2string. rewrite (proj2 (Z.eqb_neq len 0)) by lia.
  set (text := if v <? 0 then _ else _). intros [= <- <-].
  destruct (Z.ltb_spec len (zlen text + 1)); rewrite length_take; lia.
Qed.

End Util.
