(* ===== verification/Libc.v ===== *)
(** * Numbers and lines from the C library

    [strtol], [strtoll] and [atoi], as the C standard and the GNU library
    define them: leading white space and one sign are skipped, the longest
    run of digits is the number, a number out of range gives the nearest
    bound and sets [errno], and no digits at all give zero with nothing
    consumed.  [atoi] is [strtol] converted to [int]; [long] and [long long]
    have 64 bits.  [take_line] is what [fgets] takes from a stream.  The two
    configuration readers use them. *)

From S2P Require Import Prelude Sds Util.

Module Libc.
Import Sds Util.

(** ** Numbers *)

Definition digit_in (base c : Z) : bool := (48 <=? c) && (c <? 48 + base).

(** The leading digits of a text, and what follows them. *)
Fixpoint span_digits (base : Z) (s : list Z) : list Z * list Z :=
  match s with
  | c :: s1 => if digit_in base c then let '(d, r) := span_digits base s1 in (c :: d, r) else ([], s)
  | [] => ([], [])
  end.

Definition digits_val (base : Z) (ds : list Z) : Z := fold_left (fun v c => v * base + (c - 48)) ds 0.

Definition clamp (lo hi v : Z) : Z := Z.max lo (Z.min hi v).

(** [strtoll] for a base up to ten: the value, the text from [*endptr] on,
    and whether [errno] is set to [ERANGE]. *)
Definition strto (base : Z) (s : list Z) : Z * list Z * bool :=
  let s1 := skip_blanks (cstr s) in
  let '(neg, s2) :=
    match s1 with
    | c :: r => if c =? 45 then (true, r) else if c =? 43 then (false, r) else (false, s1)
    | [] => (false, s1)
    end in
  let '(ds, r) := span_digits base s2 in
  match ds with
  | [] => (0, cstr s, false)
  | _ =>
      let v := if neg then - digits_val base ds else digits_val base ds in
      let w := clamp LLONG_MIN LLONG_MAX v in (w, r, negb (w =? v))
  end.

Definition strtoll (s : list Z) : Z := (strto 10 s).1.1.
Definition strtol (s : list Z) : Z := strtoll s.
Definition atoi (s : list Z) : Z := s32 (strtol s).

Lemma strto_bounds base s : LLONG_MIN <= (strto base s).1.1 <= LLONG_MAX.
Proof.
  unfold strto. destruct (match skip_blanks _ with [] => _ | _ => _ end) as [neg s2].
  destruct (span_digits base s2) as [[|d ds] r]; cbn [fst]; unfold clamp, LLONG_MIN, LLONG_MAX; lia.
Qed.

Lemma strtoll_bounds s : LLONG_MIN <= strtoll s <= LLONG_MAX.
Proof. apply strto_bounds. Qed.

Lemma atoi_bounds s : - 2 ^ 31 <= atoi s < 2 ^ 31.
Proof. apply (wraps_bound 32); lia. Qed.

(** ** [fgets]: at most [n] bytes, up to and with a newline *)

Fixpoint take_line (n : nat) (s : list Z) : list Z * list Z :=
  match n, s with
  | S n, c :: s1 => if c =? 10 then ([c], s1) else let '(l, r) := take_line n s1 in (c :: l, r)
  | _, _ => ([], s)
  end.

Lemma take_line_split n s : s = (take_line n s).1 ++ (take_line n s).2.
Proof.
  revert s. induction n as [|n IH]; intros [|c s]; cbn [take_line]; try done.
  destruct (c =? 10); [done|]. specialize (IH s). destruct (take_line n s) as [l r]. cbn in *. by rewrite <- IH.
Qed.

Lemma take_line_length n s : (length (take_line n s).1 <= n)%nat.
Proof.
  revert s. induction n as [|n IH]; intros [|c s]; cbn [take_line]; cbn; try lia.
  destruct (c =? 10); cbn; [lia|]. specialize (IH s). destruct (take_line n s). cbn in *. lia.
Qed.

Lemma take_line_nonempty n s : (0 < n)%nat -> s <> [] -> (0 < length (take_line n s).1)%nat.
Proof.
  destruct n as [|n], s as [|c s]; try lia; try done. intros _ _. cbn [take_line].
  destruct (c =? 10); [cbn; lia|]. destruct (take_line n s). cbn. lia.
Qed.

(** A whole stream read with [fgets] into a buffer of [n + 1] bytes: what
    each call leaves there as a C string. *)
Fixpoint pieces (n fuel : nat) (stream : list Z) : list (list Z) :=
  match fuel, stream with
  | S fuel, _ :: _ => let '(l, r) := take_line n stream in cstr l :: pieces n fuel r
  | _, _ => []
  end.

(** Without zero bytes nothing is lost. *)
Lemma pieces_concat n fuel s :
  (0 < n)%nat -> (length s <= fuel)%nat -> 0 ∉ s -> concat (pieces n fuel s) = s.
Proof.
  intros Hn. revert s. induction fuel as [|fuel IH]; intros [|c s] Hf H0; try (cbn in Hf; lia); try done.
  set (t := c :: s) in *. change (pieces n (S fuel) t) with
    (let '(l, r) := take_line n t in cstr l :: pieces n fuel r).
  pose proof (take_line_split n t) as Ht. pose proof (take_line_nonempty n t Hn ltac:(done)) as Hne.
  destruct (take_line n t) as [l r]. cbn [fst snd] in *. clearbody t. subst t.
  apply not_elem_of_app in H0 as [Hl Hr]. rewrite length_app in Hf. cbn [concat].
  rewrite IH by (done || lia). f_equal. apply cstr_id, Forall_forall. by intros x Hx ->.
Qed.

(** ** Examples *)

Example strtoll_signed : strto 10 (bytes_of_string "  -42kb") = (-42, bytes_of_string "kb", false).
Proof. reflexivity. Qed.

Example strtoll_none : strto 10 (bytes_of_string " -x") = (0, bytes_of_string " -x", false).
Proof. reflexivity. Qed.

Example strtol_octal : strto 8 (bytes_of_string "0755") = (493, [], false).
Proof. reflexivity. Qed.

Example strtoll_saturates :
  strto 10 (bytes_of_string "9223372036854775808") = (9223372036854775807, [], true).
Proof. reflexivity. Qed.

End Libc.
