(* ===== verification/SdsBuf.v ===== *)
(** * sds.c: strings in their buffers

    A dynamic string is a header with its length and its free space, and a
    buffer that holds one byte more than both for the terminator.  The
    functions of [Sds] and of the other files use such strings as lists of
    bytes; here they are the memory the code works on, with every access
    checked. *)

From S2P Require Import Prelude Sds Util.

Module SdsBuf.

Definition SDS_MAX_PREALLOC : Z := 1024 * 1024.

(** [len] and [free] are [int]s. *)
Record sdshdr := Sdshdr { slen : Z; sfree : Z; sbuf : list Z }.

(** Fresh memory holds any bytes; the allocator ends the program when there
    is no memory. *)
Definition zmalloc (junk : nat -> Z) (n : Z) : list Z := junk <$> seq 0 (Z.to_nat n).

Definition zrealloc (junk : nat -> Z) (b : list Z) (n : Z) : list Z :=
  take (Z.to_nat n) b ++ (junk <$> seq (length b) (Z.to_nat n - length b)).

Definition sdslen (s : sdshdr) : Z := u64 (slen s).
Definition sdsavail (s : sdshdr) : Z := u64 (sfree s).

(** ** Creation *)

(** [init] is the memory behind the pointer, [None] for NULL. *)
Definition sdsnewlen (junk : nat -> Z) (init : option (list Z)) (initlen : Z) : option sdshdr :=
  let b := match init with
           | Some _ => zmalloc junk (initlen + 1)
           | None => replicate (Z.to_nat (initlen + 1)) 0
           end in
  let? b := match init with
            | Some p => if negb (initlen =? 0) then let? t := zread p 0 initlen in zwrite b 0 t else Some b
            | None => Some b
            end in
  let? b := zset b initlen 0 in
  Some (Sdshdr (s32 initlen) 0 b).

Definition sdsempty (junk : nat -> Z) : option sdshdr := sdsnewlen junk (Some [0]) 0.

Definition sdsnew (junk : nat -> Z) (init : option (list Z)) : option sdshdr :=
  sdsnewlen junk init (match init with None => 0 | Some p => strlen p end).

Definition sdsdup (junk : nat -> Z) (s : sdshdr) : option sdshdr := sdsnewlen junk (Some (sbuf s)) (sdslen s).

(** ** Length and room *)

(** [strlen] reads up to a terminator, which must be there. *)
Definition strlen_at (b : list Z) : option Z := if bool_decide (0 ∈ b) then Some (strlen b) else None.

Definition sdsupdatelen (s : sdshdr) : option sdshdr :=
  let? reallen := strlen_at (sbuf s) in
  let reallen := s32 reallen in
  Some (Sdshdr reallen (s32 (sfree s + (slen s - reallen))) (sbuf s)).

Definition sdsclear (s : sdshdr) : option sdshdr :=
  let? b := zset (sbuf s) 0 0 in
  Some (Sdshdr 0 (s32 (sfree s + slen s)) b).

Definition sdsMakeRoomFor (junk : nat -> Z) (s : sdshdr) (addlen : Z) : sdshdr :=
  if addlen <=? sdsavail s then s
  else
    let len := sdslen s in
    let newlen := u64 (len + addlen) in
    let newlen := if newlen <? SDS_MAX_PREALLOC then u64 (newlen * 2) else u64 (newlen + SDS_MAX_PREALLOC) in
    Sdshdr (slen s) (s32 (newlen - len)) (zrealloc junk (sbuf s) (newlen + 1)).

Definition sdsRemoveFreeSpace (junk : nat -> Z) (s : sdshdr) : sdshdr :=
  Sdshdr (slen s) 0 (zrealloc junk (sbuf s) (slen s + 1)).

(** The header takes 8 bytes. *)
Definition sdsAllocSize (s : sdshdr) : Z := u64 (8 + u64 (slen s) + u64 (sfree s) + 1).

Definition sdsIncrLen (s : sdshdr) (incr : Z) : option sdshdr :=
  if sfree s <? incr then None (* assert *)
  else
    let len := s32 (slen s + incr) in
    let free := s32 (sfree s - incr) in
    if free <? 0 then None (* assert *)
    else let? b := zset (sbuf s) len 0 in Some (Sdshdr len free b).

Definition sdsgrowzero (junk : nat -> Z) (s : sdshdr) (len : Z) : option sdshdr :=
  let curlen := u64 (slen s) in
  if len <=? curlen then Some s
  else
    let s := sdsMakeRoomFor junk s (len - curlen) in
    let? b := zwrite (sbuf s) curlen (replicate (Z.to_nat (len - curlen + 1)) 0) in
    let totlen := u64 (slen s + sfree s) in
    let slen := s32 len in
    Some (Sdshdr slen (s32 (totlen - slen)) b).

(** ** Appending and copying *)

Definition sdscatlen (junk : nat -> Z) (s : sdshdr) (t : list Z) (len : Z) : option sdshdr :=
  let curlen := sdslen s in
  let s := sdsMakeRoomFor junk s len in
  let? t := zread t 0 len in
  let? b := zwrite (sbuf s) curlen t in
  let? b := zset b (curlen + len) 0 in
  Some (Sdshdr (s32 (curlen + len)) (s32 (sfree s - len)) b).

Definition sdscat (junk : nat -> Z) (s : sdshdr) (t : list Z) : option sdshdr :=
  let? n := strlen_at t in sdscatlen junk s t n.

Definition sdscatsds (junk : nat -> Z) (s t : sdshdr) : option sdshdr := sdscatlen junk s (sbuf t) (sdslen t).

Definition sdscpylen (junk : nat -> Z) (s : sdshdr) (t : list Z) (len : Z) : option sdshdr :=
  let totlen := u64 (sfree s + slen s) in
  let '(s, totlen) :=
    if totlen <? len then
      let s := sdsMakeRoomFor junk s (u64 (len - slen s)) in (s, u64 (sfree s + slen s))
    else (s, totlen) in
  let? t := zread t 0 len in
  let? b := zwrite (sbuf s) 0 t in
  let? b := zset b len 0 in
  Some (Sdshdr (s32 len) (s32 (totlen - len)) b).

Definition sdscpy (junk : nat -> Z) (s : sdshdr) (t : list Z) : option sdshdr :=
  let? n := strlen_at t in sdscpylen junk s t n.

(** [vsnprintf] of a format whose full output is [text]. *)
Definition vsnprintf (b : list Z) (buflen : Z) (text : list Z) : option (list Z) :=
  zwrite b 0 (take (Z.to_nat (buflen - 1)) text ++ [0]).

(** The loop doubles the buffer until the output fits: 64 turns are more
    than memory holds. *)
Fixpoint printf_loop (fuel : nat) (junk : nat -> Z) (buflen : Z) (text : list Z) : option (list Z) :=
  match fuel with
  | O => None
  | S fuel =>
      let b := zmalloc junk buflen in
      let? b := zset b (buflen - 2) 0 in
      let? b := vsnprintf b buflen text in
      let? c := zget b (buflen - 2) in
      if negb (c =? 0) then printf_loop fuel junk (u64 (buflen * 2)) text else Some b
  end.

Definition sdscatvprintf (junk : nat -> Z) (s : sdshdr) (text : list Z) : option sdshdr :=
  let? b := printf_loop 64 junk 16 text in
  sdscat junk s b.

(** ** Changes in place *)

(** [strchr(cset, c)] finds the terminator too. *)
Definition in_cset (cset : list Z) (c : Z) : bool := (c =? 0) || bool_decide (c ∈ cstr cset).

Fixpoint trim_left (fuel : nat) (b cset : list Z) (sp end_ : Z) : option Z :=
  match fuel with
  | O => None
  | S fuel =>
      if sp <=? end_ then
        let? c := zget b sp in if in_cset cset c then trim_left fuel b cset (sp + 1) end_ else Some sp
      else Some sp
  end.

Fixpoint trim_right (fuel : nat) (b cset : list Z) (ep : Z) : option Z :=
  match fuel with
  | O => None
  | S fuel =>
      if 0 <? ep then
        let? c := zget b ep in if in_cset cset c then trim_right fuel b cset (ep - 1) else Some ep
      else Some ep
  end.

Definition sdstrim (s : sdshdr) (cset : list Z) : option sdshdr :=
  let fuel := S (length (sbuf s)) in
  let end_ := sdslen s - 1 in
  let? sp := trim_left fuel (sbuf s) cset 0 end_ in
  let? ep := trim_right fuel (sbuf s) cset end_ in
  let len := if ep <? sp then 0 else ep - sp + 1 in
  let? b := (if negb (sp =? 0) then let? t := zread (sbuf s) sp len in zwrite (sbuf s) 0 t else Some (sbuf s)) in
  let? b := zset b len 0 in
  Some (Sdshdr (s32 len) (s32 (sfree s + (slen s - len))) b).

Definition sdsrange (s : sdshdr) (start end_ : Z) : option sdshdr :=
  let len := sdslen s in
  if len =? 0 then Some s
  else
    let start := if start <? 0 then (let start := s32 (len + start) in if start <? 0 then 0 else start) else start in
    let end_ := if end_ <? 0 then (let end_ := s32 (len + end_) in if end_ <? 0 then 0 else end_) else end_ in
    let newlen := if end_ <? start then 0 else u64 (s32 (end_ - start + 1)) in
    let '(start, newlen) :=
      if negb (newlen =? 0) then
        if s32 len <=? start then (start, 0)
        else if s32 len <=? end_ then
          let end_ := s32 (len - 1) in (start, if end_ <? start then 0 else end_ - start + 1)
        else (start, newlen)
      else (0, newlen) in
    let? b := (if negb (start =? 0) && negb (newlen =? 0)
               then let? t := zread (sbuf s) start newlen in zwrite (sbuf s) 0 t else Some (sbuf s)) in
    let? b := zset b newlen 0 in
    Some (Sdshdr (s32 newlen) (s32 (sfree s + (slen s - newlen))) b).

(** [for (j = 0; j < len; j++) s[j] = f(s[j])] *)
Fixpoint char_loop (n : nat) (f : Z -> Z) (j : Z) (b : list Z) : option (list Z) :=
  match n with
  | O => Some b
  | S n => let? c := zget b j in let? b := zset b j (f c) in char_loop n f (j + 1) b
  end.

Definition each_char (f : Z -> Z) (s : sdshdr) : option sdshdr :=
  let? b := char_loop (Z.to_nat (slen s)) f 0 (sbuf s) in Some (Sdshdr (slen s) (sfree s) b).

Definition toupper (c : Z) : Z := if (97 <=? c) && (c <=? 122) then c - 32 else c.

Definition sdstolower (s : sdshdr) : option sdshdr := each_char tolower s.
Definition sdstoupper (s : sdshdr) : option sdshdr := each_char toupper s.

(** The first position of [c] in [from] selects the character of [to]. *)
Fixpoint mapped (c : Z) (from to : list Z) : Z :=
  match from, to with
  | f :: from, t :: to => if c =? f then t else mapped c from to
  | _, _ => c
  end.

(** [from] and [to] are the [setlen] bytes of the two sets. *)
Definition sdsmapchars (s : sdshdr) (from to : list Z) : option sdshdr :=
  each_char (fun c => mapped c from to) s.

(** ** Comparing, splitting and joining *)

(** The difference of the first bytes that differ. *)
Fixpoint memcmp (a b : list Z) : Z :=
  match a, b with
  | x :: a, y :: b => if x =? y then memcmp a b else x - y
  | _, _ => 0
  end.

Definition sdscmp (s1 s2 : sdshdr) : option Z :=
  let l1 := sdslen s1 in
  let l2 := sdslen s2 in
  let minlen := if l1 <? l2 then l1 else l2 in
  let? a := zread (sbuf s1) 0 minlen in
  let? b := zread (sbuf s2) 0 minlen in
  let cmp := memcmp a b in
  Some (if cmp =? 0 then s32 (l1 - l2) else cmp).

(** The array of tokens has [slots] places; storing past them is a fault. *)
Definition put_token (junk : nat -> Z) (slots : Z) (tokens : list sdshdr) (s : list Z) (start n : Z)
  : option (list sdshdr) :=
  if slots <=? zlen tokens then None
  else let? t := sdsnewlen junk (Some (drop (Z.to_nat start) s)) n in Some (tokens ++ [t]).

(** The loop over [j] and the final element. *)
Fixpoint split_loop (fuel : nat) (junk : nat -> Z) (s : list Z) (len : Z) (sep : list Z) (seplen : Z)
    (slots : Z) (tokens : list sdshdr) (start j : Z) : option (list sdshdr) :=
  match fuel with
  | O => None
  | S fuel =>
      if j <? len - (seplen - 1) then
        let slots := if slots <? zlen tokens + 2 then slots * 2 else slots in
        let? c := zget s j in
        let? c0 := zget sep 0 in
        let? a := zread s j seplen in
        let? b := zread sep 0 seplen in
        if ((seplen =? 1) && (c =? c0)) || (memcmp a b =? 0) then
          let? tokens := put_token junk slots tokens s start (j - start) in
          split_loop fuel junk s len sep seplen slots tokens (j + seplen) (j + seplen)
        else split_loop fuel junk s len sep seplen slots tokens start (j + 1)
      else put_token junk slots tokens s start (len - start)
  end.

(** NULL is [Some None]. *)
Definition sdssplitlen (junk : nat -> Z) (s : list Z) (len : Z) (sep : list Z) (seplen : Z)
  : option (option (list sdshdr)) :=
  if (seplen <? 1) || (len <? 0) then Some None
  else if len =? 0 then Some (Some [])
  else let? tokens := split_loop (S (Z.to_nat len)) junk s len sep seplen 5 [] 0 0 in Some (Some tokens).

Fixpoint join_loop (junk : nat -> Z) (join : sdshdr) (argv : list (list Z)) (sep : list Z) : option sdshdr :=
  match argv with
  | [] => Some join
  | a :: argv =>
      let? join := sdscat junk join a in
      let? join := (if bool_decide (argv = []) then Some join else sdscat junk join sep) in
      join_loop junk join argv sep
  end.

Definition sdsjoin (junk : nat -> Z) (argv : list (list Z)) (sep : list Z) : option sdshdr :=
  let? join := sdsempty junk in join_loop junk join argv sep.

(** ** Numbers *)

(** [do { *p-- = '0'+(v%10); v /= 10; } while (v)] *)
Fixpoint fromll_loop (fuel : nat) (b : list Z) (p v : Z) : option (list Z * Z) :=
  match fuel with
  | O => None
  | S fuel =>
      let? b := zset b p (48 + v mod 10) in
      let p := p - 1 in
      let v := v / 10 in
      if v =? 0 then Some (b, p) else fromll_loop fuel b p v
  end.

(** [buf] is on the stack; 64 bits have at most twenty digits. *)
Definition sdsfromlonglong (junk : nat -> Z) (value : Z) : option sdshdr :=
  let v := if value <? 0 then u64 (- value) else value in
  let? (b, p) := fromll_loop 20 (zmalloc junk 32) 31 v in
  let? (b, p) := (if value <? 0 then let? b := zset b p 45 in Some (b, p - 1) else Some (b, p)) in
  let p := p + 1 in
  sdsnewlen junk (Some (drop (Z.to_nat p) b)) (32 - p).

End SdsBuf.
