(* ===== verification/SdsBufSpec.v ===== *)
(** * Dynamic strings implement byte strings

    A header and its buffer hold a list of bytes when the length is right,
    the terminator follows and the free space is what is left of the buffer.
    Every operation of [sds.c] preserves that, stays inside the buffer, and
    does to the bytes what the functional operation does. *)

From S2P Require Import Prelude Sds Util SdsBuf.
Import SdsBuf.

Module SdsBufProofs.

Definition MAX_LEN : Z := 2 ^ 30.

(** What the policy of [sdsMakeRoomFor] allocates for a string of that
    length. *)
Definition MAX_ALLOC : Z := 2 ^ 30 + 2 ^ 20.

Definition holds (s : sdshdr) (l : list Z) : Prop :=
  exists rest, s = Sdshdr (zlen l) (zlen rest) (l ++ 0 :: rest) /\ zlen l + zlen rest <= MAX_ALLOC.

(** ** Writes into a buffer *)

Lemma zwrite_mid {A} (a m m' r : list A) :
  length m = length m' -> zwrite (a ++ m ++ r) (zlen a) m' = Some (a ++ m' ++ r).
Proof.
  intros Hl. apply zwrite_Some. rewrite !length_app. split; [lia|]. rewrite Nat2Z.id.
  rewrite take_app_length. f_equal. f_equal. rewrite app_assoc, <- Hl, <- length_app. by rewrite drop_app_length.
Qed.

Lemma zset_mid {A} (a r : list A) x y : zset (a ++ x :: r) (zlen a) y = Some (a ++ y :: r).
Proof.
  rewrite zset_ok by (rewrite length_app; cbn; lia). rewrite Nat2Z.id. f_equal.
  by rewrite insert_app_r_alt, Nat.sub_diag by lia.
Qed.

Lemma zread_mid {A} (a m r : list A) : zread (a ++ m ++ r) (zlen a) (zlen m) = Some m.
Proof.
  apply zread_Some. rewrite !length_app. split; [lia|]. rewrite !Nat2Z.id. by rewrite drop_app_length, take_app_length.
Qed.

Lemma zread_all {A} (m r : list A) : zread (m ++ r) 0 (zlen m) = Some m.
Proof. exact (zread_mid [] m r). Qed.

Lemma cut_at {A} (b : list A) n : (n <= length b)%nat -> exists m r, b = m ++ r /\ length m = n.
Proof. intros Hn. exists (take n b), (drop n b). by rewrite take_drop, length_take_le. Qed.

(** Storing [t] and a terminator at some offset of a buffer. *)
Lemma store_at (a b t : list Z) :
  zlen t < zlen b ->
  exists rest, zlen rest = zlen b - zlen t - 1 /\
    (let? b := zwrite (a ++ b) (zlen a) t in zset b (zlen a + zlen t) 0) = Some (a ++ t ++ 0 :: rest).
Proof.
  intros Hl. destruct (cut_at b (length t)) as (m & r & -> & Hm); [lia|]. rewrite length_app in Hl.
  destruct r as [|x r]; [cbn in Hl; lia|]. exists r. split; [rewrite length_app; cbn; lia|].
  rewrite zwrite_mid by done. cbn [obind].
  replace (zlen a + zlen t) with (zlen (a ++ t)) by (rewrite length_app; lia).
  rewrite app_assoc, zset_mid. by rewrite <- app_assoc.
Qed.

Lemma store_front (b t : list Z) :
  zlen t < zlen b ->
  exists rest, zlen rest = zlen b - zlen t - 1 /\
    (let? b := zwrite b 0 t in zset b (zlen t) 0) = Some (t ++ 0 :: rest).
Proof. exact (store_at [] b t). Qed.

(** ** Lengths are small *)

Lemma len_u64 n : 0 <= n <= 2 * MAX_ALLOC -> u64 n = n.
Proof. unfold MAX_ALLOC. intros. unfold wrapu. apply Z.mod_small. lia. Qed.

Lemma len_s32 n : 0 <= n <= MAX_ALLOC -> s32 n = n.
Proof. unfold MAX_ALLOC. intros. apply s32_small. lia. Qed.

Lemma holds_sdslen s l : holds s l -> sdslen s = zlen l.
Proof. intros (rest & -> & Hl). unfold sdslen. cbn. apply len_u64. lia. Qed.

(** ** Creation *)

Lemma length_zmalloc junk n : 0 <= n -> zlen (zmalloc junk n) = n.
Proof. intros. unfold zmalloc. rewrite length_fmap, length_seq. lia. Qed.

Lemma sdsnewlen_spec junk p t :
  zread p 0 (zlen t) = Some t -> zlen t <= MAX_LEN ->
  exists s, sdsnewlen junk (Some p) (zlen t) = Some s /\ holds s t /\ sfree s = 0.
Proof.
  intros Hp Ht. unfold MAX_LEN in *. unfold sdsnewlen. pose proof (length_zmalloc junk (zlen t + 1) ltac:(lia)) as Hm.
  destruct (store_front (zmalloc junk (zlen t + 1)) t ltac:(lia)) as (rest & Hr & Hst).
  assert (rest = []) as -> by (destruct rest; [done|cbn in Hr; lia]).
  rewrite Hp. destruct (Z.eqb_spec (zlen t) 0) as [E|E]; cbn [negb obind].
  - destruct t; [|cbn in E; lia]. exists (Sdshdr 0 0 [0]). split; [reflexivity|]. split; [exists []|done].
    split; [done|unfold MAX_ALLOC; cbn; lia].
  - unfold obind in *. destruct (zwrite _ 0 t); [|done]. rewrite Hst. rewrite len_s32 by (unfold MAX_ALLOC; lia).
    eexists. split; [done|]. split; [exists []|done]. split; [done|unfold MAX_ALLOC; cbn; lia].
Qed.

(** ** Room *)

Lemma makeRoom_spec junk s l n :
  holds s l -> 0 <= n -> zlen l + n <= MAX_LEN ->
  exists rest, sdsMakeRoomFor junk s n = Sdshdr (zlen l) (zlen rest) (l ++ 0 :: rest) /\
    zlen l + zlen rest <= MAX_ALLOC /\ n <= zlen rest.
Proof.
  intros Hs Hn Hmax. pose proof (holds_sdslen s l Hs) as Hlen. destruct Hs as (rest & -> & Hl). unfold MAX_LEN, MAX_ALLOC in *.
  unfold sdsMakeRoomFor. rewrite Hlen. unfold sdsavail. cbn [sfree slen sbuf]. rewrite len_u64 by (unfold MAX_ALLOC; lia).
  destruct (Z.leb_spec n (zlen rest)); [by exists rest|].
  rewrite (len_u64 (zlen l + n)) by (unfold MAX_ALLOC; lia). set (newlen := if _ <? _ then _ else _).
  assert (Hnew : zlen l + n <= newlen <= 2 ^ 30 + 2 ^ 20).
  { subst newlen. unfold SDS_MAX_PREALLOC. destruct (Z.ltb_spec (zlen l + n) (1024 * 1024)); rewrite len_u64; unfold MAX_ALLOC; lia. }
  rewrite len_s32 by (unfold MAX_ALLOC; lia). unfold zrealloc. rewrite take_ge by (rewrite length_app; cbn; lia).
  set (more := junk <$> _). assert (zlen more = newlen - zlen l - zlen rest).
  { subst more. rewrite length_fmap, length_seq, length_app. cbn. lia. }
  exists (rest ++ more). rewrite length_app. split; [|lia]. f_equal; [lia|]. by rewrite <- app_assoc.
Qed.

Ltac small :=
  repeat first
    [rewrite len_u64 by (unfold MAX_LEN, MAX_ALLOC in *; lia) | rewrite len_s32 by (unfold MAX_LEN, MAX_ALLOC in *; lia)].

(** [holds] for a string given by its parts. *)
Lemma holds_intro l rest n f :
  n = zlen l -> f = zlen rest -> zlen l + zlen rest <= MAX_ALLOC -> holds (Sdshdr n f (l ++ 0 :: rest)) l.
Proof. intros -> -> ?. by exists rest. Qed.

(** ** Appending and copying *)

Lemma catlen_spec junk s l p t :
  holds s l -> zread p 0 (zlen t) = Some t -> zlen l + zlen t <= MAX_LEN ->
  exists s', sdscatlen junk s p (zlen t) = Some s' /\ holds s' (l ++ t).
Proof.
  intros Hs Hp Hmax. unfold sdscatlen. rewrite (holds_sdslen s l Hs).
  destruct (makeRoom_spec junk s l (zlen t) Hs ltac:(lia) Hmax) as (rest & -> & Hl & Hr). cbn [sbuf sfree]. rewrite Hp. cbn [obind].
  destruct (store_at l (0 :: rest) t) as (rest' & Hr' & Hst); [cbn; lia|]. cbn [length] in Hr'.
  unfold obind in *. destruct (zwrite _ (zlen l) t); [|done]. rewrite Hst. small.
  eexists. split; [done|]. rewrite app_assoc. apply holds_intro; rewrite ?length_app; lia.
Qed.

Lemma strlen_at_Some b : 0 ∈ b -> strlen_at b = Some (zlen (cstr b)).
Proof. intros Hb. unfold strlen_at. by rewrite bool_decide_eq_true_2. Qed.

Lemma cstr_prefix b : exists r, b = cstr b ++ r.
Proof.
  induction b as [|c b [r IH]]; [by exists []|]. cbn. destruct (c =? 0); [by exists (c :: b)|].
  exists r. cbn. by rewrite <- IH.
Qed.

Lemma zread_cstr b : zread b 0 (zlen (cstr b)) = Some (cstr b).
Proof. destruct (cstr_prefix b) as [r Hr]. rewrite Hr at 1. apply zread_all. Qed.

Lemma cat_spec junk s l t :
  holds s l -> 0 ∈ t -> zlen l + zlen (cstr t) <= MAX_LEN ->
  exists s', sdscat junk s t = Some s' /\ holds s' (l ++ cstr t).
Proof.
  intros Hs Ht Hmax. unfold sdscat. rewrite strlen_at_Some by done. cbn [obind].
  apply catlen_spec; [done| |done]. apply zread_cstr.
Qed.

Lemma catsds_spec junk s l u t :
  holds s l -> holds u t -> zlen l + zlen t <= MAX_LEN ->
  exists s', sdscatsds junk s u = Some s' /\ holds s' (l ++ t).
Proof.
  intros Hs Hu Hmax. unfold sdscatsds. rewrite (holds_sdslen u t Hu). destruct Hu as (rest & -> & _).
  apply catlen_spec; [done|apply zread_all|done].
Qed.

Lemma cpylen_spec junk s l p t :
  holds s l -> zread p 0 (zlen t) = Some t -> zlen t <= MAX_LEN ->
  exists s', sdscpylen junk s p (zlen t) = Some s' /\ holds s' t.
Proof.
  intros Hs Hp Hmax. unfold sdscpylen. set (r := if _ <? _ then _ else _).
  assert (exists n rest, r = (Sdshdr (zlen l) (zlen rest) (l ++ 0 :: rest), n) /\ n = zlen l + zlen rest /\
    n <= MAX_ALLOC /\ zlen t <= n) as (n & rest & -> & Hn & Hl & Ht).
  { subst r. destruct Hs as (rest & Heq & Hl). rewrite Heq. cbn [sfree slen]. small.
    destruct (Z.ltb_spec (zlen rest + zlen l) (zlen t)) as [Hlt|Hge].
    - destruct (makeRoom_spec junk s l (zlen t - zlen l)) as (rest' & Hm & Hl' & Hr'); [by exists rest|lia|lia|].
      rewrite Heq in Hm. rewrite (len_u64 (zlen t - zlen l)) by (unfold MAX_LEN, MAX_ALLOC in *; lia).
      rewrite Hm. cbn [sfree slen]. small. eexists _, rest'. split; [done|]. lia.
    - eexists _, rest. split; [done|]. lia. }
  rewrite Hp. cbn [obind sbuf sfree].
  destruct (store_front (l ++ 0 :: rest) t) as (rest' & Hr' & Hst); [rewrite length_app; cbn; lia|].
  rewrite length_app in Hr'. cbn [length] in Hr'.
  unfold obind in *. destruct (zwrite _ 0 t); [|done]. rewrite Hst. small.
  eexists. split; [done|]. apply holds_intro; lia.
Qed.

Lemma incrlen_spec l rest k :
  zlen l + zlen rest <= MAX_ALLOC -> forall t, l ++ 0 :: rest = t ++ k -> k <> [] ->
  exists s', sdsIncrLen (Sdshdr (zlen l) (zlen rest) (l ++ 0 :: rest)) (zlen t - zlen l) = Some s' /\ holds s' t.
Proof.
  intros Hl t Heq Hk. unfold sdsIncrLen. cbn [sfree slen sbuf]. destruct k as [|x k]; [done|].
  pose proof (f_equal length Heq) as Hlen. rewrite !length_app in Hlen. cbn in Hlen.
  rewrite (proj2 (Z.ltb_ge _ _)) by lia. rewrite (len_s32 (zlen rest - (zlen t - zlen l))) by lia.
  rewrite (proj2 (Z.ltb_ge _ _)) by lia. replace (zlen l + (zlen t - zlen l)) with (zlen t) by lia. small.
  rewrite Heq, zset_mid. cbn. eexists. split; [done|]. apply holds_intro; lia.
Qed.

(** Bytes read from elsewhere into the room behind the string. *)
Definition read_into (junk : nat -> Z) (s : sdshdr) (n : Z) (bs : list Z) : option sdshdr :=
  let old := sdslen s in
  let s := sdsMakeRoomFor junk s n in
  let? b := zwrite (sbuf s) old bs in
  sdsIncrLen (Sdshdr (slen s) (sfree s) b) (zlen bs).

Lemma read_into_spec junk s l n bs :
  holds s l -> zlen bs <= n -> zlen l + n <= MAX_LEN ->
  exists s', read_into junk s n bs = Some s' /\ holds s' (l ++ bs).
Proof.
  intros Hs Hb Hmax. unfold read_into. rewrite (holds_sdslen s l Hs).
  destruct (makeRoom_spec junk s l n Hs ltac:(lia) Hmax) as (rest & -> & Hl & Hr). cbn [sbuf sfree slen].
  destruct (cut_at (0 :: rest) (length bs)) as (m & r & Heq & Hm); [cbn; lia|].
  pose proof (f_equal length Heq) as Hlen. rewrite length_app in Hlen. cbn [length] in Hlen.
  destruct r as [|x r]; [cbn in Hlen; lia|]. rewrite Heq, zwrite_mid by done. cbn [obind].
  unfold sdsIncrLen. cbn [sfree slen sbuf length] in *. rewrite (proj2 (Z.ltb_ge _ _)) by lia.
  rewrite (len_s32 (zlen rest - zlen bs)) by lia. rewrite (proj2 (Z.ltb_ge _ _)) by lia. small.
  replace (zlen l + zlen bs) with (zlen (l ++ bs)) by (rewrite length_app; lia). rewrite app_assoc, zset_mid. cbn [obind].
  eexists. split; [done|]. apply holds_intro; rewrite ?length_app; lia.
Qed.

Lemma shorten_spec s l k :
  holds s l -> 0 <= k <= zlen l -> exists s', sdsIncrLen s (- k) = Some s' /\ holds s' (take (Z.to_nat (zlen l - k)) l).
Proof.
  intros (rest & -> & Hl) Hk. set (t := take _ l). assert (Ht : zlen t = zlen l - k) by (unfold t; rewrite length_take; lia).
  replace (- k) with (zlen t - zlen l) by lia.
  apply (incrlen_spec l rest (drop (Z.to_nat (zlen l - k)) l ++ 0 :: rest) Hl t).
  - unfold t. by rewrite app_assoc, take_drop.
  - by destruct (drop _ l).
Qed.

Lemma clear_spec s l : holds s l -> exists s', sdsclear s = Some s' /\ holds s' [].
Proof.
  intros (rest & -> & Hl). unfold sdsclear. cbn [sbuf sfree slen]. destruct (l ++ 0 :: rest) as [|x b] eqn:E; [by destruct l|].
  apply (f_equal length) in E. rewrite length_app in E. cbn in E. assert (zset (x :: b) 0 0 = Some (0 :: b)) as -> by exact (zset_mid [] b x 0). cbn [obind]. small.
  eexists. split; [done|]. apply (holds_intro [] b); cbn; lia.
Qed.

Lemma cstr_stop u r : cstr (u ++ 0 :: r) = cstr u.
Proof. induction u as [|c u IH]; [done|]. cbn. by destruct (c =? 0); rewrite ?IH. Qed.

Lemma updatelen_spec s l : holds s l -> exists s', sdsupdatelen s = Some s' /\ holds s' (cstr l).
Proof.
  intros (rest & -> & Hl). unfold sdsupdatelen. cbn [sbuf sfree slen].
  rewrite strlen_at_Some by (apply elem_of_app; right; left). rewrite cstr_stop. cbn [obind].
  pose proof (length_cstr l). small. eexists. split; [done|].
  assert (exists r, l ++ 0 :: rest = cstr l ++ 0 :: r) as [r Hr].
  { clear. induction l as [|c l [r IH]]; [by exists rest|]. cbn. destruct (Z.eqb_spec c 0) as [->|]; [by eexists|].
    exists r. cbn. by rewrite IH. }
  rewrite Hr. apply (f_equal length) in Hr. rewrite !length_app in Hr. cbn in Hr. apply holds_intro; lia.
Qed.

Lemma removefree_spec junk s l : holds s l -> holds (sdsRemoveFreeSpace junk s) l.
Proof.
  intros (rest & -> & Hl). unfold sdsRemoveFreeSpace, zrealloc. cbn [sbuf slen].
  replace (Z.to_nat (zlen l + 1)) with (length (l ++ [0])) by (rewrite length_app; cbn; lia).
  replace (l ++ 0 :: rest) with ((l ++ [0]) ++ rest) by by rewrite <- app_assoc. rewrite take_app_length.
  rewrite (proj2 (Nat.sub_0_le _ _)) by (rewrite !length_app; lia). cbn. rewrite app_nil_r.
  apply (holds_intro l []); cbn; lia.
Qed.

Lemma growzero_spec junk s l n :
  holds s l -> 0 <= n <= MAX_LEN ->
  exists s', sdsgrowzero junk s n = Some s' /\ holds s' (l ++ replicate (Z.to_nat (n - zlen l)) 0).
Proof.
  intros Hs Hn. unfold sdsgrowzero. pose proof (holds_sdslen s l Hs) as Hlen. unfold sdslen in Hlen. rewrite Hlen.
  destruct (Z.leb_spec n (zlen l)) as [Hle|Hgt].
  { exists s. split; [done|]. replace (Z.to_nat (n - zlen l)) with 0%nat by lia. cbn. by rewrite app_nil_r. }
  destruct (makeRoom_spec junk s l (n - zlen l) Hs ltac:(lia) ltac:(lia)) as (rest & -> & Hl & Hr). cbn [sbuf sfree slen].
  destruct (cut_at (0 :: rest) (Z.to_nat (n - zlen l + 1))) as (m & r & Heq & Hm); [cbn; lia|].
  pose proof (f_equal length Heq) as Hlr. rewrite length_app in Hlr. cbn [length] in Hlr.
  rewrite Heq, zwrite_mid by (by rewrite length_replicate). cbn [obind]. small. eexists. split; [done|].
  replace (Z.to_nat (n - zlen l + 1)) with (Z.to_nat (n - zlen l) + 1)%nat by lia.
  rewrite replicate_add, <- app_assoc, app_assoc. apply holds_intro; rewrite ?length_app, ?length_replicate; lia.
Qed.

(** ** Changes in place *)

(** Moving a part of the string to the front and ending it there. *)
Lemma slice_spec l rest start n :
  zlen l + zlen rest <= MAX_ALLOC -> 0 <= start -> 0 <= n -> start + n <= zlen l ->
  exists rest', zlen rest' = zlen l + zlen rest - n /\
    (let? b := (let? t := zread (l ++ 0 :: rest) start n in zwrite (l ++ 0 :: rest) 0 t) in zset b n 0) =
      Some (take (Z.to_nat n) (drop (Z.to_nat start) l) ++ 0 :: rest').
Proof.
  intros Hl Hst Hn Hle. set (t := take _ (drop _ l)). assert (Ht : zlen t = n) by (unfold t; rewrite length_take, length_drop; lia).
  assert (Hrd : zread (l ++ 0 :: rest) start n = Some t).
  { apply zread_Some. rewrite length_app. split; [cbn; lia|]. unfold t. rewrite drop_app_le by lia.
    rewrite take_app_le; [done|]. rewrite length_drop. lia. }
  destruct (store_front (l ++ 0 :: rest) t) as (rest' & Hr' & Hsto); [rewrite length_app; cbn; lia|].
  rewrite length_app in Hr'. cbn in Hr'. exists rest'. split; [lia|]. rewrite Hrd. cbn [obind]. by rewrite Ht in Hsto.
Qed.

Lemma zwrite_same (b : list Z) n t : zread b 0 n = Some t -> zwrite b 0 t = Some b.
Proof.
  intros [(_ & Hn & Hl) ->]%zread_Some. cbn [Z.to_nat]. rewrite drop_0. rewrite <- (take_drop (Z.to_nat n) b) at 1 3.
  exact (zwrite_mid [] (take (Z.to_nat n) b) (take (Z.to_nat n) b) (drop (Z.to_nat n) b) eq_refl).
Qed.

Lemma char_loop_spec f a m r : char_loop (length m) f (zlen a) (a ++ m ++ r) = Some (a ++ (f <$> m) ++ r).
Proof.
  revert a. induction m as [|c m IH]; intros a; [done|]. cbn [char_loop length app].
  assert (zget (a ++ c :: m ++ r) (zlen a) = Some c) as ->.
  { apply zget_Some. split; [lia|]. rewrite Nat2Z.id. by rewrite list_lookup_middle. }
  cbn [obind]. rewrite zset_mid. cbn [obind]. replace (zlen a + 1) with (zlen (a ++ [f c])) by (rewrite length_app; cbn; lia).
  replace (a ++ f c :: m ++ r) with ((a ++ [f c]) ++ m ++ r) by by rewrite <- app_assoc.
  rewrite IH. cbn. by rewrite <- app_assoc.
Qed.

Lemma each_char_spec f s l : holds s l -> exists s', each_char f s = Some s' /\ holds s' (f <$> l).
Proof.
  intros (rest & -> & Hl). unfold each_char. cbn [slen sfree sbuf]. rewrite Nat2Z.id.
  assert (char_loop (length l) f 0 (l ++ 0 :: rest) = Some ((f <$> l) ++ 0 :: rest)) as ->
    by exact (char_loop_spec f [] l (0 :: rest)). cbn [obind].
  eexists. split; [done|]. apply holds_intro; rewrite ?length_fmap; lia.
Qed.

(** The code moves only when there is something to move. *)
Lemma finish_slice s l start n (g : bool) :
  holds s l -> 0 <= start -> 0 <= n <= zlen l ->
  (if g then start + n <= zlen l else start = 0 \/ n = 0) ->
  exists s', (let? b := (if g then let? t := zread (sbuf s) start n in zwrite (sbuf s) 0 t else Some (sbuf s)) in
              let? b := zset b n 0 in
              Some (Sdshdr (s32 n) (s32 (sfree s + (slen s - n))) b)) = Some s' /\
    holds s' (take (Z.to_nat n) (drop (Z.to_nat start) l)).
Proof.
  intros (rest & -> & Hl) Hst Hn Hg. cbn [sbuf sfree slen].
  set (start' := if g then start else 0).
  assert (Heq : take (Z.to_nat n) (drop (Z.to_nat start) l) = take (Z.to_nat n) (drop (Z.to_nat start') l)).
  { subst start'. destruct g; [done|]. by destruct Hg as [->| ->]. }
  assert (Hle : start' + n <= zlen l) by (subst start'; destruct g; lia).
  assert (0 <= start') by (subst start'; destruct g; lia).
  destruct (slice_spec l rest start' n Hl ltac:(lia) ltac:(lia) Hle) as (rest' & Hr' & Hsl).
  assert (Hb : exists b, (if g then let? t := zread (l ++ 0 :: rest) start n in zwrite (l ++ 0 :: rest) 0 t else Some (l ++ 0 :: rest)) = Some b /\
    zset b n 0 = Some (take (Z.to_nat n) (drop (Z.to_nat start') l) ++ 0 :: rest')).
  { subst start'. destruct g.
    - destruct (zread _ start n) as [t|]; [|done]. cbn [obind] in *. destruct (zwrite _ 0 t) as [b|]; [|done]. by exists b.
    - exists (l ++ 0 :: rest). split; [done|]. destruct (zread (l ++ 0 :: rest) 0 n) as [t|] eqn:Er; [|done].
      cbn [obind] in Hsl. by rewrite (zwrite_same _ _ _ Er) in Hsl. }
  destruct Hb as (b & -> & Hb). cbn [obind]. rewrite Hb. cbn [obind]. small. rewrite Heq. eexists. split; [done|].
  apply holds_intro; rewrite ?length_take, ?length_drop; lia.
Qed.

Lemma range_spec s l start end_ :
  holds s l -> - 2 ^ 31 <= start < 2 ^ 31 -> - 2 ^ 31 <= end_ < 2 ^ 31 ->
  exists s', sdsrange s start end_ = Some s' /\ holds s' (Sds.sdsrange l start end_).
Proof.
  intros Hs Hst Hen. unfold sdsrange, Sds.sdsrange. rewrite (holds_sdslen s l Hs).
  assert (Hlen : zlen l <= MAX_ALLOC) by (destruct Hs as (rest & _ & ?); lia). unfold MAX_ALLOC in Hlen.
  destruct (Z.eqb_spec (zlen l) 0) as [H0|H0]; [by exists s|]. rewrite (s32_small (zlen l)), (s32_small (zlen l - 1)) by lia.
  assert (Hcl : forall x, - 2 ^ 31 <= x < 2 ^ 31 ->
    (if x <? 0 then (let y := s32 (zlen l + x) in if y <? 0 then 0 else y) else x) = (if x <? 0 then Z.max 0 (zlen l + x) else x)).
  { intros x Hx. destruct (Z.ltb_spec x 0); [|done]. cbv zeta. rewrite s32_small by lia. destruct (Z.ltb_spec (zlen l + x) 0); lia. }
  rewrite !Hcl by done. set (a := if start <? 0 then _ else _). set (e := if end_ <? 0 then _ else _).
  assert (Ha : 0 <= a < 2 ^ 31) by (subst a; destruct (Z.ltb_spec start 0); lia).
  assert (He : 0 <= e < 2 ^ 31) by (subst e; destruct (Z.ltb_spec end_ 0); lia). clearbody a e. cbv zeta.
  assert (Hnz : e >= a -> u64 (s32 (e - a + 1)) <> 0 /\ (e < zlen l -> u64 (s32 (e - a + 1)) = e - a + 1)).
  { intros Hea. destruct (decide (e - a + 1 = 2 ^ 31)) as [E|E]; [rewrite E; split; [done|lia]|].
    rewrite s32_small by lia. unfold wrapu. rewrite Z.mod_small; lia. }
  destruct (Z.ltb_spec e a) as [Hlt|Hge].
  - cbn. apply (finish_slice s l 0 0 false); [done|lia|lia|by left].
  - destruct (Hnz ltac:(lia)) as [Hn1 Hn2]. rewrite (proj2 (Z.eqb_neq _ _) Hn1). rewrite (proj2 (Z.eqb_neq (e - a + 1) 0)) by lia.
    cbn [negb]. destruct (Z.leb_spec (zlen l) a).
    { apply (finish_slice s l a 0); [done|lia|lia|]. rewrite andb_false_r. by right. }
    destruct (Z.leb_spec (zlen l) e).
    + rewrite (proj2 (Z.ltb_ge _ _)) by lia. apply finish_slice; [done|lia|lia|].
      destruct (Z.eqb_spec a 0), (Z.eqb_spec (zlen l - 1 - a + 1) 0); cbn; auto; lia.
    + rewrite Hn2 by lia. apply finish_slice; [done|lia|lia|].
      destruct (Z.eqb_spec a 0), (Z.eqb_spec (e - a + 1) 0); cbn; auto; lia.
Qed.

(** *** Trimming *)

Fixpoint drop_while (f : Z -> bool) (l : list Z) : list Z :=
  match l with c :: l' => if f c then drop_while f l' else l | [] => [] end.

(** The characters at both ends that satisfy [f] removed. *)
Definition strip (f : Z -> bool) (l : list Z) : list Z := reverse (drop_while f (reverse (drop_while f l))).

Lemma drop_while_app f (a b : list Z) : drop_while f a <> [] -> drop_while f (a ++ b) = drop_while f a ++ b.
Proof. induction a as [|c a IH]; [done|]. cbn. by destruct (f c). Qed.

Lemma drop_while_split f l : exists a, l = a ++ drop_while f l /\ Forall (fun c => f c = true) a.
Proof.
  induction l as [|c l (a & Hl & Ha)]; [by exists []|]. cbn. destruct (f c) eqn:E; [|by exists []].
  exists (c :: a). split; [cbn; by rewrite <- Hl|by constructor].
Qed.

Lemma drop_while_nil f l : drop_while f l = [] <-> Forall (fun c => f c = true) l.
Proof.
  split.
  - intros Hn. destruct (drop_while_split f l) as (a & Hl & Ha). rewrite Hn, app_nil_r in Hl. by subst.
  - induction 1 as [|c l Hc _ IH]; [done|]. cbn. by rewrite Hc.
Qed.

Lemma drop_while_head f l c m : drop_while f l = c :: m -> f c = false.
Proof. induction l as [|x l IH]; [done|]. cbn. destruct (f x) eqn:E; [done|]. congruence. Qed.

Lemma trim_left_spec f cset a m r fuel :
  (forall c, in_cset cset c = f c) -> (length m < fuel)%nat ->
  trim_left fuel (a ++ m ++ r) cset (zlen a) (zlen a + zlen m - 1) = Some (zlen a + zlen m - zlen (drop_while f m)).
Proof.
  intros Hf. revert a fuel. induction m as [|c m IH]; intros a fuel Hl; (destruct fuel as [|fuel]; [lia|]); cbn [trim_left].
  { rewrite (proj2 (Z.leb_gt _ _)) by (cbn; lia). f_equal. cbn. lia. }
  rewrite (proj2 (Z.leb_le _ _)) by (cbn; lia).
  assert (zget (a ++ (c :: m) ++ r) (zlen a) = Some c) as ->.
  { apply zget_Some. split; [lia|]. rewrite Nat2Z.id. cbn. by rewrite list_lookup_middle. }
  cbn [obind drop_while]. rewrite Hf. destruct (f c); [|f_equal; lia].
  specialize (IH (a ++ [c]) fuel). rewrite length_app, <- app_assoc in IH. cbn [length app] in IH |- *.
  replace (zlen a + 1) with (Z.of_nat (length a + 1)) by lia.
  replace (zlen a + Z.of_nat (S (length m)) - 1) with (Z.of_nat (length a + 1) + zlen m - 1) by lia.
  rewrite IH by (cbn in Hl; lia). f_equal. lia.
Qed.

Lemma trim_right_spec f cset m r fuel :
  (forall c, in_cset cset c = f c) -> (length m < fuel)%nat ->
  trim_right fuel (reverse m ++ r) cset (zlen m - 1) =
    Some (Z.max (zlen (drop_while f m) - 1) (Z.min 0 (zlen m - 1))).
Proof.
  intros Hf. revert r fuel. induction m as [|c m IH]; intros r fuel Hl; (destruct fuel as [|fuel]; [lia|]); cbn [trim_right].
  { done. }
  cbn [length drop_while]. destruct (Z.ltb_spec 0 (Z.of_nat (S (length m)) - 1)) as [Hpos|Hz].
  - assert (zget (reverse (c :: m) ++ r) (Z.of_nat (S (length m)) - 1) = Some c) as ->.
    { apply zget_Some. split; [lia|]. rewrite reverse_cons, <- app_assoc. cbn.
      replace (Z.to_nat (Z.of_nat (S (length m)) - 1)) with (length (reverse m)) by (rewrite length_reverse; lia).
      by rewrite list_lookup_middle. }
    cbn [obind]. rewrite Hf. destruct (f c); [|f_equal; cbn [length]; lia].
    rewrite reverse_cons, <- app_assoc. replace (Z.of_nat (S (length m)) - 1 - 1) with (zlen m - 1) by lia.
    rewrite IH by (cbn in Hl; lia). f_equal. lia.
  - destruct m; [|cbn in Hz; lia]. cbn. by destruct (f c).
Qed.

Lemma strip_parts f l :
  exists a b, l = a ++ strip f l ++ b /\
    (drop_while f l = [] /\ strip f l = [] \/
     zlen a = zlen l - zlen (drop_while f l) /\ 0 < zlen (strip f l) /\
     zlen (drop_while f (reverse l)) = zlen a + zlen (strip f l)).
Proof.
  unfold strip. destruct (drop_while_split f l) as (a & Hl & Ha). set (m := drop_while f l) in *.
  destruct (drop_while_split f (reverse m)) as (b & Hm & Hb). set (k := drop_while f (reverse m)) in *.
  assert (Hm' : m = reverse k ++ reverse b) by (rewrite <- reverse_app, <- Hm; by rewrite reverse_involutive).
  exists a, (reverse b). split; [by rewrite <- Hm'|]. destruct (decide (k = [])) as [Hk|Hk].
  - left. rewrite Hk. split; [|done]. assert (Hall : Forall (fun c => f c = true) m).
    { apply drop_while_nil in Hk. rewrite <- (reverse_involutive m). by apply Forall_reverse. }
    destruct m as [|c m'] eqn:E; [done|]. apply Forall_cons in Hall as [Hc _].
    apply drop_while_head in E. congruence.
  - right. rewrite Hl, reverse_app, length_app, length_reverse. fold k.
    rewrite drop_while_app by done. fold k. rewrite length_app, length_reverse.
    split_and!; [lia|destruct k; [done|cbn; lia]|lia].
Qed.

Lemma trim_spec s l cset : holds s l -> exists s', sdstrim s cset = Some s' /\ holds s' (strip (in_cset cset) l).
Proof.
  intros Hs. unfold sdstrim. rewrite (holds_sdslen s l Hs). set (f := in_cset cset). pose proof Hs as (rest & Heq & Hl).
  rewrite Heq. cbn [sbuf]. set (fuel := S (length (l ++ 0 :: rest))).
  assert (Hfuel : (length l < fuel)%nat) by (unfold fuel; rewrite length_app; lia).
  assert (trim_left fuel (l ++ 0 :: rest) cset 0 (zlen l - 1) = Some (zlen l - zlen (drop_while f l))) as ->
    by exact (trim_left_spec f cset [] l (0 :: rest) fuel (fun _ => eq_refl) Hfuel).
  pose proof (trim_right_spec f cset (reverse l) (0 :: rest) fuel (fun _ => eq_refl)) as Hr.
  rewrite reverse_involutive, length_reverse in Hr. rewrite Hr by done. cbn [obind]. rewrite <- Heq.
  replace (l ++ 0 :: rest) with (sbuf s) by by rewrite Heq.
  destruct (strip_parts f l) as (a & b & Hparts & Hcase). set (sp := zlen l - zlen (drop_while f l)).
  assert (Hlen : length l = (length a + length (strip f l) + length b)%nat) by (rewrite Hparts at 1; rewrite !length_app; lia).
  destruct Hcase as [[Hd Hst]|(Ha & Hpos & Hk)].
  - assert (Hsp : sp = zlen l) by (unfold sp; rewrite Hd; cbn; lia).
    assert (Hall : drop_while f (reverse l) = []) by (apply drop_while_nil, Forall_reverse, drop_while_nil, Hd).
    rewrite Hall. cbn [length]. rewrite (proj2 (Z.ltb_lt _ sp)) by lia. rewrite Hst.
    apply (finish_slice s l sp 0); [done|lia|lia|]. destruct (Z.eqb_spec sp 0); cbn; [by left|lia].
  - assert (Hsp : sp = zlen a) by (unfold sp; lia). rewrite Hk, Hsp.
    replace (Z.max _ _) with (zlen a + zlen (strip f l) - 1) by lia. rewrite (proj2 (Z.ltb_ge _ _)) by lia.
    replace (zlen a + zlen (strip f l) - 1 - zlen a + 1) with (zlen (strip f l)) by lia.
    assert (strip f l = take (Z.to_nat (zlen (strip f l))) (drop (Z.to_nat (zlen a)) l)) as Heq'.
    { rewrite !Nat2Z.id. rewrite Hparts at 3. by rewrite drop_app_length, take_app_length. }
    set (n := zlen (strip f l)) in *. rewrite Heq'. apply finish_slice; [done|lia|lia|]. destruct (Z.eqb_spec (zlen a) 0); cbn; [by left|lia].
Qed.

(** *** Formatted output *)

(** A buffer that is too small has no terminator in its last place but one. *)
Lemma printf_turn junk n text :
  16 <= n ->
  exists b c, (let? b := zset (zmalloc junk n) (n - 2) 0 in vsnprintf b n text) = Some b /\ zget b (n - 2) = Some c /\
    (c = 0 -> 0 ∈ b /\ cstr b = cstr text) /\ (c <> 0 -> n - 2 < zlen text).
Proof.
  intros Hn. pose proof (length_zmalloc junk n ltac:(lia)) as Hz. unfold vsnprintf. set (t := take _ text).
  assert (Ht : zlen t <= n - 1) by (unfold t; rewrite length_take; lia).
  rewrite zset_ok by lia. cbn [obind]. set (b0 := <[_:=0]> _). assert (Hb0 : zlen b0 = n) by (unfold b0; rewrite length_insert; lia).
  destruct (cut_at b0 (length (t ++ [0]))) as (m & r & Heq & Hm); [rewrite length_app; cbn; lia|].
  assert (zwrite b0 0 (t ++ [0]) = Some ((t ++ [0]) ++ r)) as ->.
  { rewrite Heq. exact (zwrite_mid [] m (t ++ [0]) r Hm). }
  pose proof (f_equal length Heq) as Hlen. rewrite !length_app in Hlen. rewrite length_app in Hm. cbn [length] in *.
  destruct (zget_is_Some ((t ++ [0]) ++ r) (n - 2)) as [c Hc]; [rewrite !length_app; cbn [length]; lia|].
  exists ((t ++ [0]) ++ r), c. split_and!; [done|done| |].
  - intros ->. split; [apply elem_of_app; left; apply elem_of_app; right; left|].
    rewrite <- app_assoc. cbn [app]. rewrite cstr_stop. destruct (Z.le_gt_cases (zlen text) (n - 1)) as [Hle|Hgt].
    + unfold t. by rewrite take_ge by lia.
    + assert (Hcut : exists u, t = u ++ [0]).
      { apply zget_Some in Hc as [_ Hc]. rewrite <- app_assoc, lookup_app_l in Hc by (unfold t; rewrite length_take; lia).
        exists (take (Z.to_nat (n - 2)) t). rewrite <- (take_drop (Z.to_nat (n - 2)) t) at 1. f_equal.
        apply drop_S in Hc. rewrite Hc. f_equal. apply drop_ge. unfold t. rewrite length_take. lia. }
      destruct Hcut as [u Hu]. rewrite Hu, cstr_stop. rewrite <- (take_drop (Z.to_nat (n - 1)) text). fold t.
      rewrite Hu, <- app_assoc. cbn [app]. by rewrite cstr_stop.
  - intros Hne. destruct (Z.lt_ge_cases (n - 2) (zlen text)) as [|Hge]; [done|]. exfalso. apply Hne.
    assert (Ht' : t = text) by (unfold t; apply take_ge; lia). apply zget_Some in Hc as [_ Hc].
    destruct (decide (zlen text = n - 2)) as [E|E].
    + rewrite <- app_assoc, Ht' in Hc. cbn [app] in Hc. replace (Z.to_nat (n - 2)) with (length text) in Hc by lia.
      rewrite list_lookup_middle in Hc by done. congruence.
    + rewrite lookup_app_r in Hc by (rewrite length_app, Ht'; cbn [length]; lia).
      assert (Hl0 : b0 !! Z.to_nat (n - 2) = Some 0) by (unfold b0; apply list_lookup_insert_eq; lia).
      rewrite Heq, lookup_app_r in Hl0 by (rewrite Ht' in Hm; lia). rewrite length_app in Hc. rewrite Hm in Hl0.
      cbn [length] in Hc. congruence.
Qed.

Lemma printf_loop_spec fuel junk n text :
  zlen text <= MAX_LEN -> 16 <= n <= 2 ^ 32 -> 2 ^ 40 <= n * 2 ^ Z.of_nat fuel ->
  exists b, printf_loop fuel junk n text = Some b /\ 0 ∈ b /\ cstr b = cstr text.
Proof.
  intros Ht. unfold MAX_LEN in Ht. revert n. induction fuel as [|fuel IH]; intros n Hn Hf; [cbn in Hf; lia|].
  cbn [printf_loop]. destruct (printf_turn junk n text ltac:(lia)) as (b & c & Hb & Hc & Hstop & Hgo).
  destruct (zset (zmalloc junk n) (n - 2) 0) as [b0|]; [|done]. cbn [obind] in *. rewrite Hb. cbn [obind]. rewrite Hc. cbn [obind].
  destruct (Z.eqb_spec c 0) as [E|E]; cbn [negb].
  - exists b. split; [done|]. by apply Hstop.
  - specialize (Hgo E). unfold wrapu. rewrite Z.mod_small by lia. apply IH; [lia|].
    rewrite Nat2Z.inj_succ, Z.pow_succ_r in Hf by lia. lia.
Qed.

Lemma catvprintf_spec junk s l text :
  holds s l -> zlen l + zlen text <= MAX_LEN ->
  exists s', sdscatvprintf junk s text = Some s' /\ holds s' (l ++ cstr text).
Proof.
  intros Hs Hmax. unfold sdscatvprintf.
  destruct (printf_loop_spec 64 junk 16 text) as (b & -> & Hz & Hc); [lia|lia|vm_compute; congruence|]. cbn [obind].
  rewrite <- Hc. apply cat_spec; [done|done|]. rewrite Hc. pose proof (length_cstr text). lia.
Qed.

(** ** Any sequence of operations *)

Inductive op :=
| CatLen (t : list Z) | Cat (t : list Z) | CatSds (t : list Z) | CatPrintf (text : list Z)
| CpyLen (t : list Z) | Cpy (t : list Z)
| Read (n : Z) (bs : list Z) | Shorten (k : Z) | GrowZero (n : Z)
| Clear | UpdateLen | RemoveFreeSpace | Dup
| Trim (cset : list Z) | Range (start end_ : Z) | ToLower | ToUpper | MapChars (from to : list Z).

(** A byte string is passed as memory of exactly its length, a C string as
    memory with a terminator. *)
Definition perform (junk : nat -> Z) (s : sdshdr) (o : op) : option sdshdr :=
  match o with
  | CatLen t => sdscatlen junk s t (zlen t)
  | Cat t => sdscat junk s t
  | CatSds t => let? u := sdsnewlen junk (Some t) (zlen t) in sdscatsds junk s u
  | CatPrintf text => sdscatvprintf junk s text
  | CpyLen t => sdscpylen junk s t (zlen t)
  | Cpy t => sdscpy junk s t
  | Read n bs => read_into junk s n bs
  | Shorten k => sdsIncrLen s (- k)
  | GrowZero n => sdsgrowzero junk s n
  | Clear => sdsclear s
  | UpdateLen => sdsupdatelen s
  | RemoveFreeSpace => Some (sdsRemoveFreeSpace junk s)
  | Dup => sdsdup junk s
  | Trim cset => sdstrim s cset
  | Range a b => sdsrange s a b
  | ToLower => sdstolower s
  | ToUpper => sdstoupper s
  | MapChars from to => sdsmapchars s from to
  end.

(** The same on lists of bytes. *)
Definition ref_perform (l : list Z) (o : op) : list Z :=
  match o with
  | CatLen t | CatSds t => l ++ t
  | Cat t | CatPrintf t => l ++ cstr t
  | CpyLen t => t
  | Cpy t => cstr t
  | Read _ bs => l ++ bs
  | Shorten k => take (Z.to_nat (zlen l - k)) l
  | GrowZero n => l ++ replicate (Z.to_nat (n - zlen l)) 0
  | Clear => []
  | UpdateLen => cstr l
  | RemoveFreeSpace | Dup => l
  | Trim cset => strip (in_cset cset) l
  | Range a b => Sds.sdsrange l a b
  | ToLower => tolower <$> l
  | ToUpper => toupper <$> l
  | MapChars from to => (fun c => mapped c from to) <$> l
  end.

(** Arguments are what the prototypes say, and strings stay below a
    gigabyte. *)
Definition op_ok (l : list Z) (o : op) : Prop :=
  match o with
  | CatLen t | CatSds t | CatPrintf t => zlen l + zlen t <= MAX_LEN
  | Cat t => 0 ∈ t /\ zlen l + zlen t <= MAX_LEN
  | CpyLen t => zlen t <= MAX_LEN
  | Cpy t => 0 ∈ t /\ zlen t <= MAX_LEN
  | Read n bs => zlen bs <= n /\ zlen l + n <= MAX_LEN
  | Shorten k => 0 <= k <= zlen l
  | GrowZero n => 0 <= n <= MAX_LEN
  | Range a b => - 2 ^ 31 <= a < 2 ^ 31 /\ - 2 ^ 31 <= b < 2 ^ 31
  | Dup => zlen l <= MAX_LEN
  | _ => True
  end.

#[export] Instance op_ok_dec l o : Decision (op_ok l o).
Proof. destruct o; cbn [op_ok]; apply _. Defined.

Lemma string_op_spec junk s l o :
  holds s l -> op_ok l o -> exists s', perform junk s o = Some s' /\ holds s' (ref_perform l o).
Proof.
  intros Hs Ho. assert (Hread : forall t : list Z, zread t 0 (zlen t) = Some t).
  { intros t. rewrite <- (app_nil_r t) at 1. apply zread_all. }
  destruct o as [t|t|t|t|t|t|n bs|k|n| | | | |cset|a b| | |from to]; cbn [perform ref_perform op_ok] in *.
  - by apply catlen_spec.
  - apply cat_spec; [done|tauto|]. pose proof (length_cstr t). lia.
  - destruct (sdsnewlen_spec junk t t) as (u & -> & Hu & _); [done|lia|]. cbn. by apply catsds_spec.
  - by apply catvprintf_spec.
  - by eapply cpylen_spec.
  - unfold sdscpy. rewrite strlen_at_Some by tauto. cbn [obind]. pose proof (length_cstr t).
    eapply cpylen_spec; [done|apply zread_cstr|lia].
  - apply read_into_spec; tauto.
  - by apply shorten_spec.
  - by apply growzero_spec.
  - by eapply clear_spec.
  - by apply updatelen_spec.
  - eexists. split; [done|]. by apply removefree_spec.
  - unfold sdsdup. rewrite (holds_sdslen s l Hs). pose proof Hs as (rest & -> & _).
    destruct (sdsnewlen_spec junk (l ++ 0 :: rest) l) as (u & Hu & Hl & _); [apply zread_all|done|]. by exists u.
  - by apply trim_spec.
  - apply range_spec; tauto.
  - by apply each_char_spec.
  - by apply each_char_spec.
  - by apply each_char_spec.
Qed.

(** Each operation comes with the contents of the memory it is given. *)
Fixpoint perform_all (s : sdshdr) (os : list ((nat -> Z) * op)) : option sdshdr :=
  match os with
  | [] => Some s
  | (junk, o) :: os => let? s := perform junk s o in perform_all s os
  end.

Fixpoint all_ok (l : list Z) (os : list ((nat -> Z) * op)) : Prop :=
  match os with [] => True | (_, o) :: os => op_ok l o /\ all_ok (ref_perform l o) os end.

#[export] Instance all_ok_dec l os : Decision (all_ok l os).
Proof. revert l. induction os as [|[junk o] os IH]; intros l; cbn [all_ok]; apply _. Defined.

Lemma string_ops_spec os s l :
  holds s l -> all_ok l os -> exists s', perform_all s os = Some s' /\ holds s' (foldl ref_perform l (snd <$> os)).
Proof.
  revert s l. induction os as [|[junk o] os IH]; intros s l Hs Hos; cbn; [by exists s|].
  destruct Hos as [Ho Hos]. destruct (string_op_spec junk s l o Hs Ho) as (s1 & -> & Hs1). cbn. by apply IH.
Qed.

(** C23: a dynamic string made by [sdsnewlen] implements a byte string
    through any sequence of the operations of [sds.c] that append, copy,
    format, trim, cut, change and grow it, whatever the allocator's memory
    holds and as long as the string stays below a gigabyte: no operation
    accesses memory outside the buffer or breaks an assertion; at the end
    the buffer holds the bytes of the same operations on lists, a
    terminator and as much free space as the header says. *)
Theorem sds_refines_bytes junk (init : list Z) os :
  zlen init <= MAX_LEN -> all_ok init os ->
  exists s, (let? s := sdsnewlen junk (Some init) (zlen init) in perform_all s os) = Some s /\
    let l := foldl ref_perform init (snd <$> os) in
    sdslen s = zlen l /\ sdsavail s = sfree s /\
    exists rest, sbuf s = l ++ 0 :: rest /\ sfree s = zlen rest.
Proof.
  intros Hi Hos. destruct (sdsnewlen_spec junk init init) as (s0 & -> & Hs0 & _); [|done|].
  { rewrite <- (app_nil_r init) at 1. apply zread_all. }
  destruct (string_ops_spec os s0 init Hs0 Hos) as (s & Hs & Hl). exists s. cbn [obind]. split; [done|]. cbv zeta.
  split; [by apply holds_sdslen|]. destruct Hl as (rest & -> & Hl). cbn [sfree sbuf]. unfold sdsavail. cbn [sfree].
  split; [apply len_u64; lia|]. by exists rest.
Qed.

(** ** Splitting and joining *)

Definition occurs (sep t : list Z) : Prop := exists a b, t = a ++ sep ++ b.

(** The tokens with the separator between them. *)
Fixpoint join_ref (sep : list Z) (ts : list (list Z)) : list Z :=
  match ts with
  | [] => []
  | t :: ts => if bool_decide (ts = []) then t else t ++ sep ++ join_ref sep ts
  end.

Lemma memcmp_zero (a b : list Z) : length a = length b -> memcmp a b = 0 <-> a = b.
Proof.
  revert b. induction a as [|x a IH]; intros [|y b] Hl; try done. cbn. injection Hl as Hl.
  destruct (Z.eqb_spec x y) as [->|Hne]; [rewrite (IH b Hl); split; [congruence|by intros [=]]|].
  split; [lia|]. congruence.
Qed.

(** The separator found at a place. *)
Definition sep_at (l sep : list Z) (j : Z) : Prop := take (length sep) (drop (Z.to_nat j) l) = sep.

Lemma occurs_sep_at l sep start n :
  0 <= start -> 0 <= n -> occurs sep (take (Z.to_nat n) (drop (Z.to_nat start) l)) ->
  exists j, start <= j /\ j + zlen sep <= start + n /\ j + zlen sep <= Z.max start (zlen l) /\ sep_at l sep j.
Proof.
  intros Hs Hn (a & b & Heq). pose proof (f_equal length Heq) as Hl. rewrite length_take, length_drop, !length_app in Hl.
  exists (start + zlen a). split_and!; [lia|lia|lia|]. unfold sep_at.
  replace (Z.to_nat (start + zlen a)) with (Z.to_nat start + length a)%nat by lia. rewrite <- drop_drop.
  assert (Hd : drop (length a) (take (Z.to_nat n) (drop (Z.to_nat start) l)) = sep ++ b) by (rewrite Heq; apply drop_app_length).
  rewrite skipn_firstn_comm in Hd. apply (f_equal (take (length sep))) in Hd.
  rewrite take_app_length, take_take in Hd. rewrite Nat.min_l in Hd by lia. done.
Qed.

(** The test of the loop. *)
Lemma sep_test l r sep r' j :
  0 < zlen sep -> 0 <= j -> j + zlen sep <= zlen l ->
  exists c c0 a, zget (l ++ r) j = Some c /\ zget (sep ++ r') 0 = Some c0 /\
    zread (l ++ r) j (zlen sep) = Some a /\ zread (sep ++ r') 0 (zlen sep) = Some sep /\
    (((zlen sep =? 1) && (c =? c0)) || (memcmp a sep =? 0) = true <-> sep_at l sep j).
Proof.
  intros Hsep Hj Hle. destruct (zget_is_Some (l ++ r) j) as [c Hc]; [rewrite length_app; lia|].
  destruct sep as [|c0 sep]; [cbn in Hsep; lia|]. exists c, c0, (take (length (c0 :: sep)) (drop (Z.to_nat j) l)).
  assert (Hrd : take (length (c0 :: sep)) (drop (Z.to_nat j) (l ++ r)) = take (length (c0 :: sep)) (drop (Z.to_nat j) l)).
  { rewrite drop_app_le by lia. rewrite take_app_le; [done|]. rewrite length_drop. lia. }
  split_and!; [done|done| |apply zread_all|].
  { apply zread_Some. rewrite length_app, Nat2Z.id. split; [lia|done]. }
  unfold sep_at. set (a := take _ _). assert (Ha : length a = length (c0 :: sep)) by (unfold a; rewrite length_take, length_drop; lia).
  rewrite orb_true_iff, andb_true_iff, !Z.eqb_eq, memcmp_zero by done. split; [|by right].
  intros [[H1 <-]|]; [|done]. destruct sep; [|cbn in H1; lia]. destruct a as [|x [|]] eqn:E; try (cbn in Ha; lia).
  f_equal. apply zget_Some in Hc as [_ Hc]. rewrite lookup_app_l in Hc by (cbn in Hle; lia).
  unfold a in E. apply (f_equal (fun k => k !! 0%nat)) in E. cbn in E. destruct (drop (Z.to_nat j) l) as [|y k] eqn:Ed; [done|].
  cbn in E. apply (f_equal (fun k => k !! 0%nat)) in Ed. rewrite lookup_drop, Nat.add_0_r in Ed. cbn in Ed. congruence.
Qed.

Lemma put_token_spec junk slots tokens ts l r start n :
  Forall2 holds tokens ts -> zlen tokens < slots -> 0 <= start -> 0 <= n -> start + n <= zlen l -> zlen l <= MAX_LEN ->
  exists t, put_token junk slots tokens (l ++ r) start n = Some (tokens ++ [t]) /\
    Forall2 holds (tokens ++ [t]) (ts ++ [take (Z.to_nat n) (drop (Z.to_nat start) l)]).
Proof.
  intros Hts Hsl Hs Hn Hle Hmax. unfold put_token. rewrite (proj2 (Z.leb_gt _ _)) by lia. set (x := take _ (drop _ l)).
  assert (Hx : zlen x = n) by (unfold x; rewrite length_take, length_drop; lia).
  destruct (sdsnewlen_spec junk (drop (Z.to_nat start) (l ++ r)) x) as (t & Ht & Hh & _).
  - rewrite Hx. apply zread_Some. rewrite length_drop, length_app. split; [lia|]. unfold x. cbn [Z.to_nat]. rewrite drop_0.
    rewrite drop_app_le by lia. rewrite take_app_le; [done|]. rewrite length_drop. lia.
  - lia.
  - rewrite Hx in Ht. rewrite Ht. cbn. exists t. split; [done|]. apply Forall2_app; [done|]. by constructor.
Qed.

Lemma join_ref_snoc sep ts x : join_ref sep (ts ++ [x]) = concat ((fun t => t ++ sep) <$> ts) ++ x.
Proof.
  induction ts as [|t ts IH]; [done|]. cbn. rewrite IH. rewrite bool_decide_eq_false_2 by (by destruct ts).
  by rewrite <- !app_assoc.
Qed.

Lemma take_split (l : list Z) start j :
  0 <= start <= j -> j <= zlen l ->
  take (Z.to_nat j) l = take (Z.to_nat start) l ++ take (Z.to_nat (j - start)) (drop (Z.to_nat start) l).
Proof. intros Hs Hj. rewrite take_take_drop. f_equal. lia. Qed.

Lemma split_loop_spec junk l r sep r' fuel :
  0 < zlen sep -> zlen l <= MAX_LEN -> forall slots tokens ts start j,
  Forall2 holds tokens ts -> zlen tokens < slots -> 0 <= start <= j -> j <= zlen l ->
  take (Z.to_nat start) l = concat ((fun t => t ++ sep) <$> ts) -> Forall (fun t => ~ occurs sep t) ts ->
  (forall p, start <= p < j -> p + zlen sep <= zlen l -> ~ sep_at l sep p) -> zlen l - j < Z.of_nat fuel ->
  exists tokens' ts', split_loop fuel junk (l ++ r) (zlen l) (sep ++ r') (zlen sep) slots tokens start j = Some tokens' /\
    Forall2 holds tokens' ts' /\ Forall (fun t => ~ occurs sep t) ts' /\ join_ref sep ts' = l.
Proof.
  intros Hsep Hmax. induction fuel as [|fuel IH]; intros slots tokens ts start j Hts Hsl Hsj Hj Hdone Hno Hseen Hfuel; [lia|].
  cbn [split_loop]. destruct (Z.ltb_spec j (zlen l - (zlen sep - 1))) as [Hlt|Hge].
  - destruct (sep_test l r sep r' j Hsep ltac:(lia) ltac:(lia)) as (c & c0 & a & -> & -> & -> & -> & Htest). cbn [obind].
    set (slots' := if slots <? _ then _ else _).
    assert (Hsl' : zlen tokens + 2 <= slots') by (unfold slots'; destruct (Z.ltb_spec slots (zlen tokens + 2)); lia).
    destruct (_ || _).
    + pose proof (proj1 Htest eq_refl) as Hat.
      destruct (put_token_spec junk slots' tokens ts l r start (j - start)) as (t & -> & Hts'); [done|lia|lia|lia|lia|done|].
      cbn [obind]. eapply (IH slots' _ _ (j + zlen sep) (j + zlen sep)); [exact Hts'|rewrite length_app; cbn; lia|lia|lia| | |lia|lia].
      * rewrite (take_split l j) by lia. rewrite (take_split l start j), Hdone by lia.
        replace (Z.to_nat (j + zlen sep - j)) with (length sep) by lia. rewrite Hat. rewrite fmap_app, concat_app. cbn.
        by rewrite app_nil_r, <- !app_assoc.
      * apply Forall_app. split; [done|]. constructor; [|done]. intros Ho.
        apply occurs_sep_at in Ho as (p & Hp1 & Hp2 & Hp3 & Hp); [|lia|lia]. by apply (Hseen p); [lia|lia|].
    + apply (IH slots' tokens ts start (j + 1)); [done|lia|lia|lia|done|done| |lia].
      intros p Hp Hple. destruct (decide (p = j)) as [->|]; [|apply Hseen; lia]. intros Hat. by apply Htest in Hat.
  - destruct (put_token_spec junk slots tokens ts l r start (zlen l - start)) as (t & -> & Hts'); [done|lia|lia|lia|lia|done|].
    eexists _, _. split; [done|]. split; [exact Hts'|]. split.
    + apply Forall_app. split; [done|]. constructor; [|done]. intros Ho.
      apply occurs_sep_at in Ho as (p & Hp1 & Hp2 & Hp3 & Hp); [|lia|lia]. by apply (Hseen p); [lia|lia|].
    + rewrite join_ref_snoc, <- Hdone. rewrite (take_ge (drop _ l)) by (rewrite length_drop; lia). apply take_drop.
Qed.

Lemma join_ref_mem sep ts t c : t ∈ ts -> c ∈ t -> c ∈ join_ref sep ts.
Proof.
  induction ts as [|x ts IH]; intros Ht Hc; [by apply not_elem_of_nil in Ht|]. cbn.
  apply elem_of_cons in Ht as [->|Ht].
  - case_bool_decide; [done|]. apply elem_of_app. by left.
  - rewrite bool_decide_eq_false_2 by (intros ->; by apply not_elem_of_nil in Ht).
    apply elem_of_app. right. apply elem_of_app. right. by apply IH.
Qed.

Lemma Forall2_impl_mem {A B} (P Q : A -> B -> Prop) l k :
  Forall2 P l k -> (forall x y, y ∈ k -> P x y -> Q x y) -> Forall2 Q l k.
Proof.
  induction 1 as [|x y l k Hxy _ IH]; intros Himp; constructor; [apply Himp; [left|done]|].
  apply IH. intros. apply Himp; [by right|done].
Qed.

Lemma join_loop_spec junk sep ts : forall tokens j acc,
  0 ∈ sep -> Forall2 (fun b t => 0 ∈ b /\ cstr b = t) tokens ts -> holds j acc ->
  zlen acc + zlen (join_ref (cstr sep) ts) <= MAX_LEN ->
  exists s, join_loop junk j tokens sep = Some s /\ holds s (acc ++ join_ref (cstr sep) ts).
Proof.
  intros tokens j acc Hsep Hts. revert j acc. induction Hts as [|b t tokens ts [Hz <-] Hts IH]; intros j acc Hj Hmax; cbn [join_loop join_ref].
  { exists j. by rewrite app_nil_r. }
  assert (Hnil : bool_decide (tokens = []) = bool_decide (ts = [])) by (by destruct Hts).
  cbn [join_ref] in Hmax. rewrite Hnil. destruct (bool_decide (ts = [])) eqn:E.
  - destruct (cat_spec junk j acc b Hj Hz ltac:(lia)) as (s1 & -> & H1). cbn [obind].
    apply bool_decide_eq_true in E. subst. apply Forall2_nil_inv_r in Hts as ->. by exists s1.
  - rewrite !length_app in Hmax. destruct (cat_spec junk j acc b Hj Hz ltac:(lia)) as (s1 & -> & H1). cbn [obind].
    destruct (cat_spec junk s1 _ sep H1 Hsep) as (s2 & -> & H2); [rewrite length_app; lia|]. cbn [obind].
    destruct (IH s2 _ H2) as (s3 & -> & H3); [rewrite !length_app; lia|]. exists s3. split; [done|]. by rewrite <- !app_assoc in *.
Qed.

(** C24: [sdssplitlen] followed by [sdsjoin] is the identity: a text of up to
    a gigabyte is cut at every occurrence of the separator, from the left,
    into tokens none of which contains the separator, within the places of
    the growing array of tokens, and joining the tokens with the same
    separator gives the text back.  Text and separator contain no zero
    byte, since [sdsjoin] works on C strings. *)
Theorem sds_split_join junk l r sep r' :
  0 < zlen sep -> 0 < zlen l <= MAX_LEN -> 0 ∉ l -> 0 ∉ sep ->
  exists tokens ts, sdssplitlen junk (l ++ r) (zlen l) (sep ++ r') (zlen sep) = Some (Some tokens) /\
    Forall2 holds tokens ts /\ Forall (fun t => ~ occurs sep t) ts /\
    exists s, sdsjoin junk (sbuf <$> tokens) (sep ++ 0 :: r') = Some s /\ holds s l.
Proof.
  intros Hsep Hl Hz Hzs. unfold sdssplitlen. rewrite (proj2 (Z.ltb_ge (zlen sep) 1)), (proj2 (Z.ltb_ge (zlen l) 0)) by lia.
  rewrite (proj2 (Z.eqb_neq (zlen l) 0)) by lia. cbn [orb].
  destruct (split_loop_spec junk l r sep r' (S (Z.to_nat (zlen l))) Hsep ltac:(lia) 5 [] [] 0 0)
    as (tokens & ts & -> & Hts & Hno & Hj); [done|cbn; lia|lia|lia|done|done|lia|lia|].
  exists tokens, ts. split; [done|]. split; [done|]. split; [done|].
  unfold sdsjoin, sdsempty. destruct (sdsnewlen_spec junk [0] []) as (s0 & Hs0 & Hh0 & _); [done|unfold MAX_LEN; cbn; lia|].
  assert (sdsnewlen junk (Some [0]) 0 = Some s0) as -> by exact Hs0. cbn [obind].
  assert (Hcs : cstr (sep ++ 0 :: r') = sep) by by apply cstr_terminated.
  pose proof (join_loop_spec junk (sep ++ 0 :: r') ts (sbuf <$> tokens) s0 []) as Hjoin.
  rewrite Hcs, Hj in Hjoin. apply Hjoin.
  - apply elem_of_app. right. left.
  - apply Forall2_fmap_l. rewrite <- Hj in Hz. eapply Forall2_impl_mem; [exact Hts|]. intros x t Ht (rest & -> & _). cbn [sbuf].
    split; [apply elem_of_app; right; left|]. apply cstr_terminated. intros H0. apply Hz. by eapply join_ref_mem.
  - done.
  - cbn. lia.
Qed.

(** ** Numbers *)

Lemma fromll_loop_spec fuel : forall x acc v,
  (fuel <= length x)%nat -> 0 <= v < 10 ^ Z.of_nat fuel -> (0 < fuel)%nat ->
  exists x', fromll_loop fuel (x ++ acc) (zlen x - 1) v = Some (x' ++ Util.ll_digits fuel v acc, zlen x' - 1) /\
    (length x - fuel <= length x')%nat /\ (length x' + length (Util.ll_digits fuel v acc) = length x + length acc)%nat.
Proof.
  induction fuel as [|fuel IH]; intros x acc v Hx Hv Hf; [lia|]. cbn [fromll_loop Util.ll_digits].
  destruct x as [|d x _] using rev_ind; [cbn in Hx; lia|]. rewrite length_app in *. cbn [length] in *. rewrite <- app_assoc. cbn [app].
  replace (Z.of_nat (length x + 1) - 1) with (zlen x) by lia. rewrite zset_mid. cbn [obind].
  destruct (Z.eqb_spec (v / 10) 0) as [E|E]; [exists x; split_and!; [done|lia|cbn; lia]|].
  assert (0 < fuel)%nat.
  { destruct fuel; [|lia]. cbn in Hv. exfalso. apply E. apply Z.div_small. lia. }
  destruct (IH x ((48 + v mod 10) :: acc) (v / 10)) as (x' & -> & Hl & Ht); [lia| |lia|].
  - rewrite Nat2Z.inj_succ, Z.pow_succ_r in Hv by lia. split; [apply Z.div_pos; lia|apply Z.div_lt_upper_bound; lia].
  - exists x'. split_and!; [done|lia|cbn in Ht; lia].
Qed.

(** [sdsfromlonglong] writes the decimal form, for every 64-bit integer. *)
Lemma fromlonglong_spec junk v :
  - 2 ^ 63 <= v < 2 ^ 63 -> exists s, sdsfromlonglong junk v = Some s /\ holds s (fmt_d v).
Proof.
  intros Hv. unfold sdsfromlonglong, fmt_d. set (m := if v <? 0 then u64 (- v) else v).
  assert (Hm : m = Z.abs v) by (unfold m, wrapu; destruct (Z.ltb_spec v 0); [rewrite Z.mod_small; lia|lia]).
  pose proof (length_zmalloc junk 32 ltac:(lia)) as Hz.
  assert (H20 : 0 <= m < 10 ^ Z.of_nat 20) by (change (10 ^ Z.of_nat 20) with 100000000000000000000; lia).
  destruct (fromll_loop_spec 20 (zmalloc junk 32) [] m) as (x & Hx & Hl & Ht); [lia|done|lia|].
  rewrite app_nil_r, Hz in Hx. change (32 - 1) with 31 in Hx. rewrite Hx. cbn [obind]. clear Hx.
  rewrite Util.ll_digits_spec, app_nil_r, Hm in * by (done || lia). set (ds := digits 20 (Z.abs v)) in *. cbn [length] in Ht.
  assert (Hfin : forall y t, zlen y + zlen t = 32 -> exists s,
    sdsnewlen junk (Some (drop (Z.to_nat (zlen y - 1 + 1)) (y ++ t))) (32 - (zlen y - 1 + 1)) = Some s /\ holds s t).
  { intros y t Hyt. replace (Z.to_nat (zlen y - 1 + 1)) with (length y) by lia. rewrite drop_app_length.
    replace (32 - (zlen y - 1 + 1)) with (zlen t) by lia.
    destruct (sdsnewlen_spec junk t t) as (s & Hs & Hh & _); [|unfold MAX_LEN; lia|by exists s].
    rewrite <- (app_nil_r t) at 1. apply zread_all. }
  destruct (Z.ltb_spec v 0).
  - replace (- v) with (Z.abs v) by lia. destruct x as [|d x _] using rev_ind; [cbn in Hl; lia|].
    rewrite length_app in *. cbn [length] in *. rewrite <- app_assoc. cbn [app].
    replace (Z.of_nat (length x + 1) - 1) with (zlen x) by lia. rewrite zset_mid. cbn [obind]. apply Hfin. cbn [length]. fold ds. lia.
  - cbn [obind]. replace (digits 20 v) with ds by (unfold ds; f_equal; lia). apply Hfin. lia.
Qed.

Lemma fromlonglong_value junk v :
  - 2 ^ 63 <= v < 2 ^ 63 -> exists s l, sdsfromlonglong junk v = Some s /\ holds s l /\ Util.string2ll l = Some v.
Proof.
  intros Hv. destruct (fromlonglong_spec junk v Hv) as (s & Hs & Hh). exists s, (fmt_d v). split_and!; [done|done|].
  apply Util.string2ll_fmt_d. unfold Util.LLONG_MIN, Util.LLONG_MAX. lia.
Qed.

(** ** Comparing *)

(** The order of byte strings: a proper prefix comes first. *)
Fixpoint lex (a b : list Z) : comparison :=
  match a, b with
  | [], [] => Eq
  | [], _ => Lt
  | _, [] => Gt
  | x :: a, y :: b => match x ?= y with Eq => lex a b | c => c end
  end.

Lemma memcmp_lex (a b : list Z) :
  let m := memcmp (take (Nat.min (length a) (length b)) a) (take (Nat.min (length a) (length b)) b) in
  lex a b = ((if m =? 0 then zlen a - zlen b else m) ?= 0).
Proof.
  revert b. induction a as [|x a IH]; intros [|y b]; cbn [length Nat.min take memcmp lex]; [done| | |].
  - cbn. symmetry. apply Z.compare_lt_iff. lia.
  - cbn. symmetry. apply Z.compare_gt_iff. lia.
  - destruct (Z.eqb_spec x y) as [->|Hne].
    + rewrite Z.compare_refl, IH. cbv zeta. set (m := memcmp _ _). destruct (m =? 0); [|done]. f_equal. lia.
    + rewrite (proj2 (Z.eqb_neq (x - y) 0)) by lia. destruct (Z.compare_spec x y); [done| |];
        symmetry; [apply Z.compare_lt_iff|apply Z.compare_gt_iff]; lia.
Qed.

(** The sign of [sdscmp] is the order of the byte strings. *)
Lemma sdscmp_spec s1 s2 a b :
  holds s1 a -> holds s2 b -> exists c, sdscmp s1 s2 = Some c /\ (c ?= 0) = lex a b.
Proof.
  intros H1 H2. unfold sdscmp. rewrite (holds_sdslen s1 a H1), (holds_sdslen s2 b H2).
  set (n := if _ <? _ then _ else _). assert (Hn : n = Z.of_nat (Nat.min (length a) (length b)))
    by (unfold n; destruct (Z.ltb_spec (zlen a) (zlen b)); lia). rewrite Hn.
  assert (Hrd : forall l rest k, (k <= length l)%nat -> zread (l ++ 0 :: rest) 0 (Z.of_nat k) = Some (take k l)).
  { intros l rest k Hk. rewrite <- (take_drop k l) at 1. rewrite <- app_assoc.
    replace (Z.of_nat k) with (zlen (take k l)) by (rewrite length_take; lia). apply zread_all. }
  destruct H1 as (r1 & -> & Hl1), H2 as (r2 & -> & Hl2). cbn [sbuf]. unfold MAX_ALLOC in *.
  rewrite !Hrd by lia. cbn [obind]. eexists. split; [done|]. rewrite memcmp_lex. cbv zeta.
  set (m := memcmp _ _). destruct (m =? 0); [|done]. by rewrite s32_small by lia.
Qed.

(** ** Strings at work *)

Module Demo.

Definition txt : string -> list Z := bytes_of_string.

Definition demo_ops : list ((nat -> Z) * op) :=
  (fun o => ((fun i => Z.of_nat i), o)) <$>
  [CatLen (txt ", World"); CatPrintf (txt " and more than sixteen characters"); Range 0 11; Trim (txt "Hd!");
   Read 2048 (txt " of sds"); ToUpper; MapChars (txt "O") (txt "0"); Shorten 4; GrowZero 12; CatSds [0; 33]; UpdateLen; Dup].

Lemma sds_refines_bytes_witness :
  exists s, (let? s := sdsnewlen (fun _ => 7) (Some (txt "Hello")) 5 in perform_all s demo_ops) = Some s /\
    let l := txt "ELL0, W0RL 0F" in
    sdslen s = zlen l /\ sdsavail s = sfree s /\
    exists rest, sbuf s = l ++ 0 :: rest /\ sfree s = zlen rest.
Proof.
  apply (sds_refines_bytes (fun _ => 7) (txt "Hello") demo_ops).
  - by vm_compute.
  - apply (bool_decide_unpack (all_ok (txt "Hello") demo_ops)). vm_compute. exact I.
Defined.

Lemma sds_split_join_witness :
  exists tokens ts, sdssplitlen (fun _ => 7) (txt "a::b::::c" ++ [9]) 9 (txt "::" ++ []) 2 = Some (Some tokens) /\
    Forall2 holds tokens ts /\ Forall (fun t => ~ occurs (txt "::") t) ts /\
    exists s, sdsjoin (fun _ => 7) (sbuf <$> tokens) (txt "::" ++ [0]) = Some s /\ holds s (txt "a::b::::c").
Proof.
  apply (sds_split_join (fun _ => 7) (txt "a::b::::c") [9] (txt "::") []).
  - by vm_compute.
  - by vm_compute.
  - vm_compute. by set_solver +.
  - vm_compute. by set_solver +.
Defined.

End Demo.

End SdsBufProofs.
