(* ===== verification/Ini.v ===== *)
(** * The configuration file of the dispatcher

    [src/dserver/ini.c] reads a file line by line into a buffer of 200 bytes
    and cuts names and values out of it in place; [src/dserver/setting.c]
    gives it a handler that keeps three values.  Buffers are lists of bytes
    and pointers into them are offsets: reading or writing outside the array
    is [None], so is a text that is not terminated inside its array. *)

From S2P Require Import Prelude Sds Libc.

Module Ini.
Import Sds Libc.

Definition MAX_SECTION : Z := 50.
Definition MAX_NAME : Z := 50.
Definition INI_MAX_LINE : Z := 200.

(** ** Strings in a buffer *)

(** [strlen (m + s)]. *)
Fixpoint strlen_from (fuel : nat) (m : list Z) (s : Z) : option Z :=
  match fuel with
  | O => None
  | S fuel =>
      let? c := zget m s in
      if c =? 0 then Some 0 else let? n := strlen_from fuel m (s + 1) in Some (n + 1)
  end.

(** The C string at [m + s]. *)
Definition string_at (m : list Z) (s : Z) : option (list Z) :=
  let? n := strlen_from (length m) m s in zread m s n.

(** [while (p > s && isspace( *--p)) *p = 0] *)
Fixpoint rstrip_loop (fuel : nat) (m : list Z) (s p : Z) : option (list Z) :=
  match fuel with
  | O => None
  | S fuel =>
      if s <? p then
        let p := p - 1 in
        let? c := zget m p in
        if isspace c then let? m := zset m p 0 in rstrip_loop fuel m s p else Some m
      else Some m
  end.

Definition rstrip (m : list Z) (s : Z) : option (list Z) :=
  let? n := strlen_from (length m) m s in
  rstrip_loop (S (length m)) m s (s + n).

Fixpoint lskip_loop (fuel : nat) (m : list Z) (s : Z) : option Z :=
  match fuel with
  | O => None
  | S fuel =>
      let? c := zget m s in
      if negb (c =? 0) && isspace c then lskip_loop fuel m (s + 1) else Some s
  end.

Definition lskip (m : list Z) (s : Z) : option Z := lskip_loop (length m) m s.

Fixpoint find_loop (fuel : nat) (m : list Z) (s c : Z) (was_whitespace : bool) : option Z :=
  match fuel with
  | O => None
  | S fuel =>
      let? x := zget m s in
      if negb (x =? 0) && negb (x =? c) && negb (was_whitespace && (x =? 59))
      then find_loop fuel m (s + 1) c (isspace x)
      else Some s
  end.

Definition find_char_or_comment (m : list Z) (s c : Z) : option Z := find_loop (length m) m s c false.

(** [strncpy]: once the end of the source is met the rest of the
    destination is filled with zeros. *)
Fixpoint strncpy_loop (n : nat) (dest : list Z) (i : Z) (src : list Z) (s : Z) : option (list Z) :=
  match n with
  | O => Some dest
  | S n =>
      let? c := zget src s in
      let? dest := zset dest i c in
      strncpy_loop n dest (i + 1) src (if c =? 0 then s else s + 1)
  end.

Definition strncpy0 (dest src : list Z) (s size : Z) : option (list Z) :=
  let? dest := strncpy_loop (Z.to_nat size) dest 0 src s in
  zset dest (size - 1) 0.

(** ** [fgets] *)

(** [None] inside is the null pointer returned at the end of the file. *)
Definition fgets (m : list Z) (n : Z) (stream : list Z) : option (option (list Z * list Z)) :=
  match stream with
  | [] => Some None
  | _ =>
      let '(l, r) := take_line (Z.to_nat (n - 1)) stream in
      let? m := zwrite m 0 (l ++ [0]) in Some (Some (m, r))
  end.

(** ** The parser *)

Section Parser.
Context {U : Type}.

(** A handler gets the user's data, a section, a name and a value, and
    returns nonzero on success. *)
Definition ini_handler : Type := U -> list Z -> list Z -> list Z -> U * Z.

Record parser := Parser {
  line : list Z; section : list Z; prev_name : list Z;
  lineno : Z; error : Z; user : U }.

Definition with_line (st : parser) m :=
  Parser m (section st) (prev_name st) (lineno st) (error st) (user st).
Definition with_section (st : parser) m b :=
  Parser m b (prev_name st) (lineno st) (error st) (user st).
Definition with_prev (st : parser) b :=
  Parser (line st) (section st) b (lineno st) (error st) (user st).
Definition with_user (st : parser) u :=
  Parser (line st) (section st) (prev_name st) (lineno st) (error st) u.

(** [if (!error) error = lineno;] *)
Definition set_error (st : parser) : parser :=
  Parser (line st) (section st) (prev_name st) (lineno st)
    (if error st =? 0 then lineno st else error st) (user st).

(** [if (!handler(user, section, name, value) && !error) error = lineno;] *)
Definition call (handler : ini_handler) (st : parser) (name value : list Z) : option parser :=
  let? sec := string_at (section st) 0 in
  let '(u, r) := handler (user st) sec name value in
  let st := with_user st u in
  Some (if r =? 0 then set_error st else st).

(** The test for a byte order mark at the start of the first line. *)
Definition bom (st : parser) : option bool :=
  if negb (lineno st =? 1) then Some false else
  let? a := zget (line st) 0 in
  if negb (a =? 239) then Some false else
  let? b := zget (line st) 1 in
  if negb (b =? 187) then Some false else
  let? c := zget (line st) 2 in Some (c =? 191).

Definition section_line (st : parser) (start : Z) : option parser :=
  let m := line st in
  let? end_ := find_char_or_comment m (start + 1) 93 in
  let? c := zget m end_ in
  if c =? 93 then
    let? m := zset m end_ 0 in
    let? sec := strncpy0 (section st) m (start + 1) MAX_SECTION in
    let? pn := zset (prev_name st) 0 0 in
    Some (with_prev (with_section st m sec) pn)
  else Some (set_error st).

Definition pair_line (handler : ini_handler) (st : parser) (start : Z) : option parser :=
  let m := line st in
  let? end_ := find_char_or_comment m start 61 in
  let? c := zget m end_ in
  let? end_ := (if negb (c =? 61) then find_char_or_comment m start 58 else Some end_) in
  let? c := zget m end_ in
  if (c =? 61) || (c =? 58) then
    let? m := zset m end_ 0 in
    let? m := rstrip m start in
    let? value := lskip m (end_ + 1) in
    let? end_ := find_char_or_comment m value 0 in
    let? c := zget m end_ in
    let? m := (if c =? 59 then zset m end_ 0 else Some m) in
    let? m := rstrip m value in
    let? pn := strncpy0 (prev_name st) m start MAX_NAME in
    let st := with_prev (with_line st m) pn in
    let? n := string_at m start in
    let? v := string_at m value in
    call handler st n v
  else Some (set_error st).

(** The body of the loop, on a line just read. *)
Definition parse_line (handler : ini_handler) (st : parser) : option parser :=
  let st := Parser (line st) (section st) (prev_name st) (s32 (lineno st + 1)) (error st) (user st) in
  let? b := bom st in
  let start := if b then 3 else 0 in
  let? m := rstrip (line st) start in
  let? start := lskip m start in
  let st := with_line st m in
  let? c := zget m start in
  if (c =? 59) || (c =? 35) then Some st else
  let? p := zget (prev_name st) 0 in
  if negb (p =? 0) && negb (c =? 0) && (0 <? start) then
    let? pn := string_at (prev_name st) 0 in
    let? v := string_at m start in
    call handler st pn v
  else if c =? 91 then section_line st start
  else if negb (c =? 0) && negb (c =? 59) then pair_line handler st start
  else Some st.

Fixpoint parse_loop (fuel : nat) (handler : ini_handler) (stream : list Z) (st : parser) : option parser :=
  match fuel with
  | O => None
  | S fuel =>
      let? r := fgets (line st) INI_MAX_LINE stream in
      match r with
      | None => Some st
      | Some (m, stream) =>
          let? st := parse_line handler (with_line st m) in
          parse_loop fuel handler stream st
      end
  end.

(** [ini_parse_stream] on a file; [junk] is what the array [line] holds when
    the function is entered. *)
Definition ini_parse_stream (junk : list Z) (handler : ini_handler) (stream : list Z) (u : U) : option (U * Z) :=
  let zeros n := replicate (Z.to_nat n) 0 in
  let? st := parse_loop (S (length stream)) handler stream
               (Parser junk (zeros MAX_SECTION) (zeros MAX_NAME) 0 0 u) in
  Some (user st, error st).

Definition ini_parse_file := ini_parse_stream.

(** [file] is the contents of the file, [None] when it cannot be opened. *)
Definition ini_parse (junk : list Z) (file : option (list Z)) (handler : ini_handler) (u : U) : option (U * Z) :=
  match file with
  | None => Some (u, -1)
  | Some stream => ini_parse_file junk handler stream u
  end.

End Parser.
Arguments parser : clear implicits.
Arguments ini_handler : clear implicits.

(** ** setting.c *)

(** The members of [configuration], on the stack and not initialised:
    [None] until they are stored. *)
Record configuration := Configuration {
  version : option Z; name : option (list Z); email : option (list Z) }.

Definition handler (c : configuration) (sec nam value : list Z) : configuration * Z :=
  let MATCH s n := streq sec (bytes_of_string s) && streq nam (bytes_of_string n) in
  if MATCH "protocol" "version" then (Configuration (Some (atoi value)) (name c) (email c), 1)
  else if MATCH "user" "name" then (Configuration (version c) (Some value) (email c), 1)
  else if MATCH "user" "email" then (Configuration (version c) (name c) (Some value), 1)
  else (c, 0).

(** What is printed; printing a member that was never stored is a fault. *)
Definition readFromIni (junk : list Z) (file : option (list Z)) : option (list Z) :=
  let? (c, r) := ini_parse junk file handler (Configuration None None None) in
  if r <? 0 then Some (bytes_of_string "Can't load 'test.ini'" ++ [10]) else
  let? v := version c in
  let? n := name c in
  let? e := email c in
  Some (bytes_of_string "Config loaded from 'test.ini': version=" ++ fmt_d v ++
        bytes_of_string ", name=" ++ n ++ bytes_of_string ", email=" ++ e ++ [10]).

(** [struct Settings] as [settings_init] leaves it, with what it printed; the
    [float] [slow_cmd_time] of 0.1 seconds is kept in milliseconds. *)
Record Settings := Setting {
  port : Z; inter : option (list Z); item_buf_size : Z; maxconns : Z; verbose : Z;
  num_threads : Z; flush_limit : Z; flush_period : Z; slow_cmd_time_ms : Z }.

Definition settings_init (junk : list Z) (file : option (list Z)) : option (Settings * list Z) :=
  let s := Setting 8000 None (4 * 1024) 1024 1 1 1024 (60 * 10) 100 in
  let? out := readFromIni junk file in Some (s, out).

End Ini.
