(* ===== verification/IniSpec.v ===== *)
(** * What the configuration parser of the dispatcher computes

    A description of a line on plain texts ([read_line]), without buffers
    and offsets, and the theorems: the parser of [Ini] computes exactly
    this on every file and never leaves its three arrays; it reports the
    first line that is refused; a file that was written from sections and
    pairs is read back as these. *)

From S2P Require Import Prelude Sds SdsBufSpec Libc Ini.

Module IniSpec.
Import Sds Libc Ini SdsBufProofs.

(** ** Texts *)

Definition lstrip_text (t : list Z) : list Z := drop_while isspace t.
Definition rstrip_text (t : list Z) : list Z := reverse (drop_while isspace (reverse t)).

(** The text before the first [c] or the first [;] after white space. *)
Fixpoint before (c : Z) (was : bool) (t : list Z) : list Z :=
  match t with
  | [] => []
  | x :: t => if negb (x =? c) && negb (was && (x =? 59)) then x :: before c (isspace x) t else []
  end.

(** The same text with the character that ends it and the rest, if any. *)
Definition cut (c : Z) (t : list Z) : list Z * list Z :=
  let a := before c false t in (a, drop (length a) t).

(** A texts' place in a buffer: it follows [pre] and is terminated. *)
Definition buf (pre t post : list Z) : list Z := pre ++ t ++ 0 :: post.

(** Two ways of writing the same buffer. *)
Ltac relist := unfold buf; cbn [app]; repeat progress (rewrite <- ?app_assoc; cbn [app]); done.

Lemma zget_head pre x (r : list Z) : zget (pre ++ x :: r) (zlen pre) = Some x.
Proof.
  apply zget_Some. split; [lia|]. rewrite Nat2Z.id. by rewrite lookup_app_r, Nat.sub_diag by lia.
Qed.

Lemma zlen_snoc (pre : list Z) x : zlen (pre ++ [x]) = zlen pre + 1.
Proof. rewrite length_app. cbn. lia. Qed.

Lemma app_snoc (pre : list Z) x r : pre ++ x :: r = (pre ++ [x]) ++ r.
Proof. by rewrite <- app_assoc. Qed.

Lemma strlen_from_buf fuel pre t post :
  0 ∉ t -> (length t < fuel)%nat -> strlen_from fuel (buf pre t post) (zlen pre) = Some (zlen t).
Proof.
  unfold buf. revert fuel pre.
  induction t as [|x t IH]; intros [|fuel] pre H0 Hf; cbn in Hf; try lia; cbn [strlen_from app].
  - by rewrite zget_head.
  - rewrite zget_head. cbn [obind]. apply not_elem_of_cons in H0 as [H0 Ht].
    replace (x =? 0) with false by lia.
    rewrite (app_snoc pre x), <- zlen_snoc with (x := x), IH by (done || lia). cbn. f_equal. lia.
Qed.

Lemma length_buf pre t post : length (buf pre t post) = (length pre + length t + S (length post))%nat.
Proof. unfold buf. rewrite !length_app. cbn. lia. Qed.

Lemma string_at_buf pre t post : 0 ∉ t -> string_at (buf pre t post) (zlen pre) = Some t.
Proof.
  intros H0. unfold string_at. rewrite strlen_from_buf by (done || rewrite length_buf; lia).
  cbn [obind]. apply zread_mid.
Qed.

Lemma rstrip_text_snoc_space t x : isspace x = true -> rstrip_text (t ++ [x]) = rstrip_text t.
Proof. intros Hx. unfold rstrip_text. rewrite reverse_app. cbn. by rewrite Hx. Qed.

Lemma rstrip_text_snoc t x : isspace x = false -> rstrip_text (t ++ [x]) = t ++ [x].
Proof.
  intros Hx. unfold rstrip_text. rewrite reverse_app. change (reverse [x]) with [x].
  cbn [app drop_while]. rewrite Hx.
  by rewrite reverse_cons, reverse_involutive.
Qed.

(** Stripping leaves a prefix, blanks follow it. *)
Lemma rstrip_text_split t :
  exists b, t = rstrip_text t ++ b /\ Forall (fun c => isspace c = true) b.
Proof.
  destruct (drop_while_split isspace (reverse t)) as (a & Ha & Hf).
  exists (reverse a). split; [|by apply Forall_reverse].
  unfold rstrip_text. rewrite <- reverse_app, <- Ha. by rewrite reverse_involutive.
Qed.

Definition zeros (n : nat) : list Z := replicate n 0.

Lemma rstrip_loop_buf fuel pre t post :
  (length t < fuel)%nat ->
  rstrip_loop fuel (buf pre t post) (zlen pre) (zlen pre + zlen t) =
  Some (buf pre (rstrip_text t) (zeros (length t - length (rstrip_text t)) ++ post)).
Proof.
  unfold buf. revert fuel post.
  induction t as [|x t IH] using rev_ind; intros [|fuel] post Hf; try (cbn in Hf; lia); cbn [rstrip_loop].
  - cbn [length]. by rewrite Z.add_0_r, Z.ltb_irrefl.
  - rewrite length_app in *. cbn [length] in *.
    rewrite (proj2 (Z.ltb_lt _ _)) by lia.
    replace (zlen pre + Z.of_nat (length t + 1) - 1) with (zlen (pre ++ t)) by (rewrite length_app; lia).
    replace (pre ++ (t ++ [x]) ++ 0 :: post) with ((pre ++ t) ++ x :: 0 :: post) by (by rewrite <- !app_assoc).
    rewrite zget_head. cbn [obind]. destruct (isspace x) eqn:Hx.
    + rewrite zset_mid. cbn [obind]. rewrite <- app_assoc.
      replace (zlen (pre ++ t)) with (zlen pre + zlen t) by (rewrite length_app; lia).
      rewrite IH by lia. rewrite rstrip_text_snoc_space by done. do 3 f_equal.
      destruct (rstrip_text_split t) as (b & Hb & _).
      assert (Hle : (length (rstrip_text t) <= length t)%nat) by (rewrite Hb at 2; rewrite length_app; lia).
      replace (length t + 1 - length (rstrip_text t))%nat
        with (S (length t - length (rstrip_text t))) by lia.
      unfold zeros. rewrite replicate_S_end. by rewrite <- app_assoc.
    + rewrite rstrip_text_snoc by done. rewrite length_app. cbn [length]. rewrite Nat.sub_diag.
      cbn. by rewrite <- !app_assoc.
Qed.

Lemma rstrip_buf pre t post :
  0 ∉ t ->
  rstrip (buf pre t post) (zlen pre) =
  Some (buf pre (rstrip_text t) (zeros (length t - length (rstrip_text t)) ++ post)).
Proof.
  intros H0. unfold rstrip. rewrite strlen_from_buf by (done || rewrite length_buf; lia).
  cbn [obind]. apply rstrip_loop_buf. rewrite length_buf. lia.
Qed.

Lemma lskip_loop_buf fuel pre t post :
  0 ∉ t -> (length t < fuel)%nat ->
  lskip_loop fuel (buf pre t post) (zlen pre) = Some (zlen pre + (zlen t - zlen (lstrip_text t))).
Proof.
  unfold buf. revert fuel pre.
  induction t as [|x t IH]; intros [|fuel] pre H0 Hf; cbn in Hf; try lia; cbn [lskip_loop app].
  - rewrite zget_head. cbn. f_equal. lia.
  - rewrite zget_head. cbn [obind]. apply not_elem_of_cons in H0 as [H0 Ht].
    replace (x =? 0) with false by lia. cbn [negb andb]. unfold lstrip_text. cbn [drop_while].
    destruct (isspace x).
    + rewrite (app_snoc pre x), <- zlen_snoc with (x := x), IH by (done || lia).
      rewrite length_app. unfold lstrip_text. cbn [length]. f_equal. lia.
    + f_equal. lia.
Qed.

Lemma lskip_buf pre t post :
  0 ∉ t -> lskip (buf pre t post) (zlen pre) = Some (zlen pre + (zlen t - zlen (lstrip_text t))).
Proof. intros H0. apply lskip_loop_buf; [done|]. rewrite length_buf. lia. Qed.

Lemma find_loop_buf fuel pre t post c w :
  0 ∉ t -> (length t < fuel)%nat ->
  find_loop fuel (buf pre t post) (zlen pre) c w = Some (zlen pre + zlen (before c w t)).
Proof.
  unfold buf. revert fuel pre w.
  induction t as [|x t IH]; intros [|fuel] pre w H0 Hf; cbn in Hf; try lia; cbn [find_loop app before].
  - rewrite zget_head. cbn. f_equal. lia.
  - rewrite zget_head. cbn [obind]. apply not_elem_of_cons in H0 as [H0 Ht].
    replace (x =? 0) with false by lia. cbn [negb andb].
    destruct (negb (x =? c) && _).
    + rewrite (app_snoc pre x), <- zlen_snoc with (x := x), IH by (done || lia).
      rewrite length_app. cbn [length]. f_equal. lia.
    + cbn. f_equal. lia.
Qed.

Lemma find_buf pre t post c :
  0 ∉ t -> find_char_or_comment (buf pre t post) (zlen pre) c = Some (zlen pre + zlen (before c false t)).
Proof. intros H0. apply find_loop_buf; [done|]. rewrite length_buf. lia. Qed.

(** What stands at the place that was found, and cutting the text there. *)
Lemma zget_after pre a rest post :
  zget (buf pre (a ++ rest) post) (zlen pre + zlen a) = Some (hd 0 rest).
Proof.
  unfold buf. replace (zlen pre + zlen a) with (zlen (pre ++ a)) by (rewrite length_app; lia).
  rewrite <- !app_assoc, (app_assoc pre a). destruct rest; cbn [app hd]; apply zget_head.
Qed.

Lemma zset_after pre a x r post :
  zset (buf pre (a ++ x :: r) post) (zlen pre + zlen a) 0 = Some (buf pre a (r ++ 0 :: post)).
Proof.
  unfold buf. replace (zlen pre + zlen a) with (zlen (pre ++ a)) by (rewrite length_app; lia).
  rewrite <- !app_assoc, (app_assoc pre a). cbn [app]. by rewrite zset_mid, <- app_assoc.
Qed.

Lemma before_prefix c w t : exists r, t = before c w t ++ r.
Proof.
  revert w. induction t as [|x t IH]; intros w; cbn [before]; [by exists []|].
  destruct (negb (x =? c) && _); [|by exists (x :: t)].
  destruct (IH (isspace x)) as [r Hr]. exists r. cbn. by rewrite <- Hr.
Qed.

Lemma cut_split c t : t = (cut c t).1 ++ (cut c t).2.
Proof.
  unfold cut. cbn [fst snd]. destruct (before_prefix c false t) as [r Hr].
  set (a := before c false t) in *. clearbody a. subst t. by rewrite drop_app_length.
Qed.

(** What ends a text without zeros looked for a zero is a comment. *)
Lemma before_zero_rest w t x r : 0 ∉ t -> t = before 0 w t ++ x :: r -> x = 59.
Proof.
  revert w. induction t as [|y t IH]; intros w H0 Ht; [by destruct (before 0 w [])|].
  apply not_elem_of_cons in H0 as [H0 H0t]. cbn [before] in Ht.
  destruct (negb (y =? 0) && negb (w && (y =? 59))) eqn:E.
  - injection Ht as Ht. by apply (IH (isspace y)).
  - cbn in Ht. injection Ht as -> ->. destruct (Z.eqb_spec x 0), (Z.eqb_spec x 59), w; done || lia.
Qed.

(** A search ends at what is looked for, at a comment or at the end. *)
Lemma before_ends c w t (x := hd 0 (drop (length (before c w t)) t)) : x = 0 \/ x = c \/ x = 59.
Proof.
  revert w x. induction t as [|y t IH]; intros w; cbn [before]; [by left|].
  destruct (negb (y =? c) && negb (w && (y =? 59))) eqn:E; cbn [length drop hd]; [apply IH|].
  destruct (Z.eqb_spec y c), (Z.eqb_spec y 59), w; auto; discriminate E.
Qed.

(** ** Arrays of fixed size that hold a name *)

Definition field (size : Z) (b t : list Z) : Prop :=
  zlen b = size /\ 0 ∉ t /\ exists post, b = buf [] t post.

Lemma field_string size b t : field size b t -> string_at b 0 = Some t.
Proof. intros (_ & H0 & post & ->). by apply (string_at_buf []). Qed.

Lemma field_head size b t : field size b t -> zget b 0 = Some (hd 0 t).
Proof. intros (_ & _ & post & ->). apply (zget_after [] [] t post). Qed.

Lemma field_clear size b t : field size b t -> exists b', zset b 0 0 = Some b' /\ field size b' [].
Proof.
  intros (Hl & _ & post & ->). destruct t as [|x t].
  - exists (buf [] [] post). split; [|split; [done|split; [set_solver|by exists post]]].
    apply (zset_mid [] post 0 0).
  - exists (buf [] [] (t ++ 0 :: post)). split; [apply (zset_after [] [] x t post)|].
    split; [|split; [set_solver|by eexists]]. rewrite <- Hl, !length_buf, length_app. cbn. lia.
Qed.

Lemma strncpy_loop_buf n d0 d1 pre t post :
  0 ∉ t -> length d1 = n ->
  strncpy_loop n (d0 ++ d1) (zlen d0) (buf pre t post) (zlen pre) =
  Some (d0 ++ take n t ++ zeros (n - length t)).
Proof.
  revert d0 d1 pre t. induction n as [|n IH]; intros d0 [|y d1] pre t H0 Hn; try discriminate Hn.
  - by cbn.
  - injection Hn as Hn. cbn [strncpy_loop].
    pose proof (zget_after pre [] t post) as Hg. cbn [app length] in Hg. rewrite Z.add_0_r in Hg.
    rewrite Hg. cbn [obind]. rewrite zset_mid. cbn [obind].
    rewrite (app_snoc d0), <- zlen_snoc with (x := hd 0 t). destruct t as [|x t]; cbn [hd].
    + change (if 0 =? 0 then zlen pre else zlen pre + 1) with (zlen pre).
      rewrite (IH (d0 ++ [0]) d1 pre []) by done. rewrite take_nil. cbn [app length].
      replace (n - 0)%nat with n by lia. cbn. by rewrite <- app_assoc.
    + apply not_elem_of_cons in H0 as [H0 Ht]. replace (x =? 0) with false by lia.
      unfold buf. cbn [app]. rewrite (app_snoc pre x), <- zlen_snoc with (x := x).
      fold (buf (pre ++ [x]) t post). rewrite IH by done. by rewrite <- app_assoc.
Qed.

Lemma strncpy0_buf size b old pre t post :
  1 <= size -> field size b old -> 0 ∉ t ->
  exists b', strncpy0 b (buf pre t post) (zlen pre) size = Some b' /\
             field size b' (take (Z.to_nat (size - 1)) t).
Proof.
  intros Hs (Hl & _) H0. unfold strncpy0.
  pose proof (strncpy_loop_buf (Z.to_nat size) [] b pre t post H0 ltac:(lia)) as Hloop.
  cbn [app length] in Hloop. change (Z.of_nat 0) with 0 in Hloop. rewrite Hloop. cbn [obind].
  set (k := Z.to_nat (size - 1)).
  replace (take (Z.to_nat size) t ++ zeros (Z.to_nat size - length t))
    with ((take k t ++ zeros (k - length t)) ++ [nth k t 0]).
  2:{ replace (Z.to_nat size) with (S k) by lia. clear. unfold zeros. revert t.
      induction k as [|k IH]; intros [|x t]; cbn; try done.
      - f_equal. specialize (IH []). rewrite take_nil, Nat.sub_0_r in IH. cbn in IH.
        destruct k; exact IH.
      - f_equal. apply IH. }
  replace (size - 1) with (zlen (take k t ++ zeros (k - length t)))
    by (rewrite length_app, length_take; unfold zeros; rewrite length_replicate; lia).
  rewrite zset_mid. eexists. split; [done|]. split; [|split].
  - rewrite !length_app, length_take. unfold zeros. rewrite length_replicate. cbn. lia.
  - intros Hin. by apply H0, (subseteq_take k t).
  - exists (zeros (k - length t)). unfold buf. cbn [app]. rewrite <- app_assoc. f_equal.
    unfold zeros. by rewrite <- replicate_S_end.
Qed.

(** ** What a line means *)

Inductive entry :=
  | Blank                      (* nothing, or a comment *)
  | More (value : list Z)      (* an indented line: one more value of the last name *)
  | Head (sec : list Z)        (* the start of a section *)
  | Pair (nam value : list Z)
  | Bad.                       (* neither a section nor a pair *)

Definition marked (t : list Z) : bool :=
  match t with a :: b :: c :: _ => (a =? 239) && (b =? 187) && (c =? 191) | _ => false end.

(** The text cut at [c], where [c] itself ends it. *)
Definition cut_at_char (c : Z) (t : list Z) : option (list Z * list Z) :=
  match cut c t with
  | (a, x :: r) => if x =? c then Some (a, r) else None
  | (_, []) => None
  end.

Definition value_text (r : list Z) : list Z := rstrip_text (before 0 false (lstrip_text r)).

Definition read_pair (s : list Z) : entry :=
  match cut_at_char 61 s, cut_at_char 58 s with
  | Some (a, r), _ | None, Some (a, r) => Pair (rstrip_text a) (value_text r)
  | None, None => Bad
  end.

(** A stripped line; [cont]: it continues the value of the line before. *)
Definition read_text (cont : bool) (s : list Z) : entry :=
  match s with
  | [] => Blank
  | c :: s1 =>
      if (c =? 59) || (c =? 35) then Blank
      else if cont then More s
      else if c =? 91 then
        match cut_at_char 93 s1 with Some (a, _) => Head (take 49 a) | None => Bad end
      else read_pair s
  end.

(** [first]: the line is the first of the file; [prev]: a name is pending. *)
Definition read_line (first prev : bool) (t : list Z) : entry :=
  let r := rstrip_text (if first && marked t then drop 3 t else t) in
  let s := lstrip_text r in
  read_text (prev && negb (length s =? length r)%nat) s.

(** The lines as [fgets] delivers them: pieces of at most 199 bytes, each
    read as a C string. *)
Abbreviation lines_of := (pieces 199).

Section Meaning.
Context {U : Type} (h : ini_handler U).

(** The section and name in force, the number of lines, the first refused
    line (0 when there is none) and the handler's data. *)
Record reading := Reading { r_sec : list Z; r_prev : list Z; r_line : Z; r_err : Z; r_user : U }.

Definition answer (r : reading) (ok : bool) : reading :=
  Reading (r_sec r) (r_prev r) (r_line r) (if negb ok && (r_err r =? 0) then r_line r else r_err r) (r_user r).

Definition give (r : reading) (nam value : list Z) : reading :=
  let '(u, ok) := h (r_user r) (r_sec r) nam value in
  answer (Reading (r_sec r) (r_prev r) (r_line r) (r_err r) u) (negb (ok =? 0)).

Definition apply_entry (r : reading) (e : entry) : reading :=
  match e with
  | Blank => r
  | More v => give r (r_prev r) v
  | Head s => Reading s [] (r_line r) (r_err r) (r_user r)
  | Pair n v => give (Reading (r_sec r) (take 49 n) (r_line r) (r_err r) (r_user r)) n v
  | Bad => answer r false
  end.

Definition next_line (r : reading) (t : list Z) : reading :=
  let r := Reading (r_sec r) (r_prev r) (r_line r + 1) (r_err r) (r_user r) in
  apply_entry r (read_line (r_line r =? 1) (negb (bool_decide (r_prev r = []))) t).

(** The whole file. *)
Definition read_file (u : U) (stream : list Z) : reading :=
  fold_left next_line (lines_of (length stream) stream) (Reading [] [] 0 0 u).

(** ** The parser computes this *)

Definition represents (st : parser U) (r : reading) : Prop :=
  zlen (line st) = INI_MAX_LINE /\
  field MAX_SECTION (section st) (r_sec r) /\
  field MAX_NAME (prev_name st) (r_prev r) /\
  lineno st = r_line r /\ error st = r_err r /\ user st = r_user r /\
  0 <= r_line r /\ (r_line r = 0 -> r_prev r = []).

Lemma set_error_ok st r : represents st r -> represents (set_error st) (answer r false).
Proof.
  intros (Hl & Hs & Hp & Hn & He & Hu & H0). unfold represents, set_error, answer. cbn.
  rewrite Hn, He. by destruct (r_err r =? 0).
Qed.

Lemma call_ok st r nam value :
  represents st r -> exists st', call h st nam value = Some st' /\ represents st' (give r nam value).
Proof.
  intros Hr. pose proof Hr as (Hl & Hs & Hp & Hn & He & Hu & H0). unfold call, give.
  rewrite (field_string _ _ _ Hs). cbn [obind]. rewrite Hu.
  destruct (h (r_user r) (r_sec r) nam value) as [u ok]. eexists. split; [done|].
  assert (Hr' : represents (with_user st u) (Reading (r_sec r) (r_prev r) (r_line r) (r_err r) u)) by done.
  destruct (ok =? 0); [by apply set_error_ok in Hr'|exact Hr'].
Qed.

Lemma represents_line st r m : represents st r -> zlen m = INI_MAX_LINE -> represents (with_line st m) r.
Proof. intros (Hl & Hr) Hm. by split. Qed.

Lemma hd_cut_char c t :
  c <> 0 -> cut_at_char c t =
  (if hd 0 (cut c t).2 =? c then Some ((cut c t).1, tail (cut c t).2) else None).
Proof.
  intros Hc. unfold cut_at_char. destruct (cut c t) as [a [|x r]]; cbn [fst snd hd tail].
  - destruct (Z.eqb_spec 0 c); [congruence|done].
  - done.
Qed.

Lemma find_cut pre t post c :
  0 ∉ t -> find_char_or_comment (buf pre t post) (zlen pre) c = Some (zlen pre + zlen (cut c t).1).
Proof. apply find_buf. Qed.

Lemma zget_cut pre t post c :
  zget (buf pre t post) (zlen pre + zlen (cut c t).1) = Some (hd 0 (cut c t).2).
Proof. rewrite (cut_split c t) at 1. apply zget_after. Qed.

Lemma zset_cut pre t post c :
  hd 0 (cut c t).2 <> 0 ->
  zset (buf pre t post) (zlen pre + zlen (cut c t).1) 0 =
  Some (buf pre (cut c t).1 (tail (cut c t).2 ++ 0 :: post)).
Proof.
  intros Hx. rewrite (cut_split c t) at 1. destruct (cut c t) as [a [|x r]]; [done|].
  apply zset_after.
Qed.

Lemma not_in_cut c t : 0 ∉ t -> 0 ∉ (cut c t).1 /\ 0 ∉ tail (cut c t).2.
Proof.
  intros H0. rewrite (cut_split c t) in H0. apply not_elem_of_app in H0 as [Ha Hb].
  split; [done|]. destruct (cut c t).2; [done|]. set_solver.
Qed.

Lemma section_line_ok st r pre s1 post :
  represents st r -> line st = buf pre (91 :: s1) post -> 0 ∉ s1 ->
  exists st', section_line st (zlen pre) = Some st' /\
    represents st' (apply_entry r (match cut_at_char 93 s1 with Some (a, _) => Head (take 49 a) | None => Bad end)).
Proof using.
  intros Hr Hline H0. pose proof Hr as (Hl & Hs & Hp & Hn & He & Hu & Hz). unfold section_line.
  assert (Hb : buf pre (91 :: s1) post = buf (pre ++ [91]) s1 post) by (unfold buf; by rewrite <- app_assoc).
  rewrite Hline, Hb, <- zlen_snoc with (x := 91), find_cut by done. cbn [obind].
  rewrite zget_cut. cbn [obind]. rewrite hd_cut_char by done.
  destruct (Z.eqb_spec (hd 0 (cut 93 s1).2) 93) as [Hx|Hx].
  - rewrite zset_cut by (rewrite Hx; done). cbn [obind].
    destruct (not_in_cut 93 s1 H0) as [Ha _].
    destruct (strncpy0_buf MAX_SECTION (section st) (r_sec r) (pre ++ [91]) (cut 93 s1).1
                (tail (cut 93 s1).2 ++ 0 :: post) ltac:(done) Hs Ha) as (b & -> & Hfb). cbn [obind].
    destruct (field_clear _ _ _ Hp) as (pn & -> & Hpn). cbn [obind]. eexists. split; [done|].
    split; [|split; [exact Hfb|split; [exact Hpn|cbn; tauto]]].
    cbn [line with_prev with_section]. rewrite <- Hl, Hline, Hb, !length_buf.
    pose proof (f_equal length (cut_split 93 s1)) as Hc. rewrite length_app in Hc.
    destruct (cut 93 s1).2; [done|]. cbn [tail length fst] in *. rewrite !length_app. cbn [length]. lia.
  - eexists. split; [done|]. by apply set_error_ok.
Qed.

Lemma length_rstrip_text t : (length (rstrip_text t) <= length t)%nat.
Proof. destruct (rstrip_text_split t) as (b & Hb & _). rewrite Hb at 2. rewrite length_app. lia. Qed.

Lemma lstrip_text_split t : exists b, t = b ++ lstrip_text t.
Proof. destruct (drop_while_split isspace t) as (b & Hb & _). by exists b. Qed.

Lemma not_in_rstrip t : 0 ∉ t -> 0 ∉ rstrip_text t.
Proof. destruct (rstrip_text_split t) as (b & Hb & _). rewrite Hb at 1. set_solver. Qed.

Lemma not_in_lstrip t : 0 ∉ t -> 0 ∉ lstrip_text t.
Proof. destruct (lstrip_text_split t) as (b & Hb). rewrite Hb at 1. set_solver. Qed.

(** Cutting a value at its comment and stripping it. *)
Lemma value_ok pre t post :
  0 ∉ t -> let m := buf pre t post in
  exists e c m1 post',
    find_char_or_comment m (zlen pre) 0 = Some e /\ zget m e = Some c /\
    (if c =? 59 then zset m e 0 else Some m) = Some m1 /\
    rstrip m1 (zlen pre) = Some (buf pre (rstrip_text (before 0 false t)) post') /\
    length (buf pre (rstrip_text (before 0 false t)) post') = length m.
Proof.
  intros H0 m. destruct (not_in_cut 0 t H0) as [Ha _].
  assert (exists post1, (if hd 0 (cut 0 t).2 =? 59 then zset m (zlen pre + zlen (cut 0 t).1) 0 else Some m) =
            Some (buf pre (cut 0 t).1 post1) /\ length (buf pre (cut 0 t).1 post1) = length m)
    as (post1 & Hm1 & Hl1).
  { subst m. pose proof (f_equal length (cut_split 0 t)) as Hc. rewrite length_app in Hc.
    destruct (Z.eqb_spec (hd 0 (cut 0 t).2) 59) as [Hx|Hx].
    - rewrite zset_cut by (rewrite Hx; done). eexists. split; [done|]. rewrite !length_buf, length_app.
      destruct (cut 0 t).2; [done|]. cbn [tail length] in *. lia.
    - destruct (cut 0 t).2 as [|x r] eqn:Hr.
      + exists post. pose proof (cut_split 0 t) as Ht. rewrite Hr, app_nil_r in Ht. by rewrite <- Ht.
      + destruct Hx. apply (before_zero_rest false t x r H0). rewrite <- Hr. apply cut_split. }
  eexists _, _, _, _. split; [by apply find_cut|]. split; [apply zget_cut|]. split; [exact Hm1|].
  split; [by apply rstrip_buf|]. rewrite <- Hl1, !length_buf, length_app. unfold zeros.
  rewrite length_replicate. change (before 0 false t) with (cut 0 t).1.
  pose proof (length_rstrip_text (cut 0 t).1). lia.
Qed.

(** A name and a value once the separator is overwritten: [start] is
    [zlen pre], the separator stood at [zlen pre + zlen a]. *)
Lemma pair_ok st r pre a rest post :
  represents st r -> 1 <= r_line r -> 0 ∉ a -> 0 ∉ rest -> zlen (buf pre a (rest ++ 0 :: post)) = INI_MAX_LINE ->
  exists st',
    (let? m := rstrip (buf pre a (rest ++ 0 :: post)) (zlen pre) in
     let? value := lskip m (zlen pre + zlen a + 1) in
     let? end_ := find_char_or_comment m value 0 in
     let? c := zget m end_ in
     let? m := (if c =? 59 then zset m end_ 0 else Some m) in
     let? m := rstrip m value in
     let? pn := strncpy0 (prev_name st) m (zlen pre) MAX_NAME in
     let st := with_prev (with_line st m) pn in
     let? n := string_at m (zlen pre) in
     let? v := string_at m value in
     call h st n v) = Some st' /\
    represents st' (apply_entry r (Pair (rstrip_text a) (value_text rest))).
Proof using.
  intros Hr Hpos1 Ha H0 Hlen. rewrite rstrip_buf by done. cbn [obind].
  set (k := (length a - length (rstrip_text a))%nat).
  pose proof (length_rstrip_text a) as Hk.
  destruct (lstrip_text_split rest) as (b & Hb).
  set (pre3 := pre ++ rstrip_text a ++ 0 :: zeros k ++ b).
  assert (Hm : buf pre (rstrip_text a) (zeros k ++ rest ++ 0 :: post) =
               buf (pre ++ rstrip_text a ++ 0 :: zeros k) rest post)
    by relist.
  assert (Hm3 : buf (pre ++ rstrip_text a ++ 0 :: zeros k) rest post = buf pre3 (lstrip_text rest) post).
  { unfold pre3. rewrite Hb at 1. relist. }
  assert (Hpos : zlen pre + zlen a + 1 = zlen (pre ++ rstrip_text a ++ 0 :: zeros k))
    by (rewrite !length_app; cbn [length]; unfold zeros; rewrite length_replicate; lia).
  rewrite Hm, Hpos, lskip_buf by done. cbn [obind].
  replace (zlen (pre ++ rstrip_text a ++ 0 :: zeros k) + (zlen rest - zlen (lstrip_text rest))) with (zlen pre3).
  2:{ pose proof (f_equal length Hb) as Hbl. rewrite length_app in Hbl. unfold pre3.
      rewrite !length_app. cbn [length]. rewrite length_app. lia. }
  rewrite Hm3.
  destruct (value_ok pre3 (lstrip_text rest) post (not_in_lstrip _ H0))
    as (e & c & m1 & post1 & -> & Hc & Hm1 & Hrs & Hl1). cbn [obind].
  rewrite Hc. cbn [obind]. rewrite Hm1. cbn [obind]. rewrite Hrs. cbn [obind].
  fold (value_text rest) in *. set (m5 := buf pre3 (value_text rest) post1) in *.
  assert (Hm5 : m5 = buf pre (rstrip_text a) (zeros k ++ b ++ value_text rest ++ 0 :: post1)).
  { unfold m5, pre3. relist. }
  pose proof Hr as (Hl & Hs & Hp & Hn & He & Hu & Hz).
  assert (Hv : string_at m5 (zlen pre3) = Some (value_text rest)).
  { apply string_at_buf, not_in_rstrip. by apply (not_in_cut 0), not_in_lstrip. }
  assert (Hnm : string_at m5 (zlen pre) = Some (rstrip_text a))
    by (rewrite Hm5; by apply string_at_buf, not_in_rstrip).
  destruct (strncpy0_buf MAX_NAME (prev_name st) (r_prev r) pre (rstrip_text a)
     (zeros k ++ b ++ value_text rest ++ 0 :: post1) ltac:(done) Hp (not_in_rstrip _ Ha)) as (pn & Hpn & Hfp).
  rewrite <- Hm5 in Hpn. rewrite Hpn. cbn [obind]. rewrite Hnm. cbn [obind]. rewrite Hv. cbn [obind].
  apply call_ok. split; [|split; [exact Hs|split; [exact Hfp|repeat split; try done]]].
  - cbn [line with_prev with_line]. rewrite Hl1, <- Hm3, <- Hm. rewrite <- Hlen, !length_buf, !length_app.
    unfold zeros. rewrite length_replicate. lia.
  - apply Hz.
  - cbn. lia.
Qed.

Lemma pair_line_ok st r pre s post :
  represents st r -> 1 <= r_line r -> line st = buf pre s post -> 0 ∉ s ->
  exists st', pair_line h st (zlen pre) = Some st' /\ represents st' (apply_entry r (read_pair s)).
Proof using.
  intros Hr H1 Hline H0. pose proof Hr as (Hl & _). unfold pair_line.
  assert (Hlen : forall c, hd 0 (cut c s).2 <> 0 ->
            zlen (buf pre (cut c s).1 (tail (cut c s).2 ++ 0 :: post)) = INI_MAX_LINE).
  { intros c Hc. rewrite <- Hl, Hline, !length_buf, length_app.
    pose proof (f_equal length (cut_split c s)) as E. rewrite length_app in E.
    destruct (cut c s).2; [done|]. cbn [tail length] in *. lia. }
  rewrite Hline, find_cut by done. cbn [obind]. rewrite zget_cut. cbn [obind].
  unfold read_pair. rewrite !hd_cut_char by done.
  destruct (Z.eqb_spec (hd 0 (cut 61 s).2) 61) as [Hx|Hx]; cbn [negb].
  - cbn [obind]. rewrite zget_cut. cbn [obind]. rewrite Hx. cbn [orb Z.eqb Pos.eqb].
    rewrite zset_cut by (rewrite Hx; done). cbn [obind].
    destruct (not_in_cut 61 s H0). apply pair_ok; try done. apply Hlen. by rewrite Hx.
  - rewrite find_cut by done. cbn [obind]. rewrite zget_cut. cbn [obind].
    destruct (Z.eqb_spec (hd 0 (cut 58 s).2) 58) as [Hy|Hy].
    + rewrite orb_true_r. rewrite zset_cut by (rewrite Hy; done). cbn [obind].
      destruct (not_in_cut 58 s H0). apply pair_ok; try done. apply Hlen. by rewrite Hy.
    + replace (hd 0 (cut 58 s).2 =? 61) with false; [eexists; split; [done|by apply set_error_ok]|].
      symmetry. apply Z.eqb_neq. intros Hz.
      destruct (before_ends 58 false s) as [E|[E|E]]; unfold cut in Hz; cbn [snd] in Hz; lia.
Qed.

Lemma bom_ok st r t post :
  represents st r -> line st = buf [] t post ->
  bom st = Some ((r_line r =? 1) && marked t).
Proof.
  intros (_ & _ & _ & Hn & _) Hline. unfold bom. rewrite Hn, Hline.
  destruct (r_line r =? 1); [cbn [negb andb]|done].
  assert (H0 : forall (x : Z) l, zget (x :: l) 0 = Some x) by done.
  assert (H1 : forall (x y : Z) l, zget (x :: y :: l) 1 = Some y) by done.
  assert (H2 : forall (x y z : Z) l, zget (x :: y :: z :: l) 2 = Some z) by done.
  unfold marked, buf.
  destruct t as [|a t]; cbn [app]; rewrite H0; cbn [obind]; [done|].
  destruct (a =? 239); [cbn [negb andb]|by destruct t as [|? [|? ?]]].
  destruct t as [|b t]; cbn [app]; rewrite H1; cbn [obind]; [done|].
  destruct (b =? 187); [cbn [negb andb]|by destruct t].
  by destruct t as [|c t]; cbn [app]; rewrite H2.
Qed.

(** A line once its first character is found. *)
Lemma read_text_ok st r pre s post :
  represents st r -> 1 <= r_line r -> line st = buf pre s post -> 0 ∉ s ->
  exists st',
    (if (hd 0 s =? 59) || (hd 0 s =? 35) then Some st else
     let? p := zget (prev_name st) 0 in
     if negb (p =? 0) && negb (hd 0 s =? 0) && (0 <? zlen pre) then
       let? pn := string_at (prev_name st) 0 in
       let? v := string_at (line st) (zlen pre) in
       call h st pn v
     else if hd 0 s =? 91 then section_line st (zlen pre)
     else if negb (hd 0 s =? 0) && negb (hd 0 s =? 59) then pair_line h st (zlen pre)
     else Some st) = Some st' /\
    represents st' (apply_entry r (read_text (negb (bool_decide (r_prev r = [])) && (0 <? zlen pre)) s)).
Proof using.
  intros Hr H1 Hline H0. pose proof Hr as (Hl & Hs & Hp & _).
  rewrite (field_head _ _ _ Hp), (field_string _ _ _ Hp). cbn [obind].
  destruct s as [|c s1]; cbn [hd read_text].
  { rewrite andb_false_r. cbn. by exists st. }
  apply not_elem_of_cons in H0 as [Hc Hs1].
  destruct ((c =? 59) || (c =? 35)) eqn:Ecomm; [by exists st|].
  replace (c =? 0) with false by lia. replace (c =? 59) with false by lia. cbn [negb andb].
  rewrite andb_true_r.
  assert (Hprev : negb (hd 0 (r_prev r) =? 0) = negb (bool_decide (r_prev r = []))).
  { destruct Hp as (_ & Hp0 & _). destruct (r_prev r) as [|x p]; [done|].
    rewrite bool_decide_eq_false_2 by done. cbn [hd].
    apply not_elem_of_cons in Hp0 as [Hx _]. by replace (x =? 0) with false by lia. }
  rewrite Hprev. destruct (negb _ && (0 <? zlen pre)) eqn:Econt.
  - cbn [obind]. rewrite Hline, string_at_buf by set_solver. cbn [obind apply_entry].
    by apply call_ok.
  - destruct (Z.eqb_spec c 91) as [->|Hne].
    + by apply (section_line_ok st r pre s1 post).
    + apply (pair_line_ok st r pre (c :: s1) post); try done. set_solver.
Qed.

(** Where the text of a line starts: after the mark, if there is one. *)
Lemma text_start t post (mk : bool) :
  (mk = true -> marked t = true) -> 0 ∉ t ->
  exists pre0 t0, t0 = (if mk then drop 3 t else t) /\ buf [] t post = buf pre0 t0 post /\
            zlen pre0 = (if mk then 3 else 0) /\ 0 ∉ t0.
Proof.
  intros Hmk H0. destruct mk; [|by exists [], t].
  exists (take 3 t), (drop 3 t). specialize (Hmk eq_refl).
  destruct t as [|a [|b [|c t]]]; try discriminate Hmk. repeat split. set_solver.
Qed.

Lemma parse_line_ok st r t post :
  represents st r -> line st = buf [] t post -> 0 ∉ t -> r_line r + 1 < 2 ^ 31 ->
  exists st', parse_line h st = Some st' /\ represents st' (next_line r t).
Proof using.
  intros Hr0 Hline H0 Hn. unfold parse_line, next_line.
  set (st1 := Parser _ _ _ _ _ _). set (r1 := Reading _ _ _ _ _).
  pose proof Hr0 as (Hl & Hs & Hp & Hln & He & Hu & Hge & Hz).
  assert (Hr1 : represents st1 r1).
  { unfold represents, st1, r1. cbn. rewrite Hln, s32_small by lia. intuition (auto; lia). }
  change (line st1) with (line st). rewrite (bom_ok st1 r1 t post Hr1 Hline). cbn [obind].
  unfold read_line. set (mk := (r_line r1 =? 1) && marked t).
  destruct (text_start t post mk) as (pre0 & t0 & <- & Hline0 & Hpre0 & H00);
    [unfold mk; by intros [_ ?]%andb_true_iff|done|].
  rewrite <- Hpre0, Hline, Hline0, rstrip_buf by done. cbn [obind].
  rewrite lskip_buf by by apply not_in_rstrip. cbn [obind].
  set (rt := rstrip_text t0). set (post1 := zeros _ ++ post).
  destruct (lstrip_text_split rt) as (b & Hb).
  pose proof (f_equal length Hb) as Hbl. rewrite length_app in Hbl.
  assert (Hm : buf pre0 rt post1 = buf (pre0 ++ b) (lstrip_text rt) post1) by (rewrite Hb at 1; relist).
  replace (zlen pre0 + (zlen rt - zlen (lstrip_text rt))) with (zlen (pre0 ++ b)) by (rewrite length_app; lia).
  rewrite Hm.
  assert (Hr2 : represents (with_line st1 (buf (pre0 ++ b) (lstrip_text rt) post1)) r1).
  { apply represents_line; [done|]. rewrite <- Hm, <- Hl, Hline, Hline0, !length_buf. unfold post1, zeros.
    rewrite length_app, length_replicate. pose proof (length_rstrip_text t0). unfold rt. lia. }
  pose proof (zget_after (pre0 ++ b) [] (lstrip_text rt) post1) as Hg. cbn [app length] in Hg.
  rewrite Z.add_0_r in Hg. rewrite Hg. cbn [obind].
  replace (negb (bool_decide (r_prev r1 = [])) && negb (length (lstrip_text rt) =? length rt)%nat)
    with (negb (bool_decide (r_prev r1 = [])) && (0 <? zlen (pre0 ++ b))).
  - apply (read_text_ok _ r1 (pre0 ++ b) (lstrip_text rt) post1 Hr2); [cbn; lia|done|].
    by apply not_in_lstrip, not_in_rstrip.
  - destruct (bool_decide (r_prev r1 = [])) eqn:Ep; [done|]. cbn [negb andb].
    assert (mk = false) as Hmk.
    { unfold mk. destruct (Z.eqb_spec (r_line r1) 1) as [E|]; [|done]. cbn in E.
      rewrite bool_decide_eq_true_2 in Ep; [done|]. apply Hz. lia. }
    rewrite Hmk in Hpre0. rewrite length_app, Hbl.
    destruct (Z.ltb_spec 0 (Z.of_nat (length pre0 + length b))),
      (Nat.eqb_spec (length (lstrip_text rt)) (length b + length (lstrip_text rt))); done || lia.
Qed.

(** ** Lines *)

(** A line in the buffer: its text, terminated. *)
Lemma fgets_ok m s :
  zlen m = INI_MAX_LINE -> s <> [] ->
  let '(l, r) := take_line 199 s in
  exists post, fgets m INI_MAX_LINE s = Some (Some (buf [] (cstr l) post, r)) /\
    zlen (buf [] (cstr l) post) = INI_MAX_LINE.
Proof.
  intros Hm Hs. unfold fgets. change (Z.to_nat (INI_MAX_LINE - 1)) with 199%nat.
  pose proof (take_line_length 199 s) as Hl. destruct (take_line 199 s) as [l r]. cbn [fst] in Hl.
  destruct s as [|c s]; [done|]. unfold INI_MAX_LINE in Hm.
  destruct (cut_at m (length l + 1)%nat ltac:(lia)) as (m1 & m2 & -> & Hm1).
  pose proof (zwrite_mid [] m1 (l ++ [0]) m2) as Hw. cbn [app length] in Hw.
  change (Z.of_nat 0) with 0 in Hw. rewrite Hw by (rewrite length_app; cbn; lia). cbn [obind].
  assert (exists post, (l ++ [0]) ++ m2 = buf [] (cstr l) post) as [post E].
  { unfold buf. cbn [app]. clear. induction l as [|c l (post & IH)]; cbn [cstr app]; [by exists m2|].
    destruct (Z.eqb_spec c 0) as [->|]; [by eexists|]. exists post. cbn in IH |- *. by rewrite IH. }
  exists post. rewrite <- E. split; [done|].
  rewrite !length_app in *. unfold INI_MAX_LINE. cbn [length] in *. lia.
Qed.

Lemma parse_loop_ok k : forall stream st r,
  represents st r -> (length stream <= k)%nat -> r_line r + zlen stream < 2 ^ 31 ->
  exists st', parse_loop (S k) h stream st = Some st' /\
    represents st' (fold_left (next_line) (lines_of k stream) r).
Proof using.
  induction k as [|k IH]; intros stream st r Hr Hk Hn.
  - destruct stream; [|cbn in Hk; lia]. by exists st.
  - destruct stream as [|c stream]; [by exists st|]. set (s := c :: stream) in *.
    assert (Hs : s <> []) by done. pose proof Hr as (Hl & _).
    change (lines_of (S k) s) with (let '(l, r) := take_line 199 s in cstr l :: lines_of k r).
    pose proof (take_line_nonempty 199 s ltac:(lia) Hs) as Hne.
    pose proof (f_equal length (take_line_split 199 s)) as Hsp. rewrite length_app in Hsp.
    pose proof (fgets_ok (line st) s Hl Hs) as Hf.
    destruct (take_line 199 s) as [l rest]. cbn [fst snd] in *. destruct Hf as (post & Hf & Hlen).
    clearbody s. remember (S k) as k1 eqn:Hk1. cbn [parse_loop]. rewrite Hf. cbn [obind].
    destruct (parse_line_ok (with_line st (buf [] (cstr l) post)) r (cstr l) post) as (st1 & Hp & Hr1);
      [by apply represents_line|done|apply cstr_no_nul|lia|].
    rewrite Hp. cbn [obind fold_left]. apply IH; [done|lia|].
    unfold next_line, apply_entry, give. repeat case_match; cbn; lia.
Qed.

End Meaning.

Lemma field_empty size : 1 <= size -> field size (replicate (Z.to_nat size) 0) [].
Proof.
  intros Hs. split; [rewrite length_replicate; lia|]. split; [set_solver|].
  replace (Z.to_nat size) with (S (Z.to_nat size - 1)) by lia. by eexists.
Qed.

(** ** The result *)

Lemma ini_parse_lines {U} (junk file : list Z) (h : ini_handler U) (u : U) :
  zlen junk = INI_MAX_LINE -> zlen file < 2 ^ 31 ->
  ini_parse junk (Some file) h u = Some (r_user (read_file h u file), r_err (read_file h u file)).
Proof.
  intros Hj Hf. unfold ini_parse, ini_parse_file, ini_parse_stream.
  destruct (parse_loop_ok h (length file) file
              (Parser junk (replicate (Z.to_nat MAX_SECTION) 0) (replicate (Z.to_nat MAX_NAME) 0) 0 0 u)
              (Reading [] [] 0 0 u)) as (st' & Hrun & Hr).
  - split; [done|]. split; [by apply field_empty|]. split; [by apply field_empty|]. done.
  - done.
  - cbn. lia.
  - rewrite Hrun. cbn [obind]. destruct Hr as (_ & _ & _ & _ & -> & -> & _). done.
Qed.

(** C39: On every file shorter than 2 GB, whatever its bytes and whatever
    the handler does, [ini_parse] returns, never reads or writes outside its
    arrays of 200 and 50 bytes, and calls the handler for exactly the entries
    the lines of the file stand for, in order; it returns the number of the
    first line that is malformed or refused by the handler, or 0. *)
Theorem ini_parse_refines {U} (junk file : list Z) (h : ini_handler U) (u : U) :
  zlen junk = INI_MAX_LINE -> zlen file < 2 ^ 31 ->
  ini_parse junk (Some file) h u = Some (r_user (read_file h u file), r_err (read_file h u file)).
Proof. apply ini_parse_lines. Qed.

(** ** Writing and reading back *)

(** Sections with their names and values. *)
Abbreviation sec := (list Z * list (list Z * list Z))%type.
Abbreviation doc := (list sec).

Definition pair_text (p : list Z * list Z) : list Z := p.1 ++ 61 :: p.2.
Definition doc_lines (d : doc) : list (list Z) :=
  concat ((fun sp : sec => (91 :: sp.1 ++ [93]) :: (pair_text <$> sp.2)) <$> d).
Definition print_doc (d : doc) : list Z := concat ((fun l => l ++ [10]) <$> doc_lines d).

(** Every entry, with its section. *)
Definition entries (d : doc) : list (list Z * list Z * list Z) :=
  concat ((fun sp : sec => (fun p : list Z * list Z => (sp.1, p.1, p.2)) <$> sp.2) <$> d).

Definition line_ok (t : list Z) : bool :=
  bool_decide (0 ∉ t) && bool_decide (10 ∉ t) && (length t <=? 198)%nat.
Definition sec_ok (s : list Z) : bool :=
  line_ok (91 :: s ++ [93]) && bool_decide (before 93 false s = s) && (length s <=? 49)%nat.
Definition name_ok (n : list Z) : bool :=
  match n with
  | c :: _ => negb (isspace c) && negb (c =? 59) && negb (c =? 35) && negb (c =? 91)
  | [] => false
  end && bool_decide (rstrip_text n = n) && bool_decide (before 61 false n = n).
Definition val_ok (v : list Z) : bool :=
  bool_decide (lstrip_text v = v) && bool_decide (rstrip_text v = v) && bool_decide (before 0 false v = v).
Definition doc_ok (d : doc) : bool :=
  forallb (fun sp : sec => sec_ok sp.1 &&
    forallb (fun p : list Z * list Z => name_ok p.1 && val_ok p.2 && line_ok (pair_text p)) sp.2) d.

Lemma before_stop c w t r : before c w t = t -> before c w (t ++ c :: r) = t.
Proof.
  revert w. induction t as [|x t IH]; intros w; cbn [before app].
  - by rewrite Z.eqb_refl.
  - destruct (negb (x =? c) && _); [|done]. intros [= Ht]. by rewrite IH.
Qed.

Lemma cut_at_char_stop c t r : before c false t = t -> cut_at_char c (t ++ c :: r) = Some (t, r).
Proof.
  intros Ht. unfold cut_at_char, cut. rewrite before_stop by done.
  by rewrite drop_app_length, Z.eqb_refl.
Qed.

Lemma rstrip_text_app a b : b <> [] -> rstrip_text b = b -> rstrip_text (a ++ b) = a ++ b.
Proof.
  destruct b as [|x b _] using rev_ind; [done|]. intros _ Hb.
  destruct (isspace x) eqn:Hx; [|by rewrite app_assoc, rstrip_text_snoc].
  rewrite rstrip_text_snoc_space in Hb by done. pose proof (length_rstrip_text b) as H.
  rewrite Hb, length_app in H. cbn in H. lia.
Qed.

Lemma rstrip_newline t : rstrip_text (t ++ [10]) = rstrip_text t.
Proof. by apply rstrip_text_snoc_space. Qed.

Lemma take_line_newline n t r :
  10 ∉ t -> (length t < n)%nat -> take_line n (t ++ 10 :: r) = (t ++ [10], r).
Proof.
  revert t. induction n as [|n IH]; intros [|c t] H Hn; cbn [length] in Hn; try lia; [done|].
  apply not_elem_of_cons in H as [Hc Ht]. cbn [app take_line].
  replace (c =? 10) with false by lia. by rewrite IH by (done || lia).
Qed.

Lemma line_ok_spec t : line_ok t = true -> 0 ∉ t /\ 10 ∉ t /\ (length t <= 198)%nat.
Proof.
  unfold line_ok. intros [[H1%bool_decide_eq_true H2%bool_decide_eq_true]%andb_true_iff H3]%andb_true_iff.
  apply Nat.leb_le in H3. done.
Qed.

(** The lines of a printed text are the lines it was printed from. *)
Lemma lines_of_print ls n :
  Forall (fun t => line_ok t = true) ls ->
  let s := concat ((fun l => l ++ [10]) <$> ls) in
  (length s <= n)%nat -> lines_of n s = (fun l => l ++ [10]) <$> ls.
Proof.
  intros Hls. revert n. induction Hls as [|t ls Ht _ IH]; intros n; cbn [fmap list_fmap concat].
  - by destruct n.
  - apply line_ok_spec in Ht as (H0 & H10 & Hl). intros Hn. rewrite !length_app in Hn. cbn [length] in Hn.
    destruct n as [|n]; [lia|]. rewrite <- app_assoc. cbn [app].
    set (rest := concat _) in *.
    change (lines_of (S n) (t ++ 10 :: rest)) with
      (match t ++ 10 :: rest with [] => [] | _ :: _ =>
         let '(l, r) := take_line 199 (t ++ 10 :: rest) in cstr l :: lines_of n r end).
    rewrite take_line_newline by (done || lia).
    rewrite (cstr_id (t ++ [10])).
    2:{ apply Forall_app. split; [|by repeat constructor]. apply Forall_forall. by intros c Hc ->. }
    destruct (t ++ 10 :: rest) eqn:E; [by destruct t|]. f_equal. apply IH. lia.
Qed.

Lemma name_ok_spec n :
  name_ok n = true ->
  n <> [] /\ lstrip_text n = n /\ rstrip_text n = n /\ before 61 false n = n /\
  hd 0 n <> 59 /\ hd 0 n <> 35 /\ hd 0 n <> 91.
Proof.
  unfold name_ok. intros [[H H2%bool_decide_eq_true]%andb_true_iff H3%bool_decide_eq_true]%andb_true_iff.
  destruct n as [|c n]; [done|]. unfold lstrip_text. cbn [drop_while hd].
  destruct (isspace c); [done|]. repeat split; try done; intros ->; done.
Qed.

Lemma val_ok_spec v : val_ok v = true -> lstrip_text v = v /\ rstrip_text v = v /\ before 0 false v = v.
Proof. unfold val_ok. by intros [[H1%bool_decide_eq_true H2%bool_decide_eq_true]%andb_true_iff H3%bool_decide_eq_true]%andb_true_iff. Qed.

(** A line that starts with a printing character and carries no mark. *)
Lemma read_line_flush first prev c t :
  isspace c = false -> c <> 239 -> rstrip_text (c :: t) = c :: t ->
  read_line first prev ((c :: t) ++ [10]) = read_text false (c :: t).
Proof.
  intros Hc H239 Ht. unfold read_line.
  assert (Hm : marked ((c :: t) ++ [10]) = false).
  { unfold marked. cbn [app]. replace (c =? 239) with false by lia. by destruct (t ++ [10]) as [|? [|? ?]]. }
  rewrite Hm, andb_false_r, rstrip_newline, Ht. unfold lstrip_text. cbn [drop_while]. rewrite Hc.
  by rewrite Nat.eqb_refl, andb_false_r.
Qed.

Lemma read_line_sec first prev s :
  sec_ok s = true -> read_line first prev ((91 :: s ++ [93]) ++ [10]) = Head s.
Proof.
  unfold sec_ok. intros [[_ Hb%bool_decide_eq_true]%andb_true_iff Hl%Nat.leb_le]%andb_true_iff.
  rewrite read_line_flush; [|done|done|by apply (rstrip_text_app (91 :: s) [93])].
  cbn [read_text Z.eqb Pos.eqb orb]. rewrite cut_at_char_stop by done. by rewrite take_ge.
Qed.

Lemma read_line_pair prev p :
  name_ok p.1 = true -> val_ok p.2 = true ->
  read_line false prev (pair_text p ++ [10]) = Pair p.1 p.2.
Proof.
  destruct p as [n v]. cbn [fst snd]. intros (Hne & Hl & Hr & Hb & Hh)%name_ok_spec (Hvl & Hvr & Hvb)%val_ok_spec.
  assert (Hrs : rstrip_text (pair_text (n, v)) = pair_text (n, v)).
  { unfold pair_text. cbn [fst snd]. destruct v as [|x v].
    - by apply (rstrip_text_app n [61]).
    - rewrite (app_snoc n 61). by apply rstrip_text_app. }
  unfold read_line. cbn [andb]. rewrite rstrip_newline, Hrs.
  assert (Hls : lstrip_text (pair_text (n, v)) = pair_text (n, v)).
  { unfold pair_text, lstrip_text in *. cbn [fst snd].
    rewrite drop_while_app by (rewrite Hl; done). by rewrite Hl. }
  rewrite Hls, Nat.eqb_refl, andb_false_r.
  assert (Hp : read_pair (pair_text (n, v)) = Pair n v).
  { unfold read_pair, pair_text. cbn [fst snd]. rewrite cut_at_char_stop by done.
    unfold value_text. by rewrite Hr, Hvl, Hvb, Hvr. }
  rewrite <- Hp. unfold pair_text. cbn [fst snd]. destruct n as [|c n]; [done|]. cbn [hd] in Hh.
  cbn [app read_text]. replace (c =? 59) with false by lia. replace (c =? 35) with false by lia.
  by replace (c =? 91) with false by lia.
Qed.

Section Roundtrip.
Context {U : Type} (h : ini_handler U).

Definition feed (u : U) (e : list Z * list Z * list Z) : U := (h u e.1.1 e.1.2 e.2).1.

(** The entries of a section, read from a state inside it. *)
Lemma read_pairs (ps : list (list Z * list Z)) r :
  (forall u s n v, (h u s n v).2 <> 0) ->
  forallb (fun p : list Z * list Z => name_ok p.1 && val_ok p.2 && line_ok (pair_text p)) ps = true ->
  1 <= r_line r -> r_err r = 0 ->
  let r' := fold_left (next_line h) ((fun l => l ++ [10]) <$> (pair_text <$> ps)) r in
  1 <= r_line r' /\ r_err r' = 0 /\ r_sec r' = r_sec r /\
  r_user r' = fold_left feed ((fun p : list Z * list Z => (r_sec r, p.1, p.2)) <$> ps) (r_user r).
Proof using Type.
  intros Hh. revert r. induction ps as [|p ps IH]; intros r Hps Hn He; [done|].
  cbn [forallb] in Hps. apply andb_true_iff in Hps as [[[Hnm Hv]%andb_true_iff _]%andb_true_iff Hps].
  cbn [fmap list_fmap fold_left]. cbv zeta.
  assert (Hstep : next_line h r (pair_text p ++ [10]) =
    Reading (r_sec r) (take 49 p.1) (r_line r + 1) 0 (feed (r_user r) (r_sec r, p.1, p.2))).
  { unfold next_line. cbn [r_line r_prev]. replace (r_line r + 1 =? 1) with false by lia.
    rewrite read_line_pair by done. unfold apply_entry, give, feed. cbn [r_sec r_user fst snd].
    specialize (Hh (r_user r) (r_sec r) p.1 p.2). destruct (h _ _ _ _) as [u ok]. cbn [fst snd] in *.
    unfold answer. cbn. rewrite He. replace (ok =? 0) with false by lia. done. }
  rewrite Hstep. apply (IH (Reading _ _ _ _ _)); [done|cbn; lia|done].
Qed.

Lemma read_doc (d : doc) r :
  (forall u s n v, (h u s n v).2 <> 0) -> doc_ok d = true -> 0 <= r_line r -> r_err r = 0 ->
  let r' := fold_left (next_line h) ((fun l => l ++ [10]) <$> doc_lines d) r in
  r_err r' = 0 /\ r_user r' = fold_left feed (entries d) (r_user r).
Proof using Type.
  intros Hh. revert r. induction d as [|[s ps] d IH]; intros r Hd Hn He; [done|].
  cbn [doc_ok forallb fst snd] in Hd. apply andb_true_iff in Hd as [[Hs Hps]%andb_true_iff Hd].
  unfold doc_lines, entries. cbn [fmap list_fmap concat fst snd].
  fold (doc_lines d). fold (entries d). rewrite <- app_comm_cons. cbn [fmap list_fmap fold_left].
  rewrite fmap_app, !fold_left_app. cbv zeta.
  unfold next_line at 3 6. cbn [r_line r_prev]. rewrite read_line_sec by done. cbn [apply_entry].
  set (r1 := Reading _ _ _ _ _).
  destruct (read_pairs ps r1 Hh Hps) as (Hl & He1 & Hs1 & Hu1); [cbn; lia|done|].
  set (r2 := fold_left (next_line h) _ r1) in *.
  destruct (IH r2 Hd ltac:(lia) He1) as [HA HB]. split; [exact HA|].
  rewrite HB, Hu1. done.
Qed.

Lemma doc_lines_ok d : doc_ok d = true -> Forall (fun t => line_ok t = true) (doc_lines d).
Proof.
  intros Hd. unfold doc_lines. induction d as [|[s ps] d IH]; [constructor|].
  cbn [doc_ok forallb fst snd] in Hd. apply andb_true_iff in Hd as [[Hs Hps]%andb_true_iff Hd].
  cbn [fmap list_fmap concat fst snd]. constructor.
  - unfold sec_ok in Hs. by apply andb_true_iff in Hs as [[? _]%andb_true_iff _].
  - apply Forall_app. split; [|by apply IH]. apply Forall_fmap, Forall_forall. intros p Hp.
    apply list_elem_of_In in Hp. apply (proj1 (forallb_forall _ _) Hps) in Hp.
    by apply andb_true_iff in Hp as [_ ?].
Qed.

End Roundtrip.

(** C40: Writing sections with their names and values to a file, one line
    each, and parsing the file calls the handler exactly with these
    sections, names and values in their order, and reports success.

    Conditions ([doc_ok]): a section name has at most 49 bytes (a longer one
    is cut by the parser, [Demo.long_section_cut]) and no [']']; a name is
    not empty, does not start with ['['], a semicolon or a hash, and has no ['=']; names and
    values have no blanks at their ends; none of the three has a semicolon
    after a blank, which starts a comment; lines have at most 198 bytes, none
    of them zero or a newline.  The handler accepts every entry, and the file
    has less than 2 GB. *)
Theorem ini_parse_print {U} (junk : list Z) (h : ini_handler U) (d : doc) (u : U) :
  zlen junk = INI_MAX_LINE -> doc_ok d = true -> zlen (print_doc d) < 2 ^ 31 ->
  (forall u s n v, (h u s n v).2 <> 0) ->
  ini_parse junk (Some (print_doc d)) h u = Some (fold_left (feed h) (entries d) u, 0).
Proof.
  intros Hj Hd Hl Hh. rewrite ini_parse_lines by done. unfold read_file, print_doc.
  rewrite lines_of_print by (done || by apply doc_lines_ok).
  destruct (read_doc h d (Reading [] [] 0 0 u) Hh Hd) as [-> ->]; done.
Qed.

(** ** The shipped file *)

Module Demo.

Definition junk : list Z := replicate 200 170.

(** [src/dserver/dserver.ini] *)
Definition shipped : list Z :=
    bytes_of_string "; Test config file for ini_example.c and INIReaderTest.cpp" ++ [10] ++
    bytes_of_string "" ++ [10] ++
    bytes_of_string "[protocol]             ; Protocol configuration" ++ [10] ++
    bytes_of_string "version=6              ; IPv6" ++ [10] ++
    bytes_of_string "" ++ [10] ++
    bytes_of_string "[user]" ++ [10] ++
    bytes_of_string "name = Bob Smith       ; Spaces around '=' are stripped" ++ [10] ++
    bytes_of_string "email = bob@smith.com  ; And comments (like this) ignored" ++ [10] ++
    bytes_of_string "active = true          ; Test a boolean" ++ [10] ++
    bytes_of_string "pi = 3.14159           ; Test a floating point number" ++ [10].

Definition conf : configuration :=
  Configuration (Some 6) (Some (bytes_of_string "Bob Smith")) (Some (bytes_of_string "bob@smith.com")).

(** The three values the dispatcher knows are read; the two others of the
    file are refused, so that the parser reports line 9, which the caller
    does not look at. *)
Example shipped_read : ini_parse junk (Some shipped) handler (Configuration None None None) = Some (conf, 9).
Proof. vm_compute. reflexivity. Qed.

(** A file that does not set all three values makes [readFromIni] print
    members that were never stored. *)
Example incomplete_file_prints_junk :
  readFromIni junk (Some (bytes_of_string "[protocol]" ++ [10] ++ bytes_of_string "version=6" ++ [10])) = None.
Proof. vm_compute. reflexivity. Qed.

Lemma ini_parse_refines_witness :
  ini_parse junk (Some shipped) handler (Configuration None None None) =
  Some (r_user (read_file handler (Configuration None None None) shipped),
        r_err (read_file handler (Configuration None None None) shipped)).
Proof. apply (ini_parse_refines junk shipped handler); vm_compute; reflexivity. Defined.

(** A handler that keeps what it is given. *)
Definition keep (u : list (list Z * list Z * list Z)) (s n v : list Z) := (u ++ [(s, n, v)], 1).

Definition small : doc :=
  [(bytes_of_string "protocol", [(bytes_of_string "version", bytes_of_string "6")]);
   (bytes_of_string "user", [(bytes_of_string "name", bytes_of_string "Bob; Smith");
                             (bytes_of_string "a:b", [])])].

Lemma ini_parse_print_witness :
  ini_parse junk (Some (print_doc small)) keep [] = Some (fold_left (feed keep) (entries small) [], 0).
Proof.
  apply (ini_parse_print junk keep small); [reflexivity|vm_compute; reflexivity|vm_compute; reflexivity|].
  intros u s n v H. discriminate H.
Defined.

(** A section name of 60 bytes reaches the handler cut to 49. *)
Example long_section_cut :
  option_map (fun r => r.1) (ini_parse junk (Some (print_doc [(replicate 60 97, [([98], [99])])])) keep []) =
  option_map (fun r => r.1) (ini_parse junk (Some (print_doc [(replicate 49 97, [([98], [99])])])) keep []).
Proof. vm_compute. reflexivity. Qed.

End Demo.

End IniSpec.
