(* ===== verification/Query.v ===== *)
(** * networking.c: the request parser of a client

    Requests arrive as inline lines or as multi-bulk messages.  The parser
    is incremental: it keeps the unparsed bytes in [querybuf] and the state
    of a half-received message in the client, so that a request may be cut
    into reads at any place. *)

From S2P Require Import Prelude Reply Sds Util.

Module Query.
Import Output Sds Util.

Definition REDIS_IOBUF_LEN : Z := 1024 * 16.
Definition REDIS_INLINE_MAX_SIZE : Z := 1024 * 64.
Definition REDIS_MBULK_BIG_ARG : Z := 1024 * 32.
Definition REDIS_MAX_QUERYBUF_LEN : Z := 1024 * 1024 * 1024.
Definition REDIS_REQ_INLINE : Z := 1.
Definition REDIS_REQ_MULTIBULK : Z := 2.
Definition REDIS_SLAVE : Z := 1 ≪ 0.
Definition REDIS_MULTI : Z := 1 ≪ 3.
Definition REDIS_BLOCKED : Z := 1 ≪ 4.
Definition REDIS_ASKING : Z := 1 ≪ 9.

(** The fields of [redisClient] the input path uses; [io] holds the output
    side and the flags, [argc] is the length of [argv]. *)
Record qclient := QClient {
  io : outbuf;
  querybuf : list Z;
  querybuf_peak : Z;
  reqtype : Z;
  multibulklen : Z;
  bulklen : Z;
  argv : list (list Z);
  repl_ack_time : Z
}.

Definition set_io (c : qclient) x :=
  QClient x (querybuf c) (querybuf_peak c) (reqtype c) (multibulklen c) (bulklen c) (argv c) (repl_ack_time c).
Definition set_querybuf (c : qclient) x :=
  QClient (io c) x (querybuf_peak c) (reqtype c) (multibulklen c) (bulklen c) (argv c) (repl_ack_time c).
Definition set_peak (c : qclient) x :=
  QClient (io c) (querybuf c) x (reqtype c) (multibulklen c) (bulklen c) (argv c) (repl_ack_time c).
Definition set_reqtype (c : qclient) x :=
  QClient (io c) (querybuf c) (querybuf_peak c) x (multibulklen c) (bulklen c) (argv c) (repl_ack_time c).
Definition set_multibulklen (c : qclient) x :=
  QClient (io c) (querybuf c) (querybuf_peak c) (reqtype c) x (bulklen c) (argv c) (repl_ack_time c).
Definition set_bulklen (c : qclient) x :=
  QClient (io c) (querybuf c) (querybuf_peak c) (reqtype c) (multibulklen c) x (argv c) (repl_ack_time c).
Definition set_argv (c : qclient) x :=
  QClient (io c) (querybuf c) (querybuf_peak c) (reqtype c) (multibulklen c) (bulklen c) x (repl_ack_time c).
Definition set_ack (c : qclient) x :=
  QClient (io c) (querybuf c) (querybuf_peak c) (reqtype c) (multibulklen c) (bulklen c) (argv c) x.

Definition set_flags (o : outbuf) (f : Z) : outbuf :=
  OutBuf (fd o) f (replstate o) (buf o) (reply o) (sentlen o).

Section Parser.

Context (ae : Z -> bool).

(** [addReplyErrorFormat], given the formatted text: newlines become
    spaces. *)
Definition addReplyErrorFormat (o : outbuf) (s : list Z) : outbuf :=
  addReplyErrorLength ae o ((fun c => if (c =? 13) || (c =? 10) then 32 else c) <$> s).

Definition setProtocolError (c : qclient) (pos : Z) : qclient :=
  let c := set_io c (set_flags (io c) (flags (io c) |. REDIS_CLOSE_AFTER_REPLY)) in
  set_querybuf c (sdsrange (querybuf c) pos (-1)).

(** Reply with an error and drop the client after it. *)
Definition protocol_error (c : qclient) (msg : string) (pos : Z) : qclient :=
  setProtocolError (set_io c (addReplyError ae (io c) (bytes_of_string msg))) pos.

Definition resetClient (c : qclient) : qclient :=
  let c := set_bulklen (set_multibulklen (set_reqtype (set_argv c []) 0) 0) (-1) in
  if negb (has_flag (io c) REDIS_MULTI)
  then set_io c (set_flags (io c) (flags (io c) &. ~. REDIS_ASKING)) else c.

(** ** Inline requests *)

(** [true] for [REDIS_OK]; [unixtime] is [server.unixtime]. *)
Definition processInlineBuffer (unixtime : Z) (c : qclient) : bool * qclient :=
  match strchr 10 (querybuf c) with
  | None =>
      (false, if REDIS_INLINE_MAX_SIZE <? zlen (querybuf c)
              then protocol_error c "Protocol error: too big inline request" 0 else c)
  | Some newline =>
      let newline :=
        if negb (newline =? 0) && bool_decide (zget (querybuf c) (newline - 1) = Some 13)
        then newline - 1 else newline in
      let querylen := newline in
      let aux := take (Z.to_nat querylen) (querybuf c) in
      match sdssplitargs aux with
      | None => (false, protocol_error c "Protocol error: unbalanced quotes in request" 0)
      | Some args =>
          let c := if (querylen =? 0) && has_flag (io c) REDIS_SLAVE then set_ack c unixtime else c in
          let c := set_querybuf c (sdsrange (querybuf c) (querylen + 2) (-1)) in
          (true, set_argv c (filter (fun a => a <> []) args))
      end
  end.

(** ** Multi-bulk requests *)

(** How the loop over the bulks ends: at [break] or complete, with the
    position reached, or with an error return. *)
Inductive bulk_result := Bulks (c : qclient) (pos : Z) | BulkError (c : qclient).

(** Read the length of the next bulk if it is unknown. *)
Definition read_bulklen (c : qclient) (pos : Z) : bulk_result + qclient * Z :=
  if bulklen c =? -1 then
    match strchr 13 (drop (Z.to_nat pos) (querybuf c)) with
    | None =>
        inl (Bulks (if REDIS_INLINE_MAX_SIZE <? zlen (querybuf c)
                    then protocol_error c "Protocol error: too big bulk count string" 0 else c) pos)
    | Some i =>
        let newline := pos + i in
        if zlen (querybuf c) - 2 <? newline then inl (Bulks c pos) else
        match zget (querybuf c) pos with
        | Some ch =>
            if negb (ch =? 36) then
              inl (BulkError (setProtocolError
                (set_io c (addReplyErrorFormat (io c)
                   (bytes_of_string "Protocol error: expected '$', got '" ++ [ch] ++ [39]))) pos))
            else
              match string2ll (take (Z.to_nat (newline - (pos + 1))) (drop (Z.to_nat (pos + 1)) (querybuf c))) with
              | Some ll =>
                  if (ll <? 0) || (512 * 1024 * 1024 <? ll)
                  then inl (BulkError (protocol_error c "Protocol error: invalid bulk length" pos))
                  else
                    let pos := newline + 2 in
                    if REDIS_MBULK_BIG_ARG <=? ll
                    then inr (set_bulklen (set_querybuf c (sdsrange (querybuf c) pos (-1))) ll, 0)
                    else inr (set_bulklen c ll, pos)
              | None => inl (BulkError (protocol_error c "Protocol error: invalid bulk length" pos))
              end
        | None => inl (BulkError c)
        end
    end
  else inr (c, pos).

Fixpoint bulk_loop (n : nat) (c : qclient) (pos : Z) : bulk_result :=
  match n with
  | O => Bulks c pos
  | S n =>
      match read_bulklen c pos with
      | inl r => r
      | inr (c, pos) =>
          if zlen (querybuf c) - pos <? bulklen c + 2 then Bulks c pos
          else if (pos =? 0) && (REDIS_MBULK_BIG_ARG <=? bulklen c) &&
                  (zlen (querybuf c) =? bulklen c + 2)
          then
            let arg := take (Z.to_nat (zlen (querybuf c) - 2)) (querybuf c) in
            bulk_loop n (set_multibulklen (set_bulklen (set_querybuf (set_argv c (argv c ++ [arg])) [])
                                             (-1)) (multibulklen c - 1)) 0
          else
            let arg := take (Z.to_nat (bulklen c)) (drop (Z.to_nat pos) (querybuf c)) in
            bulk_loop n (set_multibulklen (set_bulklen (set_argv c (argv c ++ [arg])) (-1))
                           (multibulklen c - 1)) (pos + bulklen c + 2)
      end
  end.

(** The part of [processMultibulkBuffer] after the header; [None] is a
    failed assertion. *)
Definition process_bulks (c : qclient) (pos : Z) : option (bool * qclient) :=
  if multibulklen c <=? 0 then None else
  match bulk_loop (Z.to_nat (multibulklen c)) c pos with
  | BulkError c => Some (false, c)
  | Bulks c pos =>
      let c := if negb (pos =? 0) then set_querybuf c (sdsrange (querybuf c) pos (-1)) else c in
      Some (multibulklen c =? 0, c)
  end.

Definition processMultibulkBuffer (c : qclient) : option (bool * qclient) :=
  if multibulklen c =? 0 then
    if negb (bool_decide (argv c = [])) then None else
    match strchr 13 (querybuf c) with
    | None =>
        Some (false, if REDIS_INLINE_MAX_SIZE <? zlen (querybuf c)
                     then protocol_error c "Protocol error: too big mbulk count string" 0 else c)
    | Some newline =>
        if zlen (querybuf c) - 2 <? newline then Some (false, c) else
        if negb (bool_decide (zget (querybuf c) 0 = Some 42)) then None else
        match string2ll (take (Z.to_nat (newline - 1)) (drop 1 (querybuf c))) with
        | Some ll =>
            if 1024 * 1024 <? ll
            then Some (false, protocol_error c "Protocol error: invalid multibulk length" 0)
            else
              let pos := newline + 2 in
              if ll <=? 0 then Some (true, set_querybuf c (sdsrange (querybuf c) pos (-1)))
              else process_bulks (set_argv (set_multibulklen c ll) []) pos
        | None => Some (false, protocol_error c "Protocol error: invalid multibulk length" 0)
        end
    end
  else process_bulks c 0.

(** ** The input loop *)

(** Parse one request of the type recorded in the client. *)
Definition process_request (unixtime : Z) (c : qclient) : option (bool * qclient) :=
  let c := if reqtype c =? 0
           then set_reqtype c (if bool_decide (zget (querybuf c) 0 = Some 42)
                               then REDIS_REQ_MULTIBULK else REDIS_REQ_INLINE)
           else c in
  if reqtype c =? REDIS_REQ_INLINE then Some (processInlineBuffer unixtime c)
  else if reqtype c =? REDIS_REQ_MULTIBULK then processMultibulkBuffer c
  else None.

Section Loop.

(** [processCommand]: it acts on the server state and on the output side
    and flags of the client, and returns whether the client is reset. *)
Context {S : Type} (processCommand : S -> outbuf -> list (list Z) -> option (S * outbuf * bool)).

(** Every request takes at least a byte of the buffer, whose length bounds
    the rounds. *)
Fixpoint processInputBuffer (fuel : nat) (unixtime : Z) (s : S) (c : qclient) : option (S * qclient) :=
  if bool_decide (querybuf c = []) then Some (s, c) else
  if has_flag (io c) REDIS_BLOCKED then Some (s, c) else
  if has_flag (io c) REDIS_CLOSE_AFTER_REPLY then Some (s, c) else
  match fuel with
  | O => None
  | Datatypes.S fuel =>
      let? (ok, c) := process_request unixtime c in
      if negb ok then Some (s, c) else
      if bool_decide (argv c = []) then processInputBuffer fuel unixtime s (resetClient c)
      else
        let? (s, o, reset) := processCommand s (io c) (argv c) in
        let c := set_io c o in
        processInputBuffer fuel unixtime s (if (reset : bool) then resetClient c else c)
  end.

(** The number of bytes the next read asks for. *)
Definition readlen (c : qclient) : Z :=
  if (reqtype c =? REDIS_REQ_MULTIBULK) && negb (multibulklen c =? 0) && negb (bulklen c =? -1) &&
     (REDIS_MBULK_BIG_ARG <=? bulklen c)
  then Z.min REDIS_IOBUF_LEN (s32 (u32 (bulklen c + 2) - zlen (querybuf c)))
  else REDIS_IOBUF_LEN.

(** What [read] returned. *)
Inductive nread := Data (bs : list Z) | AtEof | TryAgain | Failed.

(** [None] in the second component means that the client was freed. *)
Definition readQueryFromClient (unixtime : Z) (s : S) (c : qclient) (r : nread)
  : option (S * option qclient) :=
  let c := if querybuf_peak c <? zlen (querybuf c) then set_peak c (zlen (querybuf c)) else c in
  match r with
  | TryAgain => Some (s, Some c)
  | AtEof | Failed => Some (s, None)
  | Data bs =>
      let c := set_querybuf c (querybuf c ++ bs) in
      if REDIS_MAX_QUERYBUF_LEN <? zlen (querybuf c) then Some (s, None)
      else
        let? (s, c) := processInputBuffer (length (querybuf c)) unixtime s c in
        Some (s, Some c)
  end.

End Loop.

End Parser.

(** The input side of a new client. *)
Definition fresh_query (o : outbuf) : qclient := QClient o [] 0 0 0 (-1) [] 0.

End Query.
