(* ===== verification/OutObj.v ===== *)
(** * networking.c, object.c: reply objects in memory

    The reply list of a client holds pointers to reference-counted string
    objects.  A shared object may be queued for many clients, so the last
    object of a list may be appended to only when the list owns it.  The size
    of what is queued is kept in [reply_bytes], and a client that exceeds the
    limits of its class is scheduled to be closed. *)

From S2P Require Import Prelude Reply Sds Util SdsBuf Query.

Module Objects.
Import Output SdsBuf.

Definition REDIS_CLOSE_ASAP : Z := 1 ≪ 10.
Definition ULONG_MAX : Z := 2 ^ 64 - 1.

(** [ptr] by encoding: a raw string, NULL for a length not known yet, or an
    integer. *)
Inductive rvalue := Raw (s : sdshdr) | Null | Int (n : Z).
Record robj := Robj { refcount : Z; ptr : rvalue }.

Record oclient := OClient {
  o_fd : Z;
  o_flags : Z;
  o_replstate : Z;
  o_subs : Z;
  o_buf : list Z;
  o_reply : list nat;
  o_sentlen : Z;
  reply_bytes : Z;
  obuf_soft_limit_reached_time : Z
}.

Definition o_set_flags (c : oclient) x := OClient (o_fd c) x (o_replstate c) (o_subs c) (o_buf c) (o_reply c)
  (o_sentlen c) (reply_bytes c) (obuf_soft_limit_reached_time c).
Definition o_set_buf (c : oclient) x := OClient (o_fd c) (o_flags c) (o_replstate c) (o_subs c) x (o_reply c)
  (o_sentlen c) (reply_bytes c) (obuf_soft_limit_reached_time c).
Definition o_set_reply (c : oclient) x := OClient (o_fd c) (o_flags c) (o_replstate c) (o_subs c) (o_buf c) x
  (o_sentlen c) (reply_bytes c) (obuf_soft_limit_reached_time c).
Definition o_set_sentlen (c : oclient) x := OClient (o_fd c) (o_flags c) (o_replstate c) (o_subs c) (o_buf c)
  (o_reply c) x (reply_bytes c) (obuf_soft_limit_reached_time c).
Definition o_set_bytes (c : oclient) x := OClient (o_fd c) (o_flags c) (o_replstate c) (o_subs c) (o_buf c)
  (o_reply c) (o_sentlen c) x (obuf_soft_limit_reached_time c).
Definition o_set_soft (c : oclient) x := OClient (o_fd c) (o_flags c) (o_replstate c) (o_subs c) (o_buf c)
  (o_reply c) (o_sentlen c) (reply_bytes c) x.

Definition o_has (c : oclient) (f : Z) : bool := negb (o_flags c &. f =? 0).

Record clientBufferLimitsConfig := Limit {
  hard_limit_bytes : Z;
  soft_limit_bytes : Z;
  soft_limit_seconds : Z
}.

(** The objects, the clients, and the queue of clients to close: its nodes
    with the clients they hold. *)
Record ostate := OState {
  heap : gmap nat robj;
  oclients : gmap nat oclient;
  clients_to_close : list (nat * nat);
  client_obuf_limits : list clientBufferLimitsConfig;
  o_unixtime : Z
}.

Definition set_heap (st : ostate) h := OState h (oclients st) (clients_to_close st) (client_obuf_limits st) (o_unixtime st).
Definition set_oclients (st : ostate) m := OState (heap st) m (clients_to_close st) (client_obuf_limits st) (o_unixtime st).
Definition set_queue (st : ostate) l := OState (heap st) (oclients st) l (client_obuf_limits st) (o_unixtime st).

Definition put (st : ostate) (p : nat) (c : oclient) : ostate := set_oclients st (<[p := c]> (oclients st)).

(** ** Objects *)

(** The [int] count is an unbounded number here: it counts holders of the
    object, each of which is a node in memory or a local variable. *)
Definition incrRefCount (h : gmap nat robj) (o : nat) : option (gmap nat robj) :=
  let? r := h !! o in Some (<[o := Robj (refcount r + 1) (ptr r)]> h).

Definition decrRefCount (h : gmap nat robj) (o : nat) : option (gmap nat robj) :=
  let? r := h !! o in
  if refcount r <=? 0 then None (* redisPanic *)
  else if refcount r =? 1 then Some (delete o h)
  else Some (<[o := Robj (refcount r - 1) (ptr r)]> h).

(** The allocator returns an address that is not in use. *)
Definition createObject (h : gmap nat robj) (v : rvalue) : gmap nat robj * nat :=
  let o := fresh (dom h) in (<[o := Robj 1 v]> h, o).

(** The string of an object; there is none behind NULL or an integer. *)
Definition raw (v : rvalue) : option sdshdr := match v with Raw s => Some s | _ => None end.

Section Objects.

(** What the allocator makes available for a request, the contents of fresh
    memory, and whether the event loop accepts a write handler. *)
Context (usable : Z -> Z) (junk : nat -> Z) (ae : Z -> bool).

Definition createStringObject (h : gmap nat robj) (s : list Z) : option (gmap nat robj * nat) :=
  let? t := sdsnewlen junk (Some s) (zlen s) in Some (createObject h (Raw t)).

Definition dupStringObject (h : gmap nat robj) (o : nat) : option (gmap nat robj * nat) :=
  let? r := h !! o in
  let? t := raw (ptr r) in
  let? t := sdsnewlen junk (Some (sbuf t)) (sdslen t) in
  Some (createObject h (Raw t)).

Definition zmalloc_size_sds (s : sdshdr) : Z := usable (sdsAllocSize s).

(** The list afterwards, and its last object. *)
Definition dupLastObjectIfNeeded (h : gmap nat robj) (reply : list nat)
  : option (gmap nat robj * list nat * nat) :=
  let? cur := last reply in
  let? r := h !! cur in
  if 1 <? refcount r then
    let? (h, new) := dupStringObject h cur in
    let? h := decrRefCount h cur in
    Some (h, removelast reply ++ [new], new)
  else Some (h, reply, cur).

(** ** Limits *)

(** [sizeof(listNode)+sizeof(robj)] *)
Definition list_item_size : Z := 24 + 16.

Definition getClientOutputBufferMemoryUsage (c : oclient) : Z :=
  u64 (reply_bytes c + list_item_size * zlen (o_reply c)).

(** The indices of the classes normal, slave and pubsub. *)
Definition getClientLimitClass (c : oclient) : nat :=
  if o_has c Query.REDIS_SLAVE then 1 else if negb (o_subs c =? 0) then 2 else 0.

Definition checkClientOutputBufferLimits (st : ostate) (c : oclient) : option (oclient * bool) :=
  let used_mem := getClientOutputBufferMemoryUsage c in
  let? limit := client_obuf_limits st !! getClientLimitClass c in
  let hard := negb (hard_limit_bytes limit =? 0) && (hard_limit_bytes limit <=? used_mem) in
  let soft := negb (soft_limit_bytes limit =? 0) && (soft_limit_bytes limit <=? used_mem) in
  let '(c, soft) :=
    if soft then
      if obuf_soft_limit_reached_time c =? 0 then (o_set_soft c (o_unixtime st), false)
      else
        let elapsed := o_unixtime st - obuf_soft_limit_reached_time c in
        (c, negb (elapsed <=? soft_limit_seconds limit))
    else (o_set_soft c 0, soft) in
  Some (c, soft || hard).

Definition freeClientAsync (st : ostate) (p : nat) : option ostate :=
  let? c := oclients st !! p in
  if o_has c REDIS_CLOSE_ASAP then Some st
  else
    let st := put st p (o_set_flags c (o_flags c |. REDIS_CLOSE_ASAP)) in
    let node := fresh (list_to_set (C := gset nat) (clients_to_close st).*1) in
    Some (set_queue st (clients_to_close st ++ [(node, p)])).

Definition asyncCloseClientOnOutputBufferLimitReached (st : ostate) (p : nat) : option ostate :=
  let? c := oclients st !! p in
  if negb (reply_bytes c <? ULONG_MAX - 1024 * 64) then None (* redisAssert *)
  else if (reply_bytes c =? 0) || o_has c REDIS_CLOSE_ASAP then Some st
  else
    let? (c, reached) := checkClientOutputBufferLimits st c in
    let st := put st p c in
    if reached then freeClientAsync st p else Some st.

(** ** Queueing on the list *)

(** A new node at the tail, with its object counted. *)
Definition push (st : ostate) (p : nat) (c : oclient) (o : nat) : option ostate :=
  let? r := heap st !! o in
  let? t := raw (ptr r) in
  Some (put st p (o_set_bytes (o_set_reply c (o_reply c ++ [o])) (u64 (reply_bytes c + zmalloc_size_sds t)))).

(** Append to the last object [tail], whose string is [t]; [text] reads what
    is appended. *)
Definition glue (st : ostate) (p : nat) (c : oclient) (t : sdshdr) (text : gmap nat robj -> option (list Z))
  : option ostate :=
  let c := o_set_bytes c (u64 (reply_bytes c - zmalloc_size_sds t)) in
  let? (h, reply, tail) := dupLastObjectIfNeeded (heap st) (o_reply c) in
  let? r := h !! tail in
  let? t := raw (ptr r) in
  let? s := text h in
  let? t := sdscatlen junk t s (zlen s) in
  let h := <[tail := Robj (refcount r) (Raw t)]> h in
  Some (put (set_heap st h) p (o_set_bytes (o_set_reply c reply) (u64 (reply_bytes c + zmalloc_size_sds t)))).

(** The string the new text can be appended to. *)
Definition room_in_tail (st : ostate) (c : oclient) (len : Z) : option sdshdr :=
  let? o := last (o_reply c) in
  let? r := heap st !! o in
  let? t := raw (ptr r) in
  if u64 (sdslen t + len) <=? REDIS_REPLY_CHUNK_BYTES then Some t else None.

Definition _addReplyStringToList (st : ostate) (p : nat) (s : list Z) : option ostate :=
  let? c := oclients st !! p in
  if o_has c REDIS_CLOSE_AFTER_REPLY then Some st
  else
    let? st := match room_in_tail st c (zlen s) with
              | Some t => glue st p c t (fun _ => Some s)
              | None =>
                  let? (h, o) := createStringObject (heap st) s in
                  push (set_heap st h) p c o
              end in
    asyncCloseClientOnOutputBufferLimitReached st p.

(** The string is freed or ends up in an object. *)
Definition _addReplySdsToList (st : ostate) (p : nat) (s : sdshdr) : option ostate :=
  let? c := oclients st !! p in
  if o_has c REDIS_CLOSE_AFTER_REPLY then Some st
  else
    let? st := match room_in_tail st c (sdslen s) with
              | Some t => glue st p c t (fun _ => zread (sbuf s) 0 (sdslen s))
              | None =>
                  let '(h, o) := createObject (heap st) (Raw s) in
                  push (set_heap st h) p c o
              end in
    asyncCloseClientOnOutputBufferLimitReached st p.

(** The bytes of a string object. *)
Definition object_text (o : nat) (h : gmap nat robj) : option (list Z) :=
  let? r := h !! o in
  let? t := raw (ptr r) in
  zread (sbuf t) 0 (sdslen t).

Definition _addReplyObjectToList (st : ostate) (p : nat) (o : nat) : option ostate :=
  let? c := oclients st !! p in
  if o_has c REDIS_CLOSE_AFTER_REPLY then Some st
  else
    let? r := heap st !! o in
    let? s := raw (ptr r) in
    let? st := match room_in_tail st c (sdslen s) with
              | Some t => glue st p c t (object_text o)
              | None =>
                  let? h := incrRefCount (heap st) o in
                  push (set_heap st h) p c o
              end in
    asyncCloseClientOnOutputBufferLimitReached st p.

(** ** Replies *)

(** The client as [Output] has it, with nothing in its objects. *)
Definition shell (c : oclient) : outbuf :=
  OutBuf (o_fd c) (o_flags c) (o_replstate c) (o_buf c) ((fun _ => []) <$> o_reply c) (o_sentlen c).

(** [_addReplyToBuffer]; [None] inside for [REDIS_ERR]. *)
Definition to_buffer (st : ostate) (p : nat) (c : oclient) (s : list Z) : option ostate :=
  let? x := _addReplyToBuffer (shell c) s in Some (put st p (o_set_buf c (buf x))).

Definition addReplyString (st : ostate) (p : nat) (s : list Z) : option ostate :=
  let? c := oclients st !! p in
  if negb (prepareClientToWrite ae (shell c)) then Some st
  else match to_buffer st p c s with
       | Some st => Some st
       | None => _addReplyStringToList st p s
       end.

Definition addReplySds (st : ostate) (p : nat) (s : sdshdr) : option ostate :=
  let? c := oclients st !! p in
  if negb (prepareClientToWrite ae (shell c)) then Some st
  else
    let? t := zread (sbuf s) 0 (sdslen s) in
    match to_buffer st p c t with
    | Some st => Some st
    | None => _addReplySdsToList st p s
    end.

(** A raw object; integers are not among the replies of this server. *)
Definition addReply (st : ostate) (p : nat) (o : nat) : option ostate :=
  let? c := oclients st !! p in
  if negb (prepareClientToWrite ae (shell c)) then Some st
  else
    let? t := object_text o (heap st) in
    match to_buffer st p c t with
    | Some st => Some st
    | None => _addReplyObjectToList st p o
    end.

(** ** Sending *)

(** [listDelNode] of the first node, which releases its object. *)
Definition del_first (st : ostate) (p : nat) (c : oclient) : option (ostate * oclient) :=
  let? o := head (o_reply c) in
  let? h := decrRefCount (heap st) o in
  let c := o_set_reply c (tail (o_reply c)) in
  Some (put (set_heap st h) p c, c).

(** Leading empty objects are unlinked; their size is not taken off. *)
Fixpoint del_empty (n : nat) (st : ostate) (p : nat) (c : oclient) : option (ostate * oclient) :=
  match n, o_reply c with
  | O, _ | _, [] => Some (st, c)
  | S n, o :: _ =>
      let? r := heap st !! o in
      let? t := raw (ptr r) in
      if s32 (sdslen t) =? 0 then
        let? (st, c) := del_first st p c in del_empty n st p c
      else Some (st, c)
  end.

(** The string being sent. *)
Definition current (st : ostate) (c : oclient) : option sdshdr :=
  let? o := head (o_reply c) in
  let? r := heap st !! o in
  raw (ptr r).

(** The loop of [sendReplyToClient], as in [Output.send_loop]. *)
Fixpoint osend_loop (under_maxmemory : bool) (ws : list write_res) (st : ostate) (p : nat) (tot : Z)
  : option (ostate * list Z * bool) :=
  let? c := oclients st !! p in
  let? (st, c) := if bool_decide (o_buf c = []) then del_empty (length (o_reply c)) st p c else Some (st, c) in
  if bool_decide (o_buf c = []) && bool_decide (o_reply c = []) then Some (st, [], false)
  else
    let? o := if bool_decide (o_buf c = []) then
                let? t := current st c in zread (sbuf t) 0 (sdslen t)
              else Some (o_buf c) in
    match ws with
    | [] | WriteAgain :: _ => Some (st, [], false)
    | WriteError :: _ => Some (st, [], true)
    | Wrote n :: ws =>
        let n := Z.min n (zlen o - o_sentlen c) in
        if n <=? 0 then Some (st, [], false)
        else
          let out := take (Z.to_nat n) (drop (Z.to_nat (o_sentlen c)) o) in
          let (sent, finished) := advance o (o_sentlen c) n in
          let? st :=
            if finished then
              if bool_decide (o_buf c = []) then
                let? t := current st c in
                let objmem := zmalloc_size_sds t in
                let? (st, c) := del_first st p c in
                Some (put st p (o_set_bytes (o_set_sentlen c sent) (u64 (reply_bytes c - objmem))))
              else Some (put st p (o_set_sentlen (o_set_buf c []) sent))
            else Some (put st p (o_set_sentlen c sent)) in
          let tot := tot + n in
          if (REDIS_MAX_WRITE_PER_EVENT <? tot) && under_maxmemory then Some (st, out, false)
          else
            let? (st, out2, err) := osend_loop under_maxmemory ws st p tot in
            Some (st, out ++ out2, err)
    end.

Definition sendReplyToClient (under_maxmemory : bool) (ws : list write_res) (st : ostate) (p : nat)
  : option (ostate * list Z * send_end) :=
  let? (st, out, err) := osend_loop under_maxmemory ws st p 0 in
  let? c := oclients st !! p in
  if err then Some (st, out, SendFree)
  else if bool_decide (o_buf c = []) && bool_decide (o_reply c = []) then
    Some (put st p (o_set_sentlen c 0), out,
          if o_has c REDIS_CLOSE_AFTER_REPLY then SendFree else SendDrained)
  else Some (st, out, SendMore).

(** ** Closing *)

Definition createClient (st : ostate) (p : nat) (fd : Z) : ostate :=
  put st p (OClient fd 0 REDIS_REPL_NONE 0 [] [] 0 0 0).

(** [listRelease] of a reply list. *)
Fixpoint release_all (h : gmap nat robj) (l : list nat) : option (gmap nat robj) :=
  match l with
  | [] => Some h
  | o :: l => let? h := decrRefCount h o in release_all h l
  end.

(** [listSearchKey] and [listDelNode] on the queue: the first node of [p]. *)
Fixpoint unqueue (p : nat) (l : list (nat * nat)) : option (list (nat * nat)) :=
  match l with
  | [] => None (* redisAssert *)
  | (n, q) :: l => if bool_decide (q = p) then Some l else let? l := unqueue p l in Some ((n, q) :: l)
  end.

(** Queue messages, as the notification of [freeClient] does. *)
Fixpoint notify (st : ostate) (msgs : list (nat * list Z)) : option ostate :=
  match msgs with
  | [] => Some st
  | (q, s) :: msgs => let? st := addReplyString st q s in notify st msgs
  end.

(** The parts of [freeClient] that concern this state; [msgs] are the
    messages [chatNotifyUserInfo] sends. *)
Definition freeClientObjects (st : ostate) (p : nat) (msgs : list (nat * list Z)) : option ostate :=
  let? st := notify st msgs in
  let? c := oclients st !! p in
  let? h := release_all (heap st) (o_reply c) in
  let st := set_heap st h in
  let? st := if o_has c REDIS_CLOSE_ASAP
            then let? q := unqueue p (clients_to_close st) in Some (set_queue st q) else Some st in
  Some (set_oclients st (delete p (oclients st))).

(** [listDelNode] of a node, which must still be in the list. *)
Fixpoint unlink (node : nat) (l : list (nat * nat)) : option (list (nat * nat)) :=
  match l with
  | [] => None
  | (n, q) :: l => if bool_decide (n = node) then Some l else let? l := unlink node l in Some ((n, q) :: l)
  end.

(** One client per unit of fuel; [msgs] gives what the release of a client
    sends. *)
Fixpoint freeClientsInAsyncFreeQueue (fuel : nat) (msgs : ostate -> nat -> list (nat * list Z)) (st : ostate)
  : option ostate :=
  match clients_to_close st with
  | [] => Some st
  | (ln, p) :: _ =>
      match fuel with
      | O => None
      | S fuel =>
          let? c := oclients st !! p in
          let st := put st p (o_set_flags c (o_flags c &. ~. REDIS_CLOSE_ASAP)) in
          let? st := freeClientObjects st p (msgs st p) in
          let? q := unlink ln (clients_to_close st) in
          freeClientsInAsyncFreeQueue fuel msgs (set_queue st q)
      end
  end.

End Objects.

End Objects.
