(* ===== verification/OutObjSpec.v ===== *)
(** * Reply objects in memory implement plain output buffers

    The model of [Reply] gives every client a list of byte strings of its
    own.  Here the objects of [OutObj] are shown to implement it: sharing is
    never visible, every reference is counted, nothing is freed too early or
    kept for ever, and [reply_bytes] is the memory that is queued. *)

From S2P Require Import Prelude Reply Sds Util SdsBuf SdsBufSpec Query OutObj.
Import Output SdsBuf SdsBufProofs Objects.

Module ObjectProofs.

#[local] Set Default Proof Using "Type*".

Section Objects.

(** Objects the server itself holds for ever, with their texts. *)
Context (shared : gmap nat (list Z)).

(** ** Counted references *)

Definition held (o : nat) : Z := if bool_decide (is_Some (shared !! o)) then 1 else 0.

(** The string of an object and its text. *)
Definition otext (h : gmap nat robj) (o : nat) : list Z :=
  match h !! o with
  | Some (Robj _ (Raw s)) => take (Z.to_nat (slen s)) (sbuf s)
  | _ => []
  end.

Definition string_ok (v : rvalue) : Prop := exists s l, v = Raw s /\ holds s l /\ l <> [].

Abbreviation occ o R := (Z.of_nat (count_occ Nat.eq_dec R o)).

(** [R] are the references of all reply lists. *)
Record heap_inv (h : gmap nat robj) (R : list nat) : Prop := {
  hi_count : forall o r, h !! o = Some r -> refcount r = held o + occ o R /\ 0 < refcount r;
  hi_string : forall o r, h !! o = Some r -> string_ok (ptr r);
  hi_live : forall o, o ∈ R -> is_Some (h !! o);
  hi_shared : forall o l, shared !! o = Some l -> is_Some (h !! o) /\ otext h o = l
}.

(** The objects of [R] have the strings they had. *)
Definition same (h h' : gmap nat robj) (R : list nat) : Prop :=
  forall o, o ∈ R -> ptr <$> h' !! o = ptr <$> h !! o.

Lemma same_sub h h' R R' : (forall o : nat, o ∈ R' -> o ∈ R) -> same h h' R -> same h h' R'.
Proof. intros Hs H o Ho. by apply H, Hs. Qed.

Lemma same_trans h h' h'' R : same h h' R -> same h' h'' R -> same h h'' R.
Proof. intros A B o Ho. by rewrite B, A. Qed.

Lemma otext_ptr h h' o : ptr <$> h' !! o = ptr <$> h !! o -> otext h' o = otext h o.
Proof.
  unfold otext. destruct (h !! o) as [[n v]|], (h' !! o) as [[n' v']|]; cbn; intros E; try done.
  by injection E as ->.
Qed.

Lemma same_text h h' R (l : list nat) : same h h' R -> (forall o, o ∈ l -> o ∈ R) -> otext h' <$> l = otext h <$> l.
Proof.
  intros Hs Hl. apply list_fmap_ext. intros i o Ho. apply otext_ptr, Hs, Hl. by eapply list_elem_of_lookup_2.
Qed.

#[global] Instance heap_inv_perm h : Proper (Permutation ==> iff) (heap_inv h).
Proof.
  assert (forall R R', R ≡ₚ R' -> heap_inv h R -> heap_inv h R') as H.
  { intros R R' Hp [A B C E]. constructor; [|done| |done].
    - intros o r Ho. rewrite <- (proj1 (Permutation_count_occ Nat.eq_dec R R') Hp o). by apply A.
    - intros o Ho. apply C. by rewrite Hp. }
  intros R R' Hp. split; by apply H.
Qed.

Lemma occ_cons o x R : occ o (x :: R) = (if decide (x = o) then 1 else 0) + occ o R.
Proof. cbn. destruct (Nat.eq_dec x o), (decide (x = o)); try done; lia. Qed.

Lemma held_bounds o : 0 <= held o <= 1.
Proof. unfold held. destruct (bool_decide _); lia. Qed.

Lemma occ_pos o R : o ∈ R <-> 0 < occ o R.
Proof. rewrite list_elem_of_In, (count_occ_In Nat.eq_dec). lia. Qed.

(** Another object in the heap. *)
Lemma create_inv h R v :
  heap_inv h R -> string_ok v ->
  let '(h', o) := createObject h v in
  heap_inv h' (o :: R) /\ h !! o = None /\ h' = <[o := Robj 1 v]> h.
Proof.
  intros [A B C E] Hv. unfold createObject. set (o := fresh (dom h)).
  assert (h !! o = None) as Hn by (apply not_elem_of_dom, is_fresh).
  assert (o ∉ R) as HR by (intros Hx; destruct (C o Hx) as [? Hs]; by rewrite Hn in Hs).
  assert (shared !! o = None) as Hsh.
  { destruct (shared !! o) as [l|] eqn:Es; [|done]. destruct (E o l Es) as [[? Hs] _]. by rewrite Hn in Hs. }
  split; [|done]. constructor.
  - intros o' r. rewrite lookup_insert_Some, occ_cons. intros [[<- <-]|[Hne Hr]].
    + cbn. rewrite decide_True by done. unfold held. rewrite Hsh. rewrite bool_decide_eq_false_2 by (by intros []).
      rewrite occ_pos in HR. lia.
    + rewrite decide_False by done. by apply A.
  - intros o' r. rewrite lookup_insert_Some. intros [[<- <-]|[_ Hr]]; [done|by eapply B].
  - intros o' [->|Ho]%elem_of_cons; [rewrite lookup_insert_eq; eauto|]. rewrite lookup_insert_is_Some'. auto.
  - intros o' l Hl. destruct (E o' l Hl) as [Hs Ht]. assert (o <> o') as Hne by congruence.
    rewrite lookup_insert_ne by done. split; [done|]. unfold otext. by rewrite lookup_insert_ne.
Qed.

Lemma create_same h v R : let '(h', o) := createObject h v in same h h' (filter (fun x => x <> o) R).
Proof.
  unfold createObject. intros x [Hx _]%list_elem_of_filter. by rewrite lookup_insert_ne.
Qed.

Lemma incr_inv h R o :
  heap_inv h R -> is_Some (h !! o) ->
  exists h', incrRefCount h o = Some h' /\ heap_inv h' (o :: R) /\ forall x, ptr <$> h' !! x = ptr <$> h !! x.
Proof.
  intros [A B C E] [r Hr]. unfold incrRefCount. rewrite Hr. cbn [obind]. eexists. split; [done|].
  assert (forall x, ptr <$> <[o := Robj (refcount r + 1) (ptr r)]> h !! x = ptr <$> h !! x) as Hs.
  { intros x. destruct (decide (o = x)) as [<-|]; [by rewrite lookup_insert_eq, Hr|by rewrite lookup_insert_ne]. }
  split; [|done]. constructor.
  - intros x r'. rewrite lookup_insert_Some, occ_cons. intros [[<- <-]|[Hne Hr']].
    + rewrite decide_True by done. destruct (A _ _ Hr). cbn. lia.
    + rewrite decide_False by done. by apply A.
  - intros x r'. rewrite lookup_insert_Some. intros [[<- <-]|[_ Hr']]; [exact (B _ _ Hr)|by eapply B].
  - intros x Hx. rewrite lookup_insert_is_Some'. apply elem_of_cons in Hx as [->|Hx]; auto.
  - intros x l Hl. destruct (E x l Hl) as [Hx Ht]. rewrite lookup_insert_is_Some'. split; [auto|].
    by rewrite (otext_ptr h).
Qed.

Lemma decr_inv h R o :
  heap_inv h (o :: R) ->
  exists h', decrRefCount h o = Some h' /\ heap_inv h' R /\ same h h' R.
Proof.
  intros [A B C E]. destruct (C o) as [r Hr]; [by left|]. unfold decrRefCount. rewrite Hr. cbn [obind].
  destruct (A o r Hr) as [Hc Hp]. rewrite occ_cons, decide_True in Hc by done.
  rewrite (proj2 (Z.leb_gt _ _)) by done. pose proof (held_bounds o).
  destruct (Z.eqb_spec (refcount r) 1) as [H1|H1].
  - eexists. split; [done|].
    assert (o ∉ R) as HR by (rewrite occ_pos; lia).
    assert (shared !! o = None) as Hsh.
    { destruct (shared !! o) eqn:Es; [|done]. unfold held in Hc. rewrite Es, bool_decide_eq_true_2 in Hc by eauto. lia. }
    split; [constructor|].
    + intros x r' [Hne Hr']%lookup_delete_Some. destruct (A x r' Hr') as [Hx ?]. split; [|done].
      by rewrite occ_cons, decide_False in Hx.
    + intros x r' [_ Hr']%lookup_delete_Some. by eapply B.
    + intros x Hx. rewrite lookup_delete_ne by (intros ->; done). apply C. by right.
    + intros x l Hl. assert (o <> x) as Hne by congruence. unfold otext. rewrite lookup_delete_ne by done. by apply E.
    + intros x Hx. rewrite lookup_delete_ne; [done|]. intros ->. done.
  - eexists. split; [done|].
    assert (forall x, ptr <$> <[o := Robj (refcount r - 1) (ptr r)]> h !! x = ptr <$> h !! x) as Hs.
    { intros x. destruct (decide (o = x)) as [<-|]; [by rewrite lookup_insert_eq, Hr|by rewrite lookup_insert_ne]. }
    split; [constructor|intros x _; apply Hs].
    + intros x r'. rewrite lookup_insert_Some. intros [[<- <-]|[Hne Hr']]; [cbn; lia|].
      destruct (A x r' Hr') as [Hx ?]. split; [|done]. by rewrite occ_cons, decide_False in Hx.
    + intros x r'. rewrite lookup_insert_Some. intros [[<- <-]|[_ Hr']]; [exact (B _ _ Hr)|by eapply B].
    + intros x Hx. rewrite lookup_insert_is_Some'. right. apply C. by right.
    + intros x l Hl. destruct (E x l Hl) as [Hx Ht]. rewrite lookup_insert_is_Some'. split; [auto|].
      by rewrite (otext_ptr h).
Qed.

(** An object with one reference can be changed without anybody else
    noticing. *)
Lemma modify_inv h R o r v :
  heap_inv h (o :: R) -> h !! o = Some r -> refcount r <= 1 -> string_ok v ->
  heap_inv (<[o := Robj (refcount r) v]> h) (o :: R) /\ o ∉ R /\ same h (<[o := Robj (refcount r) v]> h) R.
Proof.
  intros [A B C E] Hr H1 Hv. destruct (A o r Hr) as [Hc Hp]. rewrite occ_cons, decide_True in Hc by done.
  pose proof (held_bounds o). assert (o ∉ R) as HR by (rewrite occ_pos; lia).
  assert (shared !! o = None) as Hsh.
  { destruct (shared !! o) eqn:Es; [|done]. unfold held in Hc. rewrite Es, bool_decide_eq_true_2 in Hc by eauto. lia. }
  split; [constructor|split; [done|]].
  - intros x r'. rewrite lookup_insert_Some. intros [[<- <-]|[_ Hr']]; [cbn; by apply A|by apply A].
  - intros x r'. rewrite lookup_insert_Some. intros [[<- <-]|[_ Hr']]; [done|by eapply B].
  - intros x Hx. rewrite lookup_insert_is_Some'. auto.
  - intros x l Hl. assert (o <> x) as Hne by congruence. unfold otext. rewrite lookup_insert_ne by done. by apply E.
  - intros x Hx. rewrite lookup_insert_ne; [done|]. intros ->. done.
Qed.

Lemma release_inv l : forall h R,
  heap_inv h (l ++ R) -> exists h', release_all h l = Some h' /\ heap_inv h' R /\ same h h' R.
Proof.
  induction l as [|o l IH]; intros h R Hi; cbn [release_all]; [by exists h|].
  destruct (decr_inv h (l ++ R) o Hi) as (h1 & -> & Hi1 & Hs1). cbn [obind].
  destruct (IH h1 R Hi1) as (h2 & -> & Hi2 & Hs2). exists h2. split; [done|]. split; [done|].
  apply (same_trans h h1); [|done]. apply (same_sub _ _ (l ++ R)); [set_solver +|done].
Qed.

(** ** States *)

(** The memory an allocation takes is bounded; [usable n] is what the
    allocator reserves for [n] bytes. *)
Context (usable : Z -> Z) (junk : nat -> Z) (ae : Z -> bool).
Context (usable_bounds : forall n, 0 <= n <= 2 ^ 32 -> n <= usable n <= 2 ^ 40).

Implicit Types st : ostate.

Definition refs (m : gmap nat oclient) : list nat := flat_map (fun x => o_reply x.2) (map_to_list m).

Lemma refs_insert m p c : refs (<[p := c]> m) ≡ₚ o_reply c ++ refs (delete p m).
Proof.
  unfold refs. rewrite <- insert_delete_eq.
  rewrite (Permutation_flat_map _ (map_to_list_insert (delete p m) p c (lookup_delete_eq m p))). done.
Qed.

Lemma refs_split m p c : m !! p = Some c -> refs m ≡ₚ o_reply c ++ refs (delete p m).
Proof. intros Hc. rewrite <- (insert_id m p c Hc) at 1. apply refs_insert. Qed.

Lemma refs_elem m p c o : m !! p = Some c -> o ∈ o_reply c -> o ∈ refs m.
Proof. intros Hc Ho. rewrite (refs_split m p c Hc). set_solver +Ho. Qed.

(** The client as [Reply] has it; being scheduled for closing shows nowhere
    in the output. *)
Definition vclient (h : gmap nat robj) (c : oclient) : outbuf :=
  OutBuf (o_fd c) (o_flags c &. ~. REDIS_CLOSE_ASAP) (o_replstate c) (o_buf c) (otext h <$> o_reply c) (o_sentlen c).

Definition views st : gmap nat outbuf := vclient (heap st) <$> oclients st.

(** The memory of the objects in a list. *)
Definition osize (h : gmap nat robj) (o : nat) : Z :=
  match h !! o with Some (Robj _ (Raw s)) => zmalloc_size_sds usable s | _ => 0 end.
Definition total (h : gmap nat robj) (l : list nat) : Z := foldr (fun o n => osize h o + n) 0 l.

(** A client may be in the course of being closed: it is in the queue, but
    its flag has been cleared. *)
Context (closing : option nat).

Record oinv st : Prop := {
  oi_heap : heap_inv (heap st) (refs (oclients st));
  oi_bytes : forall p c, oclients st !! p = Some c -> reply_bytes c = u64 (total (heap st) (o_reply c));
  oi_nodes : NoDup (clients_to_close st).*1;
  oi_queue : NoDup (clients_to_close st).*2;
  oi_asap : forall p, p ∈ (clients_to_close st).*2 <->
    (exists c, oclients st !! p = Some c /\ o_has c REDIS_CLOSE_ASAP = true) \/ closing = Some p;
  oi_clear : forall p c, closing = Some p -> oclients st !! p = Some c -> o_has c REDIS_CLOSE_ASAP = false;
  oi_limits : length (client_obuf_limits st) = 3%nat
}.

Lemma total_app h a b : total h (a ++ b) = total h a + total h b.
Proof. unfold total. induction a as [|o a IH]; cbn; [done|]. rewrite IH. lia. Qed.

Lemma osize_ptr h h' o : ptr <$> h' !! o = ptr <$> h !! o -> osize h' o = osize h o.
Proof.
  unfold osize. destruct (h !! o) as [[n v]|], (h' !! o) as [[n' v']|]; cbn; intros E; try done.
  by injection E as ->.
Qed.

Lemma same_total h h' R (l : list nat) : same h h' R -> (forall o, o ∈ l -> o ∈ R) -> total h' l = total h l.
Proof.
  intros Hs. induction l as [|o l IH]; intros Hl; [done|].
  change (osize h' o + total h' l = osize h o + total h l). rewrite IH by (intros x Hx; apply Hl; by right). rewrite (osize_ptr h); [done|]. apply Hs, Hl. by left.
Qed.

Lemma holds_alloc s l : holds s l -> 0 < zmalloc_size_sds usable s <= 2 ^ 40.
Proof.
  intros (rest & -> & Hl). unfold zmalloc_size_sds, sdsAllocSize. cbn [slen sfree].
  rewrite (len_u64 (zlen l)), (len_u64 (zlen rest)), len_u64 by (unfold MAX_ALLOC in *; lia). unfold MAX_ALLOC in *.
  pose proof (usable_bounds (8 + zlen l + zlen rest + 1)). lia.
Qed.

Lemma osize_bounds h R o : heap_inv h R -> 0 <= osize h o <= 2 ^ 40.
Proof.
  intros Hi. unfold osize. destruct (h !! o) as [[n v]|] eqn:Ho; [|lia].
  destruct (hi_string _ _ Hi o _ Ho) as (s & l & Hv & Hs & _). cbn in Hv. subst v.
  pose proof (holds_alloc s l Hs). lia.
Qed.

Lemma total_bounds h R l : heap_inv h R -> 0 <= total h l <= 2 ^ 40 * zlen l.
Proof.
  intros Hi. induction l as [|o l IH]; cbn [total foldr length]; [lia|].
  pose proof (osize_bounds h R o Hi). fold (total h l). lia.
Qed.

(** ** Changing one client *)

Lemma views_lookup st p c : oclients st !! p = Some c -> views st !! p = Some (vclient (heap st) c).
Proof. intros Hc. unfold views. by rewrite lookup_fmap, Hc. Qed.

Lemma client_inv st p c h' c' :
  oinv st -> oclients st !! p = Some c ->
  heap_inv h' (o_reply c' ++ refs (delete p (oclients st))) ->
  same (heap st) h' (refs (delete p (oclients st))) ->
  reply_bytes c' = u64 (total h' (o_reply c')) ->
  o_has c' REDIS_CLOSE_ASAP = o_has c REDIS_CLOSE_ASAP ->
  oinv (put (set_heap st h') p c') /\ views (put (set_heap st h') p c') = <[p := vclient h' c']> (views st).
Proof.
  intros [A B C E F K G] Hc Hi Hs Hb Ha.
  assert (forall q d, q <> p -> oclients st !! q = Some d -> forall o, o ∈ o_reply d -> o ∈ refs (delete p (oclients st)))
    as Hother.
  { intros q d Hq Hd o Ho. apply (refs_elem _ q d); [by rewrite lookup_delete_ne|done]. }
  split; [constructor; cbn [heap oclients put set_heap set_oclients clients_to_close client_obuf_limits]|].
  - by rewrite refs_insert.
  - intros q d. rewrite lookup_insert_Some. intros [[<- <-]|[Hq Hd]]; [done|].
    rewrite (B q d Hd). f_equal. symmetry. apply (same_total _ _ _ _ Hs). by apply (Hother q).
  - done.
  - done.
  - intros q. rewrite F. split; (intros [(d & Hd & Hf)|]; [left|by right]).
    + destruct (decide (p = q)) as [<-|Hq].
      * exists c'. rewrite lookup_insert_eq. split; [done|]. rewrite Hc in Hd. injection Hd as <-. by rewrite Ha.
      * exists d. by rewrite lookup_insert_ne.
    + destruct (decide (p = q)) as [<-|Hq].
      * rewrite lookup_insert_eq in Hd. injection Hd as <-. exists c. by rewrite <- Ha.
      * rewrite lookup_insert_ne in Hd by done. by exists d.
  - intros q d Hq. rewrite lookup_insert_Some. intros [[<- <-]|[_ Hd]]; [|by eapply K].
    rewrite Ha. by apply (K p).
  - done.
  - unfold views. cbn [heap oclients put set_heap set_oclients]. rewrite fmap_insert.
    apply map_eq. intros q. destruct (decide (p = q)) as [<-|Hq]; [by rewrite !lookup_insert_eq|].
    rewrite !lookup_insert_ne, !lookup_fmap by done. destruct (oclients st !! q) as [d|] eqn:Hd; [|done]. cbn.
    unfold vclient. do 2 f_equal. apply (same_text _ _ _ _ Hs). by apply (Hother q).
Qed.

(** A change that leaves the objects alone. *)
Lemma client_inv_same st p c c' :
  oinv st -> oclients st !! p = Some c -> o_reply c' = o_reply c -> reply_bytes c' = reply_bytes c ->
  o_has c' REDIS_CLOSE_ASAP = o_has c REDIS_CLOSE_ASAP ->
  oinv (put st p c') /\ views (put st p c') = <[p := vclient (heap st) c']> (views st).
Proof.
  intros Hi Hc Hr Hb Ha.
  assert (put st p c' = put (set_heap st (heap st)) p c') as -> by by destruct st.
  apply (client_inv st p c); [done|done| |done| |done].
  - rewrite Hr, <- (refs_split _ p c Hc). apply Hi.
  - rewrite Hb, Hr. by apply (oi_bytes _ Hi p).
Qed.

(** ** Limits *)

Lemma mask_other f g : ~. REDIS_CLOSE_ASAP &. g = g -> (f &. ~. REDIS_CLOSE_ASAP) &. g = f &. g.
Proof. intros H. by rewrite <- Z.land_assoc, H. Qed.

Lemma mask_set f : (f |. REDIS_CLOSE_ASAP) &. ~. REDIS_CLOSE_ASAP = f &. ~. REDIS_CLOSE_ASAP.
Proof. rewrite Z.land_lor_distr_l. change (REDIS_CLOSE_ASAP &. ~. REDIS_CLOSE_ASAP) with 0. apply Z.lor_0_r. Qed.

Lemma has_set c : o_has (o_set_flags c (o_flags c |. REDIS_CLOSE_ASAP)) REDIS_CLOSE_ASAP = true.
Proof.
  unfold o_has. cbn [o_flags o_set_flags]. rewrite Z.land_lor_distr_l.
  apply negb_true_iff, Z.eqb_neq. intros [_ H]%Z.lor_eq_0_iff. discriminate H.
Qed.

Lemma vclient_has h c g : ~. REDIS_CLOSE_ASAP &. g = g -> has_flag (vclient h c) g = o_has c g.
Proof. intros H. unfold has_flag, o_has. cbn. by rewrite mask_other. Qed.

Lemma vclient_soft h c x : vclient h (o_set_soft c x) = vclient h c.
Proof. done. Qed.

(** Clients are only added to the queue. *)
Definition grows st st' : Prop := exists l, clients_to_close st' = clients_to_close st ++ l.

Lemma grows_refl st st' : clients_to_close st' = clients_to_close st -> grows st st'.
Proof. intros E. exists []. by rewrite app_nil_r. Qed.

Lemma check_ok st c :
  oinv st -> exists x b, checkClientOutputBufferLimits st c = Some (o_set_soft c x, b).
Proof.
  intros Hi. unfold checkClientOutputBufferLimits.
  assert (is_Some (client_obuf_limits st !! getClientLimitClass c)) as [limit ->].
  { apply lookup_lt_is_Some. rewrite (oi_limits _ Hi). unfold getClientLimitClass.
    destruct (o_has _ _); [lia|]. destruct (negb _); lia. }
  cbn [obind].
  set (soft := negb (soft_limit_bytes limit =? 0) && _). set (hard := negb (hard_limit_bytes limit =? 0) && _).
  assert (o_set_soft c (obuf_soft_limit_reached_time c) = c) as Eid by by destruct c.
  destruct soft; [destruct (obuf_soft_limit_reached_time c =? 0)|]; cbn [orb].
  - by do 2 eexists.
  - do 2 eexists. by rewrite Eid.
  - by do 2 eexists.
Qed.

Lemma freeAsync_ok st p c :
  oinv st -> oclients st !! p = Some c -> o_has c REDIS_CLOSE_ASAP = false -> closing <> Some p ->
  exists st', freeClientAsync st p = Some st' /\ oinv st' /\ views st' = views st /\ grows st st'.
Proof.
  intros [A B C E F K G] Hc Ha Hcl. unfold freeClientAsync. rewrite Hc. cbn [obind]. rewrite Ha.
  set (c' := o_set_flags c _). set (node := fresh _). eexists. split; [done|].
  assert (refs (<[p := c']> (oclients st)) ≡ₚ refs (oclients st)) as Hr
    by (rewrite refs_insert, (refs_split (oclients st) p c) by done; done).
  assert (p ∉ (clients_to_close st).*2) as Hp.
  { rewrite F. intros [(d & Hd & Hf)|]; [|done]. rewrite Hc in Hd. injection Hd as <-. congruence. }
  assert (node ∉ (clients_to_close st).*1) as Hn.
  { intros Hx. apply (is_fresh (list_to_set (C := gset nat) (clients_to_close st).*1)). by apply elem_of_list_to_set. }
  split; [constructor; cbn [heap oclients put set_queue set_oclients clients_to_close client_obuf_limits]|].
  - by rewrite Hr.
  - intros q d. rewrite lookup_insert_Some. intros [[<- <-]|[_ Hd]]; [exact (B p c Hc)|by apply (B q)].
  - rewrite fmap_app. apply NoDup_app. split; [done|]. split; [|apply NoDup_singleton].
    intros x Hx ->%list_elem_of_singleton. done.
  - rewrite fmap_app. apply NoDup_app. split; [done|]. split; [|apply NoDup_singleton].
    intros x Hx ->%list_elem_of_singleton. done.
  - intros q. rewrite fmap_app, elem_of_app, F. change ([(node, p)].*2) with [p]. rewrite list_elem_of_singleton. split.
    + intros [[(d & Hd & Hf)|]| ->]; [left|by right|left; exists c'; rewrite lookup_insert_eq; split; [done|apply has_set]].
      exists d. rewrite lookup_insert_ne; [done|]. intros <-. rewrite Hc in Hd. injection Hd as <-. congruence.
    + intros [(d & Hd & Hf)|]; [|by left; right]. destruct (decide (p = q)) as [<-|Hq]; [by right|left; left]. exists d.
      by rewrite lookup_insert_ne in Hd.
  - intros q d Hq. rewrite lookup_insert_ne by congruence. by apply K.
  - done.
  - split; [|by eexists]. unfold views. cbn [heap oclients put set_queue set_oclients]. rewrite fmap_insert. apply insert_id.
    rewrite lookup_fmap, Hc. cbn. unfold c', vclient. cbn. by rewrite mask_set.
Qed.

(** A list of this many objects takes less than 2^60 bytes. *)
Definition MAX_OBJECTS : Z := 2 ^ 20.

Lemma async_ok st p c :
  oinv st -> oclients st !! p = Some c -> zlen (o_reply c) <= MAX_OBJECTS -> closing <> Some p ->
  exists st', asyncCloseClientOnOutputBufferLimitReached st p = Some st' /\ oinv st' /\ views st' = views st /\ grows st st'.
Proof.
  intros Hi Hc Hl Hcl. unfold asyncCloseClientOnOutputBufferLimitReached. rewrite Hc. cbn [obind].
  pose proof (total_bounds (heap st) _ (o_reply c) (oi_heap _ Hi)) as Ht. unfold MAX_OBJECTS in Hl.
  rewrite (oi_bytes _ Hi p c Hc). unfold wrapu at 1. rewrite Z.mod_small by lia.
  rewrite (proj2 (Z.ltb_lt _ _)) by (unfold ULONG_MAX; lia). cbn [negb].
  pose proof (grows_refl st st eq_refl) as Hg.
  destruct (o_has c REDIS_CLOSE_ASAP) eqn:Ha; [rewrite orb_true_r; by exists st|]. rewrite orb_false_r.
  destruct (_ =? 0); [by exists st|].
  destruct (check_ok st c Hi) as (x & b & ->). cbn [obind].
  destruct (client_inv_same st p c (o_set_soft c x)) as [Hi' Hv]; [done..|].
  assert (views (put st p (o_set_soft c x)) = views st) as Hv'.
  { rewrite Hv. apply insert_id. rewrite vclient_soft. by apply views_lookup. }
  destruct b; [|by eexists].
  destruct (freeAsync_ok (put st p (o_set_soft c x)) p (o_set_soft c x)) as (st' & E & Hi2 & Hv2 & Hg2);
    [done|cbn; by rewrite lookup_insert_eq|done|done|].
  exists st'. rewrite E. split; [done|]. split; [done|]. by rewrite Hv2.
Qed.

(** ** Queueing *)

Lemma holds_text s l : holds s l -> take (Z.to_nat (slen s)) (sbuf s) = l.
Proof. intros (rest & -> & _). cbn. rewrite Nat2Z.id. apply take_app_length. Qed.

Lemma holds_read s l : holds s l -> zread (sbuf s) 0 (sdslen s) = Some l.
Proof. intros Hs. rewrite (holds_sdslen s l Hs). destruct Hs as (rest & -> & _). apply zread_all. Qed.

Lemma object_string h R o :
  heap_inv h R -> is_Some (h !! o) ->
  exists r s, h !! o = Some r /\ ptr r = Raw s /\ holds s (otext h o) /\ otext h o <> [] /\
    osize h o = zmalloc_size_sds usable s.
Proof.
  intros Hi [r Hr]. destruct (hi_string _ _ Hi o r Hr) as (s & l & Hv & Hs & Hl). exists r, s.
  unfold otext, osize. rewrite Hr. destruct r as [n v]. cbn in *. subst v. rewrite (holds_text s l Hs). done.
Qed.

(** A new node for an object whose reference has been taken. *)
Lemma push_ok st p c h' o :
  oinv st -> oclients st !! p = Some c ->
  heap_inv h' (o :: refs (oclients st)) -> same (heap st) h' (refs (oclients st)) ->
  exists c', push usable (set_heap st h') p c o = Some (put (set_heap st h') p c') /\
    o_reply c' = o_reply c ++ [o] /\ oinv (put (set_heap st h') p c') /\
    views (put (set_heap st h') p c') =
      <[p := set_reply (vclient (heap st) c) (reply (vclient (heap st) c) ++ [otext h' o])]> (views st).
Proof.
  intros Hi Hc Hh Hs. unfold push. cbn [heap set_heap].
  destruct (object_string h' _ o Hh (hi_live _ _ Hh o ltac:(left))) as (r & s & -> & Hp & Hst & _ & Hz).
  cbn [obind]. rewrite Hp. cbn [raw obind]. rewrite <- Hz. eexists. split; [done|]. split; [done|].
  assert (forall x, x ∈ o_reply c -> x ∈ refs (oclients st)) as Hin by (intros x; by apply (refs_elem _ p)).
  destruct (client_inv st p c h' (o_set_bytes (o_set_reply c (o_reply c ++ [o])) (u64 (reply_bytes c + osize h' o))))
    as [Hi' Hv]; [done|done| | | |done|].
  - cbn [o_reply o_set_bytes o_set_reply]. rewrite (refs_split _ p c Hc) in Hh.
    rewrite <- app_assoc. cbn [app]. by rewrite <- Permutation_middle.
  - apply (same_sub _ _ (refs (oclients st))); [|done]. intros x Hx. rewrite (refs_split _ p c Hc). set_solver +Hx.
  - cbn [reply_bytes o_reply o_set_bytes o_set_reply]. rewrite (oi_bytes _ Hi p c Hc), wrapu_add_l by lia.
    rewrite total_app, (same_total _ _ _ _ Hs Hin). cbn. by rewrite Z.add_0_r.
  - split; [done|]. rewrite Hv. f_equal. unfold vclient, set_reply. cbn. rewrite fmap_app.
    by rewrite (same_text _ _ _ _ Hs Hin).
Qed.

(** The last object after [dupLastObjectIfNeeded]: nobody else has it. *)
Lemma dup_ok h l o R :
  heap_inv h (o :: R) -> zlen (otext h o) <= MAX_LEN ->
  exists h' o' r t, dupLastObjectIfNeeded junk h (l ++ [o]) = Some (h', l ++ [o'], o') /\
    heap_inv h' (o' :: R) /\ same h h' R /\
    h' !! o' = Some r /\ refcount r <= 1 /\ ptr r = Raw t /\ holds t (otext h o).
Proof using junk shared usable usable_bounds.
  intros Hi Hl. unfold dupLastObjectIfNeeded. rewrite last_snoc. cbn [obind].
  destruct (object_string h _ o Hi (hi_live _ _ Hi o ltac:(left))) as (r & s & Hr & Hp & Hs & Hne & _).
  rewrite Hr. cbn [obind]. destruct (Z.ltb_spec 1 (refcount r)) as [H1|H1].
  2:{ exists h, o, r, s. split; [done|]. split; [done|]. split; [done|]. by split_and!. }
  unfold dupStringObject. rewrite Hr. cbn [obind]. rewrite Hp. cbn [raw obind].
  pose proof (holds_read s _ Hs) as Hrd. rewrite (holds_sdslen s _ Hs) in *.
  destruct (sdsnewlen_spec junk (sbuf s) (otext h o) Hrd Hl) as (t & -> & Ht & _). cbn [obind].
  pose proof (create_inv h _ (Raw t) Hi ltac:(by exists t, (otext h o))) as Hcr.
  destruct (createObject h (Raw t)) as [h1 new]. destruct Hcr as (Hi1 & Hn & ->).
  rewrite Permutation_swap in Hi1. destruct (decr_inv _ _ o Hi1) as (h2 & -> & Hi2 & Hs2). cbn [obind].
  rewrite removelast_last.
  destruct (hi_live _ _ Hi2 new ltac:(left)) as [r2 Hr2].
  assert (new ∉ R) as HnR by (intros Hx; destruct (hi_live _ _ Hi new) as [? Hx']; [by right|congruence]).
  exists h2, new, r2, t. split; [done|]. split; [done|]. split; [|split; [done|]].
  - intros x Hx. rewrite Hs2 by (by right). rewrite lookup_insert_ne; [done|]. intros ->. done.
  - pose proof (Hs2 new ltac:(left)) as E. rewrite Hr2, lookup_insert_eq in E. cbn in E. injection E as E.
    split; [|by rewrite E]. destruct (hi_count _ _ Hi2 new r2 Hr2) as [-> _].
    rewrite occ_cons, decide_True by done. rewrite occ_pos in HnR.
    assert (shared !! new = None) as Hsh.
    { destruct (shared !! new) eqn:Es; [|done]. destruct (hi_shared _ _ Hi new _ Es) as [[? Hx] _]. congruence. }
    unfold held. rewrite Hsh, bool_decide_eq_false_2 by (by intros []). lia.
Qed.

(** Appending to the last object. *)
Lemma glue_ok st p c l o t text s :
  oinv st -> oclients st !! p = Some c -> o_reply c = l ++ [o] ->
  (ptr <$> heap st !! o) = Some (Raw t) ->
  (forall h R, heap_inv h R -> text h = Some s) -> s <> [] ->
  zlen (otext (heap st) o) + zlen s <= REDIS_REPLY_CHUNK_BYTES ->
  exists h' c', glue usable junk st p c t text = Some (put (set_heap st h') p c') /\
    length (o_reply c') = length (o_reply c) /\ oinv (put (set_heap st h') p c') /\
    views (put (set_heap st h') p c') =
      <[p := set_reply (vclient (heap st) c) ((otext (heap st) <$> l) ++ [otext (heap st) o ++ s])]> (views st).
Proof.
  intros Hi Hc Hl Ht Htext Hs0 Hlen. unfold glue. cbn [o_reply o_set_bytes reply_bytes]. rewrite Hl.
  pose proof (oi_heap _ Hi) as Hh. set (R := l ++ refs (delete p (oclients st))).
  assert (refs (oclients st) ≡ₚ o :: R) as HR.
  { rewrite (refs_split _ p c Hc), Hl. unfold R. rewrite <- app_assoc. cbn [app]. symmetry. apply Permutation_middle. }
  rewrite HR in Hh. unfold REDIS_REPLY_CHUNK_BYTES in Hlen.
  destruct (dup_ok (heap st) l o R Hh ltac:(unfold MAX_LEN; lia)) as (h1 & o1 & r & t1 & -> & Hi1 & Hs1 & Hr1 & Hc1 & Hp1 & Ht1).
  cbn [obind]. rewrite Hr1. cbn [obind]. rewrite Hp1. cbn [raw obind]. rewrite (Htext _ _ Hi1). cbn [obind].
  destruct (catlen_spec junk t1 _ s s Ht1 ltac:(by rewrite <- (app_nil_r s) at 1; apply zread_all) ltac:(unfold MAX_LEN; lia))
    as (t2 & -> & Ht2). cbn [obind].
  assert (string_ok (Raw t2)) as Hok.
  { exists t2, (otext (heap st) o ++ s). split; [done|]. split; [done|]. by destruct (otext (heap st) o), s. }
  destruct (modify_inv h1 R o1 r (Raw t2) Hi1 Hr1 Hc1 Hok) as (Hi2 & Ho1 & Hs2).
  set (h2 := <[o1 := Robj (refcount r) (Raw t2)]> h1) in *.
  pose proof (same_trans _ _ _ _ Hs1 Hs2) as Hs12.
  assert (forall x, x ∈ l -> x ∈ R) as HlR by (intros x Hx; unfold R; set_solver +Hx).
  do 2 eexists. split; [done|]. split; [cbn; rewrite !length_app; done|].
  match goal with |- oinv (put _ _ ?c') /\ _ => set (c2 := c') end.
  destruct (client_inv st p c h2 c2) as [Hi' Hv]; [done|done| | | |done|split; [done|]].
  - unfold c2. cbn [o_reply o_set_bytes o_set_reply]. rewrite <- app_assoc. cbn [app].
    rewrite <- Permutation_middle. exact Hi2.
  - apply (same_sub _ _ R); [|done]. intros x Hx. unfold R. set_solver +Hx.
  - unfold c2. cbn [reply_bytes o_reply o_set_bytes o_set_reply]. rewrite (oi_bytes _ Hi p c Hc), Hl.
    rewrite !total_app, (same_total _ _ _ _ Hs12 HlR).
    assert (total (heap st) [o] = zmalloc_size_sds usable t) as ->.
    { cbn. unfold osize. destruct (heap st !! o) as [[n v]|]; [|done]. cbn in Ht. injection Ht as ->. lia. }
    assert (total h2 [o1] = zmalloc_size_sds usable t2) as ->
      by (cbn [total foldr]; unfold osize, h2; rewrite lookup_insert_eq; apply Z.add_0_r).
    unfold Z.sub. rewrite wrapu_add_l, <- Z.add_assoc, wrapu_add_l by lia. f_equal. lia.
  - rewrite Hv. f_equal. unfold vclient, set_reply, c2. cbn. rewrite fmap_app.
    rewrite (same_text _ _ _ _ Hs12 HlR). do 2 f_equal. cbn. f_equal. unfold otext at 1, h2.
    rewrite lookup_insert_eq. by rewrite (holds_text _ _ Ht2).
Qed.

Lemma room_spec st p c l o len :
  oinv st -> oclients st !! p = Some c -> o_reply c = l ++ [o] -> 0 <= len <= MAX_LEN ->
  exists t, (ptr <$> heap st !! o) = Some (Raw t) /\
    room_in_tail st c len =
      if zlen (otext (heap st) o) + len <=? REDIS_REPLY_CHUNK_BYTES then Some t else None.
Proof.
  intros Hi Hc Hl Hlen. unfold room_in_tail. rewrite Hl, last_snoc. cbn [obind].
  destruct (object_string (heap st) _ o (oi_heap _ Hi)) as (r & s & Hr & Hp & Hs & _).
  { apply (hi_live _ _ (oi_heap _ Hi)), (refs_elem _ p c _ Hc). rewrite Hl. set_solver +. }
  exists s. rewrite Hr. cbn [obind fmap option_fmap option_map]. rewrite Hp. cbn [raw obind]. split; [done|].
  rewrite (holds_sdslen s _ Hs). destruct Hs as (rest & _ & Hb).
  by rewrite len_u64 by (unfold MAX_LEN, MAX_ALLOC in *; lia).
Qed.

(** Either way of queueing a text on the list: [other] makes a new node. *)
Lemma queue_ok st p c s text other :
  oinv st -> oclients st !! p = Some c -> zlen (o_reply c) < MAX_OBJECTS -> closing <> Some p ->
  s <> [] -> zlen s <= MAX_LEN -> (forall h R, heap_inv h R -> text h = Some s) ->
  (exists h' o, other = push usable (set_heap st h') p c o /\ heap_inv h' (o :: refs (oclients st)) /\
     same (heap st) h' (refs (oclients st)) /\ otext h' o = s) ->
  exists st', (let? st := match room_in_tail st c (zlen s) with
                          | Some t => glue usable junk st p c t text
                          | None => other
                          end in
               asyncCloseClientOnOutputBufferLimitReached st p) = Some st' /\ oinv st' /\
    views st' = <[p := set_reply (vclient (heap st) c) (append_tail (reply (vclient (heap st) c)) s)]> (views st) /\
    grows st st'.
Proof.
  intros Hi Hc Hn Hcl Hs Hl Htext (h' & o & -> & Hh & Hsame & Ho).
  assert (forall st1 c1 v, oinv st1 -> oclients st1 !! p = Some c1 -> zlen (o_reply c1) <= MAX_OBJECTS -> views st1 = v ->
    clients_to_close st1 = clients_to_close st ->
    exists st', asyncCloseClientOnOutputBufferLimitReached st1 p = Some st' /\ oinv st' /\ views st' = v /\ grows st st') as Hfin.
  { intros st1 c1 v Hi1 Hc1 Hl1 Hv Hq. destruct (async_ok st1 p c1 Hi1 Hc1 Hl1 Hcl) as (st' & E & Hi' & Hv' & Hg).
    exists st'. split; [done|]. split; [done|]. unfold grows in *. rewrite Hq in Hg. split; [congruence|done]. }
  assert (exists st', (let? st0 := push usable (set_heap st h') p c o in
    asyncCloseClientOnOutputBufferLimitReached st0 p) = Some st' /\ oinv st' /\
    views st' = <[p := set_reply (vclient (heap st) c) ((otext (heap st) <$> o_reply c) ++ [s])]> (views st) /\ grows st st') as Hpush.
  { destruct (push_ok st p c h' o Hi Hc Hh Hsame) as (c' & -> & Hr & Hi' & Hv). cbn [obind].
    rewrite Ho in Hv. apply (Hfin _ c'); [done|cbn; by rewrite lookup_insert_eq| |done|done].
    rewrite Hr, length_app. cbn. lia. }
  unfold append_tail. cbn [reply vclient].
  destruct (o_reply c) as [|x l _] eqn:El using rev_ind.
  - unfold room_in_tail. rewrite El. exact Hpush.
  - rewrite fmap_app. cbn [fmap list_fmap]. rewrite last_snoc, removelast_last.
    destruct (room_spec st p c l x (zlen s) Hi Hc El ltac:(lia)) as (t & Ht & ->).
    destruct (Z.leb_spec (zlen (otext (heap st) x) + zlen s) REDIS_REPLY_CHUNK_BYTES) as [Hle|Hgt].
    + destruct (glue_ok st p c l x t text s Hi Hc El Ht Htext Hs Hle) as (h1 & c1 & -> & Hlen & Hi1 & Hv1).
      cbn [obind]. apply (Hfin _ c1); [done|cbn; by rewrite lookup_insert_eq| |done|done].
      rewrite El in Hlen. lia.
    + rewrite fmap_app in Hpush. exact Hpush.
Qed.

(** A new object of its own. *)
Lemma new_object_ok st t s :
  oinv st -> holds t s -> s <> [] ->
  let '(h, o) := createObject (heap st) (Raw t) in
  heap_inv h (o :: refs (oclients st)) /\ same (heap st) h (refs (oclients st)) /\ otext h o = s.
Proof.
  intros Hi Ht Hs. pose proof (create_inv (heap st) _ (Raw t) (oi_heap _ Hi) ltac:(by exists t, s)) as Hcr.
  destruct (createObject (heap st) (Raw t)) as [h1 o]. destruct Hcr as (Hi1 & Hno & ->). split; [done|]. split.
  - intros x Hx. rewrite lookup_insert_ne; [done|]. intros <-.
    destruct (hi_live _ _ (oi_heap _ Hi) o Hx) as [? Hx']. congruence.
  - unfold otext. rewrite lookup_insert_eq. by apply holds_text.
Qed.

(** What queueing does to the output of one client and of no other. *)
Definition queues st p (f : outbuf -> outbuf) (st' : option ostate) : Prop :=
  exists st1 v, st' = Some st1 /\ oinv st1 /\ views st !! p = Some v /\ views st1 = <[p := f v]> (views st) /\
    grows st st1.

Lemma not_closing h c : has_flag (vclient h c) REDIS_CLOSE_AFTER_REPLY = o_has c REDIS_CLOSE_AFTER_REPLY.
Proof. by apply vclient_has. Qed.

Lemma string_list_ok st p c s :
  oinv st -> oclients st !! p = Some c -> zlen (o_reply c) < MAX_OBJECTS -> closing <> Some p -> s <> [] -> zlen s <= MAX_LEN ->
  queues st p (fun v => Output._addReplyStringToList v s) (_addReplyStringToList usable junk st p s).
Proof.
  intros Hi Hc Hn Hcl Hs Hl. unfold queues, _addReplyStringToList, Output._addReplyStringToList. rewrite Hc. cbn [obind].
  rewrite (views_lookup st p c Hc).
  destruct (o_has c REDIS_CLOSE_AFTER_REPLY) eqn:Ef.
  { exists st, (vclient (heap st) c). split; [done|]. split; [done|]. split; [done|]. rewrite not_closing, Ef.
    split; [|by apply grows_refl]. symmetry. by apply insert_id, views_lookup. }
  destruct (queue_ok st p c s (fun _ => Some s)
    (let? (h, o) := createStringObject junk (heap st) s in push usable (set_heap st h) p c o)) as (st' & E & Hi' & Hv & Hg);
    [done..| |].
  - unfold createStringObject.
    destruct (sdsnewlen_spec junk s s ltac:(by rewrite <- (app_nil_r s) at 1; apply zread_all) Hl) as (t & -> & Ht & _).
    cbn [obind]. pose proof (new_object_ok st t s Hi Ht Hs) as Hcr.
    destruct (createObject (heap st) (Raw t)) as [h1 o]. do 2 eexists. split; [done|exact Hcr].
  - exists st', (vclient (heap st) c). split; [exact E|]. split; [done|]. split; [done|]. by rewrite not_closing, Ef.
Qed.

Lemma sds_list_ok st p c t s :
  oinv st -> oclients st !! p = Some c -> zlen (o_reply c) < MAX_OBJECTS -> closing <> Some p -> s <> [] -> zlen s <= MAX_LEN ->
  holds t s ->
  queues st p (fun v => Output._addReplySdsToList v s) (_addReplySdsToList usable junk st p t).
Proof.
  intros Hi Hc Hn Hcl Hs Hl Ht. unfold queues, _addReplySdsToList, Output._addReplySdsToList, Output._addReplyStringToList.
  rewrite Hc. cbn [obind]. rewrite (views_lookup st p c Hc).
  destruct (o_has c REDIS_CLOSE_AFTER_REPLY) eqn:Ef.
  { exists st, (vclient (heap st) c). split; [done|]. split; [done|]. split; [done|]. rewrite not_closing, Ef.
    split; [|by apply grows_refl]. symmetry. by apply insert_id, views_lookup. }
  destruct (queue_ok st p c s (fun _ => zread (sbuf t) 0 (sdslen t))
    (let '(h, o) := createObject (heap st) (Raw t) in push usable (set_heap st h) p c o)) as (st' & E & Hi' & Hv & Hg);
    [done..|intros _ _ _; by apply holds_read| |].
  - pose proof (new_object_ok st t s Hi Ht Hs) as Hcr.
    destruct (createObject (heap st) (Raw t)) as [h1 o]. do 2 eexists. split; [done|exact Hcr].
  - exists st', (vclient (heap st) c). rewrite <- (holds_sdslen t s Ht) in E.
    split; [exact E|]. split; [done|]. split; [done|]. by rewrite not_closing, Ef.
Qed.

Lemma shared_text o s h R : shared !! o = Some s -> heap_inv h R -> object_text o h = Some s.
Proof using shared usable usable_bounds.
  intros Ho Hi. destruct (hi_shared _ _ Hi o s Ho) as [Hl Ht].
  destruct (object_string h R o Hi Hl) as (r & t & Hr & Hp & Hs & _). unfold object_text.
  rewrite Hr. cbn [obind]. rewrite Hp. cbn [raw obind]. rewrite Ht in Hs. by apply holds_read.
Qed.

Lemma object_list_ok st p c o s :
  oinv st -> oclients st !! p = Some c -> zlen (o_reply c) < MAX_OBJECTS -> closing <> Some p -> s <> [] -> zlen s <= MAX_LEN ->
  shared !! o = Some s ->
  queues st p (fun v => Output._addReplyObjectToList v s) (_addReplyObjectToList usable junk st p o).
Proof.
  intros Hi Hc Hn Hcl Hs Hl Ho.
  unfold queues, _addReplyObjectToList, Output._addReplyObjectToList, Output._addReplyStringToList.
  rewrite Hc. cbn [obind]. rewrite (views_lookup st p c Hc).
  destruct (o_has c REDIS_CLOSE_AFTER_REPLY) eqn:Ef.
  { exists st, (vclient (heap st) c). split; [done|]. split; [done|]. split; [done|]. rewrite not_closing, Ef.
    split; [|by apply grows_refl]. symmetry. by apply insert_id, views_lookup. }
  destruct (hi_shared _ _ (oi_heap _ Hi) o s Ho) as [Hlive Htx].
  destruct (object_string (heap st) _ o (oi_heap _ Hi) Hlive) as (r & t & Hr & Hp & Ht & _). rewrite Htx in Ht.
  rewrite Hr. cbn [obind]. rewrite Hp. cbn [raw obind]. rewrite (holds_sdslen t s Ht).
  destruct (queue_ok st p c s (object_text o)
    (let? h := incrRefCount (heap st) o in push usable (set_heap st h) p c o)) as (st' & E & Hi' & Hv & Hg);
    [done..|intros h R; by apply shared_text| |].
  - destruct (incr_inv (heap st) _ o (oi_heap _ Hi) Hlive) as (h1 & -> & Hi1 & Hsame). cbn [obind].
    exists h1, o. split; [done|]. split; [done|]. split; [by intros x _|]. by rewrite (otext_ptr (heap st)).
  - exists st', (vclient (heap st) c). split; [exact E|]. split; [done|]. split; [done|]. by rewrite not_closing, Ef.
Qed.

(** ** Replies *)

Lemma prepare_same h c : prepareClientToWrite ae (shell c) = prepareClientToWrite ae (vclient h c).
Proof.
  unfold prepareClientToWrite, has_flag. cbn [flags fd buf reply replstate shell vclient].
  rewrite !mask_other by done. by destruct (o_reply c).
Qed.

Lemma to_buffer_ok st p c s :
  oinv st -> oclients st !! p = Some c ->
  match to_buffer st p c s with
  | Some st1 => oinv st1 /\ clients_to_close st1 = clients_to_close st /\ exists v, Output._addReplyToBuffer (vclient (heap st) c) s = Some v /\
                  views st1 = <[p := v]> (views st)
  | None => Output._addReplyToBuffer (vclient (heap st) c) s = None
  end.
Proof.
  intros Hi Hc. unfold to_buffer, _addReplyToBuffer, has_flag. cbn [flags buf reply shell vclient]. rewrite mask_other by done.
  assert (oinv st /\ clients_to_close st = clients_to_close st /\ exists v, Some (vclient (heap st) c) = Some v /\
    views st = <[p := v]> (views st)) as Hsame.
  { split; [done|]. split; [done|]. eexists. split; [done|]. symmetry. by apply insert_id, views_lookup. }
  assert (put st p (o_set_buf c (o_buf c)) = st) as Eid.
  { unfold put. rewrite insert_id; [by destruct st|]. by destruct c. }
  destruct (negb (o_flags c &. REDIS_CLOSE_AFTER_REPLY =? 0)); [cbn [obind buf shell]; by rewrite Eid|].
  destruct (o_reply c) as [|o l] eqn:El.
  2:{ rewrite !bool_decide_eq_true_2 by done. done. }
  rewrite !bool_decide_eq_false_2 by (intros H; by apply H). destruct (_ <? _); [done|]. cbn [obind buf set_buf].
  destruct (client_inv_same st p c (o_set_buf c (o_buf c ++ s))) as [Hi' Hv]; [done..|]. split; [done|].
  split; [done|]. eexists. split; [done|]. rewrite Hv. unfold vclient, set_buf. cbn. by rewrite El.
Qed.

(** The three ways to queue a reply have this shape. *)
Lemma reply_objects_ok st p c s (list_op : option ostate) :
  oinv st -> oclients st !! p = Some c ->
  queues st p (fun v => Output._addReplyStringToList v s) list_op ->
  queues st p (fun v => Output.addReplyString ae v s)
    (if negb (prepareClientToWrite ae (shell c)) then Some st
     else match to_buffer st p c s with Some st => Some st | None => list_op end).
Proof.
  intros Hi Hc (st2 & v2 & -> & Hi2 & Hl2 & Hv2 & Hg2). rewrite (views_lookup st p c Hc) in Hl2. injection Hl2 as <-.
  unfold queues. rewrite (views_lookup st p c Hc). rewrite (prepare_same (heap st)). unfold Output.addReplyString.
  destruct (prepareClientToWrite ae (vclient (heap st) c)) eqn:Ep; cbn [negb].
  - pose proof (to_buffer_ok st p c s Hi Hc) as Hb. destruct (to_buffer st p c s) as [st1|].
    + destruct Hb as (Hi1 & Hq & v & Eb & Hv1). do 2 eexists. split; [done|]. split; [done|]. split; [done|].
      rewrite Ep, Eb. split; [done|by apply grows_refl].
    + do 2 eexists. split; [done|]. split; [done|]. split; [done|]. by rewrite Ep, Hb.
  - do 2 eexists. split; [done|]. split; [done|]. split; [done|]. rewrite Ep. cbn [negb].
    split; [|by apply grows_refl]. symmetry. by apply insert_id, views_lookup.
Qed.

Lemma addReplyString_objects_ok st p c s :
  oinv st -> oclients st !! p = Some c -> zlen (o_reply c) < MAX_OBJECTS -> closing <> Some p -> s <> [] -> zlen s <= MAX_LEN ->
  queues st p (fun v => Output.addReplyString ae v s) (addReplyString usable junk ae st p s).
Proof.
  intros Hi Hc Hn Hcl Hs Hl. unfold addReplyString. rewrite Hc. cbn [obind].
  apply reply_objects_ok; [done|done|]. by apply (string_list_ok st p c).
Qed.

Lemma addReplySds_objects_ok st p c t s :
  oinv st -> oclients st !! p = Some c -> zlen (o_reply c) < MAX_OBJECTS -> closing <> Some p -> s <> [] -> zlen s <= MAX_LEN ->
  holds t s ->
  queues st p (fun v => Output.addReplySds ae v s) (addReplySds usable junk ae st p t).
Proof.
  intros Hi Hc Hn Hcl Hs Hl Ht. unfold addReplySds. rewrite Hc. cbn [obind]. rewrite (holds_read t s Ht). cbn [obind].
  apply reply_objects_ok; [done|done|]. by apply (sds_list_ok st p c).
Qed.

Lemma addReply_objects_ok st p c o s :
  oinv st -> oclients st !! p = Some c -> zlen (o_reply c) < MAX_OBJECTS -> closing <> Some p -> s <> [] -> zlen s <= MAX_LEN ->
  shared !! o = Some s ->
  queues st p (fun v => Output.addReplyString ae v s) (addReply usable junk ae st p o).
Proof.
  intros Hi Hc Hn Hcl Hs Hl Ho. unfold addReply. rewrite Hc. cbn [obind].
  rewrite (shared_text o s (heap st) _ Ho (oi_heap _ Hi)). cbn [obind].
  apply reply_objects_ok; [done|done|]. by apply (object_list_ok st p c).
Qed.

(** ** Sending *)

(** The object being sent. *)
Lemma head_object st p c o l :
  oinv st -> oclients st !! p = Some c -> o_reply c = o :: l ->
  exists r t, heap st !! o = Some r /\ ptr r = Raw t /\ holds t (otext (heap st) o) /\ otext (heap st) o <> [] /\
    osize (heap st) o = zmalloc_size_sds usable t.
Proof.
  intros Hi Hc El. apply (object_string (heap st) _ o (oi_heap _ Hi)).
  apply (hi_live _ _ (oi_heap _ Hi)), (refs_elem _ p c _ Hc). rewrite El. left.
Qed.

(** No object is empty, so there is nothing to skip. *)
Lemma del_empty_ok st p c :
  oinv st -> oclients st !! p = Some c ->
  del_empty (length (o_reply c)) st p c = Some (st, c) /\
  drop_empty (otext (heap st) <$> o_reply c) = otext (heap st) <$> o_reply c.
Proof.
  intros Hi Hc. destruct (o_reply c) as [|o l] eqn:El; [done|]. cbn [length del_empty]. rewrite El.
  destruct (head_object st p c o l Hi Hc El) as (r & t & Hr & Hp & Ht & Hne & _).
  rewrite Hr. cbn [obind]. rewrite Hp. cbn [raw obind].
  rewrite (holds_sdslen t _ Ht). destruct Ht as (rest & _ & Hb). rewrite len_s32 by lia.
  cbn [fmap list_fmap]. destruct (otext (heap st) o) as [|x s]; [done|]. by rewrite (proj2 (Z.eqb_neq _ _)) by (cbn; lia).
Qed.

(** The first object has been sent. *)
Lemma sent_object_ok st p c o l t :
  oinv st -> oclients st !! p = Some c -> o_reply c = o :: l -> (ptr <$> heap st !! o) = Some (Raw t) ->
  exists st', (let? (st, c) := del_first st p c in
     Some (put st p (o_set_bytes (o_set_sentlen c 0) (u64 (reply_bytes c - zmalloc_size_sds usable t))))) = Some st' /\
    oinv st' /\ views st' = <[p := set_sentlen (set_reply (vclient (heap st) c) (otext (heap st) <$> l)) 0]> (views st).
Proof.
  intros Hi Hc El Ht. unfold del_first. rewrite El. cbn [head obind].
  set (R := l ++ refs (delete p (oclients st))).
  assert (heap_inv (heap st) (o :: R)) as Hh.
  { pose proof (oi_heap _ Hi) as Hh. rewrite (refs_split _ p c Hc), El in Hh. exact Hh. }
  destruct (decr_inv (heap st) R o Hh) as (h' & -> & Hi' & Hs). cbn [obind tail].
  assert (forall x, x ∈ l -> x ∈ R) as HlR by (intros x Hx; unfold R; set_solver +Hx).
  eexists. split; [done|]. set (c2 := o_set_bytes _ _).
  assert (put (put (set_heap st h') p (o_set_reply c l)) p c2 = put (set_heap st h') p c2) as ->
    by (unfold put, set_oclients; cbn; by rewrite insert_insert_eq).
  destruct (client_inv st p c h' c2) as [Hi2 Hv]; [done|done|exact Hi'| | |done|].
  - apply (same_sub _ _ R); [|done]. intros x Hx. unfold R. set_solver +Hx.
  - unfold c2. cbn [reply_bytes o_reply o_set_bytes o_set_reply o_set_sentlen].
    rewrite (oi_bytes _ Hi p c Hc), El. unfold Z.sub. rewrite wrapu_add_l by lia.
    rewrite (same_total _ _ _ _ Hs HlR). cbn [total foldr]. fold (total (heap st) l).
    assert (osize (heap st) o = zmalloc_size_sds usable t) as ->.
    { unfold osize. destruct (heap st !! o) as [[n v]|]; [|done]. cbn in Ht. by injection Ht as ->. }
    f_equal. lia.
  - split; [done|]. rewrite Hv. f_equal. unfold vclient, set_sentlen, set_reply. cbn.
    by rewrite (same_text _ _ _ _ Hs HlR).
Qed.

(** The result of the loop over objects is that of the loop over texts. *)
Definition sends st p c (f : outbuf -> outbuf * list Z * bool) (res : option (ostate * list Z * bool)) : Prop :=
  exists st1 v1 out err, res = Some (st1, out, err) /\ oinv st1 /\
    f (vclient (heap st) c) = (v1, out, err) /\ views st1 = <[p := v1]> (views st).

Lemma send_stop st p c (err : bool) :
  oinv st -> oclients st !! p = Some c -> sends st p c (fun v => (v, [], err)) (Some (st, [], err)).
Proof.
  intros Hi Hc. do 4 eexists. split; [done|]. split; [done|]. split; [done|].
  symmetry. by apply insert_id, views_lookup.
Qed.

Lemma views_client st p v :
  views st !! p = Some v -> exists c, oclients st !! p = Some c /\ v = vclient (heap st) c.
Proof.
  unfold views. rewrite lookup_fmap. destruct (oclients st !! p) as [c|]; [|done]. intros [= <-]. by exists c.
Qed.

(** One write of [n] bytes of the current object [o]. *)
Lemma write_ok st p c o n :
  oinv st -> oclients st !! p = Some c -> (o_buf c <> [] \/ o_reply c <> []) ->
  o = (if bool_decide (o_buf c = []) then hd [] (otext (heap st) <$> o_reply c) else o_buf c) ->
  let v := vclient (heap st) c in
  let (sent, finished) := advance o (o_sentlen c) n in
  exists st1,
    (if finished then
       if bool_decide (o_buf c = []) then
         let? t := current st c in
         let objmem := zmalloc_size_sds usable t in
         let? (st, c) := del_first st p c in
         Some (put st p (o_set_bytes (o_set_sentlen c sent) (u64 (reply_bytes c - objmem))))
       else Some (put st p (o_set_sentlen (o_set_buf c []) sent))
     else Some (put st p (o_set_sentlen c sent))) = Some st1 /\ oinv st1 /\
    views st1 = <[p := set_sentlen (if finished then if bool_decide (buf v = []) then set_reply v (tail (reply v))
                                                     else set_buf v [] else v) sent]> (views st).
Proof.
  intros Hi Hc Hne Ho v. unfold advance. destruct (_ =? _).
  2:{ eexists. split; [done|]. destruct (client_inv_same st p c (o_set_sentlen c (o_sentlen c + n))) as [Hi' Hv]; [done..|].
      split; [done|]. by rewrite Hv. }
  change (buf v) with (o_buf c). destruct (bool_decide_reflect (o_buf c = [])) as [Hb|Hb].
  - destruct (o_reply c) as [|x l] eqn:El; [by destruct Hne|].
    destruct (head_object st p c x l Hi Hc El) as (r & t & Hr & Hp & _).
    unfold current. rewrite El. cbn [head obind]. rewrite Hr. cbn [obind]. rewrite Hp. cbn [raw obind]. cbv zeta.
    destruct (sent_object_ok st p c x l t Hi Hc El) as (st1 & E & Hi1 & Hv1); [by rewrite Hr; cbn; rewrite Hp|].
    exists st1. split; [exact E|]. split; [done|]. rewrite Hv1. unfold v, vclient at 3. cbn. by rewrite El.
  - eexists. split; [done|]. destruct (client_inv_same st p c (o_set_sentlen (o_set_buf c []) 0)) as [Hi' Hv]; [done..|].
    split; [done|]. by rewrite Hv.
Qed.

Lemma enter_ok st p c :
  oinv st -> oclients st !! p = Some c ->
  (if bool_decide (o_buf c = []) then del_empty (length (o_reply c)) st p c else Some (st, c)) = Some (st, c) /\
  (if bool_decide (o_buf c = []) then set_reply (vclient (heap st) c) (drop_empty (reply (vclient (heap st) c)))
   else vclient (heap st) c) = vclient (heap st) c.
Proof.
  intros Hi Hc. destruct (del_empty_ok st p c Hi Hc) as [E1 E2]. destruct (bool_decide _); [|done].
  split; [done|]. unfold vclient at 2. cbn [reply]. by rewrite E2.
Qed.

Lemma current_ok st p c :
  oinv st -> oclients st !! p = Some c -> (o_buf c <> [] \/ o_reply c <> []) ->
  (if bool_decide (o_buf c = []) then let? t := current st c in zread (sbuf t) 0 (sdslen t) else Some (o_buf c)) =
  Some (if bool_decide (o_buf c = []) then hd [] (otext (heap st) <$> o_reply c) else o_buf c).
Proof.
  intros Hi Hc Hne. destruct (bool_decide_reflect (o_buf c = [])) as [Hb|Hb]; [|done].
  destruct (o_reply c) as [|x l] eqn:El; [by destruct Hne|].
  destruct (head_object st p c x l Hi Hc El) as (r & t & Hr & Hp & Ht & _).
  unfold current. rewrite El. cbn [head obind]. rewrite Hr. cbn [obind]. rewrite Hp. cbn [raw obind]. by apply holds_read.
Qed.

Lemma reply_empty h c : bool_decide (reply (vclient h c) = []) = bool_decide (o_reply c = []).
Proof. cbn. by destruct (o_reply c). Qed.

Lemma osend_loop_ok um p ws : forall st c tot,
  oinv st -> oclients st !! p = Some c ->
  sends st p c (fun v => send_loop um ws v tot) (osend_loop usable um ws st p tot).
Proof.
  induction ws as [|w ws IH]; intros st c tot Hi Hc; unfold sends; cbn [osend_loop send_loop];
    destruct (enter_ok st p c Hi Hc) as [E1 E2]; rewrite Hc; cbn [obind]; rewrite E1; cbn [obind];
    change (buf (vclient (heap st) c)) with (o_buf c); rewrite E2, reply_empty;
    change (buf (vclient (heap st) c)) with (o_buf c);
    (destruct (bool_decide (o_buf c = []) && bool_decide (o_reply c = [])) eqn:Ee; [by apply send_stop|]);
    (assert (o_buf c <> [] \/ o_reply c <> []) as Hne by (apply andb_false_iff in Ee as [H|H];
       apply bool_decide_eq_false in H; auto));
    rewrite (current_ok st p c Hi Hc Hne); cbn [obind]; [by apply send_stop|].
  destruct w as [n| |]; [|by apply send_stop|by apply send_stop].
  change (reply (vclient (heap st) c)) with (otext (heap st) <$> o_reply c).
  set (o := if bool_decide (o_buf c = []) then _ else _).
  change (sentlen (vclient (heap st) c)) with (o_sentlen c). set (k := Z.min n _).
  destruct (k <=? 0); [by apply send_stop|].
  pose proof (write_ok st p c o k Hi Hc Hne eq_refl) as Hw. cbv zeta in Hw. destruct (advance o (o_sentlen c) k) as [sent fin].
  destruct Hw as (st1 & -> & Hi1 & Hv1). cbn [obind].
  change (buf (vclient (heap st) c)) with (o_buf c) in Hv1. fold o.
  change (reply (vclient (heap st) c)) with (otext (heap st) <$> o_reply c) in Hv1.
  set (v1 := set_sentlen _ sent) in Hv1. fold v1.
  destruct (_ && um); [by do 4 eexists|].
  destruct (views_client st1 p v1) as (c1 & Hc1 & Ev1); [by rewrite Hv1, lookup_insert_eq|].
  destruct (IH st1 c1 (tot + k) Hi1 Hc1) as (st2 & v2 & out2 & err & -> & Hi2 & Es & Hv2). cbn [obind].
  rewrite Ev1, Es. do 4 eexists. split; [done|]. split; [done|]. split; [done|]. by rewrite Hv2, Hv1, insert_insert_eq.
Qed.

Lemma sendReply_objects_ok um ws st p c :
  oinv st -> oclients st !! p = Some c ->
  exists st1 v1 out e, sendReplyToClient usable um ws st p = Some (st1, out, e) /\ oinv st1 /\
    Output.sendReplyToClient um ws (vclient (heap st) c) = (v1, out, e) /\ views st1 = <[p := v1]> (views st).
Proof.
  intros Hi Hc. unfold sendReplyToClient, Output.sendReplyToClient.
  destruct (osend_loop_ok um p ws st c 0 Hi Hc) as (st1 & v1 & out & err & -> & Hi1 & -> & Hv1). cbn [obind].
  destruct (views_client st1 p v1) as (c1 & Hc1 & ->); [by rewrite Hv1, lookup_insert_eq|]. rewrite Hc1. cbn [obind].
  destruct err; [by do 4 eexists|]. rewrite reply_empty. change (buf (vclient (heap st1) c1)) with (o_buf c1).
  destruct (_ && _); [|by do 4 eexists].
  destruct (client_inv_same st1 p c1 (o_set_sentlen c1 0)) as [Hi2 Hv2]; [done..|].
  do 4 eexists. split; [done|]. split; [done|]. split; [by rewrite not_closing|].
  by rewrite Hv2, Hv1, insert_insert_eq.
Qed.

End Objects.

(** ** Closing *)

Section Closing.
Context (shared : gmap nat (list Z)).
Context (usable : Z -> Z) (junk : nat -> Z) (ae : Z -> bool).
Context (usable_bounds : forall n, 0 <= n <= 2 ^ 32 -> n <= usable n <= 2 ^ 40).
Abbreviation oinv := (oinv shared usable).
Implicit Types st : ostate.

Lemma unqueue_spec p l :
  p ∈ l.*2 -> exists a n b, l = a ++ (n, p) :: b /\ p ∉ a.*2 /\ unqueue p l = Some (a ++ b).
Proof.
  induction l as [|[n q] l IH]; cbn; intros Hp; [by apply elem_of_nil in Hp|].
  destruct (decide (q = p)) as [->|Hq].
  - rewrite bool_decide_eq_true_2 by done. exists [], n, l. split; [done|]. split; [apply not_elem_of_nil|done].
  - rewrite bool_decide_eq_false_2 by done. apply elem_of_cons in Hp as [|Hp]; [done|].
    destruct (IH Hp) as (a & m & b & -> & Ha & ->). exists ((n, q) :: a), m, b. split; [done|]. split; [|done].
    cbn. rewrite not_elem_of_cons. done.
Qed.

Lemma unlink_node_spec n p a b : n ∉ a.*1 -> unlink n (a ++ (n, p) :: b) = Some (a ++ b).
Proof.
  induction a as [|[m q] a IH]; cbn; intros Hn; [by rewrite bool_decide_eq_true_2|].
  apply not_elem_of_cons in Hn as [Hm Hn]. rewrite bool_decide_eq_false_2 by done. by rewrite IH.
Qed.

(** The client is gone, from the table and from the queue. *)
Lemma removed_ok closing st p c h' a n b :
  oinv closing st -> oclients st !! p = Some c -> (closing = None \/ closing = Some p) ->
  heap_inv shared h' (refs (delete p (oclients st))) -> same (heap st) h' (refs (delete p (oclients st))) ->
  (clients_to_close st = a ++ (n, p) :: b \/ (clients_to_close st = a ++ b /\ p ∉ (a ++ b).*2)) ->
  let st' := set_queue (set_oclients (set_heap st h') (delete p (oclients st))) (a ++ b) in
  oinv None st' /\ views st' = delete p (views st).
Proof.
  intros [A B C E F K G] Hc Hcl Hh Hs Hq st'.
  assert (forall q d, delete p (oclients st) !! q = Some d -> forall o, o ∈ o_reply d -> o ∈ refs (delete p (oclients st)))
    as Hin by (intros q d Hd o; by apply (refs_elem _ q)).
  assert (NoDup (a ++ b).*1 /\ NoDup (a ++ b).*2 /\ p ∉ (a ++ b).*2 /\
    forall q, q <> p -> q ∈ (a ++ b).*2 <-> q ∈ (clients_to_close st).*2) as (Q1 & Q2 & Q3 & Q4).
  { destruct Hq as [Hq|[Hq Hp]]; rewrite Hq in *; [|done].
    rewrite !fmap_app in *. cbn in *. rewrite <- Permutation_middle in C, E.
    apply NoDup_cons in C as [_ C]. apply NoDup_cons in E as [Hp E]. split_and!; [done|done|done|].
    intros q Hne. rewrite !elem_of_app, elem_of_cons.
    split; [intros [?|?]|intros [?|[?|?]]]; auto; done. }
  split; [constructor; cbn|].
  - done.
  - intros q d Hd. pose proof Hd as [_ Hd']%lookup_delete_Some. rewrite (B q d Hd'). f_equal. symmetry.
    apply (same_total usable usable_bounds _ _ _ _ Hs). by apply (Hin q).
  - done.
  - done.
  - intros q. destruct (decide (q = p)) as [->|Hne].
    + split; [done|]. intros [(d & Hd & _)|]; [|done]. by rewrite lookup_delete_eq in Hd.
    + rewrite Q4, F, lookup_delete_ne by done. split; intros [?|?]; auto; exfalso; destruct Hcl; congruence.
  - done.
  - done.
  - unfold views. cbn. rewrite <- fmap_delete. apply map_fmap_ext. intros q d Hd.
    unfold vclient. f_equal. apply (same_text _ _ _ _ Hs). by apply (Hin q).
Qed.

Lemma release_ok closing st p c :
  oinv closing st -> oclients st !! p = Some c ->
  exists h', release_all (heap st) (o_reply c) = Some h' /\ heap_inv shared h' (refs (delete p (oclients st))) /\
    same (heap st) h' (refs (delete p (oclients st))).
Proof.
  intros Hi Hc. apply (release_inv shared). rewrite <- (refs_split _ p c Hc). apply Hi.
Qed.

Lemma freeClientObjects_ok st p c :
  oinv None st -> oclients st !! p = Some c ->
  exists st', freeClientObjects usable junk ae st p [] = Some st' /\ oinv None st' /\ views st' = delete p (views st).
Proof.
  intros Hi Hc. unfold freeClientObjects. cbn [notify obind]. rewrite Hc. cbn [obind].
  destruct (release_ok None st p c Hi Hc) as (h' & -> & Hh & Hs). cbn [obind].
  destruct (o_has c REDIS_CLOSE_ASAP) eqn:Ea; cbn [clients_to_close set_heap].
  - assert (p ∈ (clients_to_close st).*2) as Hp by (apply (oi_asap _ _ _ _ Hi); left; eauto).
    destruct (unqueue_spec p _ Hp) as (a & n & b & Hq & _ & ->). cbn [obind]. eexists. split; [done|].
    apply (removed_ok None st p c h' a n b Hi Hc); auto.
  - cbn [obind]. eexists. split; [done|].
    destruct (removed_ok None st p c h' (clients_to_close st) 0 [] Hi Hc) as [Hi' Hv]; [auto|done|done| |].
    + right. rewrite app_nil_r. split; [done|]. rewrite (oi_asap _ _ _ _ Hi). intros [(d & Hd & Hf)|]; [|done]. congruence.
    + rewrite app_nil_r in Hi', Hv. by destruct st.
Qed.

End Closing.

End ObjectProofs.
