(* ===== verification/OutObjRun.v ===== *)
(** * Reply objects over whole runs

    Any sequence of replies, writes, connections and releases does to the
    objects of [OutObj] what it does to the output buffers of [Reply]; the
    queue of clients to close is emptied; and three runs show what the code
    gets wrong. *)

From S2P Require Import Prelude Reply Sds Util SdsBuf SdsBufSpec Query OutObj OutObjSpec.
Import Output SdsBuf SdsBufProofs Objects ObjectProofs.

Module ObjectRuns.

#[local] Set Default Proof Using "Type*".

Section Runs.
Context (shared : gmap nat (list Z)).
Context (usable : Z -> Z) (junk : nat -> Z) (ae : Z -> bool).
Context (usable_bounds : forall n, 0 <= n <= 2 ^ 32 -> n <= usable n <= 2 ^ 40).
Abbreviation inv := (oinv shared usable None).
Implicit Types st : ostate.

(** ** Operations *)

Inductive oop :=
  | OAccept (p : nat) (fd : Z)
  | OString (p : nat) (s : list Z)
  | OSds (p : nat) (t : sdshdr) (s : list Z)
  | OShared (p : nat) (o : nat) (s : list Z)
  | OWrite (p : nat) (under_maxmemory : bool) (ws : list write_res)
  | OFree (p : nat).

(** A failed write, and the last write to a client that is to be closed,
    free the client. *)
Definition perform st (x : oop) : option (ostate * list Z) :=
  match x with
  | OAccept p fd => Some (createClient st p fd, [])
  | OString p s => let? st := addReplyString usable junk ae st p s in Some (st, [])
  | OSds p t _ => let? st := addReplySds usable junk ae st p t in Some (st, [])
  | OShared p o _ => let? st := addReply usable junk ae st p o in Some (st, [])
  | OWrite p um ws =>
      let? (st, out, e) := sendReplyToClient usable um ws st p in
      match e with
      | SendFree => let? st := freeClientObjects usable junk ae st p [] in Some (st, out)
      | _ => Some (st, out)
      end
  | OFree p => let? st := freeClientObjects usable junk ae st p [] in Some (st, [])
  end.

(** The same on the buffers of [Reply]. *)
Definition ref_perform (m : gmap nat outbuf) (x : oop) : gmap nat outbuf * list Z :=
  match x with
  | OAccept p fd => (<[p := new_outbuf fd]> m, [])
  | OString p s | OSds p _ s | OShared p _ s => (alter (fun v => Output.addReplyString ae v s) p m, [])
  | OWrite p um ws =>
      match m !! p with
      | Some v =>
          let '(v, out, e) := Output.sendReplyToClient um ws v in
          (match e with SendFree => delete p m | _ => <[p := v]> m end, out)
      | None => (m, [])
      end
  | OFree p => (delete p m, [])
  end.

(** Replies are not empty and not larger than a gigabyte, and go to
    connected clients with fewer than a million objects in their list. *)
Definition text_ok (m : gmap nat outbuf) (p : nat) (s : list Z) : Prop :=
  s <> [] /\ zlen s <= MAX_LEN /\ exists v, m !! p = Some v /\ zlen (reply v) < MAX_OBJECTS.

Definition oop_ok (m : gmap nat outbuf) (x : oop) : Prop :=
  match x with
  | OAccept p _ => m !! p = None
  | OString p s => text_ok m p s
  | OSds p t s => text_ok m p s /\ holds t s
  | OShared p o s => text_ok m p s /\ shared !! o = Some s
  | OWrite p _ _ | OFree p => is_Some (m !! p)
  end.

Lemma accept_objects_ok st p fd :
  inv st -> views st !! p = None ->
  inv (createClient st p fd) /\ views (createClient st p fd) = <[p := new_outbuf fd]> (views st).
Proof.
  intros [A B C E F K G] Hp.
  assert (oclients st !! p = None) as Hn.
  { unfold views in Hp. rewrite lookup_fmap in Hp. by destruct (oclients st !! p). }
  split; [constructor; cbn|].
  - rewrite refs_insert, delete_id by done. exact A.
  - intros q c. rewrite lookup_insert_Some. intros [[<- <-]|[_ Hc]]; [done|by apply (B q)].
  - done.
  - done.
  - intros q. rewrite F. split; (intros [(c & Hc & Ha)|]; [left|done]).
    + exists c. split; [|done]. rewrite lookup_insert_ne; [done|]. intros <-. congruence.
    + apply lookup_insert_Some in Hc as [[<- <-]|[_ Hc]]; [done|by exists c].
  - done.
  - done.
  - unfold views. cbn. by rewrite fmap_insert.
Qed.

Lemma queues_alter st p f res :
  queues shared usable None st p f res ->
  exists st', res = Some st' /\ inv st' /\ views st' = alter f p (views st).
Proof.
  intros (st' & v & -> & Hi & Hl & Hv & _). exists st'. split; [done|]. split; [done|]. rewrite Hv.
  apply map_eq. intros q. destruct (decide (p = q)) as [<-|Hq].
  - by rewrite lookup_insert_eq, lookup_alter_eq, Hl.
  - by rewrite lookup_insert_ne, lookup_alter_ne.
Qed.

Lemma text_client st p s :
  text_ok (views st) p s ->
  s <> [] /\ zlen s <= MAX_LEN /\ exists c, oclients st !! p = Some c /\ zlen (o_reply c) < MAX_OBJECTS.
Proof.
  intros (Hs & Hl & v & Hv & Hn). split; [done|]. split; [done|].
  destruct (views_client st p v Hv) as (c & Hc & ->). exists c. split; [done|]. cbn in Hn. by rewrite length_fmap in Hn.
Qed.

Lemma perform_ok st x :
  inv st -> oop_ok (views st) x ->
  exists st' out, perform st x = Some (st', out) /\ inv st' /\ ref_perform (views st) x = (views st', out).
Proof.
  intros Hi Hx. destruct x as [p fd|p s|p t s|p o s|p um ws|p]; cbn [perform ref_perform].
  - destruct (accept_objects_ok st p fd Hi Hx) as [Hi' Hv]. do 2 eexists. split; [done|]. split; [done|]. by rewrite Hv.
  - destruct (text_client st p s Hx) as (Hs & Hl & c & Hc & Hn).
    destruct (queues_alter st p _ _ (addReplyString_objects_ok shared usable junk ae usable_bounds None st p c s Hi Hc Hn ltac:(done) Hs Hl))
      as (st' & -> & Hi' & Hv). cbn [obind]. do 2 eexists. split; [done|]. split; [done|]. by rewrite Hv.
  - destruct Hx as [Hx Ht]. destruct (text_client st p s Hx) as (Hs & Hl & c & Hc & Hn).
    destruct (queues_alter st p _ _ (addReplySds_objects_ok shared usable junk ae usable_bounds None st p c t s Hi Hc Hn ltac:(done) Hs Hl Ht))
      as (st' & -> & Hi' & Hv). cbn [obind]. do 2 eexists. split; [done|]. split; [done|]. by rewrite Hv.
  - destruct Hx as [Hx Ho]. destruct (text_client st p s Hx) as (Hs & Hl & c & Hc & Hn).
    destruct (queues_alter st p _ _ (addReply_objects_ok shared usable junk ae usable_bounds None st p c o s Hi Hc Hn ltac:(done) Hs Hl Ho))
      as (st' & -> & Hi' & Hv). cbn [obind]. do 2 eexists. split; [done|]. split; [done|]. by rewrite Hv.
  - destruct Hx as [v Hv]. destruct (views_client st p v Hv) as (c & Hc & ->). rewrite Hv.
    destruct (sendReply_objects_ok shared usable usable_bounds None um ws st p c Hi Hc) as (st1 & v1 & out & e & -> & Hi1 & -> & Hv1).
    cbn [obind]. destruct e; [by rewrite <- Hv1; do 2 eexists|by rewrite <- Hv1; do 2 eexists|].
    destruct (views_client st1 p v1) as (c1 & Hc1 & _); [by rewrite Hv1, lookup_insert_eq|].
    destruct (freeClientObjects_ok shared usable junk ae usable_bounds st1 p c1 Hi1 Hc1) as (st2 & -> & Hi2 & Hv2). cbn [obind].
    do 2 eexists. split; [done|]. split; [done|]. by rewrite Hv2, Hv1, delete_insert_eq.
  - destruct Hx as [v Hv]. destruct (views_client st p v Hv) as (c & Hc & _).
    destruct (freeClientObjects_ok shared usable junk ae usable_bounds st p c Hi Hc) as (st' & -> & Hi' & Hv'). cbn [obind].
    do 2 eexists. split; [done|]. split; [done|]. by rewrite Hv'.
Qed.

(** ** Runs *)

Fixpoint run st (xs : list oop) : option (ostate * list Z) :=
  match xs with
  | [] => Some (st, [])
  | x :: xs =>
      let? (st, out) := perform st x in
      let? (st, outs) := run st xs in Some (st, out ++ outs)
  end.

Fixpoint ref_run (m : gmap nat outbuf) (xs : list oop) : gmap nat outbuf * list Z :=
  match xs with
  | [] => (m, [])
  | x :: xs =>
      let '(m, out) := ref_perform m x in
      let '(m, outs) := ref_run m xs in (m, out ++ outs)
  end.

Fixpoint oops_ok (m : gmap nat outbuf) (xs : list oop) : Prop :=
  match xs with
  | [] => True
  | x :: xs => oop_ok m x /\ oops_ok (ref_perform m x).1 xs
  end.

Lemma object_run_ok xs : forall st,
  inv st -> oops_ok (views st) xs ->
  exists st' out, run st xs = Some (st', out) /\ inv st' /\ ref_run (views st) xs = (views st', out).
Proof.
  induction xs as [|x xs IH]; intros st Hi Hx; cbn [run ref_run]; [by do 2 eexists|]. destruct Hx as [Hx Hxs].
  destruct (perform_ok st x Hi Hx) as (st1 & out & -> & Hi1 & E1). cbn [obind]. rewrite E1 in *. cbn in Hxs.
  destruct (IH st1 Hi1 Hxs) as (st2 & outs & -> & Hi2 & ->). cbn [obind]. by do 2 eexists.
Qed.

(** The server with its shared objects and without clients. *)
Definition start (limits : list clientBufferLimitsConfig) (now : Z) : ostate :=
  OState ((fun l => Robj 1 (Raw (Sdshdr (zlen l) 0 (l ++ [0])))) <$> shared) ∅ [] limits now.

Lemma object_start_inv limits now :
  map_Forall (fun _ l => l <> [] /\ zlen l <= MAX_LEN) shared -> length limits = 3%nat -> inv (start limits now).
Proof.
  intros Hs Hl.
  assert (forall o l, shared !! o = Some l -> heap (start limits now) !! o = Some (Robj 1 (Raw (Sdshdr (zlen l) 0 (l ++ [0])))))
    as Hh by (intros o l Ho; cbn; by rewrite lookup_fmap, Ho).
  constructor; cbn [oclients clients_to_close client_obuf_limits start]; [constructor| | | | | |done].
  - intros o r Ho. cbn in Ho. rewrite lookup_fmap in Ho. destruct (shared !! o) as [l|] eqn:E; [|done].
    injection Ho as <-. unfold held. rewrite E, bool_decide_eq_true_2 by eauto. done.
  - intros o r Ho. cbn in Ho. rewrite lookup_fmap in Ho. destruct (shared !! o) as [l|] eqn:E; [|done].
    injection Ho as <-. destruct (Hs o l E) as [Hne Hlen]. do 2 eexists. split; [done|]. split; [|done].
    exists []. split; [done|]. unfold MAX_LEN, MAX_ALLOC in *. cbn [length]. lia.
  - intros o Ho. by apply not_elem_of_nil in Ho.
  - intros o l Ho. unfold otext. fold (start limits now). cbn [heap start] in *. rewrite (Hh o l Ho).
    split; [eauto|]. cbn. rewrite Nat2Z.id. apply take_app_length.
  - intros p c Hc. by rewrite lookup_empty in Hc.
  - constructor.
  - constructor.
  - intros p. split; [intros Hp; by apply not_elem_of_nil in Hp|]. intros [(c & Hc & _)|]; [|done].
    by rewrite lookup_empty in Hc.
  - done.
Qed.

(** C16: shared reply objects implement separate output buffers.  Whatever
    replies are queued for whatever clients, as strings or as shared objects,
    and however they are written, no object is used after it was freed, and
    each client is sent what it would be sent if its buffers held copies of
    their own; every object's count is the number of lists that hold it, so
    that with the last client the last reply is freed; and [reply_bytes] is
    the memory of the objects in the client's list. *)
Theorem reply_objects_refine_buffers limits now xs :
  map_Forall (fun _ l => l <> [] /\ zlen l <= MAX_LEN) shared -> length limits = 3%nat -> oops_ok ∅ xs ->
  exists st out, run (start limits now) xs = Some (st, out) /\ ref_run ∅ xs = (views st, out) /\
    (forall o r, heap st !! o = Some r ->
       refcount r = held shared o + Z.of_nat (count_occ Nat.eq_dec (refs (oclients st)) o) /\ 0 < refcount r) /\
    (forall p c, oclients st !! p = Some c -> reply_bytes c = u64 (total usable (heap st) (o_reply c))).
Proof.
  intros Hs Hl Hx. assert (views (start limits now) = ∅) as Ev by (unfold views; cbn; apply fmap_empty).
  destruct (object_run_ok xs (start limits now) (object_start_inv limits now Hs Hl)) as (st & out & E & Hi & Hr); [by rewrite Ev|].
  exists st, out. rewrite Ev in Hr. split; [done|]. split; [done|]. split; [|apply Hi].
  apply (hi_count _ _ _ (oi_heap _ _ _ _ Hi)).
Qed.

(** ** The queue of clients to close *)

(** Every list can take [k] more objects. *)
Definition room (m : gmap nat outbuf) (k : Z) : Prop :=
  forall q v, m !! q = Some v -> zlen (reply v) + k <= MAX_OBJECTS.

Definition msg_ok (p : nat) (m : gmap nat outbuf) (x : nat * list Z) : Prop :=
  x.1 <> p /\ x.2 <> [] /\ zlen x.2 <= MAX_LEN /\ is_Some (m !! x.1).

Lemma addReplyString_length v s : zlen (reply (Output.addReplyString ae v s)) <= zlen (reply v) + 1.
Proof.
  assert (zlen (append_tail (reply v) s) <= zlen (reply v) + 1) as H.
  { unfold append_tail. destruct (reply v) as [|y l _] using rev_ind; [done|]. rewrite last_snoc, removelast_last.
    destruct (_ <=? _); rewrite !length_app; cbn; lia. }
  unfold Output.addReplyString, _addReplyToBuffer, Output._addReplyStringToList.
  destruct (negb _); [lia|]. destruct (has_flag v _); [lia|]. destruct (bool_decide _); [done|].
  destruct (_ <? _); [done|]. cbn. lia.
Qed.

Lemma notify_ok p msgs : forall st,
  oinv shared usable (Some p) st -> Forall (msg_ok p (views st)) msgs -> room (views st) (zlen msgs) ->
  exists st', notify usable junk ae st msgs = Some st' /\ oinv shared usable (Some p) st' /\ grows st st' /\
    dom (views st') = dom (views st) /\ forall k, room (views st) (zlen msgs + k) -> room (views st') k.
Proof.
  induction msgs as [|[q s] msgs IH]; intros st Hi Hm Hr; cbn [notify].
  { exists st. split; [done|]. split; [done|]. split; [by apply grows_refl|]. split; [done|]. intros k Hk. exact Hk. }
  apply Forall_cons in Hm as [(Hq & Hs & Hl & v & Hv) Hm]. cbn in Hq, Hs, Hl, Hv.
  destruct (views_client st q v Hv) as (c & Hc & ->).
  assert (zlen (o_reply c) < MAX_OBJECTS) as Hn.
  { specialize (Hr q _ Hv). cbn in Hr. rewrite length_fmap in Hr. lia. }
  destruct (addReplyString_objects_ok shared usable junk ae usable_bounds (Some p) st q c s Hi Hc Hn ltac:(congruence) Hs Hl)
    as (st1 & v1 & -> & Hi1 & Hv1 & Hvs & Hg1). cbn [obind].
  assert (dom (views st1) = dom (views st)) as Hd
    by (rewrite Hvs, dom_insert_L; apply elem_of_dom_2 in Hv1; set_solver +Hv1).
  assert (forall k, room (views st) (zlen ((q, s) :: msgs) + k) -> room (views st1) (zlen msgs + k)) as Hroom.
  { intros k Hk q' v'. rewrite Hvs, lookup_insert_Some. intros [[<- <-]|[_ Hv']].
    - pose proof (addReplyString_length v1 s). specialize (Hk q v1 Hv1). cbn [length] in Hk. lia.
    - specialize (Hk q' v' Hv'). cbn [length] in Hk. lia. }
  destruct (IH st1 Hi1) as (st2 & -> & Hi2 & Hg2 & Hd2 & Hr2).
  - eapply Forall_impl; [exact Hm|]. intros [q' s'] (A & B & C & E). split_and!; try done. cbn in *.
    rewrite <- elem_of_dom, Hd, elem_of_dom. done.
  - specialize (Hroom 0). rewrite !Z.add_0_r in Hroom. by apply Hroom.
  - exists st2. split; [done|]. split; [done|]. split.
    + destruct Hg1 as [l1 H1], Hg2 as [l2 H2]. exists (l1 ++ l2). by rewrite H2, H1, app_assoc.
    + split; [by rewrite Hd2|]. intros k Hk. by apply Hr2, Hroom.
Qed.

Lemma has_clear c : o_has (o_set_flags c (o_flags c &. ~. REDIS_CLOSE_ASAP)) REDIS_CLOSE_ASAP = false.
Proof. unfold o_has. cbn [o_flags o_set_flags]. rewrite <- Z.land_assoc. by rewrite Z.land_0_r. Qed.

(** The first client of the queue with its flag cleared. *)
Lemma cleared_ok st p c n q :
  inv st -> oclients st !! p = Some c -> clients_to_close st = (n, p) :: q ->
  let st1 := put st p (o_set_flags c (o_flags c &. ~. REDIS_CLOSE_ASAP)) in
  oinv shared usable (Some p) st1 /\ views st1 = views st.
Proof.
  intros [A B C E F K G] Hc Hq st1. set (c1 := o_set_flags c _) in *.
  assert (refs (<[p := c1]> (oclients st)) ≡ₚ refs (oclients st)) as Hr
    by (rewrite refs_insert, (refs_split (oclients st) p c) by done; done).
  split; [constructor; cbn [st1 put set_oclients heap oclients clients_to_close client_obuf_limits]|].
  - by rewrite Hr.
  - intros r d. rewrite lookup_insert_Some. intros [[<- <-]|[_ Hd]]; [exact (B p c Hc)|by apply (B r)].
  - done.
  - done.
  - intros r. rewrite F. destruct (decide (r = p)) as [->|Hne].
    + split; [by right|]. intros _. apply F. rewrite Hq. left.
    + rewrite lookup_insert_ne by done. split; intros [?|?]; auto; congruence.
  - intros r d [= <-]. rewrite lookup_insert_eq. intros [= <-]. apply has_clear.
  - done.
  - unfold views. cbn. rewrite fmap_insert. apply insert_id. rewrite lookup_fmap, Hc. cbn. unfold vclient, c1. cbn.
    f_equal. by rewrite <- Z.land_assoc, Z.land_diag.
Qed.

Context (M : Z) (msgs : ostate -> nat -> list (nat * list Z)).
Context (msgs_ok : forall st p, zlen (msgs st p) <= M /\ Forall (msg_ok p (views st)) (msgs st p)).

Lemma close_first st p n q k :
  inv st -> clients_to_close st = (n, p) :: q -> room (views st) (M + k) -> 0 <= k ->
  exists c st2 l st3, oclients st !! p = Some c /\
    freeClientObjects usable junk ae (put st p (o_set_flags c (o_flags c &. ~. REDIS_CLOSE_ASAP))) p
      (msgs (put st p (o_set_flags c (o_flags c &. ~. REDIS_CLOSE_ASAP))) p) = Some st2 /\
    unlink n (clients_to_close st2) = Some l /\ st3 = set_queue st2 l /\ inv st3 /\
    (exists new, l = q ++ new) /\ dom (views st3) = dom (views st) ∖ {[p]} /\ room (views st3) k.
Proof using Type* msgs_ok.
  intros Hi Hq Hr Hk.
  assert (exists c, oclients st !! p = Some c) as [c Hc].
  { destruct (proj1 (oi_asap _ _ _ _ Hi p)) as [(c & Hc & _)|]; [rewrite Hq; left|by exists c|done]. }
  destruct (cleared_ok st p c n q Hi Hc Hq) as [Hi1 Hv1]. set (st1 := put st p _) in *.
  destruct (msgs_ok st1 p) as [Hlen Hmsgs].
  destruct (notify_ok p (msgs st1 p) st1 Hi1 Hmsgs) as (st2 & E2 & Hi2 & [new Hg] & Hd2 & Hr2).
  { intros r v Hv. rewrite Hv1 in Hv. specialize (Hr r v Hv). lia. }
  assert (exists c2, oclients st2 !! p = Some c2) as [c2 Hc2].
  { assert (p ∈ dom (views st2)) as Hp.
    { rewrite Hd2, Hv1. apply elem_of_dom. rewrite (views_lookup st p c Hc). eauto. }
    apply elem_of_dom in Hp as [v Hv]. destruct (views_client st2 p v Hv) as (c2 & Hc2 & _). by exists c2. }
  destruct (release_ok shared usable usable_bounds (Some p) st2 p c2 Hi2 Hc2) as (h' & Eh & Hh & Hs).
  pose proof (oi_clear _ _ _ _ Hi2 p c2 eq_refl Hc2) as Hcl.
  assert (clients_to_close st2 = [] ++ (n, p) :: (q ++ new)) as Hq2 by (rewrite Hg; cbn; by rewrite Hq).
  destruct (removed_ok shared usable usable_bounds (Some p) st2 p c2 h' [] n (q ++ new) Hi2 Hc2) as [Hi3 Hv3]; [by right|done|done|by left|].
  exists c. do 3 eexists. split; [done|]. split.
  { fold st1. unfold freeClientObjects. rewrite E2. cbn [obind]. rewrite Hc2. cbn [obind]. rewrite Eh. cbn [obind]. rewrite Hcl.
    cbn [obind]. done. }
  cbn [clients_to_close set_oclients set_heap oclients]. rewrite Hq2.
  split; [apply unlink_node_spec, not_elem_of_nil|]. split; [done|]. split; [exact Hi3|]. split; [by exists new|].
  cbn [app] in *. split; [by rewrite Hv3, dom_delete_L, Hd2, Hv1|].
  rewrite Hv3. intros r v [_ Hv]%lookup_delete_Some. apply (Hr2 k) in Hv; [lia|].
  intros r' v' Hv'. rewrite Hv1 in Hv'. specialize (Hr r' v' Hv'). lia.
Qed.

(** C17: the queue of clients to close is emptied.  As long as the release of
    a client sends nothing to that client itself, every client that was
    scheduled is freed, once, together with those that the notifications push
    over their limits; the loop ends after at most as many rounds as there
    are clients, and counts and sizes stay right. *)
Theorem async_queue_freed fuel : forall st,
  inv st -> (size (oclients st) <= fuel)%nat -> room (views st) (M * Z.of_nat fuel) ->
  exists st', freeClientsInAsyncFreeQueue usable junk ae fuel msgs st = Some st' /\ inv st' /\
    clients_to_close st' = [] /\ dom (views st') ⊆ dom (views st) /\
    forall p, p ∈ (clients_to_close st).*2 -> p ∉ dom (views st').
Proof using Type* msgs_ok.
  induction fuel as [|fuel IH]; intros st Hi Hf Hr; cbn [freeClientsInAsyncFreeQueue].
  - destruct (clients_to_close st) as [|[n p] q] eqn:Eq.
    { exists st. split_and!; [done|done|done|done|]. intros p Hp. by apply not_elem_of_nil in Hp. }
    destruct (proj1 (oi_asap _ _ _ _ Hi p)) as [(c & Hc & _)|]; [rewrite Eq; left| |done].
    assert (oclients st = ∅) as E0 by (apply map_size_empty_inv; lia). by rewrite E0, lookup_empty in Hc.
  - destruct (clients_to_close st) as [|[n p] q] eqn:Eq.
    { exists st. split_and!; [done|done|done|done|]. intros p Hp. by apply not_elem_of_nil in Hp. }
    assert (0 <= M) as HM by (destruct (msgs_ok st p); lia).
    destruct (close_first st p n q (M * Z.of_nat fuel) Hi Eq) as (c & st2 & l & st3 & Hc & E2 & El & E3 & Hi3 & [new Hl] & Hd & Hr3).
    { intros r v Hv. specialize (Hr r v Hv). lia. }
    { lia. }
    rewrite Hc. cbn [obind]. rewrite E2. cbn [obind]. rewrite El. cbn [obind]. rewrite <- E3.
    assert (forall st, size (oclients st) = size (dom (views st))) as Hsize
      by (intros s; unfold views; rewrite dom_fmap_L; symmetry; apply size_dom).
    assert (p ∈ dom (views st)) as Hp by (apply elem_of_dom; rewrite (views_lookup st p c Hc); eauto).
    destruct (IH st3 Hi3) as (st' & -> & Hi' & Hq' & Hsub & Hgone); [|done|].
    { rewrite Hsize in *. rewrite Hd, size_difference, size_singleton by set_solver +Hp. lia. }
    exists st'. split_and!; [done|done|done|set_solver +Hsub Hd|].
    intros r Hx. cbn in Hx. apply elem_of_cons in Hx as [->|Hx]; [set_solver +Hsub Hd|].
    apply Hgone. rewrite E3. cbn. rewrite Hl, fmap_app. set_solver +Hx.
Qed.

End Runs.

(** The limit is enforced: whatever has been queued, a client whose list takes
    the hard limit of its class is in the queue. *)
Lemma limit_enforced st p st' c limit :
  asyncCloseClientOnOutputBufferLimitReached st p = Some st' -> oclients st' !! p = Some c ->
  client_obuf_limits st !! getClientLimitClass c = Some limit ->
  hard_limit_bytes limit <> 0 -> hard_limit_bytes limit <= getClientOutputBufferMemoryUsage c ->
  reply_bytes c <> 0 -> o_has c REDIS_CLOSE_ASAP = true.
Proof.
  unfold asyncCloseClientOnOutputBufferLimitReached. intros (c0 & Hc0 & H)%obind_Some Hc Hl Hh Hu Hb.
  destruct (negb _); [done|]. destruct (o_has c0 REDIS_CLOSE_ASAP) eqn:Ea.
  { rewrite orb_true_r in H. injection H as <-. congruence. }
  destruct (Z.eqb_spec (reply_bytes c0) 0) as [E0|E0]; cbn [orb] in H; [injection H as <-; congruence|].
  apply obind_Some in H as ([c1 b] & Hk & H).
  assert (exists x, c1 = o_set_soft c0 x) as [x ->].
  { unfold checkClientOutputBufferLimits in Hk. apply obind_Some in Hk as (l & _ & Hk).
    destruct (_ && _) in Hk; [destruct (_ =? 0) in Hk|]; injection Hk as <- _; [by eexists| |by eexists].
    exists (obuf_soft_limit_reached_time c0). by destruct c0. }
  destruct b.
  - unfold freeClientAsync in H. cbn [oclients put set_oclients] in H. rewrite lookup_insert_eq in H. cbn [obind] in H.
    change (o_has (o_set_soft c0 x) REDIS_CLOSE_ASAP) with (o_has c0 REDIS_CLOSE_ASAP) in H. rewrite Ea in H.
    injection H as <-. cbn in Hc. rewrite lookup_insert_eq in Hc. injection Hc as <-.
    exact (has_set (o_set_soft c0 x)).
  - injection H as <-. cbn in Hc. rewrite lookup_insert_eq in Hc. injection Hc as <-.
    change (getClientLimitClass (o_set_soft c0 x)) with (getClientLimitClass c0) in Hl.
    change (getClientOutputBufferMemoryUsage (o_set_soft c0 x)) with (getClientOutputBufferMemoryUsage c0) in Hu.
    unfold checkClientOutputBufferLimits in Hk. rewrite Hl in Hk. cbn [obind] in Hk.
    rewrite (proj2 (Z.eqb_neq _ 0) Hh), (proj2 (Z.leb_le _ _) Hu) in Hk. cbn [negb andb] in Hk.
    destruct (negb _ && _) in Hk; [destruct (_ =? 0) in Hk|]; injection Hk as _ Hk; by rewrite ?orb_true_r in Hk.
Qed.

(** ** Concrete runs *)
Module Demo.

(** The allocator of zmalloc.c without library support: a length in front,
    rounded up to words. *)
Definition words (n : Z) : Z := 8 * ((n + 7) `div` 8) + 8.
Definition no_junk (n : nat) : Z := 0.
Definition any_fd (fd : Z) : bool := true.

Lemma words_bounds n : 0 <= n <= 2 ^ 32 -> n <= words n <= 2 ^ 40.
Proof. unfold words. pose proof (Z.div_mod (n + 7) 8). pose proof (Z.mod_pos_bound (n + 7) 8). lia. Qed.

(** [shared.ok] *)
Definition ok_text : list Z := bytes_of_string "+OK" ++ [13; 10].
Definition the_shared : gmap nat (list Z) := {[ 0%nat := ok_text ]}.

Definition unlimited : list clientBufferLimitsConfig := replicate 3 (Limit 0 0 0).
Definition full : list Z := replicate 16384 120.

(** Two clients with full buffers are sent the same object, one of them
    twice; then the first reads all. *)
Definition busy : list oop :=
  [OAccept 1 5; OAccept 2 6; OString 1 full; OString 2 full; OShared 1 0 ok_text; OShared 2 0 ok_text;
   OShared 1 0 ok_text; OWrite 1 true [Wrote 20000; Wrote 20000]].

Lemma busy_ok : oops_ok the_shared any_fd ∅ busy.
Proof.
  repeat split; try discriminate;
    try (apply Z.leb_le; vm_compute; reflexivity);
    eexists; split; try (vm_compute; reflexivity).
Qed.

Lemma shared_ok : map_Forall (fun _ l => l <> [] /\ zlen l <= MAX_LEN) the_shared.
Proof. apply map_Forall_singleton. split; [discriminate|]. apply Z.leb_le. vm_compute. reflexivity. Qed.

Lemma reply_objects_refine_buffers_witness :
  exists st out, run words no_junk any_fd (start the_shared unlimited 0) busy = Some (st, out) /\
    ref_run any_fd ∅ busy = (views st, out) /\
    (forall o r, heap st !! o = Some r ->
       refcount r = held the_shared o + Z.of_nat (count_occ Nat.eq_dec (refs (oclients st)) o) /\ 0 < refcount r) /\
    (forall p c, oclients st !! p = Some c -> reply_bytes c = u64 (total words (heap st) (o_reply c))).
Proof.
  exact (reply_objects_refine_buffers the_shared words no_junk any_fd words_bounds unlimited 0 busy
           shared_ok eq_refl busy_ok).
Defined.

(** What the second client is sent is not changed by the first. *)
Example sharing_is_invisible :
  (let? (st, out) := run words no_junk any_fd (start the_shared unlimited 0) busy in
   Some (bool_decide (out = full ++ ok_text ++ ok_text), reply <$> views st !! 2%nat)) = Some (true, Some [ok_text]).
Proof. vm_compute. reflexivity. Qed.

(** An empty reply behind a large object is queued as an object of its own
    and is never taken off [reply_bytes]. *)
Definition with_empty : list oop :=
  [OAccept 1 5; OString 1 (replicate 17000 120); OString 1 []; OWrite 1 true [Wrote 20000]].
Example empty_reply_stays_counted :
  (let? (st, _) := run words no_junk any_fd (start the_shared unlimited 0) with_empty in
   let? c := oclients st !! 1%nat in Some (o_reply c, reply_bytes c)) = Some ([], 24).
Proof. vm_compute. reflexivity. Qed.

(** A client over a limit of a hundred bytes. *)
Definition strict : list clientBufferLimitsConfig := Limit 100 0 0 :: replicate 2 (Limit 0 0 0).
Definition over : list oop := [OAccept 1 5; OString 1 full; OString 1 (replicate 100 121)].
Definition scheduled : option ostate :=
  let? (st, _) := run words no_junk any_fd (start the_shared strict 0) over in Some st.

Example over_the_limit_is_scheduled :
  (let? st := scheduled in Some (clients_to_close st)) = Some [(0%nat, 1%nat)].
Proof. vm_compute. reflexivity. Qed.

(** A logged-in user is among those its own release notifies.  The message
    puts the client into the queue a second time; [freeClient] then removes
    the first of the two nodes, which its caller removes once more. *)
Definition goodbye (st : ostate) (p : nat) : list (nat * list Z) :=
  [(p, bytes_of_string "userinfo ok alice off" ++ [13; 10])].

Example closing_a_user_frees_a_node_twice :
  (let? st := scheduled in freeClientsInAsyncFreeQueue words no_junk any_fd 10 goodbye st) = None.
Proof. vm_compute. reflexivity. Qed.

Definition scheduled_state : ostate := default (start the_shared strict 0) scheduled.

Lemma scheduled_inv : oinv the_shared words None scheduled_state.
Proof.
  assert (oops_ok the_shared any_fd (views (start the_shared strict 0)) over) as Hx.
  { repeat split; try discriminate; try (apply Z.leb_le; vm_compute; reflexivity);
      eexists; split; try (vm_compute; reflexivity). }
  destruct (object_run_ok the_shared words no_junk any_fd words_bounds over _ (object_start_inv the_shared words words_bounds strict 0 shared_ok eq_refl) Hx)
    as (st & out & E & Hi & _).
  unfold scheduled_state, scheduled. rewrite E. exact Hi.
Qed.

Definition quiet (st : ostate) (p : nat) : list (nat * list Z) := [].

Lemma scheduled_room : room (views scheduled_state) (0 * Z.of_nat 1).
Proof.
  intros q v Hq. assert (q = 1%nat) as ->.
  { assert (dom (views scheduled_state) = {[1%nat]}) as Hd by (vm_compute; reflexivity).
    apply elem_of_dom_2 in Hq. rewrite Hd in Hq. by apply elem_of_singleton in Hq. }
  assert (length <$> (reply <$> views scheduled_state !! 1%nat) = Some 1%nat) as Hl by (vm_compute; reflexivity).
  rewrite Hq in Hl. injection Hl as ->. unfold MAX_OBJECTS. lia.
Qed.

Lemma async_queue_freed_witness :
  exists st', freeClientsInAsyncFreeQueue words no_junk any_fd 1 quiet scheduled_state = Some st' /\
    oinv the_shared words None st' /\ clients_to_close st' = [] /\ dom (views st') ⊆ dom (views scheduled_state) /\
    forall p, p ∈ (clients_to_close scheduled_state).*2 -> p ∉ dom (views st').
Proof.
  apply (async_queue_freed the_shared words no_junk any_fd words_bounds 0 quiet).
  - intros st p. split; [done|constructor].
  - exact scheduled_inv.
  - vm_compute. reflexivity.
  - exact scheduled_room.
Defined.

End Demo.

End ObjectRuns.
