(* ===== verification/Command.v ===== *)
(** * redis.c: the command table and the dispatcher

    The table of this server has four rows; the rest of Redis' commands is
    compiled out.  [processCommand] looks a request up, applies the guards in
    order and calls the command or refuses it. *)

From Stdlib Require Import Ascii.
From S2P Require Import Prelude Dict DictSpec Reply UserTable Sds Util Query.
Import HashTable Output Users Query.

Module Command.

Definition REDIS_CMD_WRITE : Z := 1.
Definition REDIS_CMD_READONLY : Z := 2.
Definition REDIS_CMD_DENYOOM : Z := 4.
Definition REDIS_CMD_ADMIN : Z := 16.
Definition REDIS_CMD_PUBSUB : Z := 32.
Definition REDIS_CMD_NOSCRIPT : Z := 64.
Definition REDIS_CMD_RANDOM : Z := 128.
Definition REDIS_CMD_SORT_FOR_SCRIPT : Z := 256.
Definition REDIS_CMD_LOADING : Z := 512.
Definition REDIS_CMD_STALE : Z := 1024.
Definition REDIS_CMD_SKIP_MONITOR : Z := 2048.

Definition REDIS_DIRTY_EXEC : Z := 1 ≪ 12.
Definition REDIS_FORCE_AOF : Z := 1 ≪ 14.
Definition REDIS_FORCE_REPL : Z := 1 ≪ 15.
Definition REDIS_REPL_CONNECTED : Z := 5.
Definition REDIS_PROPAGATE_AOF : Z := 1.
Definition REDIS_PROPAGATE_REPL : Z := 2.
Definition REDIS_OK : Z := 0.
Definition REDIS_ERR : Z := -1.

(** ** The table *)

(** [proc] is the name of the C function. *)
Record redisCommand := RedisCommand {
  cname : list Z;
  proc : string;
  arity : Z;
  sflags : string;
  cflags : Z
}.

Definition redisCommandTable : list redisCommand :=
  [RedisCommand (bytes_of_string "chat") "chatCommand" 4 "wm" 0;
   RedisCommand (bytes_of_string "node") "nodeCommand" 4 "wm" 0;
   RedisCommand (bytes_of_string "register") "registerCommand" 6 "wm" 0;
   RedisCommand (bytes_of_string "r") "registerCommand" 6 "wm" 0].

(** One letter of [sflags]; [None] is the panic. *)
Definition flag_of (f : Ascii.ascii) : option Z :=
  match f with
  | "w"%char => Some REDIS_CMD_WRITE
  | "r"%char => Some REDIS_CMD_READONLY
  | "m"%char => Some REDIS_CMD_DENYOOM
  | "a"%char => Some REDIS_CMD_ADMIN
  | "p"%char => Some REDIS_CMD_PUBSUB
  | "s"%char => Some REDIS_CMD_NOSCRIPT
  | "R"%char => Some REDIS_CMD_RANDOM
  | "S"%char => Some REDIS_CMD_SORT_FOR_SCRIPT
  | "l"%char => Some REDIS_CMD_LOADING
  | "t"%char => Some REDIS_CMD_STALE
  | "M"%char => Some REDIS_CMD_SKIP_MONITOR
  | _ => None
  end.

Fixpoint parse_flags (f : string) (acc : Z) : option Z :=
  match f with
  | EmptyString => Some acc
  | String a f => let? x := flag_of a in parse_flags f (acc |. x)
  end.

Section Commands.
Context {D : Type} `{!UserDict D nat}.

(** The two dictionaries map a name to its row; the rows with the parsed
    flags are collected in order. *)
Fixpoint populate (rows : list redisCommand) (j : nat) (commands orig : D) (tbl : list redisCommand)
  : option (D * D * list redisCommand) :=
  match rows with
  | [] => Some (commands, orig, tbl)
  | c :: rows =>
      let? fl := parse_flags (sflags c) (cflags c) in
      let? (commands, retval1) := ud_add commands (sdsnew (cname c)) j in
      let? (orig, retval2) := ud_add orig (sdsnew (cname c)) j in
      if (retval1 =? DICT_OK) && (retval2 =? DICT_OK)
      then populate rows (S j) commands orig
             (tbl ++ [RedisCommand (cname c) (proc c) (arity c) (sflags c) fl])
      else None
  end.

Definition populateCommandTable : option (D * D * list redisCommand) :=
  populate redisCommandTable 0 ud_create ud_create [].

(** A name with an embedded NUL byte is hashed to its full length but
    compared as a C string: it is found exactly when it falls into the bucket
    of the part before the NUL. *)
Context (same_bucket : D -> list Z -> bool).

Definition lookupCommand (commands : D) (tbl : list redisCommand) (name : list Z)
  : option (D * option redisCommand) :=
  if nonul name || same_bucket commands name then
    let? (commands, j) := ud_fetch commands (sdsnew name) in
    match j with
    | Some j => let? c := tbl !! j in Some (commands, Some c)
    | None => Some (commands, None)
    end
  else Some (commands, None).

(** ** Dispatch *)

(** The fields of [server] the guards read.  [free_memory] is what
    [freeMemoryIfNeeded] returns, [aof_errno] the text of [strerror]. *)
Record config := Config {
  requirepass : bool;
  maxmemory : Z;
  free_memory : Z;
  stop_writes_on_bgsave_err : bool;
  saveparamslen : Z;
  lastbgsave_status : Z;
  aof_last_write_status : Z;
  aof_errno : list Z;
  masterhost : bool;
  repl_min_slaves_to_write : Z;
  repl_min_slaves_max_lag : Z;
  repl_good_slaves_count : Z;
  repl_slave_ro : bool;
  repl_state : Z;
  repl_serve_stale_data : bool;
  loading : bool;
  lua_timedout : bool;
  monitors : Z
}.

(** The fields of the client beyond its output side. *)
Record fclient := FClient {
  authenticated : bool;
  pubsub_channels : Z;
  pubsub_patterns : Z;
  mstate : list (redisCommand * list (list Z))
}.

(** What [call] tells other parts of the server. *)
Inductive effect :=
  | FeedMonitors (argv : list (list Z))
  | Slowlog (argv : list (list Z))
  | Stats (name : list Z)
  | LuaForce (fl : Z)
  | Propagate (name : list Z) (argv : list (list Z)) (fl : Z).

Context (ae : Z -> bool).

Definition addReply (o : outbuf) (s : string) : outbuf :=
  addReplyString ae o (bytes_of_string s ++ CRLF).

Definition flagTransaction (o : outbuf) : outbuf :=
  if has_flag o REDIS_MULTI then set_flags o (flags o |. REDIS_DIRTY_EXEC) else o.

Definition has_cmd_flag (c : redisCommand) (f : Z) : bool := negb (cflags c &. f =? 0).

Definition proc_is (c : redisCommand) (p : string) : bool := String.eqb (proc c) p.

(** There are two words and the second begins with the letter, in any case. *)
Definition second_word_is (argv : list (list Z)) (letter : Z) : bool :=
  match argv with
  | [_; a] => bool_decide (tolower <$> head (cstr a) = Some letter)
  | _ => false
  end.

(** The guards between the lookup and the execution, in their order: the
    output of the client when one of them refuses. *)
Definition gate (g : config) (c : fclient) (o : outbuf) (cmd : redisCommand) (argv : list (list Z))
  : option outbuf :=
  if requirepass g && negb (authenticated c) && negb (proc_is cmd "authCommand") then
    Some (addReply (flagTransaction o) "-NOAUTH Authentication required.")
  else if negb (maxmemory g =? 0) && has_cmd_flag cmd REDIS_CMD_DENYOOM && (free_memory g =? REDIS_ERR) then
    Some (addReply (flagTransaction o) "-OOM command not allowed when used memory > 'maxmemory'.")
  else if ((stop_writes_on_bgsave_err g && (0 <? saveparamslen g) && (lastbgsave_status g =? REDIS_ERR))
           || (aof_last_write_status g =? REDIS_ERR)) && negb (masterhost g) &&
          (has_cmd_flag cmd REDIS_CMD_WRITE || proc_is cmd "pingCommand") then
    Some (if aof_last_write_status g =? REDIS_OK
          then addReply (flagTransaction o) "-MISCONF Redis is configured to save RDB snapshots, but is currently not able to persist on disk. Commands that may modify the data set are disabled. Please check Redis logs for details about the error."
          else addReplySds ae (flagTransaction o)
                 (bytes_of_string "-MISCONF Errors writing to the AOF file: " ++ aof_errno g ++ CRLF))
  else if negb (repl_min_slaves_to_write g =? 0) && negb (repl_min_slaves_max_lag g =? 0) &&
          has_cmd_flag cmd REDIS_CMD_WRITE && (repl_good_slaves_count g <? repl_min_slaves_to_write g) then
    Some (addReply (flagTransaction o) "-NOREPLICAS Not enough good slaves to write.")
  else if masterhost g && repl_slave_ro g && negb (has_flag o REDIS_MASTER) &&
          has_cmd_flag cmd REDIS_CMD_WRITE then
    Some (addReply o "-READONLY You can't write against a read only slave.")
  else if ((0 <? pubsub_channels c) || (0 <? pubsub_patterns c)) &&
          negb (proc_is cmd "subscribeCommand") && negb (proc_is cmd "unsubscribeCommand") &&
          negb (proc_is cmd "psubscribeCommand") && negb (proc_is cmd "punsubscribeCommand") then
    Some (addReplyError ae o
            (bytes_of_string "only (P)SUBSCRIBE / (P)UNSUBSCRIBE / QUIT allowed in this context"))
  else if masterhost g && negb (repl_state g =? REDIS_REPL_CONNECTED) && negb (repl_serve_stale_data g) &&
          negb (has_cmd_flag cmd REDIS_CMD_STALE) then
    Some (addReply (flagTransaction o) "-MASTERDOWN Link with MASTER is down and slave-serve-stale-data is set to 'no'.")
  else if loading g && negb (has_cmd_flag cmd REDIS_CMD_LOADING) then
    Some (addReply o "-LOADING Redis is loading the dataset in memory")
  else if lua_timedout g && negb (proc_is cmd "authCommand") && negb (proc_is cmd "replconfCommand") &&
          negb (proc_is cmd "shutdownCommand" && second_word_is argv 110) &&
          negb (proc_is cmd "scriptCommand" && second_word_is argv 107) then
    Some (addReply (flagTransaction o) "-BUSY Redis is busy running a script. You can only call SCRIPT KILL or SHUTDOWN NOSAVE.")
  else None.

Section Run.

(** The rest of the server: a command procedure acts on it and on the
    client's output and flags, and reports by how much it changed
    [server.dirty]. *)
Context {W : Type} (run_proc : string -> W -> outbuf -> list (list Z) -> option (W * outbuf * Z)).

(** The dispatcher's state: the configuration, the dictionary of commands and
    its rows, the client, the counter of commands, the effects so far and the
    rest of the server. *)
Record front := Front {
  cfg : config;
  commands : D;
  tbl : list redisCommand;
  cl : fclient;
  stat_numcommands : Z;
  trace : list effect;
  world : W
}.

Definition set_commands (s : front) (d : D) : front :=
  Front (cfg s) d (tbl s) (cl s) (stat_numcommands s) (trace s) (world s).
Definition queue_multi (s : front) (cmd : redisCommand) (argv : list (list Z)) : front :=
  let c := cl s in
  Front (cfg s) (commands s) (tbl s)
    (FClient (authenticated c) (pubsub_channels c) (pubsub_patterns c) (mstate c ++ [(cmd, argv)]))
    (stat_numcommands s) (trace s) (world s).

(** [call(c, REDIS_CALL_FULL)].  No command of the table uses
    [alsoPropagate], and a Lua client always has a caller. *)
Definition call (s : front) (o : outbuf) (cmd : redisCommand) (argv : list (list Z))
  : option (front * outbuf) :=
  let g := cfg s in
  let feed := if negb (monitors g =? 0) && negb (loading g) && negb (has_cmd_flag cmd REDIS_CMD_SKIP_MONITOR)
              then [FeedMonitors argv] else [] in
  let client_old_flags := flags o in
  let force := REDIS_FORCE_AOF |. REDIS_FORCE_REPL in
  let? (w, o, dirty) := run_proc (proc cmd) (world s) (set_flags o (flags o &. ~. force)) argv in
  let quiet := loading g && has_flag o REDIS_LUA_CLIENT in
  let lua := if has_flag o REDIS_LUA_CLIENT then [LuaForce (flags o &. force)] else [] in
  let log := if negb quiet && negb (proc_is cmd "execCommand") then [Slowlog argv] else [] in
  let stats := if negb quiet then [Stats (cname cmd)] else [] in
  let pf := (if has_flag o REDIS_FORCE_REPL then REDIS_PROPAGATE_REPL else 0) |.
            (if has_flag o REDIS_FORCE_AOF then REDIS_PROPAGATE_AOF else 0) |.
            (if negb (dirty =? 0) then REDIS_PROPAGATE_REPL |. REDIS_PROPAGATE_AOF else 0) in
  let prop := if negb (pf =? 0) then [Propagate (cname cmd) argv pf] else [] in
  let o := set_flags o ((flags o &. ~. force) |. (client_old_flags &. force)) in
  Some (Front g (commands s) (tbl s) (cl s) (stat_numcommands s + 1)
          (trace s ++ feed ++ lua ++ log ++ stats ++ prop) w, o).

(** The result is [true] for [REDIS_OK]: the client is reset. *)
Definition processCommand (s : front) (o : outbuf) (argv : list (list Z)) : option (front * outbuf * bool) :=
  let? name := head argv in
  if strcaseeq name (bytes_of_string "quit") then
    let o := addReply o "+OK" in
    Some (s, set_flags o (flags o |. REDIS_CLOSE_AFTER_REPLY), false)
  else
    let? (d, cmd) := lookupCommand (commands s) (tbl s) name in
    let s := set_commands s d in
    match cmd with
    | None =>
        Some (s, addReplyErrorFormat ae (flagTransaction o)
                   (bytes_of_string "unknown command '" ++ cstr name ++ [39]), true)
    | Some cmd =>
        if ((0 <? arity cmd) && negb (arity cmd =? zlen argv)) || (zlen argv <? - arity cmd) then
          Some (s, addReplyErrorFormat ae (flagTransaction o)
                     (bytes_of_string "wrong number of arguments for '" ++ cname cmd ++
                      bytes_of_string "' command"), true)
        else match gate (cfg s) (cl s) o cmd argv with
             | Some o => Some (s, o, true)
             | None =>
                 if has_flag o REDIS_MULTI && negb (proc_is cmd "execCommand") &&
                    negb (proc_is cmd "discardCommand") && negb (proc_is cmd "multiCommand") &&
                    negb (proc_is cmd "watchCommand")
                 then Some (queue_multi s cmd argv, addReply o "+QUEUED", true)
                 else let? (s, o) := call s o cmd argv in Some (s, o, true)
             end
    end.

End Run.

End Commands.
Arguments front : clear implicits.

End Command.
