(* ===== verification/QuerySpec.v ===== *)
(** * The request parser inverts the protocol encoding

    The reference is the encoder of the protocol.  Whatever way a stream of
    encoded commands is cut into reads, the parser hands exactly these
    commands to [processCommand], in order. *)

From S2P Require Import Prelude Reply Sds Util Query.

Module QueryProofs.
Import Output Sds Util Query.

(** ** The encoder *)

Definition enc_header (mark n : Z) : list Z := (mark :: fmt_d n) ++ CRLF.
Definition enc_bulk (a : list Z) : list Z := enc_header 36 (zlen a) ++ a ++ CRLF.
Definition encode (args : list (list Z)) : list Z :=
  enc_header 42 (zlen args) ++ concat (enc_bulk <$> args).

Definition arg_ok (a : list Z) : Prop := zlen a <= 512 * 1024 * 1024.
Definition cmd_ok (args : list (list Z)) : Prop :=
  args <> [] /\ zlen args <= 1024 * 1024 /\ Forall arg_ok args.

(** ** Headers *)

Lemma header_mark_ok mark n c : 0 <= n -> mark = 36 \/ mark = 42 -> c = 0 \/ c = 13 -> c ∉ mark :: fmt_d n.
Proof.
  intros Hn Hm Hc [E|Hin]%elem_of_cons; [lia|].
  pose proof (fmt_d_chars n Hn) as HF. rewrite Forall_forall in HF. specialize (HF c Hin). simpl in HF. lia.
Qed.

Lemma length_header mark n : 0 <= n -> 4 <= zlen (enc_header mark n) <= 24.
Proof.
  intros Hn. unfold enc_header. rewrite length_app. cbn [length CRLF]. pose proof (length_fmt_d n).
  assert (fmt_d n <> []) as Hne.
  { unfold fmt_d. rewrite (proj2 (Z.ltb_ge n 0)) by done. change 20%nat with (S 19). cbn [digits].
    destruct (n <? 10); [done|]. intros E. by apply app_nil in E as [_ ?]. }
  destruct (fmt_d n); [done|]. simpl in *. lia.
Qed.

(** Looking for the end of a header in the received part [X] of a stream:
    it is incomplete, or it is there and followed by [X']. *)
Lemma header_split mark n X T R :
  0 <= n -> mark = 36 \/ mark = 42 -> X ++ T = enc_header mark n ++ R ->
  (zlen X < zlen (enc_header mark n) /\
   (strchr 13 X = None \/ exists i, strchr 13 X = Some i /\ zlen X - 2 < i)) \/
  (exists X', X = enc_header mark n ++ X' /\ X' ++ T = R /\
     strchr 13 X = Some (zlen (mark :: fmt_d n)) /\ zlen (mark :: fmt_d n) <= zlen X - 2).
Proof.
  intros Hn Hm E. pose proof (header_mark_ok mark n 0 Hn Hm ltac:(auto)) as H0.
  pose proof (header_mark_ok mark n 13 Hn Hm ltac:(auto)) as H13.
  unfold enc_header in *. set (h := mark :: fmt_d n) in *. rewrite <- app_assoc in E.
  apply app_eq_inv in E as [(k & -> & E)|(k & E & _)].
  - destruct k as [|a k]; [left; rewrite app_nil_r, length_app; split; [simpl; lia|]; left; by apply strchr_None|].
    cbn [app CRLF] in E. injection E as <- E. destruct k as [|b k].
    + left. rewrite !length_app. split; [simpl; lia|]. right. exists (zlen h).
      split; [by apply strchr_Some|]. simpl. lia.
    + cbn [app] in E. injection E as <- E. right. exists k. split; [by rewrite <- app_assoc|]. split; [done|].
      split; [by apply strchr_Some|]. rewrite length_app. simpl. lia.
  - left. rewrite E in H13 |- *. rewrite !length_app. split; [simpl; lia|]. left. apply strchr_None.
    intros Hin. apply H13, elem_of_app. by left.
Qed.

Section Parser.
Context (ae : Z -> bool).

(** ** Bulks *)

(** What the client still expects of the current command, [rest] being the
    arguments not complete yet. *)
Definition remaining (c : qclient) (rest : list (list Z)) : list Z :=
  if bulklen c =? -1 then concat (enc_bulk <$> rest)
  else match rest with a :: rest => a ++ CRLF ++ concat (enc_bulk <$> rest) | [] => [] end.

(** The part [X] of the stream that was received does not hold the next
    piece. *)
Definition waits_for (c : qclient) (rest : list (list Z)) (X : list Z) : Prop :=
  match rest with
  | [] => False
  | a :: _ => if bulklen c =? -1 then zlen X < zlen (enc_header 36 (zlen a)) else zlen X < bulklen c + 2
  end.

(** The client is inside a command with [done] complete arguments. *)
Definition inside (c : qclient) (done rest : list (list Z)) : Prop :=
  argv c = done /\ multibulklen c = zlen rest /\
  (bulklen c = -1 \/ exists a rest', rest = a :: rest' /\ bulklen c = zlen a) /\ Forall arg_ok rest.

(** Only the parser's own fields differ. *)
Definition same_client (c c' : qclient) : Prop :=
  io c' = io c /\ querybuf_peak c' = querybuf_peak c /\ reqtype c' = reqtype c /\
  repl_ack_time c' = repl_ack_time c.

(** The buffer is short, or is filled with nothing but a large argument. *)
Definition buffer_ok (c : qclient) (pos : Z) : Prop :=
  zlen (querybuf c) <= REDIS_INLINE_MAX_SIZE \/
  (pos = 0 /\ REDIS_MBULK_BIG_ARG <= bulklen c /\ zlen (querybuf c) <= bulklen c + 2).

Lemma read_bulklen_spec c pos a rest T R :
  bulklen c = -1 -> 0 <= pos <= zlen (querybuf c) -> arg_ok a -> zlen (querybuf c) <= REDIS_INLINE_MAX_SIZE ->
  drop (Z.to_nat pos) (querybuf c) ++ T = concat (enc_bulk <$> (a :: rest)) ++ R ->
  (read_bulklen ae c pos = inl (Bulks c pos) /\
   zlen (drop (Z.to_nat pos) (querybuf c)) < zlen (enc_header 36 (zlen a))) \/
  exists qb pos', read_bulklen ae c pos = inr (set_bulklen (set_querybuf c qb) (zlen a), pos') /\
    0 <= pos' <= zlen qb /\ zlen qb <= zlen (querybuf c) /\
    drop (Z.to_nat pos') qb ++ T = a ++ CRLF ++ concat (enc_bulk <$> rest) ++ R.
Proof.
  intros Hb Hpos Ha Hlen E. unfold read_bulklen. rewrite Hb. change (-1 =? -1) with true. cbn iota.
  set (X := drop (Z.to_nat pos) (querybuf c)) in *.
  assert (zlen X = zlen (querybuf c) - pos) as HX by (unfold X; rewrite length_drop; lia).
  cbn [fmap list_fmap concat] in E. unfold enc_bulk at 1 in E. rewrite <- !app_assoc in E.
  destruct (header_split 36 (zlen a) X T _ ltac:(lia) ltac:(auto) E)
    as [[Hs [Hn|(i & Hi & Hi2)]]|(X' & HX' & ET & Hi & Hle)].
  - left. rewrite Hn. split; [|done]. rewrite (proj2 (Z.ltb_ge _ _)) by done. done.
  - left. rewrite Hi. split; [|done]. by rewrite (proj2 (Z.ltb_lt _ _)) by lia.
  - right. rewrite Hi. rewrite (proj2 (Z.ltb_ge _ _)) by lia.
    assert (zget (querybuf c) pos = Some 36) as ->.
    { apply zget_Some. split; [lia|]. rewrite <- (Nat.add_0_r (Z.to_nat pos)), <- lookup_drop.
      fold X. by rewrite HX'. }
    change (36 =? 36) with true. cbn [negb].
    assert (take (Z.to_nat (pos + zlen (36 :: fmt_d (zlen a)) - (pos + 1)))
      (drop (Z.to_nat (pos + 1)) (querybuf c)) = fmt_d (zlen a)) as ->.
    { replace (Z.to_nat (pos + 1)) with (Z.to_nat pos + 1)%nat by lia. rewrite <- drop_drop. fold X. rewrite HX'.
      unfold enc_header. rewrite <- app_assoc. cbn [app length]. rewrite skipn_cons, drop_0.
      replace (Z.to_nat _) with (length (fmt_d (zlen a))) by lia. by rewrite take_app_length. }
    rewrite string2ll_fmt_d by (unfold arg_ok in Ha; change LLONG_MIN with (-9223372036854775808);
      change LLONG_MAX with 9223372036854775807; lia).
    unfold arg_ok in Ha. rewrite (proj2 (Z.ltb_ge (zlen a) 0)), (proj2 (Z.ltb_ge _ (zlen a))) by lia. cbn [orb].
    assert (drop (Z.to_nat (pos + zlen (36 :: fmt_d (zlen a)) + 2)) (querybuf c) = X') as Hdrop.
    { replace (Z.to_nat _) with (Z.to_nat pos + length (enc_header 36 (zlen a)))%nat
        by (unfold enc_header; rewrite length_app; simpl; lia).
      rewrite <- drop_drop. fold X. rewrite HX'. by rewrite drop_app_length. }
    assert (zlen X' = zlen X - zlen (36 :: fmt_d (zlen a)) - 2) as HlX'.
    { rewrite HX'. unfold enc_header. rewrite !length_app. simpl. lia. }
    destruct (REDIS_MBULK_BIG_ARG <=? zlen a).
    + rewrite sdsrange_from, Hdrop by lia. exists X', 0.
      split; [done|]. split; [lia|]. split; [lia|]. by rewrite drop_0, ET.
    + exists (querybuf c), (pos + zlen (36 :: fmt_d (zlen a)) + 2).
      split; [by destruct c|]. split; [lia|]. split; [lia|]. by rewrite Hdrop, ET.
Qed.

(** How the loop over the bulks ends when the stream holds the arguments
    [rest] and then [R]. *)
Definition bulks_outcome (c c' : qclient) (pos' : Z) (done rest : list (list Z)) (T R : list Z) : Prop :=
  same_client c c' /\ 0 <= pos' <= zlen (querybuf c') /\
  exists done' rest', done ++ rest = done' ++ rest' /\ inside c' done' rest' /\
    drop (Z.to_nat pos') (querybuf c') ++ T = remaining c' rest' ++ R /\
    (rest' = [] /\ bulklen c' = -1 \/ waits_for c' rest' (drop (Z.to_nat pos') (querybuf c'))).

Lemma bulk_loop_spec rest : forall done c pos T R,
  inside c done rest -> 0 <= pos <= zlen (querybuf c) -> buffer_ok c pos ->
  drop (Z.to_nat pos) (querybuf c) ++ T = remaining c rest ++ R -> (bulklen c <> -1 -> rest <> []) ->
  exists c' pos', bulk_loop ae (length rest) c pos = Bulks c' pos' /\
    bulks_outcome c c' pos' done rest T R.
Proof.
  induction rest as [|a rest IH]; intros done c pos T R (Hargv & Hmb & Hbl & Hok) Hpos Hbuf E Hnb.
  { cbn [length bulk_loop]. destruct Hbl as [Hbl|(? & ? & ? & _)]; [|done].
    exists c, pos. split; [done|]. split; [done|]. split; [done|]. exists done, [].
    split; [done|]. split; [split; [done|]; split; [done|]; split; [by left|done]|]. split; [done|]. by left. }
  cbn [length bulk_loop]. apply Forall_cons in Hok as [Ha Hrest0].
  assert (forall c1 pos1, same_client c c1 -> argv c1 = done -> multibulklen c1 = zlen (a :: rest) ->
    bulklen c1 = zlen a -> 0 <= pos1 <= zlen (querybuf c1) -> buffer_ok c1 pos1 ->
    drop (Z.to_nat pos1) (querybuf c1) ++ T = a ++ CRLF ++ concat (enc_bulk <$> rest) ++ R ->
    exists c' pos',
      (if zlen (querybuf c1) - pos1 <? bulklen c1 + 2 then Bulks c1 pos1
       else if (pos1 =? 0) && (REDIS_MBULK_BIG_ARG <=? bulklen c1) && (zlen (querybuf c1) =? bulklen c1 + 2)
       then bulk_loop ae (length rest)
              (set_multibulklen (set_bulklen (set_querybuf
                 (set_argv c1 (argv c1 ++ [take (Z.to_nat (zlen (querybuf c1) - 2)) (querybuf c1)])) []) (-1))
                 (multibulklen c1 - 1)) 0
       else bulk_loop ae (length rest)
              (set_multibulklen (set_bulklen
                 (set_argv c1 (argv c1 ++ [take (Z.to_nat (bulklen c1)) (drop (Z.to_nat pos1) (querybuf c1))])) (-1))
                 (multibulklen c1 - 1)) (pos1 + bulklen c1 + 2)) = Bulks c' pos' /\
      bulks_outcome c c' pos' done (a :: rest) T R) as Hdata.
  { intros c1 pos1 Hsame Hargv1 Hmb1 Hbl1 Hpos1 Hbuf1 E1.
    assert (zlen (drop (Z.to_nat pos1) (querybuf c1)) = zlen (querybuf c1) - pos1) as HX
      by (rewrite length_drop; lia).
    assert ((bulklen c1 =? -1) = false) as Hb1 by (apply Z.eqb_neq; lia).
    destruct (Z.ltb_spec (zlen (querybuf c1) - pos1) (bulklen c1 + 2)) as [Hshort|Hlong].
    - exists c1, pos1. split; [done|]. split; [done|]. split; [done|]. exists done, (a :: rest).
      split; [done|]. split; [split; [done|]; split; [done|]; split; [right; eauto|by constructor]|].
      split; [unfold remaining; rewrite Hb1; by rewrite E1, <- !app_assoc|].
      right. unfold waits_for. rewrite Hb1, HX. lia.
    - rewrite app_assoc in E1. apply app_long in E1 as (k & Hk & E1);
        [|rewrite length_app; simpl (length CRLF); lia].
      assert (take (Z.to_nat (bulklen c1)) (drop (Z.to_nat pos1) (querybuf c1)) = a) as Harg.
      { rewrite Hbl1, Nat2Z.id, Hk, <- app_assoc. by rewrite take_app_length. }
      assert (forall qb pos2, drop (Z.to_nat pos2) qb = k -> 0 <= pos2 <= zlen qb ->
        zlen qb <= REDIS_INLINE_MAX_SIZE ->
        exists c' pos', bulk_loop ae (length rest)
          (set_multibulklen (set_bulklen (set_querybuf (set_argv c1 (argv c1 ++ [a])) qb) (-1))
             (multibulklen c1 - 1)) pos2 = Bulks c' pos' /\
          bulks_outcome c c' pos' done (a :: rest) T R) as Hnext.
      { intros qb pos2 Hqb Hpos2 Hsz. set (c2 := set_multibulklen _ _).
        destruct (IH (done ++ [a]) c2 pos2 T R) as (c' & pos' & -> & Hs' & Hp' & d' & r' & Ed & Hrest).
        - split; [cbn; by rewrite Hargv1|]. split; [cbn; rewrite Hmb1; simpl; lia|]. split; [by left|done].
        - done.
        - by left.
        - cbn [c2 set_multibulklen set_bulklen set_querybuf querybuf]. by rewrite Hqb, E1.
        - done.
        - exists c', pos'. split; [done|]. split; [|split; [done|]].
          + destruct Hsame as (?&?&?&?), Hs' as (S1&S2&S3&S4). cbn in S1, S2, S3, S4. split; [congruence|]. split; [congruence|]. split; congruence.
          + exists d', r'. split; [by rewrite <- Ed, <- app_assoc|]. done. }
      destruct ((pos1 =? 0) && (REDIS_MBULK_BIG_ARG <=? bulklen c1) && (zlen (querybuf c1) =? bulklen c1 + 2)) eqn:Ebig.
      + apply andb_true_iff in Ebig as [[->%Z.eqb_eq _]%andb_true_iff Hsz%Z.eqb_eq].
        replace (zlen (querybuf c1) - 2) with (bulklen c1) by lia.
        change (Z.to_nat 0) with 0%nat in *. rewrite drop_0 in *. rewrite Harg. apply Hnext; [|done|done].
        symmetry. apply nil_length_inv. apply (f_equal length) in Hk. rewrite !length_app in Hk. simpl in Hk. lia.
      + rewrite Harg. replace (set_argv c1 (argv c1 ++ [a]))
          with (set_querybuf (set_argv c1 (argv c1 ++ [a])) (querybuf c1)) by (by destruct c1).
        apply Hnext; [|lia|].
        * replace (Z.to_nat (pos1 + bulklen c1 + 2)) with (Z.to_nat pos1 + length (a ++ CRLF))%nat
            by (rewrite length_app; simpl (length CRLF); lia).
          rewrite <- drop_drop, Hk. by rewrite drop_app_length.
        * destruct Hbuf1 as [?|(-> & Hb & Hq)]; [done|].
          rewrite (proj2 (Z.eqb_eq 0 0) eq_refl), (proj2 (Z.leb_le _ _) Hb) in Ebig. cbn [andb] in Ebig.
          apply Z.eqb_neq in Ebig. lia. }
  destruct Hbl as [Hbl|(a' & rest' & [= <- <-] & Hbl)].
  - destruct Hbuf as [Hbuf|(_ & Hbig & _)]; [|change REDIS_MBULK_BIG_ARG with 32768 in Hbig; lia].
    unfold remaining in E. rewrite Hbl in E. change (-1 =? -1) with true in E. cbn iota in E.
    destruct (read_bulklen_spec c pos a rest T R Hbl Hpos Ha Hbuf E) as [[-> Hw]|(qb & pos' & -> & Hp' & Hq' & E')].
    + exists c, pos. split; [done|]. split; [done|]. split; [done|]. exists done, (a :: rest).
      split; [done|]. split; [split; [done|]; split; [done|]; split; [by left|by constructor]|].
      split; [unfold remaining; rewrite Hbl; done|]. right. unfold waits_for. by rewrite Hbl.
    + apply Hdata; try done. left. cbn. lia.
  - assert ((bulklen c =? -1) = false) as Hb1 by (apply Z.eqb_neq; lia).
    unfold read_bulklen. rewrite Hb1. unfold remaining in E. rewrite Hb1, <- !app_assoc in E. by apply Hdata.
Qed.

(** ** Requests *)

(** What is left of the stream after parsing the command [args]. *)
Definition parse_outcome (c c' : qclient) (ok : bool) (args : list (list Z)) (T R : list Z) : Prop :=
  same_client c c' /\
  if ok then argv c' = args /\ multibulklen c' = 0 /\ bulklen c' = -1 /\ querybuf c' ++ T = R
  else exists done rest, args = done ++ rest /\ rest <> [] /\ inside c' done rest /\
         waits_for c' rest (querybuf c') /\ querybuf c' ++ T = remaining c' rest ++ R.

Lemma trim_to_pos c pos : 0 <= pos ->
  (if negb (pos =? 0) then set_querybuf c (sdsrange (querybuf c) pos (-1)) else c) =
  set_querybuf c (drop (Z.to_nat pos) (querybuf c)).
Proof.
  intros Hp. destruct (Z.eqb_spec pos 0) as [->|]; cbn [negb]; [by destruct c|]. by rewrite sdsrange_from.
Qed.

Lemma bulks_spec c done rest pos T R :
  inside c done rest -> rest <> [] -> 0 <= pos <= zlen (querybuf c) -> buffer_ok c pos ->
  drop (Z.to_nat pos) (querybuf c) ++ T = remaining c rest ++ R ->
  exists ok c', process_bulks ae c pos = Some (ok, c') /\ parse_outcome c c' ok (done ++ rest) T R.
Proof.
  intros Hin Hne Hpos Hbuf E. pose proof Hin as (_ & Hmb & _ & _). unfold process_bulks.
  rewrite (proj2 (Z.leb_gt (multibulklen c) 0)) by (rewrite Hmb; destruct rest; [done|simpl; lia]).
  rewrite Hmb, Nat2Z.id.
  destruct (bulk_loop_spec rest done c pos T R Hin Hpos Hbuf E ltac:(done))
    as (c' & pos' & -> & (S1 & S2 & S3 & S4) & Hp' & done' & rest' & Ed & Hin' & E' & Hend).
  cbn zeta. rewrite trim_to_pos by lia. eexists _, _. split; [done|]. split; [done|].
  pose proof Hin' as (Ha' & Hmb' & Hb' & Hok'). cbn [set_querybuf multibulklen argv bulklen querybuf].
  rewrite Hmb'. destruct rest' as [|a' rest'].
  - destruct Hend as [[_ Hbl]|[]]. cbn [length]. change (Z.of_nat 0 =? 0) with true. cbn iota.
    split; [by rewrite Ha', Ed, app_nil_r|]. split; [done|]. split; [done|].
    rewrite E'. unfold remaining. rewrite Hbl. done.
  - rewrite (proj2 (Z.eqb_neq _ 0)) by (simpl; lia). destruct Hend as [[? _]|Hw]; [done|].
    exists done', (a' :: rest'). split; [done|]. split; [done|]. done.
Qed.

(** Between commands. *)
Definition idle (c : qclient) : Prop :=
  argv c = [] /\ multibulklen c = 0 /\ bulklen c = -1 /\ (reqtype c = 0 \/ reqtype c = REDIS_REQ_MULTIBULK).

(** The stream ahead is the (rest of the) command [args], then [R]. *)
Definition ready (c : qclient) (args : list (list Z)) (T R : list Z) : Prop :=
  (idle c /\ querybuf c ++ T = encode args ++ R) \/
  (reqtype c = REDIS_REQ_MULTIBULK /\ exists done rest, args = done ++ rest /\ rest <> [] /\
     inside c done rest /\ querybuf c ++ T = remaining c rest ++ R).

(** The command [args] has not been received completely. *)
Definition stuck (c : qclient) (args : list (list Z)) : Prop :=
  (idle c /\ zlen (querybuf c) < zlen (enc_header 42 (zlen args))) \/
  (reqtype c = REDIS_REQ_MULTIBULK /\ exists done rest, args = done ++ rest /\ rest <> [] /\
     inside c done rest /\ waits_for c rest (querybuf c)).

Lemma process_request_spec unixtime c args T R :
  ready c args T R -> cmd_ok args -> querybuf c <> [] -> buffer_ok c 0 ->
  exists ok c', process_request ae unixtime c = Some (ok, c') /\ io c' = io c /\
    if ok then argv c' = args /\ multibulklen c' = 0 /\ bulklen c' = -1 /\ querybuf c' ++ T = R
    else ready c' args T R /\ stuck c' args.
Proof.
  intros Hready (Hargs & Hn & Hok) Hne Hbuf. unfold process_request.
  destruct Hready as [[(I1 & I2 & I3 & I4) E]|(Hreq & done & rest & -> & Hrest & Hin & E)].
  - assert (zget (querybuf c) 0 = Some 42) as H42.
    { destruct (querybuf c) as [|x qb]; [done|]. cbn in E. injection E as -> _. done. }
    assert (exists c1, (if reqtype c =? 0 then set_reqtype c (if bool_decide (zget (querybuf c) 0 = Some 42)
        then REDIS_REQ_MULTIBULK else REDIS_REQ_INLINE) else c) = c1 /\ c1 = set_reqtype c REDIS_REQ_MULTIBULK)
      as (c1 & -> & ->).
    { eexists. split; [done|]. rewrite bool_decide_eq_true_2 by done.
      destruct I4 as [->|Hr]; [done|]. rewrite Hr. cbn. destruct c. simpl in *. by subst. }
    cbn [set_reqtype reqtype]. change (REDIS_REQ_MULTIBULK =? REDIS_REQ_INLINE) with false.
    change (REDIS_REQ_MULTIBULK =? REDIS_REQ_MULTIBULK) with true. cbn iota.
    unfold processMultibulkBuffer. cbn [set_reqtype multibulklen argv querybuf]. rewrite I2.
    change (0 =? 0) with true. cbn iota. rewrite bool_decide_eq_true_2 by done. cbn [negb].
    assert (zlen (querybuf c) <= REDIS_INLINE_MAX_SIZE) as Hsz.
    { destruct Hbuf as [?|(_ & Hb & _)]; [done|]. rewrite I3 in Hb. change REDIS_MBULK_BIG_ARG with 32768 in Hb. lia. }
    assert (ready (set_reqtype c REDIS_REQ_MULTIBULK) args T R) as Hready'.
    { left. split; [|done]. split; [done|]. split; [done|]. split; [done|]. by right. }
    unfold encode in E. rewrite <- app_assoc in E.
    destruct (header_split 42 (zlen args) (querybuf c) T _ ltac:(lia) ltac:(auto) E)
      as [[Hs Hnl]|(X' & HX' & ET & Hi & Hle)].
    + exists false, (set_reqtype c REDIS_REQ_MULTIBULK). split; [|split; [done|]].
      * destruct Hnl as [->|(i & -> & Hi)].
        -- by rewrite (proj2 (Z.ltb_ge _ _)) by done.
        -- by rewrite (proj2 (Z.ltb_lt _ _)) by lia.
      * split; [done|]. left. split; [by destruct Hready' as [[? _]|(_ & d & r & _ & Hr & (_ & Hm & _) & _)];
          [done|cbn in Hm; rewrite I2 in Hm; destruct r; [done|simpl in Hm; lia]]|]. done.
    + rewrite Hi, (proj2 (Z.ltb_ge _ _)) by lia. rewrite bool_decide_eq_true_2 by done. cbn [negb].
      assert (take (Z.to_nat (zlen (42 :: fmt_d (zlen args)) - 1)) (drop 1 (querybuf c)) = fmt_d (zlen args)) as ->.
      { rewrite HX'. unfold enc_header. rewrite <- app_assoc. cbn [app]. rewrite skipn_cons, drop_0.
        replace (Z.to_nat _) with (length (fmt_d (zlen args))) by (simpl; lia). by rewrite take_app_length. }
      rewrite string2ll_fmt_d by (change LLONG_MIN with (-9223372036854775808);
        change LLONG_MAX with 9223372036854775807; lia).
      assert (0 < zlen args) as Hpos by (destruct args; [done|simpl; lia]).
      rewrite (proj2 (Z.ltb_ge _ (zlen args))), (proj2 (Z.leb_gt (zlen args) 0)) by lia.
      set (c2 := set_argv _ _). set (pos := zlen (42 :: fmt_d (zlen args)) + 2).
      assert (Z.to_nat pos = length (enc_header 42 (zlen args))) as Hpe
        by (unfold pos, enc_header; rewrite length_app; simpl; lia).
      destruct (bulks_spec c2 [] args pos T R) as (ok & c' & -> & (S1 & S2 & S3 & S4) & Hout).
      * split; [done|]. split; [done|]. split; [by left|done].
      * done.
      * unfold pos. cbn [c2 set_argv set_multibulklen set_reqtype querybuf]. lia.
      * by left.
      * cbn [c2 set_argv set_multibulklen set_reqtype querybuf]. rewrite Hpe, HX', drop_app_length.
        unfold remaining. cbn [c2 set_argv set_multibulklen set_reqtype bulklen]. rewrite I3. done.
      * exists ok, c'. split; [done|]. split; [done|]. destruct ok; [done|].
        destruct Hout as (d & r & Ed & Hr & Hin' & Hw & E'). cbn [app] in Ed.
        split; right; (split; [by rewrite S3|]); by exists d, r.
  - pose proof Hin as (_ & Hmb & _ & _).
    assert (multibulklen c <> 0) as Hmb0 by (rewrite Hmb; destruct rest; [done|simpl; lia]).
    rewrite Hreq. change (REDIS_REQ_MULTIBULK =? 0) with false. cbn iota. rewrite Hreq.
    change (REDIS_REQ_MULTIBULK =? REDIS_REQ_INLINE) with false.
    change (REDIS_REQ_MULTIBULK =? REDIS_REQ_MULTIBULK) with true. cbn iota.
    unfold processMultibulkBuffer. rewrite (proj2 (Z.eqb_neq (multibulklen c) 0)) by done.
    destruct (bulks_spec c done rest 0 T R) as (ok & c' & -> & (S1 & S2 & S3 & S4) & Hout); [done..|lia|done| |].
    { change (Z.to_nat 0) with 0%nat. by rewrite drop_0. }
    exists ok, c'. split; [done|]. split; [done|]. destruct ok; [done|].
    destruct Hout as (d & r & Ed & Hr & Hin' & Hw & E').
    split; right; (split; [by rewrite S3|]); by exists d, r.
Qed.

(** ** The input loop *)

Definition opened (o : outbuf) : Prop :=
  has_flag o REDIS_BLOCKED = false /\ has_flag o REDIS_CLOSE_AFTER_REPLY = false.

(** What [resetClient] does to the flags. *)
Definition reset_io (o : outbuf) : outbuf :=
  if negb (has_flag o REDIS_MULTI) then set_flags o (flags o &. ~. REDIS_ASKING) else o.

Lemma resetClient_io c : io (resetClient c) = reset_io (io c).
Proof. unfold resetClient, reset_io. cbn [set_argv set_reqtype set_multibulklen set_bulklen io]. by destruct (has_flag (io c) REDIS_MULTI). Qed.

Lemma resetClient_idle c : idle (resetClient c) /\ querybuf (resetClient c) = querybuf c.
Proof.
  unfold resetClient, idle. cbn [set_argv set_reqtype set_multibulklen set_bulklen io].
  destruct (has_flag (io c) REDIS_MULTI); cbn; auto 10.
Qed.

Lemma opened_reset o : opened o -> opened (reset_io o).
Proof.
  unfold opened, reset_io, has_flag. intros [H1 H2].
  destruct (negb (negb (flags o &. REDIS_MULTI =? 0))); [|done]. cbn [set_flags flags].
  rewrite <- !Z.land_assoc. by split.
Qed.

(** Where the client is between reads, [cmds] being the commands still to be
    executed and [T] the stream not read yet. *)
Definition at_rest (c : qclient) (T : list Z) (cmds : list (list (list Z))) : Prop :=
  match cmds with
  | [] => idle c /\ querybuf c = [] /\ T = []
  | args :: cmds => ready c args T (concat (encode <$> cmds)) /\ stuck c args
  end.

Section Exec.
Context {St : Type} (exec : St -> outbuf -> list (list Z) -> option (St * outbuf * bool)).
(** Executing commands one after the other, as long as each asks for the
    client to be reset and leaves the connection open. *)
Fixpoint exec_all (s : St) (o : outbuf) (cmds : list (list (list Z))) : option (St * outbuf) :=
  match cmds with
  | [] => Some (s, o)
  | args :: cmds =>
      let? (s, o, reset) := exec s o args in
      if reset && negb (has_flag o REDIS_BLOCKED) && negb (has_flag o REDIS_CLOSE_AFTER_REPLY)
      then exec_all s (reset_io o) cmds else None
  end.

Lemma exec_all_cons s o args cmds fin :
  exec_all s o (args :: cmds) = Some fin ->
  exists s1 o1, exec s o args = Some (s1, o1, true) /\ opened o1 /\ exec_all s1 (reset_io o1) cmds = Some fin.
Proof.
  cbn [exec_all]. destruct (exec s o args) as [[[s1 o1] r]|]; [|done]. cbn [obind]. unfold opened.
  destruct r, (has_flag o1 REDIS_BLOCKED) eqn:?, (has_flag o1 REDIS_CLOSE_AFTER_REPLY) eqn:?; try done.
  intros H. exists s1, o1. split; [done|]. split; [done|exact H].
Qed.

Lemma length_encode args : (0 < length (encode args))%nat.
Proof. unfold encode, enc_header. rewrite !length_app. simpl. lia. Qed.

(** Parsing a command leaves room in the buffer. *)
Lemma parsed_shorter c args T R qb :
  ready c args T R -> qb ++ T = R -> zlen qb < zlen (querybuf c) /\
  (REDIS_MBULK_BIG_ARG <= bulklen c -> zlen (querybuf c) <= bulklen c + 2 -> zlen qb <= 0).
Proof.
  intros Hready <-.
  assert (exists P, querybuf c ++ T = P ++ qb ++ T /\ 0 < zlen P /\
    (REDIS_MBULK_BIG_ARG <= bulklen c -> bulklen c + 2 <= zlen P)) as (P & E & HP & Hbig).
  { change REDIS_MBULK_BIG_ARG with 32768.
    destruct Hready as [[(_ & _ & I3 & _) E]|(_ & done & rest & _ & Hrest & (_ & _ & Hb & _) & E)].
    - exists (encode args). split; [done|]. pose proof (length_encode args). split; [lia|]. rewrite I3. lia.
    - exists (remaining c rest). split; [done|]. destruct rest as [|a rest]; [done|]. unfold remaining.
      destruct Hb as [Hb|(a' & r' & [= <- <-] & Hb)].
      + rewrite Hb. change (-1 =? -1) with true. cbn iota. cbn [fmap list_fmap concat].
        unfold enc_bulk at 1, enc_header at 1. rewrite !length_app. simpl (length CRLF). split; lia.
      + rewrite (proj2 (Z.eqb_neq (bulklen c) (-1))) by lia. rewrite !length_app. simpl (length CRLF). split; lia. }
  apply (f_equal length) in E. rewrite !length_app in E. split; [lia|]. intros Hb1 Hb2. specialize (Hbig Hb1). lia.
Qed.

Lemma processInputBuffer_spec unixtime fuel : forall s c T args cmds,
  (length (querybuf c) <= fuel)%nat -> is_Some (exec_all s (io c) (args :: cmds)) ->
  opened (io c) -> querybuf c <> [] -> Forall cmd_ok (args :: cmds) -> buffer_ok c 0 ->
  ready c args T (concat (encode <$> cmds)) ->
  exists s' c' done rest, processInputBuffer ae exec fuel unixtime s c = Some (s', c') /\
    args :: cmds = done ++ rest /\ exec_all s (io c) done = Some (s', io c') /\
    opened (io c') /\ at_rest c' T rest.
Proof.
  induction fuel as [|fuel IH]; intros s c T args cmds Hf [fin Hfin] Hop Hne Hok Hbuf Hready.
  { destruct (querybuf c); [done|simpl in Hf; lia]. }
  cbn [processInputBuffer]. rewrite bool_decide_eq_false_2 by done.
  pose proof Hop as [-> ->].
  pose proof (Forall_inv Hok) as Hcmd. pose proof (Forall_inv_tail Hok) as Hcmds.
  destruct (process_request_spec unixtime c args T _ Hready Hcmd Hne Hbuf) as (ok & c' & -> & Hio & Hout).
  cbn [obind]. destruct ok; cbn [negb].
  2: { exists s, c', [], (args :: cmds). rewrite Hio. split; [done|]. split; [done|]. split; [done|]. done. }
  destruct Hout as (Hargv & Hmb & Hbl & E).
  destruct (parsed_shorter c args T _ _ Hready E) as [Hlt Hbig].
  rewrite Hargv, bool_decide_eq_false_2 by (by destruct Hcmd). rewrite Hio.
  destruct (exec_all_cons _ _ _ _ _ Hfin) as (s1 & o1 & Hex & Hop1 & Hfin1). rewrite Hex. cbn [obind].
  destruct (resetClient_idle (set_io c' o1)) as [Hidle Hqb]. pose proof (resetClient_io (set_io c' o1)) as Hrio.
  set (c1 := resetClient (set_io c' o1)) in *. cbn [set_io querybuf io] in Hqb, Hrio.
  assert (opened (io c1)) as Hop2 by (rewrite Hrio; by apply opened_reset).
  destruct (decide (querybuf c1 = [])) as [Hnil|Hnil].
  - exists s1, c1, [args], cmds. split; [|split; [done|]; split; [|split; [done|]]].
    + destruct fuel; cbn [processInputBuffer]; by rewrite bool_decide_eq_true_2.
    + cbn [exec_all]. rewrite Hex. cbn [obind]. destruct Hop1 as [-> ->]. cbn [negb andb]. by rewrite Hrio.
    + rewrite <- Hqb, Hnil in E. cbn [app] in E. destruct cmds as [|args' cmds]; [done|].
      split; [left; split; [done|]; by rewrite Hnil|]. left. split; [done|]. rewrite Hnil. cbn [length].
      pose proof (length_header 42 (zlen args') ltac:(lia)). lia.
  - destruct cmds as [|args' cmds].
    { exfalso. rewrite <- Hqb in E. cbn in E. destruct (querybuf c1); done. }
    destruct (IH s1 c1 T args' cmds) as (s' & c2 & done & rest & -> & Ed & Hall & Hrest); try assumption; try done.
    + rewrite Hqb. lia.
    + rewrite Hrio. by exists fin.
    + left. rewrite Hqb. destruct Hbuf as [?|(_ & Hb & Hq)]; [lia|].
      specialize (Hbig Hb Hq). change REDIS_INLINE_MAX_SIZE with 65536. lia.
    + left. split; [done|]. rewrite Hqb, E. done.
    + exists s', c2, (args :: done), rest. split; [done|]. split; [by rewrite Ed|]. split; [|done].
      cbn [exec_all]. rewrite Hex. cbn [obind]. destruct Hop1 as [-> ->]. cbn [negb andb]. by rewrite <- Hrio.
Qed.

Lemma exec_all_app s o d1 d2 :
  exec_all s o (d1 ++ d2) = let? (s, o) := exec_all s o d1 in exec_all s o d2.
Proof.
  revert s o. induction d1 as [|a d1 IH]; intros s o; cbn [app exec_all]; [done|].
  destruct (exec s o a) as [[[s1 o1] b]|]; cbn [obind]; [|done]. destruct (_ && _); [apply IH|done].
Qed.

(** Nothing is left to execute when the stream has been read. *)
Lemma at_rest_complete c cmds : at_rest c [] cmds -> cmds = [] /\ querybuf c = [].
Proof.
  destruct cmds as [|args cmds]; [by intros (_ & ? & _)|]. intros [Hready Hst]. exfalso.
  assert (forall d r d' r', inside c d r -> inside c d' r' -> d ++ r = d' ++ r' -> r = r') as Huniq.
  { intros d r d' r' (A & _) (A' & _) Ed. rewrite <- A, <- A' in Ed. by apply app_inv_head in Ed. }
  destruct Hready as [[Hi E]|(Hq & d & r & -> & Hr & Hin & E)];
    destruct Hst as [[Hi' Hw]|(Hq' & d' & r' & Ed & Hr' & Hin' & Hw)].
  - apply (f_equal length) in E. unfold encode in E. rewrite !length_app in E. cbn [length] in E. lia.
  - destruct Hi as (_ & Hm & _), Hin' as (_ & Hm' & _). destruct r'; [done|]. simpl in Hm'. lia.
  - destruct Hi' as (_ & Hm & _), Hin as (_ & Hm' & _). destruct r; [done|]. simpl in Hm'. lia.
  - rewrite <- (Huniq _ _ _ _ Hin Hin' Ed) in Hw. destruct r as [|a r]; [done|]. unfold waits_for in Hw.
    apply (f_equal length) in E. unfold remaining in E. destruct (bulklen c =? -1) eqn:Eb.
    + cbn [fmap list_fmap concat] in E. unfold enc_bulk at 1 in E. rewrite !length_app in E. cbn [length] in E. lia.
    + destruct Hin as (_ & _ & [Hb|(a' & r'' & [= <- <-] & Hb)] & _); [rewrite Hb in Eb; done|].
      rewrite !length_app in E. simpl (length CRLF) in E. simpl (length []) in E. lia.
Qed.

(** ** Reading a stream *)

(** Read the stream [T] in pieces of the given sizes, as far as the client
    asks for. *)
Fixpoint feed (unixtime : Z) (ks : list nat) (s : St) (c : qclient) (T : list Z)
  : option (St * qclient * list Z) :=
  match ks with
  | [] => Some (s, c, T)
  | k :: ks =>
      let n := Nat.max 1 (Nat.min k (Z.to_nat (readlen c))) in
      let? (s, c) := readQueryFromClient ae exec unixtime s c
                       (if bool_decide (T = []) then TryAgain else Data (take n T)) in
      let? c := c in feed unixtime ks s c (drop n T)
  end.

(** What one read brings leaves the buffer short. *)
Lemma stuck_room c args B T R :
  cmd_ok args -> ready c args (B ++ T) R -> stuck c args ->
  (0 < readlen c) /\ (zlen B <= readlen c ->
    buffer_ok (set_querybuf c (querybuf c ++ B)) 0 /\ zlen (querybuf c ++ B) <= REDIS_MAX_QUERYBUF_LEN).
Proof.
  intros (_ & _ & Hok) _ Hst. unfold buffer_ok, readlen. cbn [set_querybuf querybuf bulklen].
  rewrite length_app. change REDIS_MBULK_BIG_ARG with 32768. change REDIS_IOBUF_LEN with 16384.
  change REDIS_INLINE_MAX_SIZE with 65536. change REDIS_MAX_QUERYBUF_LEN with 1073741824.
  destruct Hst as [[(_ & I2 & I3 & _) Hw]|(Hreq & done & rest & -> & Hrest & (_ & Hmb & Hb & Hokr) & Hw)].
  - rewrite I2. change (negb (0 =? 0)) with false. rewrite andb_false_r. cbn [andb].
    pose proof (length_header 42 (zlen args) ltac:(lia)). split; [lia|]. intros. split; [left|]; lia.
  - destruct rest as [|a rest]; [done|]. unfold waits_for in Hw. destruct Hb as [Hb|(a' & r' & [= <- <-] & Hb)].
    + rewrite Hb in Hw |- *. change (-1 =? -1) with true in *. cbn iota in Hw. cbn [negb].
      rewrite andb_false_r. cbn [andb]. pose proof (length_header 36 (zlen a) ltac:(lia)). split; [lia|].
      intros. split; [left|]; lia.
    + assert (arg_ok a) as Ha by (apply Forall_app in Hok as [_ [? _]%Forall_cons]; done). unfold arg_ok in Ha.
      rewrite (proj2 (Z.eqb_neq (bulklen c) (-1))) in Hw |- * by lia. rewrite Hreq, Hmb.
      rewrite (proj2 (Z.eqb_neq (zlen (a :: rest)) 0)) by (simpl; lia).
      change (REDIS_REQ_MULTIBULK =? REDIS_REQ_MULTIBULK) with true. cbn [andb negb].
      destruct (Z.leb_spec 32768 (bulklen c)).
      * rewrite wrapu_small by cint. rewrite s32_small by cint. split; [lia|]. intros. split; [right|]; lia.
      * split; [lia|]. intros. split; [left|]; lia.
Qed.

Lemma readQuery_step unixtime s c k T cmds :
  Forall cmd_ok cmds -> is_Some (exec_all s (io c) cmds) -> opened (io c) -> at_rest c T cmds -> T <> [] ->
  let n := Nat.max 1 (Nat.min k (Z.to_nat (readlen c))) in
  exists s' c' done rest,
    readQueryFromClient ae exec unixtime s c (Data (take n T)) = Some (s', Some c') /\
    cmds = done ++ rest /\ exec_all s (io c) done = Some (s', io c') /\
    opened (io c') /\ at_rest c' (drop n T) rest.
Proof.
  intros Hok Hfin Hop Hrest HT n.
  destruct cmds as [|args cmds]; [by destruct Hrest as (_ & _ & ?)|].
  destruct Hrest as [Hready Hst]. set (B := take n T).
  rewrite <- (take_drop n T) in Hready. fold B in Hready.
  pose proof (Forall_inv Hok) as Hcmd.
  destruct (stuck_room c args B (drop n T) _ Hcmd Hready Hst) as [Hpos Hroom].
  assert (zlen B <= readlen c) as HB by (unfold B; rewrite length_take; lia).
  destruct (Hroom HB) as [Hbuf Hmax]. unfold readQueryFromClient. cbn zeta.
  set (c0 := if querybuf_peak c <? zlen (querybuf c) then set_peak c (zlen (querybuf c)) else c).
  assert (io c0 = io c /\ querybuf c0 = querybuf c /\ reqtype c0 = reqtype c /\ multibulklen c0 = multibulklen c /\
    bulklen c0 = bulklen c /\ argv c0 = argv c) as (C1 & C2 & C3 & C4 & C5 & C6)
    by (unfold c0; by destruct (_ <? _)).
  clearbody c0. rewrite C2. cbn [set_querybuf querybuf]. rewrite (proj2 (Z.ltb_ge _ _)) by done.
  set (c1 := set_querybuf c0 _).
  assert (ready c1 args (drop n T) (concat (encode <$> cmds))) as Hready1.
  { unfold ready, idle, inside, remaining in *. cbn [c1 set_querybuf argv multibulklen bulklen reqtype querybuf].
    rewrite C3, C4, C5, C6, <- app_assoc. exact Hready. }
  destruct (processInputBuffer_spec unixtime (length (querybuf c ++ B)) s c1 (drop n T) args cmds)
    as (s' & c' & done & rest & -> & Ed & Hall & Hop' & Hrest').
  - cbn [c1 set_querybuf querybuf]. lia.
  - cbn [c1 set_querybuf io]. by rewrite C1.
  - cbn [c1 set_querybuf io]. by rewrite C1.
  - cbn [c1 set_querybuf querybuf]. destruct T as [|x T]; [done|]. unfold B.
    destruct n as [|n'] eqn:En; [lia|]. cbn [take].
    intros E. apply app_nil in E as [_ ?]. discriminate.
  - assumption.
  - unfold buffer_ok in *. cbn [c1 set_querybuf querybuf bulklen] in *. by rewrite C5.
  - assumption.
  - cbn [obind]. exists s', c', done, rest. split; [done|]. split; [done|].
    cbn [c1 set_querybuf io] in Hall. rewrite C1 in Hall. done.
Qed.

Lemma feed_spec unixtime ks : forall s c T cmds,
  Forall cmd_ok cmds -> is_Some (exec_all s (io c) cmds) -> opened (io c) -> at_rest c T cmds ->
  exists s' c' T' done rest, feed unixtime ks s c T = Some (s', c', T') /\ cmds = done ++ rest /\
    exec_all s (io c) done = Some (s', io c') /\ opened (io c') /\ at_rest c' T' rest /\
    (length T' <= length T - length ks)%nat.
Proof.
  induction ks as [|k ks IH]; intros s c T cmds Hok Hfin Hop Hrest.
  { exists s, c, T, [], cmds. cbn [feed length]. rewrite Nat.sub_0_r. done. }
  cbn [feed]. set (n := Nat.max 1 _). destruct (decide (T = [])) as [->|HT].
  - rewrite bool_decide_eq_true_2 by done. unfold readQueryFromClient. cbn zeta. cbn [obind].
    set (c0 := if _ <? _ then _ else _).
    assert (io c0 = io c /\ at_rest c0 [] cmds) as [C1 Hrest0].
    { unfold c0. destruct (_ <? _); done. }
    assert (opened (io c0)) as Hop0 by (by rewrite C1).
    destruct (IH s c0 [] cmds Hok ltac:(by rewrite C1) Hop0 Hrest0)
      as (s' & c' & T' & done & rest & E & H1 & H2 & H3 & H4 & H5).
    rewrite drop_nil. exists s', c', T', done, rest. rewrite C1 in H2. split; [done|]. do 4 (split; [done|]). simpl in *. lia.
  - rewrite bool_decide_eq_false_2 by done.
    destruct (readQuery_step unixtime s c k T cmds Hok Hfin Hop Hrest HT)
      as (s1 & c1 & d1 & r1 & E1 & -> & Hall1 & Hop1 & Hrest1).
    fold n in Hrest1, E1. rewrite E1. cbn [obind].
    apply Forall_app in Hok as [_ Hok]. rewrite exec_all_app, Hall1 in Hfin. cbn [obind] in Hfin.
    destruct (IH s1 c1 (drop n T) r1 Hok Hfin Hop1 Hrest1)
      as (s' & c' & T' & d2 & r2 & -> & -> & Hall2 & Hop2 & Hrest2 & Hlen).
    exists s', c', T', (d1 ++ d2), r2. split; [done|]. split; [by rewrite app_assoc|]. split.
    + by rewrite exec_all_app, Hall1.
    + do 2 (split; [done|]). rewrite length_drop in Hlen. cbn [length]. lia.
Qed.

(** C30: the parser inverts the encoding of the protocol.  A stream of
    encoded commands, read in pieces of any sizes, never makes a protocol
    error, provided that executing them leaves the connection open: the
    commands executed so far are a prefix of those sent, in order
    and with exactly their arguments, and after as many reads as the stream
    has bytes all of them have been executed and the buffer is empty. *)
Theorem requests_roundtrip unixtime cmds ks s o :
  Forall cmd_ok cmds -> is_Some (exec_all s o cmds) -> opened o ->
  exists s' c' T' done rest,
    feed unixtime ks s (fresh_query o) (concat (encode <$> cmds)) = Some (s', c', T') /\
    cmds = done ++ rest /\ exec_all s o done = Some (s', io c') /\
    ((length (concat (encode <$> cmds)) <= length ks)%nat -> rest = [] /\ querybuf c' = []).
Proof.
  intros Hok Hfin Hop.
  destruct (feed_spec unixtime ks s (fresh_query o) (concat (encode <$> cmds)) cmds)
    as (s' & c' & T' & dn & rest & E & Ed & Hall & _ & Hrest & Hlen); [done..| |].
  { assert (idle (fresh_query o)) as Hi by (by repeat split; left).
    destruct cmds as [|args cmds]; [done|]. split; [by left|]. left. split; [done|].
    pose proof (length_header 42 (zlen args) ltac:(lia)). simpl (querybuf _). simpl (length []). lia. }
  exists s', c', T', dn, rest. split; [done|]. split; [done|]. split; [done|]. intros Hks.
  assert (T' = []) as -> by (apply nil_length_inv; lia). by eapply at_rest_complete.
Qed.

End Exec.

(** ** Inline requests *)

(** An inline request is split into its arguments.  A line of quoted
    arguments ended by CRLF yields the arguments that are not empty and
    leaves what follows the line in the buffer, whatever it is. *)
Theorem inline_request_parsed unixtime c args rest :
  Forall (Forall (fun x => 0 <= x < 256)) args -> args <> [] ->
  querybuf c = quote_args args ++ CRLF ++ rest ->
  exists c', processInlineBuffer ae unixtime c = (true, c') /\
    argv c' = filter (fun a => a <> []) args /\ querybuf c' = rest /\ io c' = io c /\
    reqtype c' = reqtype c /\ multibulklen c' = multibulklen c /\ bulklen c' = bulklen c.
Proof.
  intros Hargs Hne E. unfold processInlineBuffer.
  pose proof (quote_args_not_in args 0 Hargs ltac:(lia)) as N0.
  pose proof (quote_args_not_in args 10 Hargs ltac:(lia)) as N10.
  assert (quote_args args <> []) as Hq.
  { destruct args as [|a [|b args]]; [done| |]; cbn; discriminate. }
  set (q := quote_args args) in *. rewrite E.
  assert (strchr 10 (q ++ CRLF ++ rest) = Some (zlen (q ++ [13]))) as ->.
  { change (CRLF ++ rest) with ([13] ++ 10 :: rest). rewrite app_assoc. apply strchr_Some; [..|done].
    - rewrite elem_of_app, list_elem_of_singleton. intros [?|?]; [done|lia].
    - rewrite elem_of_app, list_elem_of_singleton. intros [?|?]; [done|lia]. }
  rewrite length_app. simpl (length [13]).
  assert (zget (q ++ CRLF ++ rest) (Z.of_nat (length q + 1) - 1) = Some 13) as ->.
  { apply zget_Some. split; [lia|]. replace (Z.to_nat _) with (length q + 0)%nat by lia.
    rewrite lookup_app_r, Nat.add_0_r, Nat.sub_diag by lia. done. }
  rewrite (proj2 (Z.eqb_neq _ 0)) by lia. rewrite bool_decide_eq_true_2 by done. cbn [negb andb].
  replace (Z.of_nat (length q + 1) - 1) with (zlen q) by lia.
  rewrite Nat2Z.id, take_app_length. unfold q. rewrite sdssplitargs_quoted by done. fold q.
  rewrite (proj2 (Z.eqb_neq (zlen q) 0)) by (destruct q; [done|simpl; lia]). cbn [andb].
  rewrite sdsrange_from by lia. eexists. split; [done|]. cbn. split; [done|]. split; [|done].
  replace (Z.to_nat (zlen q + 2)) with (length (q ++ CRLF)) by (rewrite length_app; simpl; lia).
  rewrite E, app_assoc. by rewrite drop_app_length.
Qed.

End Parser.

(** ** Concrete streams *)
Module Demo.

Definition ae (fd : Z) : bool := true.
Definition quiet_io : outbuf := OutBuf 5 0 0 [] [] 0.

(** An executor that records the commands. *)
Definition record (s : list (list (list Z))) (o : outbuf) (args : list (list Z))
  : option (list (list (list Z)) * outbuf * bool) := Some (s ++ [args], o, true).

Definition two : list (list (list Z)) :=
  [[bytes_of_string "chat"; bytes_of_string "login"; bytes_of_string "bob"; bytes_of_string "pw"];
   [bytes_of_string "node"; [0; 13; 10]; []; [42]]].

Lemma requests_roundtrip_witness :
  exists s' c' T' done rest,
    feed ae record 0 (replicate 200 7%nat) [] (fresh_query quiet_io) (concat (encode <$> two)) = Some (s', c', T') /\
    two = done ++ rest /\ exec_all record [] quiet_io done = Some (s', io c') /\
    ((length (concat (encode <$> two)) <= length (replicate 200 7%nat))%nat -> rest = [] /\ querybuf c' = []).
Proof.
  apply (requests_roundtrip ae record 0 two (replicate 200 7%nat) [] quiet_io).
  - repeat constructor; try done; vm_compute; congruence.
  - eexists. vm_compute. reflexivity.
  - split; reflexivity.
Defined.

Lemma inline_request_parsed_witness :
  exists c', processInlineBuffer ae 0
      (set_querybuf (fresh_query quiet_io)
         (quote_args [bytes_of_string "chat"; [10; 0]; bytes_of_string "x"] ++ CRLF ++ [99])) = (true, c') /\
    argv c' = filter (fun a => a <> []) [bytes_of_string "chat"; [10; 0]; bytes_of_string "x"] /\
    querybuf c' = [99] /\ io c' = quiet_io /\ reqtype c' = 0 /\ multibulklen c' = 0 /\ bulklen c' = -1.
Proof.
  apply (inline_request_parsed ae 0 (set_querybuf (fresh_query quiet_io)
    (quote_args [bytes_of_string "chat"; [10; 0]; bytes_of_string "x"] ++ CRLF ++ [99]))
    [bytes_of_string "chat"; [10; 0]; bytes_of_string "x"] [99]).
  - repeat constructor; vm_compute; congruence.
  - discriminate.
  - reflexivity.
Defined.

(** After a line that ends in a bare newline the first byte of the next
    request is dropped with it: two bytes are skipped for the terminator
    whichever it was. *)
Example bare_newline_drops_a_byte :
  (processInlineBuffer ae 0
     (set_querybuf (fresh_query quiet_io) (bytes_of_string "ping" ++ [10] ++ bytes_of_string "ping" ++ [10]))).2 =
  set_argv (set_querybuf (fresh_query quiet_io) (bytes_of_string "ing" ++ [10])) [bytes_of_string "ping"].
Proof. vm_compute. reflexivity. Qed.

End Demo.

End QueryProofs.
