(* ===== verification/QuerySafe.v ===== *)
(** * The request parser on arbitrary input

    Whatever bytes arrive, and however they are cut into reads, the parser
    reaches no failed assertion, stops, and executes requests that the
    commands have no influence on.  Where the reads are cut does matter: an
    inline line that ends in a bare newline is read differently when more
    bytes are behind it ([Demo.cuts_matter]). *)

From S2P Require Import Prelude Reply Sds Util Query QuerySpec.

Module QuerySafe.
Import Output Sds Util Query QueryProofs.

(** ** Flags *)

Lemma prepare_append_flags ae o s : flags (addReplyString ae o s) = flags o.
Proof. apply addReplyString_fields. Qed.

Lemma error_flags ae o s : flags (addReplyErrorLength ae o s) = flags o.
Proof. unfold addReplyErrorLength. by rewrite !prepare_append_flags. Qed.

Lemma has_flag_eq o o' f : flags o' = flags o -> has_flag o' f = has_flag o f.
Proof. unfold has_flag. by intros ->. Qed.

Section Parser.
Context (ae : Z -> bool).

(** ** Independence of the output side *)

(** [d] is [c] with another output side but the same flags. *)
Definition twin (c d : qclient) : Prop := d = set_io c (io d) /\ flags (io d) = flags (io c).

Lemma twin_refl c : twin c c.
Proof. split; [by destruct c|done]. Qed.

Lemma twin_set_io c o : flags o = flags (io c) -> twin c (set_io c o).
Proof. by split. Qed.

Lemma twin_protocol_error c d msg pos :
  twin c d -> twin (protocol_error ae c msg pos) (protocol_error ae d msg pos).
Proof.
  intros [E F]. unfold protocol_error, setProtocolError. split; [by rewrite E|].
  cbn [set_io set_querybuf io set_flags flags]. unfold addReplyError. by rewrite !error_flags, F.
Qed.

(** Equal results on twins. *)
Definition twin_res (r r' : option (bool * qclient)) : Prop :=
  match r, r' with
  | Some (ok, c), Some (ok', d) => ok = ok' /\ twin c d
  | None, None => True
  | _, _ => False
  end.

Definition twin_bulks (r r' : bulk_result) : Prop :=
  match r, r' with
  | Bulks c pos, Bulks d pos' => pos = pos' /\ twin c d
  | BulkError c, BulkError d => twin c d
  | _, _ => False
  end.

Ltac twins :=
  match goal with
  | H : twin ?c ?d |- _ => let E := fresh in let F := fresh in pose proof H as [E F]; rewrite E;
      cbn [set_io set_querybuf set_ack set_argv set_multibulklen set_bulklen set_reqtype
           querybuf querybuf_peak reqtype multibulklen bulklen argv repl_ack_time io]
  end.

Lemma twin_inline t c d : twin c d -> twin_res (Some (processInlineBuffer ae t c)) (Some (processInlineBuffer ae t d)).
Proof.
  intros H. unfold processInlineBuffer. twins.
  destruct (strchr 10 (querybuf c)) as [nl|]; cbn [twin_res].
  - set (n := if negb (nl =? 0) && _ then nl - 1 else nl). destruct (sdssplitargs _) as [args|]; cbn [twin_res].
    + split; [done|]. rewrite (has_flag_eq _ _ _ H1).
      destruct ((n =? 0) && has_flag (io c) REDIS_SLAVE); by split.
    + split; [done|]. apply twin_protocol_error. rewrite <- H0. done.
  - split; [done|]. destruct (_ <? _); rewrite <- H0; [by apply twin_protocol_error|done].
Qed.

Lemma twin_set_bulklen c d n : twin c d -> twin (set_bulklen c n) (set_bulklen d n).
Proof. intros H. twins. by split. Qed.
Lemma twin_set_querybuf c d q : twin c d -> twin (set_querybuf c q) (set_querybuf d q).
Proof. intros H. twins. by split. Qed.
Lemma twin_set_multibulklen c d n : twin c d -> twin (set_multibulklen c n) (set_multibulklen d n).
Proof. intros H. twins. by split. Qed.
Lemma twin_set_argv c d a : twin c d -> twin (set_argv c a) (set_argv d a).
Proof. intros H. twins. by split. Qed.
Lemma twin_set_reqtype c d n : twin c d -> twin (set_reqtype c n) (set_reqtype d n).
Proof. intros H. twins. by split. Qed.

#[local] Hint Resolve twin_protocol_error twin_set_bulklen twin_set_querybuf twin_set_multibulklen
  twin_set_argv twin_set_reqtype twin_refl : core.

Lemma twin_fields c d : twin c d ->
  querybuf d = querybuf c /\ multibulklen d = multibulklen c /\ bulklen d = bulklen c /\
  argv d = argv c /\ reqtype d = reqtype c /\ querybuf_peak d = querybuf_peak c.
Proof. intros H. twins. done. Qed.

Lemma twin_read_bulklen c d pos : twin c d ->
  match read_bulklen ae c pos, read_bulklen ae d pos with
  | inl r, inl r' => twin_bulks r r'
  | inr (c, p), inr (d, p') => p = p' /\ twin c d
  | _, _ => False
  end.
Proof.
  intros H. destruct (twin_fields _ _ H) as (Eq & Em & Eb & Ea & Er & _). unfold read_bulklen.
  rewrite Eq, Eb. destruct (bulklen c =? -1); [|done].
  destruct (strchr 13 _) as [i|].
  - destruct (_ <? _); [done|]. destruct (zget (querybuf c) pos) as [ch|]; [|done].
    destruct (negb (ch =? 36)).
    + cbn [twin_bulks]. unfold setProtocolError. twins. split; [done|].
      cbn [set_flags flags]. unfold addReplyErrorFormat. by rewrite !error_flags, H1.
    + destruct (string2ll _) as [ll|]; [|cbn [twin_bulks]; auto].
      destruct (_ || _); [cbn [twin_bulks]; auto|]. destruct (_ <=? _); auto.
  - cbn [twin_bulks]. split; [done|]. destruct (_ <? _); auto.
Qed.

Lemma twin_bulk_loop n : forall c d pos, twin c d -> twin_bulks (bulk_loop ae n c pos) (bulk_loop ae n d pos).
Proof.
  induction n as [|n IH]; intros c d pos H; [done|]. cbn [bulk_loop].
  pose proof (twin_read_bulklen c d pos H) as Hr.
  destruct (read_bulklen ae c pos) as [r|[c1 p1]], (read_bulklen ae d pos) as [r'|[d1 p1']]; try done.
  destruct Hr as [<- H1]. destruct (twin_fields _ _ H1) as (Eq & Em & Eb & Ea & Er & _).
  rewrite Eq, Eb, Ea, Em. destruct (_ <? _); [done|]. destruct (_ && _ && _); apply IH; auto.
Qed.

Lemma twin_process_bulks c d pos : twin c d -> twin_res (process_bulks ae c pos) (process_bulks ae d pos).
Proof.
  intros H. destruct (twin_fields _ _ H) as (_ & Em & _). unfold process_bulks. rewrite Em.
  destruct (_ <=? _); [done|]. pose proof (twin_bulk_loop (Z.to_nat (multibulklen c)) c d pos H) as Hl.
  destruct (bulk_loop ae _ c pos) as [c1 p1|c1], (bulk_loop ae _ d pos) as [d1 p1'|d1]; try done.
  destruct Hl as [<- H1]. destruct (twin_fields _ _ H1) as (Eq & Em1 & _). cbn [twin_res]. rewrite Eq.
  destruct (negb (p1 =? 0)); cbn [set_querybuf multibulklen]; rewrite Em1; auto.
Qed.

Lemma twin_request t c d : twin c d -> twin_res (process_request ae t c) (process_request ae t d).
Proof.
  intros H. unfold process_request. destruct (twin_fields _ _ H) as (Eq & _ & _ & _ & Er & _).
  rewrite Er, Eq. set (v := if bool_decide _ then REDIS_REQ_MULTIBULK else REDIS_REQ_INLINE).
  assert (exists c1 d1, twin c1 d1 /\ (if reqtype c =? 0 then set_reqtype c v else c) = c1 /\
    (if reqtype c =? 0 then set_reqtype d v else d) = d1) as (c1 & d1 & H1 & -> & ->).
  { destruct (reqtype c =? 0); eauto 10. }
  destruct (twin_fields _ _ H1) as (Eq1 & Em1 & _ & Ea1 & Er1 & _).
  rewrite Er1. destruct (_ =? _); [by apply twin_inline|]. destruct (_ =? _); [|done].
  unfold processMultibulkBuffer. rewrite Em1, Ea1, Eq1.
  destruct (multibulklen c1 =? 0); [|by apply twin_process_bulks].
  destruct (negb _); [done|]. destruct (strchr 13 _) as [nl|].
  - destruct (_ <? _); [done|]. destruct (negb _); [done|].
    destruct (string2ll _) as [ll|]; [|cbn [twin_res]; auto].
    destruct (_ <? _); [cbn [twin_res]; auto|]. destruct (_ <=? _); [cbn [twin_res]; auto|].
    apply twin_process_bulks; auto.
  - cbn [twin_res]. destruct (_ <? _); auto.
Qed.

Lemma twin_reset c d : twin c d -> twin (resetClient c) (resetClient d).
Proof.
  intros H. unfold resetClient. pose proof H as [E F].
  set (c1 := set_bulklen _ _). set (d1 := set_bulklen (set_multibulklen (set_reqtype (set_argv d []) 0) 0) (-1)).
  assert (twin c1 d1) as [E1 F1] by (unfold c1, d1; auto). rewrite (has_flag_eq _ _ _ F1).
  destruct (negb _); [|done]. split; [by rewrite E1|]. cbn [set_io set_flags io flags]. by rewrite F1.
Qed.

(** ** Every input is parsed *)

Lemma memchr_bound x l i : memchr x l = Some i -> 0 <= i < zlen l.
Proof.
  revert i. induction l as [|y l IH]; intros i; cbn [memchr length]; [done|].
  destruct (y =? x); [intros [= <-]; lia|]. destruct (memchr x l) as [j|]; [|done].
  cbn. intros [= <-]. specialize (IH j eq_refl). lia.
Qed.

Lemma strchr_bound x l i : strchr x l = Some i -> 0 <= i < zlen l.
Proof. intros H%memchr_bound. pose proof (length_cstr l). lia. Qed.

Lemma set_close_flag o : has_flag (set_flags o (flags o |. REDIS_CLOSE_AFTER_REPLY)) REDIS_CLOSE_AFTER_REPLY = true.
Proof.
  unfold has_flag. cbn [set_flags flags]. apply negb_true_iff, Z.eqb_neq. intros E.
  apply (f_equal (fun z => Z.testbit z 6)) in E. rewrite Z.land_spec, Z.lor_spec in E.
  change (Z.testbit REDIS_CLOSE_AFTER_REPLY 6) with true in E. rewrite orb_true_r in E. done.
Qed.

(** [c'] is [c] marked to be closed. *)
Definition closes (c c' : qclient) : Prop := flags (io c') = flags (io c) |. REDIS_CLOSE_AFTER_REPLY.

Lemma protocol_error_closes c msg pos : closes c (protocol_error ae c msg pos).
Proof.
  unfold closes, protocol_error, setProtocolError. cbn [set_io set_querybuf io set_flags flags].
  unfold addReplyError. by rewrite error_flags.
Qed.

(** Between reads: waiting for a request or inside a multi-bulk one, and the
    buffer of a counted request still begins with its mark. *)
Definition pstate (c : qclient) : Prop :=
  ((reqtype c = 0 \/ reqtype c = REDIS_REQ_INLINE) /\ multibulklen c = 0 /\ bulklen c = -1 /\ argv c = []) \/
  (reqtype c = REDIS_REQ_MULTIBULK /\
   ((multibulklen c = 0 /\ bulklen c = -1 /\ argv c = [] /\ zget (querybuf c) 0 = Some 42) \/
    (0 < multibulklen c /\ -1 <= bulklen c))).

Definition closing (c : qclient) : Prop := has_flag (io c) REDIS_CLOSE_AFTER_REPLY = true.

(** What is left of the buffer from [pos] on. *)
Definition ahead (c : qclient) (pos : Z) : Z := zlen (querybuf c) - pos.

Definition bulks_sound (c : qclient) (pos : Z) (r : bulk_result) : Prop :=
  match r with
  | BulkError c' => closes c c'
  | Bulks c' pos' =>
      0 <= pos' <= zlen (querybuf c') /\ -1 <= bulklen c' /\ 0 <= multibulklen c' /\
      reqtype c' = reqtype c /\ ahead c' pos' <= ahead c pos /\
      (io c' = io c /\ (multibulklen c' = 0 -> ahead c' pos' < ahead c pos) \/
       closes c c' /\ 0 < multibulklen c')
  end.

Ltac stay := split_and!; solve [done | lia | left; split; [done || congruence|lia]].

Lemma read_bulklen_sound c pos :
  0 <= pos <= zlen (querybuf c) -> -1 <= bulklen c -> 0 < multibulklen c ->
  match read_bulklen ae c pos with
  | inl r => bulks_sound c pos r
  | inr (c', pos') =>
      0 <= pos' <= zlen (querybuf c') /\ 0 <= bulklen c' /\ multibulklen c' = multibulklen c /\
      reqtype c' = reqtype c /\ ahead c' pos' <= ahead c pos /\ io c' = io c
  end.
Proof.
  intros Hp Hb Hm. unfold read_bulklen. destruct (Z.eqb_spec (bulklen c) (-1)); [|stay].
  destruct (strchr 13 _) as [i|] eqn:Ei.
  - apply strchr_bound in Ei. rewrite length_drop in Ei.
    destruct (Z.ltb_spec (zlen (querybuf c) - 2) (pos + i)).
    { cbn [bulks_sound]. stay. }
    destruct (zget_is_Some (querybuf c) pos) as [ch ->]; [lia|].
    destruct (negb (ch =? 36)).
    { cbn. unfold closes, setProtocolError. cbn [set_io set_querybuf io set_flags flags].
      unfold addReplyErrorFormat. by rewrite error_flags. }
    destruct (string2ll _) as [ll|]; [|apply protocol_error_closes].
    destruct (Z.ltb_spec ll 0); [apply protocol_error_closes|].
    destruct (Z.ltb_spec (512 * 1024 * 1024) ll); [apply protocol_error_closes|]. cbn [orb].
    destruct (_ <=? ll); cbn; unfold ahead; cbn; [|stay].
    rewrite sdsrange_from, length_drop by lia. stay.
  - destruct (_ <? _); cbn [bulks_sound]; [|stay].
    cbn [protocol_error setProtocolError set_querybuf querybuf set_io bulklen multibulklen reqtype].
    unfold ahead. cbn [querybuf setProtocolError set_querybuf protocol_error set_io].
    rewrite sdsrange_from by lia. change (Z.to_nat 0) with 0%nat. rewrite drop_0.
    split_and!; try done; try lia. right. split; [apply protocol_error_closes|done].
Qed.

Lemma bulk_loop_sound n : forall c pos,
  0 <= pos <= zlen (querybuf c) -> -1 <= bulklen c -> multibulklen c = Z.of_nat n ->
  bulks_sound c pos (bulk_loop ae n c pos) \/ n = 0%nat.
Proof.
  induction n as [|n IH]; intros c pos Hp Hb Hm; [by right|]. left. cbn [bulk_loop].
  pose proof (read_bulklen_sound c pos Hp Hb ltac:(lia)) as Hr.
  destruct (read_bulklen ae c pos) as [r|[c1 p1]]; [done|].
  destruct Hr as (Hp1 & Hb1 & Hm1 & Hr1 & Ha1 & Hio).
  destruct (Z.ltb_spec (zlen (querybuf c1) - p1) (bulklen c1 + 2)).
  { cbn [bulks_sound]. rewrite Hio. stay. }
  assert (forall c2 p2, 0 <= p2 <= zlen (querybuf c2) -> bulklen c2 = -1 -> multibulklen c2 = multibulklen c1 - 1 ->
    reqtype c2 = reqtype c1 -> io c2 = io c1 -> ahead c2 p2 < ahead c1 p1 ->
    bulks_sound c pos (bulk_loop ae n c2 p2)) as Hnext.
  { intros c2 p2 Hp2 Hb2 Hm2 Hr2 Hio2 Ha2.
    destruct (IH c2 p2 Hp2 ltac:(lia) ltac:(lia)) as [Hs| ->].
    - destruct (bulk_loop ae n c2 p2) as [c3 p3|c3]; cbn [bulks_sound] in *; unfold closes in *; [|congruence].
      destruct Hs as (? & ? & ? & ? & ? & Hf). split_and!; try congruence; try lia.
      destruct Hf as [[Hf ?]|[Hf ?]]; [left|right]; (split; [congruence|lia]).
    - cbn [bulk_loop bulks_sound]. split_and!; try congruence; try lia. left. split; [congruence|lia]. }
  destruct (_ && _ && _) eqn:Hbig.
  - apply andb_true_iff in Hbig as [[Hz%Z.eqb_eq _]%andb_true_iff Hl%Z.eqb_eq].
    apply Hnext; cbn; try done; unfold ahead in *; cbn in *; lia.
  - apply Hnext; cbn; try done; unfold ahead in *; cbn in *; lia.
Qed.

Lemma process_bulks_sound c pos :
  0 <= pos <= zlen (querybuf c) -> -1 <= bulklen c -> 0 < multibulklen c -> reqtype c = REDIS_REQ_MULTIBULK ->
  exists ok c', process_bulks ae c pos = Some (ok, c') /\
    if ok then io c' = io c /\ zlen (querybuf c') < ahead c pos
    else closes c c' \/ (pstate c' /\ io c' = io c).
Proof.
  intros Hp Hb Hm Hr. unfold process_bulks. rewrite (proj2 (Z.leb_gt _ _)) by lia.
  destruct (bulk_loop_sound (Z.to_nat (multibulklen c)) c pos) as [Hs|]; [done|done|lia| |lia].
  destruct (bulk_loop ae _ c pos) as [c1 p1|c1]; cbn [bulks_sound] in Hs; [|exists false, c1; split; [done|by left]].
  destruct Hs as (Hp1 & Hb1 & Hm1 & Hr1 & Ha & Hf).
  assert (exists c2, (if negb (p1 =? 0) then set_querybuf c1 (sdsrange (querybuf c1) p1 (-1)) else c1) = c2 /\
    io c2 = io c1 /\ multibulklen c2 = multibulklen c1 /\ bulklen c2 = bulklen c1 /\ reqtype c2 = reqtype c1 /\
    zlen (querybuf c2) = ahead c1 p1) as (c2 & -> & Eio & Em & Eb & Er & El).
  { eexists. split; [done|]. unfold ahead. destruct (Z.eqb_spec p1 0); cbn [negb]; [stay|].
    cbn. rewrite sdsrange_from, length_drop by lia. stay. }
  do 2 eexists. split; [done|]. rewrite Em. destruct (Z.eqb_spec (multibulklen c1) 0) as [E|E].
  - rewrite Eio. destruct Hf as [[? Hlt]|[_ ?]]; [|lia]. split; [done|]. specialize (Hlt E). lia.
  - destruct Hf as [[Hf _]|[Hf _]]; [right|left; unfold closes; by rewrite Eio]. split; [|congruence].
    right. split; [congruence|]. right. lia.
Qed.

Lemma inline_sound t c :
  reqtype c = REDIS_REQ_INLINE -> multibulklen c = 0 -> bulklen c = -1 -> argv c = [] -> querybuf c <> [] ->
  exists ok c', processInlineBuffer ae t c = (ok, c') /\
    if ok then io c' = io c /\ zlen (querybuf c') < zlen (querybuf c)
    else closes c c' \/ (pstate c' /\ io c' = io c).
Proof.
  intros Hr Hm Hb Ha Hne. unfold processInlineBuffer.
  destruct (strchr 10 (querybuf c)) as [nl|] eqn:En.
  - apply strchr_bound in En. set (n := if negb (nl =? 0) && _ then nl - 1 else nl).
    assert (0 <= n) as Hn by (unfold n; destruct (Z.eqb_spec nl 0), (bool_decide _); simpl; lia).
    clearbody n. destruct (sdssplitargs _); do 2 eexists; (split; [done|]); [|left; apply protocol_error_closes].
    destruct (_ && _); cbn; rewrite sdsrange_from, length_drop by lia; split; done || lia.
  - destruct (_ <? _); do 2 eexists; (split; [done|]); [left; apply protocol_error_closes|].
    right. split; [|done]. left. auto.
Qed.

Lemma process_request_sound t c :
  pstate c -> querybuf c <> [] ->
  exists ok c', process_request ae t c = Some (ok, c') /\
    if ok then io c' = io c /\ zlen (querybuf c') < zlen (querybuf c)
    else closes c c' \/ (pstate c' /\ io c' = io c).
Proof.
  intros Hs Hne. unfold process_request.
  set (v := if bool_decide (zget (querybuf c) 0 = Some 42) then REDIS_REQ_MULTIBULK else REDIS_REQ_INLINE).
  assert (exists c1, (if reqtype c =? 0 then set_reqtype c v else c) = c1 /\ io c1 = io c /\
    querybuf c1 = querybuf c /\
    (reqtype c1 = REDIS_REQ_INLINE /\ multibulklen c1 = 0 /\ bulklen c1 = -1 /\ argv c1 = [] \/
     reqtype c1 = REDIS_REQ_MULTIBULK /\ pstate c1)) as (c1 & -> & Eio & Eq & Hc1).
  { eexists. split; [done|]. destruct Hs as [([Hr|Hr] & Hm & Hb & Ha)|[Hr Hs]]; rewrite Hr; cbn.
    - split; [done|]. split; [done|]. unfold v. case_bool_decide; [right|by left]. split; [done|].
      right. split; [done|]. left. done.
    - split; [done|]. split; [done|]. by left.
    - split; [done|]. split; [done|]. right. split; [done|]. by right. }
  unfold closes. rewrite <- Eio, <- Eq in *. destruct Hc1 as [(Hr & Hm & Hb & Ha)|[Hr Hp]]; rewrite Hr.
  { cbn. destruct (inline_sound t c1) as (ok & c' & -> & H); [done..|]. eauto. }
  change (REDIS_REQ_MULTIBULK =? REDIS_REQ_INLINE) with false.
  change (REDIS_REQ_MULTIBULK =? REDIS_REQ_MULTIBULK) with true. cbn iota.
  destruct Hp as [([Hz|Hz] & _)|[_ Hp]]; [rewrite Hr in Hz; discriminate Hz..|]. unfold processMultibulkBuffer.
  destruct Hp as [(Hm & Hb & Ha & H42)|[Hm Hb]].
  2:{ rewrite (proj2 (Z.eqb_neq _ 0)) by lia.
      destruct (process_bulks_sound c1 0) as (ok & c' & -> & H); [lia|done..|]. exists ok, c'. split; [done|].
      destruct ok; [|done]. unfold ahead in H. split; [apply H|lia]. }
  rewrite Hm, Ha. cbn [Z.eqb]. rewrite bool_decide_eq_true_2 by done. cbn [negb].
  assert (pstate c1) as Hps by (right; split; [done|]; by left).
  destruct (strchr 13 (querybuf c1)) as [nl|] eqn:En.
  2:{ destruct (_ <? _); do 2 eexists; (split; [done|]); [left; apply protocol_error_closes|by right]. }
  apply strchr_bound in En.
  destruct (Z.ltb_spec (zlen (querybuf c1) - 2) nl); [do 2 eexists; split; [done|by right]|].
  rewrite (bool_decide_eq_true_2 (zget (querybuf c1) 0 = Some 42)) by done. cbn [negb].
  destruct (string2ll _) as [ll|]; [|do 2 eexists; split; [done|left; apply protocol_error_closes]].
  destruct (_ <? _); [do 2 eexists; split; [done|left; apply protocol_error_closes]|].
  destruct (Z.leb_spec ll 0).
  { do 2 eexists. split; [done|]. cbn. rewrite sdsrange_from, length_drop by lia. split; [done|lia]. }
  destruct (process_bulks_sound (set_argv (set_multibulklen c1 ll) []) (nl + 2)) as (ok & c' & -> & Hx);
    [cbn; lia|cbn; lia|done|done|].
  exists ok, c'. split; [done|]. destruct ok; [|done]. unfold ahead in Hx. cbn in Hx. split; [apply Hx|lia].
Qed.

(** ** The requests in a stream *)

Definition is_quit (args : list (list Z)) : bool :=
  match head args with Some name => strcaseeq name (bytes_of_string "quit") | None => false end.

(** An executor that only writes the requests down. *)
Definition note (l : list (list (list Z))) (o : outbuf) (args : list (list Z))
  : option (list (list (list Z)) * outbuf * bool) :=
  Some (l ++ [args], if is_quit args then set_flags o (flags o |. REDIS_CLOSE_AFTER_REPLY) else o,
        negb (is_quit args)).

(** A client outside transactions. *)
Definition plain (o : outbuf) : Prop := has_flag o REDIS_MULTI = false /\ has_flag o REDIS_ASKING = false.

Lemma plain_flags o o' : flags o' = flags o -> plain o -> plain o'.
Proof. intros E. unfold plain. by rewrite !(has_flag_eq _ _ _ E). Qed.

Lemma plain_close o o' : flags o' = flags o |. REDIS_CLOSE_AFTER_REPLY -> plain o -> plain o'.
Proof.
  unfold plain, has_flag. intros ->. rewrite !Z.land_lor_distr_l.
  change (REDIS_CLOSE_AFTER_REPLY &. REDIS_MULTI) with 0. change (REDIS_CLOSE_AFTER_REPLY &. REDIS_ASKING) with 0.
  by rewrite !Z.lor_0_r.
Qed.

Lemma plain_reset o : plain o -> reset_io o = o.
Proof.
  intros [Hm Ha]. unfold reset_io. rewrite Hm. cbn [negb]. destruct o as [a f b c d e].
  unfold set_flags. cbn [fd flags replstate buf reply sentlen] in *. f_equal.
  unfold has_flag in Ha. cbn [flags] in Ha. apply negb_false_iff, Z.eqb_eq in Ha.
  rewrite <- Z.ldiff_land. apply Z.bits_inj'. intros i Hi. rewrite Z.ldiff_spec.
  apply (f_equal (fun z => Z.testbit z i)) in Ha. rewrite Z.land_spec, Z.bits_0 in Ha.
  destruct (Z.testbit f i), (Z.testbit REDIS_ASKING i); done.
Qed.

Lemma plain_resetClient c : plain (io c) -> io (resetClient c) = io c.
Proof. intros H. rewrite resetClient_io. by apply plain_reset. Qed.

Lemma reset_pstate c : pstate (resetClient c).
Proof.
  left. unfold resetClient. destruct (negb _); cbn; auto.
Qed.

Section Exec.
Context {St : Type} (exec : St -> outbuf -> list (list Z) -> option (St * outbuf * bool)).
Context (I : St -> Prop).

(** In the states [I] of the server, which commands preserve, commands other
    than [quit] leave the flags alone. *)
Definition obeys : Prop := forall s o args s' o' r,
  I s -> plain o -> exec s o args = Some (s', o', r) ->
  I s' /\ r = negb (is_quit args) /\
  flags o' = if is_quit args then flags o |. REDIS_CLOSE_AFTER_REPLY else flags o.

Fixpoint exec_reqs (s : St) (o : outbuf) (reqs : list (list (list Z))) : option (St * outbuf) :=
  match reqs with
  | [] => Some (s, o)
  | args :: reqs => let? (s, o, _) := exec s o args in exec_reqs s o reqs
  end.

Lemma close_has o o' : flags o' = flags o |. REDIS_CLOSE_AFTER_REPLY -> has_flag o' REDIS_CLOSE_AFTER_REPLY = true.
Proof. intros E. rewrite <- (set_close_flag o). by apply has_flag_eq. Qed.

Lemma processInputBuffer_closing {S} (f : S -> outbuf -> list (list Z) -> option (S * outbuf * bool)) fuel t s c :
  closing c -> processInputBuffer ae f fuel t s c = Some (s, c).
Proof.
  intros H. unfold closing in H. destruct fuel; cbn [processInputBuffer]; rewrite H;
    destruct (bool_decide _), (has_flag (io c) REDIS_BLOCKED); done.
Qed.

Lemma twin_sym c d : twin c d -> twin d c.
Proof. intros [E F]. split; [|done]. rewrite E. by destruct c. Qed.

Lemma twin_flag f c d : twin c d -> has_flag (io d) f = has_flag (io c) f.
Proof. intros [_ F]. by apply has_flag_eq. Qed.

Lemma twin_plain c d : twin c d -> plain (io c) -> plain (io d).
Proof. intros [_ F]. by apply plain_flags. Qed.

Lemma twin_settled c d : twin c d -> closing c \/ pstate c -> closing d \/ pstate d.
Proof.
  intros Ht [Hs|Hs]; [left; unfold closing; by rewrite (twin_flag _ _ _ Ht)|right].
  unfold pstate in *. destruct (twin_fields _ _ Ht) as (-> & -> & -> & -> & -> & _). done.
Qed.

Lemma twin_set_io_both c d o o' : twin c d -> flags o' = flags o -> twin (set_io c o) (set_io d o').
Proof. intros [E F] Hf. split; [by rewrite E|done]. Qed.

(** The client after a request. *)
Definition after (c : qclient) (q : bool) (o : outbuf) : qclient :=
  if negb q then resetClient (set_io c o) else set_io c o.

Lemma after_settled c (q : bool) o :
  plain (io c) -> flags o = (if q then flags (io c) |. REDIS_CLOSE_AFTER_REPLY else flags (io c)) ->
  (closing (after c q o) \/ pstate (after c q o)) /\ plain (io (after c q o)) /\ io (after c q o) = o /\
  querybuf (after c q o) = querybuf c.
Proof.
  intros Hp Hf. unfold after. destruct q; cbn [negb].
  - split; [left; by apply (close_has (io c))|]. split; [by apply (plain_close (io c))|done].
  - assert (plain o) as Hpo by by apply (plain_flags (io c)).
    rewrite plain_resetClient by done. split; [right; apply reset_pstate|]. split; [done|]. split; [done|].
    apply (proj2 (resetClient_idle (set_io c o))).
Qed.

(** The loop, run with [exec] and run with [note]. *)
Lemma input_requests t (Hob : obeys) fuel : forall s l c d,
  I s -> twin c d -> closing c \/ pstate c -> plain (io c) -> (length (querybuf c) <= fuel)%nat ->
  exists reqs d', processInputBuffer ae note fuel t l d = Some (l ++ reqs, d') /\
    (closing d' \/ pstate d') /\ (plain (io d') /\ Forall (fun a => a <> []) reqs) /\
    (forall s' o', exec_reqs s (io c) reqs = Some (s', o') ->
      exists c', processInputBuffer ae exec fuel t s c = Some (s', c') /\ I s' /\ twin d' c' /\
        (closing c' \/ io c' = o')) /\
    (exec_reqs s (io c) reqs = None -> processInputBuffer ae exec fuel t s c = None).
Proof.
  induction fuel as [|fuel IH]; intros s l c d Hi Ht Hs Hpl Hlen; cbn [processInputBuffer];
    rewrite (proj1 (twin_fields _ _ Ht)), !(twin_flag _ _ _ Ht).
  { exists [], d. rewrite app_nil_r. rewrite bool_decide_eq_true_2 by (apply nil_length_inv; lia).
    split; [done|]. split; [by apply (twin_settled c)|]. split; [split; [by apply (twin_plain c)|constructor]|].
    split; [|done].
    intros s' o' [= <- <-]. exists c. split; [done|]. split; [done|]. split; [by apply twin_sym|by right]. }
  assert (exists reqs d', Some (l, d) = Some (l ++ reqs, d') /\
    (closing d' \/ pstate d') /\ (plain (io d') /\ Forall (fun a => a <> []) reqs) /\
    (forall s' o', exec_reqs s (io c) reqs = Some (s', o') -> exists c', Some (s, c) = Some (s', c') /\ I s' /\ twin d' c' /\
      (closing c' \/ io c' = o')) /\ (exec_reqs s (io c) reqs = None -> Some (s, c) = None))
    as Hstay.
  { exists [], d. rewrite app_nil_r. split; [done|]. split; [by apply (twin_settled c)|].
    split; [split; [by apply (twin_plain c)|constructor]|]. split; [|done].
    intros s' o' [= <- <-]. exists c. split; [done|]. split; [done|]. split; [by apply twin_sym|by right]. }
  destruct (decide (querybuf c = [])) as [Hnil|Hnil]; [rewrite bool_decide_eq_true_2 by done; exact Hstay|].
  rewrite bool_decide_eq_false_2 by done.
  destruct (has_flag (io c) REDIS_BLOCKED); [exact Hstay|].
  destruct (has_flag (io c) REDIS_CLOSE_AFTER_REPLY) eqn:Ecl; [exact Hstay|]. clear Hstay.
  destruct Hs as [Hs|Hs]; [unfold closing in Hs; congruence|].
  destruct (process_request_sound t c Hs Hnil) as (ok & c1 & Ec & Hc1).
  pose proof (twin_request t c d Ht) as Htr. rewrite Ec in *. cbn [obind].
  destruct (process_request ae t d) as [[ok' d1]|]; [|done]. destruct Htr as [<- Ht1]. cbn [obind].
  destruct ok; cbn [negb].
  2:{ exists [], d1. rewrite app_nil_r. split; [done|].
      assert ((closing c1 \/ pstate c1) /\ plain (io c1) /\ (closing c1 \/ io c1 = io c)) as (Hs1 & Hpl1 & Hio1).
      { destruct Hc1 as [Hc1|[Hc1 Hf]]; [|rewrite Hf; auto].
        assert (closing c1) by by apply (close_has (io c)).
        split; [by left|]. split; [by apply (plain_close (io c))|by left]. }
      split; [by apply (twin_settled c1)|]. split; [split; [by apply (twin_plain c1)|constructor]|]. split; [|done].
      intros s' o' [= <- <-]. exists c1. split; [done|]. split; [done|]. split; [by apply twin_sym|done]. }
  destruct Hc1 as [Hf1 Hl1]. rewrite <- Hf1 in Hpl |- *. rename Hpl into Hpl1.
  pose proof (twin_plain c1 d1 Ht1 Hpl1) as Hpld1.
  destruct (twin_fields _ _ Ht1) as (_ & _ & _ & Ea & _). rewrite Ea.
  destruct (decide (argv c1 = [])) as [Hargs|Hargs].
  - rewrite !bool_decide_eq_true_2 by done.
    destruct (IH s l (resetClient c1) (resetClient d1)) as (reqs & d' & E & Hs' & Hp' & Hex).
    { done. }
    { by apply twin_reset. }
    { right. apply reset_pstate. }
    { by rewrite plain_resetClient. }
    { rewrite (proj2 (resetClient_idle c1)). lia. }
    exists reqs, d'. split; [exact E|]. split; [done|]. split; [done|]. by rewrite plain_resetClient in Hex by done.
  - rewrite !bool_decide_eq_false_2 by done. cbn [note obind].
    set (q := is_quit (argv c1)).
    set (o2 := if q then set_flags (io d1) (flags (io d1) |. REDIS_CLOSE_AFTER_REPLY) else io d1).
    assert (flags o2 = if q then flags (io d1) |. REDIS_CLOSE_AFTER_REPLY else flags (io d1)) as Ho2
      by (unfold o2; by destruct q).
    destruct (after_settled d1 q o2 Hpld1 Ho2) as (Hsd & Hpd & _ & Eqd).
    fold (after d1 q o2). destruct (twin_fields _ _ Ht1) as (Eq1 & _).
    destruct (exec s (io c1) (argv c1)) as [[[s1 o1] r]|] eqn:Eex.
    + destruct (Hob _ _ _ _ _ _ Hi Hpl1 Eex) as (Hi1 & -> & Ho1). fold q in Ho1 |- *.
      destruct (after_settled c1 q o1 Hpl1 Ho1) as (Hs2 & Hp2 & Eo2 & Eq2).
      destruct (IH s1 (l ++ [argv c1]) (after c1 q o1) (after d1 q o2)) as (reqs & d' & E & Hs' & Hp' & Hex).
      { done. }
      { unfold after. assert (flags o2 = flags o1) by (rewrite Ho1, Ho2, (proj2 Ht1); done).
        destruct (negb q); [apply twin_reset|]; by apply twin_set_io_both. }
      { done. }
      { done. }
      { rewrite Eq2. lia. }
      exists (argv c1 :: reqs), d'. rewrite <- app_assoc in E. split; [exact E|]. split; [done|].
      split; [split; [apply Hp'|constructor; [done|apply Hp']]|].
      cbn [exec_reqs]. rewrite Eex. cbn [obind]. by rewrite Eo2 in Hex.
    + destruct (IH s (l ++ [argv c1]) (after d1 q o2) (after d1 q o2)) as (reqs & d' & E & Hs' & Hp' & _);
        [done|apply twin_refl|done|done|rewrite Eqd, Eq1; lia|].
      exists (argv c1 :: reqs), d'. rewrite <- app_assoc in E. split; [exact E|]. split; [done|].
      split; [split; [apply Hp'|constructor; [done|apply Hp']]|].
      cbn [exec_reqs]. rewrite Eex. split; [done|]. by intros _.
Qed.

Lemma set_peak_settled c n :
  closing c \/ pstate c -> closing (set_peak c n) \/ pstate (set_peak c n).
Proof. done. Qed.

Lemma append_settled c bs :
  closing c \/ pstate c -> closing (set_querybuf c (querybuf c ++ bs)) \/ pstate (set_querybuf c (querybuf c ++ bs)).
Proof.
  intros [H|H]; [by left|right]. unfold pstate in *.
  cbn [set_querybuf querybuf reqtype multibulklen bulklen argv] in *.
  destruct H as [H|(Hr & [(Hm & Hb & Ha & H42)|H])]; [by left|right; split; [done|left]|right; split; [done|by right]].
  split_and!; [done..|]. apply zget_Some in H42 as [? H42]. apply zget_Some. split; [done|].
  by apply lookup_app_l_Some.
Qed.

Lemma twin_set_peak c d n : twin c d -> twin (set_peak c n) (set_peak d n).
Proof. intros [E F]. split; [by rewrite E|done]. Qed.

(** One read. *)
Lemma read_requests t (Hob : obeys) s l c d bs :
  I s -> twin c d -> closing c \/ pstate c -> plain (io c) ->
  exists reqs od, readQueryFromClient ae note t l d (Data bs) = Some (l ++ reqs, od) /\
    Forall (fun a => a <> []) reqs /\
    (forall d', od = Some d' -> (closing d' \/ pstate d') /\ plain (io d')) /\
    (forall s' o', exec_reqs s (io c) reqs = Some (s', o') ->
      exists oc, readQueryFromClient ae exec t s c (Data bs) = Some (s', oc) /\ I s' /\
        match oc, od with
        | Some c', Some d' => twin d' c' /\ (closing c' \/ io c' = o')
        | None, None => True
        | _, _ => False
        end) /\
    (exec_reqs s (io c) reqs = None -> readQueryFromClient ae exec t s c (Data bs) = None).
Proof.
  intros Hi Ht Hs Hp. unfold readQueryFromClient.
  destruct (twin_fields _ _ Ht) as (Eq & _ & _ & _ & _ & Ek). rewrite Eq, Ek.
  set (k := querybuf_peak c <? zlen (querybuf c)). set (n := zlen (querybuf c)).
  assert (exists c1 d1, (if k then set_peak c n else c) = c1 /\ (if k then set_peak d n else d) = d1 /\
    twin c1 d1 /\ (closing c1 \/ pstate c1) /\ io c1 = io c /\ querybuf c1 = querybuf c /\ querybuf d1 = querybuf c)
    as (c1 & d1 & -> & -> & Ht1 & Hs1 & Eio & Eq1 & Eq1').
  { destruct k; do 2 eexists; (split; [done|]; split; [done|]); split_and!; try done.
    by apply twin_set_peak. }
  rewrite Eq1, Eq1'. cbn [set_querybuf querybuf].
  destruct (REDIS_MAX_QUERYBUF_LEN <? _).
  { exists [], None. rewrite app_nil_r. split; [done|]. split; [constructor|]. split; [done|].
    split; [|done]. intros s' o' [= <- <-]. by exists None. }
  destruct (input_requests t Hob (length (querybuf c ++ bs)) s l (set_querybuf c1 (querybuf c ++ bs))
              (set_querybuf d1 (querybuf c ++ bs))) as (reqs & d' & -> & Hs' & Hp' & Hex & Hno).
  { done. }
  { by apply twin_set_querybuf. }
  { rewrite <- Eq1. by apply append_settled. }
  { cbn. by rewrite Eio. }
  { done. }
  cbn [obind]. exists reqs, (Some d'). destruct Hp' as [Hp' Hne]. split; [done|]. split; [done|].
  split; [by intros ? [= <-]|].
  cbn [io set_querybuf] in Hex, Hno. rewrite Eio in Hex, Hno. split; [|by intros ->%Hno].
  intros s' o' Ho.
  destruct (Hex s' o' Ho) as (c' & -> & Hi' & Htw & Hio). cbn [obind]. by exists (Some c').
Qed.

(** Successive reads from a connection, until it is closed. *)
Fixpoint read_all {S} (f : S -> outbuf -> list (list Z) -> option (S * outbuf * bool)) (t : Z) (s : S)
  (c : qclient) (chunks : list (list Z)) : option (S * option qclient) :=
  match chunks with
  | [] => Some (s, Some c)
  | bs :: chunks =>
      let? (s, oc) := readQueryFromClient ae f t s c (Data bs) in
      match oc with Some c => read_all f t s c chunks | None => Some (s, None) end
  end.

Lemma exec_reqs_app s o r1 r2 :
  exec_reqs s o (r1 ++ r2) = let? (s, o) := exec_reqs s o r1 in exec_reqs s o r2.
Proof.
  revert s o. induction r1 as [|a r1 IH]; intros s o; [done|]. cbn [app exec_reqs].
  destruct (exec s o a) as [[[s1 o1] r]|]; cbn [obind]; [apply IH|done].
Qed.

(** A connection that is being closed executes nothing more. *)
Lemma read_all_closing {S} (f : S -> outbuf -> list (list Z) -> option (S * outbuf * bool)) t chunks : forall s c,
  closing c -> exists oc, read_all f t s c chunks = Some (s, oc).
Proof.
  induction chunks as [|bs chunks IH]; intros s c Hc; cbn [read_all]; [eauto|].
  unfold readQueryFromClient. destruct (querybuf_peak c <? _), (_ <? _); cbn [obind]; eauto;
    rewrite processInputBuffer_closing by done; cbn [obind]; by apply IH.
Qed.

Lemma read_all_requests t (Hob : obeys) chunks : forall s l c d,
  I s -> twin c d -> closing c \/ pstate c -> plain (io c) ->
  exists reqs od, read_all note t l d chunks = Some (l ++ reqs, od) /\
    (forall s' o', exec_reqs s (io c) reqs = Some (s', o') ->
       exists oc, read_all exec t s c chunks = Some (s', oc)) /\
    (exec_reqs s (io c) reqs = None -> read_all exec t s c chunks = None).
Proof.
  induction chunks as [|bs chunks IH]; intros s l c d Hi Ht Hs Hp; cbn [read_all].
  { exists [], (Some d). rewrite app_nil_r. split; [done|]. split; [|done]. intros s' o' [= <- <-]. eauto. }
  destruct (read_requests t Hob s l c d bs Hi Ht Hs Hp) as (r1 & od & -> & _ & Hod & Hex & Hno). cbn [obind].
  destruct od as [d1|].
  2:{ exists r1, None. split; [done|]. split; [|by intros ->%Hno].
      intros s' o' Ho. destruct (Hex s' o' Ho) as (oc & -> & _ & Hm).
      cbn [obind]. destruct oc; [done|]. eauto. }
  destruct (Hod d1 eq_refl) as [Hsd Hpd].
  destruct (exec_reqs s (io c) r1) as [[s1 o1]|] eqn:E1.
  2:{ destruct (IH s (l ++ r1) d1 d1 Hi (twin_refl d1) Hsd Hpd) as (r2 & od & -> & _).
      exists (r1 ++ r2), od. rewrite app_assoc. split; [done|]. rewrite exec_reqs_app, E1, Hno by done. done. }
  destruct (Hex s1 o1 eq_refl) as (oc & Er & Hi1 & Hm). destruct oc as [c1|]; [|done]. destruct Hm as [Ht1 Hio].
  apply twin_sym in Ht1. pose proof (twin_settled d1 c1 (twin_sym _ _ Ht1) Hsd) as Hs1.
  pose proof (twin_plain d1 c1 (twin_sym _ _ Ht1) Hpd) as Hp1. rewrite Er. cbn [obind].
  destruct Hio as [Hcl|Hio].
  - assert (closing d1) as Hcd by (unfold closing; by rewrite (twin_flag _ _ _ Ht1)).
    destruct (read_all_closing note t chunks (l ++ r1) d1 Hcd) as [od ->].
    exists r1, od. split; [done|]. rewrite E1. split; [|done]. intros s' o' [= <- <-].
    apply (read_all_closing exec t chunks s1 c1 Hcl).
  - destruct (IH s1 (l ++ r1) c1 d1 Hi1 Ht1 Hs1 Hp1) as (r2 & od & -> & Hex2).
    exists (r1 ++ r2), od. rewrite app_assoc. split; [done|].
    rewrite exec_reqs_app, E1. cbn [obind]. by rewrite <- Hio.
Qed.

(** C9: no input breaks the parser.  Whatever bytes a client sends and
    however they are cut into reads, the parser fails no assertion and stops.
    The requests it extracts are a function of the bytes and the cuts, the
    same for every executor of commands that changes no flag of the client
    but the one that [quit] sets; and serving the connection is executing
    these requests one after the other: it succeeds, with exactly that
    effect, when the execution does, and fails when the execution fails. *)
Theorem parser_executes_requests t s o chunks :
  obeys -> I s -> plain o ->
  exists reqs od, read_all note t [] (fresh_query o) chunks = Some (reqs, od) /\
    (forall s' o', exec_reqs s o reqs = Some (s', o') ->
       exists oc, read_all exec t s (fresh_query o) chunks = Some (s', oc)) /\
    (exec_reqs s o reqs = None -> read_all exec t s (fresh_query o) chunks = None).
Proof.
  intros Hob Hi Hp. destruct (read_all_requests t Hob chunks s [] (fresh_query o) (fresh_query o))
    as (reqs & od & E & Hex); [done|apply twin_refl|right; left; cbn; auto|done|]. by exists reqs, od.
Qed.

End Exec.

End Parser.

(** ** Concrete streams *)
Module Demo.

Lemma note_obeys : obeys note (fun _ => True).
Proof. intros l o args l' o' r _ _ [= <- <- <-]. split; [done|]. split; [done|]. by destruct (is_quit args). Qed.

Definition io0 : outbuf := OutBuf 5 0 0 [] [] 0.

(** A [quit] cut into two reads, with more behind it. *)
Definition hangup : list (list Z) :=
  [bytes_of_string "*1" ++ CRLF ++ bytes_of_string "$4" ++ CRLF ++ bytes_of_string "QU";
   bytes_of_string "IT" ++ CRLF ++ bytes_of_string "chat"].

Lemma parser_executes_requests_witness :
  exists reqs od, read_all QueryProofs.Demo.ae note 0 [] (fresh_query io0) hangup = Some (reqs, od) /\
    (forall s' o', exec_reqs note [] io0 reqs = Some (s', o') ->
       exists oc, read_all QueryProofs.Demo.ae note 0 [] (fresh_query io0) hangup = Some (s', oc)) /\
    (exec_reqs note [] io0 reqs = None ->
       read_all QueryProofs.Demo.ae note 0 [] (fresh_query io0) hangup = None).
Proof.
  apply (parser_executes_requests QueryProofs.Demo.ae note (fun _ => True) 0 [] io0 hangup note_obeys Logic.I).
  split; reflexivity.
Defined.

(** Two lines that end in a bare newline: the parser skips two bytes behind
    each, as if a carriage return were there, so that the second line loses
    its first letter unless it comes in a read of its own. *)
Definition ping_line : list Z := bytes_of_string "ping" ++ [10].
Definition requests_of (chunks : list (list Z)) : option (list (list (list Z))) :=
  fst <$> read_all QueryProofs.Demo.ae note 0 [] (fresh_query io0) chunks.

Example cuts_matter :
  requests_of [ping_line ++ ping_line] = Some [[bytes_of_string "ping"]; [bytes_of_string "ing"]] /\
  requests_of [ping_line; ping_line] = Some [[bytes_of_string "ping"]; [bytes_of_string "ping"]].
Proof. split; vm_compute; reflexivity. Qed.

(** A negative length is answered and the connection marked to be closed. *)
Example negative_length_refused :
  (let? (l, oc) := read_all QueryProofs.Demo.ae note 0 [] (fresh_query io0)
                     [bytes_of_string "*1" ++ CRLF ++ bytes_of_string "$-4" ++ CRLF] in
   let? c := oc in Some (l, buf (io c), has_flag (io c) REDIS_CLOSE_AFTER_REPLY)) =
  Some ([], bytes_of_string "-ERR Protocol error: invalid bulk length" ++ CRLF, true).
Proof. by vm_compute. Qed.

End Demo.

End QuerySafe.
