(* ===== verification/CommandSpec.v ===== *)
(** * What the dispatcher promises *)

From S2P Require Import Prelude Dict DictSpec Reply UserTable Sds Util Query QuerySpec QuerySafe Command.
Import HashTable Output Users Query.

Module CommandProofs.
Import Command QuerySafe.

(** The table with its flags parsed. *)
Definition live_table : list redisCommand :=
  (fun c => RedisCommand (cname c) (proc c) (arity c) (sflags c) (REDIS_CMD_WRITE |. REDIS_CMD_DENYOOM))
    <$> redisCommandTable.

(** The row for a name, in any letter case. *)
Definition find_row (name : list Z) : option redisCommand :=
  List.find (fun c => strcaseeq (cname c) name) live_table.

Definition command_map : gmap (list Z) nat :=
  <[bytes_of_string "r" := 3%nat]> (<[bytes_of_string "register" := 2%nat]>
    (<[bytes_of_string "node" := 1%nat]> {[bytes_of_string "chat" := 0%nat]})).

Lemma command_map_find name :
  match command_map !! (tolower <$> cstr name) with
  | Some j => live_table !! j = find_row name /\ is_Some (live_table !! j)
  | None => find_row name = None
  end.
Proof.
  set (k := tolower <$> cstr name).
  assert (find_row name =
    if bool_decide (bytes_of_string "chat" = k) then live_table !! 0%nat
    else if bool_decide (bytes_of_string "node" = k) then live_table !! 1%nat
    else if bool_decide (bytes_of_string "register" = k) then live_table !! 2%nat
    else if bool_decide (bytes_of_string "r" = k) then live_table !! 3%nat else None) as -> by done.
  unfold command_map. clearbody k.
  destruct (decide (k = bytes_of_string "r")) as [->|H4]; [split; [done|by eexists]|].
  destruct (decide (k = bytes_of_string "register")) as [->|H3]; [split; [done|by eexists]|].
  destruct (decide (k = bytes_of_string "node")) as [->|H2]; [split; [done|by eexists]|].
  destruct (decide (k = bytes_of_string "chat")) as [->|H1]; [split; [done|by eexists]|].
  rewrite !lookup_insert_ne, lookup_singleton_ne by done. by rewrite !bool_decide_eq_false_2.
Qed.

Section Dispatch.
Context {D : Type} `{!UserDict D nat} `{!UserDictSpec D nat}.
Context (same_bucket : D -> list Z -> bool) (ae : Z -> bool).

Definition commands_ok (d : D) (tb : list redisCommand) : Prop :=
  ud_wf d /\ ud_map d = command_map /\ tb = live_table.

Lemma add_command (d : D) (k : cstring) (j : nat) (m : gmap (list Z) nat) :
  ud_wf d -> ud_map d = m -> Z.of_nat (base.size m) < 2 ^ 29 -> m !! canon_case k = None ->
  exists d', ud_add d k j = Some (d', DICT_OK) /\ ud_wf d' /\ ud_map d' = <[canon_case k := j]> m.
Proof. intros Hw <- Hs Hn. by apply ud_add_spec. Qed.

Lemma populate_step (rows : list redisCommand) (c : redisCommand) (j : nat) (d d' : D)
  (tb : list redisCommand) (m : gmap (list Z) nat) (fl : Z) :
  ud_wf d -> ud_wf d' -> ud_map d = m -> ud_map d' = m -> Z.of_nat (base.size m) < 2 ^ 29 ->
  m !! canon_case (sdsnew (cname c)) = None -> parse_flags (sflags c) (cflags c) = Some fl ->
  exists d1 d1', populate (c :: rows) j d d' tb =
      populate rows (S j) d1 d1' (tb ++ [RedisCommand (cname c) (proc c) (arity c) (sflags c) fl]) /\
    ud_wf d1 /\ ud_wf d1' /\ ud_map d1 = <[canon_case (sdsnew (cname c)) := j]> m /\
    ud_map d1' = <[canon_case (sdsnew (cname c)) := j]> m.
Proof.
  intros Hw Hw' Hm Hm' Hs Hn Hf. cbn [populate]. rewrite Hf. cbn [obind].
  destruct (add_command d (sdsnew (cname c)) j m Hw Hm Hs Hn) as (d1 & -> & ? & ?). cbn [obind].
  destruct (add_command d' (sdsnew (cname c)) j m Hw' Hm' Hs Hn) as (d1' & -> & ? & ?). cbn [obind].
  exists d1, d1'. done.
Qed.

Lemma populate_ok : exists d d', populateCommandTable = Some (d, d', live_table) /\ commands_ok d live_table.
Proof.
  unfold populateCommandTable, redisCommandTable.
  assert (ud_wf ud_create /\ ud_map ud_create = ∅) as [H0 M0] by (split; [apply ud_create_wf|apply ud_create_map]).
  do 4 (edestruct populate_step as (? & ? & -> & ? & ? & ? & ?);
    [eassumption|eassumption|eassumption|eassumption|by vm_compute|by vm_compute|by vm_compute|]).
  do 2 eexists. split; [reflexivity|]. split; [done|]. split; [|done]. etrans; [eassumption|]. reflexivity.
Qed.

Lemma lookupCommand_ok d name :
  commands_ok d live_table ->
  exists d', lookupCommand same_bucket d live_table name =
      Some (d', if nonul name || same_bucket d name then find_row name else None) /\
    commands_ok d' live_table.
Proof.
  intros (Hw & Hm & _). unfold lookupCommand. destruct (_ || _); [|exists d; done].
  destruct (ud_fetch_spec d (sdsnew name) Hw) as (d' & -> & Hw' & Hm'). cbn [obind]. rewrite Hm.
  pose proof (command_map_find name) as Hf. change (canon_case (sdsnew name)) with (tolower <$> cstr name).
  exists d'. split; [|split; [done|]; split; [by rewrite Hm', Hm|done]].
  destruct (command_map !! _) as [j|].
  - destruct Hf as [Hf [c Hc]]. rewrite Hc in *. cbn [obind]. by rewrite <- Hf.
  - by rewrite Hf.
Qed.

(** C8: the command table.  Start-up parses every flag and enters every row
    without a panic or a duplicate, and afterwards a lookup finds exactly the
    four commands of the table, in any letter case, each guarded as a write
    that needs memory. *)
Theorem command_table_complete name :
  nonul name = true ->
  exists d d' d2 tb, populateCommandTable = Some (d, d', tb) /\
    lookupCommand same_bucket d tb name =
      Some (d2, List.find (fun c => strcaseeq (cname c) name) tb) /\
    Forall (fun c => cflags c = REDIS_CMD_WRITE |. REDIS_CMD_DENYOOM) tb /\
    (fun c => (cname c, proc c, arity c)) <$> tb = (fun c => (cname c, proc c, arity c)) <$> redisCommandTable.
Proof.
  intros Hn. destruct populate_ok as (d & d' & E & Hok).
  destruct (lookupCommand_ok d name Hok) as (d2 & El & _). rewrite Hn in El.
  exists d, d', d2, live_table. split; [done|]. split; [exact El|]. split; [|done].
  repeat constructor.
Qed.

(** ** The guards *)

(** When a command of the table passes: a client that has given the password
    if one is set, memory to spare, persistence and replication in order, no
    subscription, no loading and no runaway script. *)
Definition admits (g : config) (c : fclient) (o : outbuf) : Prop :=
  (requirepass g = true -> authenticated c = true) /\
  (maxmemory g = 0 \/ free_memory g <> REDIS_ERR) /\
  (masterhost g = false -> aof_last_write_status g <> REDIS_ERR /\
     (stop_writes_on_bgsave_err g = true -> 0 < saveparamslen g -> lastbgsave_status g <> REDIS_ERR)) /\
  (repl_min_slaves_to_write g = 0 \/ repl_min_slaves_max_lag g = 0 \/
   repl_min_slaves_to_write g <= repl_good_slaves_count g) /\
  (masterhost g = true -> repl_slave_ro g = true -> has_flag o REDIS_MASTER = true) /\
  ((pubsub_channels c <= 0) /\ (pubsub_patterns c <= 0)) /\
  (masterhost g = true -> repl_state g = REDIS_REPL_CONNECTED \/ repl_serve_stale_data g = true) /\
  loading g = false /\ lua_timedout g = false.

Lemma guard_step {A} (b : bool) (x : A) (r : option A) (P Q : Prop) :
  (b = false <-> P) -> (r = None <-> Q) -> (if b then Some x else r) = None <-> P /\ Q.
Proof. intros HP HQ. rewrite <- HP, <- HQ. destruct b; intuition congruence. Qed.

(** Decide a guard from the tests in it. *)
Ltac tests :=
  repeat match goal with
  | |- context [?x =? ?y] => destruct (Z.eqb_spec x y)
  | |- context [?x <? ?y] => destruct (Z.ltb_spec x y)
  end; cbn; intuition (congruence || lia).

Lemma gate_admits g c o cmd argv :
  cmd ∈ live_table -> gate ae g c o cmd argv = None <-> admits g c o.
Proof.
  intros Hin. assert (has_cmd_flag cmd REDIS_CMD_DENYOOM = true /\ has_cmd_flag cmd REDIS_CMD_WRITE = true /\
    has_cmd_flag cmd REDIS_CMD_STALE = false /\ has_cmd_flag cmd REDIS_CMD_LOADING = false /\
    Forall (fun p => proc_is cmd p = false) ["authCommand"; "pingCommand"; "subscribeCommand";
      "unsubscribeCommand"; "psubscribeCommand"; "punsubscribeCommand"; "replconfCommand"; "shutdownCommand";
      "scriptCommand"]%string) as (F1 & F2 & F3 & F4 & FP).
  { cbn [live_table redisCommandTable fmap list_fmap] in Hin.
    repeat (apply elem_of_cons in Hin as [->|Hin]; [split_and!; try done; repeat constructor|]).
    by apply elem_of_nil in Hin. }
  rewrite !Forall_cons in FP. destruct FP as (P1 & P2 & P3 & P4 & P5 & P6 & P7 & P8 & P9 & _).
  unfold gate, admits. rewrite F1, F2, F3, F4, P1, P2, P3, P4, P5, P6, P7, P8, P9.
  cbn [negb andb orb]. rewrite !andb_true_r.
  apply guard_step; [destruct (requirepass g), (authenticated c); tests|].
  apply guard_step; [tests|].
  apply guard_step; [destruct (masterhost g), (stop_writes_on_bgsave_err g); tests|].
  apply guard_step; [tests|].
  apply guard_step; [destruct (masterhost g), (repl_slave_ro g), (has_flag o REDIS_MASTER); tests|].
  apply guard_step; [tests|].
  apply guard_step; [destruct (masterhost g), (repl_serve_stale_data g); tests|].
  apply guard_step; [done|]. destruct (lua_timedout g); done.
Qed.

(** ** Running commands *)

Section Run.
Context {W : Type} (run_proc : string -> W -> outbuf -> list (list Z) -> option (W * outbuf * Z)).

Abbreviation process := (processCommand same_bucket ae run_proc).

Definition front_ok (s : front D W) : Prop := commands_ok (commands s) (tbl s).

Lemma find_row_listed name cmd : find_row name = Some cmd -> cmd ∈ live_table /\ strcaseeq (cname cmd) name = true.
Proof. intros H%List.find_some. by rewrite list_elem_of_In. Qed.

Lemma listed_arity cmd : cmd ∈ live_table -> 0 < arity cmd.
Proof.
  assert (Forall (fun c => 0 < arity c) live_table) as H by (repeat constructor).
  rewrite Forall_forall in H. apply H.
Qed.

Lemma not_transaction (cmd : redisCommand) : cmd ∈ live_table ->
  negb (proc_is cmd "execCommand") && negb (proc_is cmd "discardCommand") &&
  negb (proc_is cmd "multiCommand") && negb (proc_is cmd "watchCommand") = true.
Proof.
  assert (Forall (fun c => negb (proc_is c "execCommand") && negb (proc_is c "discardCommand") &&
    negb (proc_is c "multiCommand") && negb (proc_is c "watchCommand") = true) live_table) as H
    by (repeat constructor). rewrite Forall_forall in H. apply H.
Qed.

(** The cases of the dispatcher. *)
Inductive dispatched (s : front D W) (o : outbuf) (argv : list (list Z)) : front D W -> outbuf -> bool -> Prop :=
  | D_quit o' :
      is_quit argv = true -> flags o' = flags o |. REDIS_CLOSE_AFTER_REPLY -> dispatched s o argv s o' false
  | D_refused d o' :
      is_quit argv = false -> (has_flag o REDIS_MULTI = false -> flags o' = flags o) ->
      commands_ok d (tbl s) -> dispatched s o argv (set_commands s d) o' true
  | D_queued d o' cmd :
      is_quit argv = false -> has_flag o REDIS_MULTI = true -> commands_ok d (tbl s) ->
      dispatched s o argv (queue_multi (set_commands s d) cmd argv) o' true
  | D_called d s' o' cmd name rest :
      is_quit argv = false -> argv = name :: rest -> cmd ∈ live_table -> strcaseeq (cname cmd) name = true ->
      zlen argv = arity cmd -> admits (cfg s) (cl s) o -> has_flag o REDIS_MULTI = false ->
      commands_ok d (tbl s) -> call run_proc (set_commands s d) o cmd argv = Some (s', o') ->
      dispatched s o argv s' o' true.

Lemma flagTransaction_plain o : has_flag o REDIS_MULTI = false -> flagTransaction o = o.
Proof. unfold flagTransaction. by intros ->. Qed.

Lemma gate_flags g c o cmd argv o' :
  has_flag o REDIS_MULTI = false -> gate ae g c o cmd argv = Some o' -> flags o' = flags o.
Proof.
  intros Hm. unfold gate. rewrite (flagTransaction_plain o Hm).
  assert (forall t, flags (addReply ae o t) = flags o) as Ha by (intros; apply prepare_append_flags).
  assert (forall t, flags (addReplySds ae o t) = flags o) as Hs by (intros; apply (prepare_append_flags ae)).
  assert (forall t, flags (addReplyError ae o t) = flags o) as He by (intros; apply error_flags).
  intros H. repeat (case_match; simplify_eq); auto.
Qed.

Lemma processCommand_cases s o argv s' o' r :
  front_ok s -> process s o argv = Some (s', o', r) -> dispatched s o argv s' o' r.
Proof.
  intros Hok. unfold processCommand. destruct argv as [|name rest]; [done|]. cbn [head obind].
  destruct (strcaseeq name (bytes_of_string "quit")) eqn:Eq.
  { intros [= <- <- <-]. apply D_quit; [done|]. cbn [set_flags flags]. unfold addReply.
    by rewrite prepare_append_flags. }
  pose proof Hok as (_ & _ & Et). rewrite Et.
  destruct (lookupCommand_ok (commands s) name) as (d & -> & Hd); [rewrite <- Et; exact Hok|]. cbn [obind].
  assert (commands_ok d (tbl s)) as Hd' by by rewrite Et.
  destruct (if _ || _ then _ else None) as [cmd|] eqn:Ef.
  2:{ intros [= <- <- <-]. apply D_refused; [done| |done]. intros Hm. rewrite flagTransaction_plain by done.
      apply error_flags. }
  assert (find_row name = Some cmd) as Hf by (by destruct (_ || _)).
  destruct (find_row_listed _ _ Hf) as [Hin Hnm]. pose proof (listed_arity cmd Hin) as Har.
  rewrite (proj2 (Z.ltb_lt 0 (arity cmd))) by done.
  rewrite (proj2 (Z.ltb_ge _ (- arity cmd))) by lia. rewrite orb_false_r. cbn [andb].
  destruct (Z.eqb_spec (arity cmd) (zlen (name :: rest))) as [Ea|Ea]; cbn [negb].
  2:{ intros [= <- <- <-]. apply D_refused; [done| |done]. intros Hm. rewrite flagTransaction_plain by done.
      apply error_flags. }
  destruct (gate ae _ _ o cmd (name :: rest)) as [o1|] eqn:Eg.
  { intros [= <- <- <-]. apply D_refused; [done| |done]. intros Hm. by eapply gate_flags. }
  rewrite gate_admits in Eg by done. rewrite <- !andb_assoc. pose proof (not_transaction cmd Hin) as Hnt.
  rewrite <- !andb_assoc in Hnt. rewrite Hnt, andb_true_r.
  destruct (has_flag o REDIS_MULTI) eqn:Em.
  { intros [= <- <- <-]. by apply D_queued. }
  destruct (call run_proc (set_commands s d) o cmd (name :: rest)) as [[s1 o1]|] eqn:Ec; [|done]. cbn [obind].
  intros [= <- <- <-]. by apply (D_called s o (name :: rest) d s1 o1 cmd name rest).
Qed.

Lemma call_inv (s : front D W) o cmd argv (s' : front D W) o' :
  call run_proc s o cmd argv = Some (s', o') ->
  exists w o1 o2 dirty, run_proc (proc cmd) (world s) o1 argv = Some (w, o2, dirty) /\
    o1 = set_flags o (flags o &. ~. (REDIS_FORCE_AOF |. REDIS_FORCE_REPL)) /\
    world s' = w /\ commands s' = commands s /\ tbl s' = tbl s /\ cfg s' = cfg s /\ cl s' = cl s /\
    o' = set_flags o2 ((flags o2 &. ~. (REDIS_FORCE_AOF |. REDIS_FORCE_REPL)) |.
                       (flags o &. (REDIS_FORCE_AOF |. REDIS_FORCE_REPL))).
Proof.
  unfold call. intros H. apply obind_Some in H as ([[w o2] dirty] & E & [= <- <-]).
  by exists w, (set_flags o (flags o &. ~. (REDIS_FORCE_AOF |. REDIS_FORCE_REPL))), o2, dirty.
Qed.

(** C7: only the commands of the table act, and only past every guard.  A
    request either leaves the rest of the server, the statistics and the
    propagated effects as they were, or names a row of the table, in any
    letter case, with the right number of words, from a client outside
    transactions that every guard admits, and then the rest of the server
    changes exactly as that row's procedure does. *)
Theorem only_listed_commands_act (s : front D W) o argv (s' : front D W) o' r :
  front_ok s -> process s o argv = Some (s', o', r) ->
  front_ok s' /\ cfg s' = cfg s /\
  ((world s' = world s /\ stat_numcommands s' = stat_numcommands s /\ trace s' = trace s) \/
   exists cmd name rest o1 o2 dirty, argv = name :: rest /\ cmd ∈ live_table /\
     strcaseeq (cname cmd) name = true /\ zlen argv = arity cmd /\ has_flag o REDIS_MULTI = false /\
     admits (cfg s) (cl s) o /\
     run_proc (proc cmd) (world s) o1 argv = Some (world s', o2, dirty)).
Proof.
  intros Hok H. destruct (processCommand_cases _ _ _ _ _ _ Hok H)
    as [o'|d o' _ _ Hd|d o' cmd _ _ Hd|d s1 o1 cmd name rest _ -> Hin Hnm Hl Ha Hm Hd Hc].
  - split; [exact Hok|]. split; [done|]. by left.
  - split; [exact Hd|]. split; [done|]. by left.
  - split; [exact Hd|]. split; [done|]. by left.
  - destruct (call_inv _ _ _ _ _ _ Hc) as (w & i1 & i2 & dirty & Hr & _ & Hw & Ecm & Et & Ecf & _).
    split; [unfold front_ok; rewrite Ecm, Et; exact Hd|]. split; [done|]. right.
    exists cmd, name, rest, i1, i2, dirty. rewrite Hw. by split_and!.
Qed.

(** The dispatcher obeys the input loop's contract. *)
Lemma force_restored f : (f &. ~. (REDIS_FORCE_AOF |. REDIS_FORCE_REPL)) &. ~. (REDIS_FORCE_AOF |. REDIS_FORCE_REPL)
  |. (f &. (REDIS_FORCE_AOF |. REDIS_FORCE_REPL)) = f.
Proof.
  set (m := REDIS_FORCE_AOF |. REDIS_FORCE_REPL). apply Z.bits_inj'. intros i Hi.
  rewrite Z.lor_spec, !Z.land_spec, Z.lnot_spec by lia. by destruct (Z.testbit f i), (Z.testbit m i).
Qed.

Lemma dispatched_flags s o argv s' o' r :
  (forall p w o a w' o' d, run_proc p w o a = Some (w', o', d) -> flags o' = flags o) ->
  has_flag o REDIS_MULTI = false -> dispatched s o argv s' o' r ->
  r = negb (is_quit argv) /\
  flags o' = if is_quit argv then flags o |. REDIS_CLOSE_AFTER_REPLY else flags o.
Proof.
  intros Hrun Hm Hd. destruct Hd as [o' Hq Hf|d o' Hq Hf _|d o' cmd Hq Hm'|d s1 o1 cmd name rest Hq _ _ _ _ _ _ _ Hc];
    rewrite Hq; cbn [negb].
  - done.
  - split; [done|]. by apply Hf.
  - congruence.
  - split; [done|]. destruct (call_inv _ _ _ _ _ _ Hc) as (w & i1 & i2 & dirty & Hr & E1 & _ & _ & _ & _ & _ & ->).
    cbn [set_flags flags]. rewrite (Hrun _ _ _ _ _ _ _ Hr), E1. cbn [set_flags flags]. apply force_restored.
Qed.

End Run.

End Dispatch.

(** ** A concrete table *)
Module Demo.
Import DictRefinement DictImpl.

#[local] Instance ud : UserDict (dict cstring nat) nat := dict_userdict 5381 true.
#[local] Instance ud_spec : UserDictSpec (dict cstring nat) nat := dict_userdict_spec 5381 true.

Definition never (d : dict cstring nat) (name : list Z) : bool := false.

Lemma command_table_complete_witness :
  exists d d' d2 tb, populateCommandTable (D := dict cstring nat) = Some (d, d', tb) /\
    lookupCommand never d tb (bytes_of_string "ChAt") =
      Some (d2, List.find (fun c => strcaseeq (cname c) (bytes_of_string "ChAt")) tb) /\
    Forall (fun c => cflags c = REDIS_CMD_WRITE |. REDIS_CMD_DENYOOM) tb /\
    (fun c => (cname c, proc c, arity c)) <$> tb = (fun c => (cname c, proc c, arity c)) <$> redisCommandTable.
Proof. apply (command_table_complete never (bytes_of_string "ChAt")). reflexivity. Defined.

(** Procedures that count. *)
Definition count (name : string) (w : nat) (o : outbuf) (argv : list (list Z)) : option (nat * outbuf * Z) :=
  Some (S w, o, 0).

Definition ae (fd : Z) : bool := true.
Definition io0 : outbuf := OutBuf 5 0 0 [] [] 0.
Definition normal : config := Config false 0 0 true 3 0 0 [] false 0 10 0 true 0 true false false 0.
Definition nobody : fclient := FClient false 0 0 [].

Definition say : list (list Z) :=
  [bytes_of_string "chat"; bytes_of_string "say"; bytes_of_string "bob"; bytes_of_string "hi"].

Lemma only_listed_commands_act_witness :
  exists f0 f1 o1 r, processCommand never ae count f0 io0 say = Some (f1, o1, r) /\
    front_ok f1 /\ cfg f1 = cfg f0 /\
    ((world f1 = world f0 /\ stat_numcommands f1 = stat_numcommands f0 /\ trace f1 = trace f0) \/
     exists cmd name rest o1 o2 dirty, say = name :: rest /\ cmd ∈ live_table /\
       strcaseeq (cname cmd) name = true /\ zlen say = arity cmd /\ has_flag io0 REDIS_MULTI = false /\
       admits (cfg f0) (cl f0) io0 /\
       count (proc cmd) (world f0) o1 say = Some (world f1, o2, dirty)).
Proof.
  destruct (populate_ok (D := dict cstring nat)) as (d & d' & E & Hok).
  destruct (processCommand never ae count (Front normal d live_table nobody 0 [] 0%nat) io0 say)
    as [[[f1 o1] r]|] eqn:Ep.
  - exists (Front normal d live_table nobody 0 [] 0%nat), f1, o1, r. split; [exact Ep|].
    exact (only_listed_commands_act never ae count (Front normal d live_table nobody 0 [] 0%nat) io0 say f1 o1 r Hok Ep).
  - exfalso. vm_compute in E. injection E as <- <-. vm_compute in Ep. discriminate Ep.
Defined.

End Demo.

End CommandProofs.
