(* ===== verification/Config.v ===== *)
(** * The configuration of the chat server

    [config.c] up to [loadServerConfig], with [memtoll] and [pathIsBaseName]
    of [util.c], [keyspaceEventsStringToFlags] of [notify.c],
    [getClientLimitClassByName] of [networking.c], the defaults of
    [initServerConfig] and the part of [main] that turns the command line
    into directives ([redis.c]).

    The members of [struct redisServer] that a directive can set are the
    fields of [config]: integers by name in [num], strings by name in [str].
    A value is reduced to the width of its member when it is stored.  What
    the process would see of the machine is a record [environ]: directories,
    files and standard input.  A directive that the code refuses ends the
    process; the result says where and why.  The server is not in sentinel
    mode. *)

From stdpp Require Export functions.
From S2P Require Import Prelude Dict UserTable Sds Util Libc SdsBuf SdsBufSpec OutObj Command.

Module Config.
Import HashTable Users Sds Util Libc Objects.
#[local] Open Scope Z_scope.

(** ** Members *)

(** Integer members of [struct redisServer]. *)
Inductive nfield :=
  | maxidletime | tcpkeepalive | port | tcp_backlog | unixsocketperm | verbosity
  | syslog_enabled | syslog_facility | dbnum | maxclients | maxmemory | maxmemory_policy
  | maxmemory_samples | masterport | repl_state | repl_ping_slave_period | repl_timeout
  | repl_disable_tcp_nodelay | repl_backlog_size | repl_backlog_time_limit
  | repl_serve_stale_data | repl_slave_ro | rdb_compression | rdb_checksum
  | activerehashing | daemonize | hz | aof_state | aof_no_fsync_on_rewrite | aof_fsync
  | aof_rewrite_perc | aof_rewrite_min_size | aof_rewrite_incremental_fsync
  | hash_max_ziplist_entries | hash_max_ziplist_value | list_max_ziplist_entries
  | list_max_ziplist_value | set_max_intset_entries | zset_max_ziplist_entries
  | zset_max_ziplist_value | lua_time_limit | slowlog_log_slower_than | slowlog_max_len
  | stop_writes_on_bgsave_err | slave_priority | repl_min_slaves_to_write
  | repl_min_slaves_max_lag | notify_keyspace_events.

(** String members; [None] is a null pointer. *)
Inductive sfield :=
  | unixsocket | logfile | syslog_ident | masterhost | masterauth | aof_filename
  | requirepass | pidfile | rdb_filename.

#[global] Instance nfield_eq_dec : EqDecision nfield.
Proof. solve_decision. Defined.

#[global] Instance sfield_eq_dec : EqDecision sfield.
Proof. solve_decision. Defined.

(** How a member of the type of [f] stores a value. *)
Definition store (f : nfield) (v : Z) : Z :=
  match f with
  | unixsocketperm | maxclients => u32 v
  | maxmemory | slowlog_max_len
  | hash_max_ziplist_entries | hash_max_ziplist_value | list_max_ziplist_entries
  | list_max_ziplist_value | set_max_intset_entries | zset_max_ziplist_entries
  | zset_max_ziplist_value => u64 v
  | repl_backlog_size | repl_backlog_time_limit | aof_rewrite_min_size
  | lua_time_limit | slowlog_log_slower_than => s64 v
  | _ => s32 v
  end.

(** Constants of [redis.h]. *)
Definition REDIS_MIN_HZ : Z := 1.
Definition REDIS_MAX_HZ : Z := 500.
Definition REDIS_BINDADDR_MAX : Z := 16.
Definition REDIS_AUTHPASS_MAX_LEN : Z := 512.
Definition REDIS_REPL_BACKLOG_MIN_SIZE : Z := 1024 * 16.
Definition REDIS_CONFIGLINE_MAX : Z := 1024.
Definition REDIS_REPL_CONNECT : Z := 1.

Definition validSyslogFacilities : list (string * Z) :=
  [("user", 8); ("local0", 128); ("local1", 136); ("local2", 144); ("local3", 152);
   ("local4", 160); ("local5", 168); ("local6", 176); ("local7", 184)]%string.

Definition clientBufferLimitsDefaults : list clientBufferLimitsConfig :=
  [Limit 0 0 0; Limit (1024 * 1024 * 256) (1024 * 1024 * 64) 60; Limit (1024 * 1024 * 32) (1024 * 1024 * 8) 60].

(** ** Conversions of arguments *)

(** [!strcasecmp(s, name)] *)
Definition named (s : list Z) (name : string) : bool := strcaseeq s (bytes_of_string name).

Definition yesnotoi (s : list Z) : Z := if named s "yes" then 1 else if named s "no" then 0 else -1.

(** The first byte that is not part of the number, as an offset. *)
Definition unit_offset (p : list Z) : Z :=
  match p with
  | c :: r => if c =? 45 then 1 + zlen (span_digits 10 r).1 else zlen (span_digits 10 p).1
  | [] => 0
  end.

Definition unit_mul (u : list Z) : option Z :=
  if bool_decide (u = []) || named u "b" then Some 1
  else if named u "k" then Some 1000
  else if named u "kb" then Some 1024
  else if named u "m" then Some (1000 * 1000)
  else if named u "mb" then Some (1024 * 1024)
  else if named u "g" then Some (1000 * 1000 * 1000)
  else if named u "gb" then Some (1024 * 1024 * 1024)
  else None.

(** The number of bytes and [*err]. *)
Definition memtoll (s : list Z) : Z * Z :=
  let p := cstr s in
  let digits := unit_offset p in
  let '(err, mul) :=
    match unit_mul (drop (Z.to_nat digits) p) with Some m => (0, m) | None => (1, 1) end in
  if 128 <=? u32 digits then (LLONG_MAX, 1)
  else (s64 (strtoll (take (Z.to_nat digits) p) * mul), err).

Definition pathIsBaseName (path : list Z) : bool :=
  match strchr 47 path, strchr 92 path with None, None => true | _, _ => false end.

Definition getClientLimitClassByName (name : list Z) : Z :=
  if named name "normal" then 0 else if named name "slave" then 1 else if named name "pubsub" then 2 else -1.

Definition REDIS_NOTIFY_ALL : Z := 4 |. 8 |. 16 |. 32 |. 64 |. 128 |. 256 |. 512.

Definition event_flag (c : Z) : option Z :=
  if c =? 65 then Some REDIS_NOTIFY_ALL          (* A *)
  else if c =? 103 then Some (1 ≪ 2)             (* g *)
  else if c =? 36 then Some (1 ≪ 3)              (* $ *)
  else if c =? 108 then Some (1 ≪ 4)             (* l *)
  else if c =? 115 then Some (1 ≪ 5)             (* s *)
  else if c =? 104 then Some (1 ≪ 6)             (* h *)
  else if c =? 122 then Some (1 ≪ 7)             (* z *)
  else if c =? 120 then Some (1 ≪ 8)             (* x *)
  else if c =? 101 then Some (1 ≪ 9)             (* e *)
  else if c =? 75 then Some (1 ≪ 0)              (* K *)
  else if c =? 69 then Some (1 ≪ 1)              (* E *)
  else None.

Fixpoint event_flags (classes : list Z) (flags : Z) : Z :=
  match classes with
  | [] => flags
  | c :: classes => match event_flag c with Some f => event_flags classes (flags |. f) | None => -1 end
  end.

Definition keyspaceEventsStringToFlags (classes : list Z) : Z := event_flags (cstr classes) 0.

(** ** Deletion from the command dictionary *)

Class DictDelete (D : Type) := ud_delete : D -> cstring -> option (D * Z).

(** ** State *)

Record environ := Environ {
  (* the arguments of the successful calls of chdir so far decide what a path means *)
  env_chdir : list (list Z) -> list Z -> bool;
  env_open : list (list Z) -> list Z -> option (list Z);         (* the contents of a file *)
  env_append : list (list Z) -> list Z -> option (list Z)        (* [strerror] when it cannot be opened *)
}.

Section Loader.
Context {D : Type} `{!UserDict D nat} `{!DictDelete D} (env : environ).

Record config := Config {
  num : nfield -> Z;
  str : sfield -> option (list Z);
  saveparams : list (Z * Z);
  bindaddr : list (list Z);
  obuf_limits : list clientBufferLimitsConfig;
  commands : D;
  cwd : list (list Z);
  stdin : list Z }.

Definition set_num (s : config) (f : nfield) (v : Z) : config :=
  Config (<[f := store f v]> (num s)) (str s) (saveparams s) (bindaddr s) (obuf_limits s) (commands s) (cwd s) (stdin s).
(** [zstrdup] *)
Definition set_str (s : config) (f : sfield) (v : list Z) : config :=
  Config (num s) (<[f := Some (cstr v)]> (str s)) (saveparams s) (bindaddr s) (obuf_limits s) (commands s) (cwd s) (stdin s).
Definition set_save (s : config) (l : list (Z * Z)) : config :=
  Config (num s) (str s) l (bindaddr s) (obuf_limits s) (commands s) (cwd s) (stdin s).
Definition set_bind (s : config) (l : list (list Z)) : config :=
  Config (num s) (str s) (saveparams s) l (obuf_limits s) (commands s) (cwd s) (stdin s).
Definition set_limits (s : config) (l : list clientBufferLimitsConfig) : config :=
  Config (num s) (str s) (saveparams s) (bindaddr s) l (commands s) (cwd s) (stdin s).
Definition set_commands (s : config) (d : D) : config :=
  Config (num s) (str s) (saveparams s) (bindaddr s) (obuf_limits s) d (cwd s) (stdin s).
Definition set_cwd (s : config) (l : list (list Z)) : config :=
  Config (num s) (str s) (saveparams s) (bindaddr s) (obuf_limits s) (commands s) l (stdin s).
Definition set_stdin (s : config) (l : list Z) : config :=
  Config (num s) (str s) (saveparams s) (bindaddr s) (obuf_limits s) (commands s) (cwd s) l.

Definition appendServerSaveParams (s : config) (seconds changes : Z) : config :=
  set_save s (saveparams s ++ [(seconds, changes)]).
Definition resetServerSaveParams (s : config) : config := set_save s [].

(** At start up no backlog is allocated. *)
Definition resizeReplicationBacklog (s : config) (newsize : Z) : config :=
  let newsize := if newsize <? REDIS_REPL_BACKLOG_MIN_SIZE then REDIS_REPL_BACKLOG_MIN_SIZE else newsize in
  if num s repl_backlog_size =? newsize then s else set_num s repl_backlog_size newsize.

(** ** Directives *)

(** How the process ends when it does not go on: at the label [loaderr] with
    the line and the message, or at an [exit] after a message in the log. *)
Inductive failure :=
  | LoadErr (linenum : Z) (line err : list Z)
  | CannotChdir (dir : list Z)
  | CannotOpen (filename : list Z)
  | Quit.                                 (* [--version], [--help], [--test-memory] *)

(** [goto loaderr], or an exit of its own. *)
Inductive outcome :=
  | Done (s : config)
  | Err (err : list Z)
  | Stop (f : failure).

Definition err (e : string) : outcome := Err (bytes_of_string e).

(** [server.f = v; if (!ok) ...goto loaderr] *)
Definition num_field (s : config) (f : nfield) (v : Z) (ok : Z -> bool) (e : string) : outcome :=
  let s := set_num s f v in if ok (num s f) then Done s else err e.

Definition yesno_field (s : config) (f : nfield) (arg : list Z) : outcome :=
  num_field s f (yesnotoi arg) (fun v => negb (v =? -1)) "argument must be 'yes' or 'no'".

(** A list of names, each with the value it stands for. *)
Fixpoint choose (arg : list Z) (table : list (string * Z)) : option Z :=
  match table with
  | [] => None
  | (name, v) :: table => if named arg name then Some v else choose arg table
  end.

Definition choice_field (s : config) (f : nfield) (arg : list Z) (table : list (string * Z)) (e : string) : outcome :=
  match choose arg table with Some v => Done (set_num s f v) | None => err e end.

Definition do_bind (s : config) (addresses : list (list Z)) : outcome :=
  if REDIS_BINDADDR_MAX <? zlen addresses then err "Too many bind addresses specified"
  else Done (set_bind s (cstr <$> addresses)).

Definition do_unixsocketperm (s : config) (arg : list Z) : outcome :=
  let '(v, _, erange) := strto 8 arg in
  let s := set_num s unixsocketperm v in
  if erange || (511 <? num s unixsocketperm) then err "Invalid socket file permissions" else Done s.

Definition do_save (s : config) (args : list (list Z)) : outcome :=
  match args with
  | [a; b] =>
      let seconds := atoi a in
      let changes := atoi b in
      if (seconds <? 1) || (changes <? 0) then err "Invalid save parameters"
      else Done (appendServerSaveParams s seconds changes)
  | [a] => if named a "" then Done (resetServerSaveParams s) else Done s
  | _ => Done s
  end.

Definition do_logfile (s : config) (arg : list Z) : outcome :=
  let s := set_str s logfile arg in
  if bool_decide (cstr arg = []) then Done s else
  match env_append env (cwd s) (cstr arg) with
  | Some e => Err (bytes_of_string "Can't open the log file: " ++ e)
  | None => Done s
  end.

Definition do_hz (s : config) (arg : list Z) : outcome :=
  let s := set_num s hz (atoi arg) in
  let s := if num s hz <? REDIS_MIN_HZ then set_num s hz REDIS_MIN_HZ else s in
  let s := if REDIS_MAX_HZ <? num s hz then set_num s hz REDIS_MAX_HZ else s in
  Done s.

Definition do_backlog (s : config) (arg : list Z) : outcome :=
  let size := (memtoll arg).1 in
  if size <=? 0 then err "repl-backlog-size must be 1 or greater."
  else Done (resizeReplicationBacklog s size).

Definition do_limit (s : config) (a1 a2 a3 a4 : list Z) : outcome :=
  let class := getClientLimitClassByName a1 in
  if class =? -1 then err "Unrecognized client limit class" else
  let hard := u64 (memtoll a2).1 in
  let soft := u64 (memtoll a3).1 in
  let soft_seconds := atoi a4 in
  if soft_seconds <? 0 then err "Negative number of seconds in soft limit is invalid"
  else Done (set_limits s (<[Z.to_nat class := Limit hard soft soft_seconds]> (obuf_limits s))).

Definition do_notify (s : config) (arg : list Z) : outcome :=
  let flags := keyspaceEventsStringToFlags arg in
  if flags =? -1 then err "Invalid event class character. Use 'g$lshzxeA'."
  else Done (set_num s notify_keyspace_events flags).

(** [None]: the assertion fails, or a name has an embedded zero byte (it
    would be hashed whole and compared up to the zero), which is left out. *)
Definition do_rename (s : config) (old new : list Z) : option outcome :=
  if negb (nonul old && nonul new) then None else
  let? (d, cmd) := ud_fetch (commands s) (sdsnew old) in
  match cmd with
  | None => Some (err "No such command in rename-command")
  | Some cmd =>
      let? (d, retval) := ud_delete d (sdsnew old) in
      if negb (retval =? DICT_OK) then None else
      if negb (zlen new =? 0) then
        let? (d, retval) := ud_add d (sdsnew new) cmd in
        if negb (retval =? DICT_OK) then Some (err "Target command name already exists")
        else Some (Done (set_commands s d))
      else Some (Done (set_commands s d))
  end.

(** The directives about the process, its sockets, logs and limits; [argv]
    is not empty, [rest] handles what is none of them. *)
Definition exec_general (include : config -> list Z -> option outcome) (s : config) (argv : list (list Z))
    (rest : option outcome) : option outcome :=
  let argc := zlen argv in
  let dir n := named (nth 0 argv []) n in
  let a1 := nth 1 argv [] in
  let int f ok e := Some (num_field s f (atoi a1) ok e) in
  if dir "timeout" && (argc =? 2) then int maxidletime (fun v => 0 <=? v) "Invalid timeout value"
  else if dir "tcp-keepalive" && (argc =? 2) then int tcpkeepalive (fun v => 0 <=? v) "Invalid tcp-keepalive value"
  else if dir "port" && (argc =? 2) then int port (fun v => (0 <=? v) && (v <=? 65535)) "Invalid port"
  else if dir "tcp-backlog" && (argc =? 2) then int tcp_backlog (fun v => 0 <=? v) "Invalid backlog value"
  else if dir "bind" && (2 <=? argc) then Some (do_bind s (tail argv))
  else if dir "unixsocket" && (argc =? 2) then Some (Done (set_str s unixsocket a1))
  else if dir "unixsocketperm" && (argc =? 2) then Some (do_unixsocketperm s a1)
  else if dir "save" then Some (do_save s (tail argv))
  else if dir "dir" && (argc =? 2) then
    Some (if env_chdir env (cwd s) (cstr a1) then Done (set_cwd s (cwd s ++ [cstr a1]))
          else Stop (CannotChdir (cstr a1)))
  else if dir "loglevel" && (argc =? 2) then
    Some (choice_field s verbosity a1 [("debug", 0); ("verbose", 1); ("notice", 2); ("warning", 3)]%string
            "Invalid log level. Must be one of debug, notice, warning")
  else if dir "logfile" && (argc =? 2) then Some (do_logfile s a1)
  else if dir "syslog-enabled" && (argc =? 2) then Some (yesno_field s syslog_enabled a1)
  else if dir "syslog-ident" && (argc =? 2) then Some (Done (set_str s syslog_ident a1))
  else if dir "syslog-facility" && (argc =? 2) then
    Some (choice_field s syslog_facility a1 validSyslogFacilities
            "Invalid log facility. Must be one of USER or between LOCAL0-LOCAL7")
  else if dir "databases" && (argc =? 2) then int dbnum (fun v => 1 <=? v) "Invalid number of databases"
  else if dir "include" && (argc =? 2) then include s a1
  else if dir "maxclients" && (argc =? 2) then int maxclients (fun v => 1 <=? v) "Invalid max clients limit"
  else if dir "maxmemory" && (argc =? 2) then Some (Done (set_num s maxmemory (memtoll a1).1))
  else if dir "maxmemory-policy" && (argc =? 2) then
    Some (choice_field s maxmemory_policy a1
            [("volatile-lru", 0); ("volatile-random", 2); ("volatile-ttl", 1); ("allkeys-lru", 3);
             ("allkeys-random", 4); ("noeviction", 5)]%string "Invalid maxmemory policy")
  else if dir "maxmemory-samples" && (argc =? 2) then
    int maxmemory_samples (fun v => 1 <=? v) "maxmemory-samples must be 1 or greater"
  else rest.

(** Replication and persistence. *)
Definition exec_persist (s : config) (argv : list (list Z)) (rest : option outcome) : option outcome :=
  let argc := zlen argv in
  let dir n := named (nth 0 argv []) n in
  let a1 := nth 1 argv [] in
  let int f ok e := Some (num_field s f (atoi a1) ok e) in
  let yesno f := Some (yesno_field s f a1) in
  if dir "slaveof" && (argc =? 3) then
    Some (Done (set_num (set_num (set_str s masterhost a1) masterport (atoi (nth 2 argv [])))
                  repl_state REDIS_REPL_CONNECT))
  else if dir "repl-ping-slave-period" && (argc =? 2) then
    int repl_ping_slave_period (fun v => 1 <=? v) "repl-ping-slave-period must be 1 or greater"
  else if dir "repl-timeout" && (argc =? 2) then int repl_timeout (fun v => 1 <=? v) "repl-timeout must be 1 or greater"
  else if dir "repl-disable-tcp-nodelay" && (argc =? 2) then yesno repl_disable_tcp_nodelay
  else if dir "repl-backlog-size" && (argc =? 2) then Some (do_backlog s a1)
  else if dir "repl-backlog-ttl" && (argc =? 2) then
    int repl_backlog_time_limit (fun v => 0 <=? v) "repl-backlog-ttl can't be negative "
  else if dir "masterauth" && (argc =? 2) then Some (Done (set_str s masterauth a1))
  else if dir "slave-serve-stale-data" && (argc =? 2) then yesno repl_serve_stale_data
  else if dir "slave-read-only" && (argc =? 2) then yesno repl_slave_ro
  else if dir "rdbcompression" && (argc =? 2) then yesno rdb_compression
  else if dir "rdbchecksum" && (argc =? 2) then yesno rdb_checksum
  else if dir "activerehashing" && (argc =? 2) then yesno activerehashing
  else if dir "daemonize" && (argc =? 2) then yesno daemonize
  else if dir "hz" && (argc =? 2) then Some (do_hz s a1)
  else if dir "appendonly" && (argc =? 2) then
    Some (if yesnotoi a1 =? -1 then err "argument must be 'yes' or 'no'"
          else Done (set_num s aof_state (if yesnotoi a1 =? 0 then 0 else 1)))
  else if dir "appendfilename" && (argc =? 2) then
    Some (if negb (pathIsBaseName a1) then err "appendfilename can't be a path, just a filename"
          else Done (set_str s aof_filename a1))
  else if dir "no-appendfsync-on-rewrite" && (argc =? 2) then yesno aof_no_fsync_on_rewrite
  else if dir "appendfsync" && (argc =? 2) then
    Some (choice_field s aof_fsync a1 [("no", 0); ("always", 1); ("everysec", 2)]%string
            "argument must be 'no', 'always' or 'everysec'")
  else if dir "auto-aof-rewrite-percentage" && (argc =? 2) then
    int aof_rewrite_perc (fun v => 0 <=? v) "Invalid negative percentage for AOF auto rewrite"
  else if dir "auto-aof-rewrite-min-size" && (argc =? 2) then
    Some (Done (set_num s aof_rewrite_min_size (memtoll a1).1))
  else if dir "aof-rewrite-incremental-fsync" && (argc =? 2) then yesno aof_rewrite_incremental_fsync
  else rest.

(** The rest of the chain. *)
Definition exec_other (s : config) (argv : list (list Z)) : option outcome :=
  let argc := zlen argv in
  let dir n := named (nth 0 argv []) n in
  let a1 := nth 1 argv [] in
  let int f ok e := Some (num_field s f (atoi a1) ok e) in
  let mem f := Some (Done (set_num s f (memtoll a1).1)) in
  let ll f := Some (Done (set_num s f (strtoll a1))) in
  if dir "requirepass" && (argc =? 2) then
    Some (if REDIS_AUTHPASS_MAX_LEN <? strlen a1 then err "Password is longer than REDIS_AUTHPASS_MAX_LEN"
          else Done (set_str s requirepass a1))
  else if dir "pidfile" && (argc =? 2) then Some (Done (set_str s pidfile a1))
  else if dir "dbfilename" && (argc =? 2) then
    Some (if negb (pathIsBaseName a1) then err "dbfilename can't be a path, just a filename"
          else Done (set_str s rdb_filename a1))
  else if dir "hash-max-ziplist-entries" && (argc =? 2) then mem hash_max_ziplist_entries
  else if dir "hash-max-ziplist-value" && (argc =? 2) then mem hash_max_ziplist_value
  else if dir "list-max-ziplist-entries" && (argc =? 2) then mem list_max_ziplist_entries
  else if dir "list-max-ziplist-value" && (argc =? 2) then mem list_max_ziplist_value
  else if dir "set-max-intset-entries" && (argc =? 2) then mem set_max_intset_entries
  else if dir "zset-max-ziplist-entries" && (argc =? 2) then mem zset_max_ziplist_entries
  else if dir "zset-max-ziplist-value" && (argc =? 2) then mem zset_max_ziplist_value
  else if dir "rename-command" && (argc =? 3) then do_rename s a1 (nth 2 argv [])
  else if dir "lua-time-limit" && (argc =? 2) then ll lua_time_limit
  else if dir "slowlog-log-slower-than" && (argc =? 2) then ll slowlog_log_slower_than
  else if dir "slowlog-max-len" && (argc =? 2) then ll slowlog_max_len
  else if dir "client-output-buffer-limit" && (argc =? 5) then
    Some (do_limit s a1 (nth 2 argv []) (nth 3 argv []) (nth 4 argv []))
  else if dir "stop-writes-on-bgsave-error" && (argc =? 2) then Some (yesno_field s stop_writes_on_bgsave_err a1)
  else if dir "slave-priority" && (argc =? 2) then Some (Done (set_num s slave_priority (atoi a1)))
  else if dir "min-slaves-to-write" && (argc =? 2) then
    int repl_min_slaves_to_write (fun v => 0 <=? v) "Invalid value for min-slaves-to-write."
  else if dir "min-slaves-max-lag" && (argc =? 2) then
    int repl_min_slaves_max_lag (fun v => 0 <=? v) "Invalid value for min-slaves-max-lag."
  else if dir "notify-keyspace-events" && (argc =? 2) then Some (do_notify s a1)
  else if dir "sentinel" then
    Some (if negb (argc =? 1) then err "sentinel directive while not in sentinel mode" else Done s)
  else Some (err "Bad directive or wrong number of arguments").

(** One directive; its name is lowered first. *)
Definition exec (include : config -> list Z -> option outcome) (s : config) (argv : list (list Z)) : option outcome :=
  let argv := match argv with a :: l => (tolower <$> a) :: l | [] => [] end in
  exec_general include s argv (exec_persist s argv (exec_other s argv)).

(** ** Files *)

(** The tokens of [sdssplitlen(config,strlen(config),"\n",1,..)]; where that
    gives none, for an empty text, this gives one blank line, which is skipped. *)
Fixpoint split_nl (s : list Z) : list (list Z) :=
  match s with
  | [] => [[]]
  | c :: s =>
      if c =? 10 then [] :: split_nl s
      else match split_nl s with l :: ls => (c :: l) :: ls | [] => [[c]] end
  end.

Definition blanks : list Z := [32; 9; 13; 10].

(** [sdstrim(lines[i]," \t\r\n")], in the meaning [SdsBufSpec] gives it. *)
Definition trim_line (l : list Z) : list Z := SdsBufProofs.strip (SdsBuf.in_cset blanks) l.

Fixpoint load_lines (include : config -> list Z -> option outcome) (linenum : Z) (lines : list (list Z)) (s : config)
  : option (config + failure) :=
  match lines with
  | [] => Some (inl s)
  | l :: lines =>
      let l := trim_line l in
      if (hd 0 l =? 35) || (hd 0 l =? 0) then load_lines include (linenum + 1) lines s else
      match sdssplitargs l with
      | None => Some (inr (LoadErr linenum l (bytes_of_string "Unbalanced quotes in configuration line")))
      | Some [] => load_lines include (linenum + 1) lines s
      | Some argv =>
          let? o := exec include s argv in
          match o with
          | Done s => load_lines include (linenum + 1) lines s
          | Err e => Some (inr (LoadErr linenum l e))
          | Stop f => Some (inr f)
          end
      end
  end.

Definition loadServerConfigFromString (include : config -> list Z -> option outcome) (s : config) (text : list Z)
  : option (config + failure) := load_lines include 1 (split_nl (cstr text)) s.

(** The contents of a file ([-] is the standard input, which is used up). *)
Definition read_config (s : config) (filename : list Z) : option (list Z * config) :=
  if bool_decide (cstr filename = [45]) then Some (stdin s, set_stdin s [])
  else let? t := env_open env (cwd s) (cstr filename) in Some (t, s).

Definition file_text (contents : list Z) : list Z :=
  concat (pieces (Z.to_nat REDIS_CONFIGLINE_MAX) (length contents) contents).

(** [fuel] bounds the depth of inclusion. *)
Fixpoint loadServerConfig (fuel : nat) (s : config) (filename options : option (list Z))
  : option (config + failure) :=
  match fuel with
  | O => None
  | S fuel =>
      let include s f :=
        let? r := loadServerConfig fuel s (Some f) None in
        Some (match r with inl s => Done s | inr e => Stop e end) in
      let opts := match options with Some o => 10 :: cstr o | None => [] end in
      match filename with
      | None => loadServerConfigFromString include s opts
      | Some f =>
          match read_config s f with
          | None => Some (inr (CannotOpen (cstr f)))
          | Some (t, s) => loadServerConfigFromString include s (file_text t ++ opts)
          end
      end
  end.

(** ** Start up *)

(** The defaults of the integer members. *)
Definition default_num (f : nfield) : Z :=
  match f with
  | maxidletime => 120 | tcpkeepalive => 0 | port => 6379 | tcp_backlog => 511 | unixsocketperm => 0
  | verbosity => 2 | syslog_enabled => 0 | syslog_facility => 128 | dbnum => 16 | maxclients => 1000
  | maxmemory => 0 | maxmemory_policy => 0 | maxmemory_samples => 3 | masterport => 6379
  | repl_state => 0 | repl_ping_slave_period => 10 | repl_timeout => 60
  | repl_disable_tcp_nodelay => 0 | repl_backlog_size => 1024 * 1024
  | repl_backlog_time_limit => 60 * 60 | repl_serve_stale_data => 1 | repl_slave_ro => 1
  | rdb_compression => 1 | rdb_checksum => 1 | activerehashing => 1 | daemonize => 0 | hz => 10
  | aof_state => 0 | aof_no_fsync_on_rewrite => 0 | aof_fsync => 2 | aof_rewrite_perc => 100
  | aof_rewrite_min_size => 64 * 1024 * 1024 | aof_rewrite_incremental_fsync => 1
  | hash_max_ziplist_entries => 512 | hash_max_ziplist_value => 64
  | list_max_ziplist_entries => 512 | list_max_ziplist_value => 64 | set_max_intset_entries => 512
  | zset_max_ziplist_entries => 128 | zset_max_ziplist_value => 64 | lua_time_limit => 5000
  | slowlog_log_slower_than => 10000 | slowlog_max_len => 128 | stop_writes_on_bgsave_err => 1
  | slave_priority => 100 | repl_min_slaves_to_write => 0 | repl_min_slaves_max_lag => 10
  | notify_keyspace_events => 0
  end.

Definition default_str (f : sfield) : option (list Z) :=
  match f with
  | unixsocket | masterhost | masterauth | requirepass => None
  | logfile => Some []
  | syslog_ident => Some (bytes_of_string "redis")
  | aof_filename => Some (bytes_of_string "appendonly.aof")
  | pidfile => Some (bytes_of_string "/var/run/redis.pid")
  | rdb_filename => Some (bytes_of_string "dump.rdb")
  end.

(** The members a directive can set, with the standard input and the rows
    of the command table. *)
Definition initServerConfig (input : list Z) : option (config * list Command.redisCommand) :=
  let? (commands, _, tbl) := Command.populateCommandTable in
  let s := Config default_num default_str [] [] clientBufferLimitsDefaults commands [] input in
  let s := resetServerSaveParams s in
  let s := appendServerSaveParams s (60 * 60) 1 in
  let s := appendServerSaveParams s 300 100 in
  let s := appendServerSaveParams s 60 10000 in
  Some (s, tbl).

(** An argument of the command line that starts with [--]. *)
Definition is_option (a : list Z) : bool := (nth 0 a 0 =? 45) && (nth 1 a 0 =? 45).

Fixpoint add_options (options : list Z) (argv : list (list Z)) : list Z :=
  match argv with
  | [] => options
  | a :: argv =>
      if is_option a then
        let options := if negb (zlen options =? 0) then options ++ [10] else options in
        add_options (options ++ drop 2 a ++ [32]) argv
      else add_options (sdscatrepr options a ++ [32]) argv
  end.

(** First arguments that make the program print something and exit. *)
Definition special_option (a : list Z) : bool :=
  existsb (fun n => streq a (bytes_of_string n)) ["-v"; "--version"; "--help"; "-h"; "--test-memory"]%string.

(** The arguments of [main] after the name of the program. *)
Definition main_config (fuel : nat) (s : config) (argv : list (list Z)) : option (config + failure) :=
  match argv with
  | [] => Some (inl s)
  | a :: rest =>
      if special_option a then Some (inr Quit) else
      let '(configfile, rest) := if negb (is_option a) then (Some a, rest) else (None, argv) in
      loadServerConfig fuel (resetServerSaveParams s) configfile (Some (add_options [] rest))
  end.

End Loader.
Arguments config : clear implicits.
Arguments outcome : clear implicits.

End Config.
