(* ===== verification/ConfigSpec.v ===== *)
(** * What a loaded configuration guarantees

    Whatever the files and the command line say, a configuration the server
    starts with is in range ([in_range]); the loader returns when files do
    not include each other in a circle; it fails at the first line that is
    refused; directives given on the command line or written to a file are
    executed as they were given. *)

From S2P Require Import Prelude Dict DictSpec UserTable Sds Util Libc SdsBuf SdsBufSpec OutObj Command Config.
From stdpp Require Import list.

Module ConfigSpec.
Import HashTable DictRefinement Users Sds Util Libc Objects Config SdsBufProofs.
#[local] Open Scope Z_scope.

(** ** Ranges *)

Definition int_max : Z := 2 ^ 31 - 1.

Definition lo (f : nfield) : Z :=
  match f with
  | masterport | slave_priority => - 2 ^ 31
  | aof_rewrite_min_size | lua_time_limit | slowlog_log_slower_than => - 2 ^ 63
  | dbnum | maxclients | maxmemory_samples | repl_ping_slave_period | repl_timeout | hz => 1
  | repl_backlog_size => 16384
  | syslog_facility => 8
  | _ => 0
  end.

Definition hi (f : nfield) : Z :=
  match f with
  | port => 65535
  | unixsocketperm => 511
  | verbosity => 3
  | maxmemory_policy => 5
  | aof_fsync => 2
  | hz => 500
  | syslog_facility => 184
  | notify_keyspace_events => 1023
  | syslog_enabled | repl_state | repl_disable_tcp_nodelay | repl_serve_stale_data | repl_slave_ro
  | rdb_compression | rdb_checksum | activerehashing | daemonize | aof_state
  | aof_no_fsync_on_rewrite | aof_rewrite_incremental_fsync | stop_writes_on_bgsave_err => 1
  | maxclients => 2 ^ 32 - 1
  | maxmemory | slowlog_max_len | hash_max_ziplist_entries | hash_max_ziplist_value
  | list_max_ziplist_entries | list_max_ziplist_value | set_max_intset_entries
  | zset_max_ziplist_entries | zset_max_ziplist_value => 2 ^ 64 - 1
  | repl_backlog_size | repl_backlog_time_limit | aof_rewrite_min_size | lua_time_limit
  | slowlog_log_slower_than => 2 ^ 63 - 1
  | _ => int_max
  end.

Definition limit_ok (l : clientBufferLimitsConfig) : Prop :=
  0 <= hard_limit_bytes l < 2 ^ 64 /\ 0 <= soft_limit_bytes l < 2 ^ 64 /\ 0 <= soft_limit_seconds l <= int_max.

Definition save_ok (p : Z * Z) : Prop := 1 <= p.1 <= int_max /\ 0 <= p.2 <= int_max.

Definition str_ok (f : sfield) (v : list Z) : Prop :=
  match f with
  | requirepass => zlen v <= REDIS_AUTHPASS_MAX_LEN
  | rdb_filename | aof_filename => 47 ∉ v /\ 92 ∉ v
  | _ => True
  end.

Section Ranges.
Context {D : Type} `{!UserDict D nat} `{!DictDelete D} (env : environ).
Implicit Types s : config D.

Record in_range s : Prop := {
  range_num : forall f, lo f <= num s f <= hi f;
  range_str : forall f v, str s f = Some v -> str_ok f v;
  range_save : Forall save_ok (saveparams s);
  range_bind : zlen (bindaddr s) <= REDIS_BINDADDR_MAX;
  range_limits : length (obuf_limits s) = 3%nat /\ Forall limit_ok (obuf_limits s)
}.

(** What a directive leaves, if it is accepted, is in range. *)
Definition good (o : option (outcome D)) : Prop := forall s, o = Some (Done s) -> in_range s.

Lemma good_done s : in_range s -> good (Some (Done s)).
Proof. by intros Hs s' [= <-]. Qed.

Lemma good_err e : good (Some (Err e)).
Proof. done. Qed.

Lemma good_stop f : good (Some (Stop f)).
Proof. done. Qed.

Lemma range_set_num s f v : in_range s -> lo f <= store f v <= hi f -> in_range (set_num s f v).
Proof.
  intros [Hn Hs Hsv Hb Hl] Hf. constructor; try done. intros g. cbn.
  destruct (decide (g = f)) as [->|Hne]; [by rewrite fn_lookup_insert|by rewrite fn_lookup_insert_ne].
Qed.

Lemma range_set_str s f v : in_range s -> str_ok f (cstr v) -> in_range (set_str s f v).
Proof.
  intros [Hn Hs Hsv Hb Hl] Hf. constructor; try done. intros g w. cbn.
  destruct (decide (g = f)) as [->|Hne].
  - rewrite fn_lookup_insert. by intros [= <-].
  - rewrite fn_lookup_insert_ne by done. apply Hs.
Qed.

Lemma num_set s f v : num (set_num s f v) f = store f v.
Proof. apply fn_lookup_insert. Qed.

Lemma good_num_field s f v ok e :
  in_range s -> (ok (store f v) = true -> lo f <= store f v <= hi f) ->
  good (Some (num_field s f v ok e)).
Proof.
  intros Hs Hok. unfold num_field. rewrite num_set. destruct (ok (store f v)) eqn:E; [|done].
  apply good_done, range_set_num; auto.
Qed.

Lemma yesnotoi_cases a : yesnotoi a = 1 \/ yesnotoi a = 0 \/ yesnotoi a = -1.
Proof. unfold yesnotoi. repeat case_match; auto. Qed.

Lemma good_yesno s f a :
  in_range s -> lo f = 0 -> hi f = 1 -> store f = s32 -> good (Some (yesno_field s f a)).
Proof.
  intros Hs Hlo Hhi Hst. apply good_num_field; [done|]. rewrite Hlo, Hhi, Hst.
  destruct (yesnotoi_cases a) as [E|[E|E]]; rewrite E; intros H;
    [by vm_compute..|discriminate H].
Qed.

Lemma choose_in a table v : choose a table = Some v -> v ∈ table.*2.
Proof.
  induction table as [|[n w] table IH]; [done|]. cbn. destruct (named a n).
  - intros [= ->]. by left.
  - intros H. right. auto.
Qed.

Lemma good_choice s f a table e :
  in_range s -> Forall (fun v => lo f <= store f v <= hi f) table.*2 ->
  good (Some (choice_field s f a table e)).
Proof.
  intros Hs Ht. unfold choice_field. destruct (choose a table) as [v|] eqn:E; [|done].
  apply good_done, range_set_num; [done|]. apply choose_in in E.
  apply list_elem_of_In in E. rewrite List.Forall_forall in Ht. by apply Ht.
Qed.

Lemma good_bind s l : in_range s -> good (Some (do_bind s l)).
Proof.
  intros [Hn Hs Hsv Hb Hl]. unfold do_bind. destruct (Z.ltb_spec REDIS_BINDADDR_MAX (zlen l)); [done|].
  apply good_done. constructor; try done. cbn. by rewrite length_fmap.
Qed.

Lemma good_perm s a : in_range s -> good (Some (do_unixsocketperm s a)).
Proof.
  intros Hs. unfold do_unixsocketperm. destruct (strto 8 a) as [[v r] e]. rewrite num_set.
  destruct e; [done|]. cbn [orb]. destruct (Z.ltb_spec 511 (store unixsocketperm v)); [done|].
  apply good_done, range_set_num; [done|]. cbn in *. pose proof (wrapu_bound 32 v ltac:(lia)). lia.
Qed.

Lemma range_append s a b : in_range s -> save_ok (a, b) -> in_range (appendServerSaveParams s a b).
Proof.
  intros [Hn Hs Hsv Hb Hl] Hab. constructor; try done. cbn. apply Forall_app. split; [done|].
  by apply Forall_singleton.
Qed.

Lemma range_reset s : in_range s -> in_range (resetServerSaveParams s).
Proof. intros [Hn Hs Hsv Hb Hl]. by constructor. Qed.

Lemma good_save s l : in_range s -> good (Some (do_save s l)).
Proof.
  intros Hs. destruct l as [|a [|b [|c l]]]; cbn [do_save]; try by apply good_done.
  - destruct (named a ""); apply good_done; [by apply range_reset|done].
  - destruct ((atoi a <? 1) || (atoi b <? 0)) eqn:E; [done|]. apply good_done, range_append; [done|].
    pose proof (atoi_bounds a). pose proof (atoi_bounds b). unfold save_ok, int_max. cbn. lia.
Qed.

Lemma good_logfile s a : in_range s -> good (Some (do_logfile env s a)).
Proof.
  intros Hs. assert (in_range (set_str s logfile a)) by by apply range_set_str.
  unfold do_logfile. destruct (bool_decide _); [by apply good_done|].
  destruct (env_append _ _ _); [done|by apply good_done].
Qed.

(** The frequency is forced into its range. *)
Lemma good_hz s a : in_range s -> good (Some (do_hz s a)).
Proof.
  intros Hs. unfold do_hz. apply good_done. unfold REDIS_MIN_HZ, REDIS_MAX_HZ.
  assert (H1 : s32 1 = 1) by done. assert (H500 : s32 500 = 500) by done.
  destruct Hs as [Hn Hstr Hsv Hb Hl].
  assert (E : num (set_num s hz (atoi a)) hz = atoi a).
  { rewrite num_set. cbn. apply s32_small. apply atoi_bounds. }
  rewrite E. destruct (Z.ltb_spec (atoi a) 1).
  - rewrite num_set. change (store hz 1) with 1. cbn [Z.ltb Z.compare Pos.compare Pos.compare_cont].
    constructor; try done. intros g. cbn.
    destruct (decide (g = hz)) as [->|Hne]; [rewrite fn_lookup_insert; cbn; lia|].
    rewrite !fn_lookup_insert_ne by done. apply Hn.
  - rewrite E. destruct (Z.ltb_spec 500 (atoi a)).
    + constructor; try done. intros g. cbn.
      destruct (decide (g = hz)) as [->|Hne]; [rewrite fn_lookup_insert; cbn; lia|].
      rewrite !fn_lookup_insert_ne by done. apply Hn.
    + apply range_set_num; [by constructor|]. cbn [store lo hi]. rewrite s32_small by apply atoi_bounds. lia.
Qed.

Lemma s64_bound v : - 2 ^ 63 <= s64 v < 2 ^ 63.
Proof. apply (wraps_bound 64). lia. Qed.

Lemma memtoll_bounds a : - 2 ^ 63 <= (memtoll a).1 < 2 ^ 63.
Proof.
  unfold memtoll. destruct (match unit_mul _ with Some _ => _ | None => _ end) as [e m].
  destruct (128 <=? u32 (unit_offset (cstr a))); cbn [fst]; [by unfold LLONG_MAX|apply s64_bound].
Qed.

Lemma good_backlog s a : in_range s -> good (Some (do_backlog s a)).
Proof.
  intros Hs. unfold do_backlog. pose proof (memtoll_bounds a).
  destruct (Z.leb_spec (memtoll a).1 0); [done|]. apply good_done.
  unfold resizeReplicationBacklog, REDIS_REPL_BACKLOG_MIN_SIZE.
  set (n := if _ <? _ then _ else _). destruct (_ =? _); [done|]. apply range_set_num; [done|].
  assert (16384 <= n < 2 ^ 63) by (unfold n; destruct (Z.ltb_spec (memtoll a).1 (1024 * 16)); lia).
  cbn [store lo hi]. rewrite s64_small by lia. lia.
Qed.

Lemma good_limit s a b c d : in_range s -> good (Some (do_limit s a b c d)).
Proof.
  intros [Hn Hs Hsv Hb [Hl HF]]. unfold do_limit. destruct (_ =? -1); [done|].
  destruct (Z.ltb_spec (atoi d) 0); [done|]. apply good_done. constructor; try done. cbn.
  split; [by rewrite length_insert|]. apply Forall_insert; [done|].
  pose proof (atoi_bounds d). unfold limit_ok, int_max. cbn.
  pose proof (wrapu_bound 64 (memtoll b).1). pose proof (wrapu_bound 64 (memtoll c).1). lia.
Qed.

Lemma event_flag_range c f : event_flag c = Some f -> 0 <= f < 2 ^ 10.
Proof. unfold event_flag, REDIS_NOTIFY_ALL. intros H. repeat case_match; simplify_eq; vm_compute; done. Qed.

Lemma log2_below a n : 0 < n -> 0 <= a < 2 ^ n -> Z.log2 a < n.
Proof. intros Hn Ha. destruct (Z.eq_dec a 0) as [->|]; [done|]. apply Z.log2_lt_pow2; lia. Qed.

Lemma lor_below a b n : 0 < n -> 0 <= a < 2 ^ n -> 0 <= b < 2 ^ n -> 0 <= a |. b < 2 ^ n.
Proof.
  intros Hn Ha Hb. assert (H0 : 0 <= a |. b) by (apply Z.lor_nonneg; lia). split; [done|].
  destruct (Z.eq_dec (a |. b) 0) as [->|Hne]; [lia|]. apply Z.log2_lt_pow2; [lia|].
  rewrite Z.log2_lor by lia. by apply Z.max_lub_lt; apply log2_below.
Qed.

Lemma event_flags_range l f : 0 <= f < 2 ^ 10 -> event_flags l f = -1 \/ 0 <= event_flags l f < 2 ^ 10.
Proof.
  revert f. induction l as [|c l IH]; intros f Hf; cbn [event_flags]; [by right|].
  destruct (event_flag c) as [g|] eqn:E; [|by left]. apply IH, lor_below; [lia|done|].
  by apply (event_flag_range c).
Qed.

Lemma good_notify s a : in_range s -> good (Some (do_notify s a)).
Proof.
  intros Hs. unfold do_notify, keyspaceEventsStringToFlags.
  destruct (event_flags_range (cstr a) 0 ltac:(lia)) as [->|Hr]; [done|].
  destruct (_ =? -1); [done|]. apply good_done, range_set_num; [done|]. cbn [store lo hi].
  rewrite s32_small by lia. lia.
Qed.

Lemma range_commands s d : in_range s -> in_range (set_commands s d).
Proof. intros [Hn Hs Hsv Hb Hl]. by constructor. Qed.

Lemma good_rename s a b : in_range s -> good (do_rename s a b).
Proof.
  intros Hs s' H. unfold do_rename in H. destruct (negb _); [done|]. opt_inv.
  destruct x as [d [cmd|]]; cbn in H; [|discriminate H]. opt_inv. destruct x as [d' r].
  destruct (negb (r =? DICT_OK)); [done|]. destruct (negb (zlen b =? 0)).
  - opt_inv. destruct x as [d'' r']. destruct (negb _); [discriminate H|]. opt_inv.
    by apply range_commands.
  - opt_inv. by apply range_commands.
Qed.

Lemma base_name a : pathIsBaseName a = true -> 47 ∉ cstr a /\ 92 ∉ cstr a.
Proof.
  unfold pathIsBaseName, strchr. intros H.
  assert (forall x l, memchr x l = None -> x ∉ l) as Hm.
  { intros x l. induction l as [|y l IH]; [set_solver|]. cbn. destruct (Z.eqb_spec y x); [done|].
    destruct (memchr x l); [done|]. intros _. apply not_elem_of_cons. split; [congruence|auto]. }
  destruct (memchr 47 _) eqn:E1; [done|]. destruct (memchr 92 _) eqn:E2; [done|]. auto.
Qed.

Lemma u32_bound v : 0 <= u32 v < 2 ^ 32.
Proof. apply wrapu_bound. lia. Qed.

Lemma u64_bound v : 0 <= u64 v < 2 ^ 64.
Proof. apply wrapu_bound. lia. Qed.

Lemma s32_bound v : - 2 ^ 31 <= s32 v < 2 ^ 31.
Proof. apply (wraps_bound 32). lia. Qed.

(** The range of a stored value follows from the test and its width. *)
Ltac range_tac :=
  intros; cbn [store lo hi] in *; unfold int_max in *;
  repeat match goal with
  | |- context [u32 ?v] => pose proof (u32_bound v); generalize dependent (u32 v); intros
  | |- context [u64 ?v] => pose proof (u64_bound v); generalize dependent (u64 v); intros
  | |- context [s32 ?v] => pose proof (s32_bound v); generalize dependent (s32 v); intros
  | |- context [s64 ?v] => pose proof (s64_bound v); generalize dependent (s64 v); intros
  end; lia.

(** The directive at the head of a chain of tests. *)
Ltac directive :=
  match goal with
  | |- good (if ?b then _ else _) => destruct b eqn:?
  end.

Create HintDb config.

#[local] Hint Resolve good_bind good_perm good_save good_logfile good_hz good_backlog good_limit
  good_notify good_rename good_err good_stop : config.
#[local] Hint Extern 1 (good (Some (num_field _ _ _ _ _))) => (apply good_num_field; [assumption|range_tac]) : config.
#[local] Hint Extern 1 (good (Some (yesno_field _ _ _))) => (by apply good_yesno) : config.
#[local] Hint Extern 1 (good (Some (Done (set_num _ _ _)))) =>
  (apply good_done; repeat (apply range_set_num; [|range_tac])) : config.
#[local] Hint Extern 1 (good (Some (Done (set_str _ _ _)))) => (apply good_done; by apply range_set_str) : config.
#[local] Hint Extern 1 (good (Some (choice_field _ _ _ _ _))) =>
  (apply good_choice; [assumption|cbn [fmap list_fmap snd]; repeat constructor; by vm_compute]) : config.

#[local] Hint Extern 1 (good (Some (if ?b then _ else _))) => destruct b eqn:? : config.
#[local] Hint Extern 1 (good (Some (err _))) => done : config.

Lemma range_cwd s l : in_range s -> in_range (set_cwd s l).
Proof. intros [Hn Hs Hsv Hb Hl]. by constructor. Qed.

#[local] Hint Resolve range_cwd good_done : config.

Lemma exec_general_good include s argv rest :
  in_range s -> (forall f, good (include s f)) -> good rest ->
  good (exec_general env include s argv rest).
Proof.
  intros Hs Hi Hr. unfold exec_general. cbv zeta.
  repeat (directive; [solve [auto with config]|]). done.
Qed.

(** File names without a directory. *)
Lemma good_base_name s f a e :
  in_range s -> f = rdb_filename \/ f = aof_filename ->
  good (Some (if negb (pathIsBaseName a) then err e else Done (set_str s f a))).
Proof.
  intros Hs Hf. destruct (pathIsBaseName a) eqn:E; [|done]. apply good_done, range_set_str; [done|].
  apply base_name in E. by destruct Hf as [Ef|Ef]; rewrite Ef.
Qed.

Lemma good_slaveof s a p :
  in_range s ->
  good (Some (Done (set_num (set_num (set_str s masterhost a) masterport p) repl_state REDIS_REPL_CONNECT))).
Proof.
  intros Hs. apply good_done, range_set_num; [|by vm_compute].
  apply range_set_num; [by apply range_set_str|range_tac].
Qed.

Lemma good_appendonly s a e :
  in_range s ->
  good (Some (if yesnotoi a =? -1 then err e else Done (set_num s aof_state (if yesnotoi a =? 0 then 0 else 1)))).
Proof.
  intros Hs. destruct (_ =? -1); [done|]. apply good_done, range_set_num; [done|].
  by destruct (_ =? 0); vm_compute.
Qed.

Lemma good_pass s a e :
  in_range s ->
  good (Some (if REDIS_AUTHPASS_MAX_LEN <? strlen a then err e else Done (set_str s requirepass a))).
Proof.
  intros Hs. destruct (Z.ltb_spec REDIS_AUTHPASS_MAX_LEN (strlen a)); [done|].
  by apply good_done, range_set_str.
Qed.

#[local] Hint Resolve good_slaveof good_appendonly good_pass | 0 : config.
#[local] Hint Extern 0 (good (Some (if negb (pathIsBaseName _) then _ else _))) =>
  (apply good_base_name; auto) : config.

Lemma exec_persist_good s argv rest : in_range s -> good rest -> good (exec_persist s argv rest).
Proof.
  intros Hs Hr. unfold exec_persist. cbv zeta.
  repeat (directive; [solve [auto with config]|]). done.
Qed.

Lemma exec_other_good s argv : in_range s -> good (exec_other s argv).
Proof.
  intros Hs. unfold exec_other. cbv zeta.
  repeat (directive; [solve [auto with config]|]). done.
Qed.

Lemma exec_good include s argv :
  in_range s -> (forall f, good (include s f)) -> good (exec env include s argv).
Proof.
  intros Hs Hi. unfold exec. apply exec_general_good; [done|done|].
  by apply exec_persist_good, exec_other_good.
Qed.

Lemma load_lines_range include n lines s s' :
  in_range s -> (forall s f, in_range s -> good (include s f)) ->
  load_lines env include n lines s = Some (inl s') -> in_range s'.
Proof.
  intros Hs Hi. revert n s Hs. induction lines as [|l lines IH]; intros n s Hs; cbn [load_lines].
  { by intros [= <-]. }
  destruct (_ || _); [by apply IH|].
  destruct (sdssplitargs _) as [[|a argv]|]; [by apply IH| |done].
  intros H. apply obind_Some in H as (o & Ho & H). destruct o as [s1|e|f]; [|done..].
  apply (IH _ _ ltac:(by apply (exec_good include s (a :: argv) Hs (fun f => Hi s f Hs) s1 Ho)) H).
Qed.

Lemma read_config_range s f t s' : in_range s -> read_config env s f = Some (t, s') -> in_range s'.
Proof.
  intros Hs. unfold read_config. destruct (bool_decide _).
  - intros [= _ <-]. destruct Hs. by constructor.
  - intros H. by opt_inv.
Qed.

Lemma load_range fuel : forall s file opts s',
  in_range s -> loadServerConfig env fuel s file opts = Some (inl s') -> in_range s'.
Proof.
  induction fuel as [|fuel IH]; intros s file opts s' Hs H; [done|]. cbn [loadServerConfig] in H.
  set (include := fun _ _ => _) in H.
  assert (Hi : forall s f, in_range s -> good (include s f)).
  { intros s1 f Hs1 s2 E. unfold include in E. apply obind_Some in E as (r & Hr & E).
    destruct r as [s3|]; [|done]. injection E as <-. by apply (IH s1 (Some f) None). }
  destruct file as [f|].
  - destruct (read_config env s f) as [[t s1]|] eqn:E; [|done].
    unfold loadServerConfigFromString in H. apply load_lines_range in H; [done| |done].
    by apply (read_config_range s f t).
  - by apply load_lines_range in H.
Qed.

Lemma init_range input s tbl : initServerConfig input = Some (s, tbl) -> in_range s.
Proof.
  unfold initServerConfig. intros H. apply obind_Some in H as ([[d o] t] & _ & H). injection H as <- _.
  assert (forall f, lo f <= default_num f <= hi f) by (intros []; vm_compute; split; discriminate).
  do 3 (apply range_append; [|by vm_compute]). apply range_reset. constructor; cbn.
  - done.
  - intros f v Hv. destruct f; try discriminate Hv; injection Hv as <-; try done;
      apply (bool_decide_unpack _); by vm_compute.
  - constructor.
  - by vm_compute.
  - split; [done|]. by repeat constructor; vm_compute.
Qed.

End Ranges.

(** ** Lines *)

Section Lines.
Context {D : Type} `{!UserDict D nat} `{!DictDelete D} (env : environ).
Implicit Types s : config D.
Context (include : config D -> list Z -> option (outcome D)).

(** Lines are executed one after the other. *)
Lemma load_lines_app n a b s :
  load_lines env include n (a ++ b) s =
  let? r := load_lines env include n a s in
  match r with
  | inl s => load_lines env include (n + zlen a) b s
  | inr f => Some (inr f)
  end.
Proof using Type.
  revert n s. induction a as [|l a IH]; intros n s; cbn [app load_lines].
  - cbn. by rewrite Z.add_0_r.
  - replace (n + zlen (l :: a)) with (n + 1 + zlen a) by (cbn [length]; lia).
    destruct (_ || _); [apply IH|]. destruct (sdssplitargs _) as [[|x argv]|]; [apply IH| |done].
    destruct (exec _ _ _ _) as [[s1|e|f]|]; cbn [obind]; [apply IH|done..].
Qed.

Lemma split_nl_not_nil t : split_nl t <> [].
Proof. induction t as [|c t IH]; [done|]. cbn. destruct (c =? 10); [done|]. by destruct (split_nl t). Qed.

Lemma split_nl_app a b : split_nl (a ++ 10 :: b) = split_nl a ++ split_nl b.
Proof.
  induction a as [|c a IH]; [done|]. cbn [app split_nl]. rewrite IH.
  destruct (c =? 10); [done|]. pose proof (split_nl_not_nil a). by destruct (split_nl a).
Qed.

Lemma split_nl_one t : 10 ∉ t -> split_nl t = [t].
Proof.
  induction t as [|c t IH]; [done|]. intros [Hc Ht]%not_elem_of_cons. cbn.
  replace (c =? 10) with false by lia. by rewrite IH.
Qed.

Lemma split_nl_lines t ts :
  Forall (fun l => 10 ∉ l) ts -> split_nl (t ++ concat (cons 10 <$> ts)) = split_nl t ++ ts.
Proof.
  intros Hts. revert t. induction Hts as [|l ts Hl _ IH]; intros t; cbn [fmap list_fmap concat].
  - by rewrite !app_nil_r.
  - cbn [app]. by rewrite split_nl_app, IH, (split_nl_one l Hl).
Qed.

(** ** Directives on the command line *)

(** A directive: a name without blanks and quotes, and any arguments. *)
Abbreviation directive := (list Z * list (list Z))%type.

Definition dname_ok (n : list Z) : bool :=
  match n with c :: _ => negb (c =? 35) | [] => false end &&
  forallb (fun c => (32 <? c) && negb (c =? 34) && negb (c =? 39)) n.

Definition dir_ok (d : directive) : bool :=
  dname_ok d.1 && forallb (fun a => negb (is_option a) && forallb (fun c => (0 <=? c) && (c <? 256)) a) d.2.

Definition directive_text (d : directive) : list Z :=
  match d.2 with [] => d.1 | args => d.1 ++ 32 :: quote_args args end.

(** What [main] was started with. *)
Definition command_line (ds : list directive) : list (list Z) :=
  concat ((fun d : directive => (45 :: 45 :: d.1) :: d.2) <$> ds).

Lemma split_token_name cur n r :
  forallb (fun c => (32 <? c) && negb (c =? 34) && negb (c =? 39)) n = true ->
  split_token cur (n ++ 32 :: r) = Some (cur ++ n, r) /\ split_token cur n = Some (cur ++ n, []).
Proof.
  revert cur. induction n as [|c n IH]; intros cur Hn; cbn [app split_token].
  - by rewrite app_nil_r.
  - cbn [forallb] in Hn. apply andb_true_iff in Hn as [Hc Hn].
    replace (c =? 32) with false by lia. replace (c =? 10) with false by lia.
    replace (c =? 13) with false by lia. replace (c =? 9) with false by lia. cbn [orb].
    replace (c =? 34) with false by lia. replace (c =? 39) with false by lia.
    destruct (IH (cur ++ [c]) Hn) as [-> ->]. by rewrite <- !app_assoc.
Qed.

Lemma dname_spec n :
  dname_ok n = true ->
  exists c n', n = c :: n' /\ c <> 35 /\ 32 < c /\ 
    forallb (fun c => (32 <? c) && negb (c =? 34) && negb (c =? 39)) n = true /\ Forall (fun c => 32 < c) n.
Proof.
  unfold dname_ok. intros [Hh Hn]%andb_true_iff. destruct n as [|c n]; [done|]. exists c, n.
  assert (HF : Forall (fun c => 32 < c) (c :: n)).
  { apply List.Forall_forall. intros x Hx. apply (proj1 (forallb_forall _ _) Hn) in Hx. lia. }
  split; [done|]. split; [lia|]. split; [by apply Forall_cons in HF as [? _]|done].
Qed.

Lemma args_bytes (args : list (list Z)) :
  forallb (fun a => negb (is_option a) && forallb (fun c => (0 <=? c) && (c <? 256)) a) args = true ->
  Forall (fun a => is_option a = false) args /\ Forall (Forall (fun c => 0 <= c < 256)) args.
Proof.
  intros H. assert (forall a, a ∈ args -> is_option a = false /\ Forall (fun c => 0 <= c < 256) a) as Hall.
  { intros a Ha%list_elem_of_In. apply (proj1 (forallb_forall _ _) H), andb_true_iff in Ha as [Ho Hb].
    split; [by destruct (is_option a)|]. apply List.Forall_forall. intros c Hc.
    apply (proj1 (forallb_forall _ _) Hb) in Hc. lia. }
  split; apply List.Forall_forall; intros a Ha%list_elem_of_In; by apply Hall.
Qed.

(** A directive is split into what it was made of. *)
Lemma directive_split d : dir_ok d = true -> sdssplitargs (directive_text d) = Some (d.1 :: d.2).
Proof.
  destruct d as [n args]. unfold dir_ok. cbn [fst snd]. intros [Hn Ha]%andb_true_iff.
  apply dname_spec in Hn as (c & n' & -> & Hc & Hc32 & Hn & HF). apply args_bytes in Ha as [_ Hb].
  set (m := c :: n') in *. unfold sdssplitargs, directive_text. cbn [fst snd].
  assert (Hnz : Forall (fun x => x <> 0) m) by (eapply Forall_impl; [exact HF|]; cbn; lia).
  assert (Hsp : forall r, skip_blanks (m ++ r) = m ++ r).
  { intros r. unfold m. cbn [app skip_blanks]. unfold isspace. replace (c =? 32) with false by lia.
    replace (c <=? 13) with false by lia. by rewrite andb_false_r. }
  destruct args as [|a args].
  - rewrite cstr_id by done. specialize (Hsp []). rewrite app_nil_r in Hsp.
    assert (exists k, length m = S k) as [k ->] by by exists (length n').
    cbn [split_loop]. rewrite Hsp. destruct (split_token_name [] m [] Hn) as [_ Ht].
    unfold m at 1. fold m. rewrite Ht. cbn [obind app]. by destruct k.
  - rewrite cstr_id.
    2:{ apply Forall_app. split; [done|]. constructor; [lia|].
        eapply Forall_impl; [by apply quote_args_plain|]. cbn. lia. }
    rewrite length_app. cbn [length]. rewrite <- Nat.add_succ_comm. cbn [Nat.add].
    set (fuel := (length m + length (quote_args (a :: args)))%nat). cbn [split_loop]. rewrite Hsp.
    destruct (split_token_name [] m (quote_args (a :: args)) Hn) as [Ht _].
    unfold m at 1. cbn [app]. fold m. change (c :: n' ++ 32 :: quote_args (a :: args)) with (m ++ 32 :: quote_args (a :: args)).
    rewrite Ht. cbn [obind app].
    apply (split_loop_quoted fuel [m] (a :: args) Hb). unfold fuel. lia.
Qed.

(** A text between two characters that stay loses the blank after it. *)
Lemma trim_text c m d : SdsBuf.in_cset blanks c = false -> SdsBuf.in_cset blanks d = false ->
  trim_line ((c :: m ++ [d]) ++ [32]) = c :: m ++ [d].
Proof.
  intros Hc Hd. unfold trim_line, strip. cbn [app drop_while]. rewrite Hc.
  rewrite app_comm_cons, reverse_app. change (reverse [32]) with [32].
  rewrite app_comm_cons, reverse_app. change (reverse [d]) with [d]. cbn [app drop_while].
  change (SdsBuf.in_cset blanks 32) with true. cbn iota. rewrite Hd.
  by rewrite reverse_cons, reverse_involutive.
Qed.

Lemma not_blank c : 32 < c -> SdsBuf.in_cset blanks c = false.
Proof.
  intros Hc. unfold SdsBuf.in_cset. replace (c =? 0) with false by lia. cbn [orb].
  apply bool_decide_eq_false_2. change (cstr blanks) with [32; 9; 13; 10]. 
  rewrite !elem_of_cons. intros [?|[?|[?|[?|?%elem_of_nil]]]]; lia || done.
Qed.

Lemma quote_args_last a args : exists m, quote_args (a :: args) = m ++ [34].
Proof.
  revert a. induction args as [|b args IH]; intros a.
  - exists ([34] ++ concat (repr_char <$> a)). cbn [quote_args]. unfold sdscatrepr. by rewrite <- app_assoc.
  - destruct (IH b) as [m Hm]. exists (sdscatrepr [] a ++ [32] ++ m).
    change (quote_args (a :: b :: args)) with (sdscatrepr [] a ++ [32] ++ quote_args (b :: args)).
    rewrite Hm. by rewrite <- !app_assoc.
Qed.

(** The text of a directive starts with a printing character, contains no
    newline and no zero, and trimming takes the blank after it away. *)
Lemma directive_line d :
  dir_ok d = true ->
  hd 0 (directive_text d) <> 35 /\ hd 0 (directive_text d) <> 0 /\
  Forall (fun c => 32 <= c) (directive_text d) /\ trim_line (directive_text d ++ [32]) = directive_text d.
Proof.
  destruct d as [n args]. unfold dir_ok. cbn [fst snd]. intros [Hn Ha]%andb_true_iff.
  apply dname_spec in Hn as (c & n' & -> & Hc & Hc32 & Hn & HF). apply args_bytes in Ha as [_ Hb].
  assert (HF32 : Forall (fun x => 32 <= x) (c :: n')) by (eapply Forall_impl; [exact HF|]; cbn; lia).
  unfold directive_text. cbn [fst snd]. destruct args as [|a args].
  - cbn [hd]. split; [done|]. split; [lia|]. split; [done|].
    destruct n' as [|d m _] using rev_ind.
    + unfold trim_line, strip. cbn [app drop_while]. rewrite not_blank by done.
      change (reverse [c; 32]) with [32; c]. cbn [drop_while]. change (SdsBuf.in_cset blanks 32) with true.
      cbn iota. by rewrite not_blank.
    + apply Forall_cons in HF as [_ [_ Hd]%Forall_app].
      apply (proj1 (Forall_singleton _ _)) in Hd. cbn beta in Hd.
      apply trim_text; apply not_blank; lia.
  - cbn [app hd]. split; [done|]. split; [lia|]. split.
    + rewrite app_comm_cons. apply Forall_app. split; [done|]. constructor; [lia|]. by apply quote_args_plain.
    + destruct (quote_args_last a args) as [m ->].
      replace (n' ++ 32 :: m ++ [34]) with ((n' ++ 32 :: m) ++ [34]) by by rewrite <- app_assoc.
      apply trim_text; apply not_blank; lia.
Qed.

(** The directives in order; [n] is the line the first of them is on. *)
Fixpoint exec_all (n : Z) (ds : list directive) (s : config D) : option (config D + failure) :=
  match ds with
  | [] => Some (inl s)
  | d :: ds =>
      let? o := exec env include s (d.1 :: d.2) in
      match o with
      | Done s => exec_all (n + 1) ds s
      | Err e => Some (inr (LoadErr n (directive_text d) e))
      | Stop f => Some (inr f)
      end
  end.

Lemma load_directives n ds s :
  Forall (fun d => dir_ok d = true) ds ->
  load_lines env include n ((fun d => directive_text d ++ [32]) <$> ds) s = exec_all n ds s.
Proof using Type.
  intros Hds. revert n s. induction Hds as [|d ds Hd _ IH]; intros n s; [done|].
  cbn [fmap list_fmap load_lines exec_all].
  destruct (directive_line d Hd) as (H35 & H0 & _ & ->).
  rewrite (proj2 (Z.eqb_neq _ _) H35), (proj2 (Z.eqb_neq _ _) H0). cbn [orb].
  rewrite directive_split by done. destruct (exec _ _ _ _) as [[s1|e|f]|]; cbn [obind]; [apply IH|done..].
Qed.

(** ** The options [main] writes *)

Lemma add_options_args o args rest :
  Forall (fun a => is_option a = false) args ->
  add_options o (args ++ rest) = add_options (o ++ concat ((fun a => sdscatrepr [] a ++ [32]) <$> args)) rest.
Proof.
  intros Ha. revert o. induction Ha as [|a args Ha _ IH]; intros o; cbn [app add_options fmap list_fmap concat].
  - by rewrite app_nil_r.
  - rewrite Ha, IH. f_equal. unfold sdscatrepr. by rewrite <- !app_assoc.
Qed.

Lemma quoted_blanks args :
  args <> [] -> concat ((fun a => sdscatrepr [] a ++ [32]) <$> args) = quote_args args ++ [32].
Proof.
  induction args as [|a [|b args] IH]; [done|intros _; cbn [fmap list_fmap concat quote_args]; by rewrite app_nil_r|].
  intros _. change (quote_args (a :: b :: args)) with (sdscatrepr [] a ++ [32] ++ quote_args (b :: args)).
  cbn [fmap list_fmap concat]. cbn [fmap list_fmap concat] in IH. rewrite IH by done. by rewrite <- !app_assoc.
Qed.

Lemma add_options_group o d rest :
  dir_ok d = true ->
  add_options o ((45 :: 45 :: d.1) :: d.2 ++ rest) =
  add_options ((if negb (zlen o =? 0) then o ++ [10] else o) ++ directive_text d ++ [32]) rest.
Proof.
  destruct d as [n args]. unfold dir_ok. cbn [fst snd]. intros [_ Ha]%andb_true_iff.
  apply args_bytes in Ha as [Ho _]. cbn [add_options].
  change (is_option (45 :: 45 :: n)) with true. cbn iota. change (drop 2 (45 :: 45 :: n)) with n.
  rewrite add_options_args by done. f_equal. rewrite <- app_assoc. f_equal.
  unfold directive_text. cbn [fst snd]. destruct args as [|a args]; [by rewrite app_nil_r|].
  rewrite quoted_blanks by done. by rewrite <- !app_assoc.
Qed.

Lemma add_options_more ds o :
  Forall (fun d => dir_ok d = true) ds -> o <> [] ->
  add_options o (command_line ds) = o ++ concat (cons 10 <$> ((fun d => directive_text d ++ [32]) <$> ds)).
Proof.
  intros Hds. revert o. induction Hds as [|d ds Hd _ IH]; intros o Ho; [by rewrite app_nil_r|].
  unfold command_line. cbn [fmap list_fmap concat]. rewrite <- app_comm_cons. fold (command_line ds).
  rewrite add_options_group by done.
  rewrite (proj2 (Z.eqb_neq (zlen o) 0)) by (destruct o; [done|cbn; lia]). cbn [negb].
  rewrite IH; [repeat progress (rewrite <- ?app_assoc; cbn [app]); done|].
  intros E%(f_equal length). rewrite !length_app in E. cbn in E. lia.
Qed.

(** One line per directive, after the newline the loader puts first. *)
Lemma options_lines ds :
  Forall (fun d => dir_ok d = true) ds -> ds <> [] ->
  10 :: add_options [] (command_line ds) = concat (cons 10 <$> ((fun d => directive_text d ++ [32]) <$> ds)).
Proof.
  intros Hds Hne. destruct Hds as [|d ds Hd Hds]; [done|].
  unfold command_line. cbn [fmap list_fmap concat]. rewrite <- app_comm_cons. fold (command_line ds).
  rewrite add_options_group by done. change (zlen (@nil Z) =? 0) with true. cbn [negb app].
  rewrite add_options_more; [done|done|].
  intros E%(f_equal length). rewrite length_app in E. cbn in E. lia.
Qed.

Lemma directive_no d x : dir_ok d = true -> x < 32 -> x ∉ directive_text d ++ [32].
Proof.
  intros Hd Hx. destruct (directive_line d Hd) as (_ & _ & HF & _).
  rewrite elem_of_app, list_elem_of_singleton. intros [H|H]; [|lia].
  rewrite Forall_forall in HF. apply HF in H. lia.
Qed.

Lemma options_no_nul ds : Forall (fun d => dir_ok d = true) ds -> 0 ∉ add_options [] (command_line ds).
Proof.
  intros Hds. destruct (decide (ds = [])) as [->|Hne]; [set_solver|].
  assert (H : 0 ∉ 10 :: add_options [] (command_line ds)); [|set_solver].
  rewrite options_lines by done. induction Hds as [|d ds Hd Hds IH]; [done|].
  cbn [fmap list_fmap concat]. rewrite elem_of_app, elem_of_cons. intros [[H|H]|H]; [done| |].
  - by apply (directive_no d 0) in H.
  - destruct ds as [|e ds]; [by apply elem_of_nil in H|]. by apply IH in H.
Qed.

End Lines.

(** ** The whole loader *)

Section Load.
Context {D : Type} `{!UserDict D nat} `{!DictDelete D} (env : environ).
Implicit Types s : config D.

(** What the directive [include] does when [fuel] more levels may follow. *)
Definition include_at (fuel : nat) (s : config D) (f : list Z) : option (outcome D) :=
  let? r := loadServerConfig env fuel s (Some f) None in
  Some (match r with inl s => Done s | inr e => Stop e end).

Lemma file_text_no_nul t : 0 ∉ file_text t.
Proof.
  unfold file_text. generalize (length t) at 1. intros fuel. generalize (Z.to_nat REDIS_CONFIGLINE_MAX). intros n.
  revert t. induction fuel as [|fuel IH]; intros [|c t]; try (cbn; set_solver).
  change (pieces n (S fuel) (c :: t)) with
    (let '(l, r) := take_line n (c :: t) in cstr l :: pieces n fuel r).
  destruct (take_line n (c :: t)) as [l r]. cbn [concat]. rewrite elem_of_app.
  intros [H|H]; [by apply cstr_no_nul in H|by apply IH in H].
Qed.

(** A file followed by directives of the command line. *)
Lemma load_file_options fuel s t ds :
  Forall (fun d => dir_ok d = true) ds ->
  loadServerConfigFromString env (include_at fuel) s (file_text t ++ 10 :: add_options [] (command_line ds)) =
  let? r := load_lines env (include_at fuel) 1 (split_nl (file_text t)) s in
  match r with
  | inl s => exec_all env (include_at fuel) (1 + zlen (split_nl (file_text t))) ds s
  | inr f => Some (inr f)
  end.
Proof.
  intros Hds. unfold loadServerConfigFromString.
  assert (Hnz : 0 ∉ file_text t ++ 10 :: add_options [] (command_line ds)).
  { pose proof (file_text_no_nul t). pose proof (options_no_nul ds Hds). set_solver. }
  rewrite cstr_id by (apply Forall_forall; by intros x Hx ->).
  destruct (decide (ds = [])) as [->|Hne].
  - rewrite split_nl_app, load_lines_app. destruct (load_lines _ _ _ _ s) as [[s1|f]|]; done.
  - rewrite options_lines, split_nl_lines; [|apply Forall_fmap|done..].
    2:{ eapply Forall_impl; [exact Hds|]. intros d Hd. by apply directive_no. }
    rewrite load_lines_app. destruct (load_lines _ _ _ _ s) as [[s1|f]|]; [|done..]. cbn [obind].
    by rewrite load_directives.
Qed.

(** C11: The server is started with a configuration file and options
    [--name arg ...]: the directives of the file are executed line by line,
    then the options in order, each with exactly the name and the arguments
    that were given, whatever bytes the arguments contain; the first that is
    refused ends the process with its line. *)
Theorem command_line_executed fuel s f ds :
  is_option f = false -> special_option f = false -> Forall (fun d => dir_ok d = true) ds ->
  main_config env (S fuel) s (f :: command_line ds) =
  match read_config env (resetServerSaveParams s) f with
  | None => Some (inr (CannotOpen (cstr f)))
  | Some (t, s1) =>
      let? r := load_lines env (include_at fuel) 1 (split_nl (file_text t)) s1 in
      match r with
      | inl s2 => exec_all env (include_at fuel) (1 + zlen (split_nl (file_text t))) ds s2
      | inr e => Some (inr e)
      end
  end.
Proof.
  intros Hf Hv Hds. unfold main_config. rewrite Hf, Hv. cbn [negb loadServerConfig].
  destruct (read_config env _ f) as [[t s1]|]; [|done].
  rewrite (cstr_id (add_options _ _)).
  - by apply load_file_options.
  - apply Forall_forall. pose proof (options_no_nul ds Hds). by intros x Hx ->.
Qed.

Lemma load_in_range fuel input s tbl argv s' :
  initServerConfig input = Some (s, tbl) -> main_config env fuel s argv = Some (inl s') -> in_range s'.
Proof.
  intros Hi%init_range Hm. destruct argv as [|a argv]; cbn [main_config] in Hm; [congruence|].
  destruct (special_option a); [done|].
  destruct (if negb (is_option a) then _ else _) as [f rest].
  apply load_range in Hm; [done|]. by apply range_reset.
Qed.

(** C10: Whatever the files and the command line say, a configuration the
    server starts with is in range: the timer frequency between 1 and 500,
    the port a port, at least one client and one database, limits for the
    three classes of clients, no negative delays, file names without
    directories, a password that fits its buffer. *)
Theorem configuration_in_range fuel input s tbl argv s' :
  initServerConfig input = Some (s, tbl) -> main_config env fuel s argv = Some (inl s') -> in_range s'.
Proof. apply load_in_range. Qed.

End Load.

(** ** Renaming commands *)

(** Deletion, and insertion of a key that is there, in the meaning of the
    finite map a dictionary stands for. *)
Class DictDeleteSpec (D : Type) `{UserDictSpec D nat} `{!DictDelete D} := {
  ud_delete_spec : forall (d : D) k, ud_wf d ->
    exists d', ud_delete d k =
        Some (d', match ud_map d !! canon_case k with Some _ => DICT_OK | None => DICT_ERR end) /\
      ud_wf d' /\ ud_map d' = delete (canon_case k) (ud_map d);
  ud_add_exists : forall (d : D) k x, ud_wf d -> Z.of_nat (base.size (ud_map d)) < 2 ^ 29 ->
    is_Some (ud_map d !! canon_case k) ->
    exists d', ud_add d k x = Some (d', DICT_ERR) /\ ud_wf d' /\ ud_map d' = ud_map d
}.

Section Rename.
Context {D : Type} `{UserDictSpec D nat} `{!DictDelete D} `{!DictDeleteSpec D}.
Implicit Types s : config D.

Definition commands_ok s : Prop :=
  ud_wf (commands s) /\ Z.of_nat (base.size (ud_map (commands s))) < 2 ^ 29.

Lemma canon_sdsnew_tolower n : nonul n = true -> canon_case (sdsnew n) = tolower <$> n.
Proof. intros Hn. unfold canon_case. cbn. by rewrite nonul_cstr. Qed.

Definition no_command : list Z := bytes_of_string "No such command in rename-command".
Definition name_taken : list Z := bytes_of_string "Target command name already exists".

Lemma rename_spec s old new :
  commands_ok s -> nonul old = true -> nonul new = true ->
  let m := ud_map (commands s) in
  let k := tolower <$> old in
  match m !! k with
  | None => do_rename s old new = Some (Err no_command)
  | Some j =>
      if decide (new <> [] /\ is_Some (delete k m !! (tolower <$> new)))
      then do_rename s old new = Some (Err name_taken)
      else exists d, do_rename s old new = Some (Done (set_commands s d)) /\ commands_ok (set_commands s d) /\
             ud_map d = if decide (new = []) then delete k m else <[tolower <$> new := j]> (delete k m)
  end.
Proof using Type*.
  intros [Hwf Hsz] Ho Hn m k. unfold do_rename. rewrite Ho, Hn. cbn [andb negb].
  destruct (ud_fetch_spec (commands s) (sdsnew old) Hwf) as (d1 & -> & Hw1 & Hm1). cbn [obind].
  rewrite canon_sdsnew_tolower by done. fold m k in Hm1 |- *. destruct (m !! k) as [j|] eqn:Ek; [|done].
  destruct (ud_delete_spec d1 (sdsnew old) Hw1) as (d2 & -> & Hw2 & Hm2). cbn [obind].
  rewrite (canon_sdsnew_tolower old Ho), Hm1 in Hm2 |- *. fold m k in Hm2 |- *. rewrite Ek. cbn [Z.eqb DICT_OK negb].
  assert (Hs2 : Z.of_nat (base.size (ud_map d2)) < 2 ^ 29 - 1).
  { rewrite Hm2. pose proof (map_size_delete_Some k m (mk_is_Some _ _ Ek)). fold m in Hsz.
    pose proof (map_size_ne_0_lookup_2 m k (mk_is_Some _ _ Ek)). lia. }
  destruct new as [|c new].
  - rewrite decide_False by (intros [? _]; done). cbn [length Z.of_nat Z.eqb negb]. exists d2.
    split; [done|]. split; [split; [done|cbn; lia]|]. by rewrite decide_True.
  - rewrite (proj2 (Z.eqb_neq (zlen (c :: new)) 0)) by (cbn; lia). cbn [negb].
    pose proof (canon_sdsnew_tolower (c :: new) Hn) as Hk2. set (k2 := tolower <$> c :: new) in *.
    destruct (decide _) as [[_ Hx]|Hx].
    + destruct (ud_add_exists d2 (sdsnew (c :: new)) j Hw2) as (d3 & -> & _); [lia|by rewrite Hk2, Hm2|done].
    + assert (Hnone : delete k m !! k2 = None).
      { apply eq_None_not_Some. intros Hs. by apply Hx. }
      destruct (ud_add_spec d2 (sdsnew (c :: new)) j Hw2) as (d3 & -> & Hw3 & Hm3); [lia|by rewrite Hk2, Hm2|].
      cbn [obind Z.eqb DICT_OK negb]. exists d3. rewrite Hk2, Hm2 in Hm3. split; [done|].
      split; [|by rewrite decide_False]. split; [done|]. cbn [commands set_commands].
      rewrite Hm3, map_size_insert_None by done. rewrite <- Hm2. lia.
Qed.

(** C35: [rename-command] does what it says to the table of commands: the
    old name, in any case, is taken out and the new one, unless it is empty,
    stands for the same command; a name that is not there and a name that is
    taken are refused, and the assertion of the code holds. *)
Theorem rename_command_map s old new :
  commands_ok s -> nonul old = true -> nonul new = true ->
  let m := ud_map (commands s) in
  let k := tolower <$> old in
  match m !! k with
  | None => do_rename s old new = Some (Err no_command)
  | Some j =>
      if decide (new <> [] /\ is_Some (delete k m !! (tolower <$> new)))
      then do_rename s old new = Some (Err name_taken)
      else exists d, do_rename s old new = Some (Done (set_commands s d)) /\ commands_ok (set_commands s d) /\
             ud_map d = if decide (new = []) then delete k m else <[tolower <$> new := j]> (delete k m)
  end.
Proof using Type*. apply rename_spec. Qed.

End Rename.

(** ** The loader returns *)

Section Returns.
Context {D : Type} `{UserDictSpec D nat} `{!DictDelete D} `{!DictDeleteSpec D} (env : environ).
Implicit Types s : config D.

(** What a directive that only sets members leaves alone. *)
Definition keeps s (o : outcome D) : Prop :=
  forall s', o = Done s' -> commands s' = commands s /\ stdin s' = stdin s.

Ltac keep_tac :=
  intros ?; cbv zeta;
  unfold yesno_field, num_field, choice_field, do_bind, do_unixsocketperm, do_save, do_logfile, do_hz, do_backlog,
    do_limit, do_notify, err;
  repeat case_match; intros; simplify_eq; try done;
  unfold resizeReplicationBacklog; repeat case_match; done.

(** Files may be ranked so that each includes only files of lower rank, and
    no directive has an argument with a zero byte. *)
Context (rank : list Z -> nat).

Definition argv_fine (bound : nat) (argv : list (list Z)) : Prop :=
  Forall (fun a => nonul a = true) argv /\
  (named (nth 0 argv []) "include" = true -> zlen argv = 2 -> (rank (cstr (nth 1 argv [])) < bound)%nat).

Definition lines_fine (bound : nat) (lines : list (list Z)) : Prop :=
  forall l argv, l ∈ lines -> sdssplitargs (trim_line l) = Some argv -> argv_fine bound argv.

(** The same as a test. *)
Definition lines_check (bound : nat) (lines : list (list Z)) : bool :=
  forallb (fun l =>
    match sdssplitargs (trim_line l) with
    | Some argv =>
        forallb nonul argv &&
        (negb (named (nth 0 argv []) "include" && (zlen argv =? 2)) || (rank (cstr (nth 1 argv [])) <? bound)%nat)
    | None => true
    end) lines.

Lemma lines_check_fine bound lines : lines_check bound lines = true -> lines_fine bound lines.
Proof using Type.
  intros Hc l argv Hl%list_elem_of_In Hs. apply (proj1 (forallb_forall _ _) Hc) in Hl. rewrite Hs in Hl.
  apply andb_true_iff in Hl as [Hn Hi]. split.
  - apply List.Forall_forall. by apply forallb_forall.
  - intros E1 E2. rewrite E1, E2 in Hi. by apply Nat.ltb_lt in Hi.
Qed.

Definition text_fine (bound : nat) (t : list Z) : Prop := lines_fine bound (split_nl t).

Definition state_fine s : Prop := commands_ok s /\ text_fine (rank [45]) (file_text (stdin s)).

Definition returns (o : option (outcome D)) : Prop :=
  exists x, o = Some x /\ forall s', x = Done s' -> state_fine s'.

Lemma returns_kept s o : state_fine s -> keeps s o -> returns (Some o).
Proof using Type.
  intros [[Hw Hsz] Ht] Hk. exists o. split; [done|]. intros s' Hs'. destruct (Hk s' Hs') as [Hc Hi].
  unfold state_fine, commands_ok. by rewrite Hc, Hi.
Qed.

Lemma lower_idem c : tolower (tolower c) = tolower c.
Proof.
  unfold tolower. destruct (Z.leb_spec 65 c), (Z.leb_spec c 90); cbn [andb]; try done;
    repeat split_test; lia.
Qed.

Lemma cstr_lower a : cstr (tolower <$> a) = tolower <$> cstr a.
Proof.
  induction a as [|c a IH]; [done|]. cbn [fmap list_fmap cstr]. fold (tolower <$> a).
  destruct (Z.eqb_spec c 0) as [->|Hc]; [done|].
  replace (tolower c =? 0) with false by (unfold tolower; repeat split_test; lia).
  cbn [fmap list_fmap]. f_equal. exact IH.
Qed.

Lemma named_lower a n : named (tolower <$> a) n = named a n.
Proof.
  unfold named, strcaseeq. rewrite cstr_lower, <- list_fmap_compose.
  assert (tolower ∘ tolower <$> cstr a = tolower <$> cstr a) as ->; [|done].
  apply list_fmap_ext. intros _ c _. apply lower_idem.
Qed.

Lemma rename_returns s old new : state_fine s -> nonul old = true -> nonul new = true -> returns (do_rename s old new).
Proof using Type*.
  intros [Hc Ht] Ho Hn. pose proof (rename_spec s old new Hc Ho Hn) as Hr. cbv zeta in Hr.
  destruct (ud_map (commands s) !! (tolower <$> old)) as [j|]; [|by rewrite Hr; eexists].
  destruct (decide _); [by rewrite Hr; eexists|]. destruct Hr as (d & -> & Hd & _).
  eexists. split; [done|]. intros s' [= <-]. by split.
Qed.

Ltac pick :=
  match goal with
  | |- returns (if ?b then _ else _) =>
      destruct b eqn:?; [solve [apply (returns_kept _ _ ltac:(eassumption)); keep_tac|auto]|]
  end.

Lemma exec_returns include s argv bound :
  state_fine s -> argv_fine bound argv -> argv <> [] ->
  (forall f, (rank (cstr f) < bound)%nat -> returns (include s f)) ->
  returns (exec env include s argv).
Proof using Type*.
  intros Hs [Hnul Hinc] Hne Hi. destruct argv as [|a l]; [done|]. unfold exec.
  set (argv := (tolower <$> a) :: l).
  assert (Hinc' : named (nth 0 argv []) "include" && (zlen argv =? 2) = true -> returns (include s (nth 1 argv []))).
  { intros [Hn Hl%Z.eqb_eq]%andb_true_iff. cbn in Hn. rewrite named_lower in Hn. by apply Hi, Hinc. }
  assert (Hren : returns (do_rename s (nth 1 argv []) (nth 2 argv []))).
  { apply Forall_cons in Hnul as [_ Hl]. apply rename_returns; [done| |].
    - destruct l as [|x l]; [done|]. by apply Forall_cons in Hl as [? _].
    - destruct l as [|x [|y l]]; [done..|]. by apply Forall_cons in Hl as [_ [? _]%Forall_cons]. }
  unfold exec_general. cbv zeta. repeat pick.
  unfold exec_persist. cbv zeta. repeat pick.
  unfold exec_other. cbv zeta. repeat pick.
  apply (returns_kept s); [done|keep_tac].
Qed.

Definition loads (r : option (config D + failure)) : Prop :=
  exists x, r = Some x /\ forall s', x = inl s' -> state_fine s'.

Lemma load_lines_returns include bound n lines s :
  state_fine s -> lines_fine bound lines ->
  (forall s f, state_fine s -> (rank (cstr f) < bound)%nat -> returns (include s f)) ->
  loads (load_lines env include n lines s).
Proof using Type*.
  intros Hs Hl Hi. revert n s Hs. induction lines as [|l lines IH]; intros n s Hs; cbn [load_lines].
  { eexists. split; [done|]. by intros s' [= <-]. }
  assert (Hl' : lines_fine bound lines) by (intros l' argv Hin; apply Hl; by right).
  specialize (IH Hl'). destruct (_ || _); [by apply IH|].
  destruct (sdssplitargs (trim_line l)) as [[|a argv]|] eqn:E; [by apply IH| |by eexists].
  destruct (exec_returns include s (a :: argv) bound) as (o & -> & Ho); [done| |done|auto|].
  { apply (Hl l); [by left|done]. }
  cbn [obind]. destruct o as [s1|e|f]; [by apply IH, Ho|by eexists..].
Qed.

(** The files of the machine keep to the ranks. *)
Definition files_fine : Prop :=
  forall h f t, env_open env h f = Some t -> text_fine (rank f) (file_text t).

Lemma text_fine_mono a b t : (a <= b)%nat -> text_fine a t -> text_fine b t.
Proof using Type.
  intros Hab Ht l argv Hl Hs. destruct (Ht l argv Hl Hs) as [Hn Hr]. split; [done|].
  intros H1 H2. specialize (Hr H1 H2). lia.
Qed.

Lemma empty_fine b : text_fine b [].
Proof using Type.
  intros l argv Hl Hs. apply list_elem_of_singleton in Hl as ->. injection Hs as <-.
  split; [constructor|done].
Qed.

Lemma read_config_fine s f t s' :
  files_fine -> state_fine s -> read_config env s f = Some (t, s') ->
  state_fine s' /\ text_fine (rank (cstr f)) (file_text t).
Proof using Type.
  intros Hf [Hc Ht]. unfold read_config. destruct (bool_decide_reflect (cstr f = [45])) as [E|].
  - intros [= <- <-]. rewrite E. split; [|done]. split; [done|]. apply empty_fine.
  - intros Hr. opt_inv. split; [done|]. by apply (Hf (cwd s') (cstr f)).
Qed.

Lemma load_returns fuel : forall s f,
  files_fine -> state_fine s -> (rank (cstr f) < fuel)%nat ->
  loads (loadServerConfig env fuel s (Some f) None).
Proof using Type*.
  induction fuel as [|fuel IH]; intros s f Hff Hs Hr; [lia|]. cbn [loadServerConfig].
  destruct (read_config env s f) as [[t s1]|] eqn:E; [|by eexists].
  apply read_config_fine in E as [Hs1 Ht]; [|done..]. rewrite app_nil_r.
  unfold loadServerConfigFromString. rewrite cstr_id.
  2:{ apply Forall_forall. pose proof (file_text_no_nul t). by intros x Hx ->. }
  eapply load_lines_returns; [done|exact Ht|]. intros s2 f2 Hs2 Hr2.
  destruct (IH s2 f2 Hff Hs2 ltac:(lia)) as (r & -> & Hres). eexists. split; [done|].
  intros s3. destruct r as [s4|]; [|done]. intros [= <-]. by apply Hres.
Qed.

(** C34: The loader returns, without a fault, when the files of the machine
    can be ranked so that each includes only files of a lower rank; the rank
    of the first file bounds the depth of the recursion. *)
Theorem config_load_returns fuel s f o :
  files_fine -> state_fine s -> (rank (cstr f) <= fuel)%nat -> text_fine fuel (cstr o) ->
  exists r, loadServerConfig env (S fuel) s (Some f) (Some o) = Some r.
Proof using Type*.
  intros Hff Hs Hr Ho. cbn [loadServerConfig].
  destruct (read_config env s f) as [[t s1]|] eqn:E; [|by eexists].
  apply read_config_fine in E as [Hs1 Ht]; [|done..].
  unfold loadServerConfigFromString. rewrite cstr_id.
  2:{ apply Forall_forall. pose proof (file_text_no_nul t). pose proof (cstr_no_nul o). intros x Hx ->. set_solver. }
  rewrite split_nl_app.
  edestruct (load_lines_returns (include_at env fuel) fuel 1) as (r & Hl & _); [exact Hs1| | |by eexists].
  - intros l argv [Hl|Hl]%elem_of_app Hsp; [|by apply (Ho l)].
    by apply (text_fine_mono _ _ _ Hr Ht l).
  - intros s2 f2 Hs2 Hr2. unfold include_at.
    destruct (load_returns fuel s2 f2 Hff Hs2 Hr2) as (r & -> & Hres). eexists. split; [done|].
    intros s3. destruct r as [s4|]; [|done]. intros [= <-]. by apply Hres.
Qed.

End Returns.

(** ** A file that includes itself *)

Module Loop.

Definition self : list Z := bytes_of_string "a.conf".

Definition env : environ :=
  Environ (fun _ _ => true)
    (fun _ f => if bool_decide (f = self) then Some (bytes_of_string "include a.conf" ++ [10]) else None)
    (fun _ _ => None).

Section Loop.
Context {D : Type} `{!UserDict D nat} `{!DictDelete D}.

Lemma self_line include (s : config D) :
  exec env include s [bytes_of_string "include"; self] = include s self.
Proof. vm_compute. reflexivity. Qed.

(** Nothing stops a file from including itself: for every depth the loader
    wants to go deeper, which in the code exhausts files and stack. *)
Theorem self_include_never_returns fuel (s : config D) :
  loadServerConfig env fuel s (Some self) None = None.
Proof.
  revert s. induction fuel as [|fuel IH]; intros s; [done|]. cbn [loadServerConfig].
  set (include := fun _ _ => _).
  assert (Hi : forall s, include s self = None) by (intros s1; unfold include; by rewrite IH).
  assert (read_config env s self = Some (bytes_of_string "include a.conf" ++ [10], s)) as -> by reflexivity.
  unfold loadServerConfigFromString. clearbody include.
  assert (split_nl (cstr (file_text (bytes_of_string "include a.conf" ++ [10]) ++ [])) =
          [bytes_of_string "include a.conf"; []]) as -> by (vm_compute; reflexivity).
  cbn [load_lines]. set (l := trim_line (bytes_of_string "include a.conf")).
  assert ((hd 0 l =? 35) || (hd 0 l =? 0) = false) as -> by (vm_compute; reflexivity).
  assert (sdssplitargs l = Some [bytes_of_string "include"; self]) as -> by (vm_compute; reflexivity).
  by rewrite self_line, Hi.
Qed.

End Loop.
End Loop.

End ConfigSpec.
