(* ===== verification/System.v ===== *)
(** * The server as a whole

    The event loop delivers connections, bytes, write readiness and timer
    ticks, while a thread loads the accounts; the components of the other
    files handle them.  This file puts them together: the parser of each
    connection, the dispatcher and its command table, and the chat, node and
    registration commands. *)

From S2P Require Import Prelude Dict DictSpec Reply UserTable Chat Rand Md5 Register Sds Util SdsBuf Query Command.
Import HashTable Output Users Chat Register SdsBuf Query Command.

Module System.

Section System.
Context {D : Type} `{!UserDict D nat}.
Context (same_bucket : D -> list Z -> bool).

(** Whether the event loop accepts a write handler, and a read handler, for
    a descriptor. *)
Context (ae ae_read : Z -> bool).
Context {DB : Type} (db_query : DB -> list Z -> option (list (list (list Z))))
        (db_exec : DB -> list Z -> DB).

(** What the [n]-th command finds on the stack. *)
Context (frames : nat -> stackframe).

(** What the commands act on. *)
Record cworld := CWorld {
  w_rand : Rand.state;
  w_srv : server D DB;
  w_calls : nat
}.

(** The command procedures of the table, run for client [p]; while a command
    runs, the client's output side is in its object. *)
Definition run_proc (p : nat) (name : string) (w : cworld) (o : outbuf) (argv : list (list Z))
  : option (cworld * outbuf * Z) :=
  let? s := upd (w_srv w) p (fun c => set_out c o) in
  let? (x, s) :=
    if String.eqb name "chatCommand" then
      let? s := chatCommand ae db_query s p argv in Some (w_rand w, s)
    else if String.eqb name "nodeCommand" then
      let? s := nodeCommand ae db_exec s p argv in Some (w_rand w, s)
    else if String.eqb name "registerCommand" then
      registerCommand ae db_query db_exec (w_rand w) s p (frames (w_calls w)) argv
    else None in
  let? c := objects s !! p in
  Some (CWorld x s (S (w_calls w)), out c, 0).

(** The whole state: the configuration, the command dictionary with its
    rows, the statistics and effects of [call], the world of the commands,
    for each connection the state of its parser and of the dispatcher, and
    where the thread that loads the accounts is: before its query, or with
    the rows that are left. *)
Record system := System {
  sys_cfg : config;
  maxclients : Z;
  maxidletime : Z;
  sys_commands : D;
  sys_tbl : list redisCommand;
  sys_stat : Z;
  sys_trace : list effect;
  sys_world : cworld;
  inputs : gmap nat (qclient * fclient);
  loading : option (list (list (list Z)))
}.

Definition set_world (S : system) (w : cworld) : system :=
  System (sys_cfg S) (maxclients S) (maxidletime S) (sys_commands S) (sys_tbl S) (sys_stat S) (sys_trace S) w
    (inputs S) (loading S).
Definition set_inputs (S : system) (i : gmap nat (qclient * fclient)) : system :=
  System (sys_cfg S) (maxclients S) (maxidletime S) (sys_commands S) (sys_tbl S) (sys_stat S) (sys_trace S)
    (sys_world S) i (loading S).
Definition set_loading (S : system) (l : option (list (list (list Z)))) : system :=
  System (sys_cfg S) (maxclients S) (maxidletime S) (sys_commands S) (sys_tbl S) (sys_stat S) (sys_trace S)
    (sys_world S) (inputs S) l.
Definition set_srv (w : cworld) (s : server D DB) : cworld := CWorld (w_rand w) s (w_calls w).

Definition srv (S : system) : server D DB := w_srv (sys_world S).

(** Release a client: its object and its input side. *)
Definition drop_client (S : system) (p : nat) : option system :=
  let? s := freeClient ae (srv S) p in
  Some (set_inputs (set_world S (set_srv (sys_world S) s)) (delete p (inputs S))).

(** [acceptCommonHandler]. *)
Definition acceptCommonHandler (S : system) (p : nat) (fd junk : Z) : option system :=
  if negb (ae_read fd) then Some S
  else
    let s := createClient (srv S) p fd junk in
    let S := set_inputs (set_world S (set_srv (sys_world S) s))
               (<[p := (fresh_query (new_outbuf fd), FClient false 0 0 [])]> (inputs S)) in
    if maxclients S <? zlen (clients s) then drop_client S p else Some S.

(** The read handler of client [p]. *)
Definition read_handler (S : system) (p : nat) (r : nread) : option system :=
  let? c := objects (srv S) !! p in
  let? (q, fc) := inputs S !! p in
  let f := Front (sys_cfg S) (sys_commands S) (sys_tbl S) fc (sys_stat S) (sys_trace S) (sys_world S) in
  let? (f, oq) := readQueryFromClient ae (processCommand same_bucket ae (run_proc p)) (unixtime (srv S)) f
                    (set_io q (out c)) r in
  let S := System (cfg f) (maxclients S) (maxidletime S) (commands f) (tbl f) (stat_numcommands f) (trace f)
             (world f) (inputs S) (loading S) in
  match oq with
  | None => drop_client S p
  | Some q =>
      let? s := upd (srv S) p (fun c => set_out c (io q)) in
      Some (set_inputs (set_world S (set_srv (sys_world S) s)) (<[p := (q, cl f)]> (inputs S)))
  end.

(** The write handler of client [p], with the results of its writes. *)
Definition write_handler (S : system) (p : nat) (under_maxmemory : bool) (ws : list write_res)
  : option system :=
  let? c := objects (srv S) !! p in
  let '(o, _, fin) := sendReplyToClient under_maxmemory ws (out c) in
  let? s := upd (srv S) p (fun c => set_out c o) in
  let S := set_world S (set_srv (sys_world S) s) in
  match fin with SendFree => drop_client S p | _ => Some S end.

(** ** The timer *)

(** Release of the client that the idle check closed. *)
Definition cron_handler (S : system) (p : nat) : option (system * Z) :=
  let? (s, freed) := clientsCronHandleTimeout ae (maxidletime S) (srv S) p in
  let S := set_world S (set_srv (sys_world S) s) in
  Some (if freed =? 1 then set_inputs S (delete p (inputs S)) else S, freed).

(** The query buffer [b] and its peak after the check. *)
Definition clientsCronResizeQueryBuffer (junk : nat -> Z) (now lastinteraction peak : Z) (b : sdshdr)
  : sdshdr * Z :=
  let querybuf_size := sdsAllocSize b in
  let idletime := now - lastinteraction in
  let b :=
    if ((REDIS_MBULK_BIG_ARG <? querybuf_size) && (2 <? querybuf_size `div` u64 (peak + 1)))
       || ((1024 <? querybuf_size) && (2 <? idletime))
    then if 1024 <? sdsavail b then sdsRemoveFreeSpace junk b else b
    else b in
  (b, 0).

(** The memory of a string with [room] behind it. *)
Definition sds_of (l room : list Z) : sdshdr := Sdshdr (zlen l) (zlen room) (l ++ 0 :: room).
Definition sds_bytes (b : sdshdr) : list Z := take (Z.to_nat (slen b)) (sbuf b).

(** The check of client [p], whose query buffer has [room] to grow. *)
Definition resize_handler (S : system) (p : nat) (junk : nat -> Z) (room : list Z) : option system :=
  let? c := objects (srv S) !! p in
  let? (q, fc) := inputs S !! p in
  let '(b, peak) := clientsCronResizeQueryBuffer junk (unixtime (srv S)) (lastinteraction c) (querybuf_peak q)
                      (sds_of (querybuf q) room) in
  Some (set_inputs S (<[p := (set_peak (set_querybuf q (sds_bytes b)) peak, fc)]> (inputs S))).

(** How many clients a call visits. *)
Definition cron_iterations (hz numclients : Z) : Z :=
  let iterations := Z.quot numclients (hz * 10) in
  if iterations <? 50 then (if numclients <? 50 then numclients else 50) else iterations.

(** [room p] is the room behind the query buffer of client [p]. *)
Fixpoint cron_loop (iterations : nat) (S : system) (junk : nat -> Z) (room : nat -> list Z) : option system :=
  match iterations, clients (srv S) with
  | O, _ | _, [] => Some S
  | S n, _ =>
      let s := set_clients (srv S) (rotate (clients (srv S))) in
      let S := set_world S (set_srv (sys_world S) s) in
      let? p := head (clients s) in
      let? (S, freed) := cron_handler S p in
      let? S := if negb (freed =? 0) then Some S else resize_handler S p junk (room p) in
      cron_loop n S junk room
  end.

(** The quotient needs a frequency other than zero. *)
Definition clientsCron (S : system) (hz : Z) (junk : nat -> Z) (room : nat -> list Z) : option system :=
  if hz =? 0 then None
  else cron_loop (Z.to_nat (cron_iterations hz (zlen (clients (srv S))))) S junk room.

Definition update_time (S : system) (now : Z) : system :=
  let s := srv S in
  set_world S (set_srv (sys_world S) (Server (clients s) (objects s) (users s) (db s) now)).

(** The timer reads the clock and looks after the clients; the rest of
    [serverCron] serves persistence, replication and statistics, and the
    queue of clients to close, which is empty while output is unlimited
    ([OutObj]).  It asks to
    be called again after the returned number of milliseconds. *)
Definition serverCron (S : system) (now hz : Z) (junk : nat -> Z) (room : nat -> list Z)
  : option (system * Z) :=
  let S := update_time S now in
  let? S := clientsCron S hz junk room in
  Some (S, Z.quot 1000 hz).

(** ** The thread that loads the accounts *)

(** [main] starts a thread with [do_mysql_dump_redis] and enters the event
    loop; the thread sends its query, and enters one account after the other
    while the loop is running.  One step is the query, or one account with
    its nodes. *)
Definition loader_step (S : system) : option system :=
  match loading S with
  | None => Some (set_loading S (Some (default [] (db_query (db (srv S)) user_query))))
  | Some [] => Some S
  | Some (row :: rows) =>
      let? u := load_users db_query [row] (db (srv S)) (users (srv S)) in
      Some (set_loading (set_world S (set_srv (sys_world S) (set_users (srv S) u))) (Some rows))
  end.

(** What happens: what the event loop delivers, and steps of the thread. *)
Inductive net_event :=
  | Load
  | Accept (p : nat) (fd junk : Z)
  | Readable (p : nat) (r : nread)
  | Writable (p : nat) (under_maxmemory : bool) (ws : list write_res)
  | Timer (now hz : Z) (junk : nat -> Z) (room : nat -> list Z).

Definition net_step (S : system) (e : net_event) : option system :=
  match e with
  | Load => loader_step S
  | Accept p fd junk => acceptCommonHandler S p fd junk
  | Readable p r => read_handler S p r
  | Writable p u ws => write_handler S p u ws
  | Timer now hz junk room => let? (S, _) := serverCron S now hz junk room in Some S
  end.

(** Start-up: the command table; the accounts are still to be loaded. *)
Definition start (g : config) (maxcl maxidle : Z) (d : DB) (now : Z) : option system :=
  let? (commands, _, tbl) := populateCommandTable in
  Some (System g maxcl maxidle commands tbl 0 [] (CWorld Rand.initial (init_server d now) 0) ∅ None).

End System.
Arguments cworld : clear implicits.
Arguments system : clear implicits.

End System.
