(* ===== verification/SystemSpec.v ===== *)
(** * The server as a whole is safe

    The agreement of sessions and accounts, the readiness of every parser and
    the integrity of the command table hold together in every state the event
    loop can reach, whatever bytes the clients send; and while words keep to
    the buffers they are copied into, no event makes the server fault. *)

From S2P Require Import Prelude Dict DictSpec Reply UserTable Chat ChatSpec Scenario Rand Md5 Md5Spec Register RegisterSpec SessionSpec Sds Util SdsBuf Query QuerySpec QuerySafe Command CommandSpec System.
Import HashTable Output Users Chat ChatProofs Register RegisterProofs SessionProofs SdsBuf Query Command CommandProofs QuerySafe System.

Module SystemProofs.

(** ** Commands keep the flags of every client *)

Section Flags.
Context {D : Type} `{!UserDict D nat}.
Context (ae : Z -> bool).
Context {DB : Type} (db_query : DB -> list Z -> option (list (list (list Z))))
        (db_exec : DB -> list Z -> DB).
Implicit Types s : server D DB.

Definition flagmap s : gmap nat Z := (fun c => flags (out c)) <$> objects s.

Lemma flagmap_lookup s p c : objects s !! p = Some c -> flagmap s !! p = Some (flags (out c)).
Proof. intros H. unfold flagmap. by rewrite lookup_fmap, H. Qed.

Lemma upd_flags s p f s' :
  (forall c, flags (out (f c)) = flags (out c)) -> upd s p f = Some s' -> flagmap s' = flagmap s.
Proof.
  intros Hf. unfold upd. destruct (objects s !! p) as [c|] eqn:E; [|done]. cbn [obind]. intros [= <-].
  unfold flagmap. cbn. rewrite fmap_insert, Hf. apply insert_id. by rewrite lookup_fmap, E.
Qed.

Lemma reply_to_flags s p text s' : reply_to ae s p text = Some s' -> flagmap s' = flagmap s.
Proof. apply upd_flags. intros c. apply prepare_append_flags. Qed.

Lemma reply_lines_flags ls : forall s p s', reply_lines ae s p ls = Some s' -> flagmap s' = flagmap s.
Proof.
  induction ls as [|l ls IH]; intros s p s'; cbn [reply_lines]; [by intros [= <-]|].
  intros (s1 & E1 & E2)%obind_Some. apply IH in E2. apply reply_to_flags in E1. congruence.
Qed.

Lemma send_flags ps : forall s tag from to msg ty s',
  send_loop_clients ae ps s tag from to msg ty = Some s' -> flagmap s' = flagmap s.
Proof.
  induction ps as [|p ps IH]; intros s tag from to msg ty s'; cbn [send_loop_clients]; [by intros [= <-]|].
  intros (c & _ & E)%obind_Some. destruct (addressed c to ty); [|by apply IH in E].
  apply obind_Some in E as (t & _ & (s1 & E1 & E2)%obind_Some).
  apply IH in E2. apply reply_to_flags in E1. congruence.
Qed.

Lemma chatSend_flags s tag from to msg ty s' :
  _chatSend ae s tag from to msg ty = Some s' -> flagmap s' = flagmap s.
Proof. apply send_flags. Qed.

Lemma flagmap_set_users s u : flagmap (set_users s u) = flagmap s.
Proof. done. Qed.
Lemma flagmap_set_clients s l : flagmap (set_clients s l) = flagmap s.
Proof. done. Qed.
Lemma flagmap_run_command s cmd : flagmap (mysqlRunCommand db_exec s cmd) = flagmap s.
Proof. done. Qed.

(** Walk through a command: split binds and tests, and note what each step
    does to the flags. *)
Ltac walk :=
  repeat match goal with
  | H : obind _ _ = Some _ |- _ => apply obind_Some in H; destruct H as (? & ? & H)
  | H : (let (_, _) := ?x in _) = Some _ |- _ => destruct x
  | H : (if ?b then _ else _) = Some _ |- _ => destruct b
  | H : match ?x with _ => _ end = Some _ |- _ => destruct x
  | H : Some _ = Some _ |- _ => injection H as H; subst
  end;
  repeat match goal with
  | H : reply_to _ _ _ _ = Some _ |- _ => apply reply_to_flags in H
  | H : reply_lines _ _ _ _ = Some _ |- _ => apply reply_lines_flags in H
  | H : _chatSend _ _ _ _ _ _ _ = Some _ |- _ => apply chatSend_flags in H
  | H : upd _ _ _ = Some _ |- _ => apply upd_flags in H; [|done]
  end;
  rewrite ?flagmap_set_users, ?flagmap_set_clients, ?flagmap_run_command in *; try congruence.

Lemma refuse_flags s p msg s' : refuse ae s p msg = Some s' -> flagmap s' = flagmap s.
Proof. unfold refuse. intros H. walk. Qed.

Lemma userinfo_flags s p s' : chatUserInfoReply ae s p = Some s' -> flagmap s' = flagmap s.
Proof. unfold chatUserInfoReply. intros H. walk. Qed.

Lemma chatSay_flags s p argv s' : chatSay ae s p argv = Some s' -> flagmap s' = flagmap s.
Proof. unfold chatSay. intros H. walk. Qed.

Lemma chatLogin_flags s p argv s' : chatLogin ae db_query s p argv = Some s' -> flagmap s' = flagmap s.
Proof.
  unfold chatLogin. intros H. walk.
  all: repeat match goal with
  | H : refuse _ _ _ _ = Some _ |- _ => apply refuse_flags in H
  | H : chatUserInfoReply _ _ _ = Some _ |- _ => apply userinfo_flags in H
  end; rewrite ?flagmap_set_users in *; congruence.
Qed.

Lemma nodeSay_flags s p argv s' : nodeSay ae s p argv = Some s' -> flagmap s' = flagmap s.
Proof. unfold nodeSay. intros H. walk. Qed.

Lemma nodeLogin_flags s p argv s' : nodeLogin ae db_exec s p argv = Some s' -> flagmap s' = flagmap s.
Proof.
  unfold nodeLogin. intros H. walk.
  all: repeat match goal with H : refuse _ _ _ _ = Some _ |- _ => apply refuse_flags in H end;
    rewrite ?flagmap_set_users, ?flagmap_run_command in *; congruence.
Qed.

Lemma dump_loop_flags n : forall s p s', dump_loop ae n s p = Some s' -> flagmap s' = flagmap s.
Proof.
  induction n as [|n IH]; intros s p s'; cbn [dump_loop]; [by intros [= <-]|].
  intros H. walk. apply IH in H. congruence.
Qed.

Lemma dump_users_flags ps : forall s p s', dump_users ae ps s p = Some s' -> flagmap s' = flagmap s.
Proof.
  induction ps as [|q ps IH]; intros s p s'; cbn [dump_users]; [by intros [= <-]|].
  intros H. walk. apply IH in H. congruence.
Qed.

Lemma myDebugEntry_flags s p s' : myDebugEntry ae s p = Some s' -> flagmap s' = flagmap s.
Proof.
  unfold myDebugEntry, dumpClients, dumpAlluser. intros H. walk.
  apply dump_users_flags in H. rewrite flagmap_set_users in H.
  match goal with H : dump_loop _ _ _ _ = Some _ |- _ => apply dump_loop_flags in H end. congruence.
Qed.

Lemma chatCommand_flags s p argv s' : chatCommand ae db_query s p argv = Some s' -> flagmap s' = flagmap s.
Proof.
  unfold chatCommand, touch, myAddUser. intros H. apply obind_Some in H as (sub & _ & H).
  destruct (streq sub _); [by apply chatLogin_flags in H|]. apply obind_Some in H as (c & _ & H).
  destruct (isvaliduser c =? 0); [by apply reply_to_flags in H|].
  destruct (streq sub _); [by apply chatSay_flags in H|].
  destruct (streq sub _); [by apply userinfo_flags in H|].
  destruct (streq sub _); [walk|]. destruct (streq sub _); [by apply myDebugEntry_flags in H|]. walk.
Qed.

Lemma nodeCommand_flags s p argv s' : nodeCommand ae db_exec s p argv = Some s' -> flagmap s' = flagmap s.
Proof.
  unfold nodeCommand, touch. intros H. apply obind_Some in H as (sub & _ & H).
  destruct (streq sub _); [by apply nodeLogin_flags in H|]. apply obind_Some in H as (c & _ & H).
  destruct (isvalidnode c =? 0); [by apply reply_to_flags in H|].
  destruct (streq sub _); [by apply nodeSay_flags in H|]. walk.
Qed.

Lemma registerCommand_flags x s p f argv x' s' :
  registerCommand ae db_query db_exec x s p f argv = Some (x', s') -> flagmap s' = flagmap s.
Proof.
  unfold registerCommand, register_getuserid, register_adduser. intros H.
  apply obind_Some in H as (sub & _ & H). destruct (streq sub _); [walk|]. destruct (streq sub _); walk.
Qed.

Lemma freeClient_flags s p s' : freeClient ae s p = Some s' -> flagmap s' = delete p (flagmap s).
Proof.
  unfold freeClient, chatNotifyUserInfo. intros H. walk.
  all: unfold flagmap in *; cbn [objects set_users] in *; rewrite fmap_delete; congruence.
Qed.

End Flags.

(** ** One request *)

Section System.
Context {D : Type} `{!UserDict D nat} `{!UserDictSpec D nat}.
Context (same_bucket : D -> list Z -> bool) (ae ae_read : Z -> bool).
Context {DB : Type} (db_query : DB -> list Z -> option (list (list (list Z))))
        (db_exec : DB -> list Z -> DB).
Context (frames : nat -> stackframe) (Hframes : forall n, Md5Proofs.storage (md5_ctx (frames n))).

Abbreviation runp := (run_proc ae db_query db_exec frames).
Abbreviation exec p := (processCommand same_bucket ae (runp p)).

Implicit Types s : server D DB.

(** What the handlers need of an invariant of the chat server: [sinv], the
    agreement of sessions and accounts, and [inv], with short names, both
    have it. *)
Class SessionInv (J : server D DB -> Prop) := {
  jv_sinv : forall s, J s -> sinv s;
  jv_quiet : forall s s', quiet s s' -> J s -> J s';
  jv_create : forall s p fd junk, J s -> ~ live s p -> J (createClient s p fd junk);
  jv_free : forall s p, J s -> live s p -> exists s', freeClient ae s p = Some s' /\ J s'
}.

#[export] Instance sinv_session : SessionInv sinv.
Proof.
  constructor; [done|exact quiet_sinv|intros; by apply (createClient_sinv ae)|].
  intros s p Hs Hp. destruct (freeClient_sinv ae s p Hs Hp) as (s' & E & H & _). eauto.
Qed.

#[export] Instance inv_session : SessionInv inv.
Proof. constructor; [exact inv_sinv|exact quiet_inv|intros; by apply (createClient_ok ae)|exact (freeClient_ok ae)]. Qed.

(** The state of the world between requests of client [p]. *)
Record world_ok (J : server D DB -> Prop) (p : nat) (w : cworld D DB) : Prop := {
  wk_inv : J (w_srv w);
  wk_live : live (w_srv w) p;
  wk_rand : Rand.limbs_ok (w_rand w)
}.

(** What a request must meet when it names a command and has its number of
    words. *)
Definition request_ok (w : cworld D DB) (args : list (list Z)) : Prop :=
  forall name cmd, head args = Some name -> find_row name = Some cmd -> zlen args = arity cmd ->
    (proc cmd = "chatCommand"%string -> chat_ok db_query (w_srv w) args) /\
    (proc cmd = "nodeCommand"%string -> node_ok_args args) /\
    (proc cmd = "registerCommand"%string ->
       words_ok args /\ room (w_srv w) /\ db_answers db_query (w_srv w)).

Lemma set_out_users (s : server D DB) p o s' :
  upd s p (fun c => set_out c o) = Some s' -> users s' = users s /\ db s' = db s /\ unixtime s' = unixtime s.
Proof. unfold upd. destruct (objects s !! p); [|done]. by intros [= <-]. Qed.

Lemma live_flagmap (s s' : server D DB) p : flagmap s' = flagmap s -> live s p -> live s' p.
Proof.
  intros E. unfold live. rewrite <- (fmap_is_Some (fun c => flags (out c)) (objects s !! p)).
  rewrite <- (fmap_is_Some (fun c => flags (out c)) (objects s' !! p)).
  rewrite <- !lookup_fmap. unfold flagmap in E. by rewrite E.
Qed.

Lemma listed_proc cmd : cmd ∈ live_table ->
  proc cmd = "chatCommand"%string \/ proc cmd = "nodeCommand"%string \/ proc cmd = "registerCommand"%string.
Proof.
  assert (Forall (fun cmd => proc cmd = "chatCommand"%string \/ proc cmd = "nodeCommand"%string \/
    proc cmd = "registerCommand"%string) live_table) as H by (repeat constructor; auto).
  rewrite Forall_forall in H. apply H.
Qed.

Lemma run_proc_ok p w o cmd name rest :
  world_ok inv p w -> request_ok w (name :: rest) -> find_row name = Some cmd -> zlen (name :: rest) = arity cmd ->
  exists w' o', runp p (proc cmd) w o (name :: rest) = Some (w', o', 0) /\ world_ok inv p w'.
Proof.
  intros [Hi Hl Hx] Hr Hf Ha. destruct (Hr name cmd eq_refl Hf Ha) as (R1 & R2 & R3). unfold run_proc.
  destruct (upd_ok (w_srv w) p (fun c => set_out c o)) as (s1 & E1 & Hq); [done|done|]. rewrite E1. cbn [obind].
  pose proof (quiet_inv _ _ Hq Hi) as Hi1. pose proof (quiet_live _ _ p Hq Hl) as Hl1.
  destruct (set_out_users _ _ _ _ E1) as (Eu & Ed & _).
  assert (forall x s2, inv s2 -> flagmap s2 = flagmap s1 -> Rand.limbs_ok x ->
    exists w' o', (let? c := objects s2 !! p in Some (CWorld x s2 (S (w_calls w)), out c, 0)) = Some (w', o', 0) /\
      world_ok inv p w') as Hfin.
  { intros x s2 Hi2 Hf2 Hx2. destruct (live_flagmap _ _ p Hf2 Hl1) as [c Hc]. rewrite Hc. cbn [obind].
    do 2 eexists. split; [done|]. constructor; [done|by exists c|done]. }
  destruct (listed_proc cmd (proj1 (find_row_listed _ _ Hf))) as [Ep|[Ep|Ep]]; rewrite Ep; cbn [String.eqb].
  - destruct (chatCommand_ok ae db_query s1 p (name :: rest)) as (s2 & E2 & Hi2); [done..| |].
    { destruct (R1 Ep) as [Hl4 Hsub]. split; [done|]. intros sub Es. destruct (Hsub sub Es) as [Hlog Hadd].
      unfold account_loaded, is_valid_user, room in *. by rewrite Eu, Ed. }
    simpl. rewrite E2. cbn [obind]. apply Hfin; [done|by apply chatCommand_flags in E2|done].
  - destruct (nodeCommand_ok ae db_exec s1 p (name :: rest)) as (s2 & E2 & Hi2); [done|done|by apply R2|].
    simpl. rewrite E2. cbn [obind]. apply Hfin; [done|by apply nodeCommand_flags in E2|done].
  - destruct (R3 Ep) as (Hargv & Hroom & Hdb).
    destruct (registerCommand_ok ae db_query db_exec (w_rand w) s1 p (frames (w_calls w)) (name :: rest))
      as (x & s2 & E2 & Hi2 & Hx2); [done..| | |done|done|].
    { unfold room. by rewrite Eu. }
    { unfold db_answers. by rewrite Ed. }
    simpl. rewrite E2. cbn [obind]. apply Hfin; [done|by apply registerCommand_flags in E2|done].
Qed.

(** A command leaves the flags of its own client, and of every other. *)
Lemma run_proc_flags p name w o argv w' o' d :
  runp p name w o argv = Some (w', o', d) ->
  flags o' = flags o /\ delete p (flagmap (w_srv w')) = delete p (flagmap (w_srv w)).
Proof.
  unfold run_proc. intros (s1 & E1 & H)%obind_Some. apply obind_Some in H as ([x s2] & E2 & H).
  apply obind_Some in H as (c & Hc & [= <- <- _]). cbn [w_srv].
  assert (flagmap s2 = flagmap s1) as Ef.
  { destruct (String.eqb name "chatCommand"); [|destruct (String.eqb name "nodeCommand");
      [|destruct (String.eqb name "registerCommand"); [|done]]].
    - apply obind_Some in E2 as (s3 & E3 & [= <- <-]). by apply chatCommand_flags in E3.
    - apply obind_Some in E2 as (s3 & E3 & [= <- <-]). by apply nodeCommand_flags in E3.
    - by apply registerCommand_flags in E2. }
  unfold upd in E1. destruct (objects (w_srv w) !! p) as [c0|] eqn:E0; [|done]. injection E1 as <-.
  assert (flagmap (set_objects (w_srv w) (<[p := set_out c0 o]> (objects (w_srv w)))) =
    <[p := flags o]> (flagmap (w_srv w))) as Es by (unfold flagmap; cbn; by rewrite fmap_insert).
  rewrite Es in Ef. split.
  - apply flagmap_lookup in Hc. rewrite Ef, lookup_insert_eq in Hc. by injection Hc.
  - by rewrite Ef, delete_insert_eq.
Qed.

Lemma processCommand_total p (f : front D (cworld D DB)) o args :
  front_ok f -> args <> [] -> world_ok inv p (world f) -> request_ok (world f) args ->
  exists f' o' r, exec p f o args = Some (f', o', r) /\ world_ok inv p (world f').
Proof.
  intros Hok Hne Hw Hr. destruct args as [|name rest]; [done|]. unfold processCommand. cbn [head obind].
  destruct (strcaseeq name (bytes_of_string "quit")); [by do 3 eexists|].
  pose proof Hok as (_ & _ & Et). rewrite Et.
  destruct (lookupCommand_ok same_bucket (commands f) name) as (d & -> & Hd); [rewrite <- Et; exact Hok|].
  cbn [obind]. destruct (if _ || _ then _ else None) as [cmd|] eqn:Ef; [|by do 3 eexists].
  assert (find_row name = Some cmd) as Hf by (by destruct (_ || _)).
  destruct ((0 <? arity cmd) && _ || _) eqn:Ea; [by do 3 eexists|].
  pose proof (listed_arity cmd (proj1 (find_row_listed _ _ Hf))) as Har.
  assert (zlen (name :: rest) = arity cmd) as Hl.
  { apply orb_false_iff in Ea as [Ea _]. rewrite (proj2 (Z.ltb_lt 0 (arity cmd))) in Ea by done.
    apply negb_false_iff, Z.eqb_eq in Ea. lia. }
  destruct (gate _ _ _ _ _ _); [by do 3 eexists|]. destruct (_ && _ && _ && _ && _); [by do 3 eexists|].
  destruct (run_proc_ok p (world f) (set_flags o (flags o &. ~. (REDIS_FORCE_AOF |. REDIS_FORCE_REPL))) cmd name rest Hw Hr Hf Hl)
    as (w' & o' & E & Hw').
  unfold call. cbv zeta. cbn [world set_commands]. rewrite E. cbn [obind]. by do 3 eexists.
Qed.

(** The dispatcher's state during the requests of client [p]. *)
Lemma exec_obeys p : obeys (exec p) front_ok.
Proof.
  intros f o args f' o' r Hok [Hm _] E. pose proof (processCommand_cases _ _ _ _ _ _ _ _ _ Hok E) as Hd.
  split.
  - destruct Hd as [? _ _|? ? _ _ Hd|? ? ? _ _ Hd|d f1 o1 cmd name rest _ _ _ _ _ _ _ Hd Hc]; [done|exact Hd|exact Hd|].
    destruct (call_inv _ _ _ _ _ _ _ Hc) as (? & ? & ? & ? & _ & _ & _ & Ec & Etb & _).
    unfold front_ok. rewrite Ec, Etb. exact Hd.
  - eapply dispatched_flags; [|exact Hm|exact Hd]. intros ? ? ? ? ? ? ? H. by apply run_proc_flags in H as [? _].
Qed.

(** ** The requests of one read *)

Fixpoint fine (p : nat) (f : front D (cworld D DB)) (o : outbuf) (reqs : list (list (list Z))) : Prop :=
  match reqs with
  | [] => True
  | args :: reqs =>
      request_ok (world f) args /\ forall f' o' r, exec p f o args = Some (f', o', r) -> fine p f' o' reqs
  end.

Lemma exec_others p f o args f' o' r :
  front_ok f -> exec p f o args = Some (f', o', r) ->
  delete p (flagmap (w_srv (world f'))) = delete p (flagmap (w_srv (world f))).
Proof.
  intros Hok E. destruct (processCommand_cases _ _ _ _ _ _ _ _ _ Hok E)
    as [? _ _|? ? _ _ Hd|? ? ? _ _ Hd|d f1 o1 cmd name rest _ _ _ _ _ _ _ Hd Hc]; [done..|].
  destruct (call_inv _ _ _ _ _ _ _ Hc) as (w & ? & ? & ? & Hr & _ & <- & _). by apply run_proc_flags in Hr as [_ ?].
Qed.

Lemma exec_cfg p f o args f' o' r :
  front_ok f -> exec p f o args = Some (f', o', r) -> cfg f' = cfg f.
Proof.
  intros Hok E. destruct (processCommand_cases _ _ _ _ _ _ _ _ _ Hok E)
    as [? _ _|? ? _ _ Hd|? ? ? _ _ Hd|d f1 o1 cmd name rest _ _ _ _ _ _ _ Hd Hc]; [done..|].
  by destruct (call_inv _ _ _ _ _ _ _ Hc) as (w & ? & ? & ? & Hr & _ & _ & _ & _ & -> & _).
Qed.

(** What a series of requests of client [p] leaves: the command table, the
    configuration and the flags of the other clients. *)
Record framed (p : nat) (f f' : front D (cworld D DB)) : Prop := {
  fr_ok : front_ok f';
  fr_others : delete p (flagmap (w_srv (world f'))) = delete p (flagmap (w_srv (world f)));
  fr_cfg : cfg f' = cfg f
}.

Lemma framed_refl p f : front_ok f -> framed p f f.
Proof. by constructor. Qed.

Lemma exec_framed p f o args f' o' r :
  front_ok f -> plain o -> exec p f o args = Some (f', o', r) -> framed p f f' /\ plain o'.
Proof.
  intros Hok Hp E. destruct (exec_obeys p _ _ _ _ _ _ Hok Hp E) as (Hok1 & _ & Hfl). split.
  - constructor; [done|by eapply exec_others|by eapply exec_cfg].
  - destruct (is_quit args); [by apply (plain_close o)|by apply (plain_flags o)].
Qed.

Lemma framed_trans p f1 f2 f3 : framed p f1 f2 -> framed p f2 f3 -> framed p f1 f3.
Proof. intros [A1 A2 A3] [B1 B2 B3]. constructor; congruence. Qed.

Lemma exec_reqs_ok p reqs : forall f o,
  front_ok f -> world_ok inv p (world f) -> plain o -> Forall (fun a => a <> []) reqs -> fine p f o reqs ->
  exists f' o', exec_reqs (exec p) f o reqs = Some (f', o') /\ framed p f f' /\ world_ok inv p (world f').
Proof.
  induction reqs as [|args reqs IH]; intros f o Hok Hw Hp Hne Hf; cbn [exec_reqs].
  { exists f, o. split; [done|]. split; [by apply framed_refl|done]. }
  apply Forall_cons in Hne as [Ha Hne]. destruct Hf as [Hr Hf].
  destruct (processCommand_total p f o args Hok Ha Hw Hr) as (f1 & o1 & r & E & Hw1). rewrite E. cbn [obind].
  destruct (exec_framed p _ _ _ _ _ _ Hok Hp E) as [Hfr Hp1].
  destruct (IH f1 o1 (fr_ok _ _ _ Hfr) Hw1 Hp1 Hne (Hf _ _ _ E)) as (f2 & o2 & -> & Hfr2 & Hw2).
  exists f2, o2. split; [done|]. split; [by eapply framed_trans|done].
Qed.

(** *** Whatever the requests are *)

Definition account_count (w : cworld D DB) : nat := brk (users (w_srv w)).

(** From [w] to [w'] account_count were at most added; with no more than the
    dictionary can index, the agreement is kept. *)
Definition advances (p : nat) (w w' : cworld D DB) : Prop :=
  (account_count w <= account_count w')%nat /\
  (Z.of_nat (account_count w') <= MAX_ACCOUNTS -> world_ok sinv p w -> world_ok sinv p w').

Lemma advances_trans p w1 w2 w3 : advances p w1 w2 -> advances p w2 w3 -> advances p w1 w3.
Proof. intros [A1 A2] [B1 B2]. split; [lia|]. intros Hm H. apply B2; [done|]. apply A2; [lia|done]. Qed.

Lemma getuserid_limbs x s p f argv x' s' :
  register_getuserid ae db_query db_exec x s p f argv = Some (x', s') -> Rand.limbs_ok x -> Rand.limbs_ok x'.
Proof.
  unfold register_getuserid. intros (email & _ & E)%obind_Some Hx.
  destruct (strchr 64 email); [|by apply obind_Some in E as (? & _ & [= <- _])].
  do 2 apply obind_Some in E as (? & _ & E). destruct (negb _); [by apply obind_Some in E as (? & _ & [= <- _])|].
  assert (Rand.limbs_ok (Rand.redisLrand48 x).1) as Hl by apply Rand.next_limbs.
  destruct (Rand.redisLrand48 x) as [y r]. cbn [fst] in Hl. clear Hx.
  do 8 apply obind_Some in E as (? & _ & E). by injection E as <- _.
Qed.

Lemma register_limbs x s p f argv x' s' :
  registerCommand ae db_query db_exec x s p f argv = Some (x', s') -> Rand.limbs_ok x -> Rand.limbs_ok x'.
Proof.
  unfold registerCommand. intros (sub & _ & E)%obind_Some Hx.
  destruct (streq sub _); [by eapply getuserid_limbs|]. destruct (streq sub _); [|by injection E as <- _].
  by apply obind_Some in E as (? & _ & [= <- _]).
Qed.

Lemma run_proc_advances p name w o argv w' o' d :
  runp p name w o argv = Some (w', o', d) -> advances p w w'.
Proof.
  intros E. pose proof (run_proc_flags _ _ _ _ _ _ _ _ E) as [_ Hd]. unfold run_proc in E.
  apply obind_Some in E as (s1 & E1 & E). apply obind_Some in E as ([x s2] & E2 & E).
  apply obind_Some in E as (c & Hc & [= <- _ _]).
  assert (keeps (w_srv w) s1) as Hk by (eapply kept_upd; [apply keeps_refl| |exact E1]; done).
  assert (goes s1 s2 /\ (Rand.limbs_ok (w_rand w) -> Rand.limbs_ok x)) as [Hg Hx].
  { destruct (String.eqb name "chatCommand"); [|destruct (String.eqb name "nodeCommand");
      [|destruct (String.eqb name "registerCommand"); [|done]]].
    - apply obind_Some in E2 as (s3 & E3 & [= <- <-]). split; [by eapply chatCommand_goes|done].
    - apply obind_Some in E2 as (s3 & E3 & [= <- <-]). split; [by eapply nodeCommand_goes|done].
    - split; [by eapply registerCommand_goes|by eapply register_limbs]. }
  destruct (goes_trans _ _ _ (keeps_goes _ _ Hk) Hg) as [Hb Hs]. split; [exact Hb|].
  intros Hm [Hi Hl Hr]. constructor; cbn [w_srv w_rand]; [by apply Hs|by exists c|by apply Hx].
Qed.

Lemma exec_advances p f o args f' o' r :
  front_ok f -> exec p f o args = Some (f', o', r) -> advances p (world f) (world f').
Proof.
  intros Hok E. destruct (processCommand_cases _ _ _ _ _ _ _ _ _ Hok E)
    as [? _ _|? ? _ _ Hd|? ? ? _ _ Hd|d f1 o1 cmd name rest _ _ _ _ _ _ _ Hd Hc]; [by split..|].
  destruct (call_inv _ _ _ _ _ _ _ Hc) as (w & ? & ? & ? & Hr & _ & <- & _). by eapply run_proc_advances.
Qed.

Lemma exec_reqs_advances p reqs : forall f o f' o',
  front_ok f -> plain o -> exec_reqs (exec p) f o reqs = Some (f', o') ->
  framed p f f' /\ advances p (world f) (world f').
Proof.
  induction reqs as [|args reqs IH]; intros f o f' o' Hok Hp; cbn [exec_reqs].
  { intros [= <- _]. split; [by apply framed_refl|]. by split. }
  intros ([[f1 o1] r] & E & E')%obind_Some.
  destruct (exec_framed p _ _ _ _ _ _ Hok Hp E) as [Hfr Hp1].
  destruct (IH f1 o1 f' o' (fr_ok _ _ _ Hfr) Hp1 E') as [Hfr' Ha].
  split; [by eapply framed_trans|]. eapply advances_trans; [by eapply exec_advances|done].
Qed.

(** ** The invariant of the system *)

Definition settled (fl : Z) (q : qclient) : Prop :=
  forall o, flags o = fl -> plain o /\ (closing (set_io q o) \/ pstate q).

Record sys_inv (J : server D DB -> Prop) (S : system D DB) : Prop := {
  si_inv : J (srv S);
  si_commands : commands_ok (sys_commands S) (sys_tbl S);
  si_rand : Rand.limbs_ok (w_rand (sys_world S));
  si_dom : forall p, is_Some (inputs S !! p) <-> live (srv S) p;
  si_parsers : forall p q fc fl,
    inputs S !! p = Some (q, fc) -> flagmap (srv S) !! p = Some fl -> settled fl q
}.

(** The invariant but for the parser of [p]. *)
Record sys_inv_but (J : server D DB -> Prop) (p : nat) (S : system D DB) : Prop := {
  sb_inv : J (srv S);
  sb_commands : commands_ok (sys_commands S) (sys_tbl S);
  sb_rand : Rand.limbs_ok (w_rand (sys_world S));
  sb_dom : forall p, is_Some (inputs S !! p) <-> live (srv S) p;
  sb_parsers : forall p' q fc fl, p' <> p ->
    inputs S !! p' = Some (q, fc) -> flagmap (srv S) !! p' = Some fl -> settled fl q
}.

Lemma sys_inv_weaken J p S : sys_inv J S -> sys_inv_but J p S.
Proof. intros [A B C E F]. constructor; [done..|]. intros p' q fc fl _. apply F. Qed.

Lemma live_flags s p : live s p <-> is_Some (flagmap s !! p).
Proof. unfold live, flagmap. by rewrite lookup_fmap, fmap_is_Some. Qed.

Section Handlers.
Context (J : server D DB -> Prop) `{!SessionInv J}.

Lemma drop_client_ok p (S : system D DB) :
  sys_inv_but J p S -> live (srv S) p -> exists S', drop_client ae S p = Some S' /\ sys_inv J S'.
Proof.
  intros [A B C E F] Hl. unfold drop_client.
  destruct (jv_free (srv S) p A Hl) as (s' & Es & Hi). rewrite Es. cbn [obind].
  apply freeClient_flags in Es. eexists. split; [done|].
  constructor; cbn [sys_commands sys_tbl sys_world set_inputs set_world w_rand set_srv inputs srv w_srv]; [done..| |].
  - intros q. rewrite live_flags. change (srv (set_inputs _ _)) with s'. rewrite Es.
    rewrite !lookup_delete_is_Some, E, live_flags. done.
  - intros p' q fc fl. change (srv (set_inputs _ _)) with s'. rewrite Es.
    intros [? Hq]%lookup_delete_Some [_ Hfl]%lookup_delete_Some. by eapply F.
Qed.

Lemma upd_out_flagmap s p o s' :
  upd s p (fun c => set_out c o) = Some s' -> flagmap s' = <[p := flags o]> (flagmap s).
Proof.
  unfold upd. destruct (objects s !! p); [|done]. intros [= <-]. unfold flagmap. cbn. by rewrite fmap_insert.
Qed.

Lemma send_loop_flags um ws : forall o tot, flags (send_loop um ws o tot).1.1 = flags o.
Proof.
  induction ws as [|w ws IH]; intros o tot; cbn [send_loop];
    (set (o1 := if bool_decide (buf o = []) then set_reply o _ else o);
     assert (flags o1 = flags o) as E by (unfold o1; by destruct (bool_decide (buf o = [])));
     clearbody o1; destruct (_ && _); [done|]); [done|].
  destruct w as [n| |]; [|done..]. destruct (_ <=? _); [done|].
  destruct (advance _ _ _) as [sent fin].
  set (o2 := set_sentlen _ sent).
  assert (flags o2 = flags o1) as E2 by (unfold o2; destruct fin; [destruct (bool_decide _)|]; done).
  clearbody o2. destruct (_ && _); [cbn; congruence|]. specialize (IH o2 (tot + Z.min n (zlen (if bool_decide (buf o1 = []) then hd [] (reply o1) else buf o1) - sentlen o1))).
  destruct (send_loop um ws o2 _) as [[o3 out] err]. cbn in *. congruence.
Qed.

Lemma sendReplyToClient_flags um ws o : flags (sendReplyToClient um ws o).1.1 = flags o.
Proof.
  unfold sendReplyToClient. pose proof (send_loop_flags um ws o 0) as H.
  destruct (send_loop um ws o 0) as [[o1 out] err]. cbn in H. destruct err; [done|]. by destruct (_ && _).
Qed.

(** Another server state with the same flags. *)
Lemma set_srv_ok (S : system D DB) s' :
  sys_inv J S -> J s' -> flagmap s' = flagmap (srv S) -> sys_inv J (set_world S (set_srv (sys_world S) s')).
Proof.
  intros [A B C E F] Hi Hf. constructor; cbn [sys_commands sys_tbl sys_world set_world w_rand set_srv inputs]; [done..| |].
  - intros q. change (srv (set_world S _)) with s'. by rewrite live_flags, Hf, <- live_flags.
  - intros p' q fc fl. change (srv (set_world S _)) with s'. rewrite Hf. apply F.
Qed.

Lemma write_handler_ok p (S : system D DB) um ws :
  sys_inv J S -> live (srv S) p -> exists S', write_handler ae S p um ws = Some S' /\ sys_inv J S'.
Proof.
  intros HS Hl. unfold write_handler. pose proof Hl as [c Hc]. rewrite Hc. cbn [obind].
  pose proof (sendReplyToClient_flags um ws (out c)) as Hfl.
  destruct (sendReplyToClient um ws (out c)) as [[o wire] fin]. cbn in Hfl.
  destruct (upd_ok (srv S) p (fun c => set_out c o)) as (s1 & E1 & Hq); [done|done|]. rewrite E1. cbn [obind].
  assert (flagmap s1 = flagmap (srv S)) as Ef.
  { rewrite (upd_out_flagmap _ _ _ _ E1), Hfl. apply insert_id. by apply flagmap_lookup. }
  pose proof (set_srv_ok S s1 HS (jv_quiet _ _ Hq (si_inv _ _ HS)) Ef) as HS1.
  destruct fin; [by eexists|by eexists|]. apply drop_client_ok; [by apply sys_inv_weaken|].
  by apply (quiet_live _ _ p Hq).
Qed.

Lemma cron_handler_ok p (S : system D DB) :
  sys_inv J S -> live (srv S) p ->
  exists S' freed, cron_handler ae S p = Some (S', freed) /\ sys_inv J S' /\ (freed = 0 -> live (srv S') p).
Proof.
  intros HS Hl. unfold cron_handler, clientsCronHandleTimeout. pose proof Hl as [c Hc]. rewrite Hc. cbn [obind].
  assert (sys_inv J (set_world S (set_srv (sys_world S) (srv S)))) as H0
    by (apply set_srv_ok; [done|apply HS|done]).
  destruct (_ && _); [|by do 2 eexists]. destruct (streq _ _); [by do 2 eexists|].
  destruct (drop_client_ok p S (sys_inv_weaken J p S HS) Hl) as (S' & E & HS'). unfold drop_client in E.
  apply obind_Some in E as (s' & Es & [= <-]). rewrite Es. cbn [obind]. by do 2 eexists.
Qed.

(** Releasing the room behind a query buffer keeps its bytes. *)
Lemma sds_of_bytes l room : sds_bytes (sds_of l room) = l.
Proof. unfold sds_bytes, sds_of. cbn. rewrite Nat2Z.id. apply take_app_length. Qed.

Lemma resize_bytes junk now last peak l room :
  let '(b, peak') := clientsCronResizeQueryBuffer junk now last peak (sds_of l room) in
  sds_bytes b = l /\ peak' = 0.
Proof.
  unfold clientsCronResizeQueryBuffer. destruct (_ || _); [destruct (_ <? _)|]; split; try done; [|apply sds_of_bytes..].
  unfold sds_bytes, sdsRemoveFreeSpace, zrealloc, sds_of. cbn [slen sbuf].
  rewrite take_app_le, take_take, Nat.min_l by (rewrite ?length_take, ?length_app; cbn; lia).
  rewrite Nat2Z.id. apply take_app_length.
Qed.

Lemma resize_handler_eq p (S : system D DB) junk room q fc :
  live (srv S) p -> inputs S !! p = Some (q, fc) ->
  resize_handler S p junk room = Some (set_inputs S (<[p := (set_peak q 0, fc)]> (inputs S))).
Proof.
  intros [c Hc] Hq. unfold resize_handler. rewrite Hc. cbn [obind]. rewrite Hq. cbn [obind].
  pose proof (resize_bytes junk (unixtime (srv S)) (lastinteraction c) (querybuf_peak q) (querybuf q) room) as H.
  destruct (clientsCronResizeQueryBuffer _ _ _ _ _) as [b peak]. destruct H as [-> ->]. by destruct q.
Qed.

Lemma resize_handler_ok p (S : system D DB) junk room :
  sys_inv J S -> live (srv S) p -> exists S', resize_handler S p junk room = Some S' /\ sys_inv J S'.
Proof.
  intros [A B C E F] Hl. destruct (proj2 (E p) Hl) as [[q fc] Hq].
  eexists. split; [by apply resize_handler_eq|].
  constructor; [done..| |].
  - intros p'. cbn [inputs set_inputs]. rewrite lookup_insert_is_Some'. change (srv (set_inputs S _)) with (srv S).
    rewrite <- E. split; [intros [->|]|]; [by rewrite Hq|done|by right].
  - intros p' q' fc' fl. cbn [inputs set_inputs]. change (srv (set_inputs S _)) with (srv S).
    destruct (decide (p = p')) as [<-|Hne]; [|rewrite lookup_insert_ne by done; apply F].
    rewrite lookup_insert_eq. intros [= <- <-] Hfl. exact (F p q fc fl Hq Hfl).
Qed.

Lemma rotated_ok (S : system D DB) :
  sys_inv J S -> sys_inv J (set_world S (set_srv (sys_world S) (set_clients (srv S) (rotate (clients (srv S)))))).
Proof.
  intros HS. apply set_srv_ok; [done| |done]. apply (jv_quiet (srv S)); [|apply HS].
  constructor; [apply rotate_perm|done|done].
Qed.

Lemma cron_loop_ok n junk room : forall S : system D DB,
  sys_inv J S -> exists S', cron_loop ae n S junk room = Some S' /\ sys_inv J S'.
Proof.
  induction n as [|n IH]; intros S HS; cbn [cron_loop]; [by eexists|].
  destruct (clients (srv S)) as [|x l] eqn:El; [by eexists|]. rewrite <- El.
  pose proof (rotated_ok S HS) as HS1. set (S1 := set_world S _) in *.
  cbn [clients set_clients]. destruct (rotate (clients (srv S))) as [|p l'] eqn:Er.
  { pose proof (rotate_perm (clients (srv S))) as H. rewrite Er, El in H. by apply Permutation_nil_cons in H. }
  cbn [head obind].
  assert (live (srv S1) p) as Hl.
  { apply (sinv_clients _ (jv_sinv _ (si_inv _ _ HS1))). change (clients (srv S1)) with (p :: l'). left. }
  destruct (cron_handler_ok p S1 HS1 Hl) as (S2 & freed & -> & HS2 & Hl2). cbn [obind].
  destruct (Z.eqb_spec freed 0) as [->|]; cbn [negb].
  - destruct (resize_handler_ok p S2 junk (room p) HS2 (Hl2 eq_refl)) as (S3 & -> & HS3). cbn [obind]. by apply IH.
  - cbn [obind]. by apply IH.
Qed.

Lemma update_time_ok now (S : system D DB) : sys_inv J S -> sys_inv J (update_time S now).
Proof.
  intros HS. apply set_srv_ok; [done| |done]. apply (jv_quiet (srv S)); [|apply HS]. by constructor.
Qed.

Lemma serverCron_ok now hz junk room (S : system D DB) :
  sys_inv J S -> hz <> 0 -> exists S', serverCron ae S now hz junk room = Some (S', Z.quot 1000 hz) /\ sys_inv J S'.
Proof.
  intros HS Hhz. unfold serverCron, clientsCron. rewrite (proj2 (Z.eqb_neq hz 0)) by done.
  match goal with |- context [cron_loop _ ?n ?S1 _ _] =>
    destruct (cron_loop_ok n junk room S1 (update_time_ok now S HS)) as (S' & -> & HS') end.
  by eexists.
Qed.

Lemma accept_ok p fd junk (S : system D DB) :
  sys_inv J S -> ~ live (srv S) p -> exists S', acceptCommonHandler ae ae_read S p fd junk = Some S' /\ sys_inv J S'.
Proof.
  intros HS Hl. unfold acceptCommonHandler. destruct (negb _); [by eexists|].
  set (s1 := createClient (srv S) p fd junk).
  pose proof (jv_create (srv S) p fd junk (si_inv _ _ HS) Hl) as Hi. fold s1 in Hi.
  assert (flagmap s1 = <[p := 0]> (flagmap (srv S))) as Ef by (unfold flagmap, s1; cbn; by rewrite fmap_insert).
  set (S1 := set_inputs _ _). assert (sys_inv J S1) as HS1.
  { destruct HS as [A B C E F].
    constructor; cbn [sys_commands sys_tbl sys_world S1 set_inputs set_world w_rand set_srv inputs]; [done..| |].
    - intros q. rewrite live_flags. change (srv S1) with s1. rewrite Ef, !lookup_insert_is_Some', E, live_flags. done.
    - intros p' q fc fl. change (srv S1) with s1. rewrite Ef. destruct (decide (p = p')) as [<-|Hne].
      + rewrite !lookup_insert_eq. intros [= <- _] [= <-] o Ho. unfold plain, has_flag. rewrite Ho.
        split; [done|]. right. left. cbn. auto.
      + rewrite !lookup_insert_ne by done. apply F. }
  destruct (_ <? _); [|by eexists]. apply drop_client_ok; [by apply sys_inv_weaken|].
  rewrite live_flags. change (srv S1) with s1. rewrite Ef, lookup_insert_eq. eauto.
Qed.

(** ** Reading *)

Definition front_of (S : system D DB) (fc : fclient) : front D (cworld D DB) :=
  Front (sys_cfg S) (sys_commands S) (sys_tbl S) fc (sys_stat S) (sys_trace S) (sys_world S).

(** The system after the requests of a read. *)
Definition back (S : system D DB) (f : front D (cworld D DB)) : system D DB :=
  System (cfg f) (maxclients S) (maxidletime S) (commands f) (tbl f) (stat_numcommands f) (trace f)
    (world f) (inputs S) (loading S).

Lemma framed_flags p S fc f p' :
  framed p (front_of S fc) f -> p' <> p -> flagmap (w_srv (world f)) !! p' = flagmap (srv S) !! p'.
Proof.
  intros [_ Hd _] Hne. rewrite <- (lookup_delete_ne _ p p') by done. rewrite Hd. by rewrite lookup_delete_ne.
Qed.

(** Put the client back after a read. *)
Lemma put_back_ok p (S : system D DB) fc f q :
  sys_inv J S -> framed p (front_of S fc) f -> world_ok J p (world f) ->
  plain (io q) -> closing q \/ pstate q ->
  exists s', upd (w_srv (world f)) p (fun c => set_out c (io q)) = Some s' /\
    sys_inv J (set_inputs (set_world (back S f) (set_srv (world f) s')) (<[p := (q, cl f)]> (inputs S))).
Proof.
  intros [A B C E F] Hf [Hi Hl Hx] Hp Hs.
  destruct (upd_ok (w_srv (world f)) p (fun c => set_out c (io q))) as (s' & E1 & Hq); [done|done|].
  exists s'. split; [done|]. apply upd_out_flagmap in E1.
  assert (forall p', p' <> p -> flagmap s' !! p' = flagmap (srv S) !! p') as Ho.
  { intros p' Hne. rewrite E1, lookup_insert_ne by done. by apply (framed_flags p S fc). }
  constructor; cbn [sys_commands sys_tbl sys_world w_rand set_srv inputs set_inputs set_world back].
  - by apply (jv_quiet _ _ Hq).
  - exact (fr_ok _ _ _ Hf).
  - done.
  - intros p'. rewrite live_flags. change (srv (set_inputs _ _)) with s'.
    rewrite lookup_insert_is_Some'. destruct (decide (p = p')) as [<-|Hne].
    + rewrite E1, lookup_insert_eq. split; eauto.
    + rewrite Ho by done. rewrite E, live_flags. tauto.
  - intros p' q' fc' fl. change (srv (set_inputs _ _)) with s'.
    destruct (decide (p = p')) as [<-|Hne].
    + rewrite E1, !lookup_insert_eq. intros [= <- _] [= <-] o Ho'. split; [by apply (plain_flags (io q))|].
      destruct Hs as [Hs|Hs]; [left|by right]. unfold closing in *. cbn [set_io io]. by rewrite (has_flag_eq _ _ _ Ho').
    + rewrite lookup_insert_ne, Ho by done. apply F.
Qed.

(** Release the client after a read. *)
Lemma drop_back_ok p (S : system D DB) fc f :
  sys_inv J S -> live (srv S) p -> framed p (front_of S fc) f -> world_ok J p (world f) ->
  exists S', drop_client ae (back S f) p = Some S' /\ sys_inv J S'.
Proof.
  intros [A B C E F] Hlp Hf [Hi Hl Hx]. apply drop_client_ok; [|done].
  pose proof (framed_flags p S fc f) as Ho.
  constructor; [done|exact (fr_ok _ _ _ Hf)|done| |]; change (srv (back S f)) with (w_srv (world f)).
  - intros p'. cbn [inputs back]. destruct (decide (p' = p)) as [->|Hne]; [by rewrite E|].
    rewrite E, !live_flags, Ho by done. done.
  - intros p' q' fc' fl Hne. rewrite Ho by done. apply F.
Qed.

(** What the requests in a read left behind decides how the handler ends. *)
Lemma read_data_ok p (S : system D DB) bs c q fc reqs od f' o' :
  sys_inv J S -> objects (srv S) !! p = Some c -> inputs S !! p = Some (q, fc) ->
  readQueryFromClient ae note (unixtime (srv S)) [] (set_io q (out c)) (Data bs) = Some (reqs, od) ->
  exec_reqs (exec p) (front_of S fc) (out c) reqs = Some (f', o') ->
  framed p (front_of S fc) f' -> world_ok J p (world f') ->
  exists S', read_handler same_bucket ae db_query db_exec frames S p (Data bs) = Some S' /\ sys_inv J S'.
Proof.
  intros HS Hc Hq En Eq Hf Hw. pose proof HS as [A B C E F]. unfold read_handler.
  rewrite Hc. cbn [obind]. rewrite Hq. cbn [obind]. fold (front_of S fc).
  assert (live (srv S) p) as Hl by by exists c.
  destruct (F p q fc _ Hq (flagmap_lookup _ _ _ Hc) (out c) eq_refl) as [Hp Hs].
  assert (closing (set_io q (out c)) \/ pstate (set_io q (out c))) as Hs0 by (destruct Hs; auto).
  destruct (read_requests ae (exec p) front_ok (unixtime (srv S)) (exec_obeys p) (front_of S fc) []
              (set_io q (out c)) (set_io q (out c)) bs B (twin_refl _) Hs0 Hp)
    as (reqs' & od' & En' & _ & Hod & Hex & _).
  rewrite En in En'. injection En' as <- <-.
  destruct (Hex f' o' Eq) as (oc & -> & _ & Hm). cbn [obind]. fold (back S f').
  destruct oc as [q'|], od as [d'|]; try done; [|by eapply drop_back_ok].
  destruct Hm as [Ht _]. destruct (Hod d' eq_refl) as [Hsd Hpd].
  destruct (put_back_ok p S fc f' q') as (s' & Es & HS'); [done..|by apply (twin_plain d')|by apply (twin_settled d')|].
  change (srv (back S f')) with (w_srv (world f')). rewrite Es. cbn [obind]. by eexists.
Qed.

Lemma read_nothing_ok p (S : system D DB) r :
  sys_inv J S -> live (srv S) p -> (forall bs, r <> Data bs) ->
  exists S', read_handler same_bucket ae db_query db_exec frames S p r = Some S' /\ sys_inv J S'.
Proof.
  intros HS Hl Hr. pose proof HS as [A B C E F]. unfold read_handler.
  pose proof Hl as [c Hc]. rewrite Hc. cbn [obind].
  destruct (proj2 (E p) Hl) as [[q fc] Hq]. rewrite Hq. cbn [obind]. fold (front_of S fc).
  destruct (F p q fc _ Hq (flagmap_lookup _ _ _ Hc) (out c) eq_refl) as [Hp Hs].
  assert (framed p (front_of S fc) (front_of S fc)) as Hf by by apply framed_refl.
  assert (world_ok J p (world (front_of S fc))) as Hwo by by constructor.
  destruct r as [bs| | |]; [by destruct (Hr bs)| | |]; unfold readQueryFromClient; cbn [obind]; fold (back S (front_of S fc)).
  - by eapply drop_back_ok.
  - set (c0 := set_io q (out c)).
    set (q' := if querybuf_peak c0 <? zlen (querybuf c0) then set_peak c0 (zlen (querybuf c0)) else c0).
    destruct (put_back_ok p S fc (front_of S fc) q') as (s' & Es & HS'); [done..| | |].
    + unfold q'. by destruct (_ <? _).
    + unfold q'. by destruct (_ <? _).
    + change (srv (back S (front_of S fc))) with (w_srv (world (front_of S fc))). rewrite Es. cbn [obind]. by eexists.
  - by eapply drop_back_ok.
Qed.

End Handlers.

(** The requests in the bytes that were read. *)
Lemma read_requests_exist p (S : system D DB) bs c q fc :
  sys_inv sinv S -> objects (srv S) !! p = Some c -> inputs S !! p = Some (q, fc) ->
  exists reqs od, readQueryFromClient ae note (unixtime (srv S)) [] (set_io q (out c)) (Data bs) = Some (reqs, od) /\
    Forall (fun a => a <> []) reqs /\ plain (out c) /\
    (exec_reqs (exec p) (front_of S fc) (out c) reqs = None ->
     read_handler same_bucket ae db_query db_exec frames S p (Data bs) = None).
Proof.
  intros [A B C E F] Hc Hq.
  destruct (F p q fc _ Hq (flagmap_lookup _ _ _ Hc) (out c) eq_refl) as [Hp Hs].
  assert (closing (set_io q (out c)) \/ pstate (set_io q (out c))) as Hs0 by (destruct Hs; auto).
  destruct (read_requests ae (exec p) front_ok (unixtime (srv S)) (exec_obeys p) (front_of S fc) []
              (set_io q (out c)) (set_io q (out c)) bs B (twin_refl _) Hs0 Hp)
    as (reqs & od & En & Hne & _ & _ & Hno).
  exists reqs, od. split; [done|]. split; [done|]. split; [done|]. intros H%Hno.
  unfold read_handler. rewrite Hc. cbn [obind]. rewrite Hq. cbn [obind]. fold (front_of S fc). by rewrite H.
Qed.

Lemma sys_inv_sinv J `{!SessionInv J} S : sys_inv J S -> sys_inv sinv S.
Proof. intros [A B C E F]. constructor; [by apply jv_sinv|done..]. Qed.

(** ** Events that meet their conditions *)

(** What the theorem below asks of an event: a new connection has a fresh
    address, handlers run for connected clients, the requests in the bytes
    that were read are fine, and the account that is loaded has short names
    and room. *)
Definition net_ok (S : system D DB) (e : net_event) : Prop :=
  match e with
  | Load => forall row rows, loading S = Some (row :: rows) ->
      row_ok db_query (db (srv S)) row /\ room (srv S)
  | Accept p _ _ => ~ live (srv S) p
  | Readable p r => live (srv S) p /\
      forall bs q fc c reqs od, r = Data bs -> inputs S !! p = Some (q, fc) -> objects (srv S) !! p = Some c ->
        readQueryFromClient ae note (unixtime (srv S)) [] (set_io q (out c)) (Data bs) = Some (reqs, od) ->
        fine p (front_of S fc) (out c) reqs
  | Writable p _ _ => live (srv S) p
  | Timer _ hz _ _ => hz <> 0
  end.

Lemma read_handler_ok p (S : system D DB) r :
  sys_inv inv S -> net_ok S (Readable p r) ->
  exists S', read_handler same_bucket ae db_query db_exec frames S p r = Some S' /\ sys_inv inv S'.
Proof.
  intros HS [Hl Hreq]. destruct r as [bs| | |]; try by apply (read_nothing_ok inv).
  pose proof Hl as [c Hc]. destruct (proj2 (si_dom _ _ HS p) Hl) as [[q fc] Hq].
  destruct (read_requests_exist p S bs c q fc) as (reqs & od & En & Hne & Hp & _);
    [by apply (sys_inv_sinv inv)|done|done|].
  destruct (exec_reqs_ok p reqs (front_of S fc) (out c)) as (f' & o' & Eq & Hf & Hw);
    [apply (si_commands _ _ HS)|by constructor; [apply HS|by exists c|apply HS]|done|done|by eapply Hreq|].
  by apply (read_data_ok inv p S bs c q fc reqs od f' o').
Qed.

(** Another table of users. *)
Lemma set_loading_ok J (S : system D DB) l : sys_inv J S -> sys_inv J (set_loading S l).
Proof. intros [A B C E F]. by constructor. Qed.

Lemma set_users_ok J `{!SessionInv J} (S : system D DB) u :
  sys_inv J S -> J (set_users (srv S) u) ->
  sys_inv J (set_world S (set_srv (sys_world S) (set_users (srv S) u))).
Proof. intros HS HJ. by apply set_srv_ok. Qed.

Lemma loader_ok (S : system D DB) :
  sys_inv inv S -> net_ok S Load -> exists S', loader_step db_query S = Some S' /\ sys_inv inv S'.
Proof.
  intros HS Hl. unfold loader_step. destruct (loading S) as [[|row rows]|] eqn:El.
  - by eexists.
  - destruct (Hl row rows El) as [Hrow Hroom]. pose proof (inv_users _ (si_inv _ _ HS)) as Hu.
    destruct (load_users_ok db_query [row] (db (srv S)) (users (srv S)) Hu) as (u & -> & Hu' & Hg).
    { by repeat constructor. }
    { unfold room in Hroom. cbn. lia. }
    cbn [obind]. eexists. split; [done|]. apply set_loading_ok, set_users_ok; [apply _|done|].
    apply add_user_inv; [apply HS|done|done].
  - eexists. split; [done|]. by apply set_loading_ok.
Qed.

Abbreviation step := (net_step same_bucket ae ae_read db_query db_exec frames).

Lemma net_step_ok (S : system D DB) e :
  sys_inv inv S -> net_ok S e -> exists S', step S e = Some S' /\ sys_inv inv S'.
Proof.
  intros HS He. destruct e as [|p fd junk|p r|p um ws|now hz junk room]; cbn [net_step].
  - by apply loader_ok.
  - by apply (accept_ok inv).
  - by apply read_handler_ok.
  - by apply (write_handler_ok inv).
  - destruct (serverCron_ok inv now hz junk room S HS He) as (S' & -> & HS'). by eexists.
Qed.

Lemma start_ok g maxcl maxidle d now S :
  start g maxcl maxidle d now = Some S -> sys_inv inv S.
Proof.
  unfold start. destruct populate_ok as (cd & od & -> & Hc). cbn [obind]. intros [= <-].
  constructor; cbn [sys_commands sys_tbl sys_world w_rand inputs]; [apply init_inv|done| | |].
  - repeat split; cbn; lia.
  - intros p. unfold live. cbn. rewrite !lookup_empty. split; by intros [? ?].
  - intros p q fc fl. by rewrite lookup_empty.
Qed.

(** States that events with these conditions bring the server to. *)
Inductive net_reachable : system D DB -> Prop :=
  | net_start g maxcl maxidle d now S : start g maxcl maxidle d now = Some S -> net_reachable S
  | net_next S e S' : net_reachable S -> net_ok S e -> step S e = Some S' -> net_reachable S'.

Lemma net_reachable_inv S : net_reachable S -> sys_inv inv S.
Proof.
  induction 1 as [g mc mi d now S Hs|S e S' _ IH He Hs]; [by eapply start_ok|].
  destruct (net_step_ok S e IH He) as (S'' & Hs'' & Hi). congruence.
Qed.

(** ** Runs of the server, whatever arrives *)

(** The environment promises only that a new connection has a fresh address;
    a run goes on as long as nothing faults and the accounts are not more
    than the dictionary can index. *)
Inductive net_run : system D DB -> Prop :=
  | run_start g maxcl maxidle d now S : start g maxcl maxidle d now = Some S -> net_run S
  | run_next S e S' :
      net_run S -> (forall p fd junk, e = Accept p fd junk -> ~ live (srv S) p) ->
      step S e = Some S' -> Z.of_nat (account_count (sys_world S')) <= MAX_ACCOUNTS -> net_run S'.

Lemma drop_client_accounts (S : system D DB) p S' :
  drop_client ae S p = Some S' -> account_count (sys_world S') = account_count (sys_world S).
Proof. unfold drop_client. intros (s & E & [= <-])%obind_Some. exact (freeClient_brk ae _ _ _ E). Qed.

Lemma F_requests p (S : system D DB) bs c q fc reqs od f' o' :
  sys_inv sinv S -> objects (srv S) !! p = Some c -> inputs S !! p = Some (q, fc) ->
  readQueryFromClient ae note (unixtime (srv S)) [] (set_io q (out c)) (Data bs) = Some (reqs, od) ->
  exec_reqs (exec p) (front_of S fc) (out c) reqs = Some (f', o') ->
  exists oc, readQueryFromClient ae (exec p) (unixtime (srv S)) (front_of S fc) (set_io q (out c)) (Data bs) = Some (f', oc).
Proof.
  intros [A B C E F] Hc Hq En Eq.
  destruct (F p q fc _ Hq (flagmap_lookup _ _ _ Hc) (out c) eq_refl) as [Hp Hs].
  assert (closing (set_io q (out c)) \/ pstate (set_io q (out c))) as Hs0 by (destruct Hs; auto).
  destruct (read_requests ae (exec p) front_ok (unixtime (srv S)) (exec_obeys p) (front_of S fc) []
              (set_io q (out c)) (set_io q (out c)) bs B (twin_refl _) Hs0 Hp)
    as (reqs' & od' & En' & _ & _ & Hex & _).
  rewrite En in En'. injection En' as <- <-. destruct (Hex f' o' Eq) as (oc & Eoc & _). eauto.
Qed.

(** A read that returns. *)
Lemma read_handler_goes p (S : system D DB) r S' :
  sys_inv sinv S -> read_handler same_bucket ae db_query db_exec frames S p r = Some S' ->
  Z.of_nat (account_count (sys_world S')) <= MAX_ACCOUNTS -> sys_inv sinv S'.
Proof.
  intros HS Er Hm. pose proof Er as E. unfold read_handler in E.
  apply obind_Some in E as (c & Hc & E). apply obind_Some in E as ([q fc] & Hq & E). fold (front_of S fc) in E.
  assert (live (srv S) p) as Hl by by exists c.
  assert ((exists bs, r = Data bs) \/ forall bs, r <> Data bs) as [[bs ->]|Hr] by (destruct r; eauto).
  2:{ destruct (read_nothing_ok sinv p S r HS Hl Hr) as (S2 & E2 & HS2). congruence. }
  destruct (read_requests_exist p S bs c q fc HS Hc Hq) as (reqs & od & En & Hne & Hp & Hno).
  destruct (exec_reqs (exec p) (front_of S fc) (out c) reqs) as [[f' o']|] eqn:Eq; [|rewrite Hno in Er by done; done].
  destruct (exec_reqs_advances p reqs _ _ _ _ (si_commands _ _ HS : front_ok (front_of S fc)) Hp Eq) as [Hf [_ Hadv]].
  assert (account_count (world f') = account_count (sys_world S')) as Ea.
  { destruct (F_requests p S bs c q fc reqs od f' o' HS Hc Hq En Eq) as [oc Eoc]. rewrite Eoc in E. cbn [obind] in E.
    fold (back S f') in E. destruct oc as [q'|]; [|symmetry; by apply drop_client_accounts in E].
    apply obind_Some in E as (s' & Es & [= <-]). cbn. unfold upd in Es.
    change (srv (back S f')) with (w_srv (world f')) in Es.
    destruct (objects (w_srv (world f')) !! p); [by injection Es as <-|done]. }
  rewrite <- Ea in Hm.
  assert (world_ok sinv p (world f')) as Hw by (apply Hadv; [done|]; constructor; [apply HS|done|apply HS]).
  destruct (read_data_ok sinv p S bs c q fc reqs od f' o') as (S2 & E2 & HS2); [done..|]. congruence.
Qed.

Lemma net_run_step (S : system D DB) e S' :
  sys_inv sinv S -> (forall p fd junk, e = Accept p fd junk -> ~ live (srv S) p) ->
  step S e = Some S' -> Z.of_nat (account_count (sys_world S')) <= MAX_ACCOUNTS -> sys_inv sinv S'.
Proof.
  intros HS Hf Hs Hm. destruct e as [|p fd junk|p r|p um ws|now hz junk room]; cbn [net_step] in Hs.
  - revert Hs. unfold loader_step. destruct (loading S) as [[|row rows]|].
    + by intros [= <-].
    + intros (u & E & [= <-])%obind_Some. apply set_loading_ok, set_users_ok; [apply _|done|].
      apply (load_users_goes db_query) in E as [_ Hg]. apply Hg; [exact Hm|apply HS].
    + intros [= <-]. by apply set_loading_ok.
  - destruct (accept_ok sinv p fd junk S HS (Hf p fd junk eq_refl)) as (S2 & E2 & HS2). congruence.
  - by eapply read_handler_goes.
  - destruct (objects (srv S) !! p) as [c|] eqn:Hc; [|unfold write_handler in Hs; by rewrite Hc in Hs].
    destruct (write_handler_ok sinv p S um ws HS) as (S2 & E2 & HS2); [by exists c|]. congruence.
  - apply obind_Some in Hs as ([S2 ms] & E & [= <-]).
    destruct (decide (hz = 0)) as [->|Hz]; [done|].
    destruct (serverCron_ok sinv now hz junk room S HS Hz) as (S3 & E3 & HS3). congruence.
Qed.

Lemma net_run_inv S : net_run S -> sys_inv sinv S.
Proof.
  induction 1 as [g mc mi d now S Hs|S e S' _ IH Hf Hs Hm].
  - apply (sys_inv_sinv inv). by eapply start_ok.
  - by eapply net_run_step.
Qed.

(** The thread, left alone, loads what [do_mysql_dump_redis] does in one go. *)
Fixpoint loader_run (n : nat) (S : system D DB) : option (system D DB) :=
  match n with O => Some S | S n => let? S := loader_step db_query S in loader_run n S end.

Lemma loader_rows rows : forall S : system D DB,
  loading S = Some rows ->
  loader_run (length rows) S =
  let? u := load_users db_query rows (db (srv S)) (users (srv S)) in
  Some (set_loading (set_world S (set_srv (sys_world S) (set_users (srv S) u))) (Some [])).
Proof.
  induction rows as [|row rows IH]; intros S El; cbn [loader_run length].
  { cbn [load_users obind]. destruct S as [a b c d e f g w i l]. cbn in El. subst l.
    destruct w as [x [k o u dd t] n]. done. }
  unfold loader_step. rewrite El. cbn [load_users].
  destruct (row !! 0%nat) as [uid|]; [|done]. cbn [obind]. destruct (row !! 1%nat) as [name|]; [|done]. cbn [obind].
  destruct (insertUserInfo _ uid name) as [u1|]; [|done]. cbn [obind].
  destruct (insert_all_node db_query _ u1 uid name) as [u2|]; [|done]. cbn [obind].
  rewrite IH by done. done.
Qed.

Theorem loader_alone (S : system D DB) rows :
  loading S = None -> db_query (db (srv S)) user_query = Some rows ->
  loader_run (Datatypes.S (length rows)) S =
  let? s := do_mysql_dump_redis db_query (srv S) in
  Some (set_loading (set_world S (set_srv (sys_world S) s)) (Some [])).
Proof.
  intros El Eq. cbn [loader_run]. unfold loader_step. rewrite El. cbn [obind]. rewrite Eq.
  unfold do_mysql_dump_redis. rewrite Eq. etrans; [by apply (loader_rows rows)|].
  change (srv (set_loading S _)) with (srv S).
  by destruct (load_users db_query rows (db (srv S)) (users (srv S))).
Qed.


(** C1: sessions stay consistent on the wire.  In every state the server can
    reach, whatever bytes the clients send and however they are cut, whatever
    the database answers, and however connections, reads, writes, turns of
    the timer and steps of the thread that loads the accounts follow one
    another, an account is marked [on] exactly when some connected client is
    logged in as that user, no account has two such clients, every connected
    client has its parser and no other, and the command table is intact.  A
    run ends where the code faults, a null pointer given to [sprintf]
    included ([Demo.early_login_faults]), and with more than 2^29 accounts. *)
Theorem network_sessions_consistent S :
  net_run S ->
  consistent (srv S) /\ (forall p, p ∈ clients (srv S) <-> is_Some (inputs S !! p)) /\
  commands_ok (sys_commands S) (sys_tbl S).
Proof.
  intros [A B C E F]%net_run_inv. split; [by apply inv_consistent|]. split; [|done].
  intros p. rewrite E. apply (sinv_clients _ A).
Qed.

End System.

(** ** A login over the wire *)
Module Demo.
Import Scenario DictRefinement DictImpl.

#[local] Instance ud : UserDict (dict cstring nat) nat := dict_userdict 5381 true.
#[local] Instance ud_spec : UserDictSpec (dict cstring nat) nat := dict_userdict_spec 5381 true.

(** The bucket of a name and of its part before the NUL. *)
Definition bucket (d : dict cstring nat) (name : list Z) : Z :=
  casehash_loop name (u32 5381) &. sizemask (ht0 d).
Definition same_bucket (d : dict cstring nat) (name : list Z) : bool := bucket d name =? bucket d (cstr name).

Definition frames (n : nat) : stackframe := Frame 0 0 Md5Proofs.stack.

Definition defaults : config :=
  Config false 0 0 true 3 0 0 [] false 0 10 0 true 0 true false false 0.

Abbreviation wired := (system (dict cstring nat) unit).
Abbreviation stepd := (net_step same_bucket ae ae query exec frames).

Abbreviation reached := (net_reachable same_bucket ae ae query exec frames).
Abbreviation runs_to := (net_run same_bucket ae ae query exec frames).

Definition T0 : wired :=
  default (System defaults 0 0 ud_create [] 0 [] (CWorld Rand.initial (init_server tt 0) 0) ∅ None)
    (start defaults 10000 0 tt 0).

Lemma T0_eq : start defaults 10000 0 tt 0 = Some T0.
Proof. vm_compute. reflexivity. Qed.

(** A series of events, each checked: addresses of new connections are fresh,
    and there are not too many accounts. *)
Definition freshb (T : wired) (e : net_event) : bool :=
  match e with Accept p _ _ => bool_decide (objects (srv T) !! p = None) | _ => true end.

Fixpoint play (es : list net_event) (T : wired) : option wired :=
  match es with
  | [] => Some T
  | e :: es =>
      if freshb T e then
        let? T := stepd T e in
        if Z.of_nat (account_count (sys_world T)) <=? MAX_ACCOUNTS then play es T else None
      else None
  end.

Lemma freshb_ok T e p fd junk : freshb T e = true -> e = Accept p fd junk -> ~ live (srv T) p.
Proof. intros H ->. cbn in H. apply bool_decide_eq_true in H. intros [c Hc]. congruence. Qed.

Lemma play_runs es : forall T T', runs_to T -> play es T = Some T' -> runs_to T'.
Proof.
  induction es as [|e es IH]; intros T T' Hr; cbn [play]; [by intros [= <-]|].
  destruct (freshb T e) eqn:Ef; [|done]. intros (T1 & E1 & E)%obind_Some.
  destruct (Z.leb_spec (Z.of_nat (account_count (sys_world T1))) MAX_ACCOUNTS); [|done].
  apply (IH T1 T'); [|done]. apply (run_next _ _ _ _ _ _ T e T1 Hr); [|done|done].
  intros p fd junk. by apply freshb_ok.
Qed.

(** The same for connections and for the loading of the two accounts. *)
Definition arrivalb (T : wired) (e : net_event) : bool :=
  match e with
  | Accept p _ _ => bool_decide (objects (srv T) !! p = None)
  | Load => match loading T with
            | Some (row :: _) => bool_decide (row ∈ accounts) &&
                (Z.of_nat (base.size (ud_map (myuserdict (users (srv T))))) <? 2 ^ 29)
            | _ => true
            end
  | _ => false
  end.

Lemma arrivalb_ok T e : arrivalb T e = true -> net_ok same_bucket ae query exec frames T e.
Proof.
  destruct e as [|p fd junk| | |]; cbn [arrivalb net_ok]; try done.
  - intros H row rows E. rewrite E in H. apply andb_true_iff in H as [Hr%bool_decide_eq_true Hm%Z.ltb_lt].
    split; [|done]. destruct (db (srv T)). destruct (query_ok accounts) as [_ Hall]; [done|].
    rewrite Forall_forall in Hall. by apply Hall.
  - intros H%bool_decide_eq_true [c Hc]. congruence.
Qed.

Fixpoint arrivals (es : list net_event) (T : wired) : option wired :=
  match es with
  | [] => Some T
  | e :: es => if arrivalb T e then let? T := stepd T e in arrivals es T else None
  end.

Lemma arrivals_reached es : forall T T', reached T -> arrivals es T = Some T' -> reached T'.
Proof.
  induction es as [|e es IH]; intros T T' Hr; cbn [arrivals]; [by intros [= <-]|].
  destruct (arrivalb T e) eqn:Ea; [|done]. intros (T1 & E1 & E)%obind_Some.
  apply (IH T1 T'); [|done]. exact (net_next _ _ _ _ _ _ T e T1 Hr (arrivalb_ok T e Ea) E1).
Qed.

(** A client connects while the accounts are being loaded. *)
Definition opening : list net_event := [Load; Accept 1%nat 5 0; Load; Load].
Definition T1 : wired := default T0 (arrivals opening T0).

(** An inline login, in capitals. *)
Definition login_line : list Z := str "CHAT login alice pw1" ++ CRLF.
Definition login : net_event := Readable 1%nat (Data login_line).

Lemma T1_reachable : reached T1.
Proof.
  apply (arrivals_reached opening T0); [exact (net_start _ _ _ _ _ _ _ _ _ _ _ _ T0_eq)|].
  vm_compute. reflexivity.
Qed.

Lemma T1_live : live (srv T1) 1%nat.
Proof. apply (bool_decide_eq_true_1 (is_Some (objects (srv T1) !! 1%nat))). vm_compute. reflexivity. Qed.

(** The request in the line. *)
Lemma login_request :
  match inputs T1 !! 1%nat, objects (srv T1) !! 1%nat with
  | Some (q, _), Some c =>
      fst <$> readQueryFromClient ae note (unixtime (srv T1)) [] (set_io q (out c)) (Data login_line)
      = Some [[str "CHAT"; str "login"; str "alice"; str "pw1"]]
  | _, _ => False
  end.
Proof. vm_compute. reflexivity. Qed.

Lemma login_loaded : bool_decide (is_Some (lookup_user (users (srv T1)) (str "alice"))) = true.
Proof. vm_compute. reflexivity. Qed.
Lemma login_room : (Z.of_nat (base.size (ud_map (myuserdict (users (srv T1))))) <? 2 ^ 29) = true.
Proof. vm_compute. reflexivity. Qed.

Lemma login_ok : net_ok same_bucket ae query exec frames T1 login.
Proof.
  split; [exact T1_live|]. intros bs q fc c reqs od Er Hq Hc E.
  assert (bs = login_line) as -> by congruence. clear Er.
  pose proof login_request as H. rewrite Hq, Hc, E in H. injection H as ->. cbn [fine]. split; [|done].
  intros name cmd [= <-] Hf Ha. change (world (front_of T1 fc)) with (sys_world T1). fold (srv T1).
  vm_compute in Hf. injection Hf as <-. cbn [proc]. split; [intros _|split; intros Hx; discriminate Hx].
  split; [reflexivity|]. intros sub Es. injection Es as <-.
  assert (argv_ok [str "CHAT"; str "login"; str "alice"; str "pw1"]) as Hargv
    by (apply argv_ok_dec; vm_compute; reflexivity).
  split; intros Hs; [|discriminate Hs]. split; [exact Hargv|].
  intros name pwd [= <-] _ _. exact (bool_decide_eq_true_1 _ login_loaded).
Qed.


(** The same, followed by a message of seventy-one bytes, which is refused, and
    a node's login with a long name. *)
Definition long_line : list Z := str "chat say all " ++ replicate 71 97 ++ CRLF.
Definition visit : list net_event :=
  opening ++ [login; Readable 1%nat (Data long_line); Accept 2%nat 6 0;
              Readable 2%nat (Data (str "node login id1 " ++ replicate 100 98 ++ CRLF))].
Definition T2 : wired := default T1 (play visit T0).

Lemma T2_runs : runs_to T2.
Proof.
  apply (play_runs visit T0); [exact (run_start _ _ _ _ _ _ _ _ _ _ _ _ T0_eq)|].
  vm_compute. reflexivity.
Qed.

Lemma network_sessions_consistent_witness :
  consistent (srv T2) /\ (forall p, p ∈ clients (srv T2) <-> is_Some (inputs T2 !! p)) /\
  commands_ok (sys_commands T2) (sys_tbl T2).
Proof. apply (network_sessions_consistent same_bucket ae ae query exec frames T2 T2_runs). Defined.

(** After the line has been read, alice is on line. *)
Example login_over_the_wire : u_line <$> lookup_user (users (srv T2)) (str "alice") = Some s_on.
Proof. vm_compute. reflexivity. Qed.

(** A login that comes before the thread has loaded the account: the id that
    is looked up for the reply is a null pointer, which [sprintf] is given.
    (A library that prints it as a word lets the login go on, and the account,
    when it is loaded, is marked off although its user is logged in.) *)
Example early_login_faults :
  play [Accept 1%nat 5 0; login] T0 = None /\ is_Some (play (opening ++ [login]) T0).
Proof. split; [vm_compute; reflexivity|]. apply (bool_decide_unpack _). vm_compute. exact I. Qed.

(** With a password set, nobody gets in: the table has no [auth] command. *)
Definition locked : config := Config true 0 0 true 3 0 0 [] false 0 10 0 true 0 true false false 0.
Definition L1 : option wired :=
  let? T := start locked 10000 0 tt 0 in
  let? T := stepd T (Accept 1%nat 5 0) in
  let? T := stepd T (Readable 1%nat (Data (str "auth secret" ++ CRLF))) in stepd T login.
Example password_locks_everyone_out :
  (let? T := L1 in let? c := objects (srv T) !! 1%nat in Some (buf (out c))) =
  Some (str "-ERR unknown command 'auth'" ++ CRLF ++ str "-NOAUTH Authentication required." ++ CRLF).
Proof. vm_compute. reflexivity. Qed.

End Demo.

End SystemProofs.
