(* ===== verification/ConfigRun.v ===== *)
(** * The configuration on the real tables

    The dictionary of [dict.c] as the command table of the loader; the
    strings of [sds.c] as the lines it reads; amounts of memory; and runs of
    the loader on concrete files. *)

From S2P Require Import Prelude Dict DictSpec UserTable Sds Util Libc SdsBuf SdsBufSpec OutObj Command Config.
From S2P Require Import ConfigSpec CommandSpec.
From stdpp Require Import list.

Module ConfigRun.
Import HashTable DictRefinement Users DictImpl Sds Util Libc Config ConfigSpec SdsBufProofs.
#[local] Open Scope Z_scope.

(** ** Deletion in the dictionary of dict.c *)

Section Impl.
Context (seed : Z) (can_resize : bool).

#[export] Instance dict_delete : DictDelete (dict cstring nat) :=
  dictDelete (commandTableDictType (V := nat) seed).

Lemma dictDelete_iterators (d : dict cstring nat) k d' st :
  dictDelete (commandTableDictType (V := nat) seed) d k = Some (d', st) -> iterators d' = iterators d.
Proof.
  unfold dictDelete, dictGenericDelete. destruct (_ =? 0); [by intros [= <- _]|]. intros Hd.
  apply obind_Some in Hd as (d1 & <-%rehash_if_needed_iterators & Hd).
  apply obind_Some in Hd as ([x [r|]] & _ & Hd); [|by simplify_eq].
  apply obind_Some in Hd as (d2 & Hu & Hd). injection Hd as <- _. unfold unlink in Hu.
  apply obind_Some in Hu as (ch & _ & Hu). apply obind_Some in Hu as (tb & _ & Hu).
  simplify_eq. apply set_ht_iterators.
Qed.

Lemma impl_delete d k :
  impl_wf seed d ->
  exists d', dict_delete d k =
      Some (d', match impl_map d !! canon_case k with Some _ => DICT_OK | None => DICT_ERR end) /\
    impl_wf seed d' /\ impl_map d' = delete (canon_case k) (impl_map d).
Proof.
  intros [Hwf Hv Hi].
  destruct (dictDelete_spec (commandTableDictType (V := nat) seed) canon_case d k Hwf) as (d' & Hd & Hwf' & Hm).
  exists d'. unfold dict_delete. rewrite Hd, impl_map_lookup. split; [|split].
  - destruct (dict_map canon_case d !! canon_case k) as [o|] eqn:E; [|done].
    by destruct (Hv _ _ E) as [x ->].
  - constructor; [done| |].
    + intros k' o. rewrite Hm. intros [_ Ho]%lookup_delete_Some. by apply (Hv k').
    + by rewrite (dictDelete_iterators _ _ _ _ Hd).
  - unfold impl_map. rewrite Hm. apply omap_delete.
Qed.

Lemma impl_add_exists d k x :
  impl_wf seed d -> Z.of_nat (base.size (impl_map d)) < 2 ^ 29 -> is_Some (impl_map d !! canon_case k) ->
  exists d', dictAdd (commandTableDictType (V := nat) seed) can_resize d k x = Some (d', DICT_ERR) /\
    impl_wf seed d' /\ impl_map d' = impl_map d.
Proof.
  intros Hw Hsz [y Hk]. pose proof Hw as [Hwf Hv Hi].
  assert (zlen (entries d) < 2 ^ 29) as Hlen.
  { rewrite (entries_size _ canon_case d Hwf), (impl_map_size seed d Hw), map_size_fmap. done. }
  destruct (dictAdd_spec _ canon_case can_resize d k x Hwf Hlen) as (d' & st & Hd & Hwf' & Hc).
  destruct Hc as [(-> & Hn & Hm)|(-> & _ & Hm)].
  { rewrite impl_map_lookup, Hn in Hk. discriminate Hk. }
  exists d'. split; [done|]. split; [constructor; [done| |]|].
  - intros k' o. rewrite Hm. apply Hv.
  - by rewrite (dictAdd_iterators _ _ _ _ _ _ _ Hd).
  - unfold impl_map. by rewrite Hm.
Qed.

#[export] Instance dict_delete_spec :
  @DictDeleteSpec (dict cstring nat) (dict_userdict seed can_resize) (dict_userdict_spec seed can_resize) dict_delete := {
  ud_delete_spec := impl_delete;
  ud_add_exists := impl_add_exists
}.

End Impl.

(** ** The lines as sds strings *)

Lemma no_newline_occurs t : ~ occurs [10] t -> 10 ∉ t.
Proof. intros Hn Hin. apply Hn. apply list_elem_of_split in Hin as (a & b & ->). by exists a, b. Qed.

Lemma split_nl_join ts : Forall (fun t => 10 ∉ t) ts -> ts <> [] -> split_nl (join_ref [10] ts) = ts.
Proof.
  induction 1 as [|t ts Ht Hts IH]; [done|]. intros _. cbn [join_ref].
  destruct (bool_decide_reflect (ts = [])) as [->|Hne]; [by apply split_nl_one|].
  change (t ++ [10] ++ join_ref [10] ts) with (t ++ 10 :: join_ref [10] ts).
  by rewrite split_nl_app, IH, (split_nl_one t Ht).
Qed.

(** The tokens that [sdssplitlen] makes of the text and [sdstrim] trims in
    place are the lines the loader looks at. *)
Lemma config_lines_sds junk t r :
  0 < zlen t <= MAX_LEN ->
  exists tokens, SdsBuf.sdssplitlen junk (t ++ r) (zlen t) [10; 0] 1 = Some (Some tokens) /\
    Forall2 (fun tok l => exists tok', SdsBuf.sdstrim tok blanks = Some tok' /\ holds tok' (trim_line l))
      tokens (split_nl t).
Proof.
  intros Hl. unfold SdsBuf.sdssplitlen. rewrite (proj2 (Z.ltb_ge (zlen t) 0)) by lia.
  rewrite (proj2 (Z.eqb_neq (zlen t) 0)) by lia. cbn [orb Z.ltb Z.compare Pos.compare Pos.compare_cont].
  destruct (split_loop_spec junk t r [10] [0] (S (Z.to_nat (zlen t))) ltac:(done) ltac:(lia) 5 [] [] 0 0)
    as (tokens & ts & Hs & Hts & Hno & Hj); [done|cbn; lia|lia|lia|done|done|lia|lia|].
  cbn [app length] in Hs. change (Z.of_nat 1) with 1 in Hs. rewrite Hs. exists tokens. split; [done|].
  assert (split_nl t = ts) as ->.
  { rewrite <- Hj. apply split_nl_join; [|intros ->; cbn in Hj; subst t; cbn in Hl; lia].
    eapply Forall_impl; [exact Hno|]. intros x. apply no_newline_occurs. }
  eapply Forall2_impl; [exact Hts|]. intros tok l Hh. by apply trim_spec.
Qed.

(** ** Amounts of memory *)

Lemma digits_val_nonneg ds acc :
  0 <= acc -> Forall (fun c => digit_in 10 c = true) ds -> 0 <= fold_left (fun v c => v * 10 + (c - 48)) ds acc.
Proof.
  intros Ha Hd. revert acc Ha. induction Hd as [|c ds Hc _ IH]; intros acc Ha; [done|]. cbn.
  apply IH. unfold digit_in in Hc. lia.
Qed.

Lemma span_digits_app ds r :
  Forall (fun c => digit_in 10 c = true) ds -> digit_in 10 (hd 0 r) = false -> span_digits 10 (ds ++ r) = (ds, r).
Proof.
  intros Hd Hr. induction Hd as [|c ds Hc _ IH]; cbn [app span_digits].
  - destruct r as [|c r]; [done|]. cbn in *. by rewrite Hr.
  - by rewrite Hc, IH.
Qed.

Lemma digit_range c : digit_in 10 c = true -> 48 <= c < 58.
Proof. unfold digit_in. lia. Qed.

Lemma strtoll_number (neg : bool) ds :
  ds <> [] -> Forall (fun c => digit_in 10 c = true) ds ->
  strtoll ((if neg then [45] else []) ++ ds) =
  clamp LLONG_MIN LLONG_MAX (if neg then - digits_val 10 ds else digits_val 10 ds).
Proof.
  intros Hne Hd. unfold strtoll, strto. rewrite cstr_id.
  2:{ apply Forall_app. split; [destruct neg; repeat constructor; done|].
      eapply Forall_impl; [exact Hd|]. intros c Hc%digit_range. lia. }
  pose proof (span_digits_app ds [] Hd eq_refl) as Hs. rewrite app_nil_r in Hs.
  destruct neg.
  - cbn [app skip_blanks]. change (isspace 45) with false. cbn iota. change (45 =? 45) with true. cbn iota.
    rewrite Hs. by destruct ds.
  - cbn [app]. destruct ds as [|c ds]; [done|]. apply Forall_cons in Hd as [Hc%digit_range Hd].
    cbn [skip_blanks]. unfold isspace. replace (c =? 32) with false by lia. replace (c <=? 13) with false by lia.
    rewrite andb_false_r. cbn [orb]. replace (c =? 45) with false by lia. replace (c =? 43) with false by lia.
    by rewrite Hs.
Qed.

(** An amount of memory, a number in decimal and one of the units b,
    k, kb, m, mb, g and gb in any case, is read as the number times the
    unit whenever that fits in 64 bits, and no error is reported. *)
Theorem memtoll_amount (neg : bool) ds u m :
  ds <> [] -> Forall (fun c => digit_in 10 c = true) ds -> (length ds < 127)%nat ->
  0 ∉ u -> digit_in 10 (hd 0 u) = false -> unit_mul u = Some m ->
  let v := if neg then - digits_val 10 ds else digits_val 10 ds in
  - 2 ^ 63 <= v * m < 2 ^ 63 -> memtoll ((if neg then [45] else []) ++ ds ++ u) = (v * m, 0).
Proof.
  intros Hne Hd Hlen H0 Hu Hm v Hv. unfold memtoll.
  assert (Hm1 : 1 <= m) by (unfold unit_mul in Hm; repeat case_match; simplify_eq; lia).
  set (p := (if neg then [45] else []) ++ ds ++ u).
  assert (Hp : cstr p = p).
  { apply cstr_id. unfold p. apply Forall_app. split; [destruct neg; repeat constructor; done|].
    apply Forall_app. split; [eapply Forall_impl; [exact Hd|]; intros c Hc%digit_range; lia|].
    apply Forall_forall. by intros x Hx ->. }
  assert (Hoff : unit_offset p = zlen ((if neg then [45] else []) ++ ds)).
  { unfold unit_offset, p. destruct neg; cbn [app].
    - change (45 =? 45) with true. cbn iota. rewrite span_digits_app by done. cbn [fst length]. lia.
    - destruct ds as [|c ds]; [done|]. pose proof Hd as [Hc%digit_range _]%Forall_cons. cbn [app].
      replace (c =? 45) with false by lia. rewrite app_comm_cons, span_digits_app by done. done. }
  rewrite Hp, Hoff, Nat2Z.id. unfold p. rewrite app_assoc, drop_app_length, take_app_length, Hm.
  assert (Hl : zlen ((if neg then [45] else []) ++ ds) < 128) by (rewrite length_app; destruct neg; cbn; lia).
  rewrite (wrapu_small 32) by lia. rewrite (proj2 (Z.leb_gt _ _)) by done. rewrite strtoll_number by done.
  fold v. assert (Hclamp : clamp LLONG_MIN LLONG_MAX v = v).
  { unfold clamp, LLONG_MIN, LLONG_MAX. nia. }
  rewrite Hclamp. by rewrite s64_small by lia.
Qed.

(** The defaults come with an intact command table. *)
Lemma init_commands_ok {D} `{!UserDict D nat} `{!UserDictSpec D nat} input (s : config D) tbl :
  initServerConfig input = Some (s, tbl) -> ConfigSpec.commands_ok s.
Proof.
  unfold initServerConfig. destruct CommandProofs.populate_ok as (d & d' & -> & Hw & Hm & _). cbn [obind].
  intros [= <- _]. split; cbn [commands set_save appendServerSaveParams resetServerSaveParams]; [done|].
  rewrite Hm. by vm_compute.
Qed.

(** ** Runs *)

Module Demo.
Import CommandProofs.

#[local] Instance ud : UserDict (dict cstring nat) nat := dict_userdict 5381 true.
#[local] Instance ud_spec : UserDictSpec (dict cstring nat) nat := dict_userdict_spec 5381 true.
#[local] Instance udd : DictDelete (dict cstring nat) := dict_delete 5381.
#[local] Instance udd_spec : DictDeleteSpec (dict cstring nat) := dict_delete_spec 5381 true.

Abbreviation txt := bytes_of_string.
Abbreviation conf := (config (dict cstring nat)).

(** The directives of [src/server/redis.conf], without its comments. *)
Definition shipped : list (list Z) :=
  [txt "daemonize no";
   txt "pidfile /var/run/redis.pid";
   txt "port 6379";
   txt "tcp-backlog 511";
   txt "timeout 0";
   txt "tcp-keepalive 0";
   txt "loglevel notice";
   txt "logfile " ++ [34] ++ [34];
   txt "databases 16";
   txt "save 900 1";
   txt "save 300 10";
   txt "save 60 10000";
   txt "stop-writes-on-bgsave-error yes";
   txt "rdbcompression yes";
   txt "rdbchecksum yes";
   txt "dbfilename dump.rdb";
   txt "dir ./";
   txt "slave-serve-stale-data yes";
   txt "slave-read-only yes";
   txt "repl-disable-tcp-nodelay no";
   txt "slave-priority 100";
   txt "appendonly no";
   txt "appendfilename " ++ [34] ++ txt "appendonly.aof" ++ [34];
   txt "appendfsync everysec";
   txt "no-appendfsync-on-rewrite no";
   txt "auto-aof-rewrite-percentage 100";
   txt "auto-aof-rewrite-min-size 64mb";
   txt "lua-time-limit 5000";
   txt "slowlog-log-slower-than 10000";
   txt "slowlog-max-len 128";
   txt "notify-keyspace-events " ++ [34] ++ [34];
   txt "hash-max-ziplist-entries 512";
   txt "hash-max-ziplist-value 64";
   txt "list-max-ziplist-entries 512";
   txt "list-max-ziplist-value 64";
   txt "set-max-intset-entries 512";
   txt "zset-max-ziplist-entries 128";
   txt "zset-max-ziplist-value 64";
   txt "activerehashing yes";
   txt "client-output-buffer-limit normal 0 0 0";
   txt "client-output-buffer-limit slave 256mb 64mb 60";
   txt "client-output-buffer-limit pubsub 32mb 8mb 60";
   txt "hz 10";
   txt "aof-rewrite-incremental-fsync yes"].

Definition lines_text (ls : list (list Z)) : list Z := concat ((fun l => l ++ [10]) <$> ls).

(** A machine with that file and a second one that includes it. *)
Definition files (f : list Z) : option (list Z) :=
  if bool_decide (f = txt "redis.conf") then Some (lines_text shipped)
  else if bool_decide (f = txt "home.conf") then
    Some (lines_text [txt "# at home"; txt "include redis.conf"; txt "  maxclients -1"; txt "hz 100000"])
  else None.

Definition env : environ := Environ (fun _ _ => true) (fun _ f => files f) (fun _ _ => None).

Lemma init_ok : match initServerConfig (D := dict cstring nat) [] with Some _ => true | None => false end = true.
Proof. vm_compute. reflexivity. Qed.

Definition C0 : conf :=
  match initServerConfig [] with
  | Some (s, _) => s
  | None => Config default_num default_str [] [] [] ud_create [] []
  end.

Lemma C0_init : exists tbl, initServerConfig [] = Some (C0, tbl).
Proof.
  pose proof init_ok as H. unfold C0. destruct (initServerConfig []) as [[s tbl]|]; [by exists tbl|discriminate H].
Qed.

(** [redis-server home.conf --port 6380 --requirepass "a b"] *)
Definition options : list (list Z * list (list Z)) :=
  [(txt "port", [txt "6380"]); (txt "requirepass", [txt "a b"]); (txt "bind", [txt "10.0.0.1"; txt "127.0.0.1"])].
Definition argv : list (list Z) := txt "home.conf" :: command_line options.

Definition C1 : conf := match main_config env 2 C0 argv with Some (inl s) => s | _ => C0 end.

Lemma C1_run : match main_config env 2 C0 argv with Some (inl _) => true | _ => false end = true.
Proof. vm_compute. reflexivity. Qed.

Lemma C1_eq : main_config env 2 C0 argv = Some (inl C1).
Proof. pose proof C1_run as H. unfold C1. by destruct (main_config env 2 C0 argv) as [[s|]|]. Qed.

(** What the run leaves: a timeout from the included file, a port from the
    command line, a frequency cut to its maximum, and a negative number of
    clients taken for a huge one. *)
Example C1_values :
  (num C1 maxidletime, num C1 port, num C1 hz, num C1 maxclients, num C1 aof_rewrite_min_size,
   str C1 requirepass, bindaddr C1, saveparams C1) =
  (0, 6380, 500, 4294967295, 67108864, Some (txt "a b"), [txt "10.0.0.1"; txt "127.0.0.1"],
   [(900, 1); (300, 10); (60, 10000)]).
Proof. vm_compute. reflexivity. Qed.

(** A refused line: the number and the text that are printed. *)
Example bad_port :
  match loadServerConfigFromString env (include_at env 0) C0 (lines_text [txt "timeout 3"; txt ""; txt " port 70000"]) with
  | Some (inr f) => Some f | _ => None end = Some (LoadErr 3 (txt "port 70000") (txt "Invalid port")).
Proof. vm_compute. reflexivity. Qed.

(** [save] with a wrong number of arguments is accepted and does nothing. *)
Example save_without_effect :
  match loadServerConfigFromString env (include_at env 0) C0 (txt "save 60 10 extra") with
  | Some (inl s) => Some (saveparams s) | _ => None end = Some (saveparams C0).
Proof. vm_compute. reflexivity. Qed.

(** The unit of the comment of [memtoll] is not one. *)
Example memtoll_gi : memtoll (txt "1Gi") = (1, 1).
Proof. vm_compute. reflexivity. Qed.

(** A misspelt amount is taken as if it had no unit, the error is not looked at. *)
Example maxmemory_misspelt :
  match loadServerConfigFromString env (include_at env 0) C0 (txt "maxmemory 1Gi") with
  | Some (inl s) => Some (num s maxmemory) | _ => None end = Some 1.
Proof. vm_compute. reflexivity. Qed.

Lemma options_ok : Forall (fun d => dir_ok d = true) options.
Proof. repeat constructor; vm_compute; reflexivity. Qed.

Lemma command_line_executed_witness :
  main_config env 2 C0 (txt "home.conf" :: command_line options) =
  match read_config env (resetServerSaveParams C0) (txt "home.conf") with
  | None => Some (inr (CannotOpen (cstr (txt "home.conf"))))
  | Some (t, s1) =>
      let? r := load_lines env (include_at env 1) 1 (split_nl (file_text t)) s1 in
      match r with
      | inl s2 => exec_all env (include_at env 1) (1 + zlen (split_nl (file_text t))) options s2
      | inr e => Some (inr e)
      end
  end.
Proof. exact (command_line_executed env 1 C0 (txt "home.conf") options eq_refl eq_refl options_ok). Defined.

Lemma configuration_in_range_witness : in_range C1.
Proof. destruct C0_init as [tbl H]. exact (configuration_in_range env 2 [] C0 tbl argv C1 H C1_eq). Defined.

Lemma memtoll_amount_witness : memtoll (txt "-64Mb") = (- 64 * (1024 * 1024), 0).
Proof.
  apply (memtoll_amount true (txt "64") (txt "Mb") (1024 * 1024)); [discriminate|repeat constructor|cbn; lia| | | |].
  - apply (bool_decide_unpack _). vm_compute. exact I.
  - reflexivity.
  - reflexivity.
  - vm_compute. split; [discriminate|reflexivity].
Defined.

Lemma C0_commands : ConfigSpec.commands_ok C0.
Proof. destruct C0_init as [tbl H]. exact (init_commands_ok [] C0 tbl H). Qed.

Lemma rename_command_map_witness :
  exists d, do_rename C0 (txt "CHAT") (txt "talk") = Some (Done (set_commands C0 d)) /\
    ConfigSpec.commands_ok (set_commands C0 d) /\
    ud_map d = <[txt "talk" := 0%nat]> (delete (txt "chat") (ud_map (commands C0))).
Proof.
  pose proof (rename_command_map C0 (txt "CHAT") (txt "talk") C0_commands eq_refl eq_refl) as H. cbv zeta in H.
  assert (Hl : ud_map (commands C0) !! (tolower <$> txt "CHAT") = Some 0%nat) by (vm_compute; reflexivity).
  rewrite Hl in H.
  assert (Hn : delete (tolower <$> txt "CHAT") (ud_map (commands C0)) !! (tolower <$> txt "talk") = None)
    by (vm_compute; reflexivity).
  destruct (decide (_ /\ _)) as [[_ [x Hx]]|_]; [rewrite Hn in Hx; discriminate Hx|].
  destruct H as (d & Hd & Hok & Hm). exists d. split; [exact Hd|]. split; [exact Hok|].
  rewrite decide_False in Hm by discriminate. exact Hm.
Defined.

(** The files of the machine in the order of inclusion. *)
Definition rank (f : list Z) : nat := if bool_decide (f = txt "home.conf") then 1%nat else 0%nat.

Lemma files_ranked : files_fine env rank.
Proof.
  intros h f t. cbn [env_open env]. unfold files.
  destruct (bool_decide_reflect (f = txt "redis.conf")) as [->|_].
  { intros [= <-]. apply lines_check_fine. vm_compute. reflexivity. }
  destruct (bool_decide_reflect (f = txt "home.conf")) as [->|_]; [|discriminate].
  intros [= <-]. apply lines_check_fine. vm_compute. reflexivity.
Qed.

Lemma config_load_returns_witness :
  exists r, loadServerConfig env 2 C0 (Some (txt "home.conf")) (Some (txt "port 6380")) = Some r.
Proof.
  apply (config_load_returns env rank 1 C0 (txt "home.conf") (txt "port 6380") files_ranked).
  - split; [exact C0_commands|]. apply lines_check_fine. vm_compute. reflexivity.
  - vm_compute. lia.
  - apply lines_check_fine. vm_compute. reflexivity.
Defined.

End Demo.

End ConfigRun.
