(* ===== verification/CronSpec.v ===== *)
(** * The timer closes idle clients

    A call of [clientsCron] visits a bounded number of clients from the tail
    of the list and moves those it keeps to the head.  This file shows what
    one call does to the list, and that enough calls reach every client. *)

From S2P Require Import Prelude Dict DictSpec Reply UserTable Chat ChatSpec Scenario Rand Md5 Md5Spec Register RegisterSpec SessionSpec Sds Util SdsBuf Query QuerySpec QuerySafe Command CommandSpec System SystemSpec.
Import HashTable Output Users Chat ChatProofs Register RegisterProofs SessionProofs SdsBuf Query Command CommandProofs QuerySafe System SystemProofs.

Module CronProofs.

(** ** What closing a client leaves alone *)

Section Frame.
Context {D : Type} `{!UserDict D nat}.
Context (ae : Z -> bool).
Context {DB : Type}.
Implicit Types s : server D DB.

(** A client without its output side. *)
Definition bare (c : redisClient) : redisClient := set_out c (new_outbuf 0).

Definition views s : gmap nat redisClient := bare <$> objects s.

(** Only output, accounts and the database may differ. *)
Record same_clients s s' : Prop := {
  same_list : clients s' = clients s;
  same_views : views s' = views s;
  same_time : unixtime s' = unixtime s
}.

#[local] Instance same_clients_refl : Reflexive same_clients.
Proof. by constructor. Qed.
#[local] Instance same_clients_trans : Transitive same_clients.
Proof. intros a b c [A1 A2 A3] [B1 B2 B3]. constructor; congruence. Qed.

Lemma reply_same s p text s' : reply_to ae s p text = Some s' -> same_clients s s'.
Proof.
  unfold reply_to, upd. destruct (objects s !! p) as [c|] eqn:E; [|done]. cbn [obind]. intros [= <-].
  constructor; [done| |done]. unfold views. cbn [objects set_objects]. rewrite fmap_insert.
  apply insert_id. by rewrite lookup_fmap, E.
Qed.

Lemma send_same ps : forall s tag from to msg ty s',
  send_loop_clients ae ps s tag from to msg ty = Some s' -> same_clients s s'.
Proof.
  induction ps as [|p ps IH]; intros s tag from to msg ty s'; cbn [send_loop_clients]; [by intros [= <-]|].
  intros (c & _ & E)%obind_Some. destruct (addressed c to ty); [|by apply IH in E].
  apply obind_Some in E as (t & _ & (s1 & E1 & E2)%obind_Some).
  etrans; [by eapply reply_same|by eapply IH].
Qed.

Lemma notify_same s p s' : chatNotifyUserInfo ae s p = Some s' -> same_clients s s'.
Proof.
  unfold chatNotifyUserInfo. intros (c & _ & E)%obind_Some.
  destruct (_ || _); [by injection E as <-|].
  destruct (mynode_type c =? _); [|destruct (mynode_type c =? _); [|by injection E as <-]];
    apply obind_Some in E as (s1 & E1 & E); apply obind_Some in E as ([u r] & _ & [= <-]);
    apply send_same in E1 as []; by constructor.
Qed.

Lemma freeClient_views s p s' :
  freeClient ae s p = Some s' ->
  del_node p (clients s) = Some (clients s') /\ views s' = delete p (views s) /\ unixtime s' = unixtime s.
Proof.
  unfold freeClient. intros (s1 & [<- Hv <-]%notify_same & E)%obind_Some.
  apply obind_Some in E as (s2 & E2 & E). apply obind_Some in E as (rest & Er & [= <-]). cbn.
  unfold upd in E2. destruct (objects s1 !! p) as [c|]; [|done]. injection E2 as <-. cbn in *.
  split; [done|]. split; [|done]. unfold views in *. cbn. by rewrite delete_insert_eq, fmap_delete, Hv.
Qed.

End Frame.

(** ** One call *)

Section Cron.
Context {D : Type} `{!UserDict D nat} `{!UserDictSpec D nat}.
Context (ae : Z -> bool) {DB : Type}.
Implicit Types S : system D DB.

(** A client the timer closes at time [now]: silent for longer than the
    limit, and not root. *)
Definition idle (maxidle now : Z) (c : redisClient) : bool :=
  negb (maxidle =? 0) && (maxidle <? now - lastinteraction c) && negb (streq (username c) MY_REDIS_ROOT_NAME).

Definition expired S (now : Z) (p : nat) : bool :=
  match views (srv S) !! p with Some c => idle (maxidletime S) now c | None => false end.

Abbreviation cls S := (clients (srv S)).
Abbreviation now_of S := (unixtime (srv S)).

(** The clients of [b] the timer keeps. *)
Definition survivors S (b : list nat) : list nat := filter (fun p => expired S (now_of S) p = false) b.

Lemma survivors_one S p : survivors S [p] = if expired S (now_of S) p then [] else [p].
Proof.
  unfold survivors. destruct (expired S (now_of S) p) eqn:E.
  - by rewrite (filter_cons_False (fun p => expired S (now_of S) p = false) p []) by congruence.
  - by rewrite (filter_cons_True (fun p => expired S (now_of S) p = false) p []).
Qed.

Lemma survivors_app S a b : survivors S (a ++ b) = survivors S a ++ survivors S b.
Proof. apply (filter_app (fun p => expired S (now_of S) p = false)). Qed.

Lemma survivors_sub S b p : p ∈ survivors S b -> p ∈ b.
Proof. unfold survivors. rewrite list_elem_of_filter. tauto. Qed.

Lemma survivors_ext S S' b :
  now_of S' = now_of S -> (forall p, p ∈ b -> expired S' (now_of S) p = expired S (now_of S) p) ->
  survivors S' b = survivors S b.
Proof.
  intros Et. induction b as [|p b IH]; intros He; [done|].
  change (p :: b) with ([p] ++ b). rewrite !survivors_app, !survivors_one, Et, He by left.
  rewrite IH; [done|]. intros q Hq. apply He. by right.
Qed.

(** [S'] is what the visits of the clients in [b] make of [S]. *)
Record swept (a b : list nat) S S' : Prop := {
  swept_list : cls S' = survivors S b ++ a;
  swept_views : forall p, p ∈ cls S' -> views (srv S') !! p = views (srv S) !! p;
  swept_time : now_of S' = now_of S;
  swept_limit : maxidletime S' = maxidletime S
}.

Lemma expired_same S S' now p :
  views (srv S') !! p = views (srv S) !! p -> maxidletime S' = maxidletime S ->
  expired S' now p = expired S now p.
Proof. unfold expired. by intros -> ->. Qed.

(** The visit of the client that has just become the head. *)
Lemma visit_swept S p l :
  sys_inv sinv S -> cls S = p :: l ->
  exists S' freed, cron_handler ae S p = Some (S', freed) /\ swept l [p] S S' /\
    freed = (if expired S (now_of S) p then 1 else 0).
Proof.
  intros HS El. assert (live (srv S) p) as Hl by (apply (sinv_clients _ (si_inv _ _ HS)); rewrite El; left).
  pose proof Hl as [c Hc]. assert (views (srv S) !! p = Some (bare c)) as Hv by (unfold views; by rewrite lookup_fmap, Hc).
  assert (expired S (now_of S) p = idle (maxidletime S) (now_of S) c) as Ee by (unfold expired; by rewrite Hv).
  assert (NoDup (cls S)) as Hnd by apply (sinv_clients _ (si_inv _ _ HS)).
  unfold cron_handler, clientsCronHandleTimeout. rewrite Hc. cbn [obind].
  assert (idle (maxidletime S) (now_of S) c = false ->
    swept l [p] S (set_world S (set_srv (sys_world S) (srv S)))) as Hkeep.
  { intros Hk. constructor; [|done..]. change (srv (set_world S _)) with (srv S). rewrite El.
    by rewrite survivors_one, Ee, Hk. }
  rewrite Ee. unfold idle in *. destruct (negb (maxidletime S =? 0) && _); [|do 2 eexists; split; [done|]; by auto].
  destruct (streq _ _); [do 2 eexists; split; [done|]; by auto|].
  destruct (freeClient_sinv ae (srv S) p (si_inv _ _ HS) Hl) as (s' & Es & _). rewrite Es. cbn [obind].
  apply freeClient_views in Es as (Ed & Ev & Et). do 2 eexists. split; [done|]. split; [|done].
  rewrite El in Ed. cbn in Ed. rewrite bool_decide_eq_true_2 in Ed by done. injection Ed as Ed.
  constructor; cbn -[expired survivors]; [|intros q Hq|done|done].
  - rewrite survivors_one, Ee. by rewrite Ed.
  - rewrite Ev. apply lookup_delete_ne. intros <-. rewrite El in Hnd. apply NoDup_cons in Hnd as [Hp _].
    apply Hp. by rewrite Ed.
Qed.

(** Visiting the tail [b] of the list. *)
Lemma loop_swept junk room b : forall a S,
  sys_inv sinv S -> cls S = a ++ b ->
  exists S', cron_loop ae (length b) S junk room = Some S' /\ sys_inv sinv S' /\ swept a b S S'.
Proof.
  induction b as [|x b IH] using rev_ind; intros a S HS El.
  { eexists. split; [done|]. split; [done|]. rewrite app_nil_r in El. by constructor. }
  rewrite length_app, Nat.add_1_r. cbn [cron_loop]. rewrite app_assoc in El.
  destruct (cls S) as [|y l] eqn:E0; [by destruct (a ++ b)|]. rewrite <- E0 in *. clear E0 y l.
  pose proof (rotated_ok ae sinv S HS) as HS1. rewrite El, rotate_snoc in *. set (S1 := set_world S _) in *.
  cbn [clients set_clients head obind].
  destruct (visit_swept S1 x (a ++ b) HS1 eq_refl) as (S2 & freed & E2 & [L2 V2 T2 M2] & Hf).
  destruct (cron_handler_ok ae sinv x S1 HS1) as (S2' & f' & E2' & HS2 & Hl2).
  { apply (sinv_clients _ (si_inv _ _ HS1)). left. }
  assert (S2' = S2 /\ f' = freed) as [-> ->] by (rewrite E2 in E2'; by injection E2').
  rewrite E2. cbn [obind].
  change (expired S1 (now_of S1)) with (expired S (now_of S)) in *.
  assert (exists S3, (if negb (freed =? 0) then Some S2 else resize_handler S2 x junk (room x)) = Some S3 /\
    sys_inv sinv S3 /\ srv S3 = srv S2 /\ maxidletime S3 = maxidletime S2) as (S3 & -> & HS3 & Es & Em).
  { rewrite Hf. destruct (expired S (now_of S) x); cbn; [by eexists|].
    destruct (resize_handler_ok sinv x S2 junk (room x) HS2 (Hl2 Hf)) as (S3 & E3 & HS3).
    exists S3. rewrite E3. split; [done|]. split; [done|].
    unfold resize_handler in E3. apply obind_Some in E3 as (? & _ & E3). apply obind_Some in E3 as ([? ?] & _ & E3).
    destruct (clientsCronResizeQueryBuffer _ _ _ _ _). by injection E3 as <-. }
  cbn [obind]. change (survivors S1) with (survivors S) in L2. change (views (srv S1)) with (views (srv S)) in V2.
  destruct (IH (survivors S [x] ++ a) S3 HS3) as (S' & E' & HS' & [L' V' T' M']).
  { rewrite Es, L2. by rewrite app_assoc. }
  exists S'. split; [done|]. split; [done|].
  assert (survivors S3 b = survivors S b) as Eb.
  { apply survivors_ext; [by rewrite Es, T2|]. intros p Hp.
    apply expired_same; [|by rewrite Em, M2]. rewrite Es. apply V2. rewrite L2. set_solver +Hp. }
  constructor.
  - rewrite L', Eb, survivors_app. by rewrite <- app_assoc.
  - intros p Hp. rewrite (V' p Hp), Es. apply V2. rewrite L2. rewrite L', Eb in Hp.
    pose proof (survivors_sub S b p). set_solver.
  - by rewrite T', Es.
  - by rewrite M', Em.
Qed.

(** ** How far a call gets *)

Lemma cron_iterations_bounds hz n :
  0 < hz -> 0 <= n -> Z.min n 50 <= cron_iterations hz n <= n.
Proof.
  intros Hh Hn. unfold cron_iterations.
  assert (0 <= Z.quot n (hz * 10) <= n).
  { rewrite Z.quot_div_nonneg by lia. split; [apply Z.div_pos; lia|]. apply Z.div_le_upper_bound; nia. }
  destruct (Z.ltb_spec (Z.quot n (hz * 10)) 50); [destruct (Z.ltb_spec n 50)|]; lia.
Qed.

Lemma call_swept S hz junk room :
  sys_inv sinv S -> 0 < hz ->
  exists S' a b, clientsCron ae S hz junk room = Some S' /\ sys_inv sinv S' /\ cls S = a ++ b /\
    zlen b = cron_iterations hz (zlen (cls S)) /\ swept a b S S'.
Proof.
  intros HS Hh. unfold clientsCron. rewrite (proj2 (Z.eqb_neq hz 0)) by lia.
  pose proof (cron_iterations_bounds hz (zlen (cls S)) Hh ltac:(lia)) as Hb.
  set (k := Z.to_nat (cron_iterations hz (zlen (cls S)))).
  set (a := take (length (cls S) - k) (cls S)). set (b := drop (length (cls S) - k) (cls S)).
  assert (length b = k) as Hk by (unfold b; rewrite length_drop; lia).
  assert (cls S = a ++ b) as El by (unfold a, b; by rewrite take_drop).
  destruct (loop_swept junk room b a S HS El) as (S' & E & HS' & Hsw).
  exists S', a, b. rewrite <- Hk. split; [done|]. split; [done|]. split; [done|]. split; [lia|done].
Qed.

(** A turn of the timer at time [now]. *)
Record ticked (now : Z) (a b : list nat) S S' : Prop := {
  ticked_list : cls S' = filter (fun p => expired S now p = false) b ++ a;
  ticked_views : forall p, p ∈ cls S' -> views (srv S') !! p = views (srv S) !! p;
  ticked_limit : maxidletime S' = maxidletime S
}.

Lemma tick_ticked S now hz junk room :
  sys_inv sinv S -> 0 < hz ->
  exists S' a b, serverCron ae S now hz junk room = Some (S', Z.quot 1000 hz) /\ sys_inv sinv S' /\ cls S = a ++ b /\
    Z.min (zlen (cls S)) 50 <= zlen b /\ ticked now a b S S'.
Proof.
  intros HS Hh.
  destruct (call_swept (update_time S now) hz junk room (update_time_ok ae sinv now S HS) Hh)
    as (S' & a & b & E & HS' & El & Hb & [L V T M]).
  exists S', a, b. unfold serverCron. rewrite E. split; [done|]. split; [done|]. split; [done|].
  split; [|by constructor]. rewrite Hb. apply (cron_iterations_bounds hz); [done|lia].
Qed.

Lemma ticked_elem now a b S S' p :
  ticked now a b S S' -> p ∈ cls S' <-> (p ∈ b /\ expired S now p = false) \/ p ∈ a.
Proof. intros [-> _ _]. rewrite elem_of_app, list_elem_of_filter. tauto. Qed.

Lemma expired_mono S t t' p : t <= t' -> expired S t' p = false -> expired S t p = false.
Proof.
  unfold expired, idle. destruct (views (srv S) !! p) as [c|]; [|done]. intros Ht.
  destruct (maxidletime S =? 0); [done|]. destruct (streq _ _); cbn; [by rewrite !andb_false_r|].
  rewrite !andb_true_r. intros H%Z.ltb_ge. apply Z.ltb_ge. lia.
Qed.

(** ** Turns of the timer, each at its time *)

Definition tick : Type := Z * (nat -> Z) * (nat -> list Z).
Definition tick_time (t : tick) : Z := t.1.1.

Fixpoint ticks (hz : Z) (ts : list tick) S : option (system D DB) :=
  match ts with
  | [] => Some S
  | (now, junk, room) :: ts => let? (S, _) := serverCron ae S now hz junk room in ticks hz ts S
  end.

(** Those who stay after turns between times [lo] and [hi]. *)
Record reaped (lo : Z) (ts : list tick) S S' : Prop := {
  reaped_sub : forall p, p ∈ cls S' -> p ∈ cls S /\ views (srv S') !! p = views (srv S) !! p;
  reaped_gone : forall p, p ∈ cls S' -> expired S lo p = false;
  reaped_kept : forall p hi, p ∈ cls S -> Forall (fun t => tick_time t <= hi) ts -> expired S hi p = false -> p ∈ cls S'
}.

(** One turn cuts fifty clients, or all, off the part [u] of the list that
    has not been visited. *)
Lemma unvisited now lo a b w u S S' :
  ticked now a b S S' -> lo <= now -> a ++ b = w ++ u -> Z.min (zlen (a ++ b)) 50 <= zlen b ->
  (forall p, p ∈ w -> expired S lo p = false) ->
  exists w' u', cls S' = w' ++ u' /\ (forall p, p ∈ w' -> expired S lo p = false) /\
    zlen u' <= Z.max 0 (zlen u - 50).
Proof.
  intros [L _ _] Hlo E Hb Hw. rewrite L. rewrite length_app in Hb.
  assert (forall p, p ∈ filter (fun p => expired S now p = false) b -> expired S lo p = false) as Hf.
  { intros p [Hp _]%list_elem_of_filter. by eapply expired_mono. }
  apply app_eq_inv in E as [(k & -> & ->)|(k & -> & ->)].
  - eexists (_ ++ w), k. split; [by rewrite <- app_assoc|]. split.
    + intros p [Hp|Hp]%elem_of_app; eauto.
    + rewrite length_app in *. lia.
  - eexists (_ ++ a), []. split; [by rewrite app_nil_r|]. split; [|cbn; lia].
    intros p [Hp|Hp]%elem_of_app; [eauto|]. apply Hw. set_solver +Hp.
Qed.

Lemma ticks_reaped hz ts : forall w u lo S,
  sys_inv sinv S -> 0 < hz -> cls S = w ++ u -> (forall p, p ∈ w -> expired S lo p = false) ->
  Forall (fun t => lo <= tick_time t) ts -> zlen u <= 50 * zlen ts ->
  exists S', ticks hz ts S = Some S' /\ sys_inv sinv S' /\ reaped lo ts S S'.
Proof.
  induction ts as [|[[now junk] room] ts IH]; intros w u lo S HS Hh El Hw Hlo Hu; cbn [ticks].
  { exists S. split; [done|]. split; [done|]. destruct u; [|cbn in Hu; lia].
    rewrite app_nil_r in El. subst w. constructor; auto. }
  apply Forall_cons in Hlo as [Hnow Hlo]. cbn in Hnow.
  destruct (tick_ticked S now hz junk room HS Hh) as (S1 & a & b & -> & HS1 & Eab & Hb & Ht). cbn [obind].
  rewrite Eab in Hb. rewrite Eab in El.
  destruct (unvisited now lo a b w u S S1 Ht Hnow El Hb Hw) as (w' & u' & El1 & Hw' & Hu').
  assert (forall t p, p ∈ cls S1 -> expired S1 t p = expired S t p) as He
    by (intros t p Hp; apply expired_same; apply Ht, Hp || apply Ht).
  destruct (IH w' u' lo S1 HS1 Hh El1) as (S' & -> & HS' & [A B C]); [|done| |].
  { intros p Hp. rewrite He by (rewrite El1; set_solver +Hp). by apply Hw'. }
  { cbn [length] in Hu. lia. }
  exists S'. split; [done|]. split; [done|]. constructor.
  - intros p [Hp Hv]%A. rewrite Hv, (ticked_views _ _ _ _ _ Ht) by done. split; [|done].
    apply (ticked_elem _ _ _ _ _ _ Ht) in Hp. rewrite Eab. set_solver +Hp.
  - intros p Hp. rewrite <- He by (by apply A). by apply B.
  - intros p hi Hp [Hn Hhi]%Forall_cons Hk. cbn in Hn.
    assert (p ∈ cls S1) as Hp1.
    { apply (ticked_elem _ _ _ _ _ _ Ht). rewrite Eab in Hp. apply elem_of_app in Hp as [?|?]; [by right|left].
      split; [done|]. by eapply expired_mono. }
    apply (C p hi Hp1 Hhi). by rewrite He.
Qed.

(** ** Every reachable state *)

Context (same_bucket : D -> list Z -> bool) (ae_read : Z -> bool).
Context (db_query : DB -> list Z -> option (list (list (list Z)))) (db_exec : DB -> list Z -> DB).
Context (frames : nat -> stackframe).


End Cron.

(** ** A quiet client on a small server *)
Module Demo.
Import Scenario DictRefinement DictImpl SystemProofs.Demo.

#[local] Existing Instances ud ud_spec.

(** The limit is five minutes. *)
Definition U0 : wired := default T0 (start defaults 10000 300 tt 0).
Definition U1 : wired := default U0 (play opening U0).

Lemma U1_runs : runs_to U1.
Proof.
  assert (start defaults 10000 300 tt 0 = Some U0) as E0 by (vm_compute; reflexivity).
  apply (play_runs opening U0); [exact (run_start _ _ _ _ _ _ _ _ _ _ _ _ E0)|]. vm_compute. reflexivity.
Qed.

Definition late : tick := (301, fun _ => 0, fun _ => []).


(** The client connected at time 0 and said nothing. *)
Example quiet_client_closed :
  (clients (srv U1), (let? T := ticks ae 10 [late] U1 in Some (clients (srv T)))) = ([1%nat], Some []).
Proof. vm_compute. reflexivity. Qed.

(** The comment of [clientsCron] promises all clients within ten seconds,
    that is a hundred calls at the default frequency; the division rounds
    down. *)
Example ten_seconds_are_not_enough : 100 * cron_iterations 10 5099 < 5099.
Proof. vm_compute. reflexivity. Qed.

End Demo.

End CronProofs.
