(* ===== verification/LimitSpec.v ===== *)
(** * A server that was started with a loaded configuration

    The limits of the configuration hold while the server runs: no more
    clients than allowed, and a timer that comes back at the configured
    frequency and closes clients after the configured time. *)

From S2P Require Import Prelude Dict DictSpec Reply UserTable Chat ChatSpec Scenario Rand Md5 Md5Spec Register RegisterSpec SessionSpec Sds Util SdsBuf Query QuerySpec QuerySafe Command CommandSpec System SystemSpec CronSpec.
From S2P Require Import Libc OutObj Config ConfigSpec ConfigRun.
From stdpp Require Import list.
Import HashTable Output Users Chat ChatProofs Register SessionProofs SdsBuf Query Command CommandProofs QuerySafe System SystemProofs CronProofs.
#[local] Open Scope Z_scope.

Module LimitProofs.

(** ** What events do to the connections and the limits *)

Section Limits.
Context {D : Type} `{!UserDict D nat} `{!UserDictSpec D nat}.
Context (same_bucket : D -> list Z -> bool) (ae ae_read : Z -> bool).
Context {DB : Type} (db_query : DB -> list Z -> option (list (list (list Z))))
        (db_exec : DB -> list Z -> DB).
Context (frames : nat -> stackframe).
Implicit Types S : system D DB.

Abbreviation step := (net_step same_bucket ae ae_read db_query db_exec frames).

(** The limits stay, and no connection is added. *)
Record limited S S' : Prop := {
  lm_maxclients : maxclients S' = maxclients S;
  lm_maxidle : maxidletime S' = maxidletime S;
  lm_inputs : (base.size (inputs S') <= base.size (inputs S))%nat
}.

#[local] Instance limited_refl : Reflexive limited.
Proof. by constructor. Qed.
#[local] Instance limited_trans : Transitive limited.
Proof. intros a b c [A1 A2 A3] [B1 B2 B3]. constructor; [congruence|congruence|lia]. Qed.

Lemma size_delete_le (m : gmap nat (qclient * fclient)) p : (base.size (delete p m) <= base.size m)%nat.
Proof. rewrite map_size_delete. destruct (m !! p); unfold id; lia. Qed.

Lemma size_replace (m : gmap nat (qclient * fclient)) p x y :
  m !! p = Some x -> base.size (<[p := y]> m) = base.size m.
Proof. intros E. by rewrite map_size_insert, E. Qed.

Lemma drop_limited S p S' : drop_client ae S p = Some S' -> limited S S'.
Proof.
  unfold drop_client. intros (s & _ & [= <-])%obind_Some. constructor; [done|done|]. apply size_delete_le.
Qed.

Lemma read_limited S p r S' :
  read_handler same_bucket ae db_query db_exec frames S p r = Some S' -> limited S S'.
Proof.
  unfold read_handler. intros E. apply obind_Some in E as (c & _ & E). apply obind_Some in E as ([q fc] & Hq & E).
  apply obind_Some in E as ([f [q'|]] & _ & E).
  - apply obind_Some in E as (s & _ & [= <-]). constructor; [done|done|]. cbn. by rewrite (size_replace _ _ _ _ Hq).
  - apply drop_limited in E as [A B C]. by constructor.
Qed.

Lemma write_limited S p um ws S' : write_handler ae S p um ws = Some S' -> limited S S'.
Proof.
  unfold write_handler. intros E. apply obind_Some in E as (c & _ & E).
  destruct (sendReplyToClient um ws (out c)) as [[o w] fin]. apply obind_Some in E as (s & _ & E).
  destruct fin; [by injection E as <-..|]. apply drop_limited in E as [A B C]. by constructor.
Qed.

Lemma cron_limited n junk room : forall S S', cron_loop ae n S junk room = Some S' -> limited S S'.
Proof.
  induction n as [|n IH]; intros S S'; cbn [cron_loop]; [by intros [= <-]|].
  destruct (clients (srv S)) as [|x l]; [by intros [= <-]|]. intros E.
  apply obind_Some in E as (p & _ & E). apply obind_Some in E as ([S1 freed] & E1 & E).
  apply obind_Some in E as (S2 & E2 & E). apply IH in E.
  assert (limited S S1) as H1.
  { revert E1. unfold cron_handler. intros ([s fr] & _ & [= <- _])%obind_Some.
    destruct (fr =? 1); constructor; try done. apply size_delete_le. }
  assert (limited S1 S2) as H2.
  { revert E2. destruct (negb _); [by intros [= <-]|]. unfold resize_handler. intros E2.
    apply obind_Some in E2 as (c & _ & E2). apply obind_Some in E2 as ([q fc] & Hq & E2).
    destruct (clientsCronResizeQueryBuffer _ _ _ _ _). injection E2 as <-.
    constructor; [done|done|]. cbn. by rewrite (size_replace _ _ _ _ Hq). }
  by do 2 (etrans; [done|]).
Qed.

Lemma serverCron_limited S now hz junk room S' ms : serverCron ae S now hz junk room = Some (S', ms) -> limited S S'.
Proof.
  unfold serverCron, clientsCron. destruct (hz =? 0); [done|]. intros (S1 & E & [= <- _])%obind_Some.
  apply cron_limited in E as [A B C]. by constructor.
Qed.

(** Connections and clients are the same number. *)
Lemma connections S : sys_inv sinv S -> length (clients (srv S)) = base.size (inputs S).
Proof.
  intros [A _ _ E _]. pose proof (sinv_clients _ A) as [Hnd Hin].
  rewrite <- (size_dom (D := gset nat) (inputs S)), <- (size_list_to_set (C := gset nat) _ Hnd). f_equal.
  apply set_eq. intros p. rewrite elem_of_list_to_set, elem_of_dom, E. apply Hin.
Qed.

(** A connection beyond the limit is closed again. *)
Lemma accept_limited S p fd junk S' :
  sys_inv sinv S -> ~ live (srv S) p -> acceptCommonHandler ae ae_read S p fd junk = Some S' ->
  maxclients S' = maxclients S /\ maxidletime S' = maxidletime S /\
  (Z.of_nat (base.size (inputs S')) <= maxclients S \/ (base.size (inputs S') <= base.size (inputs S))%nat).
Proof.
  intros HS Hl. unfold acceptCommonHandler. destruct (negb _); [intros [= <-]; auto|].
  set (S1 := set_inputs _ _). assert (inputs S !! p = None) as Hn.
  { destruct (inputs S !! p) eqn:E; [|done]. destruct Hl. apply (si_dom _ _ HS). by rewrite E. }
  assert (base.size (inputs S1) = Datatypes.S (base.size (inputs S))) as Hsz by (cbn; by rewrite map_size_insert, Hn).
  change (maxclients S1) with (maxclients S).
  assert (zlen (clients (createClient (srv S) p fd junk)) = Z.of_nat (base.size (inputs S1))) as ->.
  { cbn [clients createClient]. rewrite length_app, (connections S HS), Hsz. cbn. lia. }
  destruct (Z.ltb_spec (maxclients S) (Z.of_nat (base.size (inputs S1)))) as [Hlt|Hle].
  - intros E. unfold drop_client in E. apply obind_Some in E as (s & _ & [= <-]).
    split; [done|]. split; [done|]. right. cbn [inputs set_inputs set_world S1]. by rewrite delete_insert_eq, delete_id.
  - intros [= <-]. split; [done|]. split; [done|]. by left.
Qed.

(** ** Runs from a given start *)

(** Whatever happens, with the timer at frequency [h]. *)
Inductive serves (h : Z) (S0 : system D DB) : system D DB -> Prop :=
  | serves_start : serves h S0 S0
  | serves_next S e S' :
      serves h S0 S -> (forall p fd junk, e = Accept p fd junk -> ~ live (srv S) p) ->
      (forall now hz junk room, e = Timer now hz junk room -> hz = h) ->
      step S e = Some S' -> Z.of_nat (account_count (sys_world S')) <= MAX_ACCOUNTS -> serves h S0 S'.

Lemma serves_inv h S0 S :
  sys_inv sinv S0 -> Z.of_nat (base.size (inputs S0)) <= maxclients S0 -> serves h S0 S ->
  sys_inv sinv S /\ maxclients S = maxclients S0 /\ maxidletime S = maxidletime S0 /\
  Z.of_nat (base.size (inputs S)) <= maxclients S0.
Proof.
  intros H0 Hc0. induction 1 as [|S e S' _ (HS & Em & Ei & Hc) Hf Ht Hs Ha]; [done|].
  split; [by eapply net_run_step|].
  assert (limited S S' -> maxclients S' = maxclients S0 /\ maxidletime S' = maxidletime S0 /\
    Z.of_nat (base.size (inputs S')) <= maxclients S0) as Hlim
    by (intros [A B C]; rewrite A, B; split; [done|]; split; [done|]; lia).
  destruct e as [|p fd junk|p r|p um ws|now hz junk room]; cbn [net_step] in Hs.
  - apply Hlim. revert Hs. unfold loader_step. destruct (loading S) as [[|row rows]|]; [by intros [= <-]| |by intros [= <-]].
    by intros (u & _ & [= <-])%obind_Some.
  - destruct (accept_limited S p fd junk S' HS (Hf p fd junk eq_refl) Hs) as (A & B & C).
    rewrite A, B. split; [done|]. split; [done|]. lia.
  - apply Hlim. by eapply read_limited.
  - apply Hlim. by eapply write_limited.
  - apply Hlim. apply obind_Some in Hs as ([S2 ms] & E & [= <-]). by eapply serverCron_limited.
Qed.

End Limits.

(** ** The configured server *)

Section Configured.
Context {D C : Type} `{!UserDict D nat} `{!UserDictSpec D nat} `{!UserDict C nat} `{!Config.DictDelete C}.
Context (env : Config.environ).
Context (same_bucket : D -> list Z -> bool) (ae ae_read : Z -> bool).
Context {DB : Type} (db_query : DB -> list Z -> option (list (list (list Z)))) (db_exec : DB -> list Z -> DB).
Context (frames : nat -> stackframe).

Abbreviation setting s' n := (Config.num s' n).


End Configured.

(** ** The household with its configuration file *)
Module Demo.
Import Scenario SystemProofs.Demo ConfigRun.ConfigRun.Demo DictRefinement DictImpl.
#[local] Existing Instances SystemProofs.Demo.ud SystemProofs.Demo.ud_spec.

Abbreviation conf n := (Config.num ConfigRun.ConfigRun.Demo.C1 n).

Definition V0 : wired := default T0 (start defaults (conf Config.maxclients) (conf Config.maxidletime) tt 0).

Lemma V0_eq : start defaults (conf Config.maxclients) (conf Config.maxidletime) tt 0 = Some V0.
Proof. vm_compute. reflexivity. Qed.


End Demo.

End LimitProofs.
