(* ===== verification/Adlist.v ===== *)
(** * adlist.c: doubly linked lists

    The lists of the server: its clients, the queued replies of a client.
    Nodes live in a memory shared by all lists and are linked both ways; the
    header knows both ends and counts the nodes.  A null pointer is [None];
    following a null or dangling pointer makes an operation fail.  [zmalloc]
    does not return null: it ends the program when memory is exhausted. *)

From S2P Require Import Prelude.

Module Adlist.

Section Lists.
Context {V : Type} `{EqDecision V}.

Record listNode := Node { prev : option nat; next : option nat; value : V }.

(** The nodes, and the values handed to a [free] method so far. *)
Record memory := Mem { nodes : gmap nat listNode; freed : list V }.

(** [list].  The methods are null or functions; [dup] may return null. *)
Record lst := List {
  head : option nat; tail : option nat;
  dup : option (V -> option V); lfree : bool; lmatch : option (V -> V -> bool);
  len : Z
}.

Inductive direction := AL_START_HEAD | AL_START_TAIL.

Record listIter := Iter { iter_next : option nat; iter_direction : direction }.

Definition set_ends (l : lst) h t n : lst := List h t (dup l) (lfree l) (lmatch l) n.

(** ** Memory *)

Definition node_at (m : memory) (p : option nat) : option listNode := let? a := p in nodes m !! a.

Definition put (m : memory) (a : nat) (n : listNode) : memory := Mem (<[a:=n]> (nodes m)) (freed m).

Definition set_next (m : memory) (p : option nat) (x : option nat) : option memory :=
  let? a := p in
  let? n := nodes m !! a in
  Some (put m a (Node (prev n) x (value n))).

Definition set_prev (m : memory) (p : option nat) (x : option nat) : option memory :=
  let? a := p in
  let? n := nodes m !! a in
  Some (put m a (Node x (next n) (value n))).

Definition zmalloc (m : memory) : nat := fresh (dom (nodes m)).

Definition zfree (m : memory) (a : nat) : option memory :=
  let? _ := nodes m !! a in
  Some (Mem (delete a (nodes m)) (freed m)).

Definition call_free (l : lst) (m : memory) (v : V) : memory :=
  if lfree l then Mem (nodes m) (v :: freed m) else m.

(** ** Operations *)

Definition listCreate : lst := List None None None false None 0.

Definition listAddNodeHead (m : memory) (l : lst) (v : V) : option (memory * lst) :=
  let a := zmalloc m in
  if len l =? 0 then Some (put m a (Node None None v), set_ends l (Some a) (Some a) (u64 (len l + 1)))
  else
    let m := put m a (Node None (head l) v) in
    let? m := set_prev m (head l) (Some a) in
    Some (m, set_ends l (Some a) (tail l) (u64 (len l + 1))).

Definition listAddNodeTail (m : memory) (l : lst) (v : V) : option (memory * lst) :=
  let a := zmalloc m in
  if len l =? 0 then Some (put m a (Node None None v), set_ends l (Some a) (Some a) (u64 (len l + 1)))
  else
    let m := put m a (Node (tail l) None v) in
    let? m := set_next m (tail l) (Some a) in
    Some (m, set_ends l (head l) (Some a) (u64 (len l + 1))).

Definition listInsertNode (m : memory) (l : lst) (old_node : nat) (v : V) (after : bool) : option (memory * lst) :=
  let a := zmalloc m in
  let? o := nodes m !! old_node in
  let n := if after then Node (Some old_node) (next o) v else Node (prev o) (Some old_node) v in
  let l :=
    if after
    then (if bool_decide (tail l = Some old_node) then set_ends l (head l) (Some a) (len l) else l)
    else (if bool_decide (head l = Some old_node) then set_ends l (Some a) (tail l) (len l) else l) in
  let m := put m a n in
  let? m := (match prev n with Some p => set_next m (Some p) (Some a) | None => Some m end) in
  let? m := (match next n with Some p => set_prev m (Some p) (Some a) | None => Some m end) in
  Some (m, set_ends l (head l) (tail l) (u64 (len l + 1))).

Definition listDelNode (m : memory) (l : lst) (node : nat) : option (memory * lst) :=
  let? n := nodes m !! node in
  let? (m, l) :=
    (match prev n with
     | Some p => let? m := set_next m (Some p) (next n) in Some (m, l)
     | None => Some (m, set_ends l (next n) (tail l) (len l))
     end) in
  let? (m, l) :=
    (match next n with
     | Some q => let? m := set_prev m (Some q) (prev n) in Some (m, l)
     | None => Some (m, set_ends l (head l) (prev n) (len l))
     end) in
  let m := call_free l m (value n) in
  let? m := zfree m node in
  Some (m, set_ends l (head l) (tail l) (u64 (len l - 1))).

Definition listGetIterator (l : lst) (d : direction) : listIter :=
  match d with
  | AL_START_HEAD => Iter (head l) AL_START_HEAD
  | AL_START_TAIL => Iter (tail l) AL_START_TAIL
  end.

Definition listRewind (l : lst) : listIter := Iter (head l) AL_START_HEAD.
Definition listRewindTail (l : lst) : listIter := Iter (tail l) AL_START_TAIL.

Definition listNext (m : memory) (it : listIter) : option (option nat * listIter) :=
  match iter_next it with
  | None => Some (None, it)
  | Some a =>
      let? n := nodes m !! a in
      Some (Some a, Iter (match iter_direction it with AL_START_HEAD => next n | AL_START_TAIL => prev n end)
                      (iter_direction it))
  end.

(** The loop of [listSearchKey]. *)
Fixpoint search_loop (fuel : nat) (m : memory) (l : lst) (it : listIter) (key : V) : option (option nat) :=
  match fuel with
  | O => None
  | S fuel =>
      let? (node, it) := listNext m it in
      match node with
      | None => Some None
      | Some a =>
          let? n := nodes m !! a in
          let found := match lmatch l with
                       | Some f => f (value n) key
                       | None => bool_decide (key = value n)
                       end in
          if found then Some (Some a) else search_loop fuel m l it key
      end
  end.

Definition listSearchKey (m : memory) (l : lst) (key : V) : option (option nat) :=
  search_loop (S (Z.to_nat (len l))) m l (listGetIterator l AL_START_HEAD) key.

(** [while(index-- && n) n = n->next], or backwards. *)
Fixpoint index_loop (index : nat) (m : memory) (d : direction) (n : option nat) : option (option nat) :=
  match index, n with
  | S index, Some a =>
      let? x := nodes m !! a in
      index_loop index m d (match d with AL_START_HEAD => next x | AL_START_TAIL => prev x end)
  | _, _ => Some n
  end.

(** [index] is a [long]; negating the least one is undefined. *)
Definition listIndex (m : memory) (l : lst) (index : Z) : option (option nat) :=
  if index <? 0 then
    if index =? - 2 ^ 63 then None
    else index_loop (Z.to_nat (- index - 1)) m AL_START_TAIL (tail l)
  else index_loop (Z.to_nat index) m AL_START_HEAD (head l).

Definition listRotate (m : memory) (l : lst) : option (memory * lst) :=
  let t := tail l in
  if len l <=? 1 then Some (m, l)
  else
    let? n := node_at m t in
    let l1 := set_ends l (head l) (prev n) (len l) in
    let? m := set_next m (tail l1) None in
    let? m := set_prev m (head l1) t in
    let? m := set_prev m t None in
    let? m := set_next m t (head l1) in
    Some (m, set_ends l1 t (tail l1) (len l1)).

(** The loop of [listRelease]. *)
Fixpoint release_loop (n : nat) (m : memory) (l : lst) (current : option nat) : option memory :=
  match n with
  | O => Some m
  | S n =>
      let? a := current in
      let? x := nodes m !! a in
      let? m := zfree (call_free l m (value x)) a in
      release_loop n m l (next x)
  end.

Definition listRelease (m : memory) (l : lst) : option memory :=
  release_loop (Z.to_nat (len l)) m l (head l).

(** The loop of [listDup]: [None] inside means that a null was returned. *)
Fixpoint dup_loop (fuel : nat) (m : memory) (it : listIter) (copy : lst) : option (memory * option lst) :=
  match fuel with
  | O => None
  | S fuel =>
      let? (node, it) := listNext m it in
      match node with
      | None => Some (m, Some copy)
      | Some a =>
          let? n := nodes m !! a in
          match (match dup copy with Some f => f (value n) | None => Some (value n) end) with
          | None => let? m := listRelease m copy in Some (m, None)
          | Some v => let? (m, copy) := listAddNodeTail m copy v in dup_loop fuel m it copy
          end
      end
  end.

Definition listDup (m : memory) (orig : lst) : option (memory * option lst) :=
  let copy := List None None (dup orig) (lfree orig) (lmatch orig) 0 in
  dup_loop (S (Z.to_nat (len orig))) m (listGetIterator orig AL_START_HEAD) copy.

End Lists.

Arguments listNode : clear implicits.
Arguments memory : clear implicits.
Arguments lst : clear implicits.

End Adlist.
