(* ===== verification/AdlistSpec.v ===== *)
(** * adlist.c implements lists

    A list header represents a sequence of nodes when the links in both
    directions agree with it.  Every operation preserves that and does to the
    sequence what the functional list operation does, and touches no node of
    another list. *)

From S2P Require Import Prelude Chat Adlist.
Import Adlist.

Module AdlistProofs.

Section Lists.
Context {V : Type} `{EqDecision V}.
Implicit Types (xs ys : list (nat * V)) (m : memory V) (l : lst V) (h : gmap nat (listNode V)).

(** ** Segments *)

Definition first xs (nn : option nat) : option nat :=
  match xs with [] => nn | (a, _) :: _ => Some a end.

Fixpoint final xs (pp : option nat) : option nat :=
  match xs with [] => pp | (a, _) :: xs => final xs (Some a) end.

(** The nodes [xs] are linked, after [pp] and before [nn]. *)
Fixpoint seg h (pp : option nat) xs (nn : option nat) : Prop :=
  match xs with
  | [] => True
  | (a, v) :: xs => h !! a = Some (Node pp (first xs nn) v) /\ seg h (Some a) xs nn
  end.

Definition lrep m l xs : Prop :=
  seg (nodes m) None xs None /\ NoDup xs.*1 /\ head l = first xs None /\ tail l = final xs None /\
  len l = zlen xs /\ zlen xs < 2 ^ 64.

(** Nothing outside [D] changed. *)
Definition within (D : list nat) m m' : Prop := forall b, b ∉ D -> nodes m' !! b = nodes m !! b.

Lemma first_app xs ys nn : first (xs ++ ys) nn = first xs (first ys nn).
Proof. by destruct xs as [|[]]. Qed.

Lemma final_app xs ys pp : final (xs ++ ys) pp = final ys (final xs pp).
Proof. revert pp. induction xs as [|[a v] xs IH]; intros pp; simpl; auto. Qed.

Lemma seg_app h pp xs ys nn :
  seg h pp (xs ++ ys) nn <-> seg h pp xs (first ys nn) /\ seg h (final xs pp) ys nn.
Proof.
  revert pp. induction xs as [|[a v] xs IH]; intros pp; simpl; [tauto|].
  rewrite IH, first_app. tauto.
Qed.

Lemma seg_frame h h' pp xs nn :
  (forall a, a ∈ xs.*1 -> h' !! a = h !! a) -> seg h pp xs nn -> seg h' pp xs nn.
Proof.
  revert pp. induction xs as [|[a v] xs IH]; intros pp Hf; [done|]. intros [Ha Hs]. split.
  - rewrite Hf; [done|]. by left.
  - apply IH; [|done]. intros b Hb. apply Hf. by right.
Qed.

Lemma seg_dom h pp xs nn a : seg h pp xs nn -> a ∈ xs.*1 -> is_Some (h !! a).
Proof.
  revert pp. induction xs as [|[b v] xs IH]; intros pp; [by intros _ ?%not_elem_of_nil|].
  intros [Hb Hs] [Ha|Hin]%elem_of_cons; [cbn in Ha; subst; by rewrite Hb|]. by eapply IH.
Qed.

Lemma final_in xs pp a : final xs pp = Some a -> xs <> [] -> a ∈ xs.*1.
Proof.
  revert pp. induction xs as [|[b v] xs IH]; intros pp; [done|]. cbn. intros Hf _.
  destruct xs as [|x xs]; [|right; by apply (IH (Some b))]. injection Hf as ->. by left.
Qed.

Lemma fresh_not_in m xs pp nn : seg (nodes m) pp xs nn -> zmalloc m ∉ xs.*1.
Proof.
  intros Hs Hin. apply (seg_dom _ _ _ _ _ Hs) in Hin. apply elem_of_dom in Hin. by apply is_fresh in Hin.
Qed.

(** Relinking the ends of a segment. *)
Lemma set_prev_first m pp pp' xs nn :
  seg (nodes m) pp xs nn -> xs <> [] -> NoDup xs.*1 ->
  exists m', set_prev m (first xs None) pp' = Some m' /\ seg (nodes m') pp' xs nn /\
    freed m' = freed m /\ within (option_list (first xs None)) m m'.
Proof.
  destruct xs as [|[a v] xs]; [done|]. intros [Ha Hs] _ [Hn _]%NoDup_cons. unfold set_prev. cbn [first obind].
  rewrite Ha. cbn [obind prev next value]. eexists. split; [done|]. split; [split|split].
  - cbn. by rewrite lookup_insert_eq.
  - eapply seg_frame; [|done]. intros b Hb. cbn. rewrite lookup_insert_ne; [done|]. intros ->. done.
  - done.
  - intros b Hb. cbn. rewrite lookup_insert_ne; [done|]. intros ->. apply Hb. by left.
Qed.

Lemma set_next_final m pp xs nn nn' a :
  seg (nodes m) pp xs nn -> final xs None = Some a -> NoDup xs.*1 ->
  exists m', set_next m (Some a) nn' = Some m' /\ seg (nodes m') pp xs nn' /\
    freed m' = freed m /\ within [a] m m'.
Proof.
  intros Hs Hf Hnd. destruct (exists_last (l := xs)) as (ys & [b v] & ->); [by intros ->|].
  rewrite final_app in Hf. injection Hf as ->. apply seg_app in Hs as [Hs [Ha _]].
  unfold set_next. cbn [obind]. rewrite Ha. cbn [obind prev next value].
  rewrite fmap_app in Hnd. apply NoDup_app in Hnd as (_ & Hn & _).
  eexists. split; [done|]. split; [|split].
  - apply seg_app. split; [|split; [cbn; by rewrite lookup_insert_eq|done]].
    eapply seg_frame; [|done]. intros c Hc. cbn. rewrite lookup_insert_ne; [done|]. intros ->.
    apply (Hn c Hc). by left.
  - done.
  - intros c Hc. cbn. rewrite lookup_insert_ne; [done|]. intros ->. apply Hc. by left.
Qed.

Lemma final_none xs : final xs None = None -> xs = [].
Proof.
  destruct (decide (xs = [])) as [|Hne]; [done|]. destruct (exists_last Hne) as (ys & [a v] & ->).
  by rewrite final_app.
Qed.

Lemma first_in xs a : first xs None = Some a -> a ∈ xs.*1.
Proof. destruct xs as [|[b v] xs]; [done|]. intros [= ->]. by left. Qed.

Lemma final_in' xs a : final xs None = Some a -> a ∈ xs.*1.
Proof. intros H. apply (final_in xs None a H). by intros ->. Qed.

(** The two ends of a gap: the segment [A] before it and [B] after it get the
    neighbours [x] and [y]. *)
Definition relink m (p q x y : option nat) : option (memory V) :=
  let? m := (match p with Some a => set_next m (Some a) x | None => Some m end) in
  match q with Some b => set_prev m (Some b) y | None => Some m end.

Lemma relink_spec m A B x y nn pp :
  seg (nodes m) None A nn -> seg (nodes m) pp B None -> NoDup (A ++ B).*1 ->
  exists m', relink m (final A None) (first B None) x y = Some m' /\
    seg (nodes m') None A x /\ seg (nodes m') y B None /\ freed m' = freed m /\
    within (A.*1 ++ B.*1) m m'.
Proof.
  intros HA HB Hnd. rewrite fmap_app in Hnd. apply NoDup_app in Hnd as (NA & Hd & NB). unfold relink.
  assert (exists m1, (match final A None with Some a => set_next m (Some a) x | None => Some m end) = Some m1 /\
    seg (nodes m1) None A x /\ freed m1 = freed m /\ within A.*1 m m1) as (m1 & -> & HA1 & F1 & W1).
  { destruct (final A None) as [a|] eqn:Ea.
    - destruct (set_next_final m None A nn x a HA Ea NA) as (m1 & -> & H1 & H2 & H3). exists m1.
      do 3 (split; [done|]). intros b Hb. apply H3. intros ->%list_elem_of_singleton. by apply Hb, final_in'.
    - apply final_none in Ea as ->. exists m. by repeat split. }
  cbn [obind]. assert (seg (nodes m1) pp B None) as HB1.
  { eapply seg_frame; [|done]. intros b Hb. apply W1. intros Ha. by apply (Hd b). }
  destruct (first B None) as [b|] eqn:Eb.
  - destruct (set_prev_first m1 pp y B None HB1) as (m2 & E & H1 & H2 & H3); [by intros ->|done|].
    rewrite Eb in E, H3. rewrite E. exists m2. split; [done|]. split; [|split; [done|split; [congruence|]]].
    + eapply seg_frame; [|done]. intros a Ha. apply H3. intros ->%list_elem_of_singleton.
      by apply (Hd b Ha), first_in.
    + apply first_in in Eb. intros c Hc. rewrite elem_of_app in Hc. rewrite H3; [apply W1; tauto|].
      intros ->%list_elem_of_singleton. tauto.
  - destruct B as [|[]]; [|done]. exists m1. do 3 (split; [done|]). split; [done|]. intros c Hc. apply W1. rewrite elem_of_app in Hc. tauto.
Qed.

(** ** The operations *)

Lemma insert_spec m A B v :
  seg (nodes m) None (A ++ B) None -> NoDup (A ++ B).*1 ->
  let a := zmalloc m in
  exists m', relink (put m a (Node (final A None) (first B None) v)) (final A None) (first B None) (Some a) (Some a) = Some m' /\
    seg (nodes m') None (A ++ (a, v) :: B) None /\ NoDup (A ++ (a, v) :: B).*1 /\ freed m' = freed m /\
    within (a :: (A ++ B).*1) m m'.
Proof.
  intros Hs Hnd a. pose proof (fresh_not_in m _ _ _ Hs) as Hf. fold a in Hf.
  set (m0 := put m a _). apply seg_app in Hs as [HA HB].
  assert (forall b, b ∈ (A ++ B).*1 -> nodes m0 !! b = nodes m !! b) as H0.
  { intros b Hb. cbn. rewrite lookup_insert_ne; [done|]. intros ->. done. }
  destruct (relink_spec m0 A B (Some a) (Some a) (first B None) (final A None)) as (m' & -> & HA' & HB' & F & W);
    [|eapply seg_frame; [|done]..|done|].
  { eapply seg_frame; [|done]. intros b Hb. apply H0. rewrite fmap_app, elem_of_app. by left. }
  { intros b Hb. apply H0. rewrite fmap_app, elem_of_app. by right. }
  exists m'. split; [done|]. rewrite <- fmap_app in W.
  assert (nodes m' !! a = Some (Node (final A None) (first B None) v)) as Ha.
  { rewrite W by done. cbn. by rewrite lookup_insert_eq. }
  split; [|split; [|split; [done|]]].
  - apply seg_app. by split_and!.
  - rewrite fmap_app in *. cbn. rewrite NoDup_app in Hnd |- *. rewrite elem_of_app in Hf.
    destruct Hnd as (N1 & N2 & N3). split; [done|]. rewrite NoDup_cons. split; [|tauto].
    intros b Hb. rewrite elem_of_cons. intros [->|?]; [tauto|by apply (N2 b)].
  - intros b Hb. rewrite elem_of_cons in Hb. rewrite W by tauto. cbn. rewrite lookup_insert_ne; [done|].
    intros ->. tauto.
Qed.

Lemma remove_spec m A B o w :
  seg (nodes m) None (A ++ (o, w) :: B) None -> NoDup (A ++ (o, w) :: B).*1 ->
  nodes m !! o = Some (Node (final A None) (first B None) w) /\
  exists m', relink m (final A None) (first B None) (first B None) (final A None) = Some m' /\
    seg (nodes m') None (A ++ B) None /\ NoDup (A ++ B).*1 /\ o ∉ (A ++ B).*1 /\
    nodes m' !! o = nodes m !! o /\ freed m' = freed m /\ within (A ++ B).*1 m m'.
Proof.
  intros Hs Hnd. apply seg_app in Hs as [HA [Ho HB]]. split; [done|].
  assert (NoDup (A ++ B).*1 /\ o ∉ (A ++ B).*1) as [Hnd' Hno].
  { rewrite fmap_app in *. cbn in Hnd. rewrite elem_of_app. rewrite NoDup_app, NoDup_cons in Hnd.
    destruct Hnd as (N1 & N2 & N3 & N4). split.
    - apply NoDup_app. split; [done|]. split; [|done]. intros b Hb Hb'. apply (N2 b Hb). by right.
    - intros [Hin|?]; [|done]. apply (N2 o Hin). by left. }
  destruct (relink_spec m A B (first B None) (final A None) _ _ HA HB Hnd') as (m' & -> & HA' & HB' & F & W).
  rewrite <- fmap_app in W. exists m'. split; [done|]. split; [by apply seg_app|]. do 2 (split; [done|]).
  split; [by apply W|]. done.
Qed.

Definition same_methods l l' : Prop := dup l' = dup l /\ lfree l' = lfree l /\ lmatch l' = lmatch l.

(** An operation that succeeds, represents [ys] and touches [D] only. *)
Definition yields m l (D : list nat) (fs : list V) (r : option (memory V * lst V)) ys : Prop :=
  exists m' l', r = Some (m', l') /\ lrep m' l' ys /\ within D m m' /\ freed m' = fs /\ same_methods l l'.

Lemma len_empty m l xs : lrep m l xs -> (len l =? 0) = bool_decide (xs = []).
Proof.
  intros (_ & _ & _ & _ & -> & _). case_bool_decide as E; [by subst|]. apply Z.eqb_neq. by destruct xs.
Qed.

Lemma listAddNodeHead_spec m l xs v :
  lrep m l xs -> zlen xs + 1 < 2 ^ 64 ->
  yields m l (zmalloc m :: xs.*1) (freed m) (listAddNodeHead m l v) ((zmalloc m, v) :: xs).
Proof.
  intros Hl Hb. pose proof Hl as (Hs & Hnd & Hh & Ht & Hn & _). unfold listAddNodeHead.
  destruct (insert_spec m [] xs v Hs Hnd) as (m' & E & Hs' & Hnd' & F & W). cbn [app final] in *.
  rewrite (len_empty m l xs Hl). unfold relink in E. cbn [obind] in E. case_bool_decide as Ex.
  - subst xs. cbn in E. injection E as <-. eexists _, _. split; [done|]. split; [|done].
    split; [done|]. split; [done|]. do 2 (split; [done|]). cbn. rewrite Hn. done.
  - rewrite Hh. destruct xs as [|[b w] xs]; [done|]. cbn [first] in *. rewrite E. cbn [obind].
    eexists _, _. split; [done|]. split; [|done]. split; [done|]. split; [done|]. split; [done|].
    split; [by rewrite Ht|]. cbn [len set_ends]. rewrite Hn, wrapu_small by (cbn in *; lia). cbn in *. lia.
Qed.

Lemma listAddNodeTail_spec m l xs v :
  lrep m l xs -> zlen xs + 1 < 2 ^ 64 ->
  yields m l (zmalloc m :: xs.*1) (freed m) (listAddNodeTail m l v) (xs ++ [(zmalloc m, v)]).
Proof.
  intros Hl Hb. pose proof Hl as (Hs & Hnd & Hh & Ht & Hn & _). unfold listAddNodeTail.
  destruct (insert_spec m xs [] v) as (m' & E & Hs' & Hnd' & F & W); [by rewrite app_nil_r..|].
  rewrite app_nil_r in W. cbn [first] in *.
  rewrite (len_empty m l xs Hl). unfold relink in E. case_bool_decide as Ex.
  - subst xs. cbn in E. injection E as <-. eexists _, _. split; [done|]. split; [|done].
    split; [done|]. split; [done|]. do 2 (split; [done|]). cbn. rewrite Hn. done.
  - rewrite Ht. destruct (final xs None) as [b|] eqn:Ef; [|by apply final_none in Ef].
    apply obind_Some in E as (m1 & E & [= ->]). rewrite E. cbn [obind].
    eexists _, _. split; [done|]. split; [|done]. split; [done|]. split; [done|].
    split; [rewrite Hh, first_app; by destruct xs as [|[]]|].
    split; [by rewrite final_app|]. cbn [len set_ends]. rewrite length_app. cbn.
    rewrite Hn, wrapu_small by lia. lia.
Qed.

Lemma listInsertNode_spec m l A B o w v (after : bool) :
  lrep m l (A ++ (o, w) :: B) -> zlen (A ++ (o, w) :: B) + 1 < 2 ^ 64 ->
  yields m l (zmalloc m :: (A ++ (o, w) :: B).*1) (freed m) (listInsertNode m l o v after)
    (if after then A ++ (o, w) :: (zmalloc m, v) :: B else A ++ (zmalloc m, v) :: (o, w) :: B).
Proof.
  intros Hl Hb. pose proof Hl as (Hs & Hnd & Hh & Ht & Hn & _).
  pose proof Hs as [_ [Ho _]]%seg_app. unfold listInsertNode. rewrite Ho. cbn [obind prev next].
  assert (forall xs, xs ≡ₚ (zmalloc m, v) :: A ++ (o, w) :: B -> u64 (len l + 1) = zlen xs /\ zlen xs < 2 ^ 64) as Hlen.
  { intros xs ->. cbn [length]. rewrite Hn, wrapu_small by lia. lia. }
  assert (o ∉ A.*1 /\ o ∉ B.*1) as [HoA HoB].
  { rewrite fmap_app in Hnd. cbn in Hnd. rewrite NoDup_app, NoDup_cons in Hnd. destruct Hnd as (N1 & N2 & N3 & _).
    split; [|done]. intros Hin. apply (N2 o Hin). by left. }
  destruct after.
  - destruct (insert_spec m (A ++ [(o, w)]) B v) as (m' & E & Hs' & Hnd' & F & W); [by rewrite <- app_assoc..|].
    rewrite final_app in E. cbn [final] in E. rewrite <- app_assoc in *. cbn [app] in *. unfold relink in E.
    cbn [prev next]. apply obind_Some in E as (m1 & E1 & E2). rewrite E1. cbn [obind]. rewrite E2. cbn [obind].
    eexists _, _. split; [done|]. split; [|split; [done|split; [done|by case_bool_decide]]].
    split; [done|]. split; [done|]. split; [|split].
    + assert (forall C, first (A ++ (o, w) :: C) None = first (A ++ (o, w) :: B) None) as Hfi
        by (intros; by rewrite !first_app). rewrite Hfi, <- Hh. by case_bool_decide.
    + rewrite final_app in Ht |- *. cbn [final] in *. case_bool_decide as Et; cbn [tail set_ends].
      * rewrite Ht in Et. destruct B as [|[b x] B]; [done|]. exfalso. apply HoB.
        apply (final_in' ((b, x) :: B)). done.
      * destruct B as [|[b x] B]; [by rewrite Ht in Et|]. done.
    + assert ((A ++ (o, w) :: (zmalloc m, v) :: B) ≡ₚ (zmalloc m, v) :: A ++ (o, w) :: B) as Hp
        by solve_Permutation.
      destruct (Hlen _ Hp). by case_bool_decide.
  - destruct (insert_spec m A ((o, w) :: B) v Hs Hnd) as (m' & E & Hs' & Hnd' & F & W). cbn [first] in *.
    unfold relink in E. cbn [prev next]. apply obind_Some in E as (m1 & E1 & E2). rewrite E1. cbn [obind].
    rewrite E2. cbn [obind]. eexists _, _. split; [done|]. split; [|split; [done|split; [done|by case_bool_decide]]].
    split; [done|]. split; [done|]. split; [|split].
    + rewrite first_app in Hh |- *. cbn [first] in *. case_bool_decide as Et; cbn [head set_ends].
      * rewrite Hh in Et. destruct A as [|[b x] A]; [done|]. exfalso. apply HoA. injection Et as ->. by left.
      * destruct A as [|[b x] A]; [by rewrite Hh in Et|]. done.
    + assert (forall x y, final (A ++ x :: (o, w) :: B) y = final (A ++ (o, w) :: B) y) as Hfi
        by (intros [? ?] y; by rewrite !final_app). rewrite Hfi, <- Ht. by case_bool_decide.
    + assert ((A ++ (zmalloc m, v) :: (o, w) :: B) ≡ₚ (zmalloc m, v) :: A ++ (o, w) :: B) as Hp
        by solve_Permutation.
      destruct (Hlen _ Hp). by case_bool_decide.
Qed.

Definition free_values l (vs fs : list V) : list V := if lfree l then reverse vs ++ fs else fs.

Lemma listDelNode_spec m l A B o w :
  lrep m l (A ++ (o, w) :: B) ->
  yields m l (A ++ (o, w) :: B).*1 (free_values l [w] (freed m)) (listDelNode m l o) (A ++ B).
Proof.
  intros (Hs & Hnd & Hh & Ht & Hn & Hb). destruct (remove_spec m A B o w Hs Hnd)
    as (Ho & m' & E & Hs' & Hnd' & Hno & Ho' & F & W).
  unfold listDelNode. rewrite Ho. cbn [obind prev next value].
  set (l1 := match final A None with Some _ => l | None => set_ends l (first B None) (tail l) (len l) end).
  set (l2 := match first B None with Some _ => l1 | None => set_ends l1 (head l1) (final A None) (len l) end).
  assert (exists m1, (match final A None with
     | Some p => let? m := set_next m (Some p) (first B None) in Some (m, l)
     | None => Some (m, set_ends l (first B None) (tail l) (len l))
     end) = Some (m1, l1) /\
    (match first B None with
     | Some q => let? m := set_prev m1 (Some q) (final A None) in Some (m, l1)
     | None => Some (m1, set_ends l1 (head l1) (final A None) (len l1))
     end) = Some (m', l2)) as (m1 & -> & E2).
  { apply obind_Some in E as (m1 & E1 & E2). exists m1. unfold l2, l1 in *.
    destruct (final A None); [rewrite E1|injection E1 as ->]; (split; [done|]);
      (destruct (first B None); [rewrite E2; done|injection E2 as ->; done]). }
  cbn [obind]. rewrite E2. cbn [obind]. unfold zfree.
  assert (lfree l2 = lfree l) as Hfr by (unfold l2, l1; by destruct (first B None), (final A None)).
  assert (nodes (call_free l2 m' w) = nodes m') as Hcf by (unfold call_free; by destruct (lfree l2)).
  rewrite Hcf, Ho', Ho. cbn [obind]. eexists _, _. split; [done|]. split; [|split; [|split]].
  - split; [|split; [done|]].
    + eapply seg_frame; [|done]. intros b Hb'. cbn. rewrite lookup_delete_ne; [done|]. intros ->. done.
    + rewrite first_app in Hh |- *. rewrite final_app in Ht |- *. rewrite length_app in *. cbn [length first final] in *.
      split; [|split; [|split; [|lia]]].
      * unfold l2, l1. destruct A as [|[a x] A].
        { cbn. by destruct (first B None). }
        destruct (final ((a, x) :: A) None) eqn:Ef; [|by apply final_none in Ef].
        cbn in Hh |- *. by destruct (first B None).
      * unfold l2, l1. destruct B as [|[b x] B]; [done|]. cbn in Ht |- *. rewrite <- Ht.
        by destruct (final A None).
      * cbn [len set_ends]. assert (len l2 = len l) as -> by (unfold l2, l1; by destruct (first B None), (final A None)).
        rewrite Hn, wrapu_small by lia. lia.
  - intros b Hb'. cbn. rewrite fmap_app, elem_of_app in Hb'. cbn in Hb'. rewrite elem_of_cons in Hb'.
    rewrite lookup_delete_ne by (intros ->; tauto). apply W. rewrite fmap_app, elem_of_app. tauto.
  - unfold free_values, call_free. cbn. rewrite Hfr. by destruct (lfree l); cbn; rewrite F.
  - unfold l2, l1. by destruct (first B None), (final A None).
Qed.

Lemma listRotate_spec m l xs :
  lrep m l xs ->
  yields m l xs.*1 (freed m) (listRotate m l)
    (match last xs with Some x => x :: removelast xs | None => [] end).
Proof.
  intros Hl. pose proof Hl as (Hs & Hnd & Hh & Ht & Hn & Hb). unfold listRotate.
  destruct (decide (xs = [])) as [->|Hne].
  { rewrite Hn. cbn. by exists m, l. }
  destruct (exists_last Hne) as (ys & [t v] & ->). rewrite last_snoc, removelast_last.
  rewrite Hn, length_app. cbn [length]. rewrite final_app in Ht. cbn [final] in Ht. rewrite Ht.
  destruct (Z.leb_spec (Z.of_nat (length ys + 1)) 1).
  { assert (ys = []) as -> by (destruct ys; [done|cbn in *; lia]). by exists m, l. }
  destruct (exists_last (l := ys)) as (zs & [u x] & Ey); [intros ->; cbn in *; lia|].
  pose proof Hs as [Hys [Htn _]]%seg_app. cbn [node_at obind]. rewrite Htn. cbn [obind prev first].
  assert (NoDup ys.*1 /\ t ∉ ys.*1) as [Hndy Hty].
  { rewrite fmap_app in Hnd. apply NoDup_app in Hnd as (N1 & N2 & _). split; [done|]. intros Hin.
    apply (N2 t Hin). by left. }
  assert (final ys None = Some u) as Hfu by (rewrite Ey, final_app; done).
  destruct (set_next_final m None ys (Some t) None u Hys Hfu Hndy) as (m1 & E1 & S1 & F1 & W1).
  cbn [tail set_ends]. rewrite Hfu, E1. cbn [obind head set_ends].
  assert (u <> t) as Hut by (intros ->; by apply Hty, final_in').
  assert (head l = first ys None) as Hhy by (rewrite Hh, first_app; by destruct ys as [|[]]).
  destruct (set_prev_first m1 None (Some t) ys None S1) as (m2 & E2 & S2 & F2 & W2); [intros ->; done|done|].
  rewrite Hhy, E2. cbn [obind].
  assert (nodes m2 !! t = Some (Node (final ys None) None v)) as Ht2.
  { rewrite W2, W1; [done| |]; [by intros ->%list_elem_of_singleton|].
    destruct (first ys None) as [f|] eqn:Ef; cbn; [intros ->%list_elem_of_singleton|by intros ?%not_elem_of_nil].
    by apply Hty, first_in. }
  unfold set_prev at 1. cbn [obind]. rewrite Ht2. cbn [obind]. unfold set_next. cbn [obind].
  cbn [put nodes]. rewrite lookup_insert_eq. cbn [obind]. eexists _, _. split; [done|].
  split; [|split; [|split; [cbn; congruence|done]]].
  - split; [split|split; [|split; [|split; [|split]]]]; cbn [nodes put prev next value].
    + by rewrite lookup_insert_eq.
    + eapply seg_frame; [|exact S2]. intros b Hb'. rewrite !lookup_insert_ne by congruence. done.
    + cbn. by apply NoDup_cons.
    + done.
    + cbn. rewrite Ey, final_app. done.
    + cbn. lia.
    + cbn. rewrite length_app in Hb. cbn in Hb. lia.
  - intros b Hb'. rewrite fmap_app, elem_of_app in Hb'. cbn in Hb'. rewrite elem_of_cons in Hb'. cbn.
    rewrite !lookup_insert_ne by (intros ->; tauto). rewrite W2, W1; [done| |].
    + intros ->%list_elem_of_singleton. apply Hb'. left. by apply final_in'.
    + destruct (first ys None) as [f|] eqn:Ef; cbn; [intros ->%list_elem_of_singleton|by intros ?%not_elem_of_nil].
      apply Hb'. left. by apply first_in.
Qed.

(** ** Traversal *)

Definition matches l (key v : V) : bool :=
  match lmatch l with Some f => f v key | None => bool_decide (key = v) end.

Lemma search_loop_spec m l key pp xs fuel :
  seg (nodes m) pp xs None -> (length xs < fuel)%nat ->
  search_loop fuel m l (Iter (first xs None) AL_START_HEAD) key =
    Some (fst <$> List.find (fun x => matches l key x.2) xs).
Proof.
  revert pp fuel. induction xs as [|[a v] xs IH]; intros pp [|fuel] Hs Hf; try (cbn in Hf; lia); [done|].
  destruct Hs as [Ha Hs]. cbn [search_loop]. unfold listNext. cbn [first iter_next iter_direction]. rewrite Ha.
  cbn [obind next]. rewrite Ha. cbn [obind value List.find]. change (matches l key (a, v).2) with (matches l key v).
  unfold matches at 1. destruct (lmatch l) as [f|].
  - destruct (f v key); [done|]. apply (IH (Some a)); [done|cbn in Hf; lia].
  - case_bool_decide; [done|]. apply (IH (Some a)); [done|cbn in Hf; lia].
Qed.

Lemma listSearchKey_spec m l xs key :
  lrep m l xs -> listSearchKey m l key = Some (fst <$> List.find (fun x => matches l key x.2) xs).
Proof.
  intros (Hs & _ & Hh & _ & Hn & _). unfold listSearchKey, listGetIterator. rewrite Hh, Hn.
  apply (search_loop_spec _ _ _ None); [done|lia].
Qed.

Lemma index_forward m pp xs k :
  seg (nodes m) pp xs None -> index_loop k m AL_START_HEAD (first xs None) = Some (fst <$> xs !! k).
Proof.
  revert pp k. induction xs as [|[a v] xs IH]; intros pp [|k] Hs; try done. destruct Hs as [Ha Hs].
  cbn. rewrite Ha. cbn. by apply (IH (Some a)).
Qed.

Lemma index_backward m xs nn k :
  seg (nodes m) None xs nn -> index_loop k m AL_START_TAIL (final xs None) = Some (fst <$> reverse xs !! k).
Proof.
  revert nn k. induction xs as [|[a v] xs IH] using rev_ind; intros nn k Hs; [by destruct k|].
  apply seg_app in Hs as [Hs [Ha _]]. rewrite final_app, reverse_app. cbn. destruct k as [|k]; [done|].
  cbn. rewrite Ha. cbn. by eapply IH.
Qed.

(** The node at an index, counted from the end when it is negative. *)
Definition at_index xs (i : Z) : option (nat * V) :=
  if i <? 0 then reverse xs !! Z.to_nat (- i - 1) else xs !! Z.to_nat i.

Lemma listIndex_spec m l xs i :
  lrep m l xs -> - 2 ^ 63 < i -> listIndex m l i = Some (fst <$> at_index xs i).
Proof.
  intros (Hs & _ & Hh & Ht & _ & _) Hi. unfold listIndex, at_index. rewrite Hh, Ht.
  destruct (_ <? _); [|by eapply index_forward].
  rewrite (proj2 (Z.eqb_neq i _)) by lia. by eapply index_backward.
Qed.

(** ** Release and duplication *)

Lemma release_loop_spec m l pp xs :
  seg (nodes m) pp xs None -> NoDup xs.*1 ->
  exists m', release_loop (length xs) m l (first xs None) = Some m' /\ within xs.*1 m m' /\
    (forall a, a ∈ xs.*1 -> nodes m' !! a = None) /\ freed m' = free_values l xs.*2 (freed m).
Proof.
  revert m pp. induction xs as [|[a v] xs IH]; intros m pp Hs Hnd.
  { exists m. split; [done|]. split; [done|]. split; [by intros a ?%not_elem_of_nil|].
    unfold free_values. by destruct (lfree l). }
  destruct Hs as [Ha Hs]. apply NoDup_cons in Hnd as [Hna Hnd]. cbn [length release_loop first obind]. rewrite Ha.
  cbn [obind value next]. unfold zfree.
  assert (nodes (call_free l m v) = nodes m) as Hcf by (unfold call_free; by destruct (lfree l)).
  rewrite Hcf, Ha. cbn [obind]. set (m1 := Mem _ _).
  destruct (IH m1 (Some a)) as (m' & -> & W & N & F); [|done|].
  { eapply seg_frame; [|done]. intros b Hb. cbn. rewrite lookup_delete_ne; [done|]. intros ->. done. }
  exists m'. split; [done|]. split; [|split].
  - intros b Hb. cbn in Hb. rewrite elem_of_cons in Hb. rewrite W by tauto. cbn.
    rewrite lookup_delete_ne; [done|]. intros ->. tauto.
  - intros b [->|Hb]%elem_of_cons; [|by apply N]. cbn. rewrite W by done. cbn. apply lookup_delete_eq.
  - rewrite F. unfold free_values, m1, call_free. rewrite fmap_cons, reverse_cons, <- app_assoc.
    by destruct (lfree l).
Qed.

Lemma listRelease_spec m l xs :
  lrep m l xs ->
  exists m', listRelease m l = Some m' /\ within xs.*1 m m' /\
    (forall a, a ∈ xs.*1 -> nodes m' !! a = None) /\ freed m' = free_values l xs.*2 (freed m).
Proof.
  intros (Hs & Hnd & Hh & _ & Hn & _). unfold listRelease. rewrite Hh, Hn, Nat2Z.id. by eapply release_loop_spec.
Qed.

Lemma lrep_within m m' l xs D :
  lrep m l xs -> within D m m' -> (forall a, a ∈ D -> a ∉ xs.*1) -> lrep m' l xs.
Proof.
  intros (Hs & Hr) Hw Hd. split; [|done]. eapply seg_frame; [|done]. intros a Ha. apply Hw. intros Hin. by apply (Hd a).
Qed.

Definition dup_value l (v : V) : option V := match dup l with Some f => f v | None => Some v end.

(** What [listDup] returns and leaves in memory: a list of the copied values
    in nodes of its own, or null and the nodes there were. *)
Definition dup_outcome m l (vs : list V) (r : option (memory V * option (lst V))) : Prop :=
  match mapM (dup_value l) vs with
  | Some ws => exists m' copy ys, r = Some (m', Some copy) /\ lrep m' copy ys /\ ys.*2 = ws /\
      same_methods l copy /\ freed m' = freed m /\
      (forall a, a ∈ ys.*1 -> nodes m !! a = None) /\ within ys.*1 m m'
  | None => exists m', r = Some (m', None) /\ nodes m' = nodes m
  end.

Lemma mapM_snoc (f : V -> option V) vs ws v w :
  mapM f vs = Some ws -> f v = Some w -> mapM f (vs ++ [v]) = Some (ws ++ [w]).
Proof.
  rewrite !mapM_Some. intros Hv Hw. apply Forall2_app; [done|]. by constructor.
Qed.

Lemma dup_loop_spec m0 l (vs : list V) ys pp rest fuel m copy :
  seg (nodes m0) pp rest None -> (length rest < fuel)%nat -> dup copy = dup l -> same_methods l copy ->
  lrep m copy ys -> (forall a, a ∈ ys.*1 -> nodes m0 !! a = None) -> within ys.*1 m0 m -> freed m = freed m0 ->
  zlen ys + zlen rest < 2 ^ 64 ->
  mapM (dup_value l) vs = Some ys.*2 ->
  dup_outcome m0 l (vs ++ rest.*2) (dup_loop fuel m (Iter (first rest None) AL_START_HEAD) copy).
Proof.
  revert vs ys pp fuel m copy. induction rest as [|[a v] rest IH];
    intros vs ys pp [|fuel] m copy Hs Hf Hd Hsm Hl Hn Hw Hfr Hb Hm; try (cbn in Hf; lia).
  { cbn. rewrite app_nil_r. unfold dup_outcome. rewrite Hm. exists m, copy, ys. done. }
  destruct Hs as [Ha Hs].
  assert (nodes m !! a = Some (Node pp (first rest None) v)) as Ha'.
  { rewrite Hw; [done|]. intros Hin%Hn. congruence. }
  cbn [dup_loop]. unfold listNext. cbn [first iter_next iter_direction]. rewrite Ha'. cbn [obind next]. rewrite Ha'.
  cbn [obind value]. rewrite Hd. fold (dup_value l v). cbn [fmap list_fmap snd].
  destruct (dup_value l v) as [v'|] eqn:Ev.
  - destruct (listAddNodeTail_spec m copy ys v' Hl) as (m1 & c1 & -> & Hl1 & W1 & F1 & Hs1); [cbn in Hb; lia|].
    cbn [obind]. rewrite cons_middle, app_assoc.
    assert (nodes m0 !! zmalloc m = None) as Hz.
    { assert (nodes m !! zmalloc m = None) as Hz0 by (apply not_elem_of_dom, is_fresh).
      rewrite <- Hw; [done|]. apply (fresh_not_in m ys None None). by destruct Hl. }
    destruct Hsm as (M1 & M2 & M3). destruct Hs1 as (N1 & N2 & N3).
    apply (IH _ (ys ++ [(zmalloc m, v')]) (Some a)); try done.
    + cbn in Hf. lia.
    + congruence.
    + split_and!; congruence.
    + intros b. rewrite fmap_app, elem_of_app. intros [Hb'|Hb']; [by apply Hn|]. by apply list_elem_of_singleton in Hb' as ->.
    + intros b. rewrite fmap_app, elem_of_app. intros Hb'. rewrite W1, Hw; [done|tauto|].
      rewrite elem_of_cons. intros [Hz'|?]; [subst b|tauto]. apply Hb'. right. by left.
    + congruence.
    + rewrite length_app. cbn in *. lia.
    + rewrite fmap_app. by apply mapM_snoc.
  - destruct (listRelease_spec m copy ys Hl) as (m1 & -> & W1 & N1 & _). cbn [obind].
    unfold dup_outcome. rewrite (mapM_None_2 (dup_value l)) by (apply Exists_app; right; by left). exists m1. split; [done|].
    apply map_eq. intros b. destruct (decide (b ∈ ys.*1)) as [Hin|Hin]; [by rewrite N1, Hn|by rewrite W1, Hw].
Qed.

Lemma listDup_spec m l xs : lrep m l xs -> dup_outcome m l xs.*2 (listDup m l).
Proof.
  intros (Hs & Hnd & Hh & _ & Hn & Hb). unfold listDup, listGetIterator. rewrite Hh, Hn.
  apply (dup_loop_spec m l [] [] None); try done; [lia| |by intros a ?%not_elem_of_nil].
  split; [done|]. split; [apply NoDup_nil_2|]. done.
Qed.

(** ** Sequences of operations *)

(** What a client of the list may ask: the operations on nodes are reached
    through an index or a key.  [Copy] replaces the list by its duplicate. *)
Inductive op :=
| AddHead (v : V) | AddTail (v : V) | Insert (i : Z) (v : V) (after : bool)
| Remove (i : Z) | RemoveKey (key : V) | Get (i : Z) | Rotate | Copy.

Inductive answer := Done | Missing | Found (v : V) | Null.

Definition remove m l (n : option nat) : option (memory V * lst V * answer) :=
  match n with
  | None => Some (m, l, Missing)
  | Some a =>
      let? x := nodes m !! a in
      let? (m, l) := listDelNode m l a in
      Some (m, l, Found (value x))
  end.

Definition perform m l (o : op) : option (memory V * lst V * answer) :=
  match o with
  | AddHead v => let? (m, l) := listAddNodeHead m l v in Some (m, l, Done)
  | AddTail v => let? (m, l) := listAddNodeTail m l v in Some (m, l, Done)
  | Insert i v after =>
      let? n := listIndex m l i in
      match n with
      | None => Some (m, l, Missing)
      | Some a => let? (m, l) := listInsertNode m l a v after in Some (m, l, Done)
      end
  | Remove i => let? n := listIndex m l i in remove m l n
  | RemoveKey key => let? n := listSearchKey m l key in remove m l n
  | Get i =>
      let? n := listIndex m l i in
      match n with
      | None => Some (m, l, Missing)
      | Some a => let? x := nodes m !! a in Some (m, l, Found (value x))
      end
  | Rotate => let? (m, l) := listRotate m l in Some (m, l, Done)
  | Copy =>
      let? (m, c) := listDup m l in
      match c with
      | None => Some (m, l, Null)
      | Some c => let? m := listRelease m l in Some (m, c, Done)
      end
  end.

(** The same on a plain list, with the methods of [l]. *)
Definition position (n : nat) (i : Z) : option nat :=
  if i <? 0 then (if - i <=? Z.of_nat n then Some (Z.to_nat (Z.of_nat n + i)) else None)
  else if i <? Z.of_nat n then Some (Z.to_nat i) else None.

Fixpoint position_of (f : V -> bool) (vs : list V) : option nat :=
  match vs with
  | [] => None
  | v :: vs => if f v then Some 0%nat else S <$> position_of f vs
  end.

Definition ref_remove (vs : list V) (k : option nat) : list V * answer :=
  match k with
  | None => (vs, Missing)
  | Some k => (delete k vs, match vs !! k with Some v => Found v | None => Missing end)
  end.

Definition ref_perform l (vs : list V) (o : op) : list V * answer :=
  match o with
  | AddHead v => (v :: vs, Done)
  | AddTail v => (vs ++ [v], Done)
  | Insert i v after =>
      match position (length vs) i with
      | None => (vs, Missing)
      | Some k => let k := if after then S k else k in (take k vs ++ v :: drop k vs, Done)
      end
  | Remove i => ref_remove vs (position (length vs) i)
  | RemoveKey key => ref_remove vs (position_of (matches l key) vs)
  | Get i => (vs, match position (length vs) i with
                  | Some k => match vs !! k with Some v => Found v | None => Missing end
                  | None => Missing
                  end)
  | Rotate => (match last vs with Some v => v :: removelast vs | None => [] end, Done)
  | Copy => match mapM (dup_value l) vs with Some ws => (ws, Done) | None => (vs, Null) end
  end.

Lemma at_index_position {A} (xs : list A) i :
  (if i <? 0 then reverse xs !! Z.to_nat (- i - 1) else xs !! Z.to_nat i) =
    (let? k := position (length xs) i in xs !! k).
Proof.
  unfold position. destruct (Z.ltb_spec i 0).
  - destruct (Z.leb_spec (- i) (Z.of_nat (length xs))).
    + cbn [obind]. rewrite reverse_lookup by lia. f_equal. lia.
    + apply lookup_ge_None. rewrite length_reverse. lia.
  - destruct (Z.ltb_spec i (Z.of_nat (length xs))); [done|]. apply lookup_ge_None. lia.
Qed.

Lemma position_lt n i k : position n i = Some k -> (k < n)%nat.
Proof. unfold position. repeat case_match; try done; intros [= <-]; lia. Qed.

Lemma find_position (f : V -> bool) xs :
  List.find (fun x => f x.2) xs = (let? k := position_of f xs.*2 in xs !! k).
Proof.
  induction xs as [|[a v] xs IH]; [done|]. cbn. destruct (f v); [done|]. rewrite IH.
  by destruct (position_of f xs.*2).
Qed.

Lemma position_of_lt (f : V -> bool) vs k : position_of f vs = Some k -> (k < length vs)%nat.
Proof.
  revert k. induction vs as [|v vs IH]; intros k; [done|]. cbn. destruct (f v); [intros [= <-]; lia|].
  destruct (position_of f vs); [|done]. intros [= <-]. specialize (IH _ eq_refl). lia.
Qed.

(** The outcome of an operation on the nodes [xs]: the list holds [vs], the
    answer is [ans], and nodes of other lists are as they were. *)
Definition outcome m l xs (r : option (memory V * lst V * answer)) (vs : list V) (ans : answer) : Prop :=
  exists m' l' ys, r = Some (m', l', ans) /\ lrep m' l' ys /\ ys.*2 = vs /\ same_methods l l' /\
    (forall a, a ∈ ys.*1 -> a ∈ xs.*1 \/ nodes m !! a = None) /\
    (forall b, b ∉ xs.*1 -> is_Some (nodes m !! b) -> nodes m' !! b = nodes m !! b).

Lemma zmalloc_fresh m : nodes m !! zmalloc m = None.
Proof. apply not_elem_of_dom, is_fresh. Qed.

Lemma yields_outcome m l xs ys D fs r ans :
  yields m l D fs r ys -> (forall a, a ∈ D -> a ∈ xs.*1 \/ a = zmalloc m) ->
  (forall a, a ∈ ys.*1 -> a ∈ xs.*1 \/ a = zmalloc m) ->
  outcome m l xs (let? (m, l) := r in Some (m, l, ans)) ys.*2 ans.
Proof.
  intros (m' & l' & -> & Hl & W & _ & Hs) HD Hy. exists m', l', ys. split; [done|]. do 3 (split; [done|]). split.
  - intros a Ha. destruct (Hy a Ha) as [?|Hz]; [by left|]. right. rewrite Hz. apply zmalloc_fresh.
  - intros b Hb Hsome. apply W. intros Hin. destruct (HD b Hin) as [?|Hz]; [done|]. rewrite Hz, zmalloc_fresh in Hsome.
    by destruct Hsome.
Qed.

Lemma keeps_outcome m l xs ans : lrep m l xs -> outcome m l xs (Some (m, l, ans)) xs.*2 ans.
Proof. intros Hl. exists m, l, xs. do 4 (split; [done|]). split; auto. Qed.

Lemma split_at xs k x : xs !! k = Some x -> xs = take k xs ++ x :: drop (S k) xs.
Proof. intros. by rewrite take_drop_middle. Qed.

Lemma remove_outcome m l xs k x :
  lrep m l xs -> xs !! k = Some x -> outcome m l xs (remove m l (Some x.1)) (delete k xs.*2) (Found x.2).
Proof.
  intros Hl Hk. destruct x as [a v]. pose proof (split_at xs k _ Hk) as Hx. set (A := take k xs) in *.
  set (B := drop (S k) xs) in *.
  assert (delete k xs.*2 = (A ++ B).*2) as ->.
  { rewrite delete_take_drop, <- fmap_take, <- fmap_drop, fmap_app. done. }
  rewrite Hx in Hl. unfold remove. cbn [fst snd].
  pose proof Hl as ([_ [Ha _]]%seg_app & _). rewrite Ha. cbn [obind value].
  eapply yields_outcome; [by apply listDelNode_spec|rewrite <- Hx; auto|].
  intros c. rewrite Hx, !fmap_app, !elem_of_app. cbn. rewrite elem_of_cons. tauto.
Qed.

Definition op_ok (o : op) : Prop :=
  match o with Insert i _ _ | Remove i | Get i => - 2 ^ 63 < i | _ => True end.

Lemma index_cases m l xs i :
  lrep m l xs -> - 2 ^ 63 < i ->
  (position (length xs.*2) i = None /\ listIndex m l i = Some None) \/
  exists k x, position (length xs.*2) i = Some k /\ xs !! k = Some x /\ xs.*2 !! k = Some x.2 /\
    listIndex m l i = Some (Some x.1).
Proof.
  intros Hl Hi. rewrite (listIndex_spec m l xs i Hl Hi). unfold at_index. rewrite at_index_position, length_fmap.
  destruct (position (length xs) i) as [k|] eqn:Ek; [right|by left]. cbn [obind].
  destruct (lookup_lt_is_Some_2 xs k (position_lt _ _ _ Ek)) as [x Hx]. exists k, x.
  rewrite list_lookup_fmap, Hx. done.
Qed.

Lemma search_cases m l xs key :
  lrep m l xs ->
  (position_of (matches l key) xs.*2 = None /\ listSearchKey m l key = Some None) \/
  exists k x, position_of (matches l key) xs.*2 = Some k /\ xs !! k = Some x /\ xs.*2 !! k = Some x.2 /\
    listSearchKey m l key = Some (Some x.1).
Proof.
  intros Hl. rewrite (listSearchKey_spec m l xs key Hl), (find_position (matches l key)).
  destruct (position_of _ xs.*2) as [k|] eqn:Ek; [right|by left]. cbn [obind].
  apply position_of_lt in Ek as Hk. rewrite length_fmap in Hk.
  destruct (lookup_lt_is_Some_2 xs k Hk) as [x Hx]. exists k, x. rewrite list_lookup_fmap, Hx. done.
Qed.

Lemma copy_outcome m l xs :
  lrep m l xs ->
  let r := ref_perform l xs.*2 Copy in outcome m l xs (perform m l Copy) r.1 r.2.
Proof.
  intros Hl. cbn [perform ref_perform]. pose proof (listDup_spec m l xs Hl) as Hd. unfold dup_outcome in Hd.
  destruct (mapM (dup_value l) xs.*2) as [ws|].
  - destruct Hd as (m1 & c & ys & -> & Hc & Hy & Hs & Hf & Hn & W). cbn [obind fst snd].
    assert (forall a, a ∈ ys.*1 -> a ∉ xs.*1) as Hdis.
    { intros a Ha Hx. destruct Hl as [Hseg _]. destruct (seg_dom _ _ _ _ _ Hseg Hx) as [n Hn']. specialize (Hn a Ha). congruence. }
    destruct (listRelease_spec m1 l xs) as (m2 & -> & W2 & _ & _); [by eapply lrep_within|]. cbn [obind].
    exists m2, c, ys. split; [done|]. split; [|split; [done|split; [done|split; [by auto|]]]].
    + eapply lrep_within; [exact Hc|exact W2|]. intros a Hx Hy'. by apply (Hdis a).
    + intros b Hb Hsome. rewrite W2 by done. apply W. intros Hin. rewrite (Hn b Hin) in Hsome. by destruct Hsome.
  - destruct Hd as (m1 & -> & Hn). cbn [obind fst snd]. exists m1, l, xs. split; [done|].
    split; [split; [rewrite Hn; by destruct Hl|by destruct Hl]|]. do 2 (split; [done|]). rewrite Hn. auto.
Qed.

Lemma perform_outcome m l xs o :
  lrep m l xs -> zlen xs + 1 < 2 ^ 64 -> op_ok o ->
  let r := ref_perform l xs.*2 o in outcome m l xs (perform m l o) r.1 r.2.
Proof.
  intros Hl Hb Hok. pose proof (keeps_outcome m l xs) as Hkeep.
  destruct o as [v|v|i v after|i|key|i| |]; cbn [perform ref_perform fst snd].
  - eapply (yields_outcome m l xs ((zmalloc m, v) :: xs)); [by apply listAddNodeHead_spec| |];
      intros a [->|?]%elem_of_cons; auto.
  - replace (xs.*2 ++ [v]) with (xs ++ [(zmalloc m, v)]).*2 by by rewrite fmap_app.
    eapply yields_outcome; [by apply listAddNodeTail_spec| |]; intros a.
    + intros [->|?]%elem_of_cons; auto.
    + rewrite fmap_app, elem_of_app. cbn. rewrite list_elem_of_singleton. tauto.
  - destruct (index_cases m l xs i Hl Hok) as [[-> ->]|(k & [a w] & -> & Hk & _ & ->)]; cbn [obind fst snd]; [auto|].
    pose proof (split_at xs k _ Hk) as Hx. pose proof (lookup_lt_Some _ _ _ Hk) as Hlt.
    set (A := take k xs) in *. set (B := drop (S k) xs) in *.
    rewrite Hx in Hl, Hb. pose proof (listInsertNode_spec m l A B a w v after Hl Hb) as Hy.
    replace (take (if after then S k else k) xs.*2 ++ v :: drop (if after then S k else k) xs.*2)
      with ((if after then A ++ (a, w) :: (zmalloc m, v) :: B else A ++ (zmalloc m, v) :: (a, w) :: B).*2).
    2: { rewrite <- fmap_take, <- fmap_drop. destruct after.
         - rewrite (take_S_r _ _ _ Hk). rewrite !fmap_app. cbn. by rewrite <- app_assoc.
         - rewrite (drop_S _ _ _ Hk), fmap_app. done. }
    eapply yields_outcome; [exact Hy| |]; intros b.
    + rewrite <- Hx. intros [->|?]%elem_of_cons; auto.
    + rewrite Hx. destruct after; rewrite !fmap_app, !elem_of_app; cbn; rewrite !elem_of_cons; tauto.
  - destruct (index_cases m l xs i Hl Hok) as [[-> ->]|(k & x & -> & Hk & Hk2 & ->)]; cbn [obind fst snd ref_remove]; [by apply Hkeep|].
    rewrite Hk2. by apply remove_outcome.
  - destruct (search_cases m l xs key Hl) as [[-> ->]|(k & x & -> & Hk & Hk2 & ->)]; cbn [obind fst snd ref_remove]; [by apply Hkeep|].
    rewrite Hk2. by apply remove_outcome.
  - destruct (index_cases m l xs i Hl Hok) as [[-> ->]|(k & [a v] & -> & Hk & -> & ->)]; cbn [obind fst snd]; [by apply Hkeep|].
    rewrite (split_at xs k _ Hk) in Hl. pose proof Hl as ([_ [Ha _]]%seg_app & _). rewrite Ha. cbn [obind value].
    apply Hkeep. by rewrite <- (split_at xs k _ Hk) in Hl.
  - pose proof (listRotate_spec m l xs Hl) as Hr.
    replace (match last xs.*2 with Some v => v :: removelast xs.*2 | None => [] end)
      with ((match last xs with Some x => x :: removelast xs | None => [] end).*2).
    2: { destruct (decide (xs = [])) as [->|Hne]; [done|]. destruct (exists_last Hne) as (ys & x & ->).
         rewrite fmap_app. cbn. rewrite !last_snoc, !removelast_last. done. }
    eapply yields_outcome; [exact Hr|by auto|]. intros a Ha. left. revert Ha.
    destruct (decide (xs = [])) as [->|Hne]; [done|]. destruct (exists_last Hne) as (ys & x & ->).
    rewrite last_snoc, removelast_last, fmap_app, elem_of_app. cbn. rewrite elem_of_cons, list_elem_of_singleton. tauto.
  - by apply copy_outcome.
Qed.

Fixpoint run m l (os : list op) : option (memory V * lst V * list answer) :=
  match os with
  | [] => Some (m, l, [])
  | o :: os =>
      let? (m, l, a) := perform m l o in
      let? (m, l, r) := run m l os in
      Some (m, l, a :: r)
  end.

Fixpoint ref_run l (vs : list V) (os : list op) : list V * list answer :=
  match os with
  | [] => (vs, [])
  | o :: os => let '(vs, a) := ref_perform l vs o in let '(vs, r) := ref_run l vs os in (vs, a :: r)
  end.

Lemma ref_same_methods l l' vs o : same_methods l l' -> ref_perform l' vs o = ref_perform l vs o.
Proof.
  intros (Hd & _ & Hm). unfold ref_perform, matches. rewrite Hm.
  assert (forall v, dup_value l' v = dup_value l v) as Hv by (intros v; unfold dup_value; by rewrite Hd).
  by rewrite (mapM_ext (dup_value l') (dup_value l) vs Hv).
Qed.

Lemma ref_run_same_methods l l' vs os : same_methods l l' -> ref_run l' vs os = ref_run l vs os.
Proof.
  intros Hs. revert vs. induction os as [|o os IH]; intros vs; [done|]. cbn [ref_run].
  rewrite (ref_same_methods l l' vs o Hs). destruct (ref_perform l vs o) as [ws a]. by rewrite IH.
Qed.

Lemma ref_length l vs o : (length (ref_perform l vs o).1 <= S (length vs))%nat.
Proof.
  assert (forall k, length (ref_remove vs k).1 <= S (length vs))%nat as Hr.
  { intros [k|]; cbn; [|lia]. rewrite delete_take_drop, length_app, length_take, length_drop. lia. }
  destruct o; cbn [ref_perform]; auto.
  - cbn. rewrite length_app. cbn. lia.
  - destruct (position _ _); cbn; [|lia]. rewrite length_app. cbn. rewrite length_take, length_drop. lia.
  - destruct (decide (vs = [])) as [->|Hne]; [cbn; lia|]. destruct (exists_last Hne) as (ys & x & ->). cbn.
    rewrite last_snoc, removelast_last, length_app. cbn. lia.
  - destruct (mapM _ _) eqn:Em; cbn; [|lia]. apply length_mapM in Em. lia.
Qed.

Lemma run_spec os m l xs :
  lrep m l xs -> zlen xs + zlen os < 2 ^ 64 -> Forall op_ok os ->
  exists m' l' ys, run m l os = Some (m', l', (ref_run l xs.*2 os).2) /\ lrep m' l' ys /\
    ys.*2 = (ref_run l xs.*2 os).1 /\
    (forall b, b ∉ xs.*1 -> is_Some (nodes m !! b) -> b ∉ ys.*1 /\ nodes m' !! b = nodes m !! b).
Proof.
  revert m l xs. induction os as [|o os IH]; intros m l xs Hl Hb Hok; cbn [run ref_run].
  { exists m, l, xs. by auto. }
  apply Forall_cons in Hok as [Ho Hok]. cbn [length] in Hb.
  destruct (perform_outcome m l xs o Hl) as (m1 & l1 & ys & -> & Hl1 & Hy & Hs & Hn & Hf); [lia|done|].
  pose proof (ref_length l xs.*2 o) as Hlen. rewrite <- Hy, !length_fmap in Hlen.
  destruct (ref_perform l xs.*2 o) as [vs a] eqn:Er. cbn [fst snd obind] in *. subst vs.
  destruct (IH m1 l1 ys Hl1) as (m2 & l2 & zs & -> & Hl2 & Hz & Hf2); [lia|done|].
  rewrite (ref_run_same_methods l l1) in * by done. destruct (ref_run l ys.*2 os) as [ws r].
  cbn [fst snd obind] in *. exists m2, l2, zs. do 3 (split; [done|]). intros b Hbx Hbs.
  destruct (Hf2 b) as [Hbz E2]; [|by rewrite Hf|split; [done|by rewrite E2, Hf]].
  intros [?|Hnone]%Hn; [done|]. rewrite Hnone in Hbs. by destruct Hbs.
Qed.

(** C19: linked lists are lists.  Starting from an empty list with any
    methods, in a memory that may hold other lists, every sequence of fewer
    than 2^64 operations succeeds without following a null or dangling
    pointer, gives the answers and leaves the contents that the operations on
    plain sequences give, with links, ends and count in agreement, and leaves
    every other list as it was. *)
Theorem adlist_refines_list dp fr mt m os :
  Forall op_ok os -> zlen os < 2 ^ 64 ->
  exists m' l' ys, run m (List None None dp fr mt 0) os =
      Some (m', l', (ref_run (List None None dp fr mt 0) [] os).2) /\
    lrep m' l' ys /\ ys.*2 = (ref_run (List None None dp fr mt 0) [] os).1 /\
    (forall l0 zs, lrep m l0 zs -> lrep m' l0 zs).
Proof.
  intros Hok Hb. destruct (run_spec os m (List None None dp fr mt 0) []) as (m' & l' & ys & E & Hl & Hy & Hf); try done.
  { split; [done|]. split; [apply NoDup_nil_2|]. done. }
  exists m', l', ys. do 3 (split; [done|]). intros l0 zs Hz. destruct Hz as [Hs Hr]. split; [|done].
  eapply seg_frame; [|exact Hs]. intros a Ha. apply Hf; [apply not_elem_of_nil|]. by eapply seg_dom.
Qed.

End Lists.

(** ** The client list

    [server.clients] has no [match] method; the operations that the model of
    the chat server uses on it are those of the list. *)
Lemma clients_rotate (l : lst nat) (vs : list nat) : (ref_perform l vs Rotate).1 = Chat.rotate vs.
Proof. done. Qed.

Lemma clients_delete (l : lst nat) (vs : list nat) (p : nat) :
  lmatch l = None ->
  Chat.del_node p vs = match ref_perform l vs (RemoveKey p) with (ws, Found _) => Some ws | _ => None end.
Proof.
  intros Hm. cbn [ref_perform]. unfold matches. rewrite Hm.
  induction vs as [|v vs IH]; [done|]. cbn [Chat.del_node position_of].
  destruct (decide (v = p)) as [->|Hne]; [by rewrite !bool_decide_eq_true_2|].
  rewrite !bool_decide_eq_false_2 by congruence. rewrite IH. destruct (position_of _ vs) as [k|]; [|done]. cbn.
  by destruct (vs !! k).
Qed.

Module Demo.

Definition demo_ops : list (op (V := nat)) :=
  [AddTail 10%nat; AddTail 11%nat; AddHead 9%nat; Insert (-1) 12%nat true; Rotate; RemoveKey 10%nat;
   Get 1; Remove (-1); Get 5; Copy].

Lemma adlist_refines_list_witness :
  zlen demo_ops < 2 ^ 64 /\ exists m' l' ys,
    run (Mem ∅ []) (List None None None true None 0) demo_ops =
      Some (m', l', [Done; Done; Done; Done; Done; Found 10%nat; Found 9%nat; Found 11%nat; Missing; Done]) /\
    lrep m' l' ys /\ ys.*2 = [12%nat; 9%nat].
Proof.
  split; [done|].
  destruct (adlist_refines_list None true None (Mem ∅ []) demo_ops) as (m' & l' & ys & E & Hl & Hy & _).
  - repeat constructor.
  - done.
  - exists m', l', ys. split; [rewrite E; reflexivity|]. split; [exact Hl|rewrite Hy; reflexivity].
Defined.

End Demo.

End AdlistProofs.
