(* ===== verification/Ae.v ===== *)
(** * ae.c, ae_epoll.c: the event loop of the chat server

    The loop keeps a table of file events indexed by descriptor, mirrored in
    the kernel's interest list, and an unordered list of time events.  The
    handlers belong to other files: they are parameters here, and may change
    the loop. *)

From S2P Require Import Prelude.

Module Ae.

Definition AE_NONE : Z := 0.
Definition AE_READABLE : Z := 1.
Definition AE_WRITABLE : Z := 2.
Definition AE_FILE_EVENTS : Z := 1.
Definition AE_TIME_EVENTS : Z := 2.
Definition AE_DONT_WAIT : Z := 4.
Definition AE_NOMORE : Z := -1.
Definition AE_OK : Z := 0.
Definition AE_ERR : Z := -1.

Section Loop.

(** Handlers and their client data are pointers. *)
Context {proc data : Type} `{EqDecision proc}.

Record aeFileEvent := FileEvent { mask : Z; rfileProc : proc; wfileProc : proc; clientData : data }.

Record aeTimeEvent := TimeEvent {
  te_id : Z; when_sec : Z; when_ms : Z; timeProc : proc; finalizerProc : option proc; te_data : data
}.

(** [timeEventHead] is the list it heads; [interest] is the kernel's list
    for the [epoll] descriptor of the loop. *)
Record aeEventLoop := EventLoop {
  maxfd : Z; setsize : Z; timeEventNextId : Z; lastTime : Z;
  events : list aeFileEvent; timers : list aeTimeEvent; stop : Z;
  interest : gmap Z Z
}.

Definition set_events (l : aeEventLoop) x : aeEventLoop :=
  EventLoop (maxfd l) (setsize l) (timeEventNextId l) (lastTime l) x (timers l) (stop l) (interest l).
Definition set_maxfd (l : aeEventLoop) x : aeEventLoop :=
  EventLoop x (setsize l) (timeEventNextId l) (lastTime l) (events l) (timers l) (stop l) (interest l).
Definition set_timers (l : aeEventLoop) x : aeEventLoop :=
  EventLoop (maxfd l) (setsize l) (timeEventNextId l) (lastTime l) (events l) x (stop l) (interest l).
Definition set_nextId (l : aeEventLoop) x : aeEventLoop :=
  EventLoop (maxfd l) (setsize l) x (lastTime l) (events l) (timers l) (stop l) (interest l).
Definition set_lastTime (l : aeEventLoop) x : aeEventLoop :=
  EventLoop (maxfd l) (setsize l) (timeEventNextId l) x (events l) (timers l) (stop l) (interest l).
Definition set_interest (l : aeEventLoop) x : aeEventLoop :=
  EventLoop (maxfd l) (setsize l) (timeEventNextId l) (lastTime l) (events l) (timers l) (stop l) x.
Definition set_stop (l : aeEventLoop) x : aeEventLoop :=
  EventLoop (maxfd l) (setsize l) (timeEventNextId l) (lastTime l) (events l) (timers l) x (interest l).
Definition set_setsize (l : aeEventLoop) x : aeEventLoop :=
  EventLoop (maxfd l) x (timeEventNextId l) (lastTime l) (events l) (timers l) (stop l) (interest l).

Definition set_mask (fe : aeFileEvent) x : aeFileEvent :=
  FileEvent x (rfileProc fe) (wfileProc fe) (clientData fe).

(** ** The kernel *)

Inductive epoll_op := EPOLL_CTL_ADD | EPOLL_CTL_MOD | EPOLL_CTL_DEL.

(** [epoll_ctl]: an entry is added once, and modified or removed only when
    it is there. *)
Definition epoll_ctl (op : epoll_op) (fd m : Z) (k : gmap Z Z) : option (gmap Z Z) :=
  match op, k !! fd with
  | EPOLL_CTL_ADD, None | EPOLL_CTL_MOD, Some _ => Some (<[fd:=m]> k)
  | EPOLL_CTL_DEL, Some _ => Some (delete fd k)
  | _, _ => None
  end.

(** [ok] is false when the kernel refuses for want of memory or because the
    descriptor cannot be polled. *)
Definition aeApiAddEvent (l : aeEventLoop) (fd m : Z) (ok : bool) : option (Z * aeEventLoop) :=
  let? fe := zget (events l) fd in
  let op := if mask fe =? AE_NONE then EPOLL_CTL_ADD else EPOLL_CTL_MOD in
  match (if ok then epoll_ctl op fd (m |. mask fe) (interest l) else None) with
  | None => Some (-1, l)
  | Some k => Some (0, set_interest l k)
  end.

(** The result of [epoll_ctl] is not looked at. *)
Definition aeApiDelEvent (l : aeEventLoop) (fd delmask : Z) : option aeEventLoop :=
  let? fe := zget (events l) fd in
  let m := mask fe &. ~. delmask in
  let r := if negb (m =? AE_NONE) then epoll_ctl EPOLL_CTL_MOD fd m (interest l)
           else epoll_ctl EPOLL_CTL_DEL fd m (interest l) in
  Some (match r with Some k => set_interest l k | None => l end).

(** ** The table of file events *)

(** Fresh memory holds some records with any contents; their masks are then
    cleared. *)
Definition aeCreateEventLoop (size now : Z) (junk : list aeFileEvent) : aeEventLoop :=
  EventLoop (-1) size 0 now ((fun fe => set_mask fe AE_NONE) <$> take (Z.to_nat size) junk) [] 0 ∅.

Definition aeGetSetSize (l : aeEventLoop) : Z := setsize l.

(** The loop that clears the masks from index [i] on. *)
Fixpoint clear_masks (n : nat) (i : Z) (fes : list aeFileEvent) : option (list aeFileEvent) :=
  match n with
  | O => Some fes
  | S n =>
      let? fe := zget fes i in
      let? fes := zset fes i (set_mask fe AE_NONE) in
      clear_masks n (i + 1) fes
  end.

Definition aeResizeSetSize (l : aeEventLoop) (size : Z) (junk : list aeFileEvent) : option (Z * aeEventLoop) :=
  if size =? setsize l then Some (AE_OK, l)
  else if size <=? maxfd l then Some (AE_ERR, l)
  else
    let fes := take (Z.to_nat size) (events l ++ junk) in
    let? fes := clear_masks (Z.to_nat (size - (maxfd l + 1))) (maxfd l + 1) fes in
    Some (AE_OK, set_setsize (set_events l fes) size).

Definition aeCreateFileEvent (l : aeEventLoop) (fd m : Z) (p : proc) (d : data) (ok : bool)
  : option (Z * aeEventLoop) :=
  if setsize l <=? fd then Some (AE_ERR, l)
  else
    let? (r, l) := aeApiAddEvent l fd m ok in
    if r =? -1 then Some (AE_ERR, l)
    else
      let? fe := zget (events l) fd in
      let fe := FileEvent (mask fe |. m)
                  (if negb (m &. AE_READABLE =? 0) then p else rfileProc fe)
                  (if negb (m &. AE_WRITABLE =? 0) then p else wfileProc fe) d in
      let? fes := zset (events l) fd fe in
      let l := set_events l fes in
      Some (AE_OK, if maxfd l <? fd then set_maxfd l fd else l).

(** [for (j = maxfd-1; j >= 0; j--) if (events[j].mask != AE_NONE) break;] *)
Fixpoint prev_fd (fuel : nat) (fes : list aeFileEvent) (j : Z) : option Z :=
  if j <? 0 then Some j else
  match fuel with
  | O => None
  | S fuel =>
      let? fe := zget fes j in
      if negb (mask fe =? AE_NONE) then Some j else prev_fd fuel fes (j - 1)
  end.

Definition aeDeleteFileEvent (l : aeEventLoop) (fd m : Z) : option aeEventLoop :=
  if setsize l <=? fd then Some l
  else
    let? fe := zget (events l) fd in
    if mask fe =? AE_NONE then Some l
    else
      let fe := set_mask fe (mask fe &. ~. m) in
      let? fes := zset (events l) fd fe in
      let l := set_events l fes in
      let? l :=
        (if (fd =? maxfd l) && (mask fe =? AE_NONE) then
           let? j := prev_fd (Z.to_nat (maxfd l)) (events l) (maxfd l - 1) in
           Some (set_maxfd l j)
         else Some l) in
      aeApiDelEvent l fd m.

Definition aeGetFileEvents (l : aeEventLoop) (fd : Z) : option Z :=
  if setsize l <=? fd then Some 0
  else let? fe := zget (events l) fd in Some (mask fe).

(** ** Time events *)

(** [now] is a reading of the clock in seconds and milliseconds. *)
Definition aeAddMillisecondsToNow (now : Z * Z) (milliseconds : Z) : Z * Z :=
  let sec := now.1 + Z.quot milliseconds 1000 in
  let ms := now.2 + Z.rem milliseconds 1000 in
  if 1000 <=? ms then (sec + 1, ms - 1000) else (sec, ms).

Definition aeCreateTimeEvent (l : aeEventLoop) (now : Z * Z) (milliseconds : Z) (p : proc) (d : data)
    (fin : option proc) : Z * aeEventLoop :=
  let id := timeEventNextId l in
  let l := set_nextId l (s64 (id + 1)) in
  let w := aeAddMillisecondsToNow now milliseconds in
  (id, set_timers l (TimeEvent id w.1 w.2 p fin d :: timers l)).

(** The first event with the identifier, and the list without it. *)
Fixpoint unlink_timer (id : Z) (ts : list aeTimeEvent) : option (aeTimeEvent * list aeTimeEvent) :=
  match ts with
  | [] => None
  | te :: ts =>
      if te_id te =? id then Some (te, ts)
      else let? (x, ts) := unlink_timer id ts in Some (x, te :: ts)
  end.

Definition earlier (a b : aeTimeEvent) : bool :=
  (when_sec a <? when_sec b) || ((when_sec a =? when_sec b) && (when_ms a <? when_ms b)).

Fixpoint nearest_loop (ts : list aeTimeEvent) (nearest : option aeTimeEvent) : option aeTimeEvent :=
  match ts with
  | [] => nearest
  | te :: ts =>
      nearest_loop ts (match nearest with
                       | None => Some te
                       | Some n => if earlier te n then Some te else nearest
                       end)
  end.

Definition aeSearchNearestTimer (l : aeEventLoop) : option aeTimeEvent := nearest_loop (timers l) None.

Definition due (now : Z * Z) (te : aeTimeEvent) : bool :=
  (when_sec te <? now.1) || ((now.1 =? when_sec te) && (when_ms te <=? now.2)).

(** The time to sleep, [tv_sec] and [tv_usec]. *)
Definition sleep_time (now : Z * Z) (shortest : aeTimeEvent) : Z * Z :=
  let sec := when_sec shortest - now.1 in
  let '(sec, usec) :=
    if when_ms shortest <? now.2 then (sec - 1, (when_ms shortest + 1000 - now.2) * 1000)
    else (sec, (when_ms shortest - now.2) * 1000) in
  (if sec <? 0 then 0 else sec, if usec <? 0 then 0 else usec).

(** The timeout [aeApiPoll] passes to [epoll_wait], an [int] of
    milliseconds. *)
Definition poll_timeout (tv : option (Z * Z)) : Z :=
  match tv with Some (sec, usec) => s32 (sec * 1000 + Z.quot usec 1000) | None => -1 end.

Definition EPOLLIN : Z := 1.
Definition EPOLLOUT : Z := 4.
Definition EPOLLERR : Z := 8.
Definition EPOLLHUP : Z := 16.

(** The mask of the loop for a set of [epoll] events. *)
Definition fired_mask (e : Z) : Z :=
  let m := AE_NONE in
  let m := if negb (e &. EPOLLIN =? 0) then m |. AE_READABLE else m in
  let m := if negb (e &. EPOLLOUT =? 0) then m |. AE_WRITABLE else m in
  let m := if negb (e &. EPOLLERR =? 0) then m |. AE_WRITABLE else m in
  if negb (e &. EPOLLHUP =? 0) then m |. AE_WRITABLE else m.

(** [epoll_wait timeout k] are the ready descriptors of the interest list
    [k], at most as many as asked for. *)
Definition aeApiPoll (epoll_wait : Z -> Z -> gmap Z Z -> list (Z * Z)) (l : aeEventLoop) (tv : option (Z * Z))
  : list (Z * Z) :=
  (fun e => (e.1, fired_mask e.2)) <$> epoll_wait (setsize l) (poll_timeout tv) (interest l).

(** ** The loop

    [W] is the rest of the program; [clock n] is the [n]-th reading of the
    time, and a handler may read it too.  A finalizer gets no event to work
    on and may only change the rest of the program. *)
Context {W : Type}
  (clock : nat -> Z * Z)
  (file_proc : proc -> W -> nat -> aeEventLoop -> Z -> data -> Z -> option (W * nat * aeEventLoop))
  (time_proc : proc -> W -> nat -> aeEventLoop -> Z -> data -> option (Z * W * nat * aeEventLoop))
  (final_proc : proc -> W -> data -> W).

Record st := St { world : W; readings : nat; el : aeEventLoop }.

Definition aeDeleteTimeEvent (s : st) (id : Z) : Z * st :=
  match unlink_timer id (timers (el s)) with
  | Some (te, ts) =>
      let w := match finalizerProc te with Some f => final_proc f (world s) (te_data te) | None => world s end in
      (AE_OK, St w (readings s) (set_timers (el s) ts))
  | None => (AE_ERR, s)
  end.

(** The event with the identifier gets a new time. *)
Fixpoint reschedule (id : Z) (w : Z * Z) (ts : list aeTimeEvent) : option (list aeTimeEvent) :=
  match ts with
  | [] => None
  | te :: ts =>
      if te_id te =? id
      then Some (TimeEvent (te_id te) w.1 w.2 (timeProc te) (finalizerProc te) (te_data te) :: ts)
      else let? ts := reschedule id w ts in Some (te :: ts)
  end.

(** The loop of [processTimeEvents]; [k] is the position of [te] in the
    list.  Writing to an event that its own handler has deleted is a fault. *)
Fixpoint time_loop (fuel : nat) (s : st) (maxId : Z) (k : nat) (processed : Z) : option (Z * st) :=
  match fuel with
  | O => None
  | S fuel =>
      match timers (el s) !! k with
      | None => Some (processed, s)
      | Some te =>
          if maxId <? te_id te then time_loop fuel s maxId (S k) processed
          else
            let now := clock (readings s) in
            let s := St (world s) (S (readings s)) (el s) in
            if due now te then
              let? (retval, w, n, l) := time_proc (timeProc te) (world s) (readings s) (el s) (te_id te) (te_data te) in
              let? s :=
                (if negb (retval =? AE_NOMORE) then
                   let? ts := reschedule (te_id te) (aeAddMillisecondsToNow (clock n) retval) (timers l) in
                   Some (St w (S n) (set_timers l ts))
                 else Some (aeDeleteTimeEvent (St w n l) (te_id te)).2) in
              time_loop fuel s maxId 0 (processed + 1)
            else time_loop fuel s maxId (S k) processed
      end
  end.

Definition reset_when (te : aeTimeEvent) : aeTimeEvent :=
  TimeEvent (te_id te) 0 (when_ms te) (timeProc te) (finalizerProc te) (te_data te).

(** [now] is the result of [time]. *)
Definition processTimeEvents (fuel : nat) (s : st) (now : Z) : option (Z * st) :=
  let l := el s in
  let l := if now <? lastTime l then set_timers l (reset_when <$> timers l) else l in
  let l := set_lastTime l now in
  time_loop fuel (St (world s) (readings s) l) (timeEventNextId l - 1) 0 0.

(** The loop over the fired events. *)
Fixpoint file_loop (fired : list (Z * Z)) (s : st) (processed : Z) : option (Z * st) :=
  match fired with
  | [] => Some (processed, s)
  | (fd, m) :: fired =>
      let? fe := zget (events (el s)) fd in
      let rfired := negb (mask fe &. m &. AE_READABLE =? 0) in
      let? s :=
        (if rfired then
           let? (w, n, l) := file_proc (rfileProc fe) (world s) (readings s) (el s) fd (clientData fe) m in
           Some (St w n l)
         else Some s) in
      let? fe := zget (events (el s)) fd in
      let? s :=
        (if negb (mask fe &. m &. AE_WRITABLE =? 0) && (negb rfired || negb (bool_decide (wfileProc fe = rfileProc fe))) then
           let? (w, n, l) := file_proc (wfileProc fe) (world s) (readings s) (el s) fd (clientData fe) m in
           Some (St w n l)
         else Some s) in
      file_loop fired s (processed + 1)
  end.

(** [time] is the result of [time] in [processTimeEvents]. *)
Definition aeProcessEvents (fuel : nat) (epoll_wait : Z -> Z -> gmap Z Z -> list (Z * Z)) (time : Z)
    (s : st) (flags : Z) : option (Z * st) :=
  let times := negb (flags &. AE_TIME_EVENTS =? 0) in
  let wait := flags &. AE_DONT_WAIT =? 0 in
  if negb times && (flags &. AE_FILE_EVENTS =? 0) then Some (0, s)
  else
    let? (processed, s) :=
      (if negb (maxfd (el s) =? -1) || (times && wait) then
         let shortest := if times && wait then aeSearchNearestTimer (el s) else None in
         let '(tv, s) :=
           match shortest with
           | Some te =>
               (Some (sleep_time (clock (readings s)) te), St (world s) (S (readings s)) (el s))
           | None => (if wait then None else Some (0, 0), s)
           end in
         file_loop (aeApiPoll epoll_wait (el s) tv) s 0
       else Some (0, s)) in
    if times then
      let? (n, s) := processTimeEvents fuel s time in
      Some (processed + n, s)
    else Some (processed, s).

Definition aeStop (l : aeEventLoop) : aeEventLoop := set_stop l 1.

(** The turns of [aeMain], each with what the kernel and [time] answer in
    it; [true] when the loop has stopped. *)
Fixpoint main_loop (fuel : nat) (beforesleep : option (W -> aeEventLoop -> W * aeEventLoop))
    (turns : list ((Z -> Z -> gmap Z Z -> list (Z * Z)) * Z)) (s : st) : option (bool * st) :=
  if negb (stop (el s) =? 0) then Some (true, s)
  else
    match turns with
    | [] => Some (false, s)
    | (epoll_wait, time) :: turns =>
        let s := match beforesleep with
                 | Some f => let '(w, l) := f (world s) (el s) in St w (readings s) l
                 | None => s
                 end in
        let? (_, s) := aeProcessEvents fuel epoll_wait time s (AE_FILE_EVENTS |. AE_TIME_EVENTS) in
        main_loop fuel beforesleep turns s
    end.

Definition aeMain (fuel : nat) (beforesleep : option (W -> aeEventLoop -> W * aeEventLoop))
    (turns : list ((Z -> Z -> gmap Z Z -> list (Z * Z)) * Z)) (s : st) : option (bool * st) :=
  main_loop fuel beforesleep turns (St (world s) (readings s) (set_stop (el s) 0)).

End Loop.

Arguments aeFileEvent : clear implicits.
Arguments aeTimeEvent : clear implicits.
Arguments aeEventLoop : clear implicits.
Arguments st : clear implicits.

End Ae.
