(* ===== verification/AeSpec.v ===== *)
(** * What the event loop promises

    The table of file events implements a map from descriptors to masks that
    the kernel's interest list follows exactly; time events fire when they
    are due and only then. *)

From S2P Require Import Prelude Ae.
Import Ae.

Module AeProofs.

Section Table.
Context {proc data : Type} `{EqDecision proc}.
Implicit Types (l : aeEventLoop proc data) (fe : aeFileEvent proc data).

(** ** The table of file events *)

(** The mask registered for a descriptor. *)
Definition mask_at (regs : gmap Z Z) (fd : Z) : Z := default 0 (regs !! fd).

Record table_ok l : Prop := {
  ok_size : zlen (events l) = setsize l;
  ok_masks : forall fd fe, zget (events l) fd = Some fe -> 0 <= mask fe <= 3 /\ mask fe = mask_at (interest l) fd;
  ok_interest : forall fd m, interest l !! fd = Some m -> m <> 0 /\ 0 <= fd < setsize l;
  ok_maxfd : -1 <= maxfd l < setsize l /\ (maxfd l = -1 \/ is_Some (interest l !! maxfd l));
  ok_above : forall fd m, interest l !! fd = Some m -> fd <= maxfd l
}.

(** What a client of the table may ask. *)
Inductive op :=
| Create (fd m : Z) (p : proc) (d : data) (ok : bool)
| Delete (fd m : Z)
| Query (fd : Z)
| Resize (n : Z) (junk : list (aeFileEvent proc data)).

Definition op_ok (o : op) : Prop :=
  match o with
  | Create fd m _ _ _ | Delete fd m => 0 <= fd /\ 1 <= m <= 3
  | Query fd => 0 <= fd
  | Resize n junk => 0 < n <= zlen junk
  end.

Definition perform l (o : op) : option (Z * aeEventLoop proc data) :=
  match o with
  | Create fd m p d ok => aeCreateFileEvent l fd m p d ok
  | Delete fd m => let? l := aeDeleteFileEvent l fd m in Some (0, l)
  | Query fd => let? m := aeGetFileEvents l fd in Some (m, l)
  | Resize n junk => aeResizeSetSize l n junk
  end.

(** The same on a size and a map. *)
Definition put_mask (fd m : Z) (regs : gmap Z Z) : gmap Z Z :=
  if m =? 0 then delete fd regs else <[fd:=m]> regs.

Definition ref_perform (size : Z) (regs : gmap Z Z) (o : op) : Z * (Z * gmap Z Z) :=
  match o with
  | Create fd m _ _ ok =>
      if (size <=? fd) || negb ok then (AE_ERR, (size, regs))
      else (AE_OK, (size, put_mask fd (mask_at regs fd |. m)%C regs))
  | Delete fd m => (0, (size, put_mask fd (mask_at regs fd &. ~. m)%C regs))
  | Query fd => (mask_at regs fd, (size, regs))
  | Resize n _ =>
      if bool_decide (map_Exists (fun fd _ => n <= fd) regs) then (AE_ERR, (size, regs)) else (AE_OK, (n, regs))
  end.

Lemma land_mask a b : 0 <= a <= 3 -> 0 <= Z.land a b <= 3.
Proof.
  intros Ha. assert (Z.land a b = Z.land (Z.land a b) 3) as ->.
  { rewrite <- Z.land_assoc, (Z.land_comm b 3), Z.land_assoc. f_equal.
    assert (a = 0 \/ a = 1 \/ a = 2 \/ a = 3) as Hc by lia. by destruct_or! Hc; subst. }
  change (Z.land (Z.land a b) 3) with (Z.land (Z.land a b) (Z.ones 2)). rewrite Z.land_ones by lia.
  change (2 ^ 2) with 4. pose proof (Z.mod_pos_bound (Z.land a b) 4 ltac:(lia)). lia.
Qed.

Lemma lor_mask a b : 0 <= a <= 3 -> 1 <= b <= 3 -> 1 <= Z.lor a b <= 3.
Proof.
  intros Ha Hb. assert (a = 0 \/ a = 1 \/ a = 2 \/ a = 3) as Hc by lia.
  assert (b = 1 \/ b = 2 \/ b = 3) as Hd by lia. by destruct_or! Hc; destruct_or! Hd; subst.
Qed.

Lemma table_get l fd : table_ok l -> 0 <= fd < setsize l ->
  exists fe, zget (events l) fd = Some fe /\ 0 <= mask fe <= 3 /\ mask fe = mask_at (interest l) fd.
Proof.
  intros Hok Hfd. destruct (zget_is_Some (events l) fd) as [fe E]; [rewrite (ok_size l Hok); lia|].
  exists fe. split; [done|]. by apply (ok_masks l Hok).
Qed.

Lemma mask_at_out l fd : table_ok l -> setsize l <= fd -> mask_at (interest l) fd = 0.
Proof.
  intros Hok Hfd. unfold mask_at. destruct (interest l !! fd) eqn:E; [|done].
  apply (ok_interest l Hok) in E. lia.
Qed.

Lemma mask_at_Some regs fd m : regs !! fd = Some m -> mask_at regs fd = m.
Proof. unfold mask_at. by intros ->. Qed.

Lemma mask_at_put fd m regs fd' : mask_at (put_mask fd m regs) fd' = if bool_decide (fd' = fd) then m else mask_at regs fd'.
Proof.
  unfold put_mask, mask_at. case_bool_decide as E.
  - subst. destruct (Z.eqb_spec m 0) as [->|]; [by rewrite lookup_delete_eq|by rewrite lookup_insert_eq].
  - destruct (m =? 0); [by rewrite lookup_delete_ne|by rewrite lookup_insert_ne].
Qed.

(** Storing a mask in the table and in the kernel. *)
Lemma stored_masks l fd fe m :
  table_ok l -> 0 <= fd -> mask fe = m -> 0 <= m <= 3 ->
  forall f fe', zget (<[Z.to_nat fd:=fe]> (events l)) f = Some fe' ->
    0 <= mask fe' <= 3 /\ mask fe' = mask_at (put_mask fd m (interest l)) f.
Proof.
  intros Hok Hfd Hm Hb f fe' [Hf Hfe]%zget_Some. rewrite mask_at_put.
  apply list_lookup_insert_Some in Hfe as [(Ef & -> & _)|[Hne Hfe]].
  - rewrite bool_decide_eq_true_2 by lia. by subst.
  - rewrite bool_decide_eq_false_2 by congruence. apply (ok_masks l Hok). by apply zget_Some.
Qed.

Lemma put_mask_range l fd m :
  table_ok l -> 0 <= fd < setsize l ->
  forall f m', put_mask fd m (interest l) !! f = Some m' -> m' <> 0 /\ 0 <= f < setsize l.
Proof.
  intros Hok Hfd f m' Hf. unfold put_mask in Hf. destruct (Z.eqb_spec m 0).
  - apply lookup_delete_Some in Hf as [_ Hf]. by apply (ok_interest l Hok).
  - apply lookup_insert_Some in Hf as [[<- <-]|[_ Hf]]; [done|]. by apply (ok_interest l Hok).
Qed.

(** The table stays right when the greatest descriptor is kept up. *)
Lemma update_ok l fd fe m mx :
  table_ok l -> 0 <= fd < setsize l -> mask fe = m -> 0 <= m <= 3 ->
  (forall fd', is_Some (put_mask fd m (interest l) !! fd') -> fd' <= mx) ->
  -1 <= mx < setsize l -> mx = -1 \/ is_Some (put_mask fd m (interest l) !! mx) ->
  table_ok (set_interest (set_maxfd (set_events l (<[Z.to_nat fd:=fe]> (events l))) mx) (put_mask fd m (interest l))).
Proof.
  intros Hok Hfd Hm Hb Hab Hmx Hmx'. split; cbn.
  - rewrite length_insert. apply (ok_size l Hok).
  - apply stored_masks; try done; lia.
  - by apply put_mask_range.
  - done.
  - intros f m' Hf. apply Hab. by exists m'.
Qed.

Lemma put_mask_is_Some fd m regs fd' :
  is_Some (put_mask fd m regs !! fd') <-> (fd' = fd /\ m <> 0) \/ (fd' <> fd /\ is_Some (regs !! fd')).
Proof.
  unfold put_mask. destruct (Z.eqb_spec m 0) as [->|Hm].
  - rewrite lookup_delete_is_Some. naive_solver.
  - rewrite lookup_insert_is_Some. destruct (decide (fd' = fd)); naive_solver.
Qed.

Lemma epoll_add l fd m :
  table_ok l -> 1 <= m <= 3 ->
  epoll_ctl (if mask_at (interest l) fd =? AE_NONE then EPOLL_CTL_ADD else EPOLL_CTL_MOD) fd m (interest l) =
    Some (put_mask fd m (interest l)).
Proof.
  intros Hok Hm. unfold put_mask. rewrite (proj2 (Z.eqb_neq m 0)) by lia.
  destruct (interest l !! fd) as [m'|] eqn:E.
  - rewrite (mask_at_Some _ _ _ E). apply (ok_interest l Hok) in E as Hm'. unfold AE_NONE.
    rewrite (proj2 (Z.eqb_neq m' 0)) by tauto. unfold epoll_ctl. by rewrite E.
  - unfold mask_at. rewrite E. unfold epoll_ctl. cbn. by rewrite E.
Qed.

(** Removing part of a registered mask; the kernel's answer is a success. *)
Lemma epoll_del l fd m :
  table_ok l -> mask_at (interest l) fd <> 0 ->
  (if negb (m =? AE_NONE) then epoll_ctl EPOLL_CTL_MOD fd m (interest l) else epoll_ctl EPOLL_CTL_DEL fd m (interest l)) =
    Some (put_mask fd m (interest l)).
Proof.
  intros Hok Hm. unfold mask_at in Hm. unfold put_mask, AE_NONE.
  destruct (interest l !! fd) as [m'|] eqn:E; [|done]. by destruct (m =? 0); cbn; rewrite E.
Qed.

Lemma create_spec l fd m p d ok :
  table_ok l -> 0 <= fd -> 1 <= m <= 3 ->
  exists l', aeCreateFileEvent l fd m p d ok = Some ((ref_perform (setsize l) (interest l) (Create fd m p d ok)).1, l') /\
    table_ok l' /\ (setsize l', interest l') = (ref_perform (setsize l) (interest l) (Create fd m p d ok)).2.
Proof.
  intros Hok Hfd Hm. unfold aeCreateFileEvent. cbn.
  destruct (Z.leb_spec (setsize l) fd) as [|Hlt]; [by exists l|]. cbn.
  destruct (table_get l fd Hok ltac:(lia)) as (fe & Hfe & Hb & Hat). unfold aeApiAddEvent. rewrite Hfe. cbn.
  rewrite Hat. destruct ok; cbn; [|by exists l].
  pose proof (lor_mask _ _ Hb Hm) as Hlor. rewrite Hat in Hlor, Hb. rewrite (Z.lor_comm m).
  rewrite epoll_add by done. cbn. rewrite Hfe. cbn. rewrite Hat.
  set (fe' := FileEvent _ _ _ _).
  assert (zset (events l) fd fe' = Some (<[Z.to_nat fd:=fe']> (events l))) as Hz
    by (apply zset_ok; rewrite (ok_size l Hok); lia).
  rewrite Hz. cbn. eexists. split; [done|]. pose proof (ok_maxfd l Hok) as [Hmx Hmx']. split.
  - pose proof (update_ok l fd fe' _ (if maxfd l <? fd then fd else maxfd l) Hok ltac:(lia) eq_refl ltac:(cbn; lia)) as Hu.
    cbn in Hu. destruct (Z.ltb_spec (maxfd l) fd); apply Hu; rewrite ?put_mask_is_Some; try lia.
    + intros f [[-> _]|[_ [m' Hf]]]%put_mask_is_Some; [lia|]. apply (ok_above l Hok) in Hf. lia.
    + intros f [[-> _]|[_ [m' Hf]]]%put_mask_is_Some; [lia|]. by apply (ok_above l Hok) in Hf.
    + right. destruct (decide (maxfd l = fd)); [left; lia|right; split; [done|]]. destruct Hmx'; [lia|done].
  - by destruct (maxfd l <? fd).
Qed.

(** The scan finds the greatest registered descriptor below [fd]. *)
Lemma prev_fd_spec fes (k : gmap Z Z) fuel j :
  (Z.to_nat (j + 1) <= fuel)%nat -> -1 <= j < zlen fes ->
  (forall f fe, zget fes f = Some fe -> mask fe = mask_at k f) ->
  (forall f m, k !! f = Some m -> m <> 0 /\ 0 <= f < zlen fes) ->
  exists r, prev_fd fuel fes j = Some r /\ -1 <= r <= j /\ (r = -1 \/ is_Some (k !! r)) /\
    forall f, is_Some (k !! f) -> f <= j -> f <= r.
Proof.
  revert j. induction fuel as [|fuel IH]; intros j Hfuel Hj Hm Hk; cbn.
  - assert (j = -1) as -> by lia. exists (-1). repeat split; lia.
  - destruct (Z.ltb_spec j 0).
    { exists j. repeat split; lia. }
    destruct (zget_is_Some fes j ltac:(lia)) as [fe Hfe]. rewrite Hfe. cbn. rewrite (Hm _ _ Hfe).
    unfold mask_at. destruct (k !! j) as [m|] eqn:E; cbn.
    + rewrite (proj2 (Z.eqb_neq m AE_NONE)) by (apply (Hk _ _ E)). exists j. repeat split; try lia; eauto.
    + destruct (IH (j - 1) ltac:(lia) ltac:(lia) Hm Hk) as (r & -> & Hr & Hr' & Hab).
      exists r. repeat split; try lia; [done|]. intros f Hf Hle. apply Hab; [done|].
      destruct (decide (f = j)) as [->|]; [|lia]. rewrite E in Hf. by destruct Hf.
Qed.

(** Deleting the greatest descriptor looks for the next one. *)
Lemma lower_maxfd l fd fe m :
  table_ok l -> 0 <= fd < setsize l -> mask fe = m -> 0 <= m <= 3 -> fd <= maxfd l ->
  let fes := <[Z.to_nat fd:=fe]> (events l) in
  exists mx,
    (if (fd =? maxfd l) && (m =? AE_NONE) then
       let? j := prev_fd (Z.to_nat (maxfd l)) fes (maxfd l - 1) in Some (set_maxfd (set_events l fes) j)
     else Some (set_events l fes)) = Some (set_maxfd (set_events l fes) mx) /\
    (forall f, is_Some (put_mask fd m (interest l) !! f) -> f <= mx) /\
    -1 <= mx < setsize l /\ (mx = -1 \/ is_Some (put_mask fd m (interest l) !! mx)).
Proof.
  intros Hok Hfd Hm Hb Hle fes. pose proof (ok_maxfd l Hok) as [Hmx Hmx'].
  assert (Hlen : zlen fes = setsize l) by (unfold fes; rewrite length_insert; apply (ok_size l Hok)).
  assert (Hall : forall f, is_Some (put_mask fd m (interest l) !! f) -> f <= maxfd l).
  { intros f [[-> _]|[_ [m' Hf]]]%put_mask_is_Some; [lia|]. by apply (ok_above l Hok) in Hf. }
  assert (Hkeep : fd <> maxfd l \/ m <> 0 -> is_Some (put_mask fd m (interest l) !! maxfd l)).
  { intros Hc. apply put_mask_is_Some. destruct (decide (maxfd l = fd)); [left; lia|].
    right. split; [done|]. destruct Hmx'; [lia|done]. }
  unfold AE_NONE. destruct (Z.eqb_spec fd (maxfd l)) as [Heq|Hne]; cbn; [destruct (Z.eqb_spec m 0) as [H0|H0]|].
  - edestruct (prev_fd_spec fes (put_mask fd m (interest l)) (Z.to_nat (maxfd l)) (maxfd l - 1)) as (r & -> & Hr & Hr' & Hab);
      [lia|lia| | |].
    + intros f fe' Hf. by apply (stored_masks l fd fe m Hok ltac:(lia) Hm Hb) in Hf as [_ ?].
    + rewrite Hlen. by apply put_mask_range.
    + exists r. split_and!; [done| |lia|lia|done]. intros f Hf. apply Hab; [done|]. apply Hall in Hf as Hf'.
      apply put_mask_is_Some in Hf as [[_ ?]|[? _]]; [done|lia].
  - exists (maxfd l). split_and!; [done|done|lia|lia|auto].
  - exists (maxfd l). split_and!; [done|done|lia|lia|auto].
Qed.

Lemma delete_spec l fd m :
  table_ok l -> 0 <= fd -> 1 <= m <= 3 ->
  exists l', aeDeleteFileEvent l fd m = Some l' /\ table_ok l' /\
    setsize l' = setsize l /\ interest l' = put_mask fd (Z.land (mask_at (interest l) fd) (Z.lnot m)) (interest l).
Proof.
  intros Hok Hfd Hm. unfold aeDeleteFileEvent.
  assert (Hnone : mask_at (interest l) fd = 0 -> put_mask fd (Z.land (mask_at (interest l) fd) (Z.lnot m)) (interest l) = interest l).
  { intros H0. rewrite H0, Z.land_0_l. unfold put_mask. cbn. apply delete_id. unfold mask_at in H0.
    destruct (interest l !! fd) as [m'|] eqn:E; [|done]. apply (ok_interest l Hok) in E. cbn in H0. lia. }
  destruct (Z.leb_spec (setsize l) fd) as [|Hlt].
  { exists l. rewrite Hnone; [done|]. by apply mask_at_out. }
  destruct (table_get l fd Hok ltac:(lia)) as (fe & Hfe & Hb & Hat). rewrite Hfe. cbn.
  destruct (Z.eqb_spec (mask fe) AE_NONE) as [H0|H0]; rewrite Hat in *.
  { exists l. by rewrite Hnone. }
  assert (Hle : fd <= maxfd l).
  { unfold mask_at in H0. destruct (interest l !! fd) eqn:E; [|done]. by apply (ok_above l Hok) in E. }
  set (m' := Z.land (mask_at (interest l) fd) (Z.lnot m)) in *.
  assert (0 <= m' <= 3) by by apply land_mask.
  assert (zset (events l) fd (set_mask fe m') = Some (<[Z.to_nat fd:=set_mask fe m']> (events l))) as Hz
    by (apply zset_ok; rewrite (ok_size l Hok); lia).
  rewrite Hz. cbn.
  destruct (lower_maxfd l fd (set_mask fe m') m' Hok ltac:(lia) eq_refl ltac:(lia) Hle) as (mx & Hmx1 & Hmx2 & Hmx3 & Hmx4).
  rewrite Hmx1. unfold aeApiDelEvent. cbn.
  rewrite zget_insert by (rewrite (ok_size l Hok); lia). cbn.
  assert (Z.land m' (Z.lnot m) = m') as ->.
  { unfold m'. by rewrite <- Z.land_assoc, Z.land_diag. }
  pose proof (epoll_del l fd m' Hok H0) as Hdel. cbn in Hdel. rewrite Hdel.
  eexists. split; [done|]. split; [|done]. by apply update_ok.
Qed.

Lemma clear_masks_spec n i (fes : list (aeFileEvent proc data)) :
  0 <= i -> i + Z.of_nat n <= zlen fes ->
  exists fes', clear_masks n i fes = Some fes' /\ zlen fes' = zlen fes /\
    forall f fe', zget fes' f = Some fe' ->
      exists fe, zget fes f = Some fe /\ mask fe' = if bool_decide (i <= f < i + Z.of_nat n) then 0 else mask fe.
Proof.
  revert i fes. induction n as [|n IH]; intros i fes Hi Hn; cbn [clear_masks].
  - exists fes. split_and!; [done|done|]. intros f fe' Hf. exists fe'. by rewrite bool_decide_eq_false_2 by lia.
  - destruct (zget_is_Some fes i ltac:(lia)) as [fe Hfe]. rewrite Hfe. cbn. rewrite zset_ok by lia. cbn.
    destruct (IH (i + 1) (<[Z.to_nat i:=set_mask fe AE_NONE]> fes)) as (fes' & -> & Hl & Hf);
      [lia|rewrite length_insert; lia|]. rewrite length_insert in Hl. exists fes'. split_and!; [done|done|].
    intros f fe' Hfe'. apply Hf in Hfe' as (fe1 & [Hp Hfe1]%zget_Some & Hm).
    apply list_lookup_insert_Some in Hfe1 as [(Ef & <- & _)|[Hne Hfe1]].
    + assert (f = i) as -> by lia. exists fe. split; [done|]. rewrite Hm.
      rewrite bool_decide_eq_false_2 by lia. by rewrite bool_decide_eq_true_2 by lia.
    + exists fe1. split; [by apply zget_Some|]. rewrite Hm. by do 2 case_bool_decide; lia.
Qed.

Lemma resize_spec l n junk :
  table_ok l -> 0 < n <= zlen junk ->
  let r := ref_perform (setsize l) (interest l) (Resize n junk) in
  exists l', aeResizeSetSize l n junk = Some (r.1, l') /\ table_ok l' /\ (setsize l', interest l') = r.2.
Proof.
  intros Hok Hn r. subst r. cbn. unfold aeResizeSetSize. pose proof (ok_maxfd l Hok) as [Hmx Hmx'].
  destruct (Z.eqb_spec n (setsize l)) as [->|Hne].
  { rewrite bool_decide_eq_false_2; [by exists l|]. intros (f & m & Hf & Hle). apply (ok_interest l Hok) in Hf. lia. }
  destruct (Z.leb_spec n (maxfd l)).
  { rewrite bool_decide_eq_true_2; [by exists l|]. destruct Hmx' as [|[m Hm]]; [lia|]. by exists (maxfd l), m. }
  rewrite bool_decide_eq_false_2 by (intros (f & m & Hf & Hle); apply (ok_above l Hok) in Hf; lia).
  assert (Hlen : zlen (take (Z.to_nat n) (events l ++ junk)) = n) by (rewrite length_take, length_app; lia).
  destruct (clear_masks_spec (Z.to_nat (n - (maxfd l + 1))) (maxfd l + 1) (take (Z.to_nat n) (events l ++ junk)))
    as (fes & -> & Hl & Hf); [lia|lia|]. cbn. eexists. split; [done|]. split; [|done]. split; cbn.
  - lia.
  - intros f fe' Hfe'. assert (0 <= f < n) by (apply zget_Some in Hfe' as [? ?%lookup_lt_Some]; lia).
    apply Hf in Hfe' as (fe & [_ Hfe]%zget_Some & ->). case_bool_decide.
    + unfold mask_at. destruct (interest l !! f) eqn:E; [|done]. apply (ok_above l Hok) in E. lia.
    + apply (ok_masks l Hok). apply zget_Some. split; [lia|]. apply lookup_take_Some in Hfe as [Hfe _].
      rewrite lookup_app_l in Hfe; [done|]. pose proof (ok_size l Hok). lia.
  - intros f m Hi. split; [by apply (ok_interest l Hok) in Hi as [? _]|]. apply (ok_interest l Hok) in Hi as ?.
    apply (ok_above l Hok) in Hi. lia.
  - split; [lia|done].
  - apply (ok_above l Hok).
Qed.

Lemma created_ok size now (junk : list (aeFileEvent proc data)) :
  0 <= size <= zlen junk -> table_ok (aeCreateEventLoop size now junk).
Proof.
  intros Hs. split; cbn; [|intros f fe [Hf Hfe]%zget_Some|by intros ??|by auto with lia|by intros ??].
  - rewrite length_fmap, length_take. lia.
  - by apply list_lookup_fmap_Some in Hfe as (? & -> & _).
Qed.

Fixpoint perform_all l (os : list op) : option (list Z * aeEventLoop proc data) :=
  match os with
  | [] => Some ([], l)
  | o :: os => let? (r, l) := perform l o in let? (rs, l) := perform_all l os in Some (r :: rs, l)
  end.

Fixpoint ref_perform_all (size : Z) (regs : gmap Z Z) (os : list op) : list Z * (Z * gmap Z Z) :=
  match os with
  | [] => ([], (size, regs))
  | o :: os =>
      let '(r, (size, regs)) := ref_perform size regs o in
      let '(rs, fin) := ref_perform_all size regs os in (r :: rs, fin)
  end.

Lemma perform_spec l o :
  table_ok l -> op_ok o ->
  let r := ref_perform (setsize l) (interest l) o in
  exists l', perform l o = Some (r.1, l') /\ table_ok l' /\ (setsize l', interest l') = r.2.
Proof.
  intros Hok Ho. destruct o as [fd m p d ok|fd m|fd|n junk]; cbn -[ref_perform] in *.
  - destruct Ho. by apply create_spec.
  - destruct (delete_spec l fd m Hok) as (l' & -> & Hok' & Hs & Hi); [lia|lia|]. exists l'. cbn. by rewrite Hs, Hi.
  - unfold aeGetFileEvents. cbn. destruct (Z.leb_spec (setsize l) fd).
    + exists l. by rewrite mask_at_out.
    + destruct (table_get l fd Hok ltac:(lia)) as (fe & -> & _ & Hat). cbn. rewrite Hat. by exists l.
  - by apply resize_spec.
Qed.

Lemma perform_all_spec os l :
  table_ok l -> Forall op_ok os ->
  let r := ref_perform_all (setsize l) (interest l) os in
  exists l', perform_all l os = Some (r.1, l') /\ table_ok l' /\ (setsize l', interest l') = r.2.
Proof.
  revert l. induction os as [|o os IH]; intros l Hok Hos; cbn; [by exists l|].
  apply Forall_cons in Hos as [Ho Hos]. destruct (perform_spec l o Hok Ho) as (l1 & -> & Hok1 & Hr). cbn.
  destruct (ref_perform (setsize l) (interest l) o) as [r [size regs]]. cbn in *. simplify_eq.
  destruct (IH l1 Hok1 Hos) as (l2 & -> & Hok2 & Hr2). exists l2. cbn.
  by destruct (ref_perform_all (setsize l1) (interest l1) os).
Qed.

(** C20: the table of file events of a fresh event loop ([aeCreateEventLoop])
    implements a map from descriptors to masks through any sequence of
    [aeCreateFileEvent], [aeDeleteFileEvent], [aeGetFileEvents] and
    [aeResizeSetSize], whatever the kernel refuses and whatever fresh memory
    holds: every call returns, without an access outside the table, what the
    map says, the interest list of the kernel is that map at the end, and
    [maxfd] is the greatest registered descriptor, or -1. *)
Theorem ae_table_refines size now (junk : list (aeFileEvent proc data)) os :
  0 <= size <= zlen junk -> Forall op_ok os ->
  exists l, perform_all (aeCreateEventLoop size now junk) os = Some ((ref_perform_all size ∅ os).1, l) /\
    (setsize l, interest l) = (ref_perform_all size ∅ os).2 /\ zlen (events l) = setsize l /\
    (forall fd, is_Some (interest l !! fd) -> 0 <= fd <= maxfd l) /\
    (maxfd l = -1 \/ is_Some (interest l !! maxfd l)).
Proof.
  intros Hs Hos. destruct (perform_all_spec os _ (created_ok size now junk Hs) Hos) as (l & Hp & Hok & Hr).
  exists l. split_and!; [done|done|apply (ok_size l Hok)| |apply (ok_maxfd l Hok)].
  intros fd [m Hm]. split; [apply (ok_interest l Hok) in Hm; lia|by apply (ok_above l Hok) in Hm].
Qed.

End Table.
(** ** Time events *)

Section Timers.

(** The clock runs while handlers work, and they may read it. *)
Context {proc data W : Type} `{EqDecision proc}
  (clock : nat -> Z * Z)
  (time_proc : proc -> W -> nat -> aeEventLoop proc data -> Z -> data -> option (Z * W * nat * aeEventLoop proc data))
  (final_proc : proc -> W -> data -> W).
Implicit Types (l : aeEventLoop proc data) (te : aeTimeEvent proc data) (w : W).

Definition ids (ts : list (aeTimeEvent proc data)) : list Z := te_id <$> ts.

Definition timer_of (id : Z) (ts : list (aeTimeEvent proc data)) : option (aeTimeEvent proc data) :=
  head (filter (fun te => te_id te = id) ts).

Definition at_time (t : Z * Z) te : aeTimeEvent proc data :=
  TimeEvent (te_id te) t.1 t.2 (timeProc te) (finalizerProc te) (te_data te).

(** Identifiers are distinct and below the next one. *)
Definition timers_ok l : Prop :=
  NoDup (ids (timers l)) /\ Forall (fun te => te_id te < timeEventNextId l) (timers l).

(** A handler returns and reads the clock at most [b] times.  It may create
    events and delete events, its own included; it leaves the other ones as
    they are, and when it asks to be called again its event is still there
    and the delay is more than [D] milliseconds. *)
Definition handlers_ok (b : nat) (D : Z) : Prop :=
  forall p w n l id d, timers_ok l -> id ∈ ids (timers l) ->
    exists r w' n' l', time_proc p w n l id d = Some (r, w', n', l') /\ (n <= n' <= n + b)%nat /\
      timers_ok l' /\ timeEventNextId l <= timeEventNextId l' /\
      filter (fun te => te_id te < timeEventNextId l) (timers l') `sublist_of` timers l /\
      (r = AE_NOMORE \/ (D < r /\ id ∈ ids (timers l'))).

(** The first event up to [maxId] that is due when the clock is read for it,
    and the number of readings then made. *)
Fixpoint next_due (maxId : Z) (ts : list (aeTimeEvent proc data)) (n : nat) : option (aeTimeEvent proc data) * nat :=
  match ts with
  | [] => (None, n)
  | te :: ts =>
      if maxId <? te_id te then next_due maxId ts n
      else if due (clock n) te then (Some te, S n) else next_due maxId ts (S n)
  end.

(** What firing one event does: its handler runs, and then the event gets
    its next time or goes. *)
Definition fire (s : st proc data W) te : option (st proc data W) :=
  let? (retval, w, n, l) := time_proc (timeProc te) (world s) (readings s) (el s) (te_id te) (te_data te) in
  if negb (retval =? AE_NOMORE) then
    let? ts := reschedule (te_id te) (aeAddMillisecondsToNow (clock n) retval) (timers l) in
    Some (St w (S n) (set_timers l ts))
  else Some (aeDeleteTimeEvent final_proc (St w n l) (te_id te)).2.

(** A run of firings, each of the first event that is due, with the
    identifiers of the events fired, until none is. *)
Inductive fires (maxId : Z) : st proc data W -> list Z -> st proc data W -> Prop :=
  | fires_none w n l n' :
      next_due maxId (timers l) n = (None, n') -> fires maxId (St w n l) [] (St w n' l)
  | fires_one w n l n' te s1 fired s2 :
      next_due maxId (timers l) n = (Some te, n') -> fire (St w n' l) te = Some s1 ->
      fires maxId s1 fired s2 -> fires maxId (St w n l) (te_id te :: fired) s2.

(** *** The clock *)

(** Milliseconds since the epoch. *)
Definition ms_at (t : Z * Z) : Z := 1000 * t.1 + t.2.

Definition reading_ok (t : Z * Z) : Prop := 0 <= t.2 < 1000.

(** The [R] readings from the [n]-th on are made within [D] milliseconds
    from the instant [T]. *)
Definition steady (T : Z * Z) (D : Z) (n R : nat) : Prop :=
  forall i, (n <= i < n + R)%nat -> reading_ok (clock i) /\ ms_at T <= ms_at (clock i) <= ms_at T + D.

Lemma steady_part T D n R n' R' :
  steady T D n R -> (n <= n')%nat -> (n' + R' <= n + R)%nat -> steady T D n' R'.
Proof. intros Hs H1 H2 i Hi. apply Hs. lia. Qed.

(** Discharges the condition on the clock of [H] for a part of the readings
    of [Hs]. *)
Ltac spec_steady H Hs :=
  match type of H with
  | ?P -> _ => let A := fresh in assert (A : P) by (eapply steady_part; [apply Hs|nia|nia]); specialize (H A); clear A
  end.

Lemma due_later a b te :
  reading_ok a -> reading_ok b -> ms_at a <= ms_at b -> due a te = true -> due b te = true.
Proof.
  unfold due, reading_ok, ms_at. rewrite !orb_true_iff, !andb_true_iff, !Z.ltb_lt, !Z.eqb_eq, !Z.leb_le. lia.
Qed.

Lemma add_ms t r : reading_ok t -> 0 <= r ->
  reading_ok (aeAddMillisecondsToNow t r) /\ ms_at (aeAddMillisecondsToNow t r) = ms_at t + r.
Proof.
  unfold reading_ok, ms_at, aeAddMillisecondsToNow. intros Ht Hr.
  rewrite Z.quot_div_nonneg, Z.rem_mod_nonneg by lia.
  pose proof (Z.div_mod r 1000 ltac:(lia)). pose proof (Z.mod_pos_bound r 1000 ltac:(lia)).
  destruct (Z.leb_spec 1000 (t.2 + r mod 1000)); cbn; lia.
Qed.

Lemma not_due_before t u te :
  reading_ok t -> reading_ok u -> ms_at u < ms_at t -> due u (at_time t te) = false.
Proof.
  unfold due, reading_ok, ms_at. cbn. intros Ht Hu Hlt. apply orb_false_iff. rewrite Z.ltb_ge, andb_false_iff, Z.eqb_neq, Z.leb_gt. lia.
Qed.

Lemma filter_sublist {A} (P : A -> Prop) `{forall x, Decision (P x)} (k1 k2 : list A) :
  k1 `sublist_of` k2 -> filter P k1 `sublist_of` filter P k2.
Proof.
  induction 1 as [|x k1 k2 _ IH|x k1 k2 _ IH]; [done| |]; rewrite ?filter_cons; destruct (decide (P x)); try done.
  - by apply sublist_skip.
  - by apply sublist_cons.
Qed.

Lemma filter_keeps {A} (P : A -> Prop) `{forall x, Decision (P x)} (k : list A) :
  (forall x, x ∈ k -> P x) -> filter P k = k.
Proof.
  induction k as [|x k IH]; intros Hk; [done|]. rewrite filter_cons, decide_True by (apply Hk; left).
  f_equal. apply IH. intros y Hy. apply Hk. by right.
Qed.

Lemma fmap_keeps {A} (f : A -> A) (k : list A) : (forall x, x ∈ k -> f x = x) -> f <$> k = k.
Proof.
  intros Hk. rewrite <- (list_fmap_id k) at 2. apply list_fmap_ext. intros i x Hx.
  apply Hk. by eapply list_elem_of_lookup_2.
Qed.

Lemma timer_of_None id ts : timer_of id ts = None -> id ∉ ids ts.
Proof.
  unfold timer_of, ids. intros Hn (te & -> & Hte)%list_elem_of_fmap.
  assert (te ∈ filter (fun x => te_id x = te_id te) ts) as Hf by by apply list_elem_of_filter.
  destruct (filter _ ts); [by apply not_elem_of_nil in Hf|done].
Qed.

Lemma timer_of_Some id ts te : timer_of id ts = Some te -> te ∈ ts /\ te_id te = id.
Proof.
  unfold timer_of. destruct (filter _ ts) as [|x r] eqn:E; [done|]. cbn. intros [= ->].
  assert (te ∈ filter (fun x => te_id x = id) ts) as Hf by (rewrite E; left).
  by apply list_elem_of_filter in Hf as [? ?].
Qed.

Lemma timer_of_in ts te : NoDup (ids ts) -> te ∈ ts -> timer_of (te_id te) ts = Some te.
Proof.
  induction ts as [|x ts IH]; intros Hnd Hin; [by apply not_elem_of_nil in Hin|].
  apply NoDup_cons in Hnd as [Hx Hnd]. unfold timer_of. rewrite filter_cons.
  apply elem_of_cons in Hin as [->|Hin]; [by rewrite decide_True|].
  rewrite decide_False; [by apply IH|]. intros E. apply Hx. unfold ids. rewrite E. by apply list_elem_of_fmap_2.
Qed.

(** The two ways the code updates its list. *)
Lemma unlink_timer_spec id ts :
  NoDup (ids ts) ->
  unlink_timer id ts = match timer_of id ts with
                       | Some te => Some (te, filter (fun x => te_id x <> id) ts)
                       | None => None
                       end.
Proof.
  induction ts as [|x ts IH]; intros Hnd; [done|]. apply NoDup_cons in Hnd as [Hx Hnd]. cbn.
  unfold timer_of in *. rewrite !filter_cons. destruct (Z.eqb_spec (te_id x) id) as [<-|Hne].
  - rewrite decide_True by done. rewrite decide_False by tauto. cbn. do 2 f_equal. symmetry.
    apply filter_keeps. intros y Hy E. apply Hx. rewrite <- E. by apply list_elem_of_fmap_2.
  - rewrite decide_False by done. rewrite decide_True by done. rewrite (IH Hnd). by destruct (head _).
Qed.

Lemma reschedule_spec id t ts :
  NoDup (ids ts) -> id ∈ ids ts ->
  reschedule id t ts = Some ((fun x => if te_id x =? id then at_time t x else x) <$> ts).
Proof.
  induction ts as [|x ts IH]; intros Hnd Hin; [by apply not_elem_of_nil in Hin|].
  apply NoDup_cons in Hnd as [Hx Hnd]. cbn. destruct (Z.eqb_spec (te_id x) id) as [<-|Hne].
  - do 2 f_equal. symmetry. apply fmap_keeps. intros y Hy. destruct (Z.eqb_spec (te_id y) (te_id x)) as [E|]; [|done].
    exfalso. apply Hx. rewrite <- E. by apply list_elem_of_fmap_2.
  - apply elem_of_cons in Hin as [E|Hin]; [by rewrite E in Hne|]. by rewrite (IH Hnd Hin).
Qed.

Lemma filter_swap {A} (P Q : A -> Prop) `{forall x, Decision (P x), forall x, Decision (Q x)} (k : list A) :
  filter P (filter Q k) = filter Q (filter P k).
Proof.
  rewrite !list_filter_filter. apply list_filter_iff. tauto.
Qed.

(** *** One scan, one firing *)

(** From a position on, the loop fires the first event that is due and
    starts again, or ends. *)
Lemma time_loop_scan maxId l w k n processed :
  (k <= length (timers l))%nat ->
  exists j, forall fuel,
    time_loop clock time_proc final_proc (j + fuel) (St w n l) maxId k processed =
    match next_due maxId (drop k (timers l)) n with
    | (None, n') => Some (processed, St w n' l)
    | (Some te, n') => let? s := fire (St w n' l) te in
                       time_loop clock time_proc final_proc fuel s maxId 0 (processed + 1)
    end.
Proof.
  intros Hk. remember (length (timers l) - k)%nat as m eqn:Em. revert k n Hk Em.
  induction m as [|m IH]; intros k n Hk Em.
  - exists 1%nat. intros fuel. rewrite drop_ge by lia. cbn. by rewrite lookup_ge_None_2 by lia.
  - destruct (lookup_lt_is_Some_2 (timers l) k ltac:(lia)) as [te Hte]. rewrite (drop_S _ te) by done. cbn [next_due].
    destruct (maxId <? te_id te) eqn:Em'; [|destruct (due (clock n) te) eqn:Ed].
    + destruct (IH (S k) n ltac:(lia) ltac:(lia)) as (j & Hj). exists (S j). intros fuel. cbn. rewrite Hte, Em'. apply Hj.
    + exists 1%nat. intros fuel. cbn. rewrite Hte, Em', Ed. unfold fire. cbn.
      destruct (time_proc _ _ _ _ _ _) as [[[[r w'] n'] l']|]; [|done]. cbn. by repeat case_match.
    + destruct (IH (S k) (S n) ltac:(lia) ltac:(lia)) as (j & Hj). exists (S j). intros fuel. cbn.
      rewrite Hte, Em', Ed. apply Hj.
Qed.

(** The identifiers up to [maxId]: a scan reads the clock once for each. *)
Definition known (maxId : Z) (ts : list (aeTimeEvent proc data)) : list Z := filter (fun i => i <= maxId) (ids ts).

(** The events that fire when the clock shows [u]. *)
Definition eligible (u : Z * Z) (maxId : Z) te : Prop := te_id te <= maxId /\ due u te = true.

#[local] Instance eligible_dec u maxId te : Decision (eligible u maxId te).
Proof. unfold eligible. apply _. Defined.

Lemma known_cons maxId te ts :
  length (known maxId (te :: ts)) = ((if (maxId <? te_id te)%Z then 0 else 1) + length (known maxId ts))%nat.
Proof.
  unfold known. cbn [ids fmap list_fmap]. rewrite filter_cons.
  destruct (Z.ltb_spec maxId (te_id te)); [by rewrite decide_False by lia|by rewrite decide_True by lia].
Qed.

Lemma next_due_spec T D maxId ts n :
  0 <= D -> reading_ok T -> steady T D n (length (known maxId ts)) ->
  let '(found, n') := next_due maxId ts n in
  (n <= n' <= n + length (known maxId ts))%nat /\
  match found with
  | Some te => te ∈ ts /\ eligible (aeAddMillisecondsToNow T D) maxId te
  | None => forall te, te ∈ ts -> te_id te <= maxId -> due T te = false
  end.
Proof.
  intros HD HT. destruct (add_ms T D HT HD) as [HH HmsH].
  revert n. induction ts as [|te ts IH]; intros n Hs; cbn [next_due].
  { split; [cbn; lia|]. by intros te Hte%not_elem_of_nil. }
  rewrite known_cons in *. destruct (Z.ltb_spec maxId (te_id te)) as [Hlt|Hle]; cbn [Nat.add] in *.
  - specialize (IH n Hs). destruct (next_due maxId ts n) as [[x|] n'].
    + destruct IH as (Hn & Hin & He). split; [done|]. split; [by right|done].
    + destruct IH as [Hn Hall]. split; [done|]. intros x [->|Hx]%elem_of_cons Hi; [lia|by apply Hall].
  - destruct (Hs n ltac:(lia)) as [Hok Hms].
    destruct (due (clock n) te) eqn:Ed.
    + split; [lia|]. split; [left|]. split; [done|]. eapply due_later; [apply Hok|apply HH|lia|done].
    + specialize (IH (S n)). spec_steady IH Hs.
      destruct (next_due maxId ts (S n)) as [[x|] n'].
      * destruct IH as (Hn & Hin & He). split; [lia|]. split; [by right|done].
      * destruct IH as [Hn Hall]. split; [lia|]. intros x [->|Hx]%elem_of_cons Hi; [|by apply Hall].
        apply not_true_is_false. intros Hd. rewrite (due_later T (clock n) te) in Ed; [done|done|done|lia|done].
Qed.

(** What a list of events becomes when its event [id] fires: nothing else
    changes, and that event is no longer due by [u]. *)
Definition stepped (u : Z * Z) (maxId id : Z) (ts ts' : list (aeTimeEvent proc data)) : Prop :=
  known maxId ts' `sublist_of` known maxId ts /\
  filter (eligible u maxId) ts' `sublist_of` filter (fun x => te_id x <> id) (filter (eligible u maxId) ts) /\
  forall x, x ∈ ts' -> te_id x <= maxId -> te_id x <> id -> x ∈ ts.

Lemma known_ids maxId ts : known maxId ts = te_id <$> filter (fun x => te_id x <= maxId) ts.
Proof.
  unfold known, ids. induction ts as [|x ts IH]; [done|]. rewrite fmap_cons, !filter_cons.
  destruct (decide (te_id x <= maxId)); [by rewrite fmap_cons, IH|done].
Qed.

Lemma stepped_delete u maxId id ts ts' :
  filter (fun x => te_id x <= maxId) ts' `sublist_of` ts ->
  stepped u maxId id ts (filter (fun x => te_id x <> id) ts').
Proof.
  intros Hsub. split_and!.
  - rewrite !known_ids. apply fmap_sublist. apply (filter_sublist (fun x => te_id x <= maxId)) in Hsub.
    rewrite list_filter_filter_l in Hsub by done. etrans; [|apply Hsub]. apply filter_sublist, sublist_filter.
  - rewrite filter_swap. apply filter_sublist. apply (filter_sublist (eligible u maxId)) in Hsub.
    by rewrite list_filter_filter_l in Hsub by (unfold eligible; tauto).
  - intros x [_ Hx]%list_elem_of_filter Hle _. eapply elem_of_sublist; [|apply Hsub]. by apply list_elem_of_filter.
Qed.

Lemma stepped_move u maxId id t ts ts' :
  reading_ok t -> reading_ok u -> ms_at u < ms_at t ->
  filter (fun x => te_id x <= maxId) ts' `sublist_of` ts ->
  stepped u maxId id ts ((fun x => if te_id x =? id then at_time t x else x) <$> ts').
Proof.
  intros Ht Hu Hlt Hsub.
  assert (Hid : forall x, te_id (if te_id x =? id then at_time t x else x) = te_id x) by (intros x; by destruct (_ =? _)).
  split_and!.
  - apply (filter_sublist (fun x => te_id x <= maxId)) in Hsub. rewrite list_filter_filter_l in Hsub by done.
    apply (fmap_sublist te_id) in Hsub. rewrite <- !known_ids in Hsub. etrans; [|apply Hsub]. unfold known, ids.
    rewrite <- list_fmap_compose. by rewrite (list_fmap_ext _ te_id) by (intros; apply Hid).
  - apply (filter_sublist (eligible u maxId)) in Hsub. rewrite list_filter_filter_l in Hsub by (unfold eligible; tauto).
    apply (filter_sublist (fun x => te_id x <> id)) in Hsub. etrans; [|apply Hsub]. rewrite filter_swap.
    clear Hsub. induction ts' as [|x ts' IH]; [done|]. rewrite fmap_cons, !filter_cons.
    destruct (Z.eqb_spec (te_id x) id) as [E|E].
    + rewrite (decide_False (P := te_id x <> id)) by tauto.
      rewrite decide_False; [apply IH|]. intros [_ Hd]. by rewrite not_due_before in Hd.
    + rewrite (decide_True (P := te_id x <> id)) by done. rewrite filter_cons.
      destruct (decide (eligible u maxId x)); [by apply sublist_skip|apply IH].
  - intros x (y & -> & Hy)%list_elem_of_fmap Hle Hne. rewrite Hid in Hle, Hne.
    rewrite (proj2 (Z.eqb_neq _ _)) by done. eapply elem_of_sublist; [|apply Hsub]. by apply list_elem_of_filter.
Qed.

Lemma fire_spec b T D maxId w n l te :
  0 <= D -> reading_ok T -> handlers_ok b D -> timers_ok l -> maxId < timeEventNextId l -> te ∈ timers l ->
  steady T D n (S b) ->
  exists w' n' l', fire (St w n l) te = Some (St w' n' l') /\ (n <= n' <= n + S b)%nat /\ timers_ok l' /\
    maxId < timeEventNextId l' /\ stepped (aeAddMillisecondsToNow T D) maxId (te_id te) (timers l) (timers l').
Proof.
  intros HD HT Hh Hok Hmax Hin Hs. unfold fire. cbn. destruct (add_ms T D HT HD) as [HH HmsH].
  assert (Hid : te_id te ∈ ids (timers l)) by by apply list_elem_of_fmap_2.
  destruct (Hh (timeProc te) w n l (te_id te) (te_data te) Hok Hid)
    as (r & w' & n' & l' & -> & Hn & [Hnd Hlt] & Hnext & Hsub & Hr). cbn.
  assert (Hsub' : filter (fun x => te_id x <= maxId) (timers l') `sublist_of` timers l).
  { apply (filter_sublist (fun x => te_id x <= maxId)) in Hsub. rewrite list_filter_filter_l in Hsub by (intros x Hx; lia).
    etrans; [apply Hsub|apply sublist_filter]. }
  destruct (Z.eqb_spec r AE_NOMORE) as [->|Hne]; cbn.
  - assert (Hdel : exists w2, aeDeleteTimeEvent final_proc (St w' n' l') (te_id te) =
      (if timer_of (te_id te) (timers l') then AE_OK else AE_ERR,
       St w2 n' (set_timers l' (filter (fun x => te_id x <> te_id te) (timers l'))))).
    { unfold aeDeleteTimeEvent. cbn. rewrite unlink_timer_spec by done.
      destruct (timer_of (te_id te) (timers l')) as [te'|] eqn:E; [by eexists|]. exists w'.
      rewrite filter_keeps; [by destruct l'|]. intros x Hx Heq. apply timer_of_None in E. apply E.
      rewrite <- Heq. by apply list_elem_of_fmap_2. }
    destruct Hdel as [w2 ->]. cbn. eexists w2, n', _. split; [done|]. split; [lia|]. split; [|split; [cbn; lia|by apply stepped_delete]].
    split; cbn; [|apply Forall_forall; intros x [_ Hx]%list_elem_of_filter; by apply (proj1 (Forall_forall _ _) Hlt)].
    eapply sublist_NoDup; [apply Hnd|]. apply fmap_sublist, sublist_filter.
  - destruct Hr as [|[Hr Hin']]; [done|]. rewrite reschedule_spec by done. cbn.
    destruct (Hs n' ltac:(lia)) as [Hok' Hms]. destruct (add_ms (clock n') r Hok' ltac:(lia)) as [Ht Hmst].
    eexists w', (S n'), _. split; [done|]. split; [lia|].
    split; [|split; [cbn; lia|apply stepped_move; [done|done|lia|done]]].
    assert (Heq : forall x t, te_id (if te_id x =? te_id te then at_time t x else x) = te_id x)
      by (intros x t; by destruct (te_id x =? te_id te)).
    split; cbn.
    + unfold ids. rewrite <- list_fmap_compose. erewrite list_fmap_ext; [apply Hnd|]. intros ? x _. apply Heq.
    + apply Forall_fmap. eapply Forall_impl; [apply Hlt|]. intros x Hx. cbn. by rewrite Heq.
Qed.

(** *** The loop *)

Lemma time_loop_fires b T D maxId m :
  0 <= D -> reading_ok T -> handlers_ok b D -> forall w n l processed,
  timers_ok l -> maxId < timeEventNextId l ->
  (length (filter (eligible (aeAddMillisecondsToNow T D) maxId) (timers l)) <= m)%nat ->
  steady T D n (length (known maxId (timers l)) + m * (length (known maxId (timers l)) + S b)) ->
  exists fuel0 fired s', (forall fuel, (fuel0 <= fuel)%nat ->
      time_loop clock time_proc final_proc fuel (St w n l) maxId 0 processed = Some (processed + zlen fired, s')) /\
    fires maxId (St w n l) fired s' /\ NoDup fired /\
    (forall id, id ∈ fired -> id ∈ ids (filter (eligible (aeAddMillisecondsToNow T D) maxId) (timers l))) /\
    timers_ok (el s') /\
    (forall te, te ∈ timers (el s') -> te_id te <= maxId -> due T te = false) /\
    (forall te, te ∈ timers (el s') -> te_id te <= maxId -> te_id te ∉ fired -> te ∈ timers l).
Proof.
  intros HD HT Hh. set (H := aeAddMillisecondsToNow T D).
  induction m as [m IH] using lt_wf_ind. intros w n l processed Hok Hmax Hm Hs.
  destruct (time_loop_scan maxId l w 0 n processed ltac:(lia)) as (j & Hj). rewrite drop_0 in Hj.
  pose proof (next_due_spec T D maxId (timers l) n HD HT) as Hnext. spec_steady Hnext Hs.
  destruct (next_due maxId (timers l) n) as [[te|] n1] eqn:En.
  - destruct Hnext as (Hn & Hin & Hel).
    assert (Hme : te ∈ filter (eligible H maxId) (timers l)) by by apply list_elem_of_filter.
    destruct m as [|m]; [destruct (filter _ (timers l)); [by apply not_elem_of_nil in Hme|cbn in Hm; lia]|].
    pose proof (fire_spec b T D maxId w n1 l te HD HT Hh Hok Hmax Hin) as Hfire. spec_steady Hfire Hs.
    destruct Hfire as (w2 & n2 & l2 & Hf & Hn2 & Hok2 & Hmax2 & Hk & He & Hrest). fold H in He.
    assert (Hlen : (length (filter (eligible H maxId) (timers l2)) <= m)%nat).
    { apply sublist_length in He. enough (length (filter (fun x => te_id x <> te_id te) (filter (eligible H maxId) (timers l)))
        < length (filter (eligible H maxId) (timers l)))%nat by lia.
      apply length_filter_lt with te; [done|tauto]. }
    apply sublist_length in Hk.
    destruct (IH m ltac:(lia) w2 n2 l2 (processed + 1) Hok2 Hmax2 Hlen) as (f & fired & s' & Hrun & Hfires & Hnd & Hfrom & Hok' & Hnone & Hkeep).
    { eapply steady_part; [apply Hs|lia|]. nia. }
    assert (Hsub : forall id, id ∈ fired -> id ∈ ids (filter (eligible H maxId) (timers l)) /\ id <> te_id te).
    { intros id Hid. apply Hfrom in Hid. eapply elem_of_sublist in Hid; [|apply fmap_sublist, He].
      apply list_elem_of_fmap in Hid as (x & -> & [Hx1 Hx2]%list_elem_of_filter). split; [by apply list_elem_of_fmap_2|done]. }
    exists (j + f)%nat, (te_id te :: fired), s'. split_and!; [|by eapply fires_one| | |done|done|].
    + intros fuel Hfuel. replace fuel with (j + (fuel - j))%nat by lia. rewrite Hj, Hf. cbn.
      rewrite Hrun by lia. do 2 f_equal. lia.
    + apply NoDup_cons. split; [|done]. intros Hte. by apply Hsub in Hte as [_ ?].
    + intros id [->|Hid]%elem_of_cons; [by apply list_elem_of_fmap_2|by apply Hsub].
    + intros x Hx Hle Hne. apply not_elem_of_cons in Hne as [Hne Hnf]. apply Hrest; [by apply Hkeep|done|done].
  - destruct Hnext as (Hn & Hall). exists j, [], (St w n1 l). split_and!; [|by apply fires_none| | |done|done|done].
    + intros fuel Hfuel. replace fuel with (j + (fuel - j))%nat by lia. rewrite Hj. by rewrite Z.add_0_r.
    + apply NoDup_nil_2.
    + by intros id Hid%not_elem_of_nil.
Qed.

(** What [processTimeEvents] does before its loop: when the clock has gone
    back every event counts as old. *)
Definition aged l (time : Z) : aeEventLoop proc data :=
  set_lastTime (if time <? lastTime l then set_timers l (reset_when <$> timers l) else l) time.

Lemma aged_ok l time :
  timers_ok l ->
  timers_ok (aged l time) /\ timeEventNextId (aged l time) = timeEventNextId l /\ ids (timers (aged l time)) = ids (timers l).
Proof.
  intros [Hnd Hlt]. unfold aged, timers_ok. destruct (time <? lastTime l); [|done]. cbn.
  assert (Heq : ids (reset_when <$> timers l) = ids (timers l)) by (unfold ids; by rewrite <- list_fmap_compose).
  split; [split|split]; [by rewrite <- Heq in Hnd|by apply Forall_fmap|done|done].
Qed.

(** The readings a call makes at most, with handlers that make [b]. *)
Definition readings_of (b : nat) l : nat := length (timers l) * (length (timers l) + b + 2).

(** The outcome of a call, and what it says of the events of the loop. *)
Definition fired_once (T : Z * Z) (D time : Z) (s s' : st proc data W) (fired : list Z) : Prop :=
  let l1 := aged (el s) time in
  fires (timeEventNextId (el s) - 1) (St (world s) (readings s) l1) fired s' /\ NoDup fired /\
  (forall id, id ∈ fired -> exists te, te ∈ timers l1 /\ te_id te = id /\ due (aeAddMillisecondsToNow T D) te = true) /\
  (forall te, te ∈ timers l1 -> due T te = true -> te_id te ∈ fired \/ te_id te ∉ ids (timers (el s'))) /\
  (forall te, te ∈ timers (el s') -> te_id te < timeEventNextId (el s) -> te_id te ∉ fired -> te ∈ timers l1) /\
  timers_ok (el s').

Lemma processTimeEvents_run b T D s time :
  0 <= D -> reading_ok T -> handlers_ok b D -> timers_ok (el s) -> steady T D (readings s) (readings_of b (el s)) ->
  exists fuel0 fired s', (forall fuel, (fuel0 <= fuel)%nat ->
      processTimeEvents clock time_proc final_proc fuel s time = Some (zlen fired, s')) /\
    fired_once T D time s s' fired.
Proof.
  destruct s as [w n l]. cbn. intros HD HT Hh Hok Hs. destruct (aged_ok l time Hok) as (Hok1 & Hnext & Hids).
  assert (Hlen : length (timers (aged l time)) = length (timers l))
    by (rewrite <- (length_fmap te_id (timers l)); fold (ids (timers l)); rewrite <- Hids; unfold ids; by rewrite length_fmap).
  destruct (time_loop_fires b T D (timeEventNextId l - 1) (length (timers l)) HD HT Hh w n (aged l time) 0 Hok1)
    as (f & fired & s' & Hrun & Hfires & Hnd & Hfrom & Hok' & Hnone & Hkeep).
  - lia.
  - rewrite <- Hlen. apply sublist_length, sublist_filter.
  - eapply steady_part; [apply Hs|done|]. unfold known, readings_of.
    pose proof (length_filter (fun i => i <= timeEventNextId l - 1) (ids (timers (aged l time)))) as Hf.
    rewrite Hids in Hf at 2. unfold ids in Hf at 2. rewrite length_fmap in Hf. nia.
  - exists f, fired, s'. split; [|split_and!; [done|done| | | |done]].
    + intros fuel Hfuel. unfold processTimeEvents. cbn [el world readings]. cbv zeta. fold (aged l time).
      rewrite Hnext. by apply Hrun.
    + intros id Hid. apply Hfrom, list_elem_of_fmap in Hid as (te & -> & [[_ Hd] Hte]%list_elem_of_filter). by exists te.
    + intros te Hte Hd. destruct (decide (te_id te ∈ fired)) as [|Hnf]; [by left|right].
      intros (te' & Heq & Hte')%list_elem_of_fmap. pose proof (proj1 (Forall_forall _ _) (proj2 Hok1) te Hte) as Hlt.
      cbv beta in Hlt. rewrite Hnext in Hlt. rewrite Heq in Hnf, Hlt. assert (te_id te' <= timeEventNextId l - 1) by lia.
      assert (Hold : te' ∈ timers (aged l time)) by by apply Hkeep.
      assert (te' = te) as -> by (apply (timer_of_in _ _ (proj1 Hok1)) in Hold; apply (timer_of_in _ _ (proj1 Hok1)) in Hte; congruence).
      pose proof (Hnone te Hte' ltac:(lia)) as Hf. by rewrite Hf in Hd.
    + intros te Hte Hlt. cbn in Hlt. apply Hkeep; [done|lia].
Qed.

(** C21: [processTimeEvents] of [ae.c], which starts again at the head of
    the list after every event it fires, returns while the clock runs: its
    result counts the events fired; every event that was there at the start
    and due then has fired or has been deleted by a handler, none fires
    twice, none fires before it is due, events created meanwhile do not
    fire, and the events that have not fired are as they were.  When the
    clock has gone back since the last call every event counts as old.

    Conditions: identifiers are distinct and below the next one; a handler
    returns, reads the clock at most [b] times, may create events and delete
    any, leaves the others as they are, and keeps its own when it asks to be
    called again; the readings of the clock made in the call, at most
    [L * (L + b + 2)] for [L] events, all lie within [D] milliseconds from
    [T], and a handler that asks to be called again asks for more than [D]
    milliseconds.  (A handler slower than its own period keeps the call from
    returning: [Demo.busy_timer_never_returns].) *)
Theorem processTimeEvents_fires_once b T D s time :
  0 <= D -> reading_ok T -> handlers_ok b D -> timers_ok (el s) -> steady T D (readings s) (readings_of b (el s)) ->
  exists fuel0 fired s', (forall fuel, (fuel0 <= fuel)%nat ->
      processTimeEvents clock time_proc final_proc fuel s time = Some (zlen fired, s')) /\
    fired_once T D time s s' fired.
Proof. apply processTimeEvents_run. Qed.

End Timers.
(** ** The time to sleep *)

Section Sleep.
Context {proc data : Type}.
Implicit Types (l : aeEventLoop proc data) (te : aeTimeEvent proc data).

(** Milliseconds until an event, negative when it is overdue. *)
Definition remaining (now : Z * Z) te : Z := 1000 * (when_sec te - now.1) + (when_ms te - now.2).

Lemma earlier_remaining now a b :
  0 <= when_ms a < 1000 -> 0 <= when_ms b < 1000 ->
  @earlier proc data a b = true <-> remaining now a < remaining now b.
Proof.
  intros Ha Hb. unfold earlier, remaining. rewrite orb_true_iff, andb_true_iff, Z.eqb_eq, !Z.ltb_lt. lia.
Qed.

Lemma nearest_loop_spec now (ts : list (aeTimeEvent proc data)) n te :
  Forall (fun te => 0 <= when_ms te < 1000) ts -> (forall x, n = Some x -> 0 <= when_ms x < 1000) ->
  nearest_loop ts n = Some te ->
  (te ∈ ts \/ n = Some te) /\ (forall x, x ∈ ts \/ n = Some x -> remaining now te <= remaining now x).
Proof.
  revert n. induction ts as [|x ts IH]; intros n Hts Hn; cbn.
  - intros ->. split; [by right|]. intros x [Hx%not_elem_of_nil|[= ->]]; [done|lia].
  - apply Forall_cons in Hts as [Hx Hts]. set (n' := match n with Some _ => _ | None => _ end). intros Hnear.
    assert (Hn' : exists y, n' = Some y /\ 0 <= when_ms y < 1000 /\ (y = x \/ n = Some y) /\
      remaining now y <= remaining now x /\ forall z, n = Some z -> remaining now y <= remaining now z).
    { subst n'. destruct n as [z|]; [|exists x; naive_solver lia]. specialize (Hn z eq_refl).
      pose proof (earlier_remaining now x z Hx Hn) as He. destruct (earlier x z).
      - exists x. split_and!; [done|lia|lia|by left|lia|]. intros ? [= <-]. pose proof (proj1 He eq_refl). lia.
      - exists z. split_and!; [done|lia|lia|by right| |intros ? [= <-]; lia].
        destruct (Z.lt_ge_cases (remaining now x) (remaining now z)); [|lia]. by apply He in H. }
    destruct Hn' as (y & Hy & Hb & Hor & Hyx & Hyn). rewrite Hy in Hnear.
    destruct (IH (Some y) Hts ltac:(intros ? [= <-]; done) Hnear) as [Hin Hmin]. split.
    + destruct Hin as [Hin|[= ->]]; [left; by right|]. destruct Hor as [->|]; [left; left|by right].
    + pose proof (Hmin y (or_intror eq_refl)) as Hle.
      intros z [Hz|Hz]; [apply elem_of_cons in Hz as [->|Hz]; [lia|apply Hmin; by left]|]. apply Hyn in Hz. lia.
Qed.

(** The event [aeSearchNearestTimer] finds is one of the loop's and none
    is due before it, and the timeout [aeProcessEvents] then gives to
    [epoll_wait] is, to the millisecond, the time until that event when it
    is not overdue, so that the loop never sleeps past it (for events less
    than 2^31 ms away, what the [int] of the call holds); when it is overdue
    the loop sleeps the same number of milliseconds modulo a second. *)
Theorem poll_timeout_exact l now te :
  Forall (fun te => 0 <= when_ms te < 1000) (timers l) -> 0 <= now.2 < 1000 ->
  aeSearchNearestTimer l = Some te -> remaining now te < 2 ^ 31 ->
  te ∈ timers l /\ (forall te', te' ∈ timers l -> remaining now te <= remaining now te') /\
  poll_timeout (Some (sleep_time now te)) =
    if 0 <=? remaining now te then remaining now te else remaining now te mod 1000.
Proof.
  intros Hts Hnow Hnear Hfar. apply (nearest_loop_spec now) in Hnear as [Hin Hmin]; [|done|done].
  destruct Hin as [Hin|]; [|done]. split_and!; [done|by intros te' Hte'; apply Hmin; left|].
  pose proof (proj1 (Forall_forall _ _) Hts te Hin) as Hms. cbv beta in Hms.
  unfold sleep_time, poll_timeout, remaining in *. destruct now as [sec ms]. cbn in *.
  set (ds := when_sec te - sec) in *. destruct (Z.ltb_spec (when_ms te) ms).
  - rewrite (proj2 (Z.ltb_ge (_ * 1000) 0)) by lia. rewrite Z.quot_mul by done.
    rewrite s32_small by (destruct (_ <? 0) eqn:?; lia).
    destruct (Z.leb_spec 0 (1000 * ds + (when_ms te - ms))), (Z.ltb_spec (ds - 1) 0); try lia.
    replace (1000 * ds + (when_ms te - ms)) with ((when_ms te + 1000 - ms) + (ds - 1) * 1000) by lia.
    rewrite Z.mod_add, Z.mod_small by lia. lia.
  - rewrite (proj2 (Z.ltb_ge (_ * 1000) 0)) by lia. rewrite Z.quot_mul by done.
    rewrite s32_small by (destruct (_ <? 0) eqn:?; lia).
    destruct (Z.leb_spec 0 (1000 * ds + (when_ms te - ms))), (Z.ltb_spec ds 0); try lia.
    replace (1000 * ds + (when_ms te - ms)) with ((when_ms te - ms) + ds * 1000) by lia.
    rewrite Z.mod_add, Z.mod_small by lia. lia.
Qed.

End Sleep.

(** ** A turn of the loop *)

Section Turn.
Context {proc data W : Type} `{EqDecision proc}
  (clock : nat -> Z * Z)
  (file_proc : proc -> W -> nat -> aeEventLoop proc data -> Z -> data -> Z -> option (W * nat * aeEventLoop proc data))
  (time_proc : proc -> W -> nat -> aeEventLoop proc data -> Z -> data -> option (Z * W * nat * aeEventLoop proc data))
  (final_proc : proc -> W -> data -> W)
  (epoll_wait : Z -> Z -> gmap Z Z -> list (Z * Z)).
Implicit Types (l : aeEventLoop proc data) (w : W).

Definition loop_ok l : Prop := table_ok l /\ timers_ok l.

(** Handlers of file events return; they may register, delete and create
    events, and do not resize the table. *)
Definition file_handlers_ok : Prop :=
  forall p w n l fd d m, loop_ok l ->
    exists w' n' l', file_proc p w n l fd d m = Some (w', n', l') /\ loop_ok l' /\ setsize l' = setsize l.

(** Handlers of time events keep the table in order. *)
Definition table_kept : Prop :=
  forall p w n l id d r w' n' l', table_ok l -> time_proc p w n l id d = Some (r, w', n', l') -> table_ok l'.

(** The kernel reports descriptors of its interest list. *)
Definition kernel_ok : Prop := forall n t k, Forall (fun e => is_Some (k !! e.1)) (epoll_wait n t k).

Lemma set_timers_table l ts : table_ok l -> table_ok (set_timers l ts).
Proof. intros [H1 H2 H3 H4 H5]. by split. Qed.

Lemma aged_table l time : table_ok l -> table_ok (aged l time).
Proof. intros [H1 H2 H3 H4 H5]. unfold aged. destruct (time <? lastTime l); by split. Qed.

Lemma fire_table (s s' : st proc data W) te :
  table_kept -> table_ok (el s) -> fire clock time_proc final_proc s te = Some s' -> table_ok (el s').
Proof.
  unfold fire. intros Ht Hok Hf. destruct (time_proc _ _ _ _ _ _) as [[[[r w'] n'] l']|] eqn:E; [|done].
  apply Ht in E; [|done]. cbn in Hf. destruct (negb _).
  - destruct (reschedule _ _ _); [|done]. simplify_eq/=. by apply set_timers_table.
  - simplify_eq. unfold aeDeleteTimeEvent. cbn. destruct (unlink_timer _ _) as [[te' ts]|]; [|done]. by apply set_timers_table.
Qed.

Lemma fires_table maxId (s s' : st proc data W) fired :
  table_kept -> fires clock time_proc final_proc maxId s fired s' -> table_ok (el s) -> table_ok (el s').
Proof.
  intros Ht Hf. induction Hf as [w n l n' Hn|w n l n' te s1 fired s2 Hn Hfire Hf IH]; [done|]. intros Hok. apply IH.
  eapply fire_table; [done| |done]. done.
Qed.

Lemma file_loop_ok fired (s : st proc data W) processed :
  file_handlers_ok -> loop_ok (el s) -> Forall (fun e => 0 <= e.1 < setsize (el s)) fired ->
  exists s', file_loop file_proc fired s processed = Some (processed + zlen fired, s') /\ loop_ok (el s').
Proof.
  intros Hf. revert s processed. induction fired as [|[fd m] fired IH]; intros s processed Hok Hr; cbn.
  { exists s. by rewrite Z.add_0_r. }
  apply Forall_cons in Hr as [Hfd Hr]. cbn in Hfd.
  destruct (table_get (el s) fd (proj1 Hok) Hfd) as (fe & -> & _). cbn. set (rfired := negb _).
  assert (Hcall : forall (c : bool) p d (s0 : st proc data W), loop_ok (el s0) -> exists s1,
    (if c then let? (w, n, l) := file_proc p (world s0) (readings s0) (el s0) fd d m in Some (St w n l) else Some s0) = Some s1 /\
    loop_ok (el s1) /\ setsize (el s1) = setsize (el s0)).
  { intros c p d s0 Hok0. destruct c; [|by exists s0].
    destruct (Hf p (world s0) (readings s0) (el s0) fd d m Hok0) as (w' & n' & l' & -> & Hok' & Hs'). by exists (St w' n' l'). }
  destruct (Hcall rfired (rfileProc fe) (clientData fe) s Hok) as (s1 & -> & Hok1 & Hs1). cbn.
  destruct (table_get (el s1) fd (proj1 Hok1) ltac:(lia)) as (fe1 & -> & _). cbn. set (wfired := negb _ && _).
  destruct (Hcall wfired (wfileProc fe1) (clientData fe1) s1 Hok1) as (s2 & -> & Hok2 & Hs2). cbn.
  destruct (IH s2 (processed + 1) Hok2) as (s' & -> & Hok'); [by rewrite Hs2, Hs1|].
  exists s'. split; [|done]. do 2 f_equal. lia.
Qed.

(** C22: a turn of the event loop ([aeProcessEvents] with all events)
    returns, whatever descriptors are ready and whatever events the handlers
    create.  First the descriptors reported within the time until the
    nearest event are served ([s1] is the state after them), with no access
    outside the table; then the time events, as [fired_once] says: those due
    fire, once each.  The result counts both, and the table, the kernel's
    interest list and the time events are in order for the next turn.

    Conditions: the table and the time events are in order, and handlers
    keep them so and return; the kernel reports descriptors of its list;
    file handlers do not resize the table; handlers of time events read the
    clock at most [b] times, leave other events as they are and ask for
    [AE_NOMORE] or for more than [D] milliseconds, where the readings of the
    clock in the second part of the turn lie within [D] milliseconds from
    [T].  Nothing is asked of the clock before that part. *)
Theorem aeProcessEvents_turn b D s time :
  file_handlers_ok -> table_kept -> handlers_ok time_proc b D -> 0 <= D -> kernel_ok -> loop_ok (el s) ->
  let tv : option (Z * Z) := sleep_time (clock (readings s)) <$> aeSearchNearestTimer (el s) in
  let ready := aeApiPoll epoll_wait (el s) tv in
  exists s1, file_loop file_proc ready
      (St (world s) (if tv then S (readings s) else readings s) (el s)) 0 = Some (zlen ready, s1) /\ loop_ok (el s1) /\
    forall T, reading_ok T -> steady clock T D (readings s1) (readings_of b (el s1)) ->
    exists fuel0 fired s2, (forall fuel, (fuel0 <= fuel)%nat ->
        aeProcessEvents clock file_proc time_proc final_proc fuel epoll_wait time s
          (AE_FILE_EVENTS |. AE_TIME_EVENTS)%C = Some (zlen ready + zlen fired, s2)) /\
      fired_once clock time_proc final_proc T D time s1 s2 fired /\ loop_ok (el s2).
Proof.
  intros Hf Ht Hh HD Hk Hok tv ready. destruct s as [w n l]. cbn in Hok, tv, ready |- *.
  assert (Hready : Forall (fun e => 0 <= e.1 < setsize l) ready).
  { apply Forall_fmap. eapply Forall_impl; [apply Hk|]. intros e [m He]. cbn. by apply (ok_interest l (proj1 Hok)) in He as [_ ?]. }
  destruct (file_loop_ok ready (St w (if tv then S n else n) l) 0 Hf Hok Hready) as (s1 & Hfiles & Hok1).
  exists s1. split; [done|]. split; [done|]. intros T HT Hs.
  destruct (processTimeEvents_run clock time_proc final_proc b T D s1 time HD HT Hh (proj2 Hok1) Hs)
    as (fuel0 & fired & s2 & Hp & Honce).
  exists fuel0, fired, s2. split_and!; [|done|].
  - intros fuel Hfuel. unfold aeProcessEvents. cbv zeta.
    change (negb ((AE_FILE_EVENTS |. AE_TIME_EVENTS)%C &. AE_TIME_EVENTS =? 0)%C) with true.
    change ((AE_FILE_EVENTS |. AE_TIME_EVENTS) &. AE_FILE_EVENTS =? 0)%C with false.
    change ((AE_FILE_EVENTS |. AE_TIME_EVENTS) &. AE_DONT_WAIT =? 0)%C with true.
    rewrite orb_true_r. cbn -[file_loop aeApiPoll processTimeEvents]. unfold ready, tv in Hfiles.
    destruct (aeSearchNearestTimer l) as [te|]; cbn -[file_loop aeApiPoll processTimeEvents] in Hfiles |- *;
      rewrite Hfiles; cbn -[processTimeEvents]; by rewrite Hp.
  - destruct Honce as (Hfires & _ & _ & _ & _ & Htm). split; [|done]. eapply fires_table; [done|apply Hfires|].
    by apply aged_table, Hok1.
Qed.

End Turn.

(** ** A loop at work *)

Module Demo.

Definition junk : list (aeFileEvent nat nat) := replicate 8 (FileEvent 7 0%nat 0%nat 0%nat).

Definition demo_ops : list (@op nat nat) :=
  [Create 3 AE_READABLE 1%nat 30%nat true; Create 5 AE_WRITABLE 2%nat 50%nat true; Create 6 AE_READABLE 1%nat 60%nat false;
   Create 9 AE_READABLE 1%nat 90%nat true; Create 3 AE_WRITABLE 2%nat 30%nat true; Query 3; Resize 5 junk;
   Delete 5 AE_WRITABLE; Resize 5 junk; Delete 3 AE_READABLE; Query 3; Query 40].

Lemma ae_table_refines_witness :
  exists l, perform_all (aeCreateEventLoop 8 0 junk) demo_ops = Some ([0; 0; -1; -1; 0; 3; -1; 0; 0; 0; 2; 0], l) /\
    (setsize l, interest l) = (5, {[3:=2]}) /\ zlen (events l) = setsize l /\
    (forall fd, is_Some (interest l !! fd) -> 0 <= fd <= maxfd l) /\
    (maxfd l = -1 \/ is_Some (interest l !! maxfd l)).
Proof.
  apply (ae_table_refines 8 0 junk demo_ops).
  - vm_compute. done.
  - repeat (apply List.Forall_cons; [by vm_compute|]). apply List.Forall_nil.
Defined.

(** The clock moves on by a millisecond between two readings. *)
Definition demo_clock (n : nat) : Z * Z := aeAddMillisecondsToNow (10, 500) (Z.of_nat n).

Lemma demo_steady n R D : Z.of_nat (n + R) <= D + 1 -> steady demo_clock (10, 500) D n R.
Proof.
  intros HR i Hi. destruct (add_ms (10, 500) (Z.of_nat i) ltac:(by unfold reading_ok; cbn) ltac:(lia)) as [Hr Hm].
  split; [done|]. unfold demo_clock. rewrite Hm. lia.
Qed.

(** Handler 0 is done at once, handler 1 asks for another second, handler 2
    creates an event and asks for 100 ms. *)
Definition demo_h (p : nat) (w : list Z) (n : nat) (l : aeEventLoop nat nat) (id : Z) (d : nat)
  : option (Z * list Z * nat * aeEventLoop nat nat) :=
  Some match p with
  | O => (AE_NOMORE, w ++ [id], n, l)
  | 1%nat => (1000, w ++ [id], n, l)
  | _ => if bool_decide (0 <= timeEventNextId l < 2 ^ 62)
         then (100, w ++ [id], S n, (aeCreateTimeEvent l (demo_clock n) 0 0%nat d None).2) else (AE_NOMORE, w ++ [id], n, l)
  end.

Lemma demo_handlers_ok : handlers_ok demo_h 1 90.
Proof.
  intros p w n l id d [Hnd Hlt] Hid.
  assert (Hkeep : filter (fun te => te_id te < timeEventNextId l) (timers l) = timers l)
    by (apply filter_keeps; intros x Hx; by apply (proj1 (Forall_forall _ _) Hlt)).
  unfold demo_h. destruct p as [|[|p]].
  - eexists _, _, _, _. split; [done|]. rewrite Hkeep. split_and!; [lia|lia|by split|lia|done|by left].
  - eexists _, _, _, _. split; [done|]. rewrite Hkeep. split_and!; [lia|lia|by split|lia|done|right; by split].
  - case_bool_decide as Hb; eexists _, _, _, _; (split; [done|]); [|rewrite Hkeep; split_and!; [lia|lia|by split|lia|done|by left]].
    cbn. rewrite s64_small by lia. split_and!; [lia|lia|split; cbn|lia| |right; split; [lia|by right]].
    + apply NoDup_cons. split; [|done]. intros (te & Heq & Hte)%list_elem_of_fmap.
      apply (proj1 (Forall_forall _ _) Hlt) in Hte. lia.
    + apply Forall_cons. split; [cbn; lia|]. eapply Forall_impl; [apply Hlt|]. cbn. lia.
    + rewrite decide_False by lia. etrans; [apply sublist_filter|done].
Qed.

Definition demo_timers : aeEventLoop nat nat :=
  set_nextId (set_timers (aeCreateEventLoop 8 5 junk)
    [TimeEvent 3 10 400 2%nat None 0%nat; TimeEvent 2 11 0 1%nat None 0%nat; TimeEvent 1 9 900 1%nat None 0%nat;
     TimeEvent 0 10 503 0%nat None 0%nat]) 4.

(** Two events are due, one becomes due meanwhile, and the one created
    meanwhile does not fire. *)
Example demo_fired :
  match processTimeEvents demo_clock demo_h (fun _ w _ => w) 40 (St [] 0 demo_timers) 10 with
  | Some (count, s) => (count, world s, (fun te => (te_id te, (when_sec te, when_ms te))) <$> timers (el s))
  | None => (0, [], [])
  end = (3, [3; 1; 0], [(4, (10, 501)); (3, (10, 602)); (2, (11, 0)); (1, (11, 506))]).
Proof. vm_compute. reflexivity. Qed.

Lemma processTimeEvents_fires_once_witness :
  exists fuel0 fired s', (forall fuel, (fuel0 <= fuel)%nat ->
      processTimeEvents demo_clock demo_h (fun _ w _ => w) fuel (St [] 0 demo_timers) 10 = Some (zlen fired, s')) /\
    fired_once demo_clock demo_h (fun _ w _ => w) (10, 500) 90 10 (St [] 0 demo_timers) s' fired.
Proof.
  apply (processTimeEvents_fires_once demo_clock demo_h (fun _ w _ => w) 1 (10, 500) 90 (St [] 0 demo_timers) 10).
  - lia.
  - by split.
  - exact demo_handlers_ok.
  - split; vm_compute.
    + repeat (apply NoDup_cons; split; [by set_solver +|]). apply NoDup_nil_2.
    + repeat (apply List.Forall_cons; [done|]). apply List.Forall_nil.
  - apply demo_steady. vm_compute. done.
Defined.

(** A handler that asks for a millisecond, under a clock that moves on by
    two seconds between readings: its event is due again at every scan. *)
Definition busy_clock (n : nat) : Z * Z := (2 * Z.of_nat n, 0).

Definition busy_h (p : nat) (w : unit) (n : nat) (l : aeEventLoop nat nat) (id : Z) (d : nat)
  : option (Z * unit * nat * aeEventLoop nat nat) := Some (1, w, n, l).

Definition busy_at (sec ms : Z) (next : Z) : aeEventLoop nat nat :=
  set_nextId (set_timers (aeCreateEventLoop 8 10 junk) [TimeEvent 0 sec ms 0%nat None 0%nat]) next.

Lemma busy_loop fuel n sec ms processed :
  sec < 2 * Z.of_nat n ->
  time_loop busy_clock busy_h (fun _ w _ => w) fuel (St tt n (busy_at sec ms 1)) 0 0 processed = None.
Proof.
  revert n sec ms processed. induction fuel as [|fuel IH]; intros n sec ms processed Hlt; [done|].
  cbn -[Z.mul Z.of_nat]. unfold due. cbn -[Z.mul Z.of_nat]. rewrite (proj2 (Z.ltb_lt _ _)) by lia. cbn -[Z.mul Z.of_nat].
  apply (IH (S (S n)) (aeAddMillisecondsToNow (busy_clock (S n)) 1).1 (aeAddMillisecondsToNow (busy_clock (S n)) 1).2).
  change (2 * Z.of_nat (S n) + 0 < 2 * Z.of_nat (S (S n))). lia.
Qed.

(** A handler slower than its own period: the call does not return. *)
Lemma busy_timer_never_returns fuel :
  processTimeEvents busy_clock busy_h (fun _ w _ => w) fuel (St tt 1 (busy_at 1 0 1)) 10 = None.
Proof. apply (busy_loop fuel 1 1 0). lia. Qed.

(** A file handler that stops reading its descriptor, with a look at the
    clock. *)
Definition demo_fh (p : nat) (w : list Z) (n : nat) (l : aeEventLoop nat nat) (fd : Z) (d : nat) (m : Z)
  : option (list Z * nat * aeEventLoop nat nat) :=
  Some (w ++ [100 + fd], S n,
   if bool_decide (0 <= fd) then default l (aeDeleteFileEvent l fd AE_READABLE) else l).

Lemma demo_delete_timers (l l' : aeEventLoop nat nat) fd m :
  aeDeleteFileEvent l fd m = Some l' -> timers l' = timers l /\ timeEventNextId l' = timeEventNextId l.
Proof.
  unfold aeDeleteFileEvent, aeApiDelEvent, obind. intros H. repeat (case_match; simplify_eq/=; try done).
Qed.

Lemma demo_file_handlers_ok : file_handlers_ok demo_fh.
Proof.
  intros p w n l fd d m [Ht Htm]. eexists _, _, _. split; [done|]. case_bool_decide; [|by split].
  destruct (delete_spec l fd AE_READABLE Ht) as (l' & E & Ht' & Hs & _); [done|done|]. rewrite E. cbn.
  apply demo_delete_timers in E as [E1 E2]. split; [|done]. split; [done|]. unfold timers_ok. by rewrite E1, E2.
Qed.

Definition demo_epoll_wait (n t : Z) (k : gmap Z Z) : list (Z * Z) := (fun e => (e.1, 5)) <$> map_to_list k.

Lemma demo_kernel_ok : kernel_ok demo_epoll_wait.
Proof.
  intros n t k. apply Forall_fmap, Forall_forall. intros [fd m] Hin%elem_of_map_to_list. by exists m.
Qed.

Definition demo_loop : aeEventLoop nat nat :=
  match perform_all demo_timers [Create 3 AE_READABLE 1%nat 30%nat true; Create 5 AE_WRITABLE 2%nat 50%nat true] with
  | Some (_, l) => l
  | None => demo_timers
  end.

Lemma demo_timers_ok : loop_ok demo_timers.
Proof.
  split.
  - assert (table_ok (aeCreateEventLoop 8 5 junk)) as [H1 H2 H3 H4 H5] by by apply created_ok. by split.
  - split; vm_compute.
    + repeat (apply NoDup_cons; split; [by set_solver +|]). apply NoDup_nil_2.
    + repeat (apply List.Forall_cons; [done|]). apply List.Forall_nil.
Qed.

Lemma demo_loop_ok : loop_ok demo_loop.
Proof.
  destruct demo_timers_ok as [Ht Htm]. split; [|exact Htm]. unfold demo_loop.
  destruct (perform_all_spec [Create 3 AE_READABLE 1%nat 30%nat true; Create 5 AE_WRITABLE 2%nat 50%nat true]
    demo_timers Ht) as (l & -> & Hok & _); [|done]. repeat (apply List.Forall_cons; [by vm_compute|]). apply List.Forall_nil.
Qed.

Lemma demo_table_kept : table_kept demo_h.
Proof.
  intros p w n l id d r w' n' l' Ht. unfold demo_h. destruct p as [|[|p]]; [by intros [= <- <- <- <-]|by intros [= <- <- <- <-]|].
  case_bool_decide; intros [= <- <- <- <-]; [|done]. destruct Ht. by split.
Qed.

(** Descriptors 3 and 5 are ready; the state after they have been served,
    and the state after the three time events. *)
Definition demo_served : st nat nat (list Z) :=
  Eval vm_compute in
    match file_loop demo_fh (aeApiPoll demo_epoll_wait demo_loop (Some (0, 0))) (St [] 1 demo_loop) 0 with
    | Some (_, s) => s
    | None => St [] 0 demo_loop
    end.

Example demo_turn :
  match aeProcessEvents demo_clock demo_fh demo_h (fun _ w _ => w) 40 demo_epoll_wait 10 (St [] 0 demo_loop) 3 with
  | Some (count, s) => (count, world s, interest (el s))
  | None => (0, [], ∅)
  end = (5, [105; 103; 3; 1; 0], {[5:=2]}).
Proof. vm_compute. reflexivity. Qed.

Lemma aeProcessEvents_turn_witness :
  exists fuel0 fired s2, (forall fuel, (fuel0 <= fuel)%nat ->
      aeProcessEvents demo_clock demo_fh demo_h (fun _ w _ => w) fuel demo_epoll_wait 10 (St [] 0 demo_loop)
        (AE_FILE_EVENTS |. AE_TIME_EVENTS)%C = Some (2 + zlen fired, s2)) /\
    fired_once demo_clock demo_h (fun _ w _ => w) (10, 500) 90 10 demo_served s2 fired /\ loop_ok (el s2).
Proof.
  destruct (aeProcessEvents_turn demo_clock demo_fh demo_h (fun _ w _ => w) demo_epoll_wait 1 90 (St [] 0 demo_loop) 10
    demo_file_handlers_ok demo_table_kept demo_handlers_ok ltac:(lia) demo_kernel_ok demo_loop_ok) as (s1 & Hf & _ & Hrun).
  assert (s1 = demo_served) as -> by (vm_compute in Hf; injection Hf as <-; reflexivity).
  apply (Hrun (10, 500)); [by split|]. apply demo_steady. vm_compute. done.
Defined.

Lemma poll_timeout_exact_witness :
  aeSearchNearestTimer demo_timers = Some (TimeEvent 1 9 900 1%nat None 0%nat) /\
  poll_timeout (Some (sleep_time (9, 250) (TimeEvent 1 9 900 1%nat None 0%nat : aeTimeEvent nat nat))) = 650.
Proof.
  split; [reflexivity|].
  refine (proj2 (proj2 (poll_timeout_exact demo_timers (9, 250) _ _ _ _ _))); [|done|reflexivity|done].
  repeat (apply List.Forall_cons; [done|]). apply List.Forall_nil.
Defined.

(** An event that is 100 ms late has the loop sleep for another 900. *)
Lemma overdue_sleeps :
  due (10, 600) (TimeEvent 0 10 500 0%nat None 0%nat : aeTimeEvent nat nat) = true /\
  poll_timeout (Some (sleep_time (10, 600) (TimeEvent 0 10 500 0%nat None 0%nat : aeTimeEvent nat nat))) = 900.
Proof. split; reflexivity. Qed.

End Demo.
End AeProofs.
