(* ===== verification/Startup.v ===== *)
(** * The start of the chat server: limits, sockets, events

    [adjustOpenFilesLimit], [listenToPort] and the part of [initServer] of
    [redis.c] that opens the listening sockets and registers the first
    events, with the functions of [anet.c] they call.

    What the kernel answers is given by functions: whether the limit of open
    files may be raised to a value, and for each address the results of the
    calls that make a listening socket of it.  The descriptors that are open
    are a set, so that a descriptor that is lost can be seen. *)

From S2P Require Import Prelude Ae Config.

Module Startup.
Import Ae Config.
#[local] Open Scope Z_scope.

(** ** The limit of open files *)

Section Limit.
Context (setrlimit : Z -> bool).

(** [while (f > oldlimit) ...]: [rlim_t] has 64 bits.  Returns [f] and the
    limit in force. *)
Fixpoint raise_limit (fuel : nat) (f oldlimit : Z) : option (Z * Z) :=
  match fuel with
  | O => None
  | S fuel =>
      if oldlimit <? f then
        if setrlimit f then Some (f, f) else raise_limit fuel (u64 (f - 128)) oldlimit
      else Some (f, oldlimit)
  end.

(** The new [server.maxclients], an [unsigned int], and the limit in force;
    [getrlimit] is the current limit, [None] when it cannot be obtained. *)
Definition adjustOpenFilesLimit (fuel : nat) (maxcl : Z) (getrlimit : option Z) : option (Z * option Z) :=
  let maxfiles := u32 (maxcl + 32) in
  match getrlimit with
  | None => Some (1024 - 32, None)
  | Some oldlimit =>
      if oldlimit <? maxfiles then
        let? (f, cur) := raise_limit fuel maxfiles oldlimit in
        let f := if f <? oldlimit then oldlimit else f in
        Some (if negb (f =? maxfiles) then u32 (f - 32) else maxcl, Some cur)
      else Some (maxcl, Some oldlimit)
  end.

End Limit.

(** ** Listening sockets *)

Definition ANET_OK : Z := 0.
Definition ANET_ERR : Z := -1.
Definition AF_INET : Z := 2.
Definition AF_INET6 : Z := 10.

(** One address and what the calls on it return. *)
Record candidate := Candidate {
  c_socket : option Z;      (* the descriptor, or -1 *)
  c_v6only : bool; c_reuse : bool; c_bind : bool; c_listen : bool }.

(** [getaddrinfo] for an address, a port and a family, [None] when it
    fails; the socket for a path. *)
Record net := Net {
  getaddrinfo : option (list Z) -> list Z -> Z -> option (list candidate);
  unix_socket : list Z -> candidate }.

Definition close (s : Z) (open : gset Z) : gset Z := open ∖ {[s]}.

Definition anetV6Only (c : candidate) (s : Z) (open : gset Z) : Z * gset Z :=
  if c_v6only c then (ANET_OK, open) else (ANET_ERR, close s open).

Definition anetSetReuseAddr (c : candidate) : Z := if c_reuse c then ANET_OK else ANET_ERR.

Definition anetListen (c : candidate) (s : Z) (open : gset Z) : Z * gset Z :=
  if negb (c_bind c) then (ANET_ERR, close s open)
  else if negb (c_listen c) then (ANET_ERR, close s open)
  else (ANET_OK, open).

(** The loop over the addresses that were found. *)
Fixpoint tcp_server_loop (af : Z) (cs : list candidate) (open : gset Z) : Z * gset Z :=
  match cs with
  | [] => (ANET_ERR, open)
  | c :: cs =>
      match c_socket c with
      | None => tcp_server_loop af cs open
      | Some s =>
          let open := {[s]} ∪ open in
          let '(r, open) := if af =? AF_INET6 then anetV6Only c s open else (ANET_OK, open) in
          if r =? ANET_ERR then (ANET_ERR, open) else
          if anetSetReuseAddr c =? ANET_ERR then (ANET_ERR, open) else
          let '(r, open) := anetListen c s open in
          if r =? ANET_ERR then (ANET_ERR, open) else (s, open)
      end
  end.

Section Sockets.
Context (k : net).

Definition _anetTcpServer (port : Z) (bindaddr : option (list Z)) (af : Z) (open : gset Z) : Z * gset Z :=
  match getaddrinfo k bindaddr (take 5 (fmt_d port)) af with
  | None => (ANET_ERR, open)
  | Some cs => tcp_server_loop af cs open
  end.

Definition anetTcpServer (port : Z) (bindaddr : option (list Z)) := _anetTcpServer port bindaddr AF_INET.
Definition anetTcp6Server (port : Z) (bindaddr : option (list Z)) := _anetTcpServer port bindaddr AF_INET6.

Definition anetCreateSocket (c : candidate) (open : gset Z) : Z * gset Z :=
  match c_socket c with
  | None => (ANET_ERR, open)
  | Some s =>
      let open := {[s]} ∪ open in
      if anetSetReuseAddr c =? ANET_ERR then (ANET_ERR, close s open) else (s, open)
  end.

(** The path is cut to the 107 bytes that fit in the address.  The [chmod] of
    the file at the end, whose result is not looked at, is left out. *)
Definition anetUnixServer (path : list Z) (open : gset Z) : Z * gset Z :=
  let c := unix_socket k (take 107 path) in
  let '(s, open) := anetCreateSocket c open in
  if s =? ANET_ERR then (ANET_ERR, open) else
  let '(r, open) := anetListen c s open in
  if r =? ANET_ERR then (ANET_ERR, open) else (s, open).

(** [fds] is [server.ipfd], an array of 16 descriptors. *)
Fixpoint listen_loop (port : Z) (addrs : list (list Z)) (fds : list Z) (count : Z) (open : gset Z)
  : option (Z * list Z * Z * gset Z) :=
  match addrs with
  | [] => Some (Command.Command.REDIS_OK, fds, count, open)
  | a :: addrs =>
      let '(s, open) :=
        match strchr 58 a with
        | Some _ => anetTcp6Server port (Some a) open
        | None => anetTcpServer port (Some a) open
        end in
      let? fds := zset fds count s in
      if s =? ANET_ERR then Some (Command.Command.REDIS_ERR, fds, count, open)
      else listen_loop port addrs fds (count + 1) open
  end.

Definition listenToPort (port : Z) (bindaddr : list (list Z)) (fds : list Z) (count : Z) (open : gset Z)
  : option (Z * list Z * Z * gset Z) :=
  match bindaddr with
  | [] =>
      let '(s, open) := anetTcp6Server port None open in
      let? fds := zset fds count s in
      let count := if negb (s =? ANET_ERR) then count + 1 else count in
      let '(s, open) := anetTcpServer port None open in
      let? fds := zset fds count s in
      let count := if negb (s =? ANET_ERR) then count + 1 else count in
      if negb (count =? 0) then Some (Command.Command.REDIS_OK, fds, count, open)
      else
        let? s := zget fds count in
        if s =? ANET_ERR then Some (Command.Command.REDIS_ERR, fds, count, open)
        else Some (Command.Command.REDIS_OK, fds, count + 1, open)
  | _ => listen_loop port bindaddr fds count open
  end.

(** ** The network part of [initServer] *)

Inductive handler := serverCron | acceptTcpHandler | acceptUnixHandler.
#[global] Instance handler_eq_dec : EqDecision handler.
Proof. solve_decision. Defined.

(** [aeCreateFileEvent] for each descriptor in turn; a failure panics. *)
Fixpoint register (l : aeEventLoop handler unit) (fds : list Z) (p : handler) : option (aeEventLoop handler unit) :=
  match fds with
  | [] => Some l
  | fd :: fds =>
      let? (r, l) := aeCreateFileEvent l fd AE_READABLE p tt true in
      if r =? AE_ERR then None else register l fds p
  end.

(** What the process holds once it listens: the number of clients, the
    event loop, the descriptors and which descriptors are open. *)
Record listening := Listening {
  l_maxclients : Z; l_el : aeEventLoop handler unit; l_ipfd : list Z; l_count : Z; l_sofd : Z; l_open : gset Z }.

(** From the limit of open files to the check that something is listened
    on; [inl tt] is an [exit(1)].  The [unlink] of an old socket file, whose
    result is not looked at, is left out.  [junk] is the memory of the event table
    and [fds] that of [server.ipfd]; [now] is the clock. *)
Definition open_sockets {D} (s : config D) (setrlimit : Z -> bool) (getrlimit : option Z) (fuel : nat)
    (junk : list (aeFileEvent handler unit)) (fds : list Z) (now : Z * Z) (open : gset Z)
  : option (unit + listening) :=
  let? (maxcl, _) := adjustOpenFilesLimit setrlimit fuel (num s maxclients) getrlimit in
  let l := aeCreateEventLoop (s32 (u32 (maxcl + 128))) now.1 junk in
  let? (r, fds, count, open) :=
    (if negb (num s port =? 0) then listenToPort (num s port) (bindaddr s) fds 0 open
     else Some (Command.Command.REDIS_OK, fds, 0, open)) in
  if r =? Command.Command.REDIS_ERR then Some (inl tt) else
  let '(sofd, open) :=
    match str s unixsocket with Some p => anetUnixServer p open | None => (-1, open) end in
  if bool_decide (is_Some (str s unixsocket)) && (sofd =? ANET_ERR) then Some (inl tt) else
  if (count =? 0) && (sofd <? 0) then Some (inl tt) else
  Some (inr (Listening maxcl l fds count sofd open)).

(** The timer and the handlers of the listening sockets; a failure panics. *)
Definition first_events (l : listening) (now : Z * Z) : option listening :=
  let '(id, el) := aeCreateTimeEvent (l_el l) now 1 serverCron tt None in
  if id =? AE_ERR then None else
  let? el := register el (take (Z.to_nat (l_count l)) (l_ipfd l)) acceptTcpHandler in
  let? el := (if 0 <? l_sofd l then register el [l_sofd l] acceptUnixHandler else Some el) in
  Some (Listening (l_maxclients l) el (l_ipfd l) (l_count l) (l_sofd l) (l_open l)).

End Sockets.

End Startup.
