(* ===== verification/StartupSpec.v ===== *)
(** * What the start of the chat server guarantees

    The number of clients is brought in line with the limit of open files,
    the listening sockets are those the configuration asks for, no
    descriptor is lost, and the event loop the server enters watches all of
    them. *)

From S2P Require Import Prelude Dict UserTable Ae AeSpec Config ConfigSpec ConfigRun Command Startup.
From stdpp Require Import list.

Module StartupSpec.
Import Ae AeProofs Config ConfigSpec Startup.
#[local] Open Scope Z_scope.

(** ** The limit of open files *)

Section Limit.
Context (setrlimit : Z -> bool).

Lemma raise_limit_spec fuel f old :
  127 <= old -> 0 <= f < 2 ^ 64 -> f / 128 < Z.of_nat fuel ->
  exists f' cur, raise_limit setrlimit fuel f old = Some (f', cur) /\ f' <= f /\
    ((f' <= old /\ cur = old) \/ (old < f' /\ cur = f' /\ setrlimit f' = true)).
Proof.
  revert f. induction fuel as [|fuel IH]; intros f Ho Hf Hfuel; [pose proof (Z.div_pos f 128); lia|].
  cbn [raise_limit]. destruct (Z.ltb_spec old f) as [Hlt|Hge].
  - destruct (setrlimit f) eqn:E; [exists f, f; split; [done|]; split; [lia|right; auto]|].
    rewrite wrapu_small by lia. destruct (IH (f - 128)) as (f' & cur & -> & Hle & Hc); [done|lia| |].
    + replace (f - 128) with (f + (-1) * 128) by lia. rewrite Z.div_add by lia. lia.
    + exists f', cur. split; [done|]. split; [lia|done].
  - exists f, old. split; [done|]. split; [lia|left; lia].
Qed.

Lemma adjust_spec maxcl old fuel :
  1 <= maxcl -> maxcl + 32 < 2 ^ 32 -> 127 <= old -> maxcl + 32 < 128 * Z.of_nat fuel ->
  exists mc cur, adjustOpenFilesLimit setrlimit fuel maxcl (Some old) = Some (mc, Some cur) /\
    1 <= mc <= maxcl /\ mc + 32 <= cur /\ old <= cur /\ (cur = old \/ setrlimit cur = true).
Proof.
  intros Hm Hw Ho Hfuel. unfold adjustOpenFilesLimit. rewrite (wrapu_small 32) by lia.
  destruct (Z.ltb_spec old (maxcl + 32)) as [Hlt|Hge].
  2:{ exists maxcl, old. split; [done|]. lia. }
  destruct (raise_limit_spec fuel (maxcl + 32) old Ho) as (f & cur & -> & Hf & Hc); [lia| |].
  { apply Z.div_lt_upper_bound; lia. }
  cbn [obind]. eexists _, cur. split; [done|].
  assert (Hc2 : (if f <? old then old else f) = cur /\ old <= cur <= maxcl + 32).
  { destruct (Z.ltb_spec f old); destruct Hc as [[? ->]|(? & -> & _)]; lia. }
  destruct Hc2 as [-> Hb]. destruct (Z.eqb_spec cur (maxcl + 32)) as [->|Hne]; cbn [negb].
  - split; [lia|]. split; [lia|]. split; [lia|]. destruct Hc as [[_ ?]|(_ & ? & ?)]; [by left|right; congruence].
  - rewrite (wrapu_small 32) by lia. split; [lia|]. split; [lia|]. split; [lia|].
    destruct Hc as [[_ ?]|(_ & ? & ?)]; [by left|right; congruence].
Qed.

(** A number of clients so large that the sum wraps around is not looked at. *)
Lemma adjust_wraps maxcl old fuel :
  2 ^ 32 <= maxcl + 32 -> maxcl < 2 ^ 32 -> 127 <= old ->
  adjustOpenFilesLimit setrlimit fuel maxcl (Some old) = Some (maxcl, Some old).
Proof.
  intros Hw Hm Ho. unfold adjustOpenFilesLimit.
  assert (u32 (maxcl + 32) = maxcl + 32 - 2 ^ 32) as ->.
  { unfold wrapu. symmetry. apply (Z.mod_unique_pos _ _ 1); lia. }
  by rewrite (proj2 (Z.ltb_ge _ _)) by lia.
Qed.

(** C38: the number of clients fits the limit of open files.  Whatever
    [maxclients] is configured, when at least 127 files may be open already
    the search for a limit ends.  If [maxclients] plus the 32 spare
    descriptors is below 2^32, the number of clients the server then allows,
    at least one and at most the configured one, fits with the spare
    descriptors in the limit that is in force, and the limit is never
    lowered; if the sum wraps around, [maxclients] and the limit are left as
    they are.  When the limit cannot be obtained, 992 clients are allowed. *)
Theorem maxclients_fits_limit maxcl limit fuel :
  1 <= maxcl < 2 ^ 32 -> (forall old, limit = Some old -> 127 <= old) -> maxcl + 32 < 128 * Z.of_nat fuel ->
  match limit with
  | None => adjustOpenFilesLimit setrlimit fuel maxcl limit = Some (992, None)
  | Some old =>
      if decide (maxcl + 32 < 2 ^ 32) then
        exists mc cur, adjustOpenFilesLimit setrlimit fuel maxcl limit = Some (mc, Some cur) /\
          1 <= mc <= maxcl /\ mc + 32 <= cur /\ old <= cur /\ (cur = old \/ setrlimit cur = true)
      else adjustOpenFilesLimit setrlimit fuel maxcl limit = Some (maxcl, Some old)
  end.
Proof.
  intros Hm Ho Hf. destruct limit as [old|]; [|done]. specialize (Ho old eq_refl).
  destruct (decide (maxcl + 32 < 2 ^ 32)); [apply adjust_spec; lia|apply adjust_wraps; lia].
Qed.

(** The number of clients in any case, for a limit that can be worked with. *)
Lemma adjust_any maxcl limit fuel :
  1 <= maxcl -> maxcl + 32 < 2 ^ 32 -> (forall old, limit = Some old -> 127 <= old < 2 ^ 30) ->
  (forall f, setrlimit f = true -> f < 2 ^ 30) -> maxcl + 32 < 128 * Z.of_nat fuel ->
  exists mc cur, adjustOpenFilesLimit setrlimit fuel maxcl limit = Some (mc, cur) /\
    1 <= mc < 2 ^ 30 /\ mc <= (if limit then maxcl else 992).
Proof.
  intros Hm Hw Hl Hs Hf. destruct limit as [old|]; [|exists 992, None; split; [done|]; lia].
  specialize (Hl old eq_refl).
  destruct (adjust_spec maxcl old fuel) as (mc & cur & E & Hb & Hcur & _ & Hc); [lia..|].
  exists mc, (Some cur). split; [done|]. assert (cur < 2 ^ 30) by (destruct Hc as [->|?%Hs]; lia). lia.
Qed.

(** With a lower limit the unsigned counter of the search can pass below
    zero, and then it never ends: the remainder modulo 128 stays. *)
Lemma raise_limit_never_ends fuel f old :
  (forall f, setrlimit f = false) -> 0 <= f < 2 ^ 64 -> 0 <= old < f mod 128 ->
  raise_limit setrlimit fuel f old = None.
Proof.
  intros Hs. revert f. induction fuel as [|fuel IH]; intros f Hf Ho; [done|]. cbn [raise_limit].
  pose proof (Z.mod_le f 128). rewrite (proj2 (Z.ltb_lt _ _)) by lia. rewrite Hs. apply IH; [apply (wrapu_bound 64); lia|].
  assert (u64 (f - 128) mod 128 = f mod 128) as ->; [|done].
  unfold wrapu. change (2 ^ 64) with (128 * 2 ^ 57). rewrite Z.rem_mul_r by lia.
  rewrite Z.mul_comm, Z.mod_add, Z.mod_mod by lia.
  replace (f - 128) with (f + (-1) * 128) by lia. by rewrite Z.mod_add by lia.
Qed.

End Limit.

(** ** Sockets *)

(** The descriptor does not depend on what else is open. *)
Lemma loop_fd af cs o1 o2 : (tcp_server_loop af cs o1).1 = (tcp_server_loop af cs o2).1.
Proof.
  induction cs as [|c cs IH]; [done|]. cbn [tcp_server_loop]. destruct (c_socket c) as [s|]; [|done].
  unfold anetV6Only, anetListen. destruct (af =? AF_INET6), (c_v6only c), (anetSetReuseAddr c =? ANET_ERR),
    (c_bind c), (c_listen c); done.
Qed.

(** Sockets are new, and the option to reuse addresses can be set. *)
Definition candidates_ok (open : gset Z) (cs : list candidate) : Prop :=
  Forall (fun c => c_reuse c = true /\ forall s, c_socket c = Some s -> 0 <= s /\ s ∉ open) cs.

Lemma loop_descriptors af cs open :
  candidates_ok open cs ->
  let '(s, open') := tcp_server_loop af cs open in
  (s = ANET_ERR /\ open' = open) \/ (0 <= s /\ s ∉ open /\ open' = {[s]} ∪ open).
Proof.
  induction 1 as [|c cs [Hr Hs] _ IH]; cbn [tcp_server_loop]; [by left|].
  destruct (c_socket c) as [s|]; [|exact IH]. destruct (Hs s eq_refl) as [Hs0 Hn].
  assert (Hclose : close s ({[s]} ∪ open) = open) by (unfold close; set_solver +Hn).
  unfold anetV6Only, anetSetReuseAddr, anetListen. rewrite Hr.
  destruct (af =? AF_INET6), (c_v6only c), (c_bind c), (c_listen c); cbn; rewrite ?Hclose; auto 6.
Qed.

Section Listen.
Context (k : net).

(** The descriptor that listens on an address, [-1] if that fails. *)
Definition server_fd (port : Z) (a : list Z) : Z :=
  match strchr 58 a with
  | Some _ => (anetTcp6Server k port (Some a) ∅).1
  | None => (anetTcpServer k port (Some a) ∅).1
  end.

Definition wildcard_fds (port : Z) : list Z :=
  filter (fun s => s <> ANET_ERR) [(anetTcp6Server k port None ∅).1; (anetTcpServer k port None ∅).1].

(** What the configuration asks for. *)
Definition wanted (port : Z) (addrs : list (list Z)) : list Z :=
  match addrs with [] => wildcard_fds port | _ => server_fd port <$> addrs end.

Lemma tcp_fd port a af o : (_anetTcpServer k port a af o).1 = (_anetTcpServer k port a af ∅).1.
Proof. unfold _anetTcpServer. destruct (getaddrinfo _ _ _ _); [apply loop_fd|done]. Qed.

Lemma server_fd_any port a o :
  (match strchr 58 a with
   | Some _ => anetTcp6Server k port (Some a) o
   | None => anetTcpServer k port (Some a) o
   end).1 = server_fd port a.
Proof. unfold server_fd. destruct (strchr 58 a); apply tcp_fd. Qed.

Lemma listen_loop_spec port addrs pre post open :
  (length addrs <= length post)%nat ->
  exists st fds count open', listen_loop k port addrs (pre ++ post) (zlen pre) open = Some (st, fds, count, open') /\
    (Forall (fun a => server_fd port a <> ANET_ERR) addrs /\ st = Command.REDIS_OK /\
       count = zlen pre + zlen addrs /\ take (Z.to_nat count) fds = pre ++ (server_fd port <$> addrs) \/
     ~ Forall (fun a => server_fd port a <> ANET_ERR) addrs /\ st = Command.REDIS_ERR).
Proof.
  revert pre post open. induction addrs as [|a addrs IH]; intros pre post open Hl; cbn [listen_loop].
  - eexists _, _, _, _. split; [done|]. left. split; [constructor|]. split; [done|]. split; [cbn; lia|].
    rewrite Nat2Z.id, take_app_length. by rewrite app_nil_r.
  - destruct post as [|x post]; [cbn in Hl; lia|]. cbn [length] in Hl.
    destruct (match strchr 58 a with Some _ => _ | None => _ end) as [s open1] eqn:E.
    assert (s = server_fd port a) as -> by (rewrite <- (server_fd_any port a open), E; done).
    rewrite SdsBufSpec.SdsBufProofs.zset_mid. cbn [obind].
    destruct (Z.eqb_spec (server_fd port a) ANET_ERR) as [He|He].
    + eexists _, _, _, _. split; [done|]. right. split; [|done]. by intros [? _]%Forall_cons.
    + replace (pre ++ server_fd port a :: post) with ((pre ++ [server_fd port a]) ++ post) by (by rewrite <- app_assoc).
      replace (zlen pre + 1) with (zlen (pre ++ [server_fd port a])) by (rewrite length_app; cbn; lia).
      destruct (IH (pre ++ [server_fd port a]) post open1 ltac:(lia)) as (st & fds & count & open' & -> & Hc).
      eexists _, _, _, _. split; [done|]. destruct Hc as [(HF & -> & -> & Ht)|[HF ->]].
      * left. split; [by constructor|]. split; [done|]. split; [rewrite length_app; cbn; lia|].
        rewrite Ht. by rewrite <- app_assoc.
      * right. split; [|done]. intros [_ ?]%Forall_cons. done.
Qed.

(** No descriptor is lost: a listening socket is the only one more, a
    failure leaves none. *)
Lemma tcp_server_descriptors port a af open :
  (forall cs, getaddrinfo k a (take 5 (fmt_d port)) af = Some cs -> candidates_ok open cs) ->
  let '(s, open') := _anetTcpServer k port a af open in
  (s = ANET_ERR /\ open' = open) \/ (0 <= s /\ s ∉ open /\ open' = {[s]} ∪ open).
Proof.
  intros Hc. unfold _anetTcpServer. destruct (getaddrinfo _ _ _ _) as [cs|] eqn:E; [|by left].
  by apply loop_descriptors, Hc.
Qed.

Definition all_bound (fds : list Z) : Prop := fds <> [] /\ ANET_ERR ∉ fds.

#[global] Instance all_bound_dec fds : Decision (all_bound fds).
Proof. unfold all_bound. apply _. Defined.

Lemma listen_spec port addrs fds open :
  zlen fds = REDIS_BINDADDR_MAX -> zlen addrs <= REDIS_BINDADDR_MAX ->
  exists st fds' count open', listenToPort k port addrs fds 0 open = Some (st, fds', count, open') /\
    if decide (all_bound (wanted port addrs))
    then st = Command.REDIS_OK /\ count = zlen (wanted port addrs) /\ take (Z.to_nat count) fds' = wanted port addrs
    else st = Command.REDIS_ERR.
Proof.
  unfold REDIS_BINDADDR_MAX. intros Hf Ha. destruct addrs as [|a addrs].
  - destruct fds as [|x [|y rest]]; [cbn in Hf; lia|cbn in Hf; lia|]. cbn [listenToPort wanted].
    destruct (anetTcp6Server k port None open) as [s6 o6] eqn:E6.
    destruct (anetTcpServer k port None o6) as [s4 o4] eqn:E4.
    unfold wildcard_fds.
    assert ((anetTcp6Server k port None ∅).1 = s6) as ->
      by (unfold anetTcp6Server in *; by rewrite <- (tcp_fd port None AF_INET6 open), E6).
    assert ((anetTcpServer k port None ∅).1 = s4) as ->
      by (unfold anetTcpServer in *; by rewrite <- (tcp_fd port None AF_INET o6), E4).
    assert (Hz0 : forall a v, zset (a :: y :: rest) 0 v = Some (v :: y :: rest))
      by (intros a v; apply (SdsBufSpec.SdsBufProofs.zset_mid [] (y :: rest) a v)).
    assert (Hz1 : forall a v, zset (a :: y :: rest) 1 v = Some (a :: v :: rest))
      by (intros a v; apply (SdsBufSpec.SdsBufProofs.zset_mid [a] rest y v)).
    rewrite Hz0. cbn [obind]. unfold ANET_ERR in *.
    destruct (Z.eqb_spec s6 (-1)) as [H6|H6]; cbn [negb];
      [rewrite Hz0|change (0 + 1) with 1; rewrite Hz1]; cbn [obind];
      (destruct (Z.eqb_spec s4 (-1)) as [H4|H4]; cbn [negb]).
    + subst. eexists _, _, _, _. split; [reflexivity|]. by rewrite decide_False by by intros [? _].
    + subst. rewrite filter_cons_False, filter_cons_True, filter_nil by (done || tauto).
      eexists _, _, _, _. split; [reflexivity|]. rewrite decide_True; [done|]. split; [done|]. set_solver.
    + subst. rewrite filter_cons_True, filter_cons_False, filter_nil by (done || tauto).
      eexists _, _, _, _. split; [reflexivity|]. rewrite decide_True; [done|]. split; [done|]. set_solver.
    + rewrite !filter_cons_True, filter_nil by done.
      eexists _, _, _, _. split; [reflexivity|]. rewrite decide_True; [done|]. split; [done|]. set_solver.
  - cbn [listenToPort wanted].
    destruct (listen_loop_spec port (a :: addrs) [] fds open) as (st & fds' & count & open' & Hl & Hc); [lia|].
    exists st, fds', count, open'. split; [exact Hl|].
    assert (Hb : Forall (fun a => server_fd port a <> ANET_ERR) (a :: addrs) <->
                 all_bound (server_fd port <$> a :: addrs)).
    { unfold all_bound. rewrite Forall_forall, list_elem_of_fmap. split.
      - intros H. split; [done|]. intros (b & He & Hin). by apply (H b Hin).
      - intros [_ H] b Hin He. apply H. by exists b. }
    destruct Hc as [(HF & -> & -> & Ht)|[HF ->]].
    + rewrite decide_True by by apply Hb. rewrite length_fmap. cbn [app length] in *. split; [done|].
      split; [lia|done].
    + rewrite decide_False; [done|]. by rewrite <- Hb.
Qed.

(** C37: [listenToPort] stays inside its array of 16 descriptors for every
    configuration the loader accepts and returns success exactly when every
    configured address, or one of the two wildcard addresses, could be bound;
    the array then holds exactly their descriptors, in order. *)
Theorem listening_sockets {D} (s : config D) fds open :
  in_range s -> zlen fds = REDIS_BINDADDR_MAX ->
  exists st fds' count open', listenToPort k (num s port) (bindaddr s) fds 0 open = Some (st, fds', count, open') /\
    if decide (all_bound (wanted (num s port) (bindaddr s)))
    then st = Command.REDIS_OK /\ count = zlen (wanted (num s port) (bindaddr s)) /\
         take (Z.to_nat count) fds' = wanted (num s port) (bindaddr s)
    else st = Command.REDIS_ERR.
Proof. intros [_ _ _ Hb _] Hf. by apply listen_spec. Qed.

(** ** Registration *)

Lemma register_spec (l : aeEventLoop handler unit) fds p :
  table_ok l -> Forall (fun fd => 0 <= fd < setsize l) fds ->
  exists l', register l fds p = Some l' /\ table_ok l' /\ setsize l' = setsize l /\
    forall fd, mask_at (interest l') fd =
      if decide (fd ∈ fds) then Z.lor (mask_at (interest l) fd) AE_READABLE else mask_at (interest l) fd.
Proof.
  revert l. induction fds as [|f fds IH]; intros l Hok HF; cbn [register].
  { exists l. split; [done|]. split; [done|]. split; [done|]. intros fd.
    by rewrite decide_False by apply not_elem_of_nil. }
  apply Forall_cons in HF as [Hf HF].
  destruct (create_spec l f AE_READABLE p tt true Hok) as (l1 & E & Hok1 & Hs1); [lia|done|].
  cbn [ref_perform fst snd] in E, Hs1. rewrite (proj2 (Z.leb_gt _ _)) in E, Hs1 by lia. cbn [orb negb fst snd] in E, Hs1.
  rewrite E. cbn [obind]. change (AE_OK =? AE_ERR) with false. cbn iota.
  injection Hs1 as Hsz Hi. destruct (IH l1 Hok1) as (l' & El & Hok' & Hsz' & Hm); [by rewrite Hsz|].
  exists l'. split; [done|]. split; [done|]. split; [congruence|]. intros fd. rewrite Hm, Hi, mask_at_put.
  destruct (decide (fd = f)) as [->|Hne].
  - rewrite bool_decide_eq_true_2 by done. rewrite (decide_True (P := f ∈ f :: fds)) by (by left).
    destruct (decide (f ∈ fds)); [|done]. rewrite <- Z.lor_assoc. by rewrite Z.lor_diag.
  - rewrite bool_decide_eq_false_2 by done.
    destruct (decide (fd ∈ fds)) as [Hin|Hin].
    + by rewrite decide_True by (by right).
    + rewrite decide_False; [done|]. by intros [?|?]%elem_of_cons.
Qed.

(** ** The whole start *)

Lemma unix_server_fd p o : (anetUnixServer k p o).1 = (anetUnixServer k p ∅).1.
Proof.
  unfold anetUnixServer, anetCreateSocket, anetListen. set (c := unix_socket k _).
  destruct (c_socket c) as [s|]; [|done].
  destruct (anetSetReuseAddr c =? ANET_ERR); [done|]. destruct (s =? ANET_ERR); [done|].
  by destruct (c_bind c), (c_listen c).
Qed.

Section Start.
Context {D : Type}.
Implicit Types s : config D.

Definition tcp_fds s : list Z := if num s port =? 0 then [] else wanted (num s port) (bindaddr s).
Definition unix_fd s : option Z := (fun p => (anetUnixServer k p ∅).1) <$> str s unixsocket.
Definition all_fds s : list Z := tcp_fds s ++ option_list (unix_fd s).

(** A TCP port is asked for and not all its addresses can be bound, or a
    path and it cannot, or neither is asked for. *)
Definition cannot_listen s : Prop :=
  (num s port <> 0 /\ ~ all_bound (wanted (num s port) (bindaddr s))) \/
  unix_fd s = Some ANET_ERR \/ (num s port = 0 /\ unix_fd s = None).

Lemma listen_step s fds open :
  in_range s -> zlen fds = REDIS_BINDADDR_MAX ->
  exists st fds' count open',
    (if negb (num s port =? 0) then listenToPort k (num s port) (bindaddr s) fds 0 open
     else Some (Command.REDIS_OK, fds, 0, open)) = Some (st, fds', count, open') /\
    ((st = Command.REDIS_ERR /\ num s port <> 0 /\ ~ all_bound (wanted (num s port) (bindaddr s))) \/
     (st = Command.REDIS_OK /\ (num s port <> 0 -> all_bound (wanted (num s port) (bindaddr s))) /\
      take (Z.to_nat count) fds' = tcp_fds s /\ (count = 0 <-> num s port = 0))).
Proof.
  intros [_ _ _ Hb _] Hf. unfold tcp_fds. destruct (Z.eqb_spec (num s port) 0) as [Hp|Hp]; cbn [negb].
  - eexists _, _, _, _. split; [done|]. right. by repeat split.
  - destruct (listen_spec (num s port) (bindaddr s) fds open Hf Hb) as (st & fds' & count & open' & -> & Hc).
    eexists _, _, _, _. split; [done|]. destruct (decide _) as [Hall|Hall].
    + right. destruct Hc as (-> & -> & Ht). split; [done|]. split; [done|]. split; [done|].
      split; [|done]. intros H0. destruct Hall as [Hne _]. by destruct (wanted _ _).
    + left. auto.
Qed.

Definition fd_ok (fd : Z) : Prop := fd = ANET_ERR \/ 0 < fd <= 128.

(** The events of a loop that watches some descriptors. *)
Definition watches (l : aeEventLoop handler unit) (fds : list Z) : Prop :=
  forall fd, mask_at (interest l) fd = if decide (fd ∈ fds) then AE_READABLE else AE_NONE.

Lemma register_more (l : aeEventLoop handler unit) fds more p :
  table_ok l -> 129 <= setsize l -> watches l fds -> Forall (fun fd => 0 < fd <= 128) more ->
  exists l', register l more p = Some l' /\ table_ok l' /\ setsize l' = setsize l /\ watches l' (fds ++ more).
Proof.
  intros Hok Hs Hw HF. destruct (register_spec l more p Hok) as (l' & -> & Hok' & Hsz & Hm).
  { eapply Forall_impl; [exact HF|]. cbn. lia. }
  exists l'. split; [done|]. split; [done|]. split; [done|]. intros fd. rewrite Hm, Hw.
  destruct (decide (fd ∈ more)) as [Hin|Hin], (decide (fd ∈ fds)) as [Hin'|Hin'].
  - by rewrite decide_True by set_solver.
  - by rewrite decide_True by set_solver.
  - by rewrite decide_True by set_solver.
  - by rewrite decide_False by set_solver.
Qed.

(** The new event loop with the timer. *)
Lemma new_loop size now (junk : list (aeFileEvent handler unit)) :
  129 <= size <= zlen junk ->
  exists l, aeCreateTimeEvent (aeCreateEventLoop size now.1 junk) now 1 serverCron tt None = (0, l) /\
    table_ok l /\ setsize l = size /\ watches l [].
Proof.
  intros Hs. eexists. split; [reflexivity|]. pose proof (created_ok size now.1 junk ltac:(lia)) as [H1 H2 H3 H4 H5].
  split; [by split|]. split; [done|]. intros fd. rewrite decide_False by apply not_elem_of_nil. done.
Qed.

Lemma good_fds fds : Forall fd_ok fds -> ANET_ERR ∉ fds -> Forall (fun fd => 0 < fd <= 128) fds.
Proof.
  intros HF Hn. rewrite Forall_forall in HF |- *. intros fd Hin. destruct (HF fd Hin) as [->|?]; [|done]. done.
Qed.

Lemma unix_step s open :
  exists sofd open', (match str s unixsocket with Some p => anetUnixServer k p open | None => (-1, open) end) = (sofd, open') /\
    ((bool_decide (is_Some (str s unixsocket)) = false /\ unix_fd s = None /\ sofd = -1) \/
     (bool_decide (is_Some (str s unixsocket)) = true /\ unix_fd s = Some sofd)).
Proof.
  unfold unix_fd. destruct (str s unixsocket) as [p|].
  - pose proof (unix_server_fd p open) as Hu. destruct (anetUnixServer k p open) as [sofd o]. exists sofd, o.
    split; [done|]. right. cbn in Hu |- *. by rewrite <- Hu.
  - exists (-1), open. split; [done|]. by left.
Qed.

(** The two parts of [initServer] one after the other. *)
Definition start_network s setrlimit old fuel junk fds now open : option (unit + listening) :=
  let? r := open_sockets k s setrlimit old fuel junk fds now open in
  match r with
  | inl _ => Some r
  | inr l => let? l := first_events l now in Some (inr l)
  end.

(** C12: the server listens on what it was told to.  With a configuration the
    loader accepts whose [maxclients] is below 2^32 - 32, when the limit of
    open files cannot be obtained or is from 127 up to 2^30 and is not raised
    beyond that, there is memory for the event table, and the sockets that
    can be made have descriptors from 1 to 128, the start of the server
    neither faults nor panics nor searches for ever: either it ends with an
    error because what the configuration asks for cannot be listened on, or
    the event loop watches exactly the listening sockets that were asked
    for, for reading. *)
Theorem server_listens s setrlimit limit fuel junk fds now open :
  in_range s -> num s maxclients + 32 < 2 ^ 32 ->
  (forall old, limit = Some old -> 127 <= old < 2 ^ 30) -> (forall f, setrlimit f = true -> f < 2 ^ 30) ->
  num s maxclients + 32 < 128 * Z.of_nat fuel ->
  (if limit then num s maxclients else 992) + 128 <= zlen junk -> zlen fds = REDIS_BINDADDR_MAX ->
  Forall fd_ok (all_fds s) ->
  exists x, start_network s setrlimit limit fuel junk fds now open = Some x /\
    match x with
    | inl _ => cannot_listen s
    | inr r => ~ cannot_listen s /\ 1 <= l_maxclients r <= (if limit then num s maxclients else 992) /\
        take (Z.to_nat (l_count r)) (l_ipfd r) = tcp_fds s /\ watches (l_el r) (all_fds s)
    end.
Proof.
  intros Hs Hmc Hold Hset Hfuel Hjunk Hfds Hall. unfold start_network, open_sockets.
  pose proof (range_num s Hs maxclients) as Hm1. cbn [lo] in Hm1.
  destruct (adjust_any setrlimit (num s maxclients) limit fuel) as (mc & cur & -> & Hb & Hb2); [lia|lia|done|done|lia|].
  cbn [obind].
  rewrite (wrapu_small 32), s32_small by lia.
  destruct (listen_step s fds open Hs Hfds) as (st & fds' & count & open' & -> & Hl). cbn [obind].
  destruct Hl as [(-> & Hp & Hnb)|(-> & Hbound & Htake & Hcount)].
  { change (Command.REDIS_ERR =? Command.REDIS_ERR) with true. cbn iota. eexists. split; [done|]. by left. }
  change (Command.REDIS_OK =? Command.REDIS_ERR) with false. cbn iota.
  unfold all_fds in *. apply Forall_app in Hall as [Htcp Hunix].
  assert (Hgood : Forall (fun fd => 0 < fd <= 128) (tcp_fds s)).
  { apply good_fds; [done|]. unfold tcp_fds. destruct (Z.eqb_spec (num s port) 0); [apply not_elem_of_nil|].
    by apply Hbound. }
  destruct (new_loop (mc + 128) now junk ltac:(lia)) as (l & Hnew & Hok & Hsz & Hw).
  destruct (unix_step s open') as (sofd & open2 & -> & Hu).
  destruct (register_more l [] (tcp_fds s) acceptTcpHandler Hok ltac:(lia) Hw Hgood) as (l2 & Hr2 & Hok2 & Hsz2 & Hw2).
  destruct Hu as [(-> & Hnone & ->)|(-> & Hsome)]; cbn [andb].
  - destruct (Z.eqb_spec count 0) as [H0|H0]; cbn [andb].
    { change (-1 <? 0) with true. cbn [obind]. eexists. split; [done|]. right. right. split; [by apply Hcount|done]. }
    cbn [obind first_events l_el l_count l_ipfd l_sofd]. unfold first_events. cbn [l_el l_count l_ipfd l_sofd].
    rewrite Hnew. change (0 =? AE_ERR) with false. cbn iota. rewrite Htake, Hr2. cbn [obind].
    change (0 <? -1) with false. cbn [obind]. eexists. split; [done|].
    cbn [l_maxclients l_count l_ipfd l_el]. split; [|split; [lia|split; [done|by rewrite Hnone, app_nil_r]]].
    intros [[Hp Hb']|[Hx|[Hp _]]]; [by apply Hb', Hbound|congruence|by apply H0, Hcount].
  - destruct (Z.eqb_spec sofd ANET_ERR) as [->|Hne].
    { eexists. split; [done|]. by right; left. }
    rewrite Hsome in Hunix. cbn in Hunix. apply (proj1 (Forall_singleton _ _)) in Hunix as [?|Hsofd]; [done|].
    rewrite (proj2 (Z.ltb_ge sofd 0)) by lia. rewrite andb_false_r. cbn [obind].
    unfold first_events. cbn [l_el l_count l_ipfd l_sofd]. rewrite Hnew.
    change (0 =? AE_ERR) with false. cbn iota. rewrite Htake, Hr2. cbn [obind].
    rewrite (proj2 (Z.ltb_lt 0 sofd)) by lia.
    destruct (register_more l2 ([] ++ tcp_fds s) [sofd] acceptUnixHandler Hok2 ltac:(lia) Hw2) as (l3 & -> & _ & _ & Hw3).
    { by apply Forall_singleton. }
    cbn [obind]. eexists. split; [done|]. cbn [l_maxclients l_count l_ipfd l_el].
    split; [|split; [lia|split; [done|by rewrite Hsome]]].
    intros [[Hp Hb']|[Hx|[_ Hx]]]; [by apply Hb', Hbound|congruence|congruence].
Qed.

End Start.

End Listen.

(** ** Runs *)

Module Demo.
Import ConfigRun.Demo.

(** A machine without IPv6: the first address cannot be used, the second
    listens on descriptor 5. *)
Definition no_socket : candidate := Candidate None true true true true.
Definition machine : net :=
  Net (fun _ _ af => if af =? AF_INET then Some [no_socket; Candidate (Some 5) true true true true] else None)
      (fun _ => Candidate (Some 6) true true true true).

Lemma C0_in_range : in_range C0.
Proof. destruct C0_init as [tbl H]. exact (init_range [] C0 tbl H). Qed.

Definition some_allowed (f : Z) : bool := f <=? 600.

Lemma maxclients_fits_limit_witness :
  exists mc cur, adjustOpenFilesLimit some_allowed 20 1000 (Some 256) = Some (mc, Some cur) /\
    1 <= mc <= 1000 /\ mc + 32 <= cur /\ 256 <= cur /\ (cur = 256 \/ some_allowed cur = true).
Proof.
  pose proof (maxclients_fits_limit some_allowed 1000 (Some 256) 20 ltac:(lia)
                ltac:(intros old [= <-]; lia) ltac:(lia)) as H. cbn iota in H.
  rewrite decide_True in H by lia. exact H.
Defined.

(** The [-1] that the loader accepts. *)
Example maxclients_minus_one : adjustOpenFilesLimit some_allowed 20 (2 ^ 32 - 1) (Some 256) = Some (2 ^ 32 - 1, Some 256).
Proof. reflexivity. Qed.

Example limit_found : adjustOpenFilesLimit some_allowed 20 1000 (Some 256) = Some (488, Some 520).
Proof. reflexivity. Qed.

(** With fewer than 32 files the subtraction wraps around: more than four
    thousand million clients are allowed. *)
Example few_files_wrap : adjustOpenFilesLimit (fun _ => false) 20 1000 (Some 16) = Some (4294967280, Some 16).
Proof. reflexivity. Qed.

(** With 64 files and 1100 clients the search goes on for ever. *)
Example start_hangs fuel : adjustOpenFilesLimit (fun _ => false) fuel 1100 (Some 64) = None.
Proof.
  unfold adjustOpenFilesLimit. change (64 <? u32 (1100 + 32)) with true. cbn iota.
  change (u32 (1100 + 32)) with 1132.
  by rewrite (raise_limit_never_ends (fun _ => false) fuel 1132 64).
Qed.

(** A socket on which the option to reuse addresses cannot be set stays open. *)
Example reuse_failure_leaks :
  tcp_server_loop AF_INET [Candidate (Some 7) true false true true] ∅ = (ANET_ERR, {[7]}).
Proof. reflexivity. Qed.

Definition no_fds : list Z := replicate 16 0.

Lemma listening_sockets_witness :
  exists st fds' count open', listenToPort machine (num C0 port) (bindaddr C0) no_fds 0 ∅ = Some (st, fds', count, open') /\
    if decide (all_bound (wanted machine (num C0 port) (bindaddr C0)))
    then st = Command.REDIS_OK /\ count = zlen (wanted machine (num C0 port) (bindaddr C0)) /\
         take (Z.to_nat count) fds' = wanted machine (num C0 port) (bindaddr C0)
    else st = Command.REDIS_ERR.
Proof. exact (listening_sockets machine C0 no_fds ∅ C0_in_range eq_refl). Defined.

Definition events0 : list (aeFileEvent handler unit) := replicate 1128 (FileEvent 77 serverCron serverCron tt).

Lemma server_listens_witness :
  exists x, start_network machine C0 some_allowed (Some 256) 20 events0 no_fds (0, 0) ∅ = Some x /\
    match x with
    | inl _ => cannot_listen machine C0
    | inr r => ~ cannot_listen machine C0 /\ 1 <= l_maxclients r <= num C0 maxclients /\
        take (Z.to_nat (l_count r)) (l_ipfd r) = tcp_fds machine C0 /\ watches (l_el r) (all_fds machine C0)
    end.
Proof.
  assert (Hm : num C0 maxclients = 1000) by (vm_compute; reflexivity).
  apply (server_listens machine C0 some_allowed (Some 256) 20 events0 no_fds (0, 0) ∅ C0_in_range).
  - rewrite Hm. lia.
  - intros old [= <-]. lia.
  - intros f Hf. unfold some_allowed in Hf. lia.
  - rewrite Hm. lia.
  - rewrite Hm. vm_compute. discriminate.
  - reflexivity.
  - assert (all_fds machine C0 = [5]) as -> by (vm_compute; reflexivity).
    apply Forall_singleton. right. lia.
Defined.

End Demo.

End StartupSpec.
