(* ===== verification/DConn.v ===== *)
(** * servernet.c of the load balancer: one connection

    A connection of the dispatcher reads command lines, asks the message
    server registry for [loadbalance msgservers] and writes the answer.  The
    state machine is that of memcached: a growable read buffer, a reply line,
    and a list of message headers over a scatter/gather array for
    [sendmsg].  This file models the connection structure, its buffers, the
    tokenizer, the command dispatcher and the cases of [drive_machine] that
    serve a client; [DLoop] adds the listening socket and the event loop. *)

From S2P Require Import Prelude.

Module DConn.

Definition DATA_BUFFER_SIZE : Z := 2048.
Definition MAX_PAYLOAD_SIZE : Z := 1400.
Definition ITEM_LIST_INITIAL : Z := 200.
Definition IOV_LIST_INITIAL : Z := 400.
Definition MSG_LIST_INITIAL : Z := 10.
Definition READ_BUFFER_HIGHWAT : Z := 8192.
Definition ITEM_LIST_HIGHWAT : Z := 400.
Definition IOV_LIST_HIGHWAT : Z := 600.
Definition MSG_LIST_HIGHWAT : Z := 100.
Definition IOV_MAX : Z := 1024.
Definition MAX_TOKENS : Z := 8.
Definition AE_READABLE : Z := 1.
Definition AE_WRITABLE : Z := 2.

Inductive conn_states :=
| conn_listening | conn_read | conn_write | conn_nread
| conn_swallow | conn_closing | conn_mwrite.

#[global] Instance conn_states_eq_dec : EqDecision conn_states.
Proof. solve_decision. Defined.

(** The read buffer: [rcurr] is an offset into [rbuf]. *)
Record rdbuf := Rd { rbuf : list Z; rcurr : Z; rsize : Z; rbytes : Z }.

(** The reply line: [wcurr] is an offset into [wbuf]. *)
Record wrbuf := Wr { wbuf : list Z; wcurr : Z; wsize : Z; wbytes : Z }.

(** Every [iov_base] of the program points into the reply line of the same
    connection; it is kept as an offset into [wbuf]. *)
Record iovec := Iovec { iov_base : Z; iov_len : Z }.

(** [msg_iov] is an index into the connection's [iov] array. *)
Record msghdr := Msghdr { msg_iov : Z; msg_iovlen : Z }.

Record outq := Out {
  iov : list iovec; iovsize : Z; iovused : Z;
  msglist : list msghdr; msgsize : Z; msgused : Z; msgcurr : Z; msgbytes : Z
}.

(** [struct conn], its buffers grouped.  [item], [ritem] and
    [write_and_free] are null in every connection of this program: the code
    that would set them was removed with the storage commands. *)
Record conn := Conn {
  sfd : Z; state : conn_states; ev_flags : Z;
  rd : rdbuf; wr : wrbuf; out : outq;
  write_and_go : conn_states; noreply : bool;
  rlbytes : Z; sbytes : Z;
  isize : Z; icurr : Z; ileft : Z
}.

Definition set_sfd (c : conn) x : conn :=
  Conn x (state c) (ev_flags c) (rd c) (wr c) (out c) (write_and_go c) (noreply c)
    (rlbytes c) (sbytes c) (isize c) (icurr c) (ileft c).
Definition set_state (c : conn) x : conn :=
  Conn (sfd c) x (ev_flags c) (rd c) (wr c) (out c) (write_and_go c) (noreply c)
    (rlbytes c) (sbytes c) (isize c) (icurr c) (ileft c).
Definition set_ev_flags (c : conn) x : conn :=
  Conn (sfd c) (state c) x (rd c) (wr c) (out c) (write_and_go c) (noreply c)
    (rlbytes c) (sbytes c) (isize c) (icurr c) (ileft c).
Definition set_rd (c : conn) x : conn :=
  Conn (sfd c) (state c) (ev_flags c) x (wr c) (out c) (write_and_go c) (noreply c)
    (rlbytes c) (sbytes c) (isize c) (icurr c) (ileft c).
Definition set_wr (c : conn) x : conn :=
  Conn (sfd c) (state c) (ev_flags c) (rd c) x (out c) (write_and_go c) (noreply c)
    (rlbytes c) (sbytes c) (isize c) (icurr c) (ileft c).
Definition set_out (c : conn) x : conn :=
  Conn (sfd c) (state c) (ev_flags c) (rd c) (wr c) x (write_and_go c) (noreply c)
    (rlbytes c) (sbytes c) (isize c) (icurr c) (ileft c).
Definition set_write_and_go (c : conn) x : conn :=
  Conn (sfd c) (state c) (ev_flags c) (rd c) (wr c) (out c) x (noreply c)
    (rlbytes c) (sbytes c) (isize c) (icurr c) (ileft c).
Definition set_noreply (c : conn) x : conn :=
  Conn (sfd c) (state c) (ev_flags c) (rd c) (wr c) (out c) (write_and_go c) x
    (rlbytes c) (sbytes c) (isize c) (icurr c) (ileft c).
Definition set_sbytes (c : conn) x : conn :=
  Conn (sfd c) (state c) (ev_flags c) (rd c) (wr c) (out c) (write_and_go c) (noreply c)
    (rlbytes c) x (isize c) (icurr c) (ileft c).
Definition set_items (c : conn) size curr left : conn :=
  Conn (sfd c) (state c) (ev_flags c) (rd c) (wr c) (out c) (write_and_go c) (noreply c)
    (rlbytes c) (sbytes c) size curr left.

(** ** The outside of a connection

    [rx] holds the bytes the peer sent that were not read yet, [rx_eof]
    whether it closed its side, [tx] the bytes sent to it.  The counters
    number the system calls, the reallocations and the registry queries made
    so far, [bytes_read] and [bytes_written] are those of [stats]. *)
Record net := Net {
  rx : list Z; rx_eof : bool; tx : list Z;
  calls : nat; allocs : nat; asked : nat;
  bytes_read : Z; bytes_written : Z
}.

(** What the kernel does with a read or send that could make progress:
    transfer up to [k] bytes, say [EAGAIN], or fail. *)
Inductive choice := Take (k : nat) | Again | Hard.

Inductive sysres := Got (bs : list Z) | Eof | WouldBlock | Error.

(** The result of a [sendmsg]. *)
Inductive sendres := Sent (n : Z) | SendAgain | SendError.

Inductive transmit_result :=
| TRANSMIT_COMPLETE | TRANSMIT_INCOMPLETE | TRANSMIT_SOFT_ERROR | TRANSMIT_HARD_ERROR.

Record token_t := Token { value : option Z; tok_length : Z }.

(** How an iteration of the loop of [drive_machine] ends. *)
Inductive step_result := Continue | Stop | Close.

Section Machine.

(** The kernel's choice and the outcome of [realloc] for each numbered call,
    and the registry's answer to each numbered query: the element strings of
    the reply, or a null reply. *)
Context (kernel : nat -> choice) (realloc_ok : nat -> bool)
        (redis_reply : nat -> option (list (list Z))).

Definition tick (w : net) : net :=
  Net (rx w) (rx_eof w) (tx w) (S (calls w)) (allocs w) (asked w) (bytes_read w) (bytes_written w).

(** [read(sfd, buf, n)]. *)
Definition sys_read (n : Z) (w : net) : sysres * net :=
  if n <=? 0 then (Eof, tick w) else
  match kernel (calls w) with
  | Hard => (Error, tick w)
  | Again => (WouldBlock, tick w)
  | Take k =>
      if bool_decide (rx w = []) then (if rx_eof w then Eof else WouldBlock, tick w)
      else
        let m := Nat.max 1 (Nat.min k (Nat.min (Z.to_nat n) (length (rx w)))) in
        (Got (take m (rx w)),
         Net (drop m (rx w)) (rx_eof w) (tx w) (S (calls w)) (allocs w) (asked w)
           (u64 (bytes_read w + Z.of_nat m)) (bytes_written w))
  end.

(** [sendmsg] of the concatenation [bs] of the message's slices. *)
Definition sys_sendmsg (bs : list Z) (w : net) : sendres * net :=
  if bool_decide (bs = []) then (Sent 0, tick w) else
  match kernel (calls w) with
  | Hard => (SendError, tick w)
  | Again => (SendAgain, tick w)
  | Take k =>
      let m := Nat.max 1 (Nat.min k (length bs)) in
      (Sent (Z.of_nat m),
       Net (rx w) (rx_eof w) (tx w ++ take m bs) (S (calls w)) (allocs w) (asked w)
         (bytes_read w) (u64 (bytes_written w + Z.of_nat m)))
  end.

(** [realloc] of an array to [n] elements; what it adds is uninitialised
    and never read before it is written. *)
Definition realloc {A} (junk : A) (l : list A) (n : Z) (w : net) : option (list A) * net :=
  (if realloc_ok (allocs w)
   then Some (take (Z.to_nat n) l ++ replicate (Z.to_nat n - length l) junk) else None,
   Net (rx w) (rx_eof w) (tx w) (calls w) (S (allocs w)) (asked w) (bytes_read w) (bytes_written w)).

(** ** The message list *)

Definition add_msghdr (o : outq) (w : net) : option (Z * outq * net) :=
  let push o w :=
    let? l := zset (msglist o) (msgused o) (Msghdr (iovused o) 0) in
    Some (0, Out (iov o) (iovsize o) (iovused o) l (msgsize o) (msgused o + 1) (msgcurr o) 0, w) in
  if msgsize o =? msgused o then
    match realloc (Msghdr 0 0) (msglist o) (msgsize o * 2) w with
    | (None, w) => Some (-1, o, w)
    | (Some l, w) =>
        push (Out (iov o) (iovsize o) (iovused o) l (msgsize o * 2) (msgused o) (msgcurr o) (msgbytes o)) w
    end
  else push o w.

(** The loop of [ensure_iov_space] that points the headers at the new
    array. *)
Fixpoint repoint (l : list msghdr) (n : nat) (iovnum : Z) : list msghdr :=
  match n, l with
  | S n, m :: l => Msghdr iovnum (msg_iovlen m) :: repoint l n (iovnum + msg_iovlen m)
  | _, _ => l
  end.

Definition ensure_iov_space (o : outq) (w : net) : Z * outq * net :=
  if iovsize o <=? iovused o then
    match realloc (Iovec 0 0) (iov o) (iovsize o * 2) w with
    | (None, w) => (-1, o, w)
    | (Some l, w) =>
        (0, Out l (iovsize o * 2) (iovused o) (repoint (msglist o) (Z.to_nat (msgused o)) 0)
              (msgsize o) (msgused o) (msgcurr o) (msgbytes o), w)
    end
  else (0, o, w).

(** Adding [len] bytes at offset [buf] of the reply line. *)
Fixpoint add_iov_loop (fuel : nat) (o : outq) (buf len : Z) (w : net) : option (Z * outq * net) :=
  match fuel with
  | O => None
  | S fuel =>
      let? m := zget (msglist o) (msgused o - 1) in
      let limit_to_mtu := msgused o =? 1 in
      let? (_, o, w) :=
        (if (msg_iovlen m =? IOV_MAX) || (limit_to_mtu && (MAX_PAYLOAD_SIZE <=? msgbytes o))
         then add_msghdr o w else Some (0, o, w)) in
      let '(r, o, w) := ensure_iov_space o w in
      if negb (r =? 0) then Some (-1, o, w) else
      let leftover :=
        if limit_to_mtu && (MAX_PAYLOAD_SIZE <? len + msgbytes o)
        then len + msgbytes o - MAX_PAYLOAD_SIZE else 0 in
      let len := len - leftover in
      let? m := zget (msglist o) (msgused o - 1) in
      let? v := zset (iov o) (msg_iov m + msg_iovlen m) (Iovec buf len) in
      let? l := zset (msglist o) (msgused o - 1) (Msghdr (msg_iov m) (msg_iovlen m + 1)) in
      let o := Out v (iovsize o) (iovused o + 1) l (msgsize o) (msgused o) (msgcurr o)
                 (msgbytes o + len) in
      if 0 <? leftover then add_iov_loop fuel o (buf + len) leftover w else Some (0, o, w)
  end.

(** At most the first two messages are limited, so four rounds are more
    than the loop ever makes. *)
Definition add_iov (o : outq) (buf len : Z) (w : net) : option (Z * outq * net) :=
  add_iov_loop 4 o buf len w.

(** ** Buffer sizes and state changes *)

Definition conn_shrink (c : conn) (w : net) : option (conn * net) :=
  let? (c, w) :=
    (let r := rd c in
     if (READ_BUFFER_HIGHWAT <? rsize r) && (rbytes r <? DATA_BUFFER_SIZE) then
       let? b :=
         (if negb (rcurr r =? 0)
          then let? bs := zread (rbuf r) (rcurr r) (rbytes r) in zwrite (rbuf r) 0 bs
          else Some (rbuf r)) in
       match realloc 0 b DATA_BUFFER_SIZE w with
       | (Some b, w) => Some (set_rd c (Rd b 0 DATA_BUFFER_SIZE (rbytes r)), w)
       | (None, w) => Some (set_rd c (Rd b 0 (rsize r) (rbytes r)), w)
       end
     else Some (c, w)) in
  let '(c, w) :=
    (if ITEM_LIST_HIGHWAT <? isize c then
       match realloc tt [] ITEM_LIST_INITIAL w with
       | (Some _, w) => (set_items c ITEM_LIST_INITIAL (icurr c) (ileft c), w)
       | (None, w) => (c, w)
       end
     else (c, w)) in
  let '(c, w) :=
    (let o := out c in
     if MSG_LIST_HIGHWAT <? msgsize o then
       match realloc (Msghdr 0 0) (msglist o) MSG_LIST_INITIAL w with
       | (Some l, w) =>
           (set_out c (Out (iov o) (iovsize o) (iovused o) l MSG_LIST_INITIAL (msgused o)
                         (msgcurr o) (msgbytes o)), w)
       | (None, w) => (c, w)
       end
     else (c, w)) in
  let o := out c in
  if IOV_LIST_HIGHWAT <? iovsize o then
    match realloc (Iovec 0 0) (iov o) IOV_LIST_INITIAL w with
    | (Some l, w) =>
        Some (set_out c (Out l IOV_LIST_INITIAL (iovused o) (msglist o) (msgsize o) (msgused o)
                           (msgcurr o) (msgbytes o)), w)
    | (None, w) => Some (c, w)
    end
  else Some (c, w).

Definition conn_set_state (c : conn) (s : conn_states) (w : net) : option (conn * net) :=
  if bool_decide (s = state c) then Some (c, w) else
  let? (c, w) := (if bool_decide (s = conn_read) then conn_shrink c w else Some (c, w)) in
  Some (set_state c s, w).

(** [out_string]; [str] is the C string without its terminator. *)
Definition out_string (c : conn) (str : list Z) (w : net) : option (conn * net) :=
  if noreply c then conn_set_state (set_noreply c false) conn_read w else
  let b := wr c in
  let str := if wsize b <? zlen str + 2
             then bytes_of_string "SERVER_ERROR output line too long" else str in
  let? buf := zwrite (wbuf b) 0 str in
  let? buf := zwrite buf (zlen str) CRLF in
  let c := set_wr c (Wr buf 0 (wsize b) (zlen str + 2)) in
  let? (c, w) := conn_set_state c conn_write w in
  Some (set_write_and_go c conn_read, w).

(** ** Commands *)

(** The tokenizer's loop over the buffer [b]: [s] is the start of the
    current word and [e] the position looked at. *)
Fixpoint tokenize_loop (fuel : nat) (b : list Z) (s e : Z) (tokens : list token_t) (max : Z)
  : option (list Z * Z * list token_t) :=
  if zlen tokens <? max - 1 then
    match fuel with
    | O => None
    | S fuel =>
        let? ch := zget b e in
        if ch =? 32 then
          if negb (s =? e) then
            let? b := zset b e 0 in
            tokenize_loop fuel b (e + 1) (e + 1) (tokens ++ [Token (Some s) (e - s)]) max
          else tokenize_loop fuel b (e + 1) (e + 1) tokens max
        else if ch =? 0 then
          Some (b, e, if negb (s =? e) then tokens ++ [Token (Some s) (e - s)] else tokens)
        else tokenize_loop fuel b s (e + 1) tokens max
    end
  else Some (b, e, tokens).

Definition tokenize_command (b : list Z) (command : Z) (max : Z)
  : option (list Z * list token_t) :=
  let? (b, e, tokens) := tokenize_loop (length b) b command command [] max in
  let? ch := zget b e in
  Some (b, tokens ++ [Token (if ch =? 0 then None else Some e) 0]).

(** The C string at an offset of a buffer, which must be terminated within
    it. *)
Definition string_at (b : list Z) (off : Z) : option (list Z) :=
  let s := drop (Z.to_nat off) b in
  if (0 <=? off) && bool_decide (0 ∈ s) then Some (cstr s) else None.

Definition token_string (b : list Z) (tokens : list token_t) (i : Z) : option (list Z) :=
  let? t := zget tokens i in
  let? p := value t in
  string_at b p.

(** The argument of [%s] for a pointer into the buffer.  The terminal token
    may be a null pointer, which the GNU library prints as [(null)]; the C
    standard leaves it undefined. *)
Definition printf_value (b : list Z) (v : option Z) : option (list Z) :=
  match v with None => Some (bytes_of_string "(null)") | Some p => string_at b p end.

(** The loop that prints the tokens: the arguments of its [%s]. *)
Fixpoint print_tokens (b : list Z) (tokens : list token_t) : option (list (list Z)) :=
  match tokens with
  | [] => Some []
  | t :: tokens =>
      let? s := printf_value b (value t) in
      let? r := print_tokens b tokens in Some (s :: r)
  end.

(** Ask the registry for the message server with the fewest users. *)
Definition getLazyMsgServer (c : conn) (w : net) : option (conn * net) :=
  let w' := Net (rx w) (rx_eof w) (tx w) (calls w) (allocs w) (S (asked w))
              (bytes_read w) (bytes_written w) in
  let? reply := redis_reply (asked w) in
  match reply with
  | [ip] => out_string c (cstr ip) w'
  | _ => out_string c (bytes_of_string "NOT_FOUND_MSGSERVER") w'
  end.

Definition porcess_get_msgserver (c : conn) (w : net) : option (conn * net) :=
  getLazyMsgServer c w.

(** The line printed when [settings.verbose] is above 1 is left out: it is 1
    throughout. *)
Definition process_command (c : conn) (command : Z) (w : net) : option (conn * net) :=
  let o := out c in
  let o := Out (iov o) (iovsize o) 0 (msglist o) (msgsize o) 0 0 (msgbytes o) in
  let? (r, o, w) := add_msghdr o w in
  let c := set_out c o in
  if negb (r =? 0) then
    out_string c (bytes_of_string "SERVER_ERROR out of memory preparing response") w
  else
  let r := rd c in
  let? (b, tokens) := tokenize_command (rbuf r) command MAX_TOKENS in
  let? _ := print_tokens b tokens in
  let c := set_rd c (Rd b (rcurr r) (rsize r) (rbytes r)) in
  if 3 <=? zlen tokens then
    let? t0 := token_string b tokens 0 in
    if streq t0 (bytes_of_string "loadbalance") then
      let? (c, w) := out_string c (bytes_of_string "ERROR") w in
      let? t1 := token_string b tokens 1 in
      if streq t1 (bytes_of_string "msgservers") then porcess_get_msgserver c w
      else Some (c, w)
    else Some (c, w)
  else Some (c, w).

(** ** Reading *)

Definition try_read_command (c : conn) (w : net) : option (Z * conn * net) :=
  let r := rd c in
  if rsize r <? rcurr r then None else
  if rbytes r =? 0 then Some (0, c, w) else
  let? bs := zread (rbuf r) (rcurr r) (rbytes r) in
  match memchr 10 bs with
  | None => Some (0, c, w)
  | Some i =>
      let el := rcurr r + i in
      let cont := el + 1 in
      let? el :=
        (if 1 <? el - rcurr r
         then let? p := zget (rbuf r) (el - 1) in Some (if p =? 13 then el - 1 else el)
         else Some el) in
      let? b := zset (rbuf r) el 0 in
      if rcurr r + rbytes r <? cont then None else
      let c := set_rd c (Rd b (rcurr r) (rsize r) (rbytes r)) in
      let? (c, w) := process_command c (rcurr r) w in
      let r := rd c in
      let c := set_rd c (Rd (rbuf r) cont (rsize r) (rbytes r - (cont - rcurr r))) in
      if rsize (rd c) <? rcurr (rd c) then None else Some (1, c, w)
  end.

(** The part of the reading loop after the buffer has room: [again] is the
    next iteration. *)
Definition receive (again : conn -> net -> option (Z * conn * net)) (gotdata : Z) (c : conn) (w : net)
  : option (Z * conn * net) :=
  let r := rd c in
  let avail := rsize r - rbytes r in
  match sys_read avail w with
  | (Got bs, w) =>
      let? b := zwrite (rbuf r) (rbytes r) bs in
      let c := set_rd c (Rd b (rcurr r) (rsize r) (rbytes r + zlen bs)) in
      if zlen bs =? avail then again c w else Some (1, c, w)
  | (Eof, w) => let? (c, w) := conn_set_state c conn_closing w in Some (1, c, w)
  | (WouldBlock, w) => Some (gotdata, c, w)
  | (Error, w) => let? (c, w) := conn_set_state c conn_closing w in Some (1, c, w)
  end.

(** The reading loop.  Doubling the buffer must not overflow an [int]. *)
Fixpoint read_loop (fuel : nat) (c : conn) (gotdata : Z) (w : net) : option (Z * conn * net) :=
  match fuel with
  | O => None
  | S fuel =>
      let r := rd c in
      let again c w := read_loop fuel c 1 w in
      if rsize r <=? rbytes r then
        if 2 ^ 31 <=? rsize r * 2 then None else
        match realloc 0 (rbuf r) (rsize r * 2) w with
        | (None, w) =>
            let c := set_rd c (Rd (rbuf r) (rcurr r) (rsize r) 0) in
            let? (c, w) := out_string c (bytes_of_string "SERVER_ERROR out of memory reading request") w in
            Some (1, set_write_and_go c conn_closing, w)
        | (Some b, w) => receive again gotdata (set_rd c (Rd b 0 (rsize r * 2) (rbytes r))) w
        end
      else receive again gotdata c w
  end.

Definition try_read_network (c : conn) (w : net) : option (Z * conn * net) :=
  let r := rd c in
  let? c :=
    (if negb (rcurr r =? 0) then
       let? b := (if negb (rbytes r =? 0)
                  then let? bs := zread (rbuf r) (rcurr r) (rbytes r) in zwrite (rbuf r) 0 bs
                  else Some (rbuf r)) in
       Some (set_rd c (Rd b 0 (rsize r) (rbytes r)))
     else Some c) in
  read_loop (S (S (length (rx w)))) c 0 w.

(** ** Writing *)

Definition iov_slice (wbuf : list Z) (v : iovec) : option (list Z) := zread wbuf (iov_base v) (iov_len v).

(** The bytes of a list of slices. *)
Fixpoint gather (wbuf : list Z) (vs : list iovec) : option (list Z) :=
  match vs with
  | [] => Some []
  | v :: vs => let? a := iov_slice wbuf v in let? b := gather wbuf vs in Some (a ++ b)
  end.

(** Drop the slices that were sent completely. *)
Fixpoint skip_sent (fuel : nat) (v : list iovec) (m : msghdr) (res : Z) : option (msghdr * Z) :=
  match fuel with
  | O => Some (m, res)
  | S fuel =>
      if 0 <? msg_iovlen m then
        let? e := zget v (msg_iov m) in
        if iov_len e <=? res
        then skip_sent fuel v (Msghdr (msg_iov m + 1) (msg_iovlen m - 1)) (res - iov_len e)
        else Some (m, res)
      else Some (m, res)
  end.

Definition transmit (c : conn) (w : net) : option (transmit_result * conn * net) :=
  let o := out c in
  let? curr :=
    (if msgcurr o <? msgused o then
       let? m := zget (msglist o) (msgcurr o) in
       Some (if msg_iovlen m =? 0 then msgcurr o + 1 else msgcurr o)
     else Some (msgcurr o)) in
  let o := Out (iov o) (iovsize o) (iovused o) (msglist o) (msgsize o) (msgused o) curr (msgbytes o) in
  let c := set_out c o in
  if curr <? msgused o then
    let? m := zget (msglist o) curr in
    let? vs := zread (iov o) (msg_iov m) (msg_iovlen m) in
    let? bs := gather (wbuf (wr c)) vs in
    match sys_sendmsg bs w with
    | (Sent res, w) =>
        if 0 <? res then
          let? (m, res) := skip_sent (Z.to_nat (msg_iovlen m)) (iov o) m res in
          let? v :=
            (if 0 <? res then
               let? e := zget (iov o) (msg_iov m) in
               zset (iov o) (msg_iov m) (Iovec (iov_base e + res) (iov_len e - res))
             else Some (iov o)) in
          let? l := zset (msglist o) curr m in
          Some (TRANSMIT_INCOMPLETE,
                set_out c (Out v (iovsize o) (iovused o) l (msgsize o) (msgused o) curr (msgbytes o)), w)
        else
          let? (c, w) := conn_set_state c conn_closing w in Some (TRANSMIT_HARD_ERROR, c, w)
    | (SendAgain, w) => Some (TRANSMIT_SOFT_ERROR, set_ev_flags c AE_WRITABLE, w)
    | (SendError, w) =>
        let? (c, w) := conn_set_state c conn_closing w in Some (TRANSMIT_HARD_ERROR, c, w)
    end
  else Some (TRANSMIT_COMPLETE, c, w).

(** ** The cases of [drive_machine] *)

Definition drive_read (c : conn) (w : net) : option (step_result * conn * net) :=
  let? (r, c, w) := try_read_command c w in
  if negb (r =? 0) then Some (Continue, c, w) else
  let? (r, c, w) := try_read_network c w in
  if negb (r =? 0) then Some (Continue, c, w) else
  Some (Stop, set_ev_flags c AE_READABLE, w).

Definition drive_swallow (c : conn) (w : net) : option (step_result * conn * net) :=
  let r := rd c in
  if sbytes c =? 0 then
    let? (c, w) := conn_set_state c conn_read w in Some (Continue, c, w)
  else if 0 <? rbytes r then
    let tocopy := Z.min (rbytes r) (sbytes c) in
    Some (Continue,
          set_sbytes (set_rd c (Rd (rbuf r) (rcurr r + tocopy) (rsize r) (rbytes r - tocopy)))
            (sbytes c - tocopy), w)
  else
    match sys_read (Z.min (sbytes c) (rsize r)) w with
    | (Got bs, w) =>
        let? b := zwrite (rbuf r) 0 bs in
        Some (Continue,
              set_sbytes (set_rd c (Rd b (rcurr r) (rsize r) (rbytes r))) (sbytes c - zlen bs), w)
    | (WouldBlock, w) => Some (Stop, set_ev_flags c AE_READABLE, w)
    | (_, w) => let? (c, w) := conn_set_state c conn_closing w in Some (Continue, c, w)
    end.

Definition drive_transmit (c : conn) (w : net) : option (step_result * conn * net) :=
  let? (r, c, w) := transmit c w in
  match r with
  | TRANSMIT_COMPLETE =>
      let? (c, w) :=
        match state c with
        | conn_mwrite => conn_set_state (set_items c (isize c) (icurr c + ileft c) 0) conn_read w
        | conn_write => conn_set_state c (write_and_go c) w
        | _ => conn_set_state c conn_closing w
        end in
      Some (Continue, c, w)
  | TRANSMIT_INCOMPLETE | TRANSMIT_HARD_ERROR => Some (Continue, c, w)
  | TRANSMIT_SOFT_ERROR => Some (Stop, c, w)
  end.

Definition drive_write (c : conn) (w : net) : option (step_result * conn * net) :=
  if iovused (out c) =? 0 then
    let? (r, o, w) := add_iov (out c) (wcurr (wr c)) (wbytes (wr c)) w in
    let c := set_out c o in
    if negb (r =? 0) then
      let? (c, w) := conn_set_state c conn_closing w in Some (Continue, c, w)
    else drive_transmit c w
  else drive_transmit c w.

(** One iteration for a client connection.  [conn_nread] dereferences the
    null [item] or [ritem]; [conn_listening] belongs to the event loop. *)
Definition drive_step (c : conn) (w : net) : option (step_result * conn * net) :=
  match state c with
  | conn_read => drive_read c w
  | conn_swallow => drive_swallow c w
  | conn_write => drive_write c w
  | conn_mwrite => drive_transmit c w
  | conn_closing => Some (Close, c, w)
  | conn_nread | conn_listening => None
  end.

(** [true] when the connection must be closed, [false] when it waits for
    its next event. *)
Fixpoint drive_conn (fuel : nat) (c : conn) (w : net) : option (bool * conn * net) :=
  match fuel with
  | O => None
  | S fuel =>
      let? (r, c, w) := drive_step c w in
      match r with
      | Continue => drive_conn fuel c w
      | Stop => Some (false, c, w)
      | Close => Some (true, c, w)
      end
  end.

End Machine.

(** The connection [conn_new] sets up for a descriptor. *)
Definition fresh_conn (fd : Z) (init_state : conn_states) (read_buffer_size : Z) : conn :=
  Conn fd init_state AE_READABLE
    (Rd (replicate (Z.to_nat read_buffer_size) 0) 0 read_buffer_size 0)
    (Wr (replicate (Z.to_nat DATA_BUFFER_SIZE) 0) 0 DATA_BUFFER_SIZE 0)
    (Out (replicate (Z.to_nat IOV_LIST_INITIAL) (Iovec 0 0)) IOV_LIST_INITIAL 0
         (replicate (Z.to_nat MSG_LIST_INITIAL) (Msghdr 0 0)) MSG_LIST_INITIAL 0 0 0)
    conn_read false 0 0 ITEM_LIST_INITIAL 0 0.

End DConn.
