(* ===== verification/DConnSpec.v ===== *)
(** * Correctness of a dispatcher connection

    The reference is a function from the bytes a client sends to the bytes
    it should get back: the input is cut into lines, each line into words,
    and each [loadbalance] command has its reply.  The state machine with its
    growing read buffer, in-place tokenizer, split messages and partial
    sends is shown to produce exactly that. *)

From S2P Require Import Prelude DConn.

Module DConnProofs.
Import DConn.

(** ** The reference *)

(** The words of a text, [cur] being the part of the current word already
    seen. *)
Fixpoint words (cur s : list Z) : list (list Z) :=
  match s with
  | [] => if bool_decide (cur = []) then [] else [cur]
  | c :: s =>
      if c =? 32 then (if bool_decide (cur = []) then words [] s else cur :: words [] s)
      else words (cur ++ [c]) s
  end.

(** A line without the carriage return at its end, unless that is all of it. *)
Definition strip_cr (line : list Z) : list Z :=
  if (1 <? zlen line) && bool_decide (last line = Some 13) then removelast line else line.

(** The text of a line; a NUL ends it. *)
Definition line_text (line : list Z) : list Z := cstr (strip_cr line).

Definition reply_line (str : list Z) : list Z :=
  (if DATA_BUFFER_SIZE <? zlen str + 2 then bytes_of_string "SERVER_ERROR output line too long"
   else str) ++ CRLF.

Section Reference.
Context (redis_reply : nat -> option (list (list Z))).

Definition registry_answer (n : nat) : list Z :=
  match redis_reply n with
  | Some [ip] => cstr ip
  | _ => bytes_of_string "NOT_FOUND_MSGSERVER"
  end.

(** The reply to a command text, when [n] queries were made before it, and
    the number of queries made after it. *)
Definition text_reply (n : nat) (text : list Z) : list Z * nat :=
  match words [] text with
  | w0 :: w1 :: _ =>
      if bool_decide (w0 = bytes_of_string "loadbalance") then
        if bool_decide (w1 = bytes_of_string "msgservers")
        then (reply_line (registry_answer n), S n)
        else (reply_line (bytes_of_string "ERROR"), n)
      else ([], n)
  | _ => ([], n)
  end.

Definition command_reply (n : nat) (line : list Z) : list Z * nat := text_reply n (line_text line).

(** The replies to a byte stream, [line] being the unfinished line. *)
Fixpoint serve (n : nat) (line s : list Z) : list Z :=
  match s with
  | [] => []
  | c :: s =>
      if c =? 10 then (command_reply n line).1 ++ serve (command_reply n line).2 [] s
      else serve n (line ++ [c]) s
  end.

Lemma serve_line n line l s :
  10 ∉ l ->
  serve n line (l ++ 10 :: s) =
  (command_reply n (line ++ l)).1 ++ serve (command_reply n (line ++ l)).2 [] s.
Proof.
  revert line. induction l as [|c l IH]; intros line Hl; simpl.
  - by rewrite app_nil_r.
  - apply not_elem_of_cons in Hl as [??]. rewrite (proj2 (Z.eqb_neq c 10)) by done.
    by rewrite IH, <- app_assoc.
Qed.

Lemma serve_no_newline n line s : 10 ∉ s -> serve n line s = [].
Proof.
  revert line. induction s as [|c s IH]; intros line Hl; simpl; [done|].
  apply not_elem_of_cons in Hl as [??]. rewrite (proj2 (Z.eqb_neq c 10)) by done. by apply IH.
Qed.

Lemma serve_prefix n line s t : serve n line s `prefix_of` serve n line (s ++ t).
Proof.
  revert n line. induction s as [|c s IH]; intros n line; simpl; [apply prefix_nil|].
  destruct (c =? 10); [|done]. apply prefix_app, IH.
Qed.

End Reference.

Lemma words_nonempty cur s : Forall (fun w => w <> []) (words cur s).
Proof.
  revert cur. induction s as [|c s IH]; intros cur; simpl.
  - case_bool_decide; by repeat constructor.
  - destruct (c =? 32); [|done]. case_bool_decide; [done|]. by constructor.
Qed.

(** ** The tokenizer *)

(** The token [t] of buffer [b] is the word [wd], terminated in place, in
    the part of the buffer below [bound]. *)
Definition holds_token (b : list Z) (bound : Z) (t : token_t) (wd : list Z) : Prop :=
  exists p, value t = Some (Z.of_nat p) /\ tok_length t = zlen wd /\ (0 ∉ wd) /\
    (p + length wd < Z.to_nat bound)%nat /\ take (S (length wd)) (drop p b) = wd ++ [0].

Lemma holds_token_agree b b' bound t wd :
  take (Z.to_nat bound) b' = take (Z.to_nat bound) b ->
  holds_token b bound t wd -> holds_token b' bound t wd.
Proof.
  intros E (p & Hv & Hl & Hz & Hp & Ht). exists p.
  split; [done|]. split; [done|]. split; [done|]. split; [done|]. rewrite <- Ht.
  assert (forall x : list Z, take (S (length wd)) (drop p x) =
    take (S (length wd)) (drop p (take (Z.to_nat bound) x))) as F.
  { intros x. rewrite !take_drop_commute, take_take. do 2 f_equal. lia. }
  by rewrite (F b'), E, <- F.
Qed.

Lemma holds_token_weaken b x y t wd : x <= y -> holds_token b x t wd -> holds_token b y t wd.
Proof. intros ? (p & ? & ? & ? & ? & ?). exists p. do 3 (split; [done|]). split; [lia|done]. Qed.

Lemma holds_token_string b bound t wd p :
  holds_token b bound t wd -> value t = Some p -> string_at b p = Some wd.
Proof.
  intros (q & Hv & _ & Hz & _ & Ht) Hp. rewrite Hv in Hp. injection Hp as <-.
  unfold string_at. rewrite (proj2 (Z.leb_le 0 _)) by lia. rewrite Nat2Z.id. simpl.
  rewrite <- (take_drop (S (length wd)) (drop q b)), Ht.
  rewrite bool_decide_eq_true_2 by (rewrite !elem_of_app, list_elem_of_singleton; auto).
  f_equal. rewrite <- app_assoc. by apply cstr_terminated.
Qed.

Lemma tokenize_loop_words max post rest fuel b s e cur tokens :
  (length rest < fuel)%nat -> (s <= e)%nat ->
  drop e b = rest ++ 0 :: post -> drop s (take e b) = cur ->
  0 ∉ cur -> 0 ∉ rest -> zlen tokens <= max - 1 ->
  exists b' e' toks',
    tokenize_loop fuel b (Z.of_nat s) (Z.of_nat e) tokens max = Some (b', Z.of_nat e', tokens ++ toks') /\
    (e <= e' <= e + length rest)%nat /\
    take s b' = take s b /\ drop (e + length rest) b' = 0 :: post /\ length b' = length b /\
    Forall2 (holds_token b' (Z.of_nat (S (e + length rest)))) toks'
      (take (Z.to_nat (max - 1 - zlen tokens)) (words cur rest)).
Proof.
  revert fuel b s e cur tokens. induction rest as [|c rest IH];
    intros fuel b s e cur tokens Hf Hse Hd Hc Hzc Hzr Hmax; (destruct fuel as [|fuel]; [simpl in *; lia|]);
    cbn [tokenize_loop].
  all: assert (e < length b)%nat as He by
    (apply Nat.nle_gt; intros ?; rewrite drop_ge in Hd by done; simpl in Hd;
     first [discriminate Hd | by destruct rest]).
  all: assert (length cur = e - s)%nat as Hlc by (rewrite <- Hc, length_drop, length_take; lia).
  all: destruct (Z.ltb_spec (zlen tokens) (max - 1)) as [Hm|Hm];
    [|eexists b, e, []; rewrite app_nil_r; split; [done|]; split; [simpl; lia|];
      split; [done|]; split; [first [by rewrite Nat.add_0_r|rewrite <- drop_drop, Hd; by rewrite drop_app_length]|];
      split; [done|]; replace (Z.to_nat _) with O by lia; rewrite take_0; constructor].
  - assert (zget b (Z.of_nat e) = Some 0) as ->.
    { apply zget_Some. split; [lia|]. rewrite Nat2Z.id, <- (Nat.add_0_r e), <- lookup_drop, Hd. done. }
    simpl. destruct (Z.eqb_spec (Z.of_nat s) (Z.of_nat e)) as [E|E].
    + assert (cur = []) as -> by (apply nil_length_inv; lia).
      exists b, e, []. rewrite app_nil_r, Nat.add_0_r.
      split; [done|]. split; [lia|]. do 3 (split; [done|]). rewrite bool_decide_eq_true_2, take_nil by done. constructor.
    + exists b, e, [Token (Some (Z.of_nat s)) (Z.of_nat e - Z.of_nat s)]. rewrite Nat.add_0_r.
      split; [done|]. split; [lia|]. do 3 (split; [done|]).
      rewrite bool_decide_eq_false_2 by (intros ->; simpl in *; lia).
      replace (Z.to_nat _) with (S (Z.to_nat (max - 1 - zlen tokens) - 1)) by lia.
      rewrite firstn_cons, take_nil. constructor; [|constructor].
      exists s. simpl. split; [done|]. split; [lia|]. split; [done|]. split; [lia|].
      rewrite <- (take_drop e b), Hd, drop_app_le, Hc by (rewrite length_take; lia).
      rewrite <- (Nat.add_1_r (length cur)), (take_app_add cur). done.
  - assert (zget b (Z.of_nat e) = Some c) as ->.
    { apply zget_Some. split; [lia|]. rewrite Nat2Z.id, <- (Nat.add_0_r e), <- lookup_drop, Hd. done. }
    assert (drop (S e) b = rest ++ 0 :: post) as Hd'.
    { rewrite <- Nat.add_1_r, <- drop_drop, Hd. done. }
    apply not_elem_of_cons in Hzr as [Hcz Hzr]. simpl in Hf.
    cbn [obind words]. destruct (Z.eqb_spec c 32) as [->|Hsp].
    + assert (Z.of_nat e + 1 = Z.of_nat (S e)) as -> by lia.
      assert (drop (S e) (take (S e) b) = []) as Hnil
        by (apply nil_length_inv; rewrite length_drop, length_take; lia).
      assert (0 ∉ ([] : list Z)) as Hz0 by apply not_elem_of_nil.
      destruct (Z.eqb_spec (Z.of_nat s) (Z.of_nat e)) as [E|E]; cbn [negb].
      * assert (cur = []) as -> by (apply nil_length_inv; lia).
        rewrite bool_decide_eq_true_2 by done.
        destruct (IH fuel b (S e) (S e) [] tokens) as (b' & e' & t' & -> & H1 & H2 & H3 & H4 & H5);
          try (done || lia).
        exists b', e', t'. split; [done|]. split; [simpl; lia|].
        split; [|cbn [length]; rewrite Nat.add_succ_r; auto].
        apply (f_equal (take s)) in H2. rewrite !take_take in H2.
        by replace (s `min` S e)%nat with s in H2 by lia.
      * rewrite bool_decide_eq_false_2 by (intros ->; simpl in *; lia).
        unfold zset. rewrite (proj2 (Z.leb_le 0 _)), (proj2 (Z.ltb_lt _ _)) by lia.
        cbn [andb obind]. rewrite Nat2Z.id.
        destruct (IH fuel (<[e:=0]> b) (S e) (S e) []
          (tokens ++ [Token (Some (Z.of_nat s)) (Z.of_nat e - Z.of_nat s)]))
          as (b' & e' & t' & -> & H1 & H2 & H3 & H4 & H5); try (done || lia).
        { by rewrite drop_insert_lt by lia. }
        { apply nil_length_inv. rewrite length_drop, length_take. lia. }
        { rewrite length_app. simpl. lia. }
        exists b', e', (Token (Some (Z.of_nat s)) (Z.of_nat e - Z.of_nat s) :: t').
        rewrite <- app_assoc. split; [done|]. split; [simpl; lia|].
        assert (take (S e) b' = take e b ++ [0]) as H2'.
        { rewrite H2, (take_S_r _ _ 0) by (rewrite list_lookup_insert_eq; done).
          by rewrite take_insert_ge. }
        split.
        { apply (f_equal (take s)) in H2'. rewrite take_take, take_app_le, take_take in H2'
            by (rewrite length_take; lia).
          by replace (s `min` S e)%nat with s in H2' by lia; replace (s `min` e)%nat with s in H2' by lia. }
        cbn [length]. rewrite Nat.add_succ_r. split; [done|]. split; [by rewrite H4, length_insert|].
        replace (Z.to_nat (max - 1 - zlen tokens))
          with (S (Z.to_nat (max - 1 - zlen (tokens ++ [Token (Some (Z.of_nat s)) (Z.of_nat e - Z.of_nat s)]))))
          by (rewrite length_app; simpl; lia).
        rewrite firstn_cons. constructor; [|done].
        exists s. simpl. split; [done|]. split; [lia|]. split; [done|]. split; [lia|].
        rewrite <- (take_drop (S e) b'), H2', drop_app_le
          by (rewrite length_app, length_take; simpl; lia).
        rewrite drop_app_le, Hc by (rewrite length_take; lia).
        rewrite <- app_assoc.
        rewrite <- (Nat.add_1_r (length cur)), (take_app_add cur). done.
    + rewrite (proj2 (Z.eqb_neq c 0)) by congruence.
      assert (Z.of_nat e + 1 = Z.of_nat (S e)) as -> by lia.
      assert (take (S e) b = take e b ++ [c]) as Hte.
      { apply take_S_r. rewrite <- (Nat.add_0_r e), <- lookup_drop, Hd. done. }
      destruct (IH fuel b s (S e) (cur ++ [c]) tokens) as (b' & e' & t' & -> & H1 & H2 & H3 & H4 & H5);
        try (done || lia).
      { rewrite Hte, drop_app_le by (rewrite length_take; lia). by rewrite Hc. }
      { rewrite elem_of_app, list_elem_of_singleton. tauto. }
      exists b', e', t'. split; [done|]. split; [simpl; lia|]. split; [done|].
      cbn [length]. rewrite Nat.add_succ_r. auto.
Qed.

Lemma print_tokens_snoc b bound toks wds v last :
  Forall2 (holds_token b bound) toks wds -> printf_value b v = Some last ->
  print_tokens b (toks ++ [Token v 0]) = Some (wds ++ [last]).
Proof.
  intros Hw Hv. induction Hw as [|t wd toks wds Ht Hw IH]; cbn.
  - by rewrite Hv.
  - pose proof Ht as (p & Hp & _). rewrite Hp. cbn. erewrite holds_token_string by done. cbn. by rewrite IH.
Qed.

Lemma tokenize_command_spec pre cmd post :
  0 ∉ cmd ->
  exists b' tokens,
    tokenize_command (pre ++ cmd ++ 0 :: post) (zlen pre) MAX_TOKENS = Some (b', tokens) /\
    zlen tokens = Z.min (MAX_TOKENS - 1) (zlen (words [] cmd)) + 1 /\
    take (length pre) b' = pre /\ drop (length pre + length cmd) b' = 0 :: post /\
    length b' = length (pre ++ cmd ++ 0 :: post) /\
    (forall i wd, take 7 (words [] cmd) !! i = Some wd -> token_string b' tokens (Z.of_nat i) = Some wd) /\
    (exists v, last tokens = Some (Token v 0)) /\
    (exists rest, print_tokens b' tokens = Some (take 7 (words [] cmd) ++ [rest])).
Proof.
  intros Hz. unfold tokenize_command. set (b := pre ++ cmd ++ 0 :: post).
  assert (drop (length pre) b = cmd ++ 0 :: post) as Hd by (unfold b; by rewrite drop_app_length).
  destruct (tokenize_loop_words MAX_TOKENS post cmd (length b) b (length pre) (length pre) [] [])
    as (b' & e' & toks & -> & He & Ht & Hd' & Hl & Hw); try done.
  { unfold b. rewrite !length_app. simpl. lia. }
  { apply nil_length_inv. rewrite length_drop, length_take. lia. }
  { apply not_elem_of_nil. }
  assert (is_Some (zget b' (Z.of_nat e'))) as [ch Hch].
  { apply zget_is_Some. rewrite Hl. unfold b. rewrite !length_app. simpl. lia. }
  cbn [obind]. rewrite Hch. cbn [obind]. rewrite app_nil_l.
  change (Z.to_nat (MAX_TOKENS - 1 - zlen [])) with 7%nat in Hw.
  exists b', (toks ++ [Token (if ch =? 0 then None else Some (Z.of_nat e')) 0]). split; [done|].
  pose proof (Forall2_length _ _ _ Hw) as Hlen. rewrite length_take in Hlen.
  split; [rewrite length_app; change MAX_TOKENS with 8; simpl; lia|].
  split; [rewrite Ht; unfold b; by rewrite take_app_length|]. split; [done|]. split; [done|].
  split; [|split; [rewrite last_snoc; eauto|]].
  2: { assert (exists rest, printf_value b' (if ch =? 0 then None else Some (Z.of_nat e')) = Some rest) as [rest Hr].
       { destruct (ch =? 0); [by eexists|]. unfold printf_value, string_at. rewrite (proj2 (Z.leb_le 0 _)) by lia.
         rewrite Nat2Z.id, bool_decide_eq_true_2; [by eexists|].
         replace (length pre + length cmd)%nat with (e' + (length pre + length cmd - e'))%nat in Hd' by lia.
         rewrite <- drop_drop in Hd'. rewrite <- (take_drop (length pre + length cmd - e') (drop e' b')), Hd'.
         apply elem_of_app. right. left. }
       exists rest. eapply print_tokens_snoc; [apply Hw|done]. }
  intros i wd Hi. destruct (Forall2_lookup_r _ _ _ _ _ Hw Hi) as (t & Hti & Hh).
  unfold token_string. assert (zget (toks ++ [Token (if ch =? 0 then None else Some (Z.of_nat e')) 0])
    (Z.of_nat i) = Some t) as ->.
  { apply zget_Some. split; [lia|]. rewrite Nat2Z.id. by apply lookup_app_l_Some. }
  pose proof Hh as (p & Hv & _). cbn [obind]. rewrite Hv. cbn [obind].
  by eapply holds_token_string.
Qed.

(** The tokenizer cuts a command, in place, into its words at the
    spaces: at most seven of them, each terminated and of the recorded
    length, followed by the terminal token; nothing outside the command is
    written, and the loop ends within the buffer. *)
Theorem tokenize_command_words pre cmd post :
  0 ∉ cmd ->
  exists b' tokens,
    tokenize_command (pre ++ cmd ++ 0 :: post) (zlen pre) MAX_TOKENS = Some (b', tokens) /\
    zlen tokens = Z.min (MAX_TOKENS - 1) (zlen (words [] cmd)) + 1 /\
    take (length pre) b' = pre /\ drop (length pre + length cmd) b' = 0 :: post /\
    length b' = length (pre ++ cmd ++ 0 :: post) /\
    (forall i wd, take 7 (words [] cmd) !! i = Some wd -> token_string b' tokens (Z.of_nat i) = Some wd) /\
    (exists v, last tokens = Some (Token v 0)) /\
    (exists rest, print_tokens b' tokens = Some (take 7 (words [] cmd) ++ [rest])).
Proof. apply tokenize_command_spec. Qed.

(** ** Buffers *)

Definition rd_ok (r : rdbuf) : Prop :=
  zlen (rbuf r) = rsize r /\ 0 < rsize r /\ 0 <= rcurr r /\ 0 <= rbytes r /\
  rcurr r + rbytes r <= rsize r.

(** The bytes received and not parsed. *)
Definition unread (r : rdbuf) : list Z := take (Z.to_nat (rbytes r)) (drop (Z.to_nat (rcurr r)) (rbuf r)).

Definition sizes_ok (c : conn) : Prop :=
  zlen (wbuf (wr c)) = DATA_BUFFER_SIZE /\ wsize (wr c) = DATA_BUFFER_SIZE /\
  (zlen (iov (out c)) = IOV_LIST_INITIAL /\ iovsize (out c) = IOV_LIST_INITIAL) /\
  (zlen (msglist (out c)) = MSG_LIST_INITIAL /\ msgsize (out c) = MSG_LIST_INITIAL) /\
  isize c = ITEM_LIST_INITIAL /\ noreply c = false.

(** The outside is the same up to the counters of calls. *)
Definition same_net (w w' : net) : Prop :=
  rx w' = rx w /\ rx_eof w' = rx_eof w /\ tx w' = tx w /\ asked w' = asked w.

Lemma length_unread r : rd_ok r -> zlen (unread r) = rbytes r.
Proof. intros (?&?&?&?&?). unfold unread. rewrite length_take, length_drop. lia. Qed.

Lemma unread_zread r : rd_ok r -> zread (rbuf r) (rcurr r) (rbytes r) = Some (unread r).
Proof. intros (?&?&?&?&?). apply zread_Some. split; [lia|done]. Qed.

(** Moving the unread bytes to the front of the buffer. *)
Lemma move_front r :
  rd_ok r ->
  exists b, zwrite (rbuf r) 0 (unread r) = Some b /\
    rd_ok (Rd b 0 (rsize r) (rbytes r)) /\ unread (Rd b 0 (rsize r) (rbytes r)) = unread r.
Proof.
  intros Hr. pose proof (length_unread r Hr) as Hlen. pose proof Hr as (?&?&?&?&?).
  destruct (zwrite (rbuf r) 0 (unread r)) as [b|] eqn:E.
  - exists b. split; [done|]. pose proof (zwrite_length _ _ _ _ E) as Hb.
    split; [unfold rd_ok; simpl; lia|]. apply zwrite_Some in E as [_ ->].
    unfold unread at 1. cbn [rbuf rcurr rbytes]. change (Z.to_nat 0) with 0%nat.
    rewrite take_0, drop_0, app_nil_l, take_app_le by lia. apply take_ge. lia.
  - exfalso. revert E. unfold zwrite. by rewrite (proj2 (Z.leb_le (0 + zlen (unread r)) _)) by lia.
Qed.

Section Machine.
Context (kernel : nat -> choice) (realloc_ok : nat -> bool)
        (redis_reply : nat -> option (list (list Z))).
Hypothesis memory : forall n, realloc_ok n = true.
Hypothesis registry : forall n, is_Some (redis_reply n).

Abbreviation set_state_to := (conn_set_state realloc_ok).

Lemma conn_shrink_spec c w :
  sizes_ok c -> rd_ok (rd c) ->
  exists r w', conn_shrink realloc_ok c w = Some (set_rd c r, w') /\ rd_ok r /\
    unread r = unread (rd c) /\ same_net w w'.
Proof.
  intros (_ & _ & (_ & Hiov) & (_ & Hmsg) & Hitem & _) Hr. unfold conn_shrink.
  destruct ((READ_BUFFER_HIGHWAT <? rsize (rd c)) && (rbytes (rd c) <? DATA_BUFFER_SIZE)) eqn:E.
  - apply andb_true_iff in E as [E1%Z.ltb_lt E2%Z.ltb_lt].
    rewrite (unread_zread _ Hr). destruct (move_front _ Hr) as (b & Hb & Hok & Hun).
    cbn [obind]. rewrite Hb.
    assert (exists b', (if negb (rcurr (rd c) =? 0) then Some b else Some (rbuf (rd c))) = Some b' /\
      rd_ok (Rd b' 0 (rsize (rd c)) (rbytes (rd c))) /\
      unread (Rd b' 0 (rsize (rd c)) (rbytes (rd c))) = unread (rd c)) as (b' & -> & Hok' & Hun').
    { destruct (Z.eqb_spec (rcurr (rd c)) 0) as [E0|E0]; simpl; [|by exists b].
      exists (rbuf (rd c)). split; [done|]. destruct (rd c) as [? ? ? ?]. simpl in *. subst. done. }
    cbn [obind]. unfold realloc at 1. rewrite memory. cbn [obind].
    cbn [set_rd isize out]. rewrite Hitem.
    change (ITEM_LIST_HIGHWAT <? ITEM_LIST_INITIAL) with false. cbn iota. cbn [set_rd out]. rewrite Hmsg.
    change (MSG_LIST_HIGHWAT <? MSG_LIST_INITIAL) with false. cbn iota. cbn [set_rd out]. rewrite Hiov.
    change (IOV_LIST_HIGHWAT <? IOV_LIST_INITIAL) with false. cbn iota.
    eexists _, _. split; [done|]. change DATA_BUFFER_SIZE with 2048 in *.
    change READ_BUFFER_HIGHWAT with 8192 in *. destruct Hok' as (H1&H2&H3&H4&H5). simpl in *.
    split; [unfold rd_ok; simpl; rewrite length_app, length_take, length_replicate; lia|].
    split; [|done]. rewrite <- Hun'. unfold unread. cbn [rbuf rcurr rbytes].
    change (Z.to_nat 0) with 0%nat. rewrite !drop_0.
    rewrite take_app_le by (rewrite length_take; lia). rewrite take_take. f_equal. lia.
  - cbn [obind]. rewrite Hitem. simpl. rewrite Hmsg. simpl. rewrite Hiov. simpl. exists (rd c), w.
    split; [by destruct c|]. split; [done|]. split; [done|]. done.
Qed.

Lemma conn_set_state_spec c s w :
  sizes_ok c -> rd_ok (rd c) ->
  exists r w', set_state_to c s w = Some (set_state (set_rd c r) s, w') /\ rd_ok r /\
    unread r = unread (rd c) /\ same_net w w' /\ (s <> conn_read -> r = rd c /\ w' = w).
Proof.
  intros Hs Hr. unfold conn_set_state. case_bool_decide as E1.
  { exists (rd c), w. subst s. destruct c. done. }
  case_bool_decide as E2; cbn [obind].
  - destruct (conn_shrink_spec c w Hs Hr) as (r & w' & -> & H1 & H2 & H3). cbn [obind].
    by exists r, w'.
  - exists (rd c), w. split; [by destruct c|]. done.
Qed.

(** ** Commands *)

(** A reply line of [n] bytes is ready in [buf]. *)
Definition replying (c : conn) (buf : list Z) (n : Z) : conn :=
  set_write_and_go (set_state (set_wr c (Wr buf 0 (wsize (wr c)) n)) conn_write) conn_read.

Lemma length_reply_line str : 2 <= zlen (reply_line str) <= DATA_BUFFER_SIZE.
Proof.
  unfold reply_line. change DATA_BUFFER_SIZE with 2048. rewrite length_app. simpl (length CRLF).
  destruct (Z.ltb_spec 2048 (zlen str + 2)); [vm_compute; intuition congruence|]. lia.
Qed.

Lemma out_string_spec c str w :
  sizes_ok c -> state c = conn_read \/ state c = conn_write ->
  exists buf, out_string realloc_ok c str w = Some (replying c buf (zlen (reply_line str)), w) /\
    zlen buf = DATA_BUFFER_SIZE /\ take (length (reply_line str)) buf = reply_line str.
Proof.
  intros (Hwl & Hws & _ & _ & _ & Hn) Hst. unfold out_string. rewrite Hn, Hws.
  pose proof (length_reply_line str) as Hlen. unfold reply_line in *.
  set (s' := if DATA_BUFFER_SIZE <? zlen str + 2 then _ else str) in *.
  rewrite length_app in Hlen. simpl (length CRLF) in Hlen.
  destruct (zwrite (wbuf (wr c)) 0 s') as [b1|] eqn:E1.
  2: { exfalso. revert E1. unfold zwrite. rewrite (proj2 (Z.leb_le (0 + zlen s') _)) by lia. done. }
  pose proof (zwrite_length _ _ _ _ E1) as L1. cbn [obind].
  destruct (zwrite b1 (zlen s') CRLF) as [b2|] eqn:E2.
  2: { exfalso. revert E2. unfold zwrite. simpl (length CRLF).
       rewrite (proj2 (Z.leb_le 0 (zlen s'))), (proj2 (Z.leb_le (zlen s' + _) _)) by lia. done. }
  pose proof (zwrite_length _ _ _ _ E2) as L2. cbn [obind].
  exists b2. split; [|split; [lia|]].
  - unfold conn_set_state, replying. rewrite length_app, Hws. simpl (length CRLF).
    replace (Z.of_nat (length s' + 2)) with (zlen s' + 2) by lia.
    destruct c as [? st]. cbn [state set_wr] in *. by destruct Hst as [->| ->].
  - apply zwrite_Some in E2 as [_ ->]. apply zwrite_Some in E1 as [_ ->].
    rewrite length_app, !Nat2Z.id. change (Z.to_nat 0) with 0%nat.
    rewrite take_0, app_nil_l, (take_app_length s'), (take_app_add s'). done.
Qed.

Lemma token_string_cstr b tokens i s : token_string b tokens i = Some s -> cstr s = s.
Proof.
  unfold token_string, string_at. intros H. opt_inv.
  match goal with H : (if ?b then _ else _) = Some _ |- _ => destruct b end; opt_inv. apply cstr_idem.
Qed.

(** [strcmp] of a token with a literal. *)
Lemma streq_literal s lit : cstr s = s -> cstr lit = lit -> streq s lit = bool_decide (s = lit).
Proof. unfold streq. by intros -> ->. Qed.

(** A reply is in the reply line, ready to be sent. *)
Definition reply_ready (c : conn) (rep : list Z) : Prop :=
  if bool_decide (rep = []) then state c = conn_read
  else state c = conn_write /\ write_and_go c = conn_read /\ wcurr (wr c) = 0 /\
       wbytes (wr c) = zlen rep /\ take (length rep) (wbuf (wr c)) = rep.

Lemma reply_ready_replying c buf str :
  take (length (reply_line str)) buf = reply_line str ->
  reply_ready (replying c buf (zlen (reply_line str))) (reply_line str).
Proof.
  intros H. unfold reply_ready. rewrite bool_decide_eq_false_2; [done|].
  intros E. pose proof (length_reply_line str) as Hl. rewrite E in Hl. simpl in Hl. lia.
Qed.

Lemma sizes_ok_replying c buf n : sizes_ok c -> zlen buf = DATA_BUFFER_SIZE -> sizes_ok (replying c buf n).
Proof. intros Hs ?. unfold sizes_ok in *. simpl. tauto. Qed.

(** The message list after [process_command] has reset it. *)
Definition reset_out (o : outq) : outq :=
  Out (iov o) (iovsize o) 0 (<[0%nat := Msghdr 0 0]> (msglist o)) (msgsize o) 1 0 0.

Lemma process_command_spec c w pre cmd post :
  sizes_ok c -> state c = conn_read -> 0 ∉ cmd -> rbuf (rd c) = pre ++ cmd ++ 0 :: post ->
  exists b' c' w',
    process_command realloc_ok redis_reply c (zlen pre) w = Some (c', w') /\
    rd c' = Rd b' (rcurr (rd c)) (rsize (rd c)) (rbytes (rd c)) /\
    length b' = length (rbuf (rd c)) /\ drop (length pre + length cmd) b' = 0 :: post /\
    sizes_ok c' /\ out c' = reset_out (out c) /\
    reply_ready c' (text_reply redis_reply (asked w) cmd).1 /\
    asked w' = (text_reply redis_reply (asked w) cmd).2 /\
    rx w' = rx w /\ rx_eof w' = rx_eof w /\ tx w' = tx w.
Proof.
  intros Hs Hst Hz Hb. unfold process_command, add_msghdr.
  pose proof Hs as (Hwl & Hws & (Hiov & Hiovs) & (Hml & Hms) & Hit & Hn).
  cbn [msgsize msgused iovused msglist]. rewrite Hms. change (MSG_LIST_INITIAL =? 0) with false. cbn iota.
  change MSG_LIST_INITIAL with 10 in *. unfold zset at 1.
  rewrite (proj2 (Z.ltb_lt 0 _)) by lia. change (0 <=? 0) with true. cbn [andb obind iov iovsize].
  change (negb (0 =? 0)) with false. cbn iota. cbn [set_out rd]. rewrite Hb.
  destruct (tokenize_command_spec pre cmd post Hz) as (b' & tokens & -> & Hlen & _ & Hd & Hl & Htok & _ & rest & Hprint).
  cbn [obind]. rewrite Hprint. cbn [obind]. change (msgcurr _) with 0. change (0 + 1) with 1. change (Z.to_nat 0) with 0%nat.
  set (c1 := set_rd (set_out c _) (Rd b' _ _ _)).
  assert (sizes_ok c1) as Hs1 by (unfold sizes_ok; simpl; rewrite length_insert; auto 10).
  assert (state c1 = conn_read) as Hst1 by done.
  assert (out c1 = reset_out (out c)) as Ho1 by (unfold reset_out; simpl; by rewrite Hms).
  assert (rd c1 = Rd b' (rcurr (rd c)) (rsize (rd c)) (rbytes (rd c))) as Hrd1 by done.
  clearbody c1. rewrite Hlen. change MAX_TOKENS with 8. unfold text_reply.
  assert (forall wds, words [] cmd = wds -> zlen wds < 2 -> (3 <=? Z.min (8 - 1) (zlen wds) + 1) = false) as Hshort.
  { intros. apply Z.leb_gt. lia. }
  destruct (words [] cmd) as [|w0 [|w1 wds]] eqn:Ew; [rewrite Hshort by done; by eexists b', c1, w..|].
  rewrite (proj2 (Z.leb_le 3 _)) by (simpl; lia).
  pose proof (Htok 0%nat w0 ltac:(done)) as T0. pose proof (Htok 1%nat w1 ltac:(done)) as T1.
  change (Z.of_nat 0) with 0 in T0. change (Z.of_nat 1) with 1 in T1.
  rewrite T0, T1. cbn [obind].
  rewrite (streq_literal w0), (streq_literal w1) by (done || by eapply token_string_cstr).
  case_bool_decide as E0; [|by eexists b', c1, w].
  destruct (out_string_spec c1 (bytes_of_string "ERROR") w Hs1 (or_introl Hst1)) as (buf & -> & Hbl & Hbt).
  cbn [obind]. case_bool_decide as E1.
  - unfold porcess_get_msgserver, getLazyMsgServer, registry_answer.
    destruct (registry (asked w)) as [rep Hrep]. rewrite Hrep. cbn [obind].
    set (c2 := replying c1 buf _).
    assert (forall str w2, exists buf',
      out_string realloc_ok c2 str w2 = Some (replying c1 buf' (zlen (reply_line str)), w2) /\
      zlen buf' = DATA_BUFFER_SIZE /\ take (length (reply_line str)) buf' = reply_line str) as Hos.
    { intros str w2. destruct (out_string_spec c2 str w2) as (buf' & -> & ? & ?); [|by right|by eauto].
      by apply sizes_ok_replying. }
    assert (exists str w2, (match rep with [ip] => cstr ip | _ => bytes_of_string "NOT_FOUND_MSGSERVER" end) = str /\
      w2 = Net (rx w) (rx_eof w) (tx w) (calls w) (allocs w) (S (asked w)) (bytes_read w) (bytes_written w) /\
      match rep with
      | [ip] => out_string realloc_ok c2 (cstr ip) w2
      | _ => out_string realloc_ok c2 (bytes_of_string "NOT_FOUND_MSGSERVER") w2
      end = out_string realloc_ok c2 str w2) as (str & w2 & Estr & Ew2 & Eout).
    { eexists _, _. split; [done|]. split; [done|]. by destruct rep as [|? [|? ?]]. }
    rewrite Ew2 in Eout. rewrite Eout, Estr, <- Ew2. destruct (Hos str w2) as (buf' & -> & Hb1 & Hb2).
    exists b', (replying c1 buf' (zlen (reply_line str))), w2.
    split; [done|]. split; [done|]. split; [done|]. split; [done|].
    split; [by apply sizes_ok_replying|]. split; [done|]. split; [by apply reply_ready_replying|].
    by subst w2.
  - exists b', (replying c1 buf (zlen (reply_line (bytes_of_string "ERROR")))), w.
    split; [done|]. split; [done|]. split; [done|]. split; [done|].
    split; [by apply sizes_ok_replying|]. split; [done|]. by split; [by apply reply_ready_replying|].
Qed.

(** ** Command lines *)

Lemma cstr_split s r : exists r', s ++ 0 :: r = cstr s ++ 0 :: r'.
Proof.
  induction s as [|c s [r' IH]]; simpl; [by exists r|].
  destruct (Z.eqb_spec c 0) as [->|]; [by exists (s ++ 0 :: r)|]. exists r'. simpl. by rewrite IH.
Qed.

Lemma length_strip_cr line : (length (strip_cr line) <= length line)%nat.
Proof.
  unfold strip_cr. destruct (_ && _); [|done].
  destruct line as [|x line _] using rev_ind; [done|]. rewrite removelast_last, length_app. lia.
Qed.

Lemma strip_cr_prefix line : strip_cr line = take (length (strip_cr line)) line.
Proof.
  unfold strip_cr. destruct (_ && _); [|by rewrite firstn_all].
  destruct line as [|x line _] using rev_ind; [done|]. by rewrite removelast_last, take_app_length.
Qed.

(** Where the terminator goes. *)
Lemma strip_cr_position b off line r :
  0 <= off -> drop (Z.to_nat off) b = line ++ r ->
  (if 1 <? off + zlen line - off
   then let? p := zget b (off + zlen line - 1) in
        Some (if p =? 13 then off + zlen line - 1 else off + zlen line)
   else Some (off + zlen line)) = Some (off + zlen (strip_cr line)).
Proof.
  intros Ho Hd. replace (off + zlen line - off) with (zlen line) by lia. unfold strip_cr.
  destruct (Z.ltb_spec 1 (zlen line)) as [Hl|Hl]; [|done].
  destruct line as [|x line _] using rev_ind; [simpl in Hl; lia|].
  rewrite last_snoc, removelast_last, length_app in *. simpl in *.
  assert (zget b (off + Z.of_nat (length line + 1) - 1) = Some x) as ->.
  { apply zget_Some. split; [lia|].
    replace (Z.to_nat _) with (Z.to_nat off + length line)%nat by lia.
    rewrite <- lookup_drop, Hd, <- app_assoc, lookup_app_r, Nat.sub_diag by lia. done. }
  cbn [obind]. destruct (Z.eqb_spec x 13) as [->|Hx].
  - rewrite bool_decide_eq_true_2 by done. f_equal. lia.
  - rewrite bool_decide_eq_false_2 by congruence. rewrite length_app. simpl. f_equal.
Qed.

Lemma try_read_command_none c w :
  rd_ok (rd c) -> 10 ∉ unread (rd c) -> try_read_command realloc_ok redis_reply c w = Some (0, c, w).
Proof.
  intros Hr Hn. unfold try_read_command. pose proof Hr as (?&?&?&?&?).
  rewrite (proj2 (Z.ltb_ge (rsize (rd c)) _)) by lia. destruct (rbytes (rd c) =? 0); [done|].
  rewrite (unread_zread _ Hr). cbn [obind]. by rewrite memchr_None.
Qed.

Lemma drop_agree {A} (l l' : list A) m n : (m <= n)%nat -> drop m l = drop m l' -> drop n l = drop n l'.
Proof.
  intros Hmn E. replace n with (m + (n - m))%nat by lia. by rewrite <- !drop_drop, E.
Qed.

Lemma try_read_command_line c w line rest :
  sizes_ok c -> rd_ok (rd c) -> state c = conn_read -> unread (rd c) = line ++ 10 :: rest -> 10 ∉ line ->
  exists c' w', try_read_command realloc_ok redis_reply c w = Some (1, c', w') /\
    sizes_ok c' /\ rd_ok (rd c') /\ unread (rd c') = rest /\ out c' = reset_out (out c) /\
    reply_ready c' (command_reply redis_reply (asked w) line).1 /\
    asked w' = (command_reply redis_reply (asked w) line).2 /\
    rx w' = rx w /\ rx_eof w' = rx_eof w /\ tx w' = tx w.
Proof.
  intros Hs Hr Hst Hu Hl. unfold try_read_command. pose proof Hr as (R1&R2&R3&R4&R5).
  pose proof (length_unread _ Hr) as Hlu. rewrite Hu, length_app in Hlu. simpl in Hlu.
  rewrite (proj2 (Z.ltb_ge (rsize (rd c)) _)), (proj2 (Z.eqb_neq (rbytes (rd c)) 0)) by lia.
  rewrite (unread_zread _ Hr). cbn [obind]. rewrite Hu, memchr_Some by done. cbn iota zeta.
  set (off := rcurr (rd c)) in *.
  assert (exists r, drop (Z.to_nat off) (rbuf (rd c)) = line ++ 10 :: r) as [r Hd].
  { rewrite <- (take_drop (Z.to_nat (rbytes (rd c))) (drop (Z.to_nat off) (rbuf (rd c)))).
    fold off. change (take _ (drop _ _)) with (unread (rd c)). rewrite Hu, <- app_assoc. eauto. }
  rewrite (strip_cr_position _ _ _ _ R3 Hd). cbn [obind].
  pose proof (length_strip_cr line) as Hsc. set (t := strip_cr line) in *.
  destruct (zset (rbuf (rd c)) (off + zlen t) 0) as [b0|] eqn:Eb.
  2: { exfalso. revert Eb. unfold zset.
       rewrite (proj2 (Z.leb_le 0 _)), (proj2 (Z.ltb_lt (off + zlen t) _)) by lia. done. }
  apply zset_Some in Eb as [Hb0 ->]. cbn [obind].
  rewrite (proj2 (Z.ltb_ge (off + rbytes (rd c)) _)) by lia.
  set (pre := take (Z.to_nat off) (rbuf (rd c))).
  assert (zlen pre = off) as Hpre by (unfold pre; rewrite length_take; lia).
  assert (exists post0, <[Z.to_nat (off + zlen t) := 0]> (rbuf (rd c)) = pre ++ t ++ 0 :: post0) as [post0 Hbuf].
  { exists (drop (S (Z.to_nat (off + zlen t))) (rbuf (rd c))).
    rewrite insert_take_drop by lia. rewrite app_assoc. f_equal.
    replace (Z.to_nat (off + zlen t)) with (Z.to_nat off + length t)%nat by lia.
    rewrite <- take_take_drop. fold pre. f_equal. rewrite Hd. unfold t at 2.
    rewrite take_app_le by lia. unfold t. apply eq_sym, strip_cr_prefix. }
  destruct (cstr_split t post0) as [post Hpost].
  set (c1 := set_rd c _).
  destruct (process_command_spec c1 w pre (cstr t) post) as
    (b' & c' & w' & Hpc & Hrd & Hlb & Hdr & Hs' & Ho & Hrr & Has & Hx & Hxe & Htx);
    [done|done|apply cstr_no_nul|cbn [c1 set_rd rd rbuf]; by rewrite Hbuf, Hpost|].
  rewrite Hpre in Hpc. rewrite Hpc. cbn [obind]. rewrite Hrd. cbn [rcurr rsize rbytes rbuf c1 set_rd rd].
  fold off. cbn [set_rd rd rsize rcurr].
  rewrite (proj2 (Z.ltb_ge (rsize (rd c)) _)) by lia.
  cbn [c1 set_rd rd rbuf] in Hlb. rewrite length_insert in Hlb.
  eexists _, w'. split; [done|]. split; [done|]. cbn [set_rd rd out].
  split; [unfold rd_ok; simpl; lia|]. split; [|done].
  unfold unread. cbn [rbuf rcurr rbytes].
  replace (Z.to_nat (off + zlen line + 1)) with (Z.to_nat off + (length line + 1))%nat by lia.
  assert (drop (Z.to_nat off + (length line + 1)) b' =
          drop (length line + 1) (drop (Z.to_nat off) (rbuf (rd c)))) as ->.
  { rewrite drop_drop. transitivity (drop (Z.to_nat off + (length line + 1)) (<[Z.to_nat (off + zlen t):=0]> (rbuf (rd c)))).
    - apply (drop_agree _ _ (length pre + length (cstr t))); [pose proof (length_cstr t); lia|].
      rewrite Hdr, Hbuf, Hpost, app_assoc, drop_app_length' by (rewrite length_app; lia). done.
    - apply drop_insert_lt. lia. }
  unfold unread in Hu. fold off in Hu.
  replace (Z.to_nat _) with (Z.to_nat (rbytes (rd c)) - (length line + 1))%nat by lia.
  rewrite take_drop_commute.
  replace (_ + (_ - _))%nat with (Z.to_nat (rbytes (rd c))) by lia.
  rewrite Hu, <- drop_drop, drop_app_length. done.
Qed.

(** ** Reading from the network *)

(** The kernel always makes the progress it can. *)
Definition eager : Prop := forall n, exists k, kernel n = Take k.

(** What a round of reading may do: nothing is lost or reordered, and
    progress is reported. *)
Definition read_outcome (c : conn) (w : net) (g g' : Z) (c' : conn) (w' : net) : Prop :=
  sizes_ok c' /\ rd_ok (rd c') /\ out c' = out c /\
  unread (rd c') ++ rx w' = unread (rd c) ++ rx w /\
  rx_eof w' = rx_eof w /\ tx w' = tx w /\ asked w' = asked w /\
  (state c' = conn_closing /\ g' = 1 /\ (rx_eof w = true \/ ~ eager) \/
   state c' = conn_read /\ g' = g /\ rx w' = rx w /\ (rx w = [] \/ ~ eager) \/
   state c' = conn_read /\ g' = 1 /\ (length (rx w') < length (rx w))%nat).

Lemma read_outcome_close c w g :
  sizes_ok c -> rd_ok (rd c) -> rx_eof w = true \/ ~ eager ->
  exists c', set_state_to c conn_closing (tick w) = Some (c', tick w) /\ read_outcome c w g 1 c' (tick w).
Proof.
  intros Hs Hr Hwhy. destruct (conn_set_state_spec c conn_closing (tick w) Hs Hr) as (r & w' & -> & H1 & H2 & H3 & H4).
  destruct H4 as [-> ->]; [done|]. eexists. split; [done|]. unfold read_outcome.
  do 7 (split; [done|]). by left.
Qed.

(** Appending received bytes behind the unread ones. *)
Lemma receive_bytes r bs :
  rd_ok r -> rcurr r = 0 -> zlen bs <= rsize r - rbytes r ->
  exists b, zwrite (rbuf r) (rbytes r) bs = Some b /\
    rd_ok (Rd b 0 (rsize r) (rbytes r + zlen bs)) /\
    unread (Rd b 0 (rsize r) (rbytes r + zlen bs)) = unread r ++ bs.
Proof.
  intros (R1&R2&R3&R4&R5) H0 Hl. destruct (zwrite (rbuf r) (rbytes r) bs) as [b|] eqn:E.
  - exists b. split; [done|]. pose proof (zwrite_length _ _ _ _ E).
    split; [unfold rd_ok; simpl; lia|]. apply zwrite_Some in E as [_ ->].
    unfold unread. cbn [rbuf rcurr rbytes]. rewrite H0. change (Z.to_nat 0) with 0%nat. rewrite !drop_0.
    rewrite app_assoc, take_app_le, take_ge by (rewrite length_app, length_take; lia). done.
  - exfalso. revert E. unfold zwrite.
    rewrite (proj2 (Z.leb_le 0 _)), (proj2 (Z.leb_le (rbytes r + _) _)) by lia. done.
Qed.

(** The buffer with twice the room. *)
Lemma grow_buffer r b :
  rd_ok r -> rcurr r = 0 ->
  b = take (Z.to_nat (rsize r * 2)) (rbuf r) ++ replicate (Z.to_nat (rsize r * 2) - length (rbuf r)) 0 ->
  rd_ok (Rd b 0 (rsize r * 2) (rbytes r)) /\ unread (Rd b 0 (rsize r * 2) (rbytes r)) = unread r.
Proof.
  intros (R1&R2&R3&R4&R5) H0 ->. rewrite (take_ge (rbuf r)) by lia. split.
  - unfold rd_ok. simpl. rewrite length_app, length_replicate. lia.
  - unfold unread. cbn [rbuf rcurr rbytes]. rewrite H0. change (Z.to_nat 0) with 0%nat. rewrite !drop_0.
    by rewrite take_app_le by lia.
Qed.

Lemma sys_read_cases n w :
  0 < n ->
  (exists bs rest cr, sys_read kernel n w =
     (Got bs, Net rest (rx_eof w) (tx w) (S (calls w)) (allocs w) (asked w) cr (bytes_written w)) /\
     rx w = bs ++ rest /\ bs <> [] /\ zlen bs <= n) \/
  exists r, sys_read kernel n w = (r, tick w) /\
    ((r = Eof \/ r = Error) /\ (rx_eof w = true \/ ~ eager) \/ r = WouldBlock /\ (rx w = [] \/ ~ eager)).
Proof.
  intros Hn. unfold sys_read. rewrite (proj2 (Z.leb_gt n 0)) by done.
  assert (kernel (calls w) = Again \/ kernel (calls w) = Hard -> ~ eager) as Hlazy.
  { intros Hk He. destruct (He (calls w)) as [k Hk']. destruct Hk; congruence. }
  destruct (kernel (calls w)) as [k| |]; [|right; eauto 10..].
  case_bool_decide as E; [right; destruct (rx_eof w); eauto 10|]. left.
  set (m := Nat.max 1 _). eexists (take m (rx w)), (drop m (rx w)), _.
  split; [done|]. split; [by rewrite take_drop|].
  assert (1 <= m <= Z.to_nat n)%nat by lia. split; [|rewrite length_take; lia].
  destruct (rx w); [done|]. by destruct m; [lia|].
Qed.

Lemma read_loop_spec fuel c g w :
  (length (rx w) < fuel)%nat -> sizes_ok c -> rd_ok (rd c) -> state c = conn_read -> rcurr (rd c) = 0 ->
  zlen (unread (rd c)) + zlen (rx w) < 2 ^ 30 ->
  exists g' c' w', read_loop kernel realloc_ok fuel c g w = Some (g', c', w') /\
    read_outcome c w g g' c' w'.
Proof.
  revert c g w. induction fuel as [|fuel IH]; intros c g w Hf Hs Hr Hst H0 Hb; [lia|].
  rewrite length_unread in Hb by done.
  cbn [read_loop].
  set (again := fun c w => read_loop kernel realloc_ok fuel c 1 w).
  assert (forall c w, (length (rx w) < S fuel)%nat -> sizes_ok c -> rd_ok (rd c) -> state c = conn_read ->
    rcurr (rd c) = 0 -> zlen (unread (rd c)) + zlen (rx w) < 2 ^ 30 -> rbytes (rd c) < rsize (rd c) ->
    exists g' c' w', receive kernel realloc_ok again g c w = Some (g', c', w') /\ read_outcome c w g g' c' w') as Hrec.
  { clear c w Hf Hs Hr Hst H0 Hb. intros c w Hf Hs Hr Hst H0 Hb Hroom. unfold receive.
    destruct (sys_read_cases (rsize (rd c) - rbytes (rd c)) w ltac:(lia))
      as [(bs & rest & cr & -> & Hrx & Hne & Hlen)|(res & -> & Hres)].
    - destruct (receive_bytes (rd c) bs Hr H0 Hlen) as (b & -> & Hr' & Hu'). cbn [obind]. rewrite H0.
      set (w1 := Net _ _ _ _ _ _ _ _). set (c1 := set_rd c _).
      assert (length (rx w1) < length (rx w))%nat as Hlt.
      { rewrite Hrx, length_app. simpl. destruct bs; [done|]. simpl. lia. }
      assert (read_outcome c w g 1 c1 w1) as Hout.
      { unfold read_outcome. split; [done|]. split; [done|]. split; [done|].
        split; [cbn [c1 set_rd rd]; by rewrite Hu', <- app_assoc, Hrx|]. do 3 (split; [done|]).
        right; right. done. }
      destruct (zlen bs =? _); [|by eexists 1, c1, w1].
      unfold again. destruct (IH c1 1 w1) as (g' & c' & w' & -> & Ho); try done; [lia| |].
      { cbn [c1 set_rd rd]. rewrite Hu', length_app. rewrite Hrx, length_app in Hb. simpl. lia. }
      exists g', c', w'. split; [done|]. destruct Hout as (_&_&O1&O2&O3&O4&O5&_).
      destruct Ho as (P1&P2&P3&P4&P5&P6&P7&P8). unfold read_outcome.
      split; [done|]. split; [done|]. split; [congruence|]. split; [congruence|]. do 3 (split; [congruence|]).
      destruct P8 as [?|[(?&->&E&_)|(?&->&?)]]; [left; by rewrite <- O3|right; right..]; (split; [done|]); (split; [done|]).
      + by rewrite E.
      + lia.
    - destruct Hres as [[Hres Hwhy]|[-> Hwhy]].
      + destruct (read_outcome_close c w g Hs Hr Hwhy) as (c' & E & Ho).
        exists 1, c', (tick w). by destruct Hres as [->| ->]; rewrite E.
      + exists g, c, (tick w). split; [done|]. unfold read_outcome. do 7 (split; [done|]). right; left. done. }
  destruct (Z.leb_spec (rsize (rd c)) (rbytes (rd c))) as [Hfull|Hroom].
  2: { destruct (Hrec c w) as (g' & c' & w' & E & Ho); try done; [rewrite length_unread by done; lia|eauto]. }
  rewrite (proj2 (Z.leb_gt (2 ^ 31) _)) by (change (2 ^ 31) with (2 ^ 30 * 2); lia).
  unfold realloc. rewrite memory. cbn iota.
  destruct (grow_buffer (rd c) _ Hr H0 eq_refl) as [Hr' Hu'].
  set (c1 := set_rd c _) in *. set (w1 := Net _ _ _ _ _ _ _ _).
  destruct (Hrec c1 w1) as (g' & c' & w' & E & Ho); try done.
  { cbn [c1 set_rd rd]. rewrite Hu', length_unread by done. done. }
  { destruct Hr as (?&?&?&?&?). cbn [c1 set_rd rd rbytes rsize]. lia. }
  exists g', c', w'. split; [done|]. unfold read_outcome in *.
  cbn [c1 set_rd rd out w1 rx rx_eof tx asked] in Ho. by rewrite Hu' in Ho.
Qed.

Lemma try_read_network_spec c w :
  sizes_ok c -> rd_ok (rd c) -> state c = conn_read ->
  zlen (unread (rd c)) + zlen (rx w) < 2 ^ 30 ->
  exists g' c' w', try_read_network kernel realloc_ok c w = Some (g', c', w') /\
    read_outcome c w 0 g' c' w'.
Proof.
  intros Hs Hr Hst Hb. unfold try_read_network.
  assert (exists c1, (if negb (rcurr (rd c) =? 0) then
       let? b := (if negb (rbytes (rd c) =? 0)
                  then let? bs := zread (rbuf (rd c)) (rcurr (rd c)) (rbytes (rd c)) in zwrite (rbuf (rd c)) 0 bs
                  else Some (rbuf (rd c))) in
       Some (set_rd c (Rd b 0 (rsize (rd c)) (rbytes (rd c))))
     else Some c) = Some c1 /\ sizes_ok c1 /\ rd_ok (rd c1) /\ state c1 = conn_read /\ rcurr (rd c1) = 0 /\
     unread (rd c1) = unread (rd c) /\ out c1 = out c) as (c1 & E & Hs1 & Hr1 & Hst1 & H01 & Hu1 & Ho1).
  { destruct (Z.eqb_spec (rcurr (rd c)) 0) as [E0|E0]; [by exists c|]. cbn [negb].
    destruct (Z.eqb_spec (rbytes (rd c)) 0) as [E1|E1]; cbn [negb obind].
    - eexists. split; [done|]. split; [done|]. destruct Hr as (?&?&?&?&?).
      split; [unfold rd_ok; simpl; lia|]. do 2 (split; [done|]). split; [|done].
      unfold unread. cbn [set_rd rd rbytes]. by rewrite E1.
    - rewrite (unread_zread _ Hr). cbn [obind]. destruct (move_front _ Hr) as (b & -> & Hok & Hun).
      cbn [obind]. eexists. split; [done|]. done. }
  rewrite E. cbn [obind].
  destruct (read_loop_spec (S (S (length (rx w)))) c1 0 w) as (g' & c' & w' & -> & Ho); try done; [lia|by rewrite Hu1|].
  exists g', c', w'. split; [done|]. unfold read_outcome in *. by rewrite <- Hu1, <- Ho1.
Qed.

(** ** Writing *)

(** The messages [ms], whose slices start at index [k] of [v], still have
    the bytes [p] to send. *)
Fixpoint msgs_ok (wb : list Z) (v : list iovec) (k : Z) (ms : list msghdr) (p : list Z) : Prop :=
  match ms with
  | [] => p = []
  | m :: ms =>
      k <= msg_iov m /\
      exists vs bs p', zread v (msg_iov m) (msg_iovlen m) = Some vs /\ gather wb vs = Some bs /\
        Forall (fun e => 0 < iov_len e) vs /\ p = bs ++ p' /\
        msgs_ok wb v (msg_iov m + msg_iovlen m) ms p'
  end.

(** The messages from the current one on. *)
Definition msgs_left (o : outq) : list msghdr :=
  take (Z.to_nat (msgused o - msgcurr o)) (drop (Z.to_nat (msgcurr o)) (msglist o)).

Definition out_ok (wb : list Z) (o : outq) (p : list Z) : Prop :=
  (0 <= msgcurr o <= msgused o) /\ msgused o <= zlen (msglist o) /\ 0 < iovused o /\
  msgs_ok wb (iov o) 0 (msgs_left o) p /\ Forall (fun m => 0 < msg_iovlen m) (tail (msgs_left o)).

Lemma msgs_ok_weaken wb v k k' ms p : k' <= k -> msgs_ok wb v k ms p -> msgs_ok wb v k' ms p.
Proof. destruct ms; [done|]. simpl. intros ? [? H]. split; [lia|done]. Qed.

Lemma msgs_ok_insert wb v k ms p i e :
  0 <= i < k -> msgs_ok wb v k ms p -> msgs_ok wb (<[Z.to_nat i := e]> v) k ms p.
Proof.
  revert k p. induction ms as [|m ms IH]; intros k p Hi; simpl; [done|].
  intros (Hk & vs & bs & p' & Hz & Hg & Hf & -> & Hms). split; [done|]. exists vs, bs, p'.
  pose proof Hz as [(?&?&?) _]%zread_Some.
  rewrite zread_insert_lt by lia. do 4 (split; [done|]). apply IH; [lia|done].
Qed.

Lemma skip_sent_spec wb v fuel m vs bs res :
  Z.of_nat fuel = msg_iovlen m -> zread v (msg_iov m) (msg_iovlen m) = Some vs -> gather wb vs = Some bs ->
  Forall (fun e => 0 < iov_len e) vs -> 0 <= res <= zlen bs ->
  exists vs1 vs2 bs1 bs2 res',
    skip_sent fuel v m res = Some (Msghdr (msg_iov m + zlen vs1) (msg_iovlen m - zlen vs1), res') /\
    vs = vs1 ++ vs2 /\ bs = bs1 ++ bs2 /\ gather wb vs2 = Some bs2 /\
    zread v (msg_iov m + zlen vs1) (msg_iovlen m - zlen vs1) = Some vs2 /\
    res = zlen bs1 + res' /\ 0 <= res' /\ match vs2 with [] => res' = 0 | e :: _ => res' < iov_len e end.
Proof.
  revert m vs bs res. induction fuel as [|fuel IH]; intros m vs bs res Hn Hz Hg Hpos Hres; cbn [skip_sent].
  - pose proof (zread_length _ _ _ _ Hz). destruct vs; [|simpl in *; lia]. simpl in Hg. injection Hg as <-.
    simpl in Hres. exists [], [], [], [], res. simpl. rewrite Z.add_0_r, Z.sub_0_r.
    split; [by destruct m|]. do 3 (split; [done|]). split; [done|]. lia.
  - pose proof (zread_length _ _ _ _ Hz). destruct vs as [|e vs]; [simpl in *; lia|].
    rewrite (proj2 (Z.ltb_lt 0 (msg_iovlen m))) by lia.
    pose proof Hz as (_ & Hget & Hz')%zread_cons. rewrite Hget. cbn [obind].
    simpl in Hg. opt_inv. match goal with H : iov_slice _ _ = Some ?x |- _ => rename H into Ha, x into a end.
    match goal with H : gather _ vs = Some ?x |- _ => rename H into Hb, x into b end.
    pose proof (zread_length _ _ _ _ Ha) as La. rewrite length_app in Hres.
    apply Forall_cons in Hpos as [Hp Hpos].
    destruct (Z.leb_spec (iov_len e) res) as [Hle|Hgt].
    + destruct (IH (Msghdr (msg_iov m + 1) (msg_iovlen m - 1)) vs b (res - iov_len e))
        as (vs1 & vs2 & bs1 & bs2 & res' & -> & -> & -> & Hg2 & Hz2 & Hr & Hr0 & Hlt);
        try (done || (simpl; lia)).
      exists (e :: vs1), vs2, (a ++ bs1), bs2, res'. cbn [length msg_iov msg_iovlen] in *.
      replace (msg_iov m + Z.of_nat (S (length vs1))) with (msg_iov m + 1 + zlen vs1) by lia.
      replace (msg_iovlen m - Z.of_nat (S (length vs1))) with (msg_iovlen m - 1 - zlen vs1) by lia.
      split; [done|]. split; [done|]. split; [by rewrite app_assoc|]. split; [done|].
      split; [done|]. rewrite length_app. split; [lia|]. done.
    + exists [], (e :: vs), [], (a ++ b), res. simpl. rewrite Z.add_0_r, Z.sub_0_r.
      split; [by destruct m|]. do 2 (split; [done|]). rewrite Ha, Hb. simpl. split; [done|]. split; [done|]. lia.
Qed.

Definition set_curr (o : outq) (k : Z) : outq :=
  Out (iov o) (iovsize o) (iovused o) (msglist o) (msgsize o) (msgused o) k (msgbytes o).

Lemma msgs_left_cons o :
  0 <= msgcurr o -> msgcurr o < msgused o -> msgused o <= zlen (msglist o) ->
  exists m, zget (msglist o) (msgcurr o) = Some m /\ msgs_left o = m :: msgs_left (set_curr o (msgcurr o + 1)).
Proof.
  intros H0 Hlt Hle. destruct (zget_is_Some (msglist o) (msgcurr o)) as [m Hm]; [lia|].
  exists m. split; [done|]. apply zget_Some in Hm as [_ Hm]. unfold msgs_left. simpl.
  rewrite (drop_S _ _ _ Hm).
  replace (Z.to_nat (msgused o - msgcurr o)) with (S (Z.to_nat (msgused o - (msgcurr o + 1)))) by lia.
  replace (Z.to_nat (msgcurr o + 1)) with (S (Z.to_nat (msgcurr o))) by lia. done.
Qed.

(** Stepping over a finished message. *)
Lemma transmit_advance wb o p :
  out_ok wb o p ->
  exists k, (if msgcurr o <? msgused o then
       let? m := zget (msglist o) (msgcurr o) in
       Some (if msg_iovlen m =? 0 then msgcurr o + 1 else msgcurr o)
     else Some (msgcurr o)) = Some k /\ out_ok wb (set_curr o k) p /\
    Forall (fun m => 0 < msg_iovlen m) (msgs_left (set_curr o k)).
Proof.
  intros (Hc & Hu & Hv & Hms & Hpos). destruct (Z.ltb_spec (msgcurr o) (msgused o)) as [Hlt|Hge].
  - destruct (msgs_left_cons o) as (m & Hm & Hcons); [lia..|]. rewrite Hm. cbn [obind].
    rewrite Hcons in Hms, Hpos. simpl in Hpos.
    destruct (Z.eqb_spec (msg_iovlen m) 0) as [E|E].
    + exists (msgcurr o + 1). split; [done|]. unfold out_ok. cbn [set_curr msgcurr msgused msglist iovused iov].
      split; [|done]. split; [lia|]. split; [lia|]. split; [done|].
      split; [|by destruct Hpos].
      destruct Hms as (Hk & vs & bs & p' & Hz & Hg & _ & -> & Hms).
      pose proof (zread_length _ _ _ _ Hz). destruct vs; [|simpl in *; lia]. simpl in Hg. injection Hg as <-.
      rewrite app_nil_l. eapply msgs_ok_weaken; [|done]. lia.
    + exists (msgcurr o). split; [done|].
      assert (set_curr o (msgcurr o) = o) as -> by (by destruct o).
      split; [|rewrite Hcons; constructor; [|done]].
      * unfold out_ok. rewrite Hcons. auto.
      * destruct Hms as (Hk & vs & bs & p' & Hz & _). pose proof Hz as [(?&?&?) _]%zread_Some. lia.
  - exists (msgcurr o). split; [done|]. assert (set_curr o (msgcurr o) = o) as -> by (by destruct o).
    split; [done|]. unfold msgs_left. replace (Z.to_nat _) with 0%nat by lia. rewrite take_0. constructor.
Qed.

Lemma gather_nonempty wb vs bs :
  gather wb vs = Some bs -> Forall (fun e => 0 < iov_len e) vs -> vs <> [] -> bs <> [].
Proof.
  destruct vs as [|e vs]; [done|]. simpl. intros H [Hp _]%Forall_cons _. opt_inv.
  match goal with H : iov_slice _ _ = Some ?a |- _ => apply zread_length in H; destruct a; [simpl in *; lia|done] end.
Qed.

(** Cutting the sent bytes off the first remaining slice. *)
Lemma cut_slice wb v off n vs bs res :
  zread v off n = Some vs -> gather wb vs = Some bs -> Forall (fun e => 0 < iov_len e) vs -> 0 <= res ->
  match vs with [] => res = 0 | e :: _ => res < iov_len e end ->
  exists v' vs',
    (if 0 <? res then
       let? e := zget v off in zset v off (Iovec (iov_base e + res) (iov_len e - res))
     else Some v) = Some v' /\
    zread v' off n = Some vs' /\ gather wb vs' = Some (drop (Z.to_nat res) bs) /\
    Forall (fun e => 0 < iov_len e) vs' /\
    (v' = v \/ exists e, v' = <[Z.to_nat off := e]> v /\ 0 <= off < off + n).
Proof.
  intros Hz Hg Hpos H0 Hres. destruct (Z.ltb_spec 0 res) as [Hr|Hr].
  2: { assert (res = 0) as -> by lia. exists v, vs. rewrite drop_0. eauto 10. }
  destruct vs as [|e vs]; [lia|]. pose proof Hz as (Hn & Hget & _)%zread_cons. rewrite Hget. cbn [obind].
  pose proof (zget_lt_Some _ _ _ Hget).
  eexists (<[Z.to_nat off := _]> v), (Iovec (iov_base e + res) (iov_len e - res) :: vs).
  split; [apply zset_Some; done|]. split; [by eapply zread_insert_eq|].
  simpl in Hg. opt_inv. apply Forall_cons in Hpos as [Hp Hpos].
  match goal with H : iov_slice _ _ = Some ?x |- _ => pose proof (zread_length _ _ _ _ H) as La;
    rename H into Ha, x into a end.
  match goal with H : gather _ vs = Some ?x |- _ => rename H into Hb, x into b end.
  split; [|split; [constructor; [simpl; lia|done]|right; eexists; split; [done|lia]]].
  simpl. unfold iov_slice in *. simpl. apply zread_Some in Ha as [(?&?&?) Ha].
  rewrite (proj2 (zread_Some _ _ _ (drop (Z.to_nat res) a))).
  - simpl. rewrite Hb. simpl. f_equal. rewrite drop_app_le by lia. done.
  - split; [lia|]. subst a. rewrite skipn_firstn_comm, drop_drop. f_equal; [lia|]. f_equal. lia.
Qed.

Definition same_sizes (o o' : outq) : Prop :=
  length (iov o') = length (iov o) /\ iovsize o' = iovsize o /\
  length (msglist o') = length (msglist o) /\ msgsize o' = msgsize o.

Lemma sizes_ok_set_out c o : sizes_ok c -> same_sizes (out c) o -> sizes_ok (set_out c o).
Proof. intros (?&?&[??]&[??]&?&?) (?&?&?&?). unfold sizes_ok. simpl. repeat split; congruence. Qed.

(** What is left to send after a part of the current message was. *)
Lemma out_ok_sent wb o m vs bs p' k v' vs' :
  out_ok wb o (bs ++ p') -> zget (msglist o) (msgcurr o) = Some m -> msgcurr o < msgused o ->
  zread (iov o) (msg_iov m) (msg_iovlen m) = Some vs -> gather wb vs = Some bs ->
  (0 <= k <= msg_iovlen m) -> forall bs',
  zread v' (msg_iov m + k) (msg_iovlen m - k) = Some vs' -> gather wb vs' = Some bs' ->
  Forall (fun e => 0 < iov_len e) vs' ->
  (v' = iov o \/ exists e, v' = <[Z.to_nat (msg_iov m + k) := e]> (iov o) /\
     0 <= msg_iov m + k < msg_iov m + k + (msg_iovlen m - k)) ->
  out_ok wb (Out v' (iovsize o) (iovused o)
      (<[Z.to_nat (msgcurr o) := Msghdr (msg_iov m + k) (msg_iovlen m - k)]> (msglist o))
      (msgsize o) (msgused o) (msgcurr o) (msgbytes o)) (bs' ++ p').
Proof.
  intros (Hc & Hu & Hv & Hms & Hpos) Hm Hlt Hz Hg Hk bs' Hz' Hg' Hp' Hv'.
  destruct (msgs_left_cons o) as (m0 & Hm0 & Hcons); [lia..|]. rewrite Hm in Hm0. injection Hm0 as <-.
  set (o' := Out _ _ _ _ _ _ _ _).
  destruct (msgs_left_cons o') as (m1 & Hm1 & Hcons'); [cbn; rewrite ?length_insert; lia..|].
  assert (m1 = Msghdr (msg_iov m + k) (msg_iovlen m - k)) as ->.
  { cbn [o' msglist msgcurr] in Hm1. apply zget_Some in Hm1 as [_ Hm1].
    rewrite list_lookup_insert_eq in Hm1 by lia. congruence. }
  assert (msgs_left (set_curr o' (msgcurr o' + 1)) = msgs_left (set_curr o (msgcurr o + 1))) as Htl.
  { unfold msgs_left. cbn [o' set_curr msgcurr msgused msglist]. by rewrite drop_insert_lt by lia. }
  rewrite Hcons in Hms, Hpos. simpl in Hpos.
  destruct Hms as (Hk0 & vs0 & bs0 & p0 & Hz0 & Hg0 & _ & Hp & Hms).
  rewrite Hz in Hz0. injection Hz0 as <-. rewrite Hg in Hg0. injection Hg0 as <-.
  apply app_inv_head in Hp as <-.
  unfold out_ok. rewrite Hcons', Htl. split; [done|]. split; [cbn; rewrite length_insert; done|].
  split; [done|]. split; [|done]. cbn [msgs_ok msg_iov msg_iovlen o' iov]. split; [lia|].
  exists vs', bs', p'. do 3 (split; [done|]). split; [done|].
  replace (msg_iov m + k + (msg_iovlen m - k)) with (msg_iov m + msg_iovlen m) in * by lia.
  destruct Hv' as [->|(e & -> & ?)]; [done|]. apply msgs_ok_insert; [lia|done].
Qed.

(** The outcomes of [transmit] when the bytes [p] are pending. *)
Inductive transmit_outcome (c : conn) (w : net) (p : list Z) : transmit_result -> conn -> net -> Prop :=
| sent_all o : p = [] -> same_sizes (out c) o -> transmit_outcome c w p TRANSMIT_COMPLETE (set_out c o) w
| sent_some o w' n :
    (0 < n <= length p)%nat -> same_sizes (out c) o -> out_ok (wbuf (wr c)) o (drop n p) ->
    tx w' = tx w ++ take n p -> rx w' = rx w -> rx_eof w' = rx_eof w -> asked w' = asked w ->
    transmit_outcome c w p TRANSMIT_INCOMPLETE (set_out c o) w'
| sent_later o :
    ~ eager -> same_sizes (out c) o -> out_ok (wbuf (wr c)) o p ->
    transmit_outcome c w p TRANSMIT_SOFT_ERROR (set_ev_flags (set_out c o) AE_WRITABLE) (tick w)
| sent_never o :
    ~ eager -> same_sizes (out c) o ->
    transmit_outcome c w p TRANSMIT_HARD_ERROR (set_state (set_out c o) conn_closing) (tick w).

Lemma transmit_spec c w p :
  sizes_ok c -> rd_ok (rd c) -> out_ok (wbuf (wr c)) (out c) p ->
  exists r c' w', transmit kernel realloc_ok c w = Some (r, c', w') /\ transmit_outcome c w p r c' w'.
Proof.
  intros Hs Hr Hok. unfold transmit. destruct (transmit_advance _ _ _ Hok) as (k & -> & Hok1 & Hpos).
  cbn [obind]. change (Out (iov (out c)) _ _ _ _ _ k _) with (set_curr (out c) k).
  set (o := set_curr (out c) k) in *. cbn [set_out wr].
  assert (same_sizes (out c) o) as Hss by done. assert (msgcurr o = k) as Hk by done. clearbody o.
  pose proof Hok1 as (Hc & Hu & Hv & Hms & _).
  destruct (Z.ltb_spec k (msgused o)) as [Hlt|Hge].
  2: { eexists _, _, _. split; [done|]. apply sent_all; [|done].
       unfold msgs_left in Hms. replace (Z.to_nat (msgused o - msgcurr o)) with 0%nat in Hms by lia.
       by rewrite take_0 in Hms. }
  destruct (msgs_left_cons o) as (m & Hm & Hcons); [lia..|].
  rewrite Hk in Hm. rewrite Hm. cbn [obind]. rewrite Hcons in Hms, Hpos.
  destruct Hms as (Hk0 & vs & bs & p' & Hz & Hg & Hpv & -> & Hms). rewrite Hz. cbn [obind]. rewrite Hg. cbn [obind].
  apply Forall_cons in Hpos as [Hlen _].
  assert (bs <> []) as Hne.
  { eapply gather_nonempty; [done..|]. intros ->. apply zread_length in Hz. simpl in Hz. lia. }
  unfold sys_sendmsg. rewrite bool_decide_eq_false_2 by done.
  assert (forall w, exists c', set_state_to (set_out c o) conn_closing w = Some (c', w) /\
    c' = set_state (set_out c o) conn_closing) as Hclose.
  { intros w1. destruct (conn_set_state_spec (set_out c o) conn_closing w1) as (r & w' & -> & _ & _ & _ & Heq);
      [by apply sizes_ok_set_out|done|]. destruct Heq as [-> ->]; [done|]. eexists. split; [done|]. by destruct c. }
  assert (kernel (calls w) = Again \/ kernel (calls w) = Hard -> ~ eager) as Hlazy.
  { intros Hkk He. destruct (He (calls w)) as [k1 Hk']. destruct Hkk; congruence. }
  destruct (kernel (calls w)) as [n| |].
  2: { eexists _, _, _. split; [done|]. apply sent_later; auto. }
  2: { destruct (Hclose (tick w)) as (c' & -> & ->). eexists _, _, _. split; [done|]. apply sent_never; auto. }
  set (q := Nat.max 1 _).
  assert (1 <= q <= length bs)%nat as Hq by (destruct bs; [done|]; simpl in *; lia).
  rewrite (proj2 (Z.ltb_lt 0 _)) by lia.
  destruct (skip_sent_spec (wbuf (wr c)) (iov o) (Z.to_nat (msg_iovlen m)) m vs bs (Z.of_nat q))
    as (vs1 & vs2 & bs1 & bs2 & res' & -> & -> & -> & Hg2 & Hz2 & Hres & Hres0 & Hlt2); try (done || lia).
  cbn [obind msg_iov]. apply Forall_app in Hpv as [_ Hpv2].
  destruct (cut_slice _ _ _ _ _ _ _ Hz2 Hg2 Hpv2 Hres0 Hlt2) as (v' & vs' & -> & Hz' & Hg' & Hp' & Hv').
  cbn [obind]. pose proof (zget_lt_Some _ _ _ Hm) as Hrange.
  rewrite (proj2 (zset_Some (msglist o) k _ _) (conj Hrange eq_refl)). cbn [obind].
  pose proof (zread_length _ _ _ _ Hz) as Hlz. rewrite length_app in Hlz.
  eexists _, _, _. split; [done|].
  apply (sent_some c w _ _ _ q); try done.
  - rewrite length_app. lia.
  - destruct Hss as (?&?&?&?). unfold same_sizes. simpl. rewrite length_insert.
    split; [|done]. destruct Hv' as [->|(?&->&_)]; [done|]. by rewrite length_insert.
  - rewrite drop_app_le by lia. rewrite <- Hk in *.
    replace (drop q (bs1 ++ bs2)) with (drop (Z.to_nat res') bs2)
      by (rewrite drop_app_ge by lia; f_equal; lia).
    eapply (out_ok_sent _ o m); try done. lia.
  - cbn [tx]. by rewrite (take_app_le (bs1 ++ bs2)) by lia.
Qed.

(** ** Queueing the reply *)

Lemma zread_one {A} (l : list A) i x : zget l i = Some x -> zread l i 1 = Some [x].
Proof.
  intros H. apply zread_cons. split; [lia|]. split; [done|]. pose proof (zget_lt_Some _ _ _ H).
  apply zread_Some. split; [lia|]. done.
Qed.

(** A queue of one or two messages of one slice each. *)
Lemma out_ok_one wb o base len :
  msgcurr o = 0 -> msgused o = 1 -> 0 < iovused o -> 0 < len ->
  zget (msglist o) 0 = Some (Msghdr 0 1) -> zget (iov o) 0 = Some (Iovec base len) ->
  forall p, zread wb base len = Some p -> out_ok wb o p.
Proof.
  intros Hc Hu Hv Hl Hm Hi p Hp. pose proof (zget_lt_Some _ _ _ Hm).
  destruct (msgs_left_cons o) as (m & Hm' & Hcons); [lia..|].
  rewrite Hc, Hm in Hm'. injection Hm' as <-.
  assert (msgs_left (set_curr o (msgcurr o + 1)) = []) as Hnil.
  { unfold msgs_left. cbn [set_curr msgused msgcurr]. replace (Z.to_nat _) with 0%nat by lia. apply take_0. }
  unfold out_ok. rewrite Hcons, Hnil. split; [lia|]. split; [lia|]. split; [done|]. split; [|constructor].
  cbn. split; [lia|]. eexists [Iovec base len], p, []. split; [by apply zread_one|].
  split; [simpl; unfold iov_slice; simpl; rewrite Hp; simpl; by rewrite app_nil_r|].
  split; [by constructor|]. by rewrite app_nil_r.
Qed.

Lemma out_ok_two wb o b0 l0 b1 l1 :
  msgcurr o = 0 -> msgused o = 2 -> 0 < iovused o -> 0 < l0 -> 0 < l1 ->
  zget (msglist o) 0 = Some (Msghdr 0 1) -> zget (msglist o) 1 = Some (Msghdr 1 1) ->
  zget (iov o) 0 = Some (Iovec b0 l0) -> zget (iov o) 1 = Some (Iovec b1 l1) ->
  forall p0 p1, zread wb b0 l0 = Some p0 -> zread wb b1 l1 = Some p1 -> out_ok wb o (p0 ++ p1).
Proof.
  intros Hc Hu Hv Hl0 Hl1 Hm0 Hm1 Hi0 Hi1 p0 p1 Hp0 Hp1. pose proof (zget_lt_Some _ _ _ Hm1).
  destruct (msgs_left_cons o) as (m & Hm' & Hcons); [lia..|].
  rewrite Hc, Hm0 in Hm'. injection Hm' as <-.
  assert (out_ok wb (set_curr o 1) p1) as (_ & _ & _ & Hok & _).
  { unfold out_ok. destruct (msgs_left_cons (set_curr o 1)) as (m' & Hm' & Hcons'); [cbn; lia..|].
    cbn [set_curr msglist msgcurr] in Hm'. rewrite Hm1 in Hm'. injection Hm' as <-.
    assert (msgs_left (set_curr (set_curr o 1) (msgcurr (set_curr o 1) + 1)) = []) as Hnil.
    { unfold msgs_left. cbn [set_curr msgused msgcurr]. replace (Z.to_nat _) with 0%nat by lia. apply take_0. }
    rewrite Hcons', Hnil. cbn. split; [lia|]. split; [lia|]. split; [done|]. split; [|constructor].
    split; [lia|]. eexists [Iovec b1 l1], p1, []. split; [by apply zread_one|].
    split; [simpl; unfold iov_slice; simpl; rewrite Hp1; simpl; by rewrite app_nil_r|].
    split; [by constructor|]. by rewrite app_nil_r. }
  replace (set_curr o (msgcurr o + 1)) with (set_curr o 1) in Hcons by (by rewrite Hc).
  destruct (msgs_left_cons (set_curr o 1)) as (m' & Hm' & Hcons'); [cbn; lia..|].
  cbn [set_curr msglist msgcurr] in Hm'. rewrite Hm1 in Hm'. injection Hm' as <-.
  assert (msgs_left (set_curr (set_curr o 1) (msgcurr (set_curr o 1) + 1)) = []) as Hnil.
  { unfold msgs_left. cbn [set_curr msgused msgcurr]. replace (Z.to_nat _) with 0%nat by lia. apply take_0. }
  unfold out_ok. rewrite Hcons. split; [lia|]. split; [lia|]. split; [done|]. split.
  - cbn [msgs_ok msg_iov msg_iovlen]. split; [lia|]. eexists [Iovec b0 l0], p0, p1. split; [by apply zread_one|].
    split; [simpl; unfold iov_slice; simpl; rewrite Hp0; simpl; by rewrite app_nil_r|].
    split; [by constructor|]. split; [done|].
    rewrite Hcons' in Hok |- *. cbn [msgs_ok msg_iov msg_iovlen] in *. split; [lia|]. apply Hok.
  - cbn [tail]. rewrite Hcons', Hnil. by repeat constructor.
Qed.

Lemma add_iov_spec wb v l n w :
  zlen v = IOV_LIST_INITIAL -> zlen l = MSG_LIST_INITIAL -> zget l 0 = Some (Msghdr 0 0) ->
  zlen wb = DATA_BUFFER_SIZE -> 0 < n <= DATA_BUFFER_SIZE ->
  exists o', add_iov realloc_ok (Out v IOV_LIST_INITIAL 0 l MSG_LIST_INITIAL 1 0 0) 0 n w = Some (0, o', w) /\
    same_sizes (Out v IOV_LIST_INITIAL 0 l MSG_LIST_INITIAL 1 0 0) o' /\ out_ok wb o' (take (Z.to_nat n) wb).
Proof.
  change IOV_LIST_INITIAL with 400. change MSG_LIST_INITIAL with 10. change DATA_BUFFER_SIZE with 2048.
  intros Hv Hl H0 Hwb Hn. unfold add_iov. change 4%nat with (S (S 2)). generalize 2%nat as fuel. intros fuel.
  cbn [add_iov_loop msglist msgused]. change (1 - 1) with 0.
  rewrite H0. cbn [obind msg_iovlen msgbytes]. change (0 =? IOV_MAX) with false.
  change (MAX_PAYLOAD_SIZE <=? 0) with false. change (1 =? 1) with true.
  cbn [andb orb obind]. unfold ensure_iov_space at 1.
  cbn [iovsize iovused]. change (400 <=? 0) with false. cbn iota. change (negb (0 =? 0)) with false. cbn iota.
  cbn [andb msgbytes msglist msgused]. rewrite Z.add_0_r.
  change MAX_PAYLOAD_SIZE with 1400.
  change (1 - 1) with 0. rewrite H0. cbn [obind msg_iov msg_iovlen iov]. change (0 + 0) with 0.
  rewrite (zset_ok v) by lia. cbn [obind]. rewrite (zset_ok l) by lia. cbn [obind iovsize iovused msgsize].
  change (0 + 1) with 1. cbn [msgcurr].
  destruct (Z.ltb_spec 1400 n) as [Hbig|Hsmall].
  - rewrite (proj2 (Z.ltb_lt 0 (n - 1400))) by lia. replace (n - (n - 1400)) with 1400 by lia.
    cbn [add_iov_loop msglist msgused]. change (1 - 1) with 0.
    rewrite zget_insert by lia. cbn [obind msg_iovlen msgbytes]. change (1 =? IOV_MAX) with false.
    change (0 + 1400) with 1400. change (1400 <=? 1400) with true. change (1 =? 1) with true.
    cbn [andb orb]. unfold add_msghdr. cbn [msgsize msgused msglist iovused].
    change (10 =? 1) with false. cbn iota. rewrite zset_ok by (rewrite length_insert; lia).
    cbn [obind iov iovsize iovused msgsize msgcurr]. unfold ensure_iov_space. cbn [iovsize iovused].
    change (400 <=? 1) with false. cbn iota. change (negb (0 =? 0)) with false. cbn iota.
    cbn [msgbytes msglist msgused]. rewrite Z.add_0_r. change MAX_PAYLOAD_SIZE with 1400.
    rewrite (proj2 (Z.ltb_ge 1400 (n - 1400))) by lia. change (1 + 1 - 1) with 1. cbn [andb].
    rewrite zget_insert by (rewrite length_insert; lia).
    cbn [obind msg_iov msg_iovlen iov]. change (1 + 0) with 1.
    rewrite zset_ok by (rewrite length_insert; lia). cbn [obind].
    rewrite zset_ok by (rewrite !length_insert; lia). cbn [obind]. change (0 <? 0) with false. cbn iota.
    eexists. split; [done|]. split; [unfold same_sizes; simpl; by rewrite !length_insert|].
    replace (take (Z.to_nat n) wb) with
      (take (Z.to_nat 1400) wb ++ take (Z.to_nat (n - 1400 - 0)) (drop (Z.to_nat 1400) wb)).
    2: { rewrite take_take_drop. f_equal. lia. }
    eapply (out_ok_two _ _ 0 1400 1400 (n - 1400 - 0)); try done; try lia.
    + cbn [msglist]. apply zget_Some. split; [lia|]. rewrite !list_lookup_insert_ne by lia.
      by rewrite list_lookup_insert_eq by lia.
    + cbn [msglist]. rewrite zget_insert by (rewrite !length_insert; lia). done.
    + cbn [iov]. apply zget_Some. split; [lia|]. rewrite list_lookup_insert_ne by lia.
      by rewrite list_lookup_insert_eq by lia.
    + cbn [iov]. by rewrite zget_insert by (rewrite length_insert; lia).
    + apply zread_Some. split; [lia|]. done.
    + apply zread_Some. split; [lia|]. done.
  - change (0 <? 0) with false. cbn iota. rewrite Z.sub_0_r.
    eexists. split; [done|]. split; [unfold same_sizes; simpl; by rewrite !length_insert|].
    eapply (out_ok_one _ _ 0 n); try done; try lia.
    + cbn [msglist]. by rewrite zget_insert by lia.
    + cbn [iov]. by rewrite zget_insert by lia.
    + apply zread_Some. split; [lia|]. done.
Qed.

(** ** The simulation *)

(** A reply [p] was produced and is not queued yet. *)
Definition reply_waiting (c : conn) (p : list Z) : Prop :=
  iovused (out c) = 0 /\ msgused (out c) = 1 /\ msgcurr (out c) = 0 /\ msgbytes (out c) = 0 /\
  zget (msglist (out c)) 0 = Some (Msghdr 0 0) /\ wcurr (wr c) = 0 /\ wbytes (wr c) = zlen p /\
  p <> [] /\ take (length p) (wbuf (wr c)) = p.

(** The bytes [p] remain to be sent before the next command is looked at. *)
Definition pending (c : conn) (p : list Z) : Prop :=
  (state c = conn_read /\ p = []) \/
  (state c = conn_write /\ write_and_go c = conn_read /\
   (reply_waiting c p \/ out_ok (wbuf (wr c)) (out c) p)).

(** What was sent, what is pending and the replies to what was not parsed
    yet are together the replies to the input [inp], whatever follows. *)
Definition live (inp : list Z) (c : conn) (w : net) (p : list Z) : Prop :=
  sizes_ok c /\ rd_ok (rd c) /\ pending c p /\ zlen p <= DATA_BUFFER_SIZE /\
  zlen (unread (rd c)) + zlen (rx w) <= zlen inp < 2 ^ 30 /\
  forall f, tx w ++ p ++ serve redis_reply (asked w) [] (unread (rd c) ++ rx w ++ f) =
            serve redis_reply 0 [] (inp ++ f).

Definition shut (inp : list Z) (c : conn) (w : net) : Prop :=
  sizes_ok c /\ rd_ok (rd c) /\ state c = conn_closing /\ tx w `prefix_of` serve redis_reply 0 [] inp.

(** The work left for the loop of [drive_machine]. *)
Definition work (c : conn) (w : net) (p : list Z) : Z :=
  2052 * (rbytes (rd c) + 2 * zlen (rx w)) +
  (if bool_decide (state c = conn_write) then zlen p + 3 else 2).

Lemma live_prefix inp c w p : live inp c w p -> tx w `prefix_of` serve redis_reply 0 [] inp.
Proof.
  intros (_ & _ & _ & _ & _ & H). specialize (H []). rewrite !app_nil_r in H. rewrite <- H.
  by apply prefix_app_r.
Qed.

(** How an iteration may end. *)
Definition step_ok (inp : list Z) (c : conn) (w : net) (p : list Z) (r : step_result) (c' : conn) (w' : net) : Prop :=
  rx_eof w' = rx_eof w /\
  match r with
  | Continue =>
      (exists p', live inp c' w' p' /\ work c' w' p' < work c w p) \/
      (shut inp c' w' /\ (rx_eof w = true \/ ~ eager))
  | Stop =>
      (exists p', live inp c' w' p') /\ (state c' = conn_read -> 10 ∉ unread (rd c')) /\
      (state c' = conn_read /\ rx w' = [] \/ ~ eager)
  | Close => False
  end.

Lemma drive_transmit_ok inp c0 c w p :
  live inp c w p -> state c = conn_write -> write_and_go c = conn_read ->
  out_ok (wbuf (wr c)) (out c) p -> rd c0 = rd c -> state c0 = conn_write ->
  exists r c' w', drive_transmit kernel realloc_ok c w = Some (r, c', w') /\ step_ok inp c0 w p r c' w'.
Proof.
  intros Hlive Hst Hgo Hok Hrd0 Hst0. pose proof Hlive as (Hs & Hr & Hp & Hpl & Hb & Hf).
  assert (work c0 w p = work c w p) as Hwork by (unfold work; by rewrite Hrd0, Hst0, Hst).
  unfold drive_transmit. destruct (transmit_spec c w p Hs Hr Hok) as (r & c' & w' & -> & Hout).
  cbn [obind]. destruct Hout as [o Hp0 Hss|o w' n Hn Hss Ho Htx Hrx He Ha|o Hlazy Hss Ho|o Hlazy Hss].
  - cbn [set_out state write_and_go]. rewrite Hst, Hgo. subst p.
    destruct (conn_set_state_spec (set_out c o) conn_read w) as (r & w' & -> & Hr' & Hu & Hn & _);
      [by apply sizes_ok_set_out|done|]. cbn [obind]. eexists _, _, _. split; [done|].
    destruct Hn as (N1 & N2 & N3 & N4). split; [done|]. left. exists []. cbn [set_out rd] in Hu.
    split.
    + split; [by apply sizes_ok_set_out|]. split; [done|]. split; [by left|]. split; [done|].
      cbn [set_state set_rd rd]. by rewrite Hu, N1, N3, N4.
    + rewrite Hwork. unfold work. cbn [set_state set_rd rd state]. rewrite Hst.
      rewrite <- (length_unread _ Hr'), Hu, length_unread, N1 by done.
      rewrite bool_decide_eq_false_2, bool_decide_eq_true_2 by done. simpl. lia.
  - eexists _, _, _. split; [done|]. split; [done|]. left. exists (drop n p). split.
    + split; [by apply sizes_ok_set_out|]. split; [done|].
      split; [right; split; [done|]; split; [done|]; by right|].
      split; [rewrite length_drop; lia|]. cbn [set_out rd]. rewrite Hrx, Ha, Htx. split; [done|].
      intros f. rewrite <- Hf. rewrite <- app_assoc. f_equal.
      by rewrite app_assoc, take_drop.
    + rewrite Hwork. unfold work. cbn [set_out rd state]. rewrite Hrx, Hst, bool_decide_eq_true_2 by done.
      rewrite length_drop. lia.
  - eexists _, _, _. split; [done|]. split; [done|]. split; [|split; [cbn; congruence|by right]].
    exists p. split; [by apply (sizes_ok_set_out c o)|]. split; [done|].
    split; [right; split; [done|]; split; [done|]; by right|]. done.
  - eexists _, _, _. split; [done|]. split; [done|]. right. split; [|by right].
    split; [by apply (sizes_ok_set_out c o)|]. split; [done|]. split; [done|]. by eapply live_prefix.
Qed.

Lemma drive_write_ok inp c w p :
  live inp c w p -> state c = conn_write ->
  exists r c' w', drive_write kernel realloc_ok c w = Some (r, c', w') /\ step_ok inp c w p r c' w'.
Proof.
  intros Hlive Hst. pose proof Hlive as (Hs & Hr & Hp & Hpl & Hb & Hf).
  destruct Hp as [[? _]|(_ & Hgo & [Hwait|Hok])]; [congruence| |].
  - destruct Hwait as (W1 & W2 & W3 & W4 & W5 & W6 & W7 & W8 & W9). unfold drive_write.
    rewrite W1, W6, W7. change (0 =? 0) with true. cbn iota.
    pose proof Hs as (S1 & S2 & [S3 S4] & [S5 S6] & S7 & S8).
    destruct (add_iov_spec (wbuf (wr c)) (iov (out c)) (msglist (out c)) (zlen p) w)
      as (o' & Hadd & Hss & Hok); [done..| |].
    { destruct p; [done|]. simpl in *. lia. }
    rewrite Nat2Z.id, W9 in Hok.
    assert (Out (iov (out c)) IOV_LIST_INITIAL 0 (msglist (out c)) MSG_LIST_INITIAL 1 0 0 = out c) as E.
    { rewrite <- S4, <- S6, <- W1, <- W2 at 1. destruct (out c). simpl in *. by subst. }
    rewrite E in Hadd, Hss. rewrite Hadd. cbn [obind]. change (negb (0 =? 0)) with false. cbn iota.
    apply drive_transmit_ok; try done.
    split; [by apply sizes_ok_set_out|]. split; [done|].
    split; [right; split; [done|]; split; [done|]; by right|]. done.
  - unfold drive_write. pose proof Hok as (_ & _ & Hu & _).
    rewrite (proj2 (Z.eqb_neq (iovused (out c)) 0)) by lia. by apply drive_transmit_ok.
Qed.

Lemma pending_reply c o rep :
  sizes_ok c -> 0 < zlen (msglist o) -> out c = reset_out o -> reply_ready c rep -> pending c rep.
Proof.
  intros Hs Hl Ho. unfold reply_ready. case_bool_decide as E; [by left|].
  intros (H1 & H2 & H3 & H4 & H5). right. split; [done|]. split; [done|]. left.
  unfold reply_waiting. rewrite Ho. cbn [reset_out iovused msgused msgcurr msgbytes msglist].
  do 4 (split; [done|]). split; [|done]. by apply (zget_insert (msglist o) 0).
Qed.

Lemma length_command_reply n line : zlen (command_reply redis_reply n line).1 <= DATA_BUFFER_SIZE.
Proof.
  unfold command_reply, text_reply. destruct (words _ _) as [|? [|? ?]]; [done..|].
  destruct (bool_decide _); [destruct (bool_decide _)|]; cbn [fst]; [apply length_reply_line..|done].
Qed.

Lemma drive_read_ok inp c w p :
  live inp c w p -> state c = conn_read ->
  exists r c' w', drive_read kernel realloc_ok redis_reply c w = Some (r, c', w') /\ step_ok inp c w p r c' w'.
Proof.
  intros Hlive Hst. pose proof Hlive as (Hs & Hr & Hp & Hpl & Hb & Hf). unfold drive_read.
  assert (p = []) as -> by (destruct Hp as [[_ ?]|[? _]]; [done|congruence]).
  pose proof (length_unread _ Hr) as Hlu.
  destruct (decide (10 ∈ unread (rd c))) as [Hin|Hin].
  - apply list_elem_of_split_l in Hin as (line & rest & Hu & Hnl).
    destruct (try_read_command_line c w line rest Hs Hr Hst Hu Hnl)
      as (c' & w' & -> & Hs' & Hr' & Hu' & Ho & Hrr & Ha & Hrx & He & Htx).
    cbn [obind]. change (negb (1 =? 0)) with true. cbn iota. eexists _, _, _. split; [done|].
    pose proof (length_command_reply (asked w) line) as Hcr.
    pose proof (length_unread _ Hr') as Hlu'. rewrite Hu' in Hlu'. rewrite Hu, length_app in Hlu, Hb. simpl in Hlu, Hb.
    split; [done|]. left. eexists. split; [split; [done|]; split; [done|]; split|].
    + eapply pending_reply; [done| |done|done]. destruct Hs as (_&_&_&[-> _]&_). done.
    + split; [done|]. rewrite Hu', Hrx. split; [lia|]. intros f.
      rewrite <- Hf, Htx, Ha, Hu, app_nil_l. f_equal.
      rewrite <- app_assoc. simpl. by rewrite serve_line.
    + unfold work. rewrite Hst, Hrx, (bool_decide_eq_false_2 (conn_read = conn_write)) by done. change DATA_BUFFER_SIZE with 2048 in Hcr.
      case_bool_decide; lia.
  - rewrite try_read_command_none by done. cbn [obind]. change (negb (0 =? 0)) with false. cbn iota.
    destruct (try_read_network_spec c w Hs Hr Hst ltac:(lia)) as (g & c' & w' & -> & Hs' & Hr' & Ho & Hcat & He & Htx & Ha & Hcase).
    cbn [obind]. pose proof (length_unread _ Hr') as Hlu'.
    assert (zlen (unread (rd c')) + zlen (rx w') = zlen (unread (rd c)) + zlen (rx w)) as Hsum.
    { apply (f_equal length) in Hcat. rewrite !length_app in Hcat. lia. }
    assert (state c' = conn_read -> live inp c' w' []) as Hlive'.
    { intros Hst'. split; [done|]. split; [done|]. split; [by left|]. split; [done|]. split; [lia|].
      intros f. rewrite Htx, Ha, <- Hf. f_equal. f_equal.
      by rewrite !(app_assoc (unread _)), Hcat. }
    destruct Hcase as [(Hst' & -> & Hwhy)|[(Hst' & -> & Hsame & Hwhy)|(Hst' & -> & Hlt)]].
    + change (negb (1 =? 0)) with true. cbn iota. eexists _, _, _. split; [done|]. split; [done|]. right.
      split; [|done]. do 3 (split; [done|]). rewrite Htx. by eapply live_prefix.
    + change (negb (0 =? 0)) with false. cbn iota. eexists _, _, _. split; [done|]. split; [done|].
      split; [exists []; by apply Hlive'|]. rewrite Hsame in Hcat. apply app_inv_tail in Hcat.
      split; [intros _; simpl; by rewrite Hcat|]. destruct Hwhy as [Hrx|?]; [left|by right].
      split; [done|]. by rewrite Hsame.
    + change (negb (1 =? 0)) with true. cbn iota. eexists _, _, _. split; [done|]. split; [done|]. left.
      exists []. split; [by apply Hlive'|]. unfold work. rewrite Hst, Hst'. rewrite bool_decide_eq_false_2 by done. lia.
Qed.

Lemma drive_step_ok inp c w p :
  live inp c w p ->
  exists r c' w', drive_step kernel realloc_ok redis_reply c w = Some (r, c', w') /\ step_ok inp c w p r c' w'.
Proof.
  intros Hlive. pose proof Hlive as (_ & _ & Hp & _). unfold drive_step.
  destruct Hp as [[Hst _]|[Hst _]]; rewrite Hst; [by apply drive_read_ok|by apply drive_write_ok].
Qed.

(** The loop ends within the work left. *)
Lemma drive_conn_ok inp fuel c w p :
  live inp c w p -> work c w p < Z.of_nat fuel ->
  exists b c' w', drive_conn kernel realloc_ok redis_reply fuel c w = Some (b, c', w') /\
    rx_eof w' = rx_eof w /\
    if b then shut inp c' w' /\ (rx_eof w = true \/ ~ eager)
    else (exists p', live inp c' w' p') /\ (state c' = conn_read -> 10 ∉ unread (rd c')) /\
         (state c' = conn_read /\ rx w' = [] \/ ~ eager).
Proof.
  revert c w p. induction fuel as [|fuel IH]; intros c w p Hlive Hfuel.
  { exfalso. destruct Hlive as (_ & (_&_&_&?&_) & _). unfold work in Hfuel. case_bool_decide; lia. }
  destruct (drive_step_ok inp c w p Hlive) as (r & c' & w' & E & He & Hstep). cbn [drive_conn]. rewrite E.
  cbn [obind]. destruct r.
  - destruct Hstep as [(p' & Hlive' & Hw)|[Hshut Hwhy]].
    + destruct (IH c' w' p' Hlive') as (b & c2 & w2 & -> & He2 & Hres); [lia|].
      exists b, c2, w2. split; [done|]. split; [congruence|]. by rewrite <- He.
    + pose proof Hshut as (_ & _ & Hst & _). destruct fuel as [|fuel].
      { exfalso. destruct Hlive as (_ & (_&_&_&?&_) & _). unfold work in Hfuel. case_bool_decide; lia. }
      exists true, c', w'. split; [cbn [drive_conn]; unfold drive_step; by rewrite Hst|]. done.
  - by exists false, c', w'.
  - done.
Qed.

(** ** Sessions

    What happens to a connection: bytes arrive, the peer stops sending, or
    the event loop drives the machine. *)
Inductive event := Arrive (bs : list Z) | Hangup | Ready.

Record session := Session { sconn : conn; snet : net; closed : bool }.

(** Enough for every command in the buffer and in the socket, each of which
    may have a full reply line sent one byte at a time. *)
Definition drive_fuel (c : conn) (w : net) : nat := Z.to_nat (2052 * (rbytes (rd c) + 2 * zlen (rx w) + 1)).

Definition run_event (s : session) (e : event) : option session :=
  let w := snet s in
  match e with
  | Arrive bs =>
      Some (Session (sconn s)
        (if rx_eof w then w
         else Net (rx w ++ bs) false (tx w) (calls w) (allocs w) (asked w) (bytes_read w) (bytes_written w))
        (closed s))
  | Hangup =>
      Some (Session (sconn s)
        (Net (rx w) true (tx w) (calls w) (allocs w) (asked w) (bytes_read w) (bytes_written w)) (closed s))
  | Ready =>
      if closed s then Some s else
      let? (b, c, w) := drive_conn kernel realloc_ok redis_reply (drive_fuel (sconn s) w) (sconn s) w in
      Some (Session c w b)
  end.

Fixpoint run (s : session) (evs : list event) : option session :=
  match evs with
  | [] => Some s
  | e :: evs => let? s := run_event s e in run s evs
  end.

(** A client that has just been accepted. *)
Definition accepted (fd : Z) : session :=
  Session (fresh_conn fd conn_read DATA_BUFFER_SIZE) (Net [] false [] 0 0 0 0 0) false.

(** What the client sent before it hung up. *)
Fixpoint input (evs : list event) : list Z :=
  match evs with
  | [] => []
  | Arrive bs :: evs => bs ++ input evs
  | Hangup :: _ => []
  | Ready :: evs => input evs
  end.

(** A session between events, when [inp] has arrived. *)
Definition session_ok (inp : list Z) (s : session) : Prop :=
  if closed s then shut inp (sconn s) (snet s)
  else (exists p, live inp (sconn s) (snet s) p) /\
       (state (sconn s) = conn_read -> 10 ∉ unread (rd (sconn s))).

Lemma accepted_ok fd : session_ok [] (accepted fd).
Proof.
  split; [|intros _; apply not_elem_of_nil]. exists [].
  split; [done|]. split; [done|]. split; [by left|]. done.
Qed.

Lemma work_fuel c w p : rd_ok (rd c) -> zlen p <= DATA_BUFFER_SIZE -> work c w p < Z.of_nat (drive_fuel c w).
Proof.
  intros (_&_&_&?&_) Hp. change DATA_BUFFER_SIZE with 2048 in Hp. unfold work, drive_fuel.
  case_bool_decide; lia.
Qed.

Lemma shut_extend inp bs c w : shut inp c w -> shut (inp ++ bs) c w.
Proof. intros (? & ? & ? & H). do 3 (split; [done|]). etrans; [done|]. apply serve_prefix. Qed.

Lemma live_arrive inp bs c w p :
  zlen (inp ++ bs) < 2 ^ 30 -> live inp c w p ->
  live (inp ++ bs) c (Net (rx w ++ bs) false (tx w) (calls w) (allocs w) (asked w) (bytes_read w) (bytes_written w)) p.
Proof.
  intros Hb (H1 & H2 & H3 & H4 & H5 & Hf). do 4 (split; [done|]).
  split; [cbn [rx]; rewrite length_app in *; rewrite length_app; lia|].
  intros f. cbn [tx asked rx]. rewrite <- !app_assoc. apply Hf.
Qed.

Lemma run_event_ready inp s :
  session_ok inp s ->
  exists s', run_event s Ready = Some s' /\ session_ok inp s' /\ rx_eof (snet s') = rx_eof (snet s) /\
    (eager -> rx_eof (snet s) = false -> closed s = false ->
     closed s' = false /\ state (sconn s') = conn_read /\ rx (snet s') = []).
Proof.
  intros Hok. cbn [run_event]. unfold session_ok in Hok.
  destruct (closed s) eqn:Ec.
  { exists s. split; [done|]. split; [unfold session_ok; by rewrite Ec|]. done. }
  destruct Hok as [[p Hlive] Hnl]. pose proof Hlive as (_ & Hr & _ & Hpl & _).
  destruct (drive_conn_ok inp _ _ _ _ Hlive (work_fuel _ _ p Hr Hpl)) as (b & c' & w' & -> & He & Hres).
  cbn [obind]. eexists. split; [done|]. destruct b.
  - destruct Hres as [Hshut Hwhy]. split; [done|]. split; [done|]. intros Heager Hrx _.
    destruct Hwhy as [?|?]; [congruence|done].
  - destruct Hres as (Hlive' & Hnl' & Hwhy). split; [done|]. split; [done|]. intros Heager _ _.
    destruct Hwhy as [[??]|?]; done.
Qed.

Lemma run_app s evs evs' : run s (evs ++ evs') = let? s := run s evs in run s evs'.
Proof. revert s. induction evs as [|e evs IH]; intros s; simpl; [done|]. destruct (run_event s e); simpl; auto. Qed.

(** After the end of the stream nothing arrives. *)
Lemma run_eof evs inp s :
  session_ok inp s -> rx_eof (snet s) = true -> exists s', run s evs = Some s' /\ session_ok inp s'.
Proof.
  revert s. induction evs as [|e evs IH]; intros s Hok He; cbn [run]; [by exists s|].
  destruct e as [bs| |].
  - cbn [run_event obind]. rewrite He. by apply IH.
  - cbn [run_event obind]. by apply IH.
  - destruct (run_event_ready inp s Hok) as (s1 & -> & Hok1 & He1 & _). cbn [obind].
    apply IH; [done|congruence].
Qed.

Lemma run_ok evs inp s :
  session_ok inp s -> rx_eof (snet s) = false -> zlen (inp ++ input evs) < 2 ^ 30 ->
  exists s', run s evs = Some s' /\ session_ok (inp ++ input evs) s' /\
    (eager -> Hangup ∉ evs -> closed s = false -> rx_eof (snet s') = false /\ closed s' = false).
Proof.
  revert inp s. induction evs as [|e evs IH]; intros inp s Hok He Hb; cbn [run].
  { simpl. rewrite app_nil_r. by exists s. }
  destruct e as [bs| |]; cbn [input] in *.
  - rewrite app_assoc in *. cbn [run_event obind]. rewrite He. cbn iota.
    edestruct (IH (inp ++ bs)) as (s' & -> & Hok' & Hlive'); [|done|done|].
    + unfold session_ok in *. cbn [closed sconn snet]. destruct (closed s).
      * by apply shut_extend.
      * destruct Hok as [[p Hlive] Hnl]. split; [|done]. exists p. apply live_arrive; [|done].
        rewrite length_app in Hb. lia.
    + exists s'. split; [done|]. split; [done|]. intros ? Hn. apply Hlive'; [done|].
      intros Hin. apply Hn. by constructor.
  - rewrite app_nil_r in *. cbn [run_event obind].
    edestruct (run_eof evs inp) as (s' & -> & ?); [done|done|].
    exists s'. split; [done|]. split; [done|]. intros _ Hn. exfalso. apply Hn. by constructor.
  - destruct (run_event_ready inp s Hok) as (s1 & -> & Hok1 & He1 & Hprog). cbn [obind].
    destruct (IH inp s1 Hok1) as (s' & -> & Hok' & Hlive'); [congruence|done|].
    exists s'. split; [done|]. split; [done|]. intros Heag Hn Hcl.
    destruct Hprog as (? & _ & _); [done..|]. apply Hlive'; [done| |done].
    intros Hin. apply Hn. by constructor.
Qed.

(** C27: as long as [realloc] succeeds and every registry query gets a
    reply (a list of any elements), and for a client that sends less than
    2^30 bytes: for every interleaving of arriving data, events and partial
    reads and sends, the machine of a connection stays within its buffers,
    stops at every event, never enters the states of the removed storage
    commands, and has sent a prefix of the replies to the command lines
    received, in order; when it waits for input and nothing is left in the
    socket it has sent exactly these replies.  Without a reply the code
    follows a null pointer ([Demo.registry_down_faults]), and without memory
    for the first line it faults ([Demo.first_line_without_memory_faults]). *)
Theorem dispatcher_serves fd evs :
  zlen (input evs) < 2 ^ 30 ->
  exists s, run (accepted fd) evs = Some s /\
    state (sconn s) ∈ [conn_read; conn_write; conn_closing] /\
    tx (snet s) `prefix_of` serve redis_reply 0 [] (input evs) /\
    (closed s = false -> state (sconn s) = conn_read -> rx (snet s) = [] ->
     tx (snet s) = serve redis_reply 0 [] (input evs)).
Proof.
  intros Hb. destruct (run_ok evs [] (accepted fd) (accepted_ok fd) eq_refl Hb) as (s & -> & Hok & _).
  exists s. split; [done|]. unfold session_ok in Hok. destruct (closed s).
  - destruct Hok as (_ & _ & -> & Hp). split; [set_solver|]. done.
  - destruct Hok as [[p Hlive] Hnl]. pose proof Hlive as (_ & _ & Hp & _ & _ & Hf).
    split; [destruct Hp as [[-> _]|[-> _]]; set_solver|]. split; [by eapply live_prefix|].
    intros _ Hst Hrx. destruct Hp as [[_ ->]|[? _]]; [|congruence].
    specialize (Hf []). rewrite Hrx, !app_nil_r in Hf.
    rewrite serve_no_newline, !app_nil_r in Hf by auto. done.
Qed.

(** C28: when the kernel makes progress at every call, [realloc] succeeds,
    every registry query gets a reply and the client sends less than 2^30
    bytes and does not hang up, driving the connection once more leaves it
    open with every command line answered. *)
Theorem dispatcher_answers fd evs :
  eager -> Hangup ∉ evs -> zlen (input evs) < 2 ^ 30 ->
  exists s, run (accepted fd) (evs ++ [Ready]) = Some s /\ closed s = false /\
    tx (snet s) = serve redis_reply 0 [] (input evs).
Proof.
  intros Heager Hn Hb.
  destruct (run_ok evs [] (accepted fd) (accepted_ok fd) eq_refl Hb) as (s & Hrun & Hok & Hopen).
  destruct (Hopen Heager Hn eq_refl) as [He Hc].
  destruct (run_event_ready _ s Hok) as (s' & Hev & Hok' & _ & Hprog).
  destruct (Hprog Heager He Hc) as (Hc' & Hst & Hrx). exists s'.
  split; [|split; [done|]].
  - rewrite run_app, Hrun. cbn [obind run]. by rewrite Hev.
  - unfold session_ok in Hok'. rewrite Hc' in Hok'. destruct Hok' as [[p (_ & _ & Hp & _ & _ & Hf)] Hnl].
    destruct Hp as [[_ ->]|[? _]]; [|congruence].
    specialize (Hf []). rewrite Hrx, !app_nil_r in Hf.
    rewrite serve_no_newline, !app_nil_r in Hf by auto. done.
Qed.

End Machine.

(** ** Concrete sessions *)
Module Demo.

(** A kernel that moves at most seven bytes per call, a working allocator
    and a registry with one server. *)
Definition slow (n : nat) : choice := Take 7.
Definition plenty (n : nat) : bool := true.
Definition one_server (n : nat) : option (list (list Z)) := Some [bytes_of_string "127.0.0.1:6001"].

Definition two_commands : list event :=
  [Arrive (bytes_of_string "loadbalance  msg"); Ready;
   Arrive (bytes_of_string "servers" ++ [13; 10] ++ bytes_of_string "loadbalance x" ++ [10]); Ready].

Lemma slow_eager : eager slow.
Proof. intros n. by exists 7%nat. Defined.

Lemma tokenize_command_words_witness :
  (0 ∉ bytes_of_string "loadbalance msgservers") /\
  exists b' tokens,
    tokenize_command ([7] ++ bytes_of_string "loadbalance msgservers" ++ 0 :: [9]) (zlen [7]) MAX_TOKENS =
      Some (b', tokens) /\ zlen tokens = 3.
Proof.
  split; [vm_compute; intros H; repeat (apply elem_of_cons in H as [H|H]; [discriminate H|]); by apply elem_of_nil in H|].
  destruct (tokenize_command_words [7] (bytes_of_string "loadbalance msgservers") [9])
    as (b' & tokens & E & Hl & _).
  - vm_compute. intros H. repeat (apply elem_of_cons in H as [H|H]; [discriminate H|]). by apply elem_of_nil in H.
  - exists b', tokens. split; [exact E|]. rewrite Hl. reflexivity.
Defined.

Lemma dispatcher_serves_witness :
  (forall n, plenty n = true) /\ (forall n, is_Some (one_server n)) /\ zlen (input two_commands) < 2 ^ 30 /\
  exists s, run slow plenty one_server (accepted 5) two_commands = Some s /\
    tx (snet s) `prefix_of` serve one_server 0 [] (input two_commands).
Proof.
  split; [reflexivity|]. split; [by intros n; eexists|]. split; [vm_compute; reflexivity|].
  destruct (dispatcher_serves slow plenty one_server ltac:(reflexivity) ltac:(by intros n; eexists) 5 two_commands
              ltac:(vm_compute; reflexivity)) as (s & E & _ & Hp & _).
  exists s. split; [exact E|exact Hp].
Defined.

Lemma dispatcher_answers_witness :
  eager slow /\ (Hangup ∉ two_commands) /\ zlen (input two_commands) < 2 ^ 30 /\
  exists s, run slow plenty one_server (accepted 5) (two_commands ++ [Ready]) = Some s /\
    tx (snet s) = bytes_of_string "127.0.0.1:6001" ++ CRLF ++ bytes_of_string "ERROR" ++ CRLF.
Proof.
  assert (Hangup ∉ two_commands) as Hn.
  { intros H. repeat (apply elem_of_cons in H as [H|H]; [discriminate H|]). by apply elem_of_nil in H. }
  split; [exact slow_eager|]. split; [exact Hn|]. split; [vm_compute; reflexivity|].
  destruct (dispatcher_answers slow plenty one_server ltac:(reflexivity) ltac:(by intros n; eexists) 5 two_commands
              slow_eager Hn ltac:(vm_compute; reflexivity)) as (s & E & _ & Ht).
  exists s. split; [exact E|]. rewrite Ht. vm_compute. reflexivity.
Defined.

(** The trace of every command ends with the null pointer of its terminal
    token, passed to [%s]. *)
Example null_token_printed :
  (let? (b, tokens) := tokenize_command (bytes_of_string "loadbalance msgservers" ++ [0]) 0 MAX_TOKENS in
   print_tokens b tokens) =
  Some [bytes_of_string "loadbalance"; bytes_of_string "msgservers"; bytes_of_string "(null)"].
Proof. vm_compute. reflexivity. Qed.

(** A registry that cannot be reached gives a null reply, which is
    dereferenced. *)
Example registry_down_faults :
  run slow plenty (fun _ => None) (accepted 5) two_commands = None.
Proof. vm_compute. reflexivity. Qed.

Definition long_line : list Z := replicate 2048 97.
Definition no_memory (n : nat) : bool := false.
Definition fast (n : nat) : choice := Take 4096.

(** When the read buffer cannot grow on a connection that has processed no
    command, the error reply is queued on message header [-1]. *)
Example first_line_without_memory_faults :
  run fast no_memory one_server (accepted 5) [Arrive long_line; Ready] = None.
Proof. vm_compute. reflexivity. Qed.

(** On a connection that has answered a command the error reply is never
    sent: the connection is closed in silence. *)
Example memory_error_not_sent :
  option_map (fun s => (closed s, tx (snet s)))
    (run fast no_memory one_server (accepted 5)
       [Arrive (bytes_of_string "loadbalance x" ++ [10]); Ready; Arrive long_line; Ready]) =
  Some (true, bytes_of_string "ERROR" ++ CRLF).
Proof. vm_compute. reflexivity. Qed.

(** A complete command in a read that exactly fills the buffer is dropped
    when the client has closed its side. *)
Example full_buffer_at_hangup_dropped :
  let cmd := bytes_of_string "loadbalance x" ++ [10] ++ replicate 2034 97 in
  option_map (fun s => (closed s, tx (snet s)))
    (run fast plenty one_server (accepted 5) [Arrive cmd; Hangup; Ready]) = Some (true, []) /\
  serve one_server 0 [] cmd = bytes_of_string "ERROR" ++ CRLF.
Proof. split; vm_compute; reflexivity. Qed.

End Demo.

End DConnProofs.
