(* ===== verification/DLoop.v ===== *)
(** * thread.c, ae_epoll.c and the rest of servernet.c: the worker threads

    The dispatcher runs [num_threads] workers over one event loop.  A worker
    takes the [leader] mutex, waits in [epoll_wait], takes one of the fired
    descriptors, releases the mutex and drives the connection of that
    descriptor; a listening connection accepts clients, whose structures come
    from a free list or from the allocator.  Descriptors are registered with
    [EPOLLONESHOT], and nothing but this flag keeps two workers off the same
    connection.

    The workers interleave: a step of the model is one step of one worker
    that touches shared memory or the kernel once, or does work on a
    connection the worker alone should be using.  What the kernel, the
    allocator and the clients do is part of the step's label, so every
    schedule and every failure is a sequence of labels.  A step that breaks
    an assertion, follows a null or dangling pointer, leaves an array or uses
    a closed descriptor is a [Fault]. *)

From S2P Require Import Prelude DConn.
Import DConn.

Module DLoop.

Definition AE_SETSIZE : Z := 1024 * 60.

(** The capacity [conn_init] gives to the free list. *)
Definition FREE_INITIAL : Z := 200.

(** An open descriptor: a listening socket, or a client's with the traffic
    on it, the kernel's choices and the registry's answers for it, and all
    that the client has sent so far. *)
Record sock := Sock {
  s_net : net; s_kernel : nat -> choice; s_registry : nat -> option (list (list Z)); s_in : list Z
}.

Inductive file := Listener | Client (so : sock).

(** The kernel: open descriptors, and the interest list of the [epoll]
    instance with the one-shot flag of each entry. *)
Record kern := Kern { files : gmap Z file; armed : gmap Z bool }.

(** The connection structures in use or kept, by address, and the used part
    of [freeconns], its last element first. *)
Record pool := Pool { heap : gmap nat conn; freeconns : list nat; freetotal : Z }.

(** [EventLoop] with the mutex that protects it. *)
Record evloop := Loop { conns : gmap Z nat; fired : list Z; nready : Z; leader : option nat }.

(** Where a worker is.  [fd] and [c] are the local variables of
    [worker_main], [sfd] and [n] those of [drive_machine] and [conn_new]. *)
Inductive pc :=
| AtLoop                              (* before locking [leader] *)
| Leading                             (* holding it, at the test of the polling loop *)
| Polling                             (* about to call [aeApiPoll] *)
| Taking                              (* about to take a fired descriptor *)
| Driving (fd : Z) (c : nat)          (* at the loop of [drive_machine(c)] *)
| Accepted (fd : Z) (c : nat) (sfd : Z)
| NewConn (fd : Z) (c : nat) (sfd : Z)
| NewEvent (fd : Z) (c : nat) (sfd : Z) (n : nat)
| NewPoll (fd : Z) (c : nat) (sfd : Z) (n : nat)
| NewFailed (fd : Z) (c : nat) (sfd : Z) (n : nat)
| Rejecting (fd : Z) (c : nat) (sfd : Z)
| Rearming (fd : Z) (c : nat)         (* in [update_event] *)
| RearmPoll (fd : Z) (c : nat)
| Closing (fd : Z) (c : nat)          (* in [conn_close] *)
| ClosePoll (fd : Z) (c : nat)
| CloseFile (fd : Z) (c : nat)
| CloseFree (c : nat)
| Finished.

#[global] Instance pc_eq_dec : EqDecision pc.
Proof. solve_decision. Defined.

Record sys := Sys {
  kernel : kern; mem : pool; loop : evloop; threads : list pc;
  daemon_quit : bool; bugs : nat
}.

Inductive outcome := Blocked | Fault | Next (s : sys).

(** What the outside decides in a worker's step. *)
Inductive oracle :=
| Tau
| Ready (fds : list Z)                (* [epoll_wait] reports these descriptors *)
| Refuse                              (* [accept] fails *)
| Incoming (sfd : Z) (k : nat -> choice) (reg : nat -> option (list (list Z)))
| Alloc (a : option nat)              (* [calloc] and the buffers of a connection *)
| Result (ok : bool).                 (* any other call that may fail *)

Inductive label :=
| Step (t : nat) (o : oracle)
| Arrive (fd : Z) (bs : list Z)
| Hangup (fd : Z)
| Signal.

Definition set_kernel (s : sys) x := Sys x (mem s) (loop s) (threads s) (daemon_quit s) (bugs s).
Definition set_mem (s : sys) x := Sys (kernel s) x (loop s) (threads s) (daemon_quit s) (bugs s).
Definition set_loop (s : sys) x := Sys (kernel s) (mem s) x (threads s) (daemon_quit s) (bugs s).
Definition goto (s : sys) (t : nat) (p : pc) : outcome :=
  Next (Sys (kernel s) (mem s) (loop s) (<[t:=p]> (threads s)) (daemon_quit s) (bugs s)).

Definition set_files (s : sys) x := set_kernel s (Kern x (armed (kernel s))).
Definition set_armed (s : sys) x := set_kernel s (Kern (files (kernel s)) x).
Definition set_heap (s : sys) x := set_mem s (Pool x (freeconns (mem s)) (freetotal (mem s))).
Definition set_conns (s : sys) x := set_loop s (Loop x (fired (loop s)) (nready (loop s)) (leader (loop s))).
Definition set_fired (s : sys) x n := set_loop s (Loop (conns (loop s)) x n (leader (loop s))).
Definition set_leader (s : sys) x := set_loop s (Loop (conns (loop s)) (fired (loop s)) (nready (loop s)) x).

(** [pthread_mutex_unlock(&leader)] by the worker [t]. *)
Definition unlock (s : sys) (t : nat) (k : sys -> outcome) : outcome :=
  if bool_decide (leader (loop s) = Some t) then k (set_leader s None) else Fault.

(** [close]: the kernel drops a closed descriptor from the interest list. *)
Definition close (s : sys) (fd : Z) (k : sys -> outcome) : outcome :=
  if bool_decide (is_Some (files (kernel s) !! fd))
  then k (set_kernel s (Kern (delete fd (files (kernel s))) (delete fd (armed (kernel s)))))
  else Fault.

(** [epoll_ctl] with [EPOLL_CTL_ADD]: an entry that exists is left as it is
    and [aeApiAddEvent] does not report that. *)
Definition aeApiAddEvent (fd : Z) (m : gmap Z bool) : gmap Z bool :=
  match m !! fd with Some _ => m | None => <[fd:=true]> m end.

(** [epoll_ctl] with [EPOLL_CTL_MOD]: [None] when there is no entry. *)
Definition aeApiUpdateEvent (fd : Z) (m : gmap Z bool) : option (gmap Z bool) :=
  match m !! fd with Some _ => Some (<[fd:=true]> m) | None => None end.

(** The reported entries fire once. *)
Definition disarm (fds : list Z) (m : gmap Z bool) : gmap Z bool :=
  foldr (fun fd m => <[fd:=false]> m) m fds.

(** ** Connection structures *)

(** A structure from [calloc] with its buffers. *)
Definition conn_calloc (read_buffer_size : Z) : conn :=
  Conn 0 conn_listening 0
    (Rd (replicate (Z.to_nat read_buffer_size) 0) 0 read_buffer_size 0)
    (Wr (replicate (Z.to_nat DATA_BUFFER_SIZE) 0) 0 DATA_BUFFER_SIZE 0)
    (Out (replicate (Z.to_nat IOV_LIST_INITIAL) (Iovec 0 0)) IOV_LIST_INITIAL 0
         (replicate (Z.to_nat MSG_LIST_INITIAL) (Msghdr 0 0)) MSG_LIST_INITIAL 0 0 0)
    conn_listening false 0 0 ITEM_LIST_INITIAL 0 0.

(** The part of [conn_new] that prepares a new or a recycled structure. *)
Definition conn_reset (c : conn) (sfd : Z) (init_state : conn_states) : conn :=
  let r := rd c in let w := wr c in let o := out c in
  Conn sfd init_state AE_READABLE
    (Rd (rbuf r) 0 (rsize r) 0) (Wr (wbuf w) 0 (wsize w) 0)
    (Out (iov o) (iovsize o) 0 (msglist o) (msgsize o) 0 0 (msgbytes o))
    conn_read false 0 (sbytes c) (isize c) 0 0.

(** [conn_cleanup]: [item] and [write_and_free] are always null. *)
Definition conn_cleanup (c : conn) : conn := set_items c (isize c) (icurr c + Z.max 0 (ileft c)) 0.

(** [conn_free]: freeing what is not allocated is a fault. *)
Definition conn_free (s : sys) (c : nat) (k : sys -> outcome) : outcome :=
  match heap (mem s) !! c with
  | None => Fault
  | Some _ => k (set_heap s (delete c (heap (mem s))))
  end.

(** [do_conn_add_to_freelist]; [ok] is the outcome of the [realloc]. *)
Definition do_conn_add_to_freelist (m : pool) (c : nat) (ok : bool) : bool * pool :=
  if Z.of_nat (length (freeconns m)) <? freetotal m
  then (false, Pool (heap m) (c :: freeconns m) (freetotal m))
  else if ok then (false, Pool (heap m) (c :: freeconns m) (freetotal m * 2))
  else (true, m).

(** Keep the structure for later, or free it. *)
Definition recycle (s : sys) (c : nat) (ok : bool) (k : sys -> outcome) : outcome :=
  match do_conn_add_to_freelist (mem s) c ok with
  | (false, m) => k (set_mem s m)
  | (true, m) => conn_free (set_mem s m) c k
  end.

Section Workers.

Context (realloc_ok : nat -> bool).

(** ** The loop of [worker_main] *)

Definition take_event (s : sys) (t : nat) : outcome :=
  let n := nready (loop s) - 1 in
  match zget (fired (loop s)) n with
  | None => Fault
  | Some fd =>
      let s := set_fired s (fired (loop s)) n in
      if (fd <? 0) || (AE_SETSIZE <=? fd) then Fault else
      match conns (loop s) !! fd with
      | Some c => unlock s t (fun s => goto s t (Driving fd c))
      | None =>
          let s := Sys (kernel s) (mem s) (loop s) (threads s) (daemon_quit s) (S (bugs s)) in
          let s := set_armed s (delete fd (armed (kernel s))) in
          close s fd (fun s => goto s t Leading)
      end
  end.

(** [aeApiPoll]: some of the armed descriptors are reported. *)
Definition poll (s : sys) (t : nat) (fds : list Z) : outcome :=
  if bool_decide (NoDup fds /\ Forall (fun fd => armed (kernel s) !! fd = Some true) fds) &&
     (zlen fds <=? AE_SETSIZE)
  then
    let s := set_armed s (disarm fds (armed (kernel s))) in
    goto (set_fired s (fds ++ drop (length fds) (fired (loop s))) (zlen fds)) t Leading
  else Blocked.

(** ** [drive_machine] *)

(** The descriptor reserve [stub_fd] is never opened, so running out of
    descriptors ends the loop like every other failure of [accept]. *)
Definition drive_listening (s : sys) (t : nat) (fd : Z) (c : nat) (cn : conn) (o : oracle) : outcome :=
  match files (kernel s) !! sfd cn with
  | Some Listener =>
      match o with
      | Refuse => goto s t (Rearming fd c)
      | Incoming nfd k reg =>
          if (nfd <? 0) || bool_decide (is_Some (files (kernel s) !! nfd)) then Blocked else
          let so := Sock (Net [] false [] 0 0 0 0 0) k reg [] in
          goto (set_files s (<[nfd:=Client so]> (files (kernel s)))) t (Accepted fd c nfd)
      | _ => Blocked
      end
  | _ => Fault
  end.

Definition drive_client (s : sys) (t : nat) (fd : Z) (c : nat) (cn : conn) (o : oracle) : outcome :=
  match o with
  | Tau =>
      match files (kernel s) !! sfd cn with
      | Some (Client so) =>
          match drive_step (s_kernel so) realloc_ok (s_registry so) cn (s_net so) with
          | None => Fault
          | Some (r, cn', w') =>
              let so' := Sock w' (s_kernel so) (s_registry so) (s_in so) in
              let s := set_heap s (<[c:=cn']> (heap (mem s))) in
              let s := set_files s (<[sfd cn:=Client so']> (files (kernel s))) in
              goto s t match r with
                       | Continue => Driving fd c
                       | Stop => Rearming fd c
                       | Close => Closing fd c
                       end
          end
      | _ => Fault
      end
  | _ => Blocked
  end.

Definition drive_machine (s : sys) (t : nat) (fd : Z) (c : nat) (o : oracle) : outcome :=
  match heap (mem s) !! c with
  | None => Fault
  | Some cn =>
      match state cn with
      | conn_listening => drive_listening s t fd c cn o
      | _ => drive_client s t fd c cn o
      end
  end.

(** [conn_new] up to [add_event], for an accepted client. *)
Definition conn_new (s : sys) (t : nat) (fd : Z) (c : nat) (sfd : Z) (o : oracle) : outcome :=
  match freeconns (mem s), o with
  | n :: rest, Tau =>
      match heap (mem s) !! n with
      | None => Fault
      | Some cn =>
          goto (set_mem s (Pool (<[n:=conn_reset cn sfd conn_read]> (heap (mem s))) rest (freetotal (mem s))))
            t (NewEvent fd c sfd n)
      end
  | [], Alloc None => goto s t (Rejecting fd c sfd)
  | [], Alloc (Some n) =>
      match heap (mem s) !! n with
      | Some _ => Blocked
      | None =>
          goto (set_heap s (<[n:=conn_reset (conn_calloc DATA_BUFFER_SIZE) sfd conn_read]> (heap (mem s))))
            t (NewEvent fd c sfd n)
      end
  | _, _ => Blocked
  end.

Definition add_event (s : sys) (t : nat) (fd : Z) (c : nat) (sfd : Z) (n : nat) : outcome :=
  if AE_SETSIZE <=? sfd then goto s t (NewFailed fd c sfd n)
  else if sfd <? 0 then Fault
  else match conns (loop s) !! sfd with
       | Some _ => Fault
       | None => goto (set_conns s (<[sfd:=n]> (conns (loop s)))) t (NewPoll fd c sfd n)
       end.

(** [conn_close]: [delete_event]. *)
Definition delete_event (s : sys) (t : nat) (fd : Z) (c : nat) : outcome :=
  match heap (mem s) !! c with
  | None => Fault
  | Some cn =>
      if AE_SETSIZE <=? sfd cn then goto s t (CloseFile fd c)
      else if sfd cn <? 0 then Fault
      else goto (set_conns s (delete (sfd cn) (conns (loop s)))) t (ClosePoll fd c)
  end.

Definition close_file (s : sys) (t : nat) (c : nat) : outcome :=
  match heap (mem s) !! c with
  | None => Fault
  | Some cn =>
      close s (sfd cn) (fun s =>
        let cn := conn_cleanup (set_ev_flags (set_sfd cn (-1)) 0) in
        goto (set_heap s (<[c:=cn]> (heap (mem s)))) t (CloseFree c))
  end.

Definition close_free (s : sys) (t : nat) (c : nat) (ok : bool) : outcome :=
  match heap (mem s) !! c with
  | None => Fault
  | Some cn =>
      if READ_BUFFER_HIGHWAT <? rsize (rd cn) then conn_free s c (fun s => goto s t AtLoop)
      else recycle s c ok (fun s => goto s t AtLoop)
  end.

(** One step of the worker [t]. *)
Definition worker_main (s : sys) (t : nat) (p : pc) (o : oracle) : outcome :=
  match p, o with
  | AtLoop, Tau =>
      if daemon_quit s then goto s t Finished else
      match leader (loop s) with
      | Some _ => Blocked
      | None => goto (set_leader s (Some t)) t Leading
      end
  | Leading, Tau =>
      if daemon_quit s then unlock s t (fun s => goto s t Finished)
      else if nready (loop s) =? 0 then goto s t Polling
      else goto s t Taking
  | Polling, Ready fds => poll s t fds
  | Taking, Tau => take_event s t
  | Driving fd c, o => drive_machine s t fd c o
  | Accepted fd c sfd, Result ok =>
      match files (kernel s) !! sfd with
      | None => Fault
      | Some _ => goto s t (if ok then NewConn fd c sfd else Rejecting fd c sfd)
      end
  | NewConn fd c sfd, o => conn_new s t fd c sfd o
  | NewEvent fd c sfd n, Tau => add_event s t fd c sfd n
  | NewPoll fd c sfd n, Result ok =>
      if ok then goto (set_armed s (aeApiAddEvent sfd (armed (kernel s)))) t (Driving fd c)
      else goto (set_conns s (delete sfd (conns (loop s)))) t (NewFailed fd c sfd n)
  | NewFailed fd c sfd n, Result ok => recycle s n ok (fun s => goto s t (Rejecting fd c sfd))
  | Rejecting fd c sfd, Tau => close s sfd (fun s => goto s t (Driving fd c))
  | Rearming fd c, Tau =>
      match heap (mem s) !! c with
      | None => Fault
      | Some _ =>
          if (fd <? 0) || (AE_SETSIZE <=? fd) then Fault
          else goto (set_conns s (<[fd:=c]> (conns (loop s)))) t (RearmPoll fd c)
      end
  | RearmPoll fd c, Result ok =>
      match (if ok then aeApiUpdateEvent fd (armed (kernel s)) else None) with
      | Some m => goto (set_armed s m) t AtLoop
      | None => goto (set_conns s (delete fd (conns (loop s)))) t (Closing fd c)
      end
  | Closing fd c, Tau => delete_event s t fd c
  | ClosePoll fd c, Tau =>
      match heap (mem s) !! c with
      | None => Fault
      | Some cn => goto (set_armed s (delete (sfd cn) (armed (kernel s)))) t (CloseFile fd c)
      end
  | CloseFile fd c, Tau => close_file s t c
  | CloseFree c, Result ok => close_free s t c ok
  | _, _ => Blocked
  end.

Definition set_sock (s : sys) (fd : Z) (so : sock) : sys :=
  set_files s (<[fd:=Client so]> (files (kernel s))).

Definition step (s : sys) (l : label) : outcome :=
  match l with
  | Step t o =>
      match threads s !! t with
      | None => Blocked
      | Some p => worker_main s t p o
      end
  | Arrive fd bs =>
      match files (kernel s) !! fd with
      | Some (Client so) =>
          let w := s_net so in
          if rx_eof w then Blocked else
          Next (set_sock s fd (Sock
            (Net (rx w ++ bs) false (tx w) (calls w) (allocs w) (asked w) (bytes_read w) (bytes_written w))
            (s_kernel so) (s_registry so) (s_in so ++ bs)))
      | _ => Blocked
      end
  | Hangup fd =>
      match files (kernel s) !! fd with
      | Some (Client so) =>
          let w := s_net so in
          Next (set_sock s fd (Sock
            (Net (rx w) true (tx w) (calls w) (allocs w) (asked w) (bytes_read w) (bytes_written w))
            (s_kernel so) (s_registry so) (s_in so)))
      | _ => Blocked
      end
  | Signal => Next (Sys (kernel s) (mem s) (loop s) (threads s) true (bugs s))
  end.

(** ** Start-up *)

(** [server_socket]: a listening connection for every address, before the
    workers run.  Each socket comes with the address of its structure. *)
Fixpoint server_socket (socks : list (Z * nat)) (s : sys) : option sys :=
  match socks with
  | [] => Some s
  | (fd, n) :: socks =>
      if bool_decide (is_Some (files (kernel s) !! fd) \/ is_Some (heap (mem s) !! n)) || (fd <? 0) then None
      else if AE_SETSIZE <=? fd then None
      else match conns (loop s) !! fd with
      | Some _ => None
      | None =>
          let s := set_files s (<[fd:=Listener]> (files (kernel s))) in
          let s := set_heap s (<[n:=conn_reset (conn_calloc 1) fd conn_listening]> (heap (mem s))) in
          let s := set_conns s (<[fd:=n]> (conns (loop s))) in
          let s := set_armed s (aeApiAddEvent fd (armed (kernel s))) in
          server_socket socks s
      end
  end.

(** [conn_init], [thread_init], [server_socket] and [loop_run]. *)
Definition start (nthread : nat) (socks : list (Z * nat)) : option sys :=
  let s := Sys (Kern ∅ ∅) (Pool ∅ [] FREE_INITIAL) (Loop ∅ [] 0 None) [] false 0 in
  let? s := server_socket socks s in
  Some (Sys (kernel s) (mem s) (loop s) (replicate (Nat.max 1 nthread) AtLoop) (daemon_quit s) (bugs s)).

End Workers.

End DLoop.
