(* ===== verification/DLoopSpec.v ===== *)
(** * Who owns what among the workers of the dispatcher

    The invariant of the worker threads gives every descriptor one of four roles (armed
    in the kernel, waiting in [fired], held by one worker, closed) and every
    structure one of three (in [loop.conns], in the free list, held by one
    worker); a lemma about steps that change only what the worker holds
    carries it through the code. *)

From S2P Require Import Prelude DConn DConnSpec DLoop.
Import DConn DConnProofs DLoop.

Module DLoopProofs.

(** ** Driving a connection keeps its descriptor *)

Section Descriptor.
Context (k : nat -> choice) (m : nat -> bool) (reg : nat -> option (list (list Z))).

(** Unfold a computation that succeeded into its branches. *)
Ltac branches := repeat (opt_inv || case_match); simplify_eq; cbn; try congruence.

Lemma conn_shrink_sfd c w c' w' : conn_shrink m c w = Some (c', w') -> sfd c' = sfd c.
Proof. unfold conn_shrink. intros H. branches. Qed.

Lemma conn_set_state_sfd c st w c' w' : conn_set_state m c st w = Some (c', w') -> sfd c' = sfd c.
Proof. unfold conn_set_state. intros H. branches. by eapply conn_shrink_sfd. Qed.

Ltac keeps :=
  branches;
  repeat match goal with
  | H : conn_set_state _ _ _ _ = Some _ |- _ => apply conn_set_state_sfd in H
  end; cbn in *; try congruence.

Lemma out_string_sfd c str w c' w' : out_string m c str w = Some (c', w') -> sfd c' = sfd c.
Proof. unfold out_string. intros H. keeps. Qed.

Lemma process_command_sfd c cmd w c' w' : process_command m reg c cmd w = Some (c', w') -> sfd c' = sfd c.
Proof.
  unfold process_command, porcess_get_msgserver, getLazyMsgServer. intros H. branches;
    repeat match goal with
    | H : out_string _ _ _ _ = Some _ |- _ => apply out_string_sfd in H
    end; cbn in *; congruence.
Qed.

Lemma try_read_command_sfd c w r c' w' : try_read_command m reg c w = Some (r, c', w') -> sfd c' = sfd c.
Proof.
  unfold try_read_command. intros H. branches;
    match goal with
    | H : process_command _ _ _ _ _ = Some _ |- _ => apply process_command_sfd in H
    end; cbn in *; congruence.
Qed.

Lemma read_loop_sfd fuel c g w r c' w' : read_loop k m fuel c g w = Some (r, c', w') -> sfd c' = sfd c.
Proof.
  revert c g w. induction fuel as [|fuel IH]; intros c g w; cbn [read_loop]; [done|].
  set (again := fun c w => read_loop k m fuel c 1 w).
  assert (forall c w, receive k m again g c w = Some (r, c', w') -> sfd c' = sfd c) as Hr.
  { intros c1 w1. unfold receive. intros H. keeps. by apply IH in H. }
  clearbody again. intros H. branches; try (apply Hr in H; cbn in *; congruence).
  match goal with
  | H : out_string _ _ _ _ = Some _ |- _ => apply out_string_sfd in H
  end; cbn in *; congruence.
Qed.

Lemma try_read_network_sfd c w r c' w' : try_read_network k m c w = Some (r, c', w') -> sfd c' = sfd c.
Proof.
  unfold try_read_network. intros H. apply obind_Some in H as (c1 & H1 & ->%read_loop_sfd).
  branches.
Qed.

Lemma drive_read_sfd c w r c' w' : drive_read k m reg c w = Some (r, c', w') -> sfd c' = sfd c.
Proof.
  unfold drive_read. intros H. apply obind_Some in H as ([[g c1] w1] & <-%try_read_command_sfd & H).
  case_match; [by opt_inv|]. apply obind_Some in H as ([[g2 c2] w2] & <-%try_read_network_sfd & H).
  case_match; by opt_inv.
Qed.

Lemma transmit_sfd c w r c' w' : transmit k m c w = Some (r, c', w') -> sfd c' = sfd c.
Proof. unfold transmit. intros H. keeps. Qed.

Lemma drive_transmit_sfd c w r c' w' : drive_transmit k m c w = Some (r, c', w') -> sfd c' = sfd c.
Proof.
  unfold drive_transmit. intros H. opt_inv. destruct x as [[g c1] w1].
  match goal with
  | H : transmit _ _ _ _ = Some _ |- _ => apply transmit_sfd in H as E
  end. rewrite <- E. clear E. keeps.
Qed.

Lemma drive_step_sfd c w r c' w' : drive_step k m reg c w = Some (r, c', w') -> sfd c' = sfd c.
Proof.
  unfold drive_step. destruct (state c); try done; intros H.
  - by eapply drive_read_sfd.
  - unfold drive_write in H. case_match; [|by eapply drive_transmit_sfd]. opt_inv.
    destruct x as [[g o] w1]. case_match; [keeps|]. by apply drive_transmit_sfd in H.
  - unfold drive_swallow in H. keeps.
  - by opt_inv.
  - by eapply drive_transmit_sfd.
Qed.

End Descriptor.
(** ** Ownership *)

(** The descriptors waiting in [fired]. *)
Definition waiting (s : sys) : list Z := take (Z.to_nat (nready (loop s))) (fired (loop s)).

(** The descriptors and structures a worker holds. *)
Definition pc_fds (p : pc) : list Z :=
  match p with
  | Driving fd _ | Rearming fd _ | RearmPoll fd _ | Closing fd _ | ClosePoll fd _ | CloseFile fd _ => [fd]
  | Accepted fd _ sfd | NewConn fd _ sfd | Rejecting fd _ sfd
  | NewEvent fd _ sfd _ | NewPoll fd _ sfd _ | NewFailed fd _ sfd _ => [fd; sfd]
  | _ => []
  end.

Definition pc_addrs (p : pc) : list nat :=
  match p with
  | Driving _ c | Rearming _ c | RearmPoll _ c | Closing _ c | ClosePoll _ c | CloseFile _ c
  | Accepted _ c _ | NewConn _ c _ | Rejecting _ c _ | CloseFree c => [c]
  | NewEvent _ c _ n | NewPoll _ c _ n | NewFailed _ c _ n => [c; n]
  | _ => []
  end.

Definition leads (p : pc) : bool :=
  match p with Leading | Polling | Taking => true | _ => false end.

(** A structure whose buffers are intact. *)
Definition kept (cn : conn) : Prop := sizes_ok cn /\ rd_ok (rd cn).

Definition registry_up (so : sock) : Prop := forall n, is_Some (s_registry so n).

(** A connection between two iterations of its machine. *)
Definition client_ok (cn : conn) (so : sock) : Prop :=
  (exists p, live (s_registry so) (s_in so) cn (s_net so) p) \/ shut (s_registry so) (s_in so) cn (s_net so).

(** The client has been told nothing but replies to what it sent. *)
Definition sock_ok (so : sock) : Prop :=
  registry_up so /\ tx (s_net so) `prefix_of` serve (s_registry so) 0 [] (s_in so).

(** Nothing was read from or sent to the socket. *)
Definition virgin (so : sock) : Prop :=
  tx (s_net so) = [] /\ asked (s_net so) = 0%nat /\ rx (s_net so) = s_in so /\ zlen (s_in so) < 2 ^ 30.

Definition conn_fine (f : option file) (fd : Z) (cn : conn) : Prop :=
  sfd cn = fd /\
  match f with
  | None => False
  | Some Listener => state cn = conn_listening /\ kept cn
  | Some (Client so) => client_ok cn so
  end.

(** The descriptor [fd] is open and [c] is its connection. *)
Definition owned (s : sys) (fd : Z) (c : nat) : Prop :=
  0 <= fd < AE_SETSIZE /\
  exists cn, heap (mem s) !! c = Some cn /\ conn_fine (files (kernel s) !! fd) fd cn.

Definition unused (s : sys) (fd : Z) : Prop :=
  0 <= fd /\ conns (loop s) !! fd = None /\
  exists so, files (kernel s) !! fd = Some (Client so) /\ virgin so.

(** The structure [n] was prepared for [fd] and is in no list. *)
Definition prepared (s : sys) (fd : Z) (n : nat) : Prop :=
  0 <= fd /\ conns (loop s) !! fd = None /\
  exists cn, heap (mem s) !! n = Some cn /\ conn_fine (files (kernel s) !! fd) fd cn /\ state cn = conn_read.

(** What a worker relies on. *)
Definition pc_ok (s : sys) (p : pc) : Prop :=
  match p with
  | AtLoop | Leading | Finished => True
  | Polling => nready (loop s) = 0
  | Taking => 0 < nready (loop s)
  | Driving fd c | Rearming fd c | RearmPoll fd c => owned s fd c /\ conns (loop s) !! fd = Some c
  | Accepted fd c sfd | NewConn fd c sfd => owned s fd c /\ conns (loop s) !! fd = Some c /\ unused s sfd
  | Rejecting fd c sfd => owned s fd c /\ conns (loop s) !! fd = Some c /\
      conns (loop s) !! sfd = None /\ is_Some (files (kernel s) !! sfd)
  | NewEvent fd c sfd n | NewFailed fd c sfd n =>
      owned s fd c /\ conns (loop s) !! fd = Some c /\ prepared s sfd n
  | NewPoll fd c sfd n => fd <> sfd /\
      owned s fd c /\ conns (loop s) !! fd = Some c /\ owned s sfd n /\ conns (loop s) !! sfd = Some n /\
      (exists cn, heap (mem s) !! n = Some cn /\ state cn = conn_read)
  | Closing fd c => owned s fd c /\ (conns (loop s) !! fd = Some c \/ conns (loop s) !! fd = None)
  | ClosePoll fd c | CloseFile fd c => owned s fd c /\ conns (loop s) !! fd = None
  | CloseFree c => exists cn, heap (mem s) !! c = Some cn /\ sfd cn = -1 /\ kept cn
  end.

Record inv (s : sys) : Prop := {
  inv_conns : forall fd c, conns (loop s) !! fd = Some c -> (c ∉ freeconns (mem s)) /\ owned s fd c;
  inv_free : NoDup (freeconns (mem s));
  inv_kept : forall c, c ∈ freeconns (mem s) -> exists cn, heap (mem s) !! c = Some cn /\ kept cn;
  inv_ready : 0 <= nready (loop s) <= zlen (fired (loop s));
  inv_waiting : NoDup (waiting s);
  inv_fired : forall fd, fd ∈ waiting s -> is_Some (conns (loop s) !! fd) /\ armed (kernel s) !! fd <> Some true;
  inv_armed : forall fd, armed (kernel s) !! fd = Some true -> is_Some (conns (loop s) !! fd);
  inv_pc : forall t p, threads s !! t = Some p -> pc_ok s p;
  inv_held : forall t p fd, threads s !! t = Some p -> fd ∈ pc_fds p ->
    (fd ∉ waiting s) /\ armed (kernel s) !! fd <> Some true;
  inv_loose : forall t p c, threads s !! t = Some p -> c ∈ pc_addrs p -> c ∉ freeconns (mem s);
  inv_fds : forall t1 t2 p1 p2 fd, threads s !! t1 = Some p1 -> threads s !! t2 = Some p2 ->
    fd ∈ pc_fds p1 -> fd ∈ pc_fds p2 -> t1 = t2;
  inv_addrs : forall t1 t2 p1 p2 c, threads s !! t1 = Some p1 -> threads s !! t2 = Some p2 ->
    c ∈ pc_addrs p1 -> c ∈ pc_addrs p2 -> t1 = t2;
  inv_leader : forall t p, threads s !! t = Some p -> leads p = bool_decide (leader (loop s) = Some t);
  inv_holder : forall t, leader (loop s) = Some t -> is_Some (threads s !! t);
  inv_socks : forall fd so, files (kernel s) !! fd = Some (Client so) -> sock_ok so;
  inv_bugs : bugs s = 0%nat
}.

(** A held descriptor is open, and the table knows its structure only under
    that descriptor. *)
Lemma pc_open s p fd : pc_ok s p -> fd ∈ pc_fds p -> is_Some (files (kernel s) !! fd).
Proof.
  assert (forall fd c, owned s fd c -> is_Some (files (kernel s) !! fd)) as Ho.
  { intros f c (_ & cn & _ & _ & H). by destruct (files _ !! f). }
  assert (forall fd, unused s fd -> is_Some (files (kernel s) !! fd)) as Hu.
  { intros f (_ & _ & so & -> & _). done. }
  assert (forall fd n, prepared s fd n -> is_Some (files (kernel s) !! fd)) as Hp.
  { intros f n (_ & _ & cn & _ & (_ & H) & _). by destruct (files _ !! f). }
  destruct p; cbn; intros H; rewrite ?elem_of_cons; intros Hin; try by apply not_elem_of_nil in Hin.
  all: destruct_and?; destruct_or?; subst; eauto; by apply not_elem_of_nil in Hin.
Qed.

(** The structure of a descriptor names it. *)
Lemma owned_sfd s fd fd' c : owned s fd c -> owned s fd' c -> fd = fd'.
Proof. intros (_ & cn & Hc & <- & _) (_ & cn' & Hc' & <- & _). congruence. Qed.

Lemma pc_addr_table s p fd c :
  inv s -> pc_ok s p -> c ∈ pc_addrs p -> conns (loop s) !! fd = Some c -> fd ∈ pc_fds p.
Proof.
  intros Hi Hp Hin Hc. destruct (inv_conns s Hi _ _ Hc) as [_ Ho].
  assert (forall f, owned s f c -> fd = f) as Ho' by (intros f Hf; by apply (owned_sfd s fd f c)).
  assert (forall f, prepared s f c -> fd = f) as Hpr.
  { intros f (_ & _ & cn & Hcn & [<- _] & _). destruct Ho as (_ & cn' & Hcn' & <- & _). congruence. }
  destruct p; cbn in *; rewrite ?elem_of_cons in *; try by apply not_elem_of_nil in Hin.
  all: destruct_and?; destruct_or?; subst; try by apply not_elem_of_nil in Hin.
  all: try (left; by apply Ho'); try (right; left; first [by apply Ho'|by apply Hpr]).
  match goal with H : exists _, _ |- _ => destruct H as (cn & Hcn & Hm & _) end.
  destruct Ho as (Hb & cn' & Hcn' & <- & _). assert (cn' = cn) by congruence. subst. lia.
Qed.

(** What may happen to an open file behind a worker's back. *)
Definition file_le (f f' : file) : Prop :=
  match f, f' with
  | Listener, Listener => True
  | Client so, Client so' =>
      (forall cn, client_ok cn so -> client_ok cn so') /\ (virgin so -> virgin so') /\ (sock_ok so -> sock_ok so')
  | _, _ => False
  end.

Lemma file_le_refl f : file_le f f.
Proof. by destruct f. Qed.

Definition opt_file_le (o o' : option file) : Prop :=
  match o, o' with
  | Some f, Some f' => file_le f f'
  | None, _ => True
  | _, _ => False
  end.

Lemma opt_file_le_refl o : opt_file_le o o.
Proof. destruct o; [apply file_le_refl|done]. Qed.

Lemma conn_fine_le o o' fd cn : opt_file_le o o' -> conn_fine o fd cn -> conn_fine o' fd cn.
Proof.
  intros Hle [? H]. split; [done|]. destruct o as [[|so]|], o' as [[|so']|]; try done. by apply Hle.
Qed.

(** Another worker's step does not touch what this one relies on. *)
Lemma pc_ok_frame s s' p :
  pc_ok s p ->
  (leads p = true -> nready (loop s') = nready (loop s)) ->
  (forall fd, fd ∈ pc_fds p -> conns (loop s') !! fd = conns (loop s) !! fd) ->
  (forall fd, fd ∈ pc_fds p -> opt_file_le (files (kernel s) !! fd) (files (kernel s') !! fd)) ->
  (forall c, c ∈ pc_addrs p -> heap (mem s') !! c = heap (mem s) !! c) ->
  pc_ok s' p.
Proof.
  intros Hp Hl Hc Hf Hh.
  assert (forall fd c, fd ∈ pc_fds p -> c ∈ pc_addrs p -> owned s fd c -> owned s' fd c) as Ho.
  { intros fd c H1 H2 (Hb & cn & E & Hfine). split; [done|]. exists cn. rewrite Hh by done. split; [done|].
    eapply conn_fine_le; [|done]. by apply Hf. }
  assert (forall fd, fd ∈ pc_fds p -> unused s fd -> unused s' fd) as Hu.
  { intros fd H1 (? & ? & so & E & Hv). split; [done|]. rewrite Hc by done. split; [done|].
    specialize (Hf fd H1). rewrite E in Hf. destruct (files (kernel s') !! fd) as [[|so']|] eqn:E'; try done.
    exists so'. split; [done|]. by apply Hf. }
  assert (forall fd n, fd ∈ pc_fds p -> n ∈ pc_addrs p -> prepared s fd n -> prepared s' fd n) as Hpr.
  { intros fd n H1 H2 (? & ? & cn & E & Hfine & Hst). split; [done|]. rewrite Hc by done. split; [done|].
    exists cn. rewrite Hh by done. split; [done|]. split; [|done]. eapply conn_fine_le; [|done]. by apply Hf. }
  assert (forall fd, fd ∈ pc_fds p -> is_Some (files (kernel s) !! fd) -> is_Some (files (kernel s') !! fd)) as Hs.
  { intros fd H1 [f E]. specialize (Hf fd H1). rewrite E in Hf. destruct (files (kernel s') !! fd) eqn:E'; by rewrite ?E'. }
  destruct p; cbn in Hp |- *; cbn [pc_fds pc_addrs leads] in *; rewrite ?Hl by done; try done.
  all: rewrite ?Hc by set_solver; rewrite ?Hh by set_solver.
  all: destruct_and?; split_and?; try done; (apply Ho || apply Hu || apply Hpr || apply Hs); first [set_solver|done].
Qed.

(** ** Steps on what a worker holds

    [F] are the descriptors the step may change, those held by the worker and
    possibly one the kernel has just opened; [A] are the structures it may
    change, those held, allocated or taken from the free list. *)
Record local (s s' : sys) (t : nat) (p p' : pc) (F : list Z) (A : list nat) : Prop := {
  l_at : threads s !! t = Some p;
  l_threads : threads s' = <[t:=p']> (threads s);
  l_loop : fired (loop s') = fired (loop s) /\ nready (loop s') = nready (loop s) /\
           leader (loop s') = leader (loop s) /\ bugs s' = bugs s;
  l_lead : leads p = false /\ leads p' = false;
  l_F : forall fd, fd ∈ F -> fd ∈ pc_fds p \/ files (kernel s) !! fd = None;
  l_A : forall c, c ∈ A -> c ∈ pc_addrs p \/ heap (mem s) !! c = None \/ c ∈ freeconns (mem s);
  l_fds : pc_fds p ⊆ F /\ pc_fds p' ⊆ F;
  l_addrs : forall c, c ∈ pc_addrs p' -> (c ∉ freeconns (mem s')) /\ (c ∈ pc_addrs p \/ c ∈ A);
  l_frame : forall fd, fd ∉ F -> conns (loop s') !! fd = conns (loop s) !! fd /\
    files (kernel s') !! fd = files (kernel s) !! fd /\ armed (kernel s') !! fd = armed (kernel s) !! fd;
  l_heap : forall c, c ∉ A -> heap (mem s') !! c = heap (mem s) !! c;
  l_pc : pc_ok s' p';
  l_conns : forall fd c, fd ∈ F -> conns (loop s') !! fd = Some c -> (c ∉ freeconns (mem s')) /\ owned s' fd c;
  l_free : NoDup (freeconns (mem s'));
  l_kept : forall c, c ∈ freeconns (mem s') -> (c ∈ freeconns (mem s) \/ c ∈ pc_addrs p) /\
    exists cn, heap (mem s') !! c = Some cn /\ kept cn;
  l_held : forall fd, fd ∈ pc_fds p' -> armed (kernel s') !! fd <> Some true;
  l_armed : forall fd, fd ∈ F -> armed (kernel s') !! fd = Some true -> is_Some (conns (loop s') !! fd);
  l_socks : forall fd so, fd ∈ F -> files (kernel s') !! fd = Some (Client so) -> sock_ok so
}.

Section Local.
Context (s s' : sys) (t : nat) (p p' : pc) (F : list Z) (A : list nat).
Context (Hi : inv s) (L : local s s' t p p' F A).

Lemma local_waiting : waiting s' = waiting s.
Proof. unfold waiting. by destruct (l_loop _ _ _ _ _ _ _ L) as (-> & -> & _). Qed.

Lemma table_open fd c : conns (loop s) !! fd = Some c -> is_Some (files (kernel s) !! fd).
Proof.
  intros Hc. destruct (inv_conns s Hi _ _ Hc) as [_ (_ & cn & _ & _ & H)]. by destruct (files _ !! fd).
Qed.

Lemma local_not_waiting fd : fd ∈ F -> fd ∉ waiting s.
Proof.
  intros HF Hw. destruct (l_F _ _ _ _ _ _ _ L fd HF) as [Hp|Hn].
  - by destruct (inv_held s Hi t p fd (l_at _ _ _ _ _ _ _ L) Hp).
  - destruct (inv_fired s Hi fd Hw) as [[c Hc] _]. apply table_open in Hc. rewrite Hn in Hc. by destruct Hc.
Qed.

Lemma local_other_fd t2 p2 fd : t2 <> t -> threads s !! t2 = Some p2 -> fd ∈ pc_fds p2 -> fd ∉ F.
Proof.
  intros Hne H2 Hin HF. destruct (l_F _ _ _ _ _ _ _ L fd HF) as [Hp|Hn].
  - by apply Hne, (inv_fds s Hi t2 t p2 p fd H2 (l_at _ _ _ _ _ _ _ L)).
  - destruct (pc_open s p2 fd (inv_pc s Hi _ _ H2) Hin) as [f E]. congruence.
Qed.

Lemma pc_addr_heap q c : pc_ok s q -> c ∈ pc_addrs q -> is_Some (heap (mem s) !! c).
Proof.
  assert (forall fd c, owned s fd c -> is_Some (heap (mem s) !! c)) as Ho by (intros ? ? (_ & ? & -> & _); done).
  assert (forall fd c, prepared s fd c -> is_Some (heap (mem s) !! c)) as Hp by (intros ? ? (_ & _ & ? & -> & _); done).
  destruct q; cbn; intros H; rewrite ?elem_of_cons; intros Hin; try by apply not_elem_of_nil in Hin.
  all: destruct_and?; destruct_or?; subst; eauto; try by apply not_elem_of_nil in Hin.
  destruct H as (? & -> & _). done.
Qed.

Lemma local_other_addr t2 p2 c : t2 <> t -> threads s !! t2 = Some p2 -> c ∈ pc_addrs p2 -> c ∉ A.
Proof.
  intros Hne H2 Hin HA. destruct (l_A _ _ _ _ _ _ _ L c HA) as [Hp|[Hn|Hf]].
  - by apply Hne, (inv_addrs s Hi t2 t p2 p c H2 (l_at _ _ _ _ _ _ _ L)).
  - destruct (pc_addr_heap p2 c (inv_pc s Hi _ _ H2) Hin). congruence.
  - by apply (inv_loose s Hi t2 p2 c).
Qed.

(** A structure the table keeps for another descriptor is not touched. *)
Lemma local_table fd c : fd ∉ F -> conns (loop s) !! fd = Some c -> (c ∉ A) /\ c ∉ freeconns (mem s').
Proof.
  intros HF Hc. pose proof (inv_pc s Hi _ _ (l_at _ _ _ _ _ _ _ L)) as Hp.
  destruct (inv_conns s Hi _ _ Hc) as [Hfree (_ & cn & Hcn & _)].
  assert (c ∉ pc_addrs p) as Hno.
  { intros Hin. apply HF, (proj1 (l_fds _ _ _ _ _ _ _ L)), (pc_addr_table s p fd c); done. }
  split.
  - intros HA. destruct (l_A _ _ _ _ _ _ _ L c HA) as [?|[?|?]]; [done|congruence|done].
  - intros Hin. by destruct (l_kept _ _ _ _ _ _ _ L c Hin) as [[?|?] _].
Qed.

Lemma local_thread t2 p2 : threads s' !! t2 = Some p2 -> (t2 = t /\ p2 = p') \/ (t2 <> t /\ threads s !! t2 = Some p2).
Proof.
  rewrite (l_threads _ _ _ _ _ _ _ L). intros H. destruct (decide (t2 = t)) as [->|Hne].
  - left. apply list_lookup_insert_Some in H. naive_solver.
  - right. by rewrite list_lookup_insert_ne in H.
Qed.

Lemma local_inv : inv s'.
Proof.
  destruct L as [Lat Lth (Lfi & Lnr & Lle & Lbu) [Llp Llp'] LF LA [Lfds Lfds'] Laddrs Lframe Lheap Lpc Lconns Lfree Lkept Lheld Larmed Lsocks].
  split.
  - intros fd c Hc. destruct (decide (fd ∈ F)) as [HF|HF]; [by apply Lconns|].
    destruct (Lframe fd HF) as (Ec & Ef & _). rewrite Ec in Hc. destruct (local_table fd c HF Hc) as [HA Hfr].
    split; [done|]. destruct (inv_conns s Hi _ _ Hc) as [_ (Hb & cn & Hcn & Hfine)]. split; [done|].
    exists cn. by rewrite Lheap, Ef.
  - done.
  - intros c Hin. by apply Lkept.
  - rewrite Lnr, Lfi. apply (inv_ready s Hi).
  - rewrite local_waiting. apply (inv_waiting s Hi).
  - intros fd. rewrite local_waiting. intros Hw. destruct (decide (fd ∈ F)) as [HF|HF];
      [by apply local_not_waiting in HF|]. destruct (Lframe fd HF) as (-> & _ & ->). by apply (inv_fired s Hi).
  - intros fd Ha. destruct (decide (fd ∈ F)) as [HF|HF]; [by apply Larmed|].
    destruct (Lframe fd HF) as (-> & _ & E). rewrite E in Ha. by apply (inv_armed s Hi).
  - intros t2 p2 H2. destruct (local_thread t2 p2 H2) as [[-> ->]|[Hne H2']]; [done|].
    apply (pc_ok_frame s s'); [by apply (inv_pc s Hi t2)|by rewrite Lnr| | |].
    + intros fd Hin. apply (Lframe fd). by eapply local_other_fd.
    + intros fd Hin. destruct (Lframe fd) as (_ & -> & _); [by eapply local_other_fd|apply opt_file_le_refl].
    + intros c Hin. apply Lheap. by eapply local_other_addr.
  - intros t2 p2 fd H2 Hin. rewrite local_waiting. destruct (local_thread t2 p2 H2) as [[-> ->]|[Hne H2']].
    + split; [|by apply Lheld]. apply local_not_waiting. by apply Lfds'.
    + destruct (Lframe fd) as (_ & _ & ->); [by eapply local_other_fd|]. by apply (inv_held s Hi t2 p2).
  - intros t2 p2 c H2 Hin. destruct (local_thread t2 p2 H2) as [[-> ->]|[Hne H2']]; [by apply Laddrs|].
    intros Hfr. destruct (Lkept c Hfr) as [[?|Hp] _]; [by apply (inv_loose s Hi t2 p2 c)|].
    by apply Hne, (inv_addrs s Hi t2 t p2 p c).
  - intros t1 t2 p1 p2 fd H1 H2 Hin1 Hin2.
    destruct (local_thread t1 p1 H1) as [[-> ->]|[Hne1 H1']], (local_thread t2 p2 H2) as [[-> ->]|[Hne2 H2']]; [done| | |].
    + exfalso. apply (local_other_fd t2 p2 fd); [done..|]. by apply Lfds'.
    + exfalso. apply (local_other_fd t1 p1 fd); [done..|]. by apply Lfds'.
    + by apply (inv_fds s Hi t1 t2 p1 p2 fd).
  - assert (forall t2 p2 c, t2 <> t -> threads s !! t2 = Some p2 -> c ∈ pc_addrs p2 -> c ∉ pc_addrs p') as Hno.
    { intros t2 p2 c Hne H2 Hin Hin'. destruct (Laddrs c Hin') as [_ [Hp|HA]].
      - by apply Hne, (inv_addrs s Hi t2 t p2 p c).
      - by apply (local_other_addr t2 p2 c). }
    intros t1 t2 p1 p2 c H1 H2 Hin1 Hin2.
    destruct (local_thread t1 p1 H1) as [[-> ->]|[Hne1 H1']], (local_thread t2 p2 H2) as [[-> ->]|[Hne2 H2']]; [done| | |].
    + by destruct (Hno t2 p2 c).
    + by destruct (Hno t1 p1 c).
    + by apply (inv_addrs s Hi t1 t2 p1 p2 c).
  - intros t2 p2 H2. rewrite Lle. destruct (local_thread t2 p2 H2) as [[-> ->]|[Hne H2']].
    + rewrite <- (inv_leader s Hi t p Lat). congruence.
    + by apply (inv_leader s Hi).
  - intros t2. rewrite Lle, Lth. intros Ht. apply lookup_lt_is_Some. rewrite length_insert.
    apply lookup_lt_is_Some. by apply (inv_holder s Hi).
  - intros fd so Hf. destruct (decide (fd ∈ F)) as [HF|HF]; [by apply (Lsocks fd)|].
    destruct (Lframe fd HF) as (_ & E & _). rewrite E in Hf. by apply (inv_socks s Hi fd).
  - rewrite Lbu. apply (inv_bugs s Hi).
Qed.

End Local.

(** ** Steps on the event loop

    Only a worker that holds nothing takes the mutex, polls or takes a fired
    descriptor. *)
Record looping (s s' : sys) (t : nat) (p p' : pc) : Prop := {
  o_at : threads s !! t = Some p;
  o_threads : threads s' = <[t:=p']> (threads s);
  o_same : mem s' = mem s /\ files (kernel s') = files (kernel s) /\ conns (loop s') = conns (loop s) /\
           bugs s' = bugs s;
  o_empty : pc_fds p = [] /\ pc_addrs p = [];
  o_ready : 0 <= nready (loop s') <= zlen (fired (loop s'));
  o_nready : leads p = true \/ nready (loop s') = nready (loop s);
  o_waiting : NoDup (waiting s');
  o_fired : forall fd, fd ∈ waiting s' ->
    (fd ∈ waiting s \/ armed (kernel s) !! fd = Some true) /\ armed (kernel s') !! fd <> Some true;
  o_armed : forall fd, armed (kernel s') !! fd = Some true -> armed (kernel s) !! fd = Some true;
  o_pc : pc_ok s' p';
  o_taken : forall fd, fd ∈ pc_fds p' -> fd ∈ waiting s /\ fd ∉ waiting s';
  o_addrs : forall c, c ∈ pc_addrs p' -> exists fd, fd ∈ pc_fds p' /\ conns (loop s) !! fd = Some c;
  o_leads : leads p' = bool_decide (leader (loop s') = Some t);
  o_leader : forall t2, t2 <> t -> leader (loop s') = Some t2 <-> leader (loop s) = Some t2
}.

Section Looping.
Context (s s' : sys) (t : nat) (p p' : pc) (Hi : inv s) (O : looping s s' t p p').

Lemma looping_thread t2 p2 : threads s' !! t2 = Some p2 -> (t2 = t /\ p2 = p') \/ (t2 <> t /\ threads s !! t2 = Some p2).
Proof.
  rewrite (o_threads _ _ _ _ _ O). intros H. destruct (decide (t2 = t)) as [->|Hne].
  - left. apply list_lookup_insert_Some in H. naive_solver.
  - right. by rewrite list_lookup_insert_ne in H.
Qed.

Lemma looping_free t2 p2 fd : threads s !! t2 = Some p2 -> fd ∈ pc_fds p2 -> fd ∉ pc_fds p'.
Proof. intros H2 Hin [Hw _]%(o_taken _ _ _ _ _ O). by destruct (inv_held s Hi t2 p2 fd H2 Hin). Qed.

Lemma looping_loose t2 p2 c : threads s !! t2 = Some p2 -> c ∈ pc_addrs p2 -> c ∉ pc_addrs p'.
Proof.
  intros H2 Hin (fd & Hfd & Hc)%(o_addrs _ _ _ _ _ O). apply (looping_free t2 p2 fd); [done| |done].
  by apply (pc_addr_table s p2 fd c), Hc; [|apply (inv_pc s Hi t2)|].
Qed.

Lemma looping_owned fd c : owned s fd c -> owned s' fd c.
Proof. unfold owned. destruct (o_same _ _ _ _ _ O) as (-> & -> & _ & _). done. Qed.

Lemma looping_inv : inv s'.
Proof.
  destruct O as [Oat Oth (Om & Of & Oc & Ob) [Oe1 Oe2] Ord Onr Ow Ofi Oar Opc Otk Oad Old Olr].
  split; rewrite ?Om, ?Oc, ?Of.
  - intros fd c Hc. destruct (inv_conns s Hi _ _ Hc). split; [done|]. by apply looping_owned.
  - apply (inv_free s Hi).
  - apply (inv_kept s Hi).
  - done.
  - done.
  - intros fd Hw. destruct (Ofi fd Hw) as [[Hs|Ha] Hn]; (split; [|done]).
    + by apply (inv_fired s Hi).
    + by apply (inv_armed s Hi).
  - intros fd Ha. by apply (inv_armed s Hi), Oar.
  - intros t2 p2 H2. destruct (looping_thread t2 p2 H2) as [[-> ->]|[Hne H2']]; [done|].
    apply (pc_ok_frame s s'); rewrite ?Oc, ?Of, ?Om; try done.
    + by apply (inv_pc s Hi t2).
    + intros Hl. destruct Onr as [Hl1|?]; [|done]. exfalso.
      rewrite (inv_leader s Hi t2 p2 H2') in Hl. rewrite (inv_leader s Hi t p Oat) in Hl1.
      apply bool_decide_eq_true in Hl, Hl1. congruence.
    + intros. apply opt_file_le_refl.
  - intros t2 p2 fd H2 Hin. destruct (looping_thread t2 p2 H2) as [[-> ->]|[Hne H2']].
    + destruct (Otk fd Hin) as [Hw Hnw]. split; [done|]. intros Ha%Oar. by destruct (inv_fired s Hi fd Hw).
    + destruct (inv_held s Hi t2 p2 fd H2' Hin) as [Hnw Hna]. split.
      * intros Hw. by destruct (Ofi fd Hw) as [[?|?] _].
      * by intros Ha%Oar.
  - intros t2 p2 c H2 Hin. destruct (looping_thread t2 p2 H2) as [[-> ->]|[Hne H2']].
    + destruct (Oad c Hin) as (fd & _ & Hc). by apply (inv_conns s Hi fd c).
    + by apply (inv_loose s Hi t2 p2).
  - intros t1 t2 p1 p2 fd H1 H2 Hin1 Hin2.
    destruct (looping_thread t1 p1 H1) as [[-> ->]|[Hne1 H1']], (looping_thread t2 p2 H2) as [[-> ->]|[Hne2 H2']]; [done| | |].
    + by destruct (looping_free t2 p2 fd).
    + by destruct (looping_free t1 p1 fd).
    + by apply (inv_fds s Hi t1 t2 p1 p2 fd).
  - intros t1 t2 p1 p2 c H1 H2 Hin1 Hin2.
    destruct (looping_thread t1 p1 H1) as [[-> ->]|[Hne1 H1']], (looping_thread t2 p2 H2) as [[-> ->]|[Hne2 H2']]; [done| | |].
    + by destruct (looping_loose t2 p2 c).
    + by destruct (looping_loose t1 p1 c).
    + by apply (inv_addrs s Hi t1 t2 p1 p2 c).
  - intros t2 p2 H2. destruct (looping_thread t2 p2 H2) as [[-> ->]|[Hne H2']]; [done|].
    rewrite (inv_leader s Hi t2 p2 H2'). by apply bool_decide_ext; rewrite Olr.
  - intros t2 Ht. rewrite Oth. apply lookup_lt_is_Some. rewrite length_insert. apply lookup_lt_is_Some.
    destruct (decide (t2 = t)) as [->|Hne]; [done|]. apply (inv_holder s Hi). by apply Olr.
  - apply (inv_socks s Hi).
  - rewrite Ob. apply (inv_bugs s Hi).
Qed.

End Looping.

(** ** The clients *)

(** Something happens at the other end of a socket. *)
Lemma sock_inv s fd so so' :
  inv s -> files (kernel s) !! fd = Some (Client so) -> file_le (Client so) (Client so') -> inv (set_sock s fd so').
Proof.
  intros Hi Hf Hle.
  assert (forall fd', opt_file_le (files (kernel s) !! fd') (files (kernel (set_sock s fd so')) !! fd')) as Hall.
  { intros fd'. cbn. destruct (decide (fd' = fd)) as [->|Hne].
    - by rewrite Hf, lookup_insert_eq.
    - rewrite lookup_insert_ne by done. apply opt_file_le_refl. }
  assert (forall f c, owned s f c -> owned (set_sock s fd so') f c) as Ho.
  { intros f c (Hb & cn & Hcn & Hfine). split; [done|]. exists cn. split; [done|]. by eapply conn_fine_le. }
  destruct Hi as [Iconns Ifree Ikept Iready Iwaiting Ifired Iarmed Ipc Iheld Iloose Ifds Iaddrs Ileader Iholder Isocks Ibugs].
  split; cbn; try done.
  - intros f c Hc. destruct (Iconns f c Hc). auto.
  - intros t p Hp. apply (pc_ok_frame s); try done. by apply (Ipc t).
  - intros f so2. destruct (decide (f = fd)) as [->|Hne].
    + rewrite lookup_insert_eq. intros [= <-]. apply Hle. by apply (Isocks fd).
    + rewrite lookup_insert_ne by done. apply Isocks.
Qed.

(** ** One iteration of a connection's machine *)

Lemma client_prefix cn so : client_ok cn so -> tx (s_net so) `prefix_of` serve (s_registry so) 0 [] (s_in so).
Proof. intros [[p H]|(_ & _ & _ & H)]; [by eapply live_prefix|done]. Qed.

Lemma client_kept cn so : client_ok cn so -> kept cn.
Proof. intros [[p (H1 & H2 & _)]|(H1 & H2 & _)]; done. Qed.

Lemma client_state cn so : client_ok cn so -> state cn <> conn_listening.
Proof. intros [[p (_ & _ & Hp & _)]|(_ & _ & Hs & _)]; [|congruence]. destruct Hp as [[? _]|[? _]]; congruence. Qed.

Definition with_net (so : sock) (w : net) : sock := Sock w (s_kernel so) (s_registry so) (s_in so).

Lemma drive_step_client realloc_ok cn so :
  (forall n, realloc_ok n = true) -> registry_up so -> client_ok cn so ->
  exists r cn' w', drive_step (s_kernel so) realloc_ok (s_registry so) cn (s_net so) = Some (r, cn', w') /\
    sfd cn' = sfd cn /\ client_ok cn' (with_net so w').
Proof.
  intros Hm Hr [[p Hlive]|Hshut].
  - destruct (drive_step_ok (s_kernel so) realloc_ok (s_registry so) Hm Hr _ _ _ _ Hlive)
      as (r & cn' & w' & E & Hok). exists r, cn', w'. split; [done|].
    split; [by eapply drive_step_sfd|]. destruct Hok as [_ Hok]. destruct r.
    + destruct Hok as [(p' & Hl & _)|[Hs _]]; [left; by exists p'|by right].
    + destruct Hok as [Hl _]. by left.
    + done.
  - pose proof Hshut as (_ & _ & Hst & _). eexists _, _, _. split; [unfold drive_step; by rewrite Hst|].
    split; [done|]. by right.
Qed.

(** A structure prepared for a client that was just accepted. *)
Lemma reset_live cn fd so :
  kept cn -> virgin so -> client_ok (conn_reset cn fd conn_read) so.
Proof.
  intros [(S1 & S2 & S3 & S4 & S5 & S6) (R1 & R2 & R3 & R4 & R5)] (V1 & V2 & V3 & V4). left. exists [].
  assert (unread (rd (conn_reset cn fd conn_read)) = []) as Hu by done.
  split; [done|]. split; [unfold rd_ok; cbn; lia|]. split; [by left|]. split; [done|].
  rewrite Hu. split; [cbn; rewrite V3; lia|]. intros f. by rewrite V1, V2, V3.
Qed.

Lemma calloc_kept size : 0 < size -> kept (conn_calloc size).
Proof.
  intros Hs. split; [done|]. unfold rd_ok. cbn. rewrite length_replicate. lia.
Qed.

Lemma reset_kept cn fd st : kept cn -> kept (conn_reset cn fd st).
Proof.
  intros [(S1 & S2 & S3 & S4 & S5 & S6) (R1 & R2 & R3 & R4 & R5)]. split; [done|]. unfold rd_ok. cbn. lia.
Qed.

End DLoopProofs.
