(* ===== verification/DLoopSafe.v ===== *)
(** * The workers of the dispatcher never get in each other's way

    For any number of workers, every schedule and every behaviour of kernel,
    allocator and clients: no worker faults, two workers never work on the
    same connection, and every client is sent a prefix of the replies to its
    commands. *)

From S2P Require Import Prelude DConn DConnSpec DLoop DLoopSpec.
Import DConn DConnProofs DLoop DLoopProofs.

Module DLoopSafe.

(** ** The steps *)

Definition good (o : outcome) : Prop :=
  match o with
  | Blocked => True
  | Fault => False
  | Next s => inv s
  end.

Section Steps.
Context (s : sys) (t : nat) (Hi : inv s).

(** The worker moves on and nothing else changes. *)
Lemma move_good p p' :
  threads s !! t = Some p -> leads p = false -> leads p' = false ->
  pc_fds p' ⊆ pc_fds p -> pc_addrs p' ⊆ pc_addrs p -> pc_ok s p' -> good (goto s t p').
Proof.
  intros Hp Hl Hl' Hf Ha Hok. unfold goto. cbn [good].
  apply (local_inv s _ t p p' (pc_fds p) []); [done|]. split; cbn; try done; try set_solver.
  - intros c Hc. split; [|set_solver]. by apply (inv_loose s Hi t p), Ha.
  - intros fd c _ Hc. by apply (inv_conns s Hi).
  - apply (inv_free s Hi).
  - intros c Hc. split; [by left|by apply (inv_kept s Hi)].
  - intros fd Hin. by apply (inv_held s Hi t p fd Hp), Hf.
  - intros fd _. apply (inv_armed s Hi).
  - intros fd so _. apply (inv_socks s Hi fd).
Qed.

(** The free list stays as it is. *)
Lemma local_same s' p p' F A :
  threads s !! t = Some p -> threads s' = <[t:=p']> (threads s) ->
  fired (loop s') = fired (loop s) /\ nready (loop s') = nready (loop s) /\
  leader (loop s') = leader (loop s) /\ bugs s' = bugs s ->
  leads p = false /\ leads p' = false ->
  (forall fd, fd ∈ F -> fd ∈ pc_fds p \/ files (kernel s) !! fd = None) ->
  (forall c, c ∈ A -> c ∈ pc_addrs p \/ heap (mem s) !! c = None) ->
  pc_fds p ⊆ F /\ pc_fds p' ⊆ F ->
  freeconns (mem s') = freeconns (mem s) -> pc_addrs p' ⊆ pc_addrs p ++ A ->
  (forall fd, fd ∉ F -> conns (loop s') !! fd = conns (loop s) !! fd /\
    files (kernel s') !! fd = files (kernel s) !! fd /\ armed (kernel s') !! fd = armed (kernel s) !! fd) ->
  (forall c, c ∉ A -> heap (mem s') !! c = heap (mem s) !! c) ->
  pc_ok s' p' ->
  (forall fd c, fd ∈ F -> conns (loop s') !! fd = Some c ->
    (conns (loop s) !! fd = Some c \/ c ∈ pc_addrs p ++ A) /\ owned s' fd c) ->
  (forall fd, fd ∈ pc_fds p' -> armed (kernel s') !! fd <> Some true) ->
  (forall fd, fd ∈ F -> armed (kernel s') !! fd = Some true -> is_Some (conns (loop s') !! fd)) ->
  (forall fd so, fd ∈ F -> files (kernel s') !! fd = Some (Client so) -> sock_ok so) ->
  inv s'.
Proof.
  intros Hp Ht Hloop Hl HF HA Hfds Hfree Haddrs Hframe Hheap Hok Hconns Hheld Harmed Hsocks.
  assert (forall c, c ∈ pc_addrs p ++ A -> c ∉ freeconns (mem s)) as Hnf.
  { intros c [Hc|Hc]%elem_of_app; [by apply (inv_loose s Hi t p)|]. intros Hin.
    destruct (HA c Hc) as [Hc'|Hn]; [by apply (inv_loose s Hi t p c)|].
    destruct (inv_kept s Hi c Hin) as (cn & E & _). congruence. }
  apply (local_inv s s' t p p' F A Hi). split; rewrite ?Hfree; try done.
  - intros c Hc. destruct (HA c Hc); auto.
  - intros c Hc%Haddrs. split; [by apply Hnf|]. by apply elem_of_app.
  - intros fd c HF' Hc. destruct (Hconns fd c HF' Hc) as [[Hc'|Hc'] ?]; (split; [|done]).
    + by apply (inv_conns s Hi fd c).
    + by apply Hnf.
  - apply (inv_free s Hi).
  - intros c Hc. split; [by left|]. rewrite Hheap; [by apply (inv_kept s Hi)|].
    intros HA'. apply (Hnf c); [|done]. apply elem_of_app. by right.
Qed.

(** ** [drive_machine] *)

Lemma drive_client_good realloc_ok fd c cn o :
  (forall n, realloc_ok n = true) -> threads s !! t = Some (Driving fd c) -> heap (mem s) !! c = Some cn ->
  state cn <> conn_listening -> good (drive_client realloc_ok s t fd c cn o).
Proof.
  intros Hm Hp Hcn Hst. unfold drive_client. destruct o; try done.
  destruct (inv_pc s Hi t _ Hp) as [(Hb & cn0 & E0 & <- & Hf) Hc]. assert (cn0 = cn) as -> by congruence. clear E0.
  destruct (files (kernel s) !! sfd cn) as [[|so]|] eqn:Ef; [by destruct Hf|idtac|done].
  destruct (inv_socks s Hi _ _ Ef) as [Hr _].
  destruct (drive_step_client realloc_ok cn so Hm Hr Hf) as (r & cn' & w' & -> & Es & Hok).
  set (p' := match r with Continue => _ | Stop => _ | Close => _ end).
  assert (pc_fds p' = [sfd cn] /\ pc_addrs p' = [c] /\ leads p' = false) as (E1 & E2 & E3) by by destruct r.
  unfold goto. cbn [good]. set (s' := Sys _ _ _ _ _ _).
  assert (owned s' (sfd cn) c) as Ho.
  { split; [done|]. exists cn'. cbn. rewrite !lookup_insert_eq. done. }
  assert (conns (loop s') !! sfd cn = Some c) as Hc' by done.
  apply (local_same s' _ p' [sfd cn] [c] Hp); rewrite ?E1, ?E2; try done; try set_solver +.
  - intros f Hf'. cbn. rewrite lookup_insert_ne by set_solver. done.
  - intros c' Hc2. cbn. rewrite lookup_insert_ne by set_solver. done.
  - destruct r; cbn; auto.
  - intros f c' ->%list_elem_of_singleton. rewrite Hc'. intros [= <-]. split; [set_solver|done].
  - intros f ->%list_elem_of_singleton. cbn. by apply (inv_held s Hi t _ _ Hp); left.
  - intros f ->%list_elem_of_singleton. rewrite Hc'. done.
  - intros f so2 ->%list_elem_of_singleton. cbn. rewrite lookup_insert_eq. intros [= <-].
    split; [done|]. by eapply client_prefix.
Qed.

Lemma drive_listening_good fd c cn o :
  match o with Incoming _ _ reg => forall n, is_Some (reg n) | _ => True end ->
  threads s !! t = Some (Driving fd c) -> heap (mem s) !! c = Some cn ->
  state cn = conn_listening -> good (drive_listening s t fd c cn o).
Proof.
  intros Hreg Hp Hcn Hst. unfold drive_listening. pose proof (inv_pc s Hi t _ Hp) as Hpc.
  destruct Hpc as [Ho Hc]. pose proof Ho as (Hb & cn0 & E0 & <- & Hf). assert (cn0 = cn) as -> by congruence. clear E0.
  destruct (files (kernel s) !! sfd cn) as [[|so]|] eqn:Ef; [|by apply client_state in Hf|done].
  destruct o as [| | |nfd k reg| |]; try done.
  { eapply move_good; [done..| |]; done. }
  destruct (Z.ltb_spec nfd 0); cbn [orb]; [done|]. case_bool_decide as Hop; [done|].
  assert (files (kernel s) !! nfd = None) as Hn by (by destruct (files (kernel s) !! nfd); [destruct Hop|]).
  assert (conns (loop s) !! nfd = None) as Hcn0.
  { destruct (conns (loop s) !! nfd) as [c'|] eqn:E; [|done]. destruct (table_open s Hi _ _ E). congruence. }
  unfold goto. cbn [good]. set (s' := Sys _ _ _ _ _ _).
  assert (forall f, f <> nfd -> files (kernel s') !! f = files (kernel s) !! f) as Hfne.
  { intros f Hne. cbn. by rewrite lookup_insert_ne. }
  assert (files (kernel s') !! nfd = Some (Client (Sock (Net [] false [] 0 0 0 0 0) k reg []))) as Hfeq.
  { cbn. by rewrite lookup_insert_eq. }
  assert (sfd cn <> nfd) as Hd by congruence.
  assert (owned s' (sfd cn) c) as Ho'.
  { split; [done|]. exists cn. rewrite Hfne by done. rewrite Ef. done. }
  apply (local_same s' _ (Accepted (sfd cn) c nfd) [sfd cn; nfd] [] Hp); try done; try set_solver +.
  - intros f [->|[->|?]%elem_of_cons]%elem_of_cons; [left; by left|by right|by apply not_elem_of_nil in H0].
  - intros f Hf'. rewrite Hfne by set_solver. done.
  - split; [done|]. split; [done|]. split; [done|]. split; [done|]. eexists. split; [exact Hfeq|]. done.
  - intros f c' [->|[->|?]%elem_of_cons]%elem_of_cons; [| |by apply not_elem_of_nil in H0]; cbn.
    + rewrite Hc. intros [= <-]. split; [by left|done].
    + by rewrite Hcn0.
  - intros f Hin. cbn. destruct (decide (f = nfd)) as [->|Hne].
    + intros Ha. destruct (inv_armed s Hi nfd Ha). congruence.
    + apply (inv_held s Hi t _ f Hp). set_solver.
  - intros f _. cbn. apply (inv_armed s Hi).
  - intros f so _. destruct (decide (f = nfd)) as [->|Hne].
    + rewrite Hfeq. intros [= <-]. split; [done|]. apply prefix_nil.
    + rewrite Hfne by done. apply (inv_socks s Hi).
Qed.

(** ** [conn_new] *)

Lemma owned_frame s' fd c :
  files (kernel s') !! fd = files (kernel s) !! fd -> heap (mem s') !! c = heap (mem s) !! c ->
  owned s fd c -> owned s' fd c.
Proof. intros Hf Hh (Hb & cn & E & H). split; [done|]. exists cn. by rewrite Hh, Hf. Qed.

(** Frame conditions of a step that changes one structure. *)
Lemma conn_new_good fd c nfd o :
  threads s !! t = Some (NewConn fd c nfd) -> good (conn_new s t fd c nfd o).
Proof.
  intros Hp. pose proof (inv_pc s Hi t _ Hp) as (Ho & Hc & Hu). pose proof Hu as (Hpos & Hnc & so & Hf & Hv).
  assert (is_Some (heap (mem s) !! c)) as [cn0 Hcn0] by (destruct Ho as (_ & cn0 & -> & _); done).
  assert (forall n cn s', c <> n -> kept cn -> heap (mem s') = <[n:=conn_reset cn nfd conn_read]> (heap (mem s)) ->
    conns (loop s') = conns (loop s) -> files (kernel s') = files (kernel s) -> pc_ok s' (NewEvent fd c nfd n)) as Hpc.
  { intros n cn s' Hne Hk Eh Ec Ef. cbn. unfold prepared. rewrite Ec, Ef.
    split; [apply owned_frame; [by rewrite Ef|rewrite Eh; by rewrite lookup_insert_ne|done]|].
    split; [done|]. split; [done|]. split; [done|]. eexists. rewrite Eh, lookup_insert_eq. split; [done|].
    split; [|done]. split; [done|]. rewrite Hf. by apply reset_live. }
  unfold conn_new. destruct (freeconns (mem s)) as [|n rest] eqn:Efr; destruct o as [| | | |[n'|]|]; try done.
  - rename n' into n. destruct (heap (mem s) !! n) eqn:En; [done|]. unfold goto. cbn [good]. set (s' := Sys _ _ _ _ _ _).
    assert (c <> n) as Hne by congruence.
    apply (local_same s' _ (NewEvent fd c nfd n) [fd; nfd] [n] Hp); try done; try set_solver +.
    + intros c' ->%list_elem_of_singleton. by right.
    + intros c' Hc'. cbn. rewrite lookup_insert_ne by set_solver. done.
    + apply (Hpc n (conn_calloc DATA_BUFFER_SIZE)); done.
    + intros f c' Hin. cbn. intros Hc'. destruct (decide (f = fd)) as [->|Hd].
      * assert (c' = c) as -> by congruence. split; [by left|]. apply owned_frame; [done| |done].
        cbn. by rewrite lookup_insert_ne.
      * assert (f = nfd) by set_solver. congruence.
    + intros f Hin. by apply (inv_held s Hi t _ f Hp).
    + intros f _. apply (inv_armed s Hi).
    + intros f so2 _. apply (inv_socks s Hi f).
  - eapply move_good; [done..|set_solver +|]. cbn. by rewrite Hf.
  - assert (n ∈ freeconns (mem s)) as Hnf by (rewrite Efr; set_solver +).
    destruct (inv_kept s Hi n Hnf) as (cn & -> & Hk). pose proof (inv_free s Hi) as Hnd. rewrite Efr in Hnd.
    apply NoDup_cons in Hnd as [Hnr Hnd].
    assert (c <> n) as Hne by (intros ->; by apply (inv_loose s Hi t _ n Hp); [left|]).
    unfold goto. cbn [good]. set (s' := Sys _ _ _ _ _ _).
    apply (local_inv s s' t (NewConn fd c nfd) (NewEvent fd c nfd n) [fd; nfd] [n] Hi). split; try done; try set_solver +.
    + intros c' ->%list_elem_of_singleton. auto.
    + intros c' Hc'. cbn. destruct (decide (c' = n)) as [->|Hd]; [split; [done|set_solver +]|].
      assert (c' = c) as -> by set_solver. split; [|set_solver +]. intros Hin.
      apply (inv_loose s Hi t _ c Hp); [by left|]. rewrite Efr. by right.
    + intros c' Hc'. cbn. rewrite lookup_insert_ne by set_solver. done.
    + by apply (Hpc n cn).
    + intros f c' Hin. cbn. intros Hc'. destruct (decide (f = fd)) as [->|Hd].
      * assert (c' = c) as -> by congruence. split.
        { intros Hin'. apply (inv_loose s Hi t _ c Hp); [by left|]. rewrite Efr. by right. }
        apply owned_frame; [done| |done]. cbn. by rewrite lookup_insert_ne.
      * assert (f = nfd) by set_solver. congruence.
    + intros c' Hin. cbn in Hin |- *. split; [left; rewrite Efr; by right|].
      rewrite lookup_insert_ne by congruence. apply (inv_kept s Hi). rewrite Efr. by right.
    + intros f Hin. by apply (inv_held s Hi t _ f Hp).
    + intros f _. apply (inv_armed s Hi).
    + intros f so2 _. apply (inv_socks s Hi f).
Qed.

Lemma add_event_good fd c nfd n :
  threads s !! t = Some (NewEvent fd c nfd n) -> good (add_event s t fd c nfd n).
Proof.
  intros Hp. pose proof (inv_pc s Hi t _ Hp) as (Ho & Hc & Hpr). pose proof Hpr as (Hpos & Hnc & cn & Hn & Hf & Hst).
  unfold add_event. destruct (Z.leb_spec AE_SETSIZE nfd).
  { eapply move_good; [done..|]. done. }
  rewrite (proj2 (Z.ltb_ge nfd 0)), Hnc by lia. unfold goto. cbn [good]. set (s' := Sys _ _ _ _ _ _).
  assert (fd <> nfd) as Hne by congruence.
  apply (local_same s' _ (NewPoll fd c nfd n) [fd; nfd] [] Hp); try done; try set_solver +.
  - intros f Hin. cbn. rewrite lookup_insert_ne by set_solver. done.
  - cbn. rewrite lookup_insert_eq, lookup_insert_ne by done. do 3 (split; [done|]).
    split; [split; [done|]; by exists cn|]. split; [done|]. by exists cn.
  - intros f c' Hin. cbn. destruct (decide (f = nfd)) as [->|Hd].
    + rewrite lookup_insert_eq. intros [= <-]. split; [set_solver +|]. split; [done|]. by exists cn.
    + rewrite lookup_insert_ne by done. intros Hc'. assert (f = fd) as -> by set_solver.
      assert (c' = c) as -> by congruence. split; [by left|done].
  - intros f Hin. by apply (inv_held s Hi t _ f Hp).
  - intros f Hin Ha. cbn. destruct (decide (f = nfd)) as [->|Hd]; [by rewrite lookup_insert_eq|].
    rewrite lookup_insert_ne by done. by apply (inv_armed s Hi).
  - intros f so2 _. apply (inv_socks s Hi f).
Qed.

Lemma add_armed fd m f : f <> fd -> aeApiAddEvent fd m !! f = m !! f.
Proof. intros Hne. unfold aeApiAddEvent. destruct (m !! fd); [done|]. by rewrite lookup_insert_ne. Qed.

Lemma new_poll_good fd c nfd n (ok : bool) :
  threads s !! t = Some (NewPoll fd c nfd n) ->
  good (if ok then goto (set_armed s (aeApiAddEvent nfd (armed (kernel s)))) t (Driving fd c)
        else goto (set_conns s (delete nfd (conns (loop s)))) t (NewFailed fd c nfd n)).
Proof.
  intros Hp. pose proof (inv_pc s Hi t _ Hp) as (Hne & Ho & Hc & Hon & Hcn & Hst).
  assert (forall f c', f ∈ [fd; nfd] -> conns (loop s) !! f = Some c' ->
    (conns (loop s) !! f = Some c' \/ c' ∈ [c; n] ++ []) /\ owned s f c') as Hall.
  { intros f c' Hin Hc'. destruct (decide (f = fd)) as [->|Hd].
    - assert (c' = c) as -> by congruence. split; [by left|done].
    - assert (f = nfd) as -> by set_solver. assert (c' = n) as -> by congruence. split; [by left|done]. }
  destruct ok; unfold goto; cbn [good]; set (s' := Sys _ _ _ _ _ _).
  - apply (local_same s' _ (Driving fd c) [fd; nfd] [] Hp); try done; try set_solver +.
    + intros f Hin. cbn. rewrite add_armed by set_solver. done.
    + intros f ->%list_elem_of_singleton. cbn. rewrite add_armed by done.
      by apply (inv_held s Hi t _ fd Hp); left.
    + intros f Hin _. cbn. destruct (decide (f = fd)) as [->|Hd]; [by rewrite Hc|].
      assert (f = nfd) as -> by set_solver. by rewrite Hcn.
    + intros f so2 _. apply (inv_socks s Hi f).
  - apply (local_same s' _ (NewFailed fd c nfd n) [fd; nfd] [] Hp); try done; try set_solver +.
    + intros f Hin. cbn. rewrite lookup_delete_ne by set_solver. done.
    + cbn. rewrite lookup_delete_ne by done. split; [done|]. split; [done|].
      destruct Hon as (Hb & cn & Hn & Hfine). split; [lia|]. cbn. rewrite lookup_delete_eq. split; [done|].
      exists cn. split; [done|]. split; [done|]. destruct Hst as (cn' & Hn' & Hst). congruence.
    + intros f c' Hin. cbn. rewrite lookup_delete_Some. intros [_ Hc']. by apply (Hall f).
    + intros f Hin. by apply (inv_held s Hi t _ f Hp).
    + intros f Hin Ha. exfalso. by apply (inv_held s Hi t _ f Hp Hin).
    + intros f so2 _. apply (inv_socks s Hi f).
Qed.

Lemma rejecting_good fd c nfd :
  threads s !! t = Some (Rejecting fd c nfd) -> good (close s nfd (fun s => goto s t (Driving fd c))).
Proof.
  intros Hp. pose proof (inv_pc s Hi t _ Hp) as (Ho & Hc & Hcn & Hop). unfold close.
  rewrite bool_decide_eq_true_2 by done. assert (fd <> nfd) as Hne by congruence.
  unfold goto; cbn [good]; set (s' := Sys _ _ _ _ _ _).
  assert (owned s' fd c) as Ho'.
  { apply owned_frame; [|done|done]. cbn. by rewrite lookup_delete_ne. }
  apply (local_same s' _ (Driving fd c) [fd; nfd] [] Hp); try done; try set_solver +.
  - intros f Hin. cbn. rewrite !lookup_delete_ne by set_solver. done.
  - intros f c' Hin. cbn. intros Hc'. destruct (decide (f = fd)) as [->|Hd].
    + assert (c' = c) as -> by congruence. split; [by left|done].
    + assert (f = nfd) as -> by set_solver. congruence.
  - intros f ->%list_elem_of_singleton. cbn. rewrite lookup_delete_ne by done.
    by apply (inv_held s Hi t _ fd Hp); left.
  - intros f _. cbn. rewrite lookup_delete_Some. intros [_ Ha]. by apply (inv_armed s Hi).
  - intros f so2 _. cbn. rewrite lookup_delete_Some. intros [_ ?]. by apply (inv_socks s Hi f).
Qed.

(** ** [update_event] and [conn_close] *)

Lemma set_conns_id x : set_conns x (conns (loop x)) = x.
Proof. by destruct x as [? ? [] ? ? ?]. Qed.

Lemma rearming_good fd c :
  threads s !! t = Some (Rearming fd c) ->
  good match heap (mem s) !! c with
       | None => Fault
       | Some _ =>
           if (fd <? 0) || (AE_SETSIZE <=? fd) then Fault
           else goto (set_conns s (<[fd:=c]> (conns (loop s)))) t (RearmPoll fd c)
       end.
Proof.
  intros Hp. pose proof (inv_pc s Hi t _ Hp) as (Ho & Hc). pose proof Ho as (Hb & cn & -> & _).
  rewrite (proj2 (Z.ltb_ge fd 0)), (proj2 (Z.leb_gt AE_SETSIZE fd)) by lia. cbn [orb].
  rewrite insert_id, set_conns_id by done. by eapply move_good.
Qed.

Lemma rearm_poll_good fd c (ok : bool) :
  threads s !! t = Some (RearmPoll fd c) ->
  good match (if ok then aeApiUpdateEvent fd (armed (kernel s)) else None) with
       | Some m => goto (set_armed s m) t AtLoop
       | None => goto (set_conns s (delete fd (conns (loop s)))) t (Closing fd c)
       end.
Proof.
  intros Hp. pose proof (inv_pc s Hi t _ Hp) as (Ho & Hc).
  destruct (if ok then _ else None) as [m|] eqn:Em; unfold goto; cbn [good]; set (s' := Sys _ _ _ _ _ _).
  - assert (m = <[fd:=true]> (armed (kernel s))) as ->.
    { destruct ok; [|done]. unfold aeApiUpdateEvent in Em. case_match; by simplify_eq. }
    apply (local_same s' _ AtLoop [fd] [] Hp); try done; try set_solver +.
    + intros f Hin. cbn. rewrite lookup_insert_ne by set_solver. done.
    + intros f c' ->%list_elem_of_singleton. cbn. rewrite Hc. intros [= <-]. split; [by left|done].
    + intros f ->%list_elem_of_singleton _. cbn. by rewrite Hc.
    + intros f so2 _. apply (inv_socks s Hi f).
  - apply (local_same s' _ (Closing fd c) [fd] [] Hp); try done; try set_solver +.
    + intros f Hin. cbn. rewrite lookup_delete_ne by set_solver. done.
    + split; [done|]. right. cbn. by rewrite lookup_delete_eq.
    + intros f c' ->%list_elem_of_singleton. cbn. by rewrite lookup_delete_eq.
    + intros f Hin. by apply (inv_held s Hi t _ f Hp).
    + intros f Hin Ha. exfalso. by apply (inv_held s Hi t _ f Hp Hin).
    + intros f so2 _. apply (inv_socks s Hi f).
Qed.

Lemma delete_event_good fd c : threads s !! t = Some (Closing fd c) -> good (delete_event s t fd c).
Proof.
  intros Hp. pose proof (inv_pc s Hi t _ Hp) as (Ho & Hc). pose proof Ho as (Hb & cn & Hcn & <- & _).
  unfold delete_event. rewrite Hcn, (proj2 (Z.leb_gt AE_SETSIZE (sfd cn))), (proj2 (Z.ltb_ge (sfd cn) 0)) by lia.
  unfold goto; cbn [good]; set (s' := Sys _ _ _ _ _ _).
  apply (local_same s' _ (ClosePoll (sfd cn) c) [sfd cn] [] Hp); try done; try set_solver +.
  - intros f Hin. cbn. rewrite lookup_delete_ne by set_solver. done.
  - split; [done|]. cbn. by rewrite lookup_delete_eq.
  - intros f c' ->%list_elem_of_singleton. cbn. by rewrite lookup_delete_eq.
  - intros f Hin. by apply (inv_held s Hi t _ f Hp).
  - intros f Hin Ha. exfalso. by apply (inv_held s Hi t _ f Hp Hin).
  - intros f so2 _. apply (inv_socks s Hi f).
Qed.

Lemma close_poll_good fd c :
  threads s !! t = Some (ClosePoll fd c) ->
  good match heap (mem s) !! c with
       | None => Fault
       | Some cn => goto (set_armed s (delete (sfd cn) (armed (kernel s)))) t (CloseFile fd c)
       end.
Proof.
  intros Hp. pose proof (inv_pc s Hi t _ Hp) as (Ho & Hc). pose proof Ho as (Hb & cn & -> & <- & _).
  unfold goto; cbn [good]; set (s' := Sys _ _ _ _ _ _).
  apply (local_same s' _ (CloseFile (sfd cn) c) [sfd cn] [] Hp); try done; try set_solver +.
  - intros f Hin. cbn. rewrite lookup_delete_ne by set_solver. done.
  - intros f c' ->%list_elem_of_singleton. cbn. by rewrite Hc.
  - intros f ->%list_elem_of_singleton. cbn. by rewrite lookup_delete_eq.
  - intros f ->%list_elem_of_singleton. cbn. by rewrite lookup_delete_eq.
  - intros f so2 _. apply (inv_socks s Hi f).
Qed.

Lemma owned_kept fd c : owned s fd c -> exists cn, heap (mem s) !! c = Some cn /\ kept cn.
Proof.
  intros (_ & cn & -> & _ & H). exists cn. split; [done|]. destruct (files _ !! fd) as [[|so]|]; [by apply H| |done].
  by eapply client_kept.
Qed.

Lemma close_file_good fd c : threads s !! t = Some (CloseFile fd c) -> good (close_file s t c).
Proof.
  intros Hp. pose proof (inv_pc s Hi t _ Hp) as (Ho & Hc). pose proof Ho as (Hb & cn & Hcn & <- & Hf).
  destruct (owned_kept _ _ Ho) as (cn0 & E0 & Hk). assert (cn0 = cn) as -> by congruence. clear E0.
  unfold close_file, close. rewrite Hcn, bool_decide_eq_true_2 by (by destruct (files _ !! _)).
  unfold goto; cbn [good]; set (s' := Sys _ _ _ _ _ _).
  apply (local_same s' _ (CloseFree c) [sfd cn] [c] Hp); try done; try set_solver +.
  - intros f Hin. cbn. rewrite !lookup_delete_ne by set_solver. done.
  - intros c' Hin. cbn. rewrite lookup_insert_ne by set_solver. done.
  - cbn. eexists. rewrite lookup_insert_eq. split; [done|]. split; [done|]. destruct cn; done.
  - intros f c' ->%list_elem_of_singleton. cbn. by rewrite Hc.
  - intros f ->%list_elem_of_singleton. cbn. by rewrite lookup_delete_eq.
  - intros f so2 ->%list_elem_of_singleton. cbn. by rewrite lookup_delete_eq.
Qed.

(** The worker gives up the structure [x]. *)
Lemma conn_free_good p p' x :
  threads s !! t = Some p -> leads p = false -> leads p' = false -> x ∈ pc_addrs p -> x ∉ pc_addrs p' ->
  pc_fds p' ⊆ pc_fds p -> pc_addrs p' ⊆ pc_addrs p -> pc_ok s p' -> (forall fd, conns (loop s) !! fd <> Some x) ->
  good (conn_free s x (fun s => goto s t p')).
Proof.
  intros Hp Hl Hl' Hx Hx' Hfds Haddrs Hok Hno. unfold conn_free.
  destruct (pc_addr_heap s p x (inv_pc s Hi t p Hp) Hx) as [cn ->].
  unfold goto; cbn [good]; set (s' := Sys _ _ _ _ _ _).
  assert (forall c, c <> x -> heap (mem s') !! c = heap (mem s) !! c) as Hh by (intros; cbn; by rewrite lookup_delete_ne).
  apply (local_same s' _ p' (pc_fds p) [x] Hp); try done.
  - auto.
  - intros c ->%list_elem_of_singleton. by left.
  - intros c Hc%Haddrs. apply elem_of_app. by left.
  - intros c Hc. apply Hh. set_solver.
  - apply (pc_ok_frame s s'); try done; [intros; apply opt_file_le_refl|]. intros c Hc. apply Hh. congruence.
  - intros fd c HF Hc. destruct (inv_conns s Hi _ _ Hc) as [_ Ho].
    split; [by left|]. apply owned_frame; [done| |done]. apply Hh. intros ->. by apply (Hno fd).
  - intros fd Hin. by apply (inv_held s Hi t p fd Hp), Hfds.
  - intros fd _. apply (inv_armed s Hi).
  - intros fd so _. apply (inv_socks s Hi fd).
Qed.

Lemma push_good m p p' x :
  threads s !! t = Some p -> leads p = false -> leads p' = false -> x ∈ pc_addrs p -> x ∉ pc_addrs p' ->
  pc_fds p' ⊆ pc_fds p -> pc_addrs p' ⊆ pc_addrs p -> pc_ok s p' -> (forall fd, conns (loop s) !! fd <> Some x) ->
  (exists cn, heap (mem s) !! x = Some cn /\ kept cn) ->
  heap m = heap (mem s) -> freeconns m = x :: freeconns (mem s) ->
  good (goto (set_mem s m) t p').
Proof.
  intros Hp Hl Hl' Hx Hx' Hfds Haddrs Hok Hno Hk Eh Ef.
  unfold goto; cbn [good]; set (s' := Sys _ _ _ _ _ _).
  assert (heap (mem s') = heap (mem s)) as Hh by done.
  assert (freeconns (mem s') = x :: freeconns (mem s)) as Hf by done.
  assert (forall c, c <> x -> c ∉ freeconns (mem s) -> c ∉ freeconns (mem s')) as Hnf.
  { intros c Hne Hn. rewrite Hf. by intros [?|?]%elem_of_cons. }
  apply (local_inv s s' t p p' (pc_fds p) [] Hi). split; try done.
  - by auto.
  - by intros c ?%not_elem_of_nil.
  - intros c Hc. split; [|left; by apply Haddrs]. apply Hnf; [congruence|]. by apply (inv_loose s Hi t p), Haddrs.
  - intros c _. by rewrite Hh.
  - apply (pc_ok_frame s s'); try done; [intros; apply opt_file_le_refl|]. intros c Hc. by rewrite Hh.
  - intros fd c _ Hc. destruct (inv_conns s Hi _ _ Hc) as [Hc' Ho]. split; [|apply owned_frame; [done|by rewrite Hh|done]].
    apply Hnf; [|done]. intros ->. by apply (Hno fd).
  - rewrite Hf. apply NoDup_cons. split; [by apply (inv_loose s Hi t p)|apply (inv_free s Hi)].
  - intros c. rewrite Hf, Hh. intros [->|Hin]%elem_of_cons; [auto|]. split; [by left|]. by apply (inv_kept s Hi).
  - intros fd Hin. by apply (inv_held s Hi t p fd Hp), Hfds.
  - intros fd _. apply (inv_armed s Hi).
  - intros fd so _. apply (inv_socks s Hi fd).
Qed.

Lemma set_mem_id x : set_mem x (mem x) = x.
Proof. by destruct x. Qed.

Lemma recycle_good p p' x ok :
  threads s !! t = Some p -> leads p = false -> leads p' = false -> x ∈ pc_addrs p -> x ∉ pc_addrs p' ->
  pc_fds p' ⊆ pc_fds p -> pc_addrs p' ⊆ pc_addrs p -> pc_ok s p' -> (forall fd, conns (loop s) !! fd <> Some x) ->
  (exists cn, heap (mem s) !! x = Some cn /\ kept cn) ->
  good (recycle s x ok (fun s => goto s t p')).
Proof.
  intros. unfold recycle, do_conn_add_to_freelist. destruct (_ <? _); [by apply (push_good _ p p' x)|].
  destruct ok; [by apply (push_good _ p p' x)|]. rewrite set_mem_id. by apply (conn_free_good p p' x).
Qed.

Lemma new_failed_good fd c nfd n ok :
  threads s !! t = Some (NewFailed fd c nfd n) ->
  good (recycle s n ok (fun s => goto s t (Rejecting fd c nfd))).
Proof.
  intros Hp. pose proof (inv_pc s Hi t _ Hp) as (Ho & Hc & Hpos & Hnc & cn & Hn & Hf & Hst).
  assert (forall f, conns (loop s) !! f <> Some n) as Hno.
  { intros f Hf'. destruct (inv_conns s Hi _ _ Hf') as [_ (_ & cn' & Hn' & <- & _)].
    destruct Hf as [<- _]. assert (cn' = cn) as -> by congruence. congruence. }
  assert (c <> n) as Hne by (intros ->; by apply (Hno fd)).
  apply (recycle_good _ _ n ok Hp); try done; try set_solver +.
  - set_solver.
  - split; [done|]. split; [done|]. split; [done|]. destruct Hf as [_ Hf]. by destruct (files _ !! nfd).
  - exists cn. split; [done|]. destruct Hf as [_ Hf]. destruct (files _ !! nfd) as [[|so]|]; [by apply Hf| |done].
    by eapply client_kept.
Qed.

Lemma close_free_good c ok : threads s !! t = Some (CloseFree c) -> good (close_free s t c ok).
Proof.
  intros Hp. pose proof (inv_pc s Hi t _ Hp) as (cn & Hcn & Hfd & Hk). unfold close_free. rewrite Hcn.
  assert (forall f, conns (loop s) !! f <> Some c) as Hno.
  { intros f Hf'. destruct (inv_conns s Hi _ _ Hf') as [_ (Hb & cn' & Hn' & <- & _)].
    assert (cn' = cn) as -> by congruence. lia. }
  destruct (_ <? _).
  - apply (conn_free_good _ _ c Hp); try done; try set_solver +.
  - apply (recycle_good _ _ c ok Hp); try done; try set_solver +. by exists cn.
Qed.

(** ** The event loop *)

Lemma leader_is p : threads s !! t = Some p -> leads p = true -> leader (loop s) = Some t.
Proof. intros Hp Hl. rewrite (inv_leader s Hi t p Hp) in Hl. by apply bool_decide_eq_true in Hl. Qed.

(** A worker that holds nothing changes at most the mutex. *)
Lemma mutex_good l p p' :
  threads s !! t = Some p -> pc_fds p = [] -> pc_addrs p = [] -> pc_fds p' = [] -> pc_addrs p' = [] ->
  pc_ok s p' -> leads p' = bool_decide (l = Some t) ->
  (forall t2, t2 <> t -> l = Some t2 <-> leader (loop s) = Some t2) ->
  good (goto (set_leader s l) t p').
Proof.
  intros Hp E1 E2 E3 E4 Hok Hl Hot. unfold goto; cbn [good]; set (s' := Sys _ _ _ _ _ _).
  assert (waiting s' = waiting s) as Hw by done.
  apply (looping_inv s s' t p p' Hi). split; rewrite ?Hw, ?E3, ?E4; try done.
  - apply (inv_ready s Hi).
  - by right.
  - apply (inv_waiting s Hi).
  - intros fd Hin. split; [by left|]. by apply (inv_fired s Hi fd).
  - by intros fd ?%not_elem_of_nil.
  - by intros c ?%not_elem_of_nil.
Qed.

Lemma set_leader_id x : set_leader x (leader (loop x)) = x.
Proof. by destruct x as [? ? [] ? ? ?]. Qed.

Lemma leading_good :
  threads s !! t = Some Leading ->
  good (if daemon_quit s then unlock s t (fun s => goto s t Finished)
        else if nready (loop s) =? 0 then goto s t Polling else goto s t Taking).
Proof.
  intros Hp. pose proof (leader_is _ Hp eq_refl) as Hl. destruct (daemon_quit s).
  { unfold unlock. rewrite bool_decide_eq_true_2 by done.
    apply (mutex_good None _ _ Hp); try done. rewrite Hl. naive_solver. }
  pose proof (inv_ready s Hi). assert (forall p', leads p' = true -> pc_fds p' = [] -> pc_addrs p' = [] ->
    pc_ok s p' -> good (goto s t p')) as Hmove.
  { intros p' H1 H2 H3 H4. pose proof (mutex_good (leader (loop s)) _ p' Hp) as Hg. rewrite set_leader_id in Hg.
    apply Hg; try done. by rewrite bool_decide_eq_true_2. }
  destruct (Z.eqb_spec (nready (loop s)) 0); apply Hmove; try done. cbn. lia.
Qed.

Lemma disarm_in fds m fd : fd ∈ fds -> disarm fds m !! fd = Some false.
Proof.
  induction fds as [|f fds IH]; [by intros ?%not_elem_of_nil|]. cbn. intros Hin.
  destruct (decide (fd = f)) as [->|Hne]; [by rewrite lookup_insert_eq|]. rewrite lookup_insert_ne by done.
  apply IH. by apply elem_of_cons in Hin as [?|?].
Qed.

Lemma disarm_true fds m fd : disarm fds m !! fd = Some true -> m !! fd = Some true.
Proof.
  induction fds as [|f fds IH]; [done|]. cbn. rewrite lookup_insert_Some. intros [[_ ?]|[_ ?]]; [done|auto].
Qed.

Lemma poll_good fds : threads s !! t = Some Polling -> good (poll s t fds).
Proof.
  intros Hp. pose proof (leader_is _ Hp eq_refl) as Hl. pose proof (inv_pc s Hi t _ Hp) as Hr. cbn in Hr.
  unfold poll. case_bool_decide as Hfds; [|done]. destruct (_ <=? _); [|done]. cbn [andb].
  destruct Hfds as [Hnd Hall]. unfold goto; cbn [good]; set (s' := Sys _ _ _ _ _ _).
  assert (waiting s' = fds) as Hw by (unfold waiting; cbn; rewrite Nat2Z.id; by rewrite take_app_length).
  assert (waiting s = []) as Hw0 by (unfold waiting; by rewrite Hr).
  apply (looping_inv s s' t Polling Leading Hi). split; rewrite ?Hw, ?Hw0; try done.
  - cbn. rewrite length_app. lia.
  - by left.
  - intros fd Hin. cbn. split; [right; by apply (proj1 (Forall_forall _ _) Hall)|]. by rewrite disarm_in.
  - intros fd. cbn. apply disarm_true.
  - by intros fd ?%not_elem_of_nil.
  - by intros c ?%not_elem_of_nil.
  - cbn. by rewrite bool_decide_eq_true_2.
Qed.

Lemma take_event_good : threads s !! t = Some Taking -> good (take_event s t).
Proof.
  intros Hp. pose proof (leader_is _ Hp eq_refl) as Hl. pose proof (inv_pc s Hi t _ Hp) as Hr. cbn in Hr.
  pose proof (inv_ready s Hi) as Hlen. unfold take_event.
  destruct (zget_is_Some (fired (loop s)) (nready (loop s) - 1)) as [fd Hfd]; [lia|]. rewrite Hfd.
  apply zget_Some in Hfd as [_ Hfd].
  assert (waiting s = take (Z.to_nat (nready (loop s) - 1)) (fired (loop s)) ++ [fd]) as Hw.
  { unfold waiting. rewrite <- (take_S_r _ _ _ Hfd). f_equal. lia. }
  assert (fd ∈ waiting s) as Hin by (rewrite Hw; set_solver +).
  destruct (inv_fired s Hi fd Hin) as [[c Hc] Hna]. destruct (inv_conns s Hi _ _ Hc) as [Hnf Ho].
  pose proof Ho as (Hb & _). rewrite (proj2 (Z.ltb_ge fd 0)), (proj2 (Z.leb_gt AE_SETSIZE fd)) by lia. cbn [orb].
  cbn [set_fired set_loop loop conns]. rewrite Hc. unfold unlock. cbn [loop leader].
  rewrite bool_decide_eq_true_2 by done.
  unfold goto; cbn [good]; set (s' := Sys _ _ _ _ _ _).
  assert (waiting s' = take (Z.to_nat (nready (loop s) - 1)) (fired (loop s))) as Hw' by done.
  pose proof (inv_waiting s Hi) as Hnd. rewrite Hw in Hnd. apply NoDup_app in Hnd as (Hnd & Hdis & _).
  apply (looping_inv s s' t Taking (Driving fd c) Hi). split; rewrite ?Hw'; try done.
  - cbn. lia.
  - by left.
  - intros f Hf. assert (f ∈ waiting s) as Hf' by (rewrite Hw; set_solver). split; [by left|].
    by apply (inv_fired s Hi f).
  - intros f ->%list_elem_of_singleton. split; [done|]. intros Hf. apply (Hdis fd Hf). set_solver +.
  - intros c' ->%list_elem_of_singleton. exists fd. split; [set_solver +|done].
  - intros t2 Hne. cbn. rewrite Hl. naive_solver.
Qed.

End Steps.

Section Workers.
Context (realloc_ok : nat -> bool) (memory : forall n, realloc_ok n = true).

(** What is assumed of the outside: a client sends less than a gigabyte, and
    the registry answers. *)
Definition label_ok (s : sys) (l : label) : Prop :=
  match l with
  | Arrive fd bs => forall so, files (kernel s) !! fd = Some (Client so) -> zlen (s_in so ++ bs) < 2 ^ 30
  | Step _ (Incoming _ _ reg) => forall n, is_Some (reg n)
  | _ => True
  end.

Lemma at_loop_good s t :
  inv s -> threads s !! t = Some AtLoop ->
  good (if daemon_quit s then goto s t Finished
        else match leader (loop s) with
             | Some _ => Blocked
             | None => goto (set_leader s (Some t)) t Leading
             end).
Proof.
  intros Hi Hp. destruct (daemon_quit s); [by eapply move_good|].
  destruct (leader (loop s)) eqn:El; [done|]. apply (mutex_good s t Hi _ _ _ Hp); try done.
  - cbn. by rewrite bool_decide_eq_true_2.
  - intros t2 Hne. rewrite El. naive_solver.
Qed.

Lemma drive_machine_good s t fd c o :
  inv s -> label_ok s (Step t o) -> threads s !! t = Some (Driving fd c) ->
  good (drive_machine realloc_ok s t fd c o).
Proof.
  intros Hi Hl Hp. pose proof (inv_pc s Hi t _ Hp) as [(_ & cn & Hcn & _) _]. unfold drive_machine. rewrite Hcn.
  destruct (decide (state cn = conn_listening)) as [E|E].
  - rewrite E. by apply drive_listening_good; [|destruct o| | |].
  - assert (good (drive_client realloc_ok s t fd c cn o)) by by apply drive_client_good. by destruct (state cn).
Qed.

Lemma accepted_good s t fd c nfd (ok : bool) :
  inv s -> threads s !! t = Some (Accepted fd c nfd) ->
  good match files (kernel s) !! nfd with
       | None => Fault
       | Some _ => goto s t (if ok then NewConn fd c nfd else Rejecting fd c nfd)
       end.
Proof.
  intros Hi Hp. pose proof (inv_pc s Hi t _ Hp) as (Ho & Hc & Hu). pose proof Hu as (_ & Hn & so & Hf & _).
  rewrite Hf. destruct ok; (eapply move_good; [done..|]); cbn; [done|]. by rewrite Hf.
Qed.

Lemma worker_good s t p o :
  inv s -> label_ok s (Step t o) -> threads s !! t = Some p -> good (worker_main realloc_ok s t p o).
Proof.
  intros Hi Hl Hp. destruct p; cbn [worker_main]; destruct o; try done.
  all: try by apply drive_machine_good.
  all: try by apply conn_new_good.
  - by apply at_loop_good.
  - by apply leading_good.
  - by apply poll_good.
  - by apply take_event_good.
  - by apply accepted_good.
  - by apply add_event_good.
  - by apply new_poll_good.
  - by apply new_failed_good.
  - by apply rejecting_good.
  - by apply rearming_good.
  - by apply rearm_poll_good.
  - by apply delete_event_good.
  - by apply close_poll_good.
  - by eapply close_file_good.
  - by apply close_free_good.
Qed.

(** Data that arrives, and the end of the stream, are consistent with every
    stage of the connection. *)
Lemma arrive_le so bs :
  zlen (s_in so ++ bs) < 2 ^ 30 -> rx_eof (s_net so) = false ->
  let w := s_net so in
  file_le (Client so) (Client (Sock
    (Net (rx w ++ bs) false (tx w) (calls w) (allocs w) (asked w) (bytes_read w) (bytes_written w))
    (s_kernel so) (s_registry so) (s_in so ++ bs))).
Proof.
  intros Hb He w. subst w. split; [|split].
  - intros cn [[p H]|H]; [left; exists p; by apply live_arrive|right; by apply shut_extend].
  - intros (H1 & H2 & H3 & _). split; [done|]. split; [done|]. cbn. by rewrite H3.
  - intros [Hr Hp]. split; [done|]. cbn. etrans; [exact Hp|]. apply serve_prefix.
Qed.

Lemma step_good s l : inv s -> label_ok s l -> good (step realloc_ok s l).
Proof.
  intros Hi Hl. destruct l as [t o|fd bs|fd|]; cbn [step].
  - destruct (threads s !! t) eqn:Hp; [by apply worker_good|done].
  - destruct (files (kernel s) !! fd) as [[|so]|] eqn:Ef; try done.
    destruct (rx_eof (s_net so)) eqn:Ee; [done|]. cbn [good]. apply (sock_inv s fd so); [done..|].
    apply arrive_le; [by apply Hl|done].
  - destruct (files (kernel s) !! fd) as [[|so]|] eqn:Ef; try done.
    cbn [good]. by apply (sock_inv s fd so).
  - cbn [good]. destruct Hi. split; done.
Qed.

(** ** Start-up *)

Lemma listen_inv s fd n :
  inv s -> threads s = [] -> files (kernel s) !! fd = None -> heap (mem s) !! n = None ->
  0 <= fd < AE_SETSIZE -> conns (loop s) !! fd = None ->
  inv (set_armed (set_conns (set_heap (set_files s (<[fd:=Listener]> (files (kernel s))))
         (<[n:=conn_reset (conn_calloc 1) fd conn_listening]> (heap (mem s)))) (<[fd:=n]> (conns (loop s))))
         (aeApiAddEvent fd (armed (kernel s)))).
Proof.
  intros Hi Ht Hf Hn Hb Hc. set (s' := set_armed _ _).
  assert (n ∉ freeconns (mem s)) as Hnf.
  { intros (cn & E & _)%(inv_kept s Hi). congruence. }
  assert (forall t p, threads s' !! t = Some p -> False) as Hno by (intros t p; cbn; by rewrite Ht).
  split; try (by intros; exfalso; eapply Hno).
  - intros f c. cbn. destruct (decide (f = fd)) as [->|Hne].
    + rewrite lookup_insert_eq. intros [= <-]. split; [done|]. split; [done|]. eexists. cbn.
      rewrite !lookup_insert_eq. split; [done|]. split; [done|]. split; [done|].
      by apply reset_kept, calloc_kept.
    + rewrite lookup_insert_ne by done. intros Hfc. destruct (inv_conns s Hi _ _ Hfc) as [? Ho]. split; [done|].
      destruct Ho as (Hb' & cn & E & Hfine). split; [done|]. exists cn. cbn.
      rewrite !lookup_insert_ne by congruence. done.
  - apply (inv_free s Hi).
  - intros c Hin. cbn. rewrite lookup_insert_ne by (intros ->; done). by apply (inv_kept s Hi).
  - apply (inv_ready s Hi).
  - apply (inv_waiting s Hi).
  - intros f Hin. destruct (inv_fired s Hi f Hin) as [[c Hfc] Ha]. cbn.
    assert (f <> fd) by congruence. rewrite lookup_insert_ne, add_armed by done. done.
  - intros f. cbn. destruct (decide (f = fd)) as [->|Hne]; [by rewrite lookup_insert_eq|].
    rewrite add_armed, lookup_insert_ne by done. apply (inv_armed s Hi).
  - intros t. cbn. apply (inv_holder s Hi).
  - intros f so. cbn. rewrite lookup_insert_Some. intros [[_ ?]|[_ ?]]; [done|by apply (inv_socks s Hi f)].
  - apply (inv_bugs s Hi).
Qed.

Lemma server_socket_inv socks s s' :
  inv s -> threads s = [] -> server_socket socks s = Some s' -> inv s' /\ threads s' = [] /\ leader (loop s') = leader (loop s).
Proof.
  revert s. induction socks as [|[fd n] socks IH]; intros s Hi Ht; cbn [server_socket]; [by intros [= <-]|].
  case_bool_decide as Hfree; [done|]. cbn [orb]. destruct (Z.ltb_spec fd 0); [done|].
  destruct (Z.leb_spec AE_SETSIZE fd); [done|]. destruct (conns (loop s) !! fd) eqn:Ec; [done|].
  intros H1. assert (files (kernel s) !! fd = None) as Hf.
  { destruct (files (kernel s) !! fd); [|done]. destruct Hfree. by left. }
  assert (heap (mem s) !! n = None) as Hn.
  { destruct (heap (mem s) !! n); [|done]. destruct Hfree. by right. }
  exact (IH _ (listen_inv s fd n Hi Ht Hf Hn (conj H H0) Ec) Ht H1).
Qed.

Lemma start_inv nthread socks s : start nthread socks = Some s -> inv s.
Proof.
  unfold start. intros (s1 & Hs & [= <-])%obind_Some.
  apply server_socket_inv in Hs as (Hi & Ht & Hl); [| |done].
  - assert (forall t p, replicate (Nat.max 1 nthread) AtLoop !! t = Some p -> p = AtLoop) as Hr.
    { intros t p Hp. by apply lookup_replicate in Hp as [-> _]. }
    destruct Hi. split; cbn; try done.
    + intros t p ->%Hr. done.
    + intros t p fd ->%Hr. by intros ?%not_elem_of_nil.
    + intros t p c ->%Hr. by intros ?%not_elem_of_nil.
    + intros t1 t2 p1 p2 fd ->%Hr _. by intros ?%not_elem_of_nil.
    + intros t1 t2 p1 p2 fd ->%Hr _. by intros ?%not_elem_of_nil.
    + intros t p ->%Hr. cbn in Hl. by rewrite Hl.
    + intros t. cbn in Hl. by rewrite Hl.
  - split; cbn; try done; try (by intros ? ? ?; rewrite lookup_empty); try (by intros ? ?; rewrite lookup_empty).
    + apply NoDup_nil_2.
    + by intros c ?%not_elem_of_nil.
    + apply NoDup_nil_2.
    + by intros fd ?%not_elem_of_nil.
Qed.

(** The states the workers can reach, under every schedule. *)
Inductive reachable : sys -> Prop :=
| reach_start nthread socks s : start nthread socks = Some s -> reachable s
| reach_step s l s' : reachable s -> label_ok s l -> step realloc_ok s l = Next s' -> reachable s'.

Lemma workers_inv s : reachable s -> inv s.
Proof.
  induction 1 as [n socks s H|s l s' _ IH Hl Hs]; [by eapply start_inv|].
  pose proof (step_good s l IH Hl) as Hg. by rewrite Hs in Hg.
Qed.

(** ** No worker is stuck *)

(** Something the outside may do that lets a worker move. *)
Definition let_move (s : sys) (p : pc) : oracle :=
  match p with
  | Polling => Ready []
  | Driving _ c =>
      match heap (mem s) !! c with
      | Some cn => if bool_decide (state cn = conn_listening) then Refuse else Tau
      | None => Tau
      end
  | NewConn _ _ _ => match freeconns (mem s) with [] => Alloc None | _ => Tau end
  | Accepted _ _ _ | NewPoll _ _ _ _ | NewFailed _ _ _ _ | RearmPoll _ _ | CloseFree _ => Result true
  | _ => Tau
  end.

Lemma drive_unblocked s t fd c : drive_machine realloc_ok s t fd c (let_move s (Driving fd c)) <> Blocked.
Proof.
  unfold drive_machine, let_move. destruct (heap (mem s) !! c) as [cn|]; [|done].
  case_bool_decide as E.
  - rewrite E. unfold drive_listening. by repeat case_match.
  - assert (drive_client realloc_ok s t fd c cn Tau <> Blocked) by (unfold drive_client, goto; by repeat case_match).
    by destruct (state cn).
Qed.

Lemma worker_unblocked s t p :
  p <> Finished -> (p = AtLoop -> daemon_quit s = true \/ leader (loop s) = None) ->
  worker_main realloc_ok s t p (let_move s p) <> Blocked.
Proof.
  intros Hp Ha. destruct p; try done; try apply drive_unblocked; cbn [let_move worker_main].
  - destruct (Ha eq_refl) as [-> | ->]; [done|]. by case_match.
  - unfold unlock, goto. by repeat case_match.
  - unfold take_event, unlock, close, goto. by repeat case_match.
  - unfold goto. by case_match.
  - unfold conn_new, goto. destruct (freeconns (mem s)); [done|]. by case_match.
  - unfold add_event, goto. by repeat case_match.
  - unfold recycle, conn_free, goto. by repeat case_match.
  - unfold close, goto. by case_match.
  - unfold goto. by repeat case_match.
  - unfold goto. by repeat case_match.
  - unfold delete_event, goto. by repeat case_match.
  - unfold goto. by case_match.
  - unfold close_file, close, goto. by repeat case_match.
  - unfold close_free, recycle, conn_free, goto. by repeat case_match.
Qed.

Lemma worker_moves s t p :
  inv s -> threads s !! t = Some p -> p <> Finished ->
  (p = AtLoop -> daemon_quit s = true \/ leader (loop s) = None) ->
  exists o s', label_ok s (Step t o) /\ step realloc_ok s (Step t o) = Next s'.
Proof.
  intros Hi Hp Hne Ha. exists (let_move s p).
  assert (label_ok s (Step t (let_move s p))) as Hl.
  { destruct p; cbn; try done; repeat case_match; done. }
  pose proof (worker_good s t p _ Hi Hl Hp) as Hg. pose proof (worker_unblocked s t p Hne Ha) as Hb.
  cbn [step]. rewrite Hp. destruct (worker_main _ _ _ _ _) as [| |s']; [done..|]. by exists s'.
Qed.

(** C6: workers never fault and never deadlock, as long as memory lasts
    ([realloc] succeeds), the registry replies to every query (with any list)
    and no client sends 2^30 bytes or more.  In every state the workers of
    the dispatcher can reach under these conditions, whatever their number
    and schedule, no step of a worker, a client or a signal breaks an
    assertion, follows a null or dangling pointer, leaves an array or uses a
    closed descriptor; and a worker that has not finished can move, or waits
    for the mutex of another worker that can. *)
Theorem workers_safe s :
  reachable s ->
  (forall l, label_ok s l -> step realloc_ok s l <> Fault) /\
  (forall t p, threads s !! t = Some p -> p <> Finished ->
     exists t' o s', label_ok s (Step t' o) /\ step realloc_ok s (Step t' o) = Next s' /\
       (t' = t \/ p = AtLoop /\ leader (loop s) = Some t')).
Proof.
  intros Hr%workers_inv. split.
  - intros l Hl Hf. pose proof (step_good s l Hr Hl) as Hg. by rewrite Hf in Hg.
  - intros t p Hp Hne.
    destruct (decide (p = AtLoop -> daemon_quit s = true \/ leader (loop s) = None)) as [Ha|Ha].
    + destruct (worker_moves s t p Hr Hp Hne Ha) as (o & s' & ? & ?). exists t, o, s'. auto.
    + assert (p = AtLoop /\ exists t', leader (loop s) = Some t') as (-> & t' & Hl).
      { destruct (decide (p = AtLoop)) as [->|?]; [|by destruct Ha]. split; [done|].
        destruct (leader (loop s)) as [t'|]; [by exists t'|]. destruct Ha. auto. }
      destruct (inv_holder s Hr t' Hl) as [p' Hp']. pose proof (inv_leader s Hr t' p' Hp') as Hlp.
      rewrite bool_decide_eq_true_2 in Hlp by done.
      destruct (worker_moves s t' p' Hr Hp') as (o & s' & ? & ?); [by intros ->|by intros ->|]. exists t', o, s'. auto.
Qed.

(** C5: a connection has one worker.  In every state the workers can reach
    (with memory, a registry that replies and clients that send less than
    2^30 bytes, as for the theorem above), no two of them work on the same connection structure, at most one holds
    the event loop, the branch that reports a descriptor without connection
    has never been taken, and every client was sent a prefix of the replies to
    the command lines it sent, in order. *)
Theorem workers_exclusive s :
  reachable s ->
  (forall t1 t2 p1 p2 c, threads s !! t1 = Some p1 -> threads s !! t2 = Some p2 ->
     c ∈ pc_addrs p1 -> c ∈ pc_addrs p2 -> t1 = t2) /\
  (forall t1 t2 p1 p2, threads s !! t1 = Some p1 -> threads s !! t2 = Some p2 ->
     leads p1 = true -> leads p2 = true -> t1 = t2) /\
  bugs s = 0%nat /\
  (forall fd so, files (kernel s) !! fd = Some (Client so) ->
     tx (s_net so) `prefix_of` serve (s_registry so) 0 [] (s_in so)).
Proof.
  intros Hi%workers_inv. split; [apply (inv_addrs s Hi)|]. split; [|split; [apply (inv_bugs s Hi)|]].
  - intros t1 t2 p1 p2 H1 H2 L1 L2.
    pose proof (leader_is s t1 Hi p1 H1 L1). pose proof (leader_is s t2 Hi p2 H2 L2). congruence.
  - intros fd so Hf. by apply (inv_socks s Hi fd).
Qed.

End Workers.

(** ** Two workers and a client *)
Module Demo.
Import DConnProofs.Demo.

(** Run a schedule, checking the bound on what clients send. *)
Fixpoint run_labels (ls : list label) (s : sys) : option sys :=
  match ls with
  | [] => Some s
  | l :: ls =>
      let fits := match l with
                  | Arrive fd bs =>
                      match files (kernel s) !! fd with
                      | Some (Client so) => zlen (s_in so ++ bs) <? 2 ^ 30
                      | _ => true
                      end
                  | _ => true
                  end in
      match step plenty s l with
      | Next s => if fits : bool then run_labels ls s else None
      | _ => None
      end
  end.

Definition registered (l : label) : Prop :=
  match l with Step _ (Incoming _ _ reg) => reg = one_server | _ => True end.

Lemma run_labels_reachable ls s s' :
  Forall registered ls -> reachable plenty s -> run_labels ls s = Some s' -> reachable plenty s'.
Proof.
  intros Hall. revert s. induction Hall as [|l ls Hreg _ IH]; intros s Hr; cbn [run_labels]; [by intros [= <-]|].
  destruct (step plenty s l) as [| |s1] eqn:Es; [done..|]. destruct (match l with Arrive _ _ => _ | _ => _ end) eqn:Ef; [|done].
  apply IH. eapply reach_step; [done| |done]. destruct l as [t o|fd bs|fd|]; try done.
  - destruct o; try done. cbn in *. subst. done.
  - intros so Hso. cbn in Ef. rewrite Hso in Ef. by apply Z.ltb_lt.
Qed.

(** Worker 0 accepts the client while worker 1 waits for events; the client's
    command arrives before its connection is set up, and worker 1 serves it
    while worker 0 is still at the listening socket. *)
Definition schedule : list label :=
  [Step 0 Tau; Step 0 Tau; Step 0 (Ready [3]); Step 0 Tau; Step 0 Tau;
   Step 1 Tau; Step 1 Tau;
   Step 0 (Incoming 5 fast one_server); Arrive 5 (bytes_of_string "loadbalance msgservers" ++ [10]);
   Step 0 (Result true); Step 0 (Alloc (Some 1%nat)); Step 0 Tau; Step 0 (Result true);
   Step 1 (Ready [5]); Step 1 Tau; Step 1 Tau;
   Step 1 Tau; Step 1 Tau; Step 1 Tau; Step 1 Tau].

Definition demo_start : option sys := start 2 [(3, 0%nat)].
Definition demo_state : option sys := obind demo_start (run_labels schedule).

Definition served (s : sys) : option (list pc * list Z) :=
  match files (kernel s) !! 5 with
  | Some (Client so) => Some (threads s, tx (s_net so))
  | _ => None
  end.

(** Both workers are busy, on different connections, and the reply is out. *)
Lemma demo_served :
  obind demo_state served = Some ([Driving 3 0; Driving 5 1], bytes_of_string "127.0.0.1:6001" ++ CRLF).
Proof. vm_compute. reflexivity. Qed.

Lemma demo_reachable : exists s, demo_state = Some s /\ reachable plenty s.
Proof.
  pose proof demo_served as Hd. apply obind_Some in Hd as (s & Hs & _). exists s. split; [exact Hs|].
  unfold demo_state in Hs. apply obind_Some in Hs as (s0 & H0 & Hs).
  eapply run_labels_reachable; [|eapply (reach_start plenty); exact H0|exact Hs]. repeat constructor.
Qed.

Lemma workers_safe_witness :
  exists s, demo_state = Some s /\ reachable plenty s /\ step plenty s (Step 1 Tau) <> Fault.
Proof.
  destruct demo_reachable as (s & E & Hr). exists s. split; [exact E|]. split; [exact Hr|].
  by apply (proj1 (workers_safe plenty (fun n => eq_refl) s Hr)).
Defined.

Lemma workers_exclusive_witness :
  exists s, demo_state = Some s /\ reachable plenty s /\ bugs s = 0%nat /\
    forall t1 t2, threads s !! t1 = Some (Driving 5 1) -> threads s !! t2 = Some (Driving 5 1) -> t1 = t2.
Proof.
  destruct demo_reachable as (s & E & Hr). exists s. split; [exact E|]. split; [exact Hr|].
  destruct (workers_exclusive plenty (fun n => eq_refl) s Hr) as (H1 & _ & H2 & _). split; [done|].
  intros t1 t2 P1 P2. by apply (H1 t1 t2 _ _ 1%nat P1 P2); apply list_elem_of_singleton.
Defined.

End Demo.

End DLoopSafe.
